(* ===== verification/_CoqProject ===== *)
-Q . S2P
Prelude.v
PyStr.v
PyVal.v
Json.v
Sha256.v
Files.v
Tickets.v
Egress.v
WorkerStream.v
WorkerText.v
ExecutionResult.v
ReportDecoding.v
RuntimeData.v
RuntimeStore.v
StateInvariant.v
CommitMessages.v
Workspace.v
Scheduler.v
Drop.v
Control.v
Integration.v
Lifecycle.v
History.v
IntegrationSafety.v
Repository.v
LifecycleSafety.v
IntegrationReplay.v
LifecycleReplay.v
Operator.v
OperatorProtocol.v
OperatorReplay.v
IpcProtocol.v
IpcServer.v
IpcClient.v
IpcSession.v
IpcOutcome.v
WorkerPrompt.v
Engine.v
Execution.v
Recovery.v
Synchronize.v
IterationPlan.v
Iteration.v
Announced.v
Licenses.v
Turns.v
RecoverySafety.v
IterationSafety.v
Admission.v
IterationReplay.v
UpdateBase.v
OwnerOperations.v
Grounded.v
OwnerSteps.v
Owner.v
OwnerReplay.v
RewriteSafety.v
RewriteReplay.v
Containment.v
WorkerSupervisor.v
WorkerReader.v
WorkerSafety.v
WorkerIdentity.v
WorkerDrain.v
WorkerReplay.v
ControlInit.v
RuntimeLocator.v
Systemd.v
SystemdSafety.v
SystemdReplay.v
Registry.v
LogReader.v
LogFollow.v
