(* ===== verification/Prelude.v ===== *)
(** * Devlegate, verified

    Devlegate (src/src/devlegate) is a service that hands the tickets of a Git
    repository to coding agents.  One process owns a repository: it reads tickets
    from a control branch, prepares one Git worktree per ticket, runs a worker in
    it, checkpoints and reports what the worker did, integrates accepted work
    into the product branch, and answers operators over a Unix socket.  This
    development models the parts of that program that decide, and proves what
    they promise.

    ** Foundations

    - [Prelude]: exceptions as values ([exn]), the result monad [res], the state
      monad with exceptions [py] in which a raise keeps the state reached so far,
      lemmas on lists and options, hint databases.
    - [PyStr], [PyVal], [Json], [Sha256]: Python's strings (as UTF-8 bytes),
      JSON-like values and dictionaries in insertion order, [json.dumps] and
      [json.loads], SHA-256, all executable.
    - [Files]: the file operations the stores use, on a tree of paths, recording
      each intermediate state so that crashes can be stated.

    ** Data and stores

    - [Tickets] (tickets.py): parsing and loading the ticket store, cycle check,
      runnable tickets.
    - [Egress] (worker_egress.py): the report a worker may make, exactly once.
    - [ExecutionResult] (execution_result.py): conclusions of a run, reports,
      their validator and their store with its commit order; [ReportDecoding]
      that the validator accepts exactly what describes a canonical report.
    - [RuntimeData] (runtime.py, up to the engine): snapshots, plans, request and
      workflow fingerprints, worker identity.
    - [RuntimeStore] (runtime_store.py): the persistence boundary as a class with
      laws, and SQLite as a database value with failing connect, begin and commit.
    - [StateInvariant] (runtime.py): [_load_state], the invariant of the persisted
      state and [_save_state].
    - [CommitMessages] (commit_messages.py): wrapping and trailers.

    ** The engine

    - [Workspace] (execution_workspace.py): worktrees per ticket, against a class
      of Git and file system operations.
    - [Scheduler] (runtime.py): admission barriers, the execution plan, the
      evaluation of failed executions, the status view.
    - [Control], [Integration], [Lifecycle] (runtime.py): the control checkout,
      integration of accepted tickets, publication of results on the control
      branch.  [History] is the program logic for runs of Git commands, proved
      sound for every world; [IntegrationSafety] and [LifecycleSafety] prove what
      every run may push, remove and reset and what success means;
      [Repository] is one concrete repository, in which [IntegrationReplay] and
      [LifecycleReplay] run the code.
    - [ControlInit] (runtime.py): the creation of the control branch and its
      worktree, or their attachment.
    - [Drop] (runtime.py): dropping an execution without losing its checkpoint.
    - [Operator] (runtime.py): the single slot through which operators' mutations
      reach the owner thread, their receipts, and the drain of the service, as a
      step relation of client and owner over a shared heap of commands;
      [OperatorProtocol] proves the invariant, the refinement of a register of
      accepted requests, exclusion, drain and progress; [OperatorReplay] proves
      replay and shows where answers are wrong.

    ** The iteration of the service

    - [Engine] (runtime.py): the engine as one machine: its durable state, the
      repositories and the host, the attributes it keeps in memory, and a record
      of everything it does; the published views.
    - [Execution] (runtime.py): the observation of the product generation, the
      recovery of checkpoints and publications, the final state of an execution.
    - [Recovery] (runtime.py): stranded executions, an operator's recovery of an
      unsafe workspace, the resumption of a reconciliation.
    - [UpdateBase] (runtime.py): the reconciliation of an execution with a new
      base, and what an interrupted one left behind.
      [RewriteSafety] proves that it announces every change of the execution
      branch in a durable record; [RewriteReplay] runs it in a concrete
      repository and shows two ways in which it cannot be completed any more.
    - [OwnerOperations] (runtime.py): the checks that admit an operator's
      command, the retry and the forced retry, the adoption of a rewritten control
      history.
    - [Grounded] proves what every operation of the engine leaves alone;
      [OwnerSteps] that a relation which the operations keep is kept by every step
      of the service; [Owner] instantiates the interface of the command protocol
      with the engine, and proves that what a client was told is in the database;
      [OwnerReplay] runs such a request.
    - [WorkerPrompt] (worker_prompt.py): the prompt of a worker.
    - [Synchronize], [IterationPlan], [Iteration] (runtime.py): [run_iteration]
      in the order of the code: what a persisted state resumes, the
      fast-forward of the product, the plan, accepted work, admission, the
      worker, checkpoint, publication and lifecycle.
    - [Announced] says what a durable state licenses and has the triples in which
      the iteration is verified; [Licenses] and [Turns] give them for the
      operations of the other files; [RecoverySafety] and [IterationSafety]
      prove that an iteration announces everything it does, [Admission] what
      authority a repeated execution needs, and [IterationReplay] runs whole
      iterations in a concrete host.

    ** The worker

    - [WorkerStream], [WorkerText] (worker_supervisor.py): the three threads on a
      worker's pipes as functions of the bytes that arrive: the event protocol on
      its standard output, its standard error, the prompt on its standard input;
      every text becomes inert before it is shown or logged.
    - [Containment] (execution_containment.py): the control group of a worker and
      its probe, each call of the operating system recorded as an action.
    - [WorkerSupervisor] (worker_supervisor.py): a supervised run, from the private
      configuration to the result; interruption, termination, retirement, the
      identity of a process, the drain of the supervisor.
    - [WorkerReader] proves how far the reading thread gets: to the end of the
      output, or to an event of which it dies.
    - [WorkerSafety] proves what a retired boundary, an accepted run, an
      interruption and the terminal show; [WorkerIdentity] and [WorkerDrain] that
      identities are recognised and that a drained supervisor admits nothing;
      [WorkerReplay] runs the supervisor on a concrete host and shows two runs
      whose results are wrong.

    ** The host of a project

    - [RuntimeLocator] (runtime_locator.py): the configuration file and where the
      state, the socket and the logs of a project are.
    - [Registry] (project_registry.py): the registry of aliases over a file whose
      writes may be refused; two usable aliases never name one repository.
    - [Systemd] (systemd_supervisor.py, launcher.py): the unit of a project, its
      classification, installation and removal, and the wait for readiness, each
      call recorded; [SystemdSafety] proves which units an operation may replace
      or remove, [SystemdReplay] runs it and shows three ways in which it fails
      its user.
    - [LogReader] (log_reader.py): the last records of a log, read backwards in
      chunks, the resolution of an execution from a prefix, the logs of a ticket
      and the following of an execution; [LogFollow] follows a log that grows and
      shows two ways of missing the end.

    ** The socket

    - [IpcProtocol] (ipc_protocol.py): messages and frames over streams that
      deliver and accept bytes in pieces or break.
    - [IpcServer] (ipc_server.py): dispatch of every method and the handler of a
      connection, against a class of engine operations.
    - [IpcClient] (ipc_client.py, and the exchanges of cli.py): one request with
      its replay, and the decoders of the answers.
    - [IpcSession], [IpcOutcome]: a command over the wire, the handler refines an
      exchange of messages and ends, what a client knows afterwards.

    ** How the model corresponds to the code

    A method is a definition of the same name in the monad [py] over the state it
    touches; a part of a long method has a name of its own and the method is
    their composition.  Dictionaries keep their order; text is UTF-8; integers
    are unbounded, as Python's are.  Git, the file system, sqlite, the clock and
    the NanoYAML parser are parameters: classes of operations, with documented
    behaviour as named hypotheses, instantiated in the witnesses.  Loops of the
    code are structural where they run over data; loops that retry carry the
    bound of the code as fuel (publication, client attempts, status attempts);
    the handler of a connection takes fuel and [server_loop_ends] shows that as
    many passes as there is to read are enough; the dependency search takes one
    step per ticket and [check_cycles_decides] shows that it is enough; the waits
    for a worker and for its control group take fuel, which [watch_ends] and
    [wait_until_enough] show to be enough for a process that ends and a clock that
    advances; so does the wait for a unit to be ready, which
    [readiness_wait_ends] shows to end; the followers of a log take fuel, and
    [follow_ends_with_report] gives enough for an execution that gets its report.

    ** Not modelled

    The terminal's settings around a worker, execution_launcher.py (it joins a
    control group and replaces itself) and the test doubles of the containment;
    what a failing log or terminal does to the running worker (the code
    terminates it; the model only keeps the error); Python's recursion limit in the
    dependency search of tickets;
    the process that hosts the engine (daemon.py beyond the owner loop,
    service.py), the lock of the registry, project_context.py,
    runtime_identity.py, lifecycle_receipt.py and host_installation.py, which read
    the host; follow_file and the followed journal, which print for ever; argument
    parsing, printing and installation in cli.py; the tools that build
    distributions. *)

From stdpp Require Export base tactics list option strings gmap sorting.
From Stdlib Require Export ZArith Lia.

(** * Exceptions and the result monad *)

(** The exception classes the modelled code raises or catches. *)
Inductive exn_class : Type :=
  | DevlegateError
  | WorkflowBlockedError
  | WorkspacePreparationBlockedError
  | ShutdownInterrupted
  | SnapshotChanged
  | TicketError
  | ExecutionReportError
  | WorkerProtocolError
  | WorkerAdmissionClosed
  | WorkerSupervisionError
  | ContainmentError
  | IPCProtocolError (code : string) (fatal : bool)
  | IPCClientError (application uncertain : bool) (code : option string)
  | RuntimeStoreError
  | RuntimeLocatorError
  | ProjectRegistryError
  | ProjectContextError
  | LogReaderError
  | SystemdSupervisorError
  | HostInstallationError
  | RuntimeAuthorityPresent
  | OperationalLogError
  | PyKeyError
  | PyTypeError
  | PyIndexError
  | PyValueError
  | PyAssertionError
  | PyAttributeError
  | PyFileNotFoundError
  | PyFileExistsError
  | PyOSError
  | PyRecursionError
  | PySubprocessError
  | PyTimeoutExpired
  | PyUnicodeError
  | PyKeyboardInterrupt
  | ExecutionWorkspaceError
  | ExecutionWorkspaceConflict.

#[global] Instance exn_class_eq_dec : EqDecision exn_class.
Proof. solve_decision. Defined.

(** An exception value: its class and [str(error)]. *)
Record exn : Type := Exn { exn_cls : exn_class; exn_msg : string }.

#[global] Instance exn_eq_dec : EqDecision exn.
Proof. solve_decision. Defined.

(** [except Exception] *)
Definition is_exception (e : exn) : bool := negb (bool_decide (exn_cls e = PyKeyboardInterrupt)).

(** [except DevlegateError] also catches its two subclasses. *)
Definition is_devlegate_error (e : exn) : bool :=
  match exn_cls e with
  | DevlegateError | WorkflowBlockedError | WorkspacePreparationBlockedError => true
  | _ => false
  end.

(** A Python computation without mutable state: a value or an exception. *)
Inductive res (A : Type) : Type :=
  | Ok (a : A)
  | Raise (e : exn).
Arguments Ok {A} a.
Arguments Raise {A} e.

#[global] Instance res_eq_dec `{EqDecision A} : EqDecision (res A).
Proof. solve_decision. Defined.

#[global] Instance res_ret : MRet res := @Ok.
#[global] Instance res_bind : MBind res := fun A B f m =>
  match m with Ok a => f a | Raise e => Raise e end.
#[global] Instance res_fmap : FMap res := fun A B f m =>
  match m with Ok a => Ok (f a) | Raise e => Raise e end.

(** [raise cls(msg)] *)
Definition raise {A} (c : exn_class) (msg : string) : res A := Raise (Exn c msg).

(** [if not b: raise cls(msg)] *)
Definition ensure (b : bool) (c : exn_class) (msg : string) : res unit :=
  if b then Ok tt else raise c msg.

(** [try: m except cls as e: h e], the class test given as a predicate. *)
Definition catch {A} (m : res A) (p : exn -> bool) (h : exn -> res A) : res A :=
  match m with
  | Raise e => if p e then h e else Raise e
  | Ok a => Ok a
  end.

Definition is_class (c : exn_class) (e : exn) : bool := bool_decide (exn_cls e = c).

(** [for x in l: f x] / [[f x for x in l]], stopping at the first exception. *)
Fixpoint res_map {A B} (f : A -> res B) (l : list A) : res (list B) :=
  match l with
  | [] => Ok []
  | x :: l' => y ← f x; ys ← res_map f l'; Ok (y :: ys)
  end.

(** [all(p x for x in l)] and [any(...)] for a test that can raise: both stop
    at the first decisive element. *)
Fixpoint res_all {A} (p : A -> res bool) (l : list A) : res bool :=
  match l with
  | [] => Ok true
  | x :: l' => b ← p x; if (b : bool) then res_all p l' else Ok false
  end.

Fixpoint res_any {A} (p : A -> res bool) (l : list A) : res bool :=
  match l with
  | [] => Ok false
  | x :: l' => b ← p x; if (b : bool) then Ok true else res_any p l'
  end.

Fixpoint res_filter {A} (p : A -> res bool) (l : list A) : res (list A) :=
  match l with
  | [] => Ok []
  | x :: l' => b ← p x; xs ← res_filter p l'; Ok (if (b : bool) then x :: xs else xs)
  end.

Fixpoint res_fold {A B} (f : A -> B -> res A) (a : A) (l : list B) : res A :=
  match l with
  | [] => Ok a
  | x :: l' => a' ← f a x; res_fold f a' l'
  end.

(** [[x for x in l if x is not None]] *)
Fixpoint cat_options {A} (l : list (option A)) : list A :=
  match l with
  | [] => []
  | Some x :: l' => x :: cat_options l'
  | None :: l' => cat_options l'
  end.

Create HintDb py.
Create Rewrite HintDb pystr.

(** * A state monad over [res]: an exception keeps the mutations made before it *)

Definition py (S A : Type) : Type := S -> res A * S.

#[global] Instance py_ret {S} : MRet (py S) := fun A a s => (Ok a, s).
#[global] Instance py_bind {S} : MBind (py S) := fun A B f m s =>
  match m s with
  | (Ok a, s') => f a s'
  | (Raise e, s') => (Raise e, s')
  end.

Definition py_lift {S A} (m : res A) : py S A := fun s => (m, s).
Definition py_raise {S A} (c : exn_class) (msg : string) : py S A :=
  fun s => (raise c msg, s).
Definition py_get {S} : py S S := fun s => (Ok s, s).
Definition py_modify {S} (f : S -> S) : py S unit := fun s => (Ok tt, f s).
Definition py_ensure {S} (b : bool) (c : exn_class) (msg : string) : py S unit :=
  fun s => (ensure b c msg, s).
(** [try: m except p as e: h e] *)
Definition py_catch {S A} (m : py S A) (p : exn -> bool) (h : exn -> py S A) : py S A :=
  fun s => match m s with
  | (Raise e, s') => if p e then h e s' else (Raise e, s')
  | r => r
  end.
(** [try: m finally: f] for a cleanup that does not raise. *)
Definition py_finally {S A} (m : py S A) (f : S -> S) : py S A :=
  fun s => match m s with (r, s') => (r, f s') end.

(** [for x in l if p(x)] *)
Fixpoint py_filter {S A} (p : A -> py S bool) (l : list A) : py S (list A) :=
  match l with
  | [] => mret []
  | x :: l' => b ← p x; xs ← py_filter p l'; mret (if (b : bool) then x :: xs else xs)
  end.

(** * Tactics *)

(** Case analysis on every scrutinee of the goal or of a hypothesis, with the
    results of pure computations substituted. *)
Ltac res_simpl :=
  repeat match goal with
  | H : Ok _ = Ok _ |- _ => injection H as H; subst
  | H : Raise _ = Ok _ |- _ => discriminate H
  | H : Ok _ = Raise _ |- _ => discriminate H
  | H : raise _ _ = Ok _ |- _ => discriminate H
  | H : (_, _) = (_, _) |- _ => injection H as H; subst
  end.

Ltac step_in H :=
  match type of H with
  | context [match ?x with _ => _ end] => destruct x eqn:?; try discriminate H
  end.

Ltac bsplit :=
  repeat match goal with
  | H : _ && _ = true |- _ => apply andb_true_iff in H; destruct H
  | H : negb _ = true |- _ => apply negb_true_iff in H
  | H : negb _ = false |- _ => apply negb_false_iff in H
  | H : _ || _ = false |- _ => apply orb_false_iff in H; destruct H
  | H : String.eqb _ _ = true |- _ => apply String.eqb_eq in H
  | H : String.eqb _ _ = false |- _ => apply String.eqb_neq in H
  | H : bool_decide _ = true |- _ => apply bool_decide_eq_true in H
  | H : bool_decide _ = false |- _ => apply bool_decide_eq_false in H
  end.

(** * Laws of the monadic combinators *)

Lemma py_bind_run {S A B} (m : py S A) (f : A -> py S B) s :
  (m ≫= f) s = match m s with (Ok a, s') => f a s' | (Raise x, s') => (Raise x, s') end.
Proof. reflexivity. Qed.

Lemma py_lift_run {S A} (r : res A) (s : S) : py_lift r s = (r, s).
Proof. reflexivity. Qed.

Lemma py_get_run {S} (s : S) : py_get s = (Ok s, s).
Proof. reflexivity. Qed.

Lemma py_ensure_run {S} b k msg (s : S) :
  py_ensure b k msg s = (if b then (Ok tt, s) else (raise k msg, s)).
Proof. by destruct b. Qed.

(** Run the next statement of a computation applied to a state. *)
Ltac run := rewrite py_bind_run, ?py_lift_run, ?py_get_run, ?py_ensure_run.

Lemma res_bind_ok {A B} (m : res A) (f : A -> res B) b :
  m ≫= f = Ok b <-> exists a, m = Ok a /\ f a = Ok b.
Proof.
  destruct m; cbn; split.
  - eauto.
  - intros (? & [= <-] & ?). done.
  - done.
  - intros (? & ? & _). done.
Qed.

Lemma ensure_ok b c msg : ensure b c msg = Ok tt <-> b = true.
Proof. destruct b; cbn; split; done. Qed.

Lemma res_map_ok {A B} (f : A -> res B) l ys :
  res_map f l = Ok ys <-> Forall2 (fun x y => f x = Ok y) l ys.
Proof.
  revert ys. induction l as [|x l IH]; intros ys; cbn.
  - split; [intros [= <-]; constructor | inversion 1; done].
  - rewrite res_bind_ok. split.
    + intros (y & Hy & Hr). apply res_bind_ok in Hr as (zs & Hz & [= <-]).
      constructor; [done | by apply IH].
    + intros (y & ys' & Hy & Hys & ->)%Forall2_cons_inv_l. exists y. split; [done|].
      apply res_bind_ok. exists ys'. split; [by apply IH | done].
Qed.

Lemma res_all_ok_true {A} (p : A -> res bool) l :
  res_all p l = Ok true <-> Forall (fun x => p x = Ok true) l.
Proof.
  induction l as [|x l IH]; cbn.
  - split; [constructor | done].
  - rewrite res_bind_ok, Forall_cons. split.
    + intros ([] & Hx & Hl); [by rewrite <- IH | done].
    + intros [Hx Hl]. exists true. by rewrite IH.
Qed.

(** A test that never raises behaves as its boolean version. *)
Lemma res_all_pure {A} (p : A -> res bool) (q : A -> bool) l :
  Forall (fun x => p x = Ok (q x)) l -> res_all p l = Ok (forallb q l).
Proof.
  induction 1 as [|x l Hx _ IH]; cbn; [done|].
  rewrite Hx. cbn. by destruct (q x).
Qed.

Lemma res_any_pure {A} (p : A -> res bool) (q : A -> bool) l :
  Forall (fun x => p x = Ok (q x)) l -> res_any p l = Ok (existsb q l).
Proof.
  induction 1 as [|x l Hx _ IH]; cbn; [done|].
  rewrite Hx. cbn. by destruct (q x).
Qed.

Lemma res_filter_pure {A} (p : A -> res bool) (q : A -> bool) l :
  Forall (fun x => p x = Ok (q x)) l -> res_filter p l = Ok (List.filter q l).
Proof.
  induction 1 as [|x l Hx _ IH]; cbn; [done|].
  rewrite Hx. cbn. rewrite IH. cbn. by destruct (q x).
Qed.

Lemma res_map_pure {A B} (f : A -> res B) (g : A -> B) l :
  Forall (fun x => f x = Ok (g x)) l -> res_map f l = Ok (map g l).
Proof.
  induction 1 as [|x l Hx _ IH]; cbn; [done|].
  rewrite Hx. cbn. by rewrite IH.
Qed.

(** A loop of checks that finishes has passed every element. *)
Lemma res_map_each {A B} (f : A -> res B) xs ys x :
  res_map f xs = Ok ys -> x ∈ xs -> exists y, f x = Ok y /\ y ∈ ys.
Proof.
  rewrite res_map_ok. induction 1 as [|a b xs ys Hab _ IH]; [by intros ?%not_elem_of_nil|].
  intros [->|Hin]%elem_of_cons; [exists b; by split; [|left]|].
  destruct (IH Hin) as (y & Hy & ?). exists y. by split; [|right].
Qed.

Lemma res_map_from {A B} (f : A -> res B) xs ys y :
  res_map f xs = Ok ys -> y ∈ ys -> exists x, x ∈ xs /\ f x = Ok y.
Proof.
  rewrite res_map_ok. induction 1 as [|a b xs ys Hab _ IH]; [by intros ?%not_elem_of_nil|].
  intros [->|Hin]%elem_of_cons; [exists a; by split; [left|]|].
  destruct (IH Hin) as (x & Hx & ?). exists x. by split; [right|].
Qed.

Lemma NoDup_map_filter {A B} (f : A -> B) (p : A -> bool) l :
  NoDup (map f l) -> NoDup (map f (List.filter p l)).
Proof.
  induction l as [|x l IH]; cbn; [done|]. intros [Hx Hnd]%NoDup_cons.
  destruct (p x); cbn; [|auto]. apply NoDup_cons. split; [|auto].
  intros (y & Heq & Hy)%list_elem_of_fmap. apply list_elem_of_In, filter_In in Hy as [Hy _].
  apply Hx. rewrite Heq. apply list_elem_of_fmap_2. by apply list_elem_of_In.
Qed.

Lemma elem_of_cat_options {A} (x : A) l : x ∈ cat_options l <-> Some x ∈ l.
Proof.
  induction l as [|[y|] l IH]; cbn.
  - by rewrite !elem_of_nil.
  - rewrite !elem_of_cons, IH. split; (intros [H|H]; [left; congruence | by right]).
  - rewrite elem_of_cons, IH. split; [by right | by intros [[=]|?]].
Qed.

(** ** Accessibility and transitive closure *)

Lemma tc_last {A} (R : relation A) x z :
  tc R x z -> R x z \/ exists y, tc R x y /\ R y z.
Proof.
  induction 1 as [x z H | x y z Hxy Hyz IH]; [by left|]. right.
  destruct IH as [Hl | (m & Hm & Hl)].
  - exists y. split; [by apply tc_once | done].
  - exists m. split; [by eapply tc_l | done].
Qed.

Lemma Acc_tc {A} (R : relation A) k : Acc R k -> Acc (tc R) k.
Proof.
  induction 1 as [k _ IH]. constructor. intros y Hy.
  destruct (tc_last _ _ _ Hy) as [Hl | (m & Hm & Hl)]; [by apply IH|].
  by apply (Acc_inv (IH m Hl)).
Qed.

Lemma Acc_irrefl {A} (R : relation A) k : Acc R k -> ~ R k k.
Proof. induction 1 as [k _ IH]. intros Hk. by apply (IH k Hk). Qed.
