(* ===== verification/PyStr.v ===== *)
(** Python [str] as a Stdlib [string] holding its UTF-8 encoding: characters,
    whitespace, line splitting, the identifier and Git-identity patterns, and
    the decimal rendering of integers used by the modelled modules.  UTF-8
    preserves concatenation, equality, prefixes and code point order, so those
    operations are the ones of [string]; the operations that look at single
    characters go through [utf8_chars]. *)

From S2P Require Export Prelude.
From stdpp Require Export pretty.

(** * Characters *)

Definition byte_val (c : Ascii.ascii) : N := Ascii.N_of_ascii c.

(** A UTF-8 continuation byte, [10xxxxxx]. *)
Definition is_cont (c : Ascii.ascii) : bool :=
  (128 <=? byte_val c)%N && (byte_val c <? 192)%N.

(** The characters of a string, each as its UTF-8 byte sequence. *)
Fixpoint utf8_chars (s : string) : list string :=
  match s with
  | EmptyString => []
  | String c s' =>
      match utf8_chars s' with
      | String d t :: cs =>
          if is_cont d then String c (String d t) :: cs
          else String c EmptyString :: String d t :: cs
      | cs => String c EmptyString :: cs
      end
  end.

(** [len(s)] *)
Definition str_len (s : string) : nat := length (utf8_chars s).

Definition of_chars (cs : list string) : string := String.concat "" cs.

Fixpoint all_bytes (p : Ascii.ascii -> bool) (s : string) : bool :=
  match s with
  | EmptyString => true
  | String c s' => p c && all_bytes p s'
  end.

Definition byte_in (lo hi : N) (c : Ascii.ascii) : bool :=
  (lo <=? byte_val c)%N && (byte_val c <=? hi)%N.

Definition is_digit (c : Ascii.ascii) : bool := byte_in 48 57 c.
Definition is_upper (c : Ascii.ascii) : bool := byte_in 65 90 c.
Definition is_lower (c : Ascii.ascii) : bool := byte_in 97 122 c.
Definition is_alnum (c : Ascii.ascii) : bool := is_digit c || is_upper c || is_lower c.

(** [character in "0123456789abcdef"] *)
Definition is_lower_hex (c : Ascii.ascii) : bool := is_digit c || byte_in 97 102 c.

(** [[A-Za-z0-9][A-Za-z0-9_-]*\Z] *)
Definition is_identifier (s : string) : bool :=
  match s with
  | EmptyString => false
  | String c s' =>
      is_alnum c &&
      all_bytes (fun d => is_alnum d || (byte_val d =? 95)%N || (byte_val d =? 45)%N) s'
  end.

Definition byte_lower (c : Ascii.ascii) : Ascii.ascii :=
  if is_upper c then Ascii.ascii_of_N (byte_val c + 32) else c.

Fixpoint ascii_lower (s : string) : string :=
  match s with
  | EmptyString => EmptyString
  | String c s' => String (byte_lower c) (ascii_lower s')
  end.

(** * Affixes *)

Definition starts_with (p s : string) : bool := String.prefix p s.

Definition str_rev (s : string) : string :=
  String.string_of_list_ascii (rev (String.list_ascii_of_string s)).

Definition ends_with (p s : string) : bool := String.prefix (str_rev p) (str_rev s).

(** [s[:-n]] for a string whose last [n] characters are ASCII. *)
Definition drop_last (n : nat) (s : string) : string :=
  String.substring 0 (String.length s - n) s.

(** [s.rstrip("\r\n")] *)
Definition is_crlf (c : Ascii.ascii) : bool := (byte_val c =? 10)%N || (byte_val c =? 13)%N.

Fixpoint rstrip_bytes (p : Ascii.ascii -> bool) (s : string) : string :=
  match s with
  | EmptyString => EmptyString
  | String c s' =>
      match rstrip_bytes p s' with
      | EmptyString => if p c then EmptyString else String c EmptyString
      | t => String c t
      end
  end.

(** * Whitespace: [str.isspace] and [str.strip] *)

Definition bytes_of (l : list N) : string :=
  String.string_of_list_ascii (map Ascii.ascii_of_N l).

(** The characters for which [str.isspace()] holds. *)
Definition space_chars : list string :=
  map bytes_of
    ([ [9]; [10]; [11]; [12]; [13]; [28]; [29]; [30]; [31]; [32];
       [194; 133]; [194; 160]; [225; 154; 128];
       [226; 128; 128]; [226; 128; 129]; [226; 128; 130]; [226; 128; 131];
       [226; 128; 132]; [226; 128; 133]; [226; 128; 134]; [226; 128; 135];
       [226; 128; 136]; [226; 128; 137]; [226; 128; 138]; [226; 128; 168];
       [226; 128; 169]; [226; 128; 175]; [226; 129; 159]; [227; 128; 128] ]%N).

Definition is_space (c : string) : bool := existsb (String.eqb c) space_chars.

Fixpoint drop_while {A} (p : A -> bool) (l : list A) : list A :=
  match l with
  | [] => []
  | x :: l' => if p x then drop_while p l' else l
  end.

(** [s.strip()] *)
Definition strip (s : string) : string :=
  of_chars (rev (drop_while is_space (rev (drop_while is_space (utf8_chars s))))).

(** [s.rstrip()] *)
Definition rstrip (s : string) : string :=
  of_chars (rev (drop_while is_space (rev (utf8_chars s)))).

(** [s.replace(a, b)] for one character [a]. *)
Definition replace_char (a b s : string) : string :=
  of_chars (map (fun ch => if (ch =? a)%string then b else ch) (utf8_chars s)).

(** * Line splitting: [text.splitlines(keepends=True)] *)

Definition line_breaks : list string :=
  map bytes_of
    ([ [10]; [11]; [12]; [13]; [28]; [29]; [30];
       [194; 133]; [226; 128; 168]; [226; 128; 169] ]%N).

Definition is_line_break (c : string) : bool := existsb (String.eqb c) line_breaks.

Definition CR : string := bytes_of [13%N].
Definition LF : string := bytes_of [10%N].
Definition NUL : string := bytes_of [0%N].

(** [acc] is the reversed current line; a carriage return followed by a line
    feed is one boundary. *)
Fixpoint split_chars (acc : list string) (cs : list string) : list string :=
  match cs with
  | [] => match acc with [] => [] | _ => [of_chars (rev acc)] end
  | c :: cs' =>
      if is_line_break c then
        if (c =? CR)%string then
          match cs' with
          | d :: cs'' =>
              if (d =? LF)%string
              then of_chars (rev (d :: c :: acc)) :: split_chars [] cs''
              else of_chars (rev (c :: acc)) :: split_chars [] cs'
          | [] => [of_chars (rev (c :: acc))]
          end
        else of_chars (rev (c :: acc)) :: split_chars [] cs'
      else split_chars (c :: acc) cs'
  end.

Definition splitlines_keepends (s : string) : list string := split_chars [] (utf8_chars s).

(** [s.splitlines()] *)
Definition drop_break (line : string) : string :=
  of_chars (List.filter (fun c => negb (is_line_break c)) (utf8_chars line)).

Definition splitlines (s : string) : list string := map drop_break (splitlines_keepends s).

(** [s.partition(sep)]; [None] when the separator is not there *)
Fixpoint partition_text (sep s : string) : option (string * string) :=
  if starts_with sep s
  then Some ("", String.substring (String.length sep) (String.length s) s)
  else match s with
       | EmptyString => None
       | String c s' => '(before, after) ← partition_text sep s'; Some (String c before, after)
       end.

(** [sep in s] *)
Definition str_contains (sep s : string) : bool :=
  match partition_text sep s with Some _ => true | None => false end.

Definition SLASH : Ascii.ascii := Ascii.ascii_of_N 47.

Fixpoint lstrip_char (c : Ascii.ascii) (s : string) : string :=
  match s with
  | String d s' => if Ascii.eqb d c then lstrip_char c s' else s
  | EmptyString => EmptyString
  end.

(** [s.lstrip()] *)
Definition lstrip (s : string) : string := of_chars (drop_while is_space (utf8_chars s)).

(** [s.split(c)] and [s.partition(c)] for an ASCII character; the partition has
    [None] for a string without the separator. *)
Fixpoint split_on (c : Ascii.ascii) (s : string) : list string :=
  match s with
  | EmptyString => [EmptyString]
  | String d s' =>
      if Ascii.eqb d c then EmptyString :: split_on c s'
      else match split_on c s' with
           | w :: ws => String d w :: ws
           | [] => [String d EmptyString]
           end
  end.

Fixpoint partition (c : Ascii.ascii) (s : string) : string * option string :=
  match s with
  | EmptyString => (EmptyString, None)
  | String d s' =>
      if Ascii.eqb d c then (EmptyString, Some s')
      else let '(k, v) := partition c s' in (String d k, v)
  end.

(** [s.split()], [acc] the reversed current word. *)
Fixpoint split_words (acc : list string) (cs : list string) : list string :=
  match cs with
  | [] => match acc with [] => [] | _ => [of_chars (rev acc)] end
  | c :: cs' =>
      if is_space c
      then match acc with [] => split_words [] cs' | _ => of_chars (rev acc) :: split_words [] cs' end
      else split_words (c :: acc) cs'
  end.

Definition words (s : string) : list string := split_words [] (utf8_chars s).

(** * Integers *)

(** [str(n)] *)
Definition str_of_Z (z : Z) : string := pretty z.

(** * [repr] of a string: quote selection and the ASCII escapes; characters
    outside ASCII are kept as they are *)

Definition hex_digit (n : N) : Ascii.ascii :=
  Ascii.ascii_of_N (if (n <? 10)%N then 48 + n else 87 + n).

Definition hex_byte (n : N) : string :=
  String (hex_digit (n / 16)) (String (hex_digit (n mod 16)) EmptyString).

Definition SQ : string := bytes_of [39%N].
Definition DQ : string := bytes_of [34%N].
Definition BSL : string := bytes_of [92%N].

(** A word between double quotes, as the source's messages print it. *)
Definition dq (s : string) : string := DQ +:+ s +:+ DQ.

Fixpoint contains_byte (n : N) (s : string) : bool :=
  match s with
  | EmptyString => false
  | String c s' => (byte_val c =? n)%N || contains_byte n s'
  end.

Definition repr_byte (quote : N) (c : Ascii.ascii) : string :=
  let n := byte_val c in
  if (n =? 92)%N || (n =? quote)%N then BSL +:+ String c EmptyString
  else if (n =? 10)%N then BSL +:+ "n"
  else if (n =? 13)%N then BSL +:+ "r"
  else if (n =? 9)%N then BSL +:+ "t"
  else if (n <? 32)%N || (n =? 127)%N then BSL +:+ "x" +:+ hex_byte n
  else String c EmptyString.

Definition repr_str (s : string) : string :=
  let quote := if contains_byte 39 s && negb (contains_byte 34 s) then 34%N else 39%N in
  let q := bytes_of [quote] in
  q +:+ of_chars (map (repr_byte quote) (String.list_ascii_of_string s)) +:+ q.

(** * Searching a list *)

Fixpoint find_index {A} (p : A -> bool) (l : list A) : option nat :=
  match l with
  | [] => None
  | x :: l' => if p x then Some 0 else S <$> find_index p l'
  end.

(** [path.stem] of a path's last component. *)
Definition path_stem (name : string) : string :=
  match find_index (fun c => byte_val c =? 46)%N (rev (String.list_ascii_of_string name)) with
  | Some j =>
      let i := String.length name - S j in
      if (0 <? i)%nat && (0 <? j)%nat then String.substring 0 i name else name
  | None => name
  end.

(** * Sorting: [sorted(strings)] *)

Definition py_sorted (l : list string) : list string := merge_sort String.le l.

(** [sorted(l, key=f)] *)
Definition key_le {A} (f : A -> string) (x y : A) : Prop := String.le (f x) (f y).
#[global] Instance key_le_dec {A} (f : A -> string) : RelDecision (key_le f).
Proof. unfold RelDecision, key_le. intros x y. apply _. Defined.
#[global] Instance key_le_trans {A} (f : A -> string) : Transitive (key_le f).
Proof. unfold key_le. intros x y z H1 H2. by etrans. Qed.
#[global] Instance key_le_total {A} (f : A -> string) : Total (key_le f).
Proof. intros x y. apply (total String.le). Qed.

Definition sorted_by {A} (f : A -> string) (l : list A) : list A := merge_sort (key_le f) l.

(** [set(l)] has as many elements as [l] *)
Definition no_dup_strings (l : list string) : bool := bool_decide (NoDup l).

(** * Lemmas *)

Lemma str_app_cons c s t : String c s +:+ t = String c (s +:+ t).
Proof. reflexivity. Qed.

Lemma str_app_nil_l t : "" +:+ t = t.
Proof. reflexivity. Qed.

Lemma str_app_nil_r s : s +:+ "" = s.
Proof. induction s as [|c s IH]; [done|]. by rewrite str_app_cons, IH. Qed.

Lemma str_app_assoc s t u : (s +:+ t) +:+ u = s +:+ (t +:+ u).
Proof. induction s as [|c s IH]; [done|]. by rewrite !str_app_cons, IH. Qed.

Lemma str_app_length s t : String.length (s +:+ t) = String.length s + String.length t.
Proof.
  induction s as [|c s IH]; [done|]. rewrite str_app_cons. cbn. by rewrite IH.
Qed.

Lemma substring_full s : String.substring 0 (String.length s) s = s.
Proof. induction s as [|c s IH]; [done|]. cbn. by rewrite IH. Qed.

Lemma str_app_inj_l s t u : s +:+ t = s +:+ u -> t = u.
Proof. induction s as [|c s IH]; [done|]. rewrite !str_app_cons. intros [= H]. auto. Qed.

Lemma of_chars_cons c cs : of_chars (c :: cs) = c +:+ of_chars cs.
Proof.
  unfold of_chars. destruct cs; cbn [String.concat]; [by rewrite str_app_nil_r | done].
Qed.

Lemma of_chars_app cs ds : of_chars (cs ++ ds) = of_chars cs +:+ of_chars ds.
Proof.
  induction cs as [|c cs IH]; [done|].
  cbn [app]. by rewrite !of_chars_cons, IH, str_app_assoc.
Qed.

Lemma of_chars_sing c : of_chars [c] = c.
Proof. reflexivity. Qed.

Lemma of_chars_snoc cs c : of_chars (cs ++ [c]) = of_chars cs +:+ c.
Proof. by rewrite of_chars_app, of_chars_sing. Qed.

Lemma of_utf8_chars s : of_chars (utf8_chars s) = s.
Proof.
  induction s as [|c s IH]; [done|]. cbn [utf8_chars].
  destruct (utf8_chars s) as [|[|d t] cs] eqn:E.
  - by rewrite <- IH.
  - rewrite !of_chars_cons in *. by rewrite <- IH.
  - destruct (is_cont d); rewrite !of_chars_cons in *; by rewrite <- IH.
Qed.

(** Splitting loses nothing: the lines concatenate to the text. *)
Lemma of_split_chars n acc cs : length cs <= n ->
  of_chars (split_chars acc cs) = of_chars (rev acc) +:+ of_chars cs.
Proof.
  revert acc cs. induction n as [|n IH]; intros acc [|c cs] Hn; cbn in Hn; try lia.
  1,2: by destruct acc; cbn [split_chars]; rewrite str_app_nil_r.
  rewrite (of_chars_cons c cs). cbn [split_chars].
  destruct (is_line_break c); [|by rewrite IH by lia; cbn [rev]; rewrite of_chars_snoc, str_app_assoc].
  destruct (c =? CR)%string; [destruct cs as [|d cs]|]; cbn in Hn.
  - cbn [rev]. by rewrite of_chars_sing, of_chars_snoc, str_app_nil_r.
  - destruct (d =? LF)%string; rewrite of_chars_cons, IH by (cbn; lia); cbn [rev];
      rewrite ?of_chars_snoc, ?(of_chars_cons d cs), ?str_app_assoc; done.
  - rewrite of_chars_cons, IH by lia. cbn [rev]. by rewrite of_chars_snoc, str_app_assoc.
Qed.

Lemma splitlines_concat s : of_chars (splitlines_keepends s) = s.
Proof.
  unfold splitlines_keepends. erewrite of_split_chars by done. apply of_utf8_chars.
Qed.

Lemma prefix_spec p s : String.prefix p s = true <-> exists t, s = p +:+ t.
Proof.
  revert s. induction p as [|c p IH]; intros s.
  - split; [by exists s | by destruct s].
  - destruct s as [|d s]; cbn.
    + split; [done | by intros [? [=]]].
    + destruct (Ascii.ascii_dec c d) as [->|Hne].
      * rewrite IH. split; intros [t Ht]; exists t; rewrite ?str_app_cons in *; congruence.
      * split; [done|]. intros [t Ht]. rewrite str_app_cons in Ht. congruence.
Qed.

Lemma list_ascii_app s t :
  String.list_ascii_of_string (s +:+ t) =
  String.list_ascii_of_string s ++ String.list_ascii_of_string t.
Proof. induction s as [|c s IH]; [done|]. rewrite str_app_cons. cbn. by rewrite IH. Qed.

(** The characters of a concatenation, when the second string does not start
    inside a character. *)
Definition starts_char (s : string) : bool :=
  match s with EmptyString => true | String c _ => negb (is_cont c) end.

Lemma utf8_chars_app s t :
  starts_char t = true -> utf8_chars (s +:+ t) = utf8_chars s ++ utf8_chars t.
Proof.
  intros Ht. induction s as [|c s IH]; [done|]. rewrite str_app_cons. cbn [utf8_chars].
  rewrite IH. destruct (utf8_chars s) as [|[|d u] cs] eqn:E; cbn; [|done|by destruct (is_cont d)].
  destruct s as [|d s]; cbn in E.
  - destruct t as [|d t]; [done|]. cbn in Ht |- *. apply negb_true_iff in Ht.
    by destruct (utf8_chars t) as [|[|e v] ds]; [|..]; rewrite ?Ht;
      try destruct (is_cont e); rewrite ?Ht.
  - by destruct (utf8_chars s) as [|[|e v] ds]; [|..]; try destruct (is_cont e).
Qed.

(** A text with no line boundary inside. *)
Definition one_line (s : string) : Prop := Forall (fun c => is_line_break c = false) (utf8_chars s).

Lemma split_chars_line acc cs ds :
  Forall (fun c => is_line_break c = false) cs ->
  split_chars acc (cs ++ LF :: ds) = of_chars (rev acc ++ cs ++ [LF]) :: split_chars [] ds.
Proof.
  intros H. revert acc. induction H as [|c cs Hc _ IH]; intros acc; cbn [split_chars app].
  - done.
  - rewrite Hc, IH. cbn [rev]. by rewrite <- app_assoc.
Qed.

(** The first line of a text that starts with a complete line. *)
Lemma splitlines_line l rest :
  one_line l -> starts_char rest = true ->
  splitlines_keepends (l +:+ LF +:+ rest) = (l +:+ LF) :: splitlines_keepends rest.
Proof.
  intros Hl Hr. unfold splitlines_keepends. rewrite utf8_chars_app by done.
  rewrite (utf8_chars_app LF) by done. change (utf8_chars LF) with [LF]. cbn [app].
  rewrite split_chars_line by done. cbn [rev app].
  by rewrite of_chars_snoc, of_utf8_chars.
Qed.

Lemma py_sorted_perm l : py_sorted l ≡ₚ l.
Proof. apply merge_sort_Permutation. Qed.

Lemma elem_of_py_sorted x l : x ∈ py_sorted l <-> x ∈ l.
Proof. by rewrite (py_sorted_perm l). Qed.

Lemma sorted_by_perm {A} (f : A -> string) l : sorted_by f l ≡ₚ l.
Proof. apply merge_sort_Permutation. Qed.

Lemma sorted_by_sorted {A} (f : A -> string) l : StronglySorted (key_le f) (sorted_by f l).
Proof. apply StronglySorted_merge_sort; apply _. Qed.

Lemma elem_of_sorted_by {A} (f : A -> string) x l : x ∈ sorted_by f l <-> x ∈ l.
Proof. by rewrite (sorted_by_perm f l). Qed.

#[export] Hint Rewrite str_app_nil_r str_app_assoc : pystr.
#[export] Hint Rewrite @elem_of_sorted_by elem_of_py_sorted : pystr.
