(* ===== verification/PyVal.v ===== *)
(** Python values as [json.loads] produces them, and the operations the
    validators apply to them: type tests, truth, equality, membership in a set
    of strings, dictionaries with their insertion order. *)

From S2P Require Export PyStr.

(** * Values *)

#[local] Set Warnings "-register-all".

(** A float is kept as its [repr] text: the modelled code only rejects floats. *)
Inductive pyval : Type :=
  | PNone
  | PBool (b : bool)
  | PInt (z : Z)
  | PFloat (repr : string)
  | PStr (s : string)
  | PList (l : list pyval)
  | PDict (d : list (string * pyval)).

(** A dictionary: an association list in insertion order, keys distinct. *)
Abbreviation dict := (list (string * pyval)).

(** ** Type tests *)

Definition is_none (v : pyval) : bool := match v with PNone => true | _ => false end.
Definition is_str (v : pyval) : bool := match v with PStr _ => true | _ => false end.
Definition is_bool (v : pyval) : bool := match v with PBool _ => true | _ => false end.
(** [isinstance(v, int)]: [bool] is a subclass of [int]. *)
Definition is_int (v : pyval) : bool :=
  match v with PInt _ | PBool _ => true | _ => false end.
Definition is_list (v : pyval) : bool := match v with PList _ => true | _ => false end.
Definition is_dict (v : pyval) : bool := match v with PDict _ => true | _ => false end.

(** [bool(v)] *)
Definition truthy (v : pyval) : bool :=
  match v with
  | PNone => false
  | PBool b => b
  | PInt z => negb (z =? 0)%Z
  | PFloat r => negb (existsb (String.eqb r) ["0.0"; "-0.0"])
  | PStr s => negb (s =? "")%string
  | PList l => negb (bool_decide (l = []))
  | PDict d => negb (bool_decide (d = []))
  end.

(** [isinstance(v, str) and v] *)
Definition nonempty_str (v : pyval) : bool := is_str v && truthy v.

(** [v == "s"] *)
Definition eq_str (v : pyval) (s : string) : bool :=
  match v with PStr t => (t =? s)%string | _ => false end.

(** Values usable as set elements or dictionary keys. *)
Definition hashable (v : pyval) : bool :=
  match v with PList _ | PDict _ => false | _ => true end.

(** [v in {"a", "b", ...}]: an unhashable [v] raises [TypeError]. *)
Definition in_strs (v : pyval) (l : list string) : res bool :=
  if hashable v then Ok (existsb (eq_str v) l)
  else raise PyTypeError "unhashable type".

(** [v in {None, "a", ...}] *)
Definition in_none_strs (v : pyval) (l : list string) : res bool :=
  if is_none v then Ok true else in_strs v l.

(** ** Dictionaries *)

Section Assoc.
Context {V : Type}.
Implicit Types (d : list (string * V)) (k : string) (v : V).

Fixpoint dget d k : option V :=
  match d with
  | [] => None
  | (k', v) :: d' => if (k' =? k)%string then Some v else dget d' k
  end.

(** [k in d] *)
Definition has_key d k : bool := match dget d k with Some _ => true | None => false end.

(** [d[k] = v]: an existing key keeps its position. *)
Fixpoint dset d k v : list (string * V) :=
  match d with
  | [] => [(k, v)]
  | (k', v') :: d' => if (k' =? k)%string then (k', v) :: d' else (k', v') :: dset d' k v
  end.

(** [d.pop(k, None)] *)
Fixpoint dpop d k : list (string * V) :=
  match d with
  | [] => []
  | (k', v') :: d' => if (k' =? k)%string then d' else (k', v') :: dpop d' k
  end.

(** [{**d, **e}] *)
Definition dmerge d (e : list (string * V)) : list (string * V) :=
  foldl (fun acc kv => dset acc (fst kv) (snd kv)) d e.

Definition dpops d (ks : list string) : list (string * V) := foldl dpop d ks.

Definition keys d : list string := map fst d.

(** [set(d) == {...}], [set(d) <= {...}], [{...} <= set(d)] *)
Definition keys_subset d (ks : list string) : bool :=
  forallb (fun k => existsb (String.eqb k) ks) (keys d).
Definition has_keys d (ks : list string) : bool := forallb (has_key d) ks.
Definition keys_eq d (ks : list string) : bool := keys_subset d ks && has_keys d ks.
End Assoc.

(** [d.get(k)] and [d.get(k, default)] *)
Definition get_or (d : dict) (k : string) (v : pyval) : pyval := default v (dget d k).
Definition get (d : dict) (k : string) : pyval := get_or d k PNone.

(** [d[k]] *)
Definition getitem (d : dict) (k : string) : res pyval :=
  match dget d k with
  | Some v => Ok v
  | None => raise PyKeyError k
  end.

(** [str(v)] ([nested = false]) and [repr(v)] ([nested = true]). *)
Fixpoint py_str_aux (nested : bool) (v : pyval) : string :=
  match v with
  | PNone => "None"
  | PBool b => if b then "True" else "False"
  | PInt z => str_of_Z z
  | PFloat r => r
  | PStr s => if nested then repr_str s else s
  | PList l => "[" +:+ String.concat ", " (map (py_str_aux true) l) +:+ "]"
  | PDict d =>
      "{" +:+ String.concat ", "
        (map (fun kv => repr_str (fst kv) +:+ ": " +:+ py_str_aux true (snd kv)) d) +:+ "}"
  end.
Definition py_str (v : pyval) : string := py_str_aux false v.

(** ** Equality *)

(** [u == v]: booleans are the integers 0 and 1, dictionaries ignore order. *)
Fixpoint py_eq (u v : pyval) : bool :=
  match u, v with
  | PNone, PNone => true
  | PBool a, PBool b => Bool.eqb a b
  | PBool a, PInt z | PInt z, PBool a => (z =? if a then 1 else 0)%Z
  | PInt y, PInt z => (y =? z)%Z
  | PFloat r, PFloat s => (r =? s)%string
  | PFloat r, PInt z | PInt z, PFloat r => (r =? str_of_Z z +:+ ".0")%string
  | PFloat r, PBool b | PBool b, PFloat r => (r =? if b then "1.0" else "0.0")%string
  | PStr s, PStr t => (s =? t)%string
  | PList l, PList m =>
      (fix go l m := match l, m with
       | [], [] => true
       | x :: l', y :: m' => py_eq x y && go l' m'
       | _, _ => false
       end) l m
  | PDict d, PDict e =>
      (length d =? length e)%nat &&
      (fix go d := match d with
       | [] => true
       | (k, x) :: d' =>
           match dget e k with Some y => py_eq x y | None => false end && go d'
       end) d
  | _, _ => false
  end.

(** ** Strings of a list value *)

Definition str_of (v : pyval) : string := match v with PStr s => s | _ => "" end.
Definition list_of (v : pyval) : list pyval := match v with PList l => l | _ => [] end.
Definition dict_of (v : pyval) : dict := match v with PDict d => d | _ => [] end.
Definition opt_str (o : option string) : pyval := match o with Some s => PStr s | None => PNone end.
Definition str_opt (v : pyval) : option string := match v with PStr s => Some s | _ => None end.
Definition str_list (l : list string) : pyval := PList (map PStr l).

(** * Laws of dictionaries *)

Section AssocLaws.
Context {V : Type}.
Implicit Types (d e : list (string * V)) (k : string) (v : V).

Lemma dget_dset_eq d k v : dget (dset d k v) k = Some v.
Proof.
  induction d as [|[k' v'] d IH]; cbn.
  - by rewrite String.eqb_refl.
  - destruct (k' =? k)%string eqn:E; cbn; by rewrite E.
Qed.

Lemma dget_dset_ne d k k' v : k <> k' -> dget (dset d k v) k' = dget d k'.
Proof.
  intros Hne. induction d as [|[j w] d IH]; cbn.
  - by rewrite (proj2 (String.eqb_neq k k') Hne).
  - destruct (j =? k)%string eqn:E; cbn; [|by rewrite IH].
    apply String.eqb_eq in E as ->. by rewrite (proj2 (String.eqb_neq k k') Hne).
Qed.

Lemma dget_dset d k k' v :
  dget (dset d k v) k' = if (k =? k')%string then Some v else dget d k'.
Proof.
  destruct (k =? k')%string eqn:E.
  - apply String.eqb_eq in E as ->. apply dget_dset_eq.
  - apply dget_dset_ne. by apply String.eqb_neq.
Qed.

Lemma dget_None d k : dget d k = None <-> k ∉ keys d.
Proof.
  induction d as [|[j w] d IH]; cbn.
  - split; [intros _; apply not_elem_of_nil | done].
  - rewrite not_elem_of_cons. destruct (j =? k)%string eqn:E.
    + apply String.eqb_eq in E as ->. split; [done | by intros []].
    + apply String.eqb_neq in E. rewrite IH. split; [auto | by intros []].
Qed.

Lemma dget_elem d k v : dget d k = Some v -> (k, v) ∈ d.
Proof.
  induction d as [|[j w] d IH]; cbn; [done|].
  destruct (j =? k)%string eqn:E.
  - apply String.eqb_eq in E as ->. intros [= ->]. by left.
  - intros H. right. auto.
Qed.

Lemma elem_dget d k v : NoDup (keys d) -> (k, v) ∈ d -> dget d k = Some v.
Proof.
  induction d as [|[j w] d IH]; cbn; [by intros ? ?%not_elem_of_nil|].
  intros [Hj Hnd]%NoDup_cons [[= -> ->]|Hin]%elem_of_cons; [by rewrite String.eqb_refl|].
  destruct (j =? k)%string eqn:E; [|auto].
  apply String.eqb_eq in E as ->. destruct Hj.
  apply list_elem_of_fmap. by exists (k, v).
Qed.

Lemma keys_dset d k v : keys (dset d k v) = if has_key d k then keys d else keys d ++ [k].
Proof.
  unfold has_key, keys. induction d as [|[j w] d IH]; cbn; [done|].
  destruct (j =? k)%string eqn:E; cbn; [done|].
  rewrite IH. by destruct (dget d k).
Qed.

Lemma NoDup_dset d k v : NoDup (keys d) -> NoDup (keys (dset d k v)).
Proof.
  intros Hnd. rewrite keys_dset. unfold has_key.
  destruct (dget d k) eqn:E; [done|]. apply NoDup_app. split_and!; [done| |].
  - intros x Hx ->%list_elem_of_singleton. by apply dget_None in E.
  - apply NoDup_singleton.
Qed.

Lemma dget_dpop_ne d k k' : k <> k' -> dget (dpop d k) k' = dget d k'.
Proof.
  intros Hne. induction d as [|[j w] d IH]; cbn; [done|].
  destruct (j =? k)%string eqn:E; cbn; [|by rewrite IH].
  apply String.eqb_eq in E as ->. by rewrite (proj2 (String.eqb_neq k k') Hne).
Qed.

Lemma keys_dpop_sub d k x : x ∈ keys (dpop d k) -> x ∈ keys d.
Proof.
  induction d as [|[j w] d IH]; cbn; [done|].
  destruct (j =? k)%string; cbn; [by right|].
  rewrite !elem_of_cons. intros [?|?]; auto.
Qed.

Lemma NoDup_dpop d k : NoDup (keys d) -> NoDup (keys (dpop d k)).
Proof.
  induction d as [|[j w] d IH]; cbn; [done|].
  intros [Hj Hnd]%NoDup_cons. destruct (j =? k)%string; cbn; [done|].
  apply NoDup_cons. split; [|auto]. intros Hin. by apply keys_dpop_sub in Hin.
Qed.

Lemma dget_dpop_eq d k : NoDup (keys d) -> dget (dpop d k) k = None.
Proof.
  induction d as [|[j w] d IH]; cbn; [done|].
  intros [Hj Hnd]%NoDup_cons. destruct (j =? k)%string eqn:E; cbn.
  - apply String.eqb_eq in E as ->. by apply dget_None.
  - rewrite E. auto.
Qed.

Lemma has_key_spec d k : has_key d k = true <-> is_Some (dget d k).
Proof. unfold has_key. destruct (dget d k); split; [eauto | eauto | done | by intros []]. Qed.

Lemma keys_subset_elem d ks k v : keys_subset d ks = true -> dget d k = Some v -> k ∈ ks.
Proof.
  unfold keys_subset. rewrite forallb_forall. intros H Hk. apply dget_elem in Hk.
  assert (Hin : In k (keys d)).
  { apply list_elem_of_In, list_elem_of_fmap. by exists (k, v). }
  apply H in Hin. apply existsb_exists in Hin as (j & Hj & ->%String.eqb_eq).
  by apply list_elem_of_In.
Qed.

Lemma dpops_cons d k ks : dpops d (k :: ks) = dpops (dpop d k) ks.
Proof. reflexivity. Qed.

Lemma NoDup_dpops ks d : NoDup (keys d) -> NoDup (keys (dpops d ks)).
Proof.
  revert d. induction ks as [|k ks IH]; intros d Hd; [done|].
  rewrite dpops_cons. apply IH. by apply NoDup_dpop.
Qed.

Lemma dget_dpops_ne ks d k : k ∉ ks -> dget (dpops d ks) k = dget d k.
Proof.
  revert d. induction ks as [|j ks IH]; intros d; [done|].
  intros [Hne Hin]%not_elem_of_cons. rewrite dpops_cons, IH by done.
  by rewrite dget_dpop_ne.
Qed.

Lemma dget_dpops_eq ks d k : NoDup (keys d) -> k ∈ ks -> dget (dpops d ks) k = None.
Proof.
  revert d. induction ks as [|j ks IH]; intros d Hd; [by intros ?%not_elem_of_nil|].
  intros Hin. rewrite dpops_cons. destruct (decide (k ∈ ks)) as [Hk|Hk].
  - apply IH; [by apply NoDup_dpop | done].
  - apply elem_of_cons in Hin as [->|?]; [|done].
    rewrite dget_dpops_ne by done. by apply dget_dpop_eq.
Qed.

Lemma NoDup_dmerge d e : NoDup (keys d) -> NoDup (keys (dmerge d e)).
Proof.
  unfold dmerge. revert d. induction e as [|[k v] e IH]; intros d Hd; cbn; [done|].
  apply IH. by apply NoDup_dset.
Qed.

Lemma dget_dmerge d e k :
  NoDup (keys e) ->
  dget (dmerge d e) k = match dget e k with Some v => Some v | None => dget d k end.
Proof.
  unfold dmerge. revert d. induction e as [|[j w] e IH]; intros d; cbn; [done|].
  intros [Hj Hnd]%NoDup_cons. rewrite IH by done. rewrite dget_dset.
  destruct (j =? k)%string eqn:E; [|done].
  apply String.eqb_eq in E as ->. by rewrite (proj2 (dget_None e k) Hj).
Qed.
End AssocLaws.

(** * Dictionaries up to order *)

(** Two dictionaries with the same lookups: the coarser equality under which
    the readers of a state dictionary are insensitive to insertion order. *)
Definition dict_equiv (d e : dict) : Prop := forall k, dget d k = dget e k.
#[export] Instance dict_equiv_equivalence : Equivalence dict_equiv.
Proof.
  unfold dict_equiv. split.
  - intros d k. done.
  - intros d e H k. by rewrite H.
  - intros x y z H1 H2 k. by rewrite H1.
Qed.

#[export] Instance get_proper : Proper (dict_equiv ==> eq ==> eq) get.
Proof. intros d e H k _ <-. unfold get, get_or. by rewrite H. Qed.
#[export] Instance get_or_proper : Proper (dict_equiv ==> eq ==> eq ==> eq) get_or.
Proof. intros d e H k _ <- v _ <-. unfold get_or. by rewrite H. Qed.
#[export] Instance getitem_proper : Proper (dict_equiv ==> eq ==> eq) getitem.
Proof. intros d e H k _ <-. unfold getitem. by rewrite H. Qed.
#[export] Instance has_key_proper : Proper (dict_equiv ==> eq ==> eq) (@has_key pyval).
Proof. intros d e H k _ <-. unfold has_key. by rewrite H. Qed.
#[export] Instance dset_proper :
  Proper (dict_equiv ==> eq ==> eq ==> dict_equiv) (@dset pyval).
Proof. intros d e H k _ <- v _ <- j. rewrite !dget_dset. by rewrite H. Qed.

(** * Laws of the value tests *)

Lemma nonempty_str_spec v : nonempty_str v = true <-> exists s, v = PStr s /\ s <> "".
Proof.
  unfold nonempty_str. destruct v; cbn; try (split; [done | by intros (? & ? & ?)]).
  rewrite negb_true_iff, String.eqb_neq. naive_solver.
Qed.

Lemma eq_str_spec v s : eq_str v s = true <-> v = PStr s.
Proof. destruct v; cbn; try (split; done). rewrite String.eqb_eq. split; congruence. Qed.

Lemma is_none_spec v : is_none v = true <-> v = PNone.
Proof. by destruct v. Qed.

Lemma is_str_spec v : is_str v = true <-> exists s, v = PStr s.
Proof. destruct v; cbn; split; intros; try done; eauto; by destruct H. Qed.

Lemma is_dict_spec v : is_dict v = true <-> exists d, v = PDict d.
Proof. destruct v; cbn; split; intros; try done; eauto; by destruct H. Qed.

Lemma existsb_eq_str v l : existsb (eq_str v) l = true <-> exists s, v = PStr s /\ s ∈ l.
Proof.
  rewrite existsb_exists. split.
  - intros (s & Hs & ->%eq_str_spec). exists s. by rewrite list_elem_of_In.
  - intros (s & -> & Hs). exists s. rewrite <- list_elem_of_In, eq_str_spec. done.
Qed.

Lemma in_strs_ok v l b : in_strs v l = Ok b -> b = existsb (eq_str v) l.
Proof. unfold in_strs. destruct (hashable v); [by intros [= <-] | done]. Qed.

Lemma in_strs_true v l : in_strs v l = Ok true <-> exists s, v = PStr s /\ s ∈ l.
Proof.
  rewrite <- existsb_eq_str. unfold in_strs. destruct (hashable v) eqn:E.
  - split; [by intros [= ->] | by intros ->].
  - split; [done|]. by intros (s & -> & _)%existsb_eq_str.
Qed.

Lemma in_strs_str s l : in_strs (PStr s) l = Ok (bool_decide (s ∈ l)).
Proof.
  unfold in_strs. cbn. f_equal. apply eq_bool_prop_intro.
  rewrite !Is_true_true, bool_decide_eq_true, existsb_eq_str. naive_solver.
Qed.

#[export] Hint Rewrite @dget_dset_eq : pystr.
