(* ===== verification/Json.v ===== *)
(** The standard library's [json] as the modelled modules call it: [dumps] with
    sorted keys in the three layouts the source uses, and [loads].  Text is a
    UTF-8 string; a float keeps the text of its token; the error of [loads] is
    the single outcome [None]. *)

From S2P Require Export PyVal.

(** * Code points *)

(** The scalar value of one UTF-8 character. *)
Definition decode_char (c : string) : N :=
  let cont a := (byte_val a mod 64)%N in
  match c with
  | String a EmptyString => byte_val a
  | String a (String b EmptyString) => ((byte_val a mod 32) * 64 + cont b)%N
  | String a (String b (String d EmptyString)) =>
      ((byte_val a mod 16) * 4096 + cont b * 64 + cont d)%N
  | String a (String b (String d (String e EmptyString))) =>
      ((byte_val a mod 8) * 262144 + cont b * 4096 + cont d * 64 + cont e)%N
  | _ => 0%N
  end.

(** The UTF-8 character of a scalar value. *)
Definition encode_char (n : N) : string :=
  bytes_of (
    if n <? 128 then [n]
    else if n <? 2048 then [192 + n / 64; 128 + n mod 64]
    else if n <? 65536 then [224 + n / 4096; 128 + (n / 64) mod 64; 128 + n mod 64]
    else [240 + n / 262144; 128 + (n / 4096) mod 64; 128 + (n / 64) mod 64; 128 + n mod 64])%N.

(** * [json.dumps(value, sort_keys=True, ...)] *)

Record json_style : Type := mkStyle {
  st_indent : bool;        (** [indent=2] *)
  st_item_sep : string;
  st_key_sep : string;
  st_ascii : bool          (** [ensure_ascii] *)
}.

Definition default_style : json_style := mkStyle false ", " ": " true.
Definition compact_style : json_style := mkStyle false "," ":" true.
Definition utf8_style : json_style := mkStyle false "," ":" false.
Definition indent_style : json_style := mkStyle true "," ": " true.

Definition hex4 (n : N) : string := hex_byte (n / 256) +:+ hex_byte (n mod 256).

Definition u_escape (n : N) : string := BSL +:+ "u" +:+ hex4 n.

Definition json_char (ascii : bool) (c : string) : string :=
  let n := decode_char c in
  if (n =? 34)%N then BSL +:+ DQ
  else if (n =? 92)%N then BSL +:+ BSL
  else if (n =? 10)%N then BSL +:+ "n"
  else if (n =? 13)%N then BSL +:+ "r"
  else if (n =? 9)%N then BSL +:+ "t"
  else if (n =? 12)%N then BSL +:+ "f"
  else if (n =? 8)%N then BSL +:+ "b"
  else if (n <? 32)%N then u_escape n
  else if (n <? 127)%N || negb ascii then c
  else if (n <? 65536)%N then u_escape n
  else u_escape (55296 + (n - 65536) / 1024)%N +:+ u_escape (56320 + (n - 65536) mod 1024)%N.

Definition json_string (ascii : bool) (s : string) : string :=
  DQ +:+ of_chars (map (json_char ascii) (utf8_chars s)) +:+ DQ.

Definition spaces (n : nat) : string := of_chars (replicate n " ").

(** The text between two items: the separator, then a new line when indented. *)
Definition newline (st : json_style) (level : nat) : string :=
  if st_indent st then LF +:+ spaces (2 * level) else "".

Definition json_block (st : json_style) (level : nat) (opening closing : string)
    (items : list string) : string :=
  match items with
  | [] => opening +:+ closing
  | _ => opening +:+ newline st (S level) +:+
         String.concat (st_item_sep st +:+ newline st (S level)) items +:+
         newline st level +:+ closing
  end.

Fixpoint dump (st : json_style) (level : nat) (v : pyval) : string :=
  match v with
  | PNone => "null"
  | PBool b => if b then "true" else "false"
  | PInt z => str_of_Z z
  | PFloat r => r
  | PStr s => json_string (st_ascii st) s
  | PList l => json_block st level "[" "]" (map (dump st (S level)) l)
  | PDict d =>
      json_block st level "{" "}"
        (map (fun kv => json_string (st_ascii st) (fst kv) +:+ st_key_sep st +:+ snd kv)
          (sorted_by fst (map (fun kv => (fst kv, dump st (S level) (snd kv))) d)))
  end.

Definition dumps (st : json_style) (v : pyval) : string := dump st 0 v.

(** * [json.loads(text)] *)

Definition is_ws (c : Ascii.ascii) : bool :=
  existsb (N.eqb (byte_val c)) [32; 9; 10; 13]%N.

Fixpoint skip_ws (s : string) : string :=
  match s with
  | String c s' => if is_ws c then skip_ws s' else s
  | EmptyString => EmptyString
  end.

Definition hex_val (c : Ascii.ascii) : option N :=
  let n := byte_val c in
  if byte_in 48 57 c then Some (n - 48)%N
  else if byte_in 97 102 c then Some (n - 87)%N
  else if byte_in 65 70 c then Some (n - 55)%N
  else None.

Definition parse_hex4 (s : string) : option (N * string) :=
  match s with
  | String a (String b (String c (String d s'))) =>
      w ← hex_val a; x ← hex_val b; y ← hex_val c; z ← hex_val d;
      Some ((w * 4096 + x * 256 + y * 16 + z)%N, s')
  | _ => None
  end.

Definition simple_escape (n : N) : option string :=
  match n with
  | 34%N => Some DQ
  | 92%N => Some BSL
  | 47%N => Some "/"
  | 98%N => Some (bytes_of [8%N])
  | 102%N => Some (bytes_of [12%N])
  | 110%N => Some LF
  | 114%N => Some CR
  | 116%N => Some (bytes_of [9%N])
  | _ => None
  end.

Definition is_high (n : N) : bool := (55296 <=? n)%N && (n <=? 56319)%N.
Definition is_low (n : N) : bool := (56320 <=? n)%N && (n <=? 57343)%N.

(** After [\u]: the character and the rest of the text. *)
Definition parse_unicode (s : string) : option (string * string) :=
  '(n, s1) ← parse_hex4 s;
  if is_high n then
    match s1 with
    | String b (String u s2) =>
        if (byte_val b =? 92)%N && (byte_val u =? 117)%N then
          match parse_hex4 s2 with
          | Some (m, s3) =>
              if is_low m
              then Some (encode_char (65536 + (n - 55296) * 1024 + (m - 56320))%N, s3)
              else Some (encode_char n, s1)
          | None => None
          end
        else Some (encode_char n, s1)
    | _ => Some (encode_char n, s1)
    end
  else Some (encode_char n, s1).

(** The text after an opening quote. *)
Fixpoint parse_string (fuel : nat) (s : string) : option (string * string) :=
  match fuel with
  | O => None
  | S fuel' =>
      match s with
      | EmptyString => None
      | String c s' =>
          let n := byte_val c in
          if (n =? 34)%N then Some ("", s')
          else if (n =? 92)%N then
            match s' with
            | EmptyString => None
            | String e s'' =>
                '(ch, s1) ← (if (byte_val e =? 117)%N then parse_unicode s''
                             else c ← simple_escape (byte_val e); Some (c, s''));
                '(t, rest) ← parse_string fuel' s1; Some (ch +:+ t, rest)
            end
          else if (n <? 32)%N then None
          else '(t, rest) ← parse_string fuel' s'; Some (String c t, rest)
      end
  end.

(** The longest run of digits at the front of a text. *)
Fixpoint span_digits (s : string) : string * string :=
  match s with
  | String c s' =>
      if is_digit c then let '(d, r) := span_digits s' in (String c d, r) else (EmptyString, s)
  | EmptyString => (EmptyString, EmptyString)
  end.

Definition digits_N (ds : string) : N :=
  foldl (fun acc c => acc * 10 + (byte_val c - 48))%N 0%N (String.list_ascii_of_string ds).

(** The number token: an optional minus, an integer part without leading zero, an
    optional fraction, an optional exponent. *)
Definition parse_number (s : string) : option (pyval * string) :=
  let '(neg, s1) := match s with
    | String c s' => if (byte_val c =? 45)%N then (true, s') else (false, s)
    | EmptyString => (false, s)
    end in
  let '(ds, s2) := match s1 with
    | String c s' => if (byte_val c =? 48)%N then ("0", s') else span_digits s1
    | EmptyString => ("", s1)
    end in
  let '(frac, s3) := match s2 with
    | String c s' =>
        if (byte_val c =? 46)%N then
          match span_digits s' with
          | (EmptyString, _) => ("", s2)
          | (f, r) => ("." +:+ f, r)
          end
        else ("", s2)
    | EmptyString => ("", s2)
    end in
  let '(expo, s4) := match s3 with
    | String c s' =>
        if (byte_val c =? 101)%N || (byte_val c =? 69)%N then
          let '(sign, r) := match s' with
            | String g r' =>
                if (byte_val g =? 45)%N || (byte_val g =? 43)%N
                then (String g "", r') else ("", s')
            | EmptyString => ("", s')
            end in
          match span_digits r with
          | (EmptyString, _) => ("", s3)
          | (f, r') => ("e" +:+ sign +:+ f, r')
          end
        else ("", s3)
    | EmptyString => ("", s3)
    end in
  match ds with
  | EmptyString => None
  | _ =>
      match frac +:+ expo with
      | EmptyString =>
          let n := Z.of_N (digits_N ds) in Some (PInt (if neg then - n else n)%Z, s4)
      | tail => Some (PFloat ((if neg then "-" else "") +:+ ds +:+ tail), s4)
      end
  end.

Definition strip_prefix (p s : string) : option string :=
  if String.prefix p s
  then Some (String.substring (String.length p) (String.length s - String.length p) s)
  else None.

Definition json_words : list (string * pyval) :=
  [("null", PNone); ("true", PBool true); ("false", PBool false);
   ("NaN", PFloat "nan"); ("Infinity", PFloat "inf"); ("-Infinity", PFloat "-inf")].

Fixpoint parse_word (ws : list (string * pyval)) (s : string) : option (pyval * string) :=
  match ws with
  | [] => None
  | (w, v) :: ws' =>
      match strip_prefix w s with
      | Some rest => Some (v, rest)
      | None => parse_word ws' s
      end
  end.

(** A value, the items of an array after one of them, the members of an object
    from the quote of a key: each use of fuel consumes a character. *)
Fixpoint parse_value (fuel : nat) (s : string) : option (pyval * string) :=
  match fuel with
  | O => None
  | S fuel' =>
      match s with
      | EmptyString => None
      | String c s' =>
          let n := byte_val c in
          if (n =? 34)%N then '(t, r) ← parse_string fuel' s'; Some (PStr t, r)
          else if (n =? 91)%N then
            match skip_ws s' with
            | String d r =>
                if (byte_val d =? 93)%N then Some (PList [], r)
                else '(l, r') ← parse_items fuel' (String d r); Some (PList l, r')
            | EmptyString => None
            end
          else if (n =? 123)%N then
            match skip_ws s' with
            | String d r =>
                if (byte_val d =? 125)%N then Some (PDict [], r)
                else '(m, r') ← parse_members fuel' [] (String d r); Some (PDict m, r')
            | EmptyString => None
            end
          else match parse_word json_words s with
          | Some r => Some r
          | None => parse_number s
          end
      end
  end
with parse_items (fuel : nat) (s : string) : option (list pyval * string) :=
  match fuel with
  | O => None
  | S fuel' =>
      '(v, r) ← parse_value fuel' s;
      match skip_ws r with
      | String c r' =>
          if (byte_val c =? 44)%N then
            '(l, r'') ← parse_items fuel' (skip_ws r'); Some (v :: l, r'')
          else if (byte_val c =? 93)%N then Some ([v], r')
          else None
      | EmptyString => None
      end
  end
with parse_members (fuel : nat) (acc : dict) (s : string) : option (dict * string) :=
  match fuel with
  | O => None
  | S fuel' =>
      match s with
      | String q s' =>
          if negb (byte_val q =? 34)%N then None else
          '(k, r) ← parse_string fuel' s';
          match skip_ws r with
          | String c r1 =>
              if negb (byte_val c =? 58)%N then None else
              '(v, r2) ← parse_value fuel' (skip_ws r1);
              match skip_ws r2 with
              | String d r3 =>
                  if (byte_val d =? 44)%N then parse_members fuel' (dset acc k v) (skip_ws r3)
                  else if (byte_val d =? 125)%N then Some (dset acc k v, r3)
                  else None
              | EmptyString => None
              end
          | EmptyString => None
          end
      | EmptyString => None
      end
  end.

(** [json.loads(text)]; [None] is [json.JSONDecodeError]. *)
Definition loads (s : string) : option pyval :=
  match parse_value (S (String.length s)) (skip_ws s) with
  | Some (v, r) => match skip_ws r with EmptyString => Some v | _ => None end
  | None => None
  end.

Example loads_nested :
  loads (dumps indent_style (PDict [("b", PList [PInt (-12); PStr ("x" +:+ LF)]); ("a", PNone)])) =
  Some (PDict [("a", PNone); ("b", PList [PInt (-12); PStr ("x" +:+ LF)])]).
Proof. vm_compute. reflexivity. Qed.

Lemma hex_val_digit d : (d < 16)%N -> hex_val (hex_digit d) = Some d.
Proof.
  intros H. assert (Hd : d ∈ map N.of_nat (seq 0 16)).
  { apply list_elem_of_fmap. exists (N.to_nat d). rewrite N2Nat.id. split; [done|].
    apply elem_of_seq. lia. }
  vm_compute in Hd.
  repeat (apply elem_of_cons in Hd; destruct Hd as [-> | Hd]; [reflexivity|]).
  by apply not_elem_of_nil in Hd.
Qed.

Lemma parse_hex4_hex4 n s : (n < 65536)%N -> parse_hex4 (hex4 n +:+ s) = Some (n, s).
Proof.
  intros Hn. unfold hex4, hex_byte. rewrite !str_app_assoc, !str_app_cons, !str_app_nil_l.
  rewrite ?str_app_cons, ?str_app_nil_l. unfold parse_hex4.
  rewrite !hex_val_digit by (zify; Z.to_euclidean_division_equations; lia).
  cbn. f_equal. f_equal. zify; Z.to_euclidean_division_equations; lia.
Qed.

Lemma byte_val_ascii n : (n < 256)%N -> byte_val (Ascii.ascii_of_N n) = n.
Proof. intros. by apply Ascii.N_ascii_embedding. Qed.

(** Unicode scalar values: no surrogates. *)
Definition scalar (n : N) : Prop := (n < 55296 \/ 57344 <= n < 1114112)%N.

Ltac div_lia := zify; Z.to_euclidean_division_equations; lia.

Lemma decode_encode n : scalar n -> decode_char (encode_char n) = n.
Proof.
  intros Hn. unfold encode_char, scalar in *.
  destruct (N.ltb_spec n 128); [|destruct (N.ltb_spec n 2048); [|destruct (N.ltb_spec n 65536)]];
    unfold bytes_of; cbn [map String.string_of_list_ascii decode_char];
    rewrite ?byte_val_ascii by div_lia; div_lia.
Qed.

(** One more unit of fuel does not change a result. *)
Lemma parse_string_mono f g s r :
  f <= g -> parse_string f s = Some r -> parse_string g s = Some r.
Proof.
  revert g s r. induction f as [|f IH]; intros g s r Hle H; [done|].
  destruct g as [|g]; [lia|]. cbn [parse_string] in *.
  destruct s as [|c s]; [done|].
  destruct (byte_val c =? 34)%N; [done|]. destruct (byte_val c =? 92)%N.
  - destruct s as [|e s]; [done|].
    destruct (if (byte_val e =? 117)%N then _ else _) as [[ch s1]|]; [|done]. cbn in *.
    destruct (parse_string f s1) as [[t u]|] eqn:E; [|done].
    by rewrite (IH g _ _ ltac:(lia) E).
  - destruct (byte_val c <? 32)%N; [done|].
    destruct (parse_string f s) as [[t u]|] eqn:E; [|done].
    by rewrite (IH g _ _ ltac:(lia) E).
Qed.

(** Reading one written character takes at most its length in fuel. *)
Definition reads_back (w c : string) : Prop :=
  exists k, 1 <= k <= String.length w /\
    forall fuel s, parse_string (k + fuel) (w +:+ s) =
      '(t, r) ← parse_string fuel s; Some (c +:+ t, r).

Lemma ascii_reads_back ascii c :
  (byte_val c < 128)%N -> reads_back (json_char ascii (String c "")) (String c "").
Proof.
  intros Hc. exists 1.
  destruct c as [[] [] [] [] [] [] [] []]; vm_compute in Hc; try discriminate Hc;
    clear Hc; destruct ascii; (split; [vm_compute; lia | reflexivity]).
Qed.

Lemma high_byte_step b fuel s : (128 <= byte_val b)%N ->
  parse_string (S fuel) (String b s) = '(t, r) ← parse_string fuel s; Some (String b t, r).
Proof.
  intros Hb. cbn [parse_string].
  destruct (N.eqb_spec (byte_val b) 34); [lia|]. destruct (N.eqb_spec (byte_val b) 92); [lia|].
  by destruct (N.ltb_spec (byte_val b) 32); [lia|].
Qed.

(** Bytes outside ASCII are copied. *)
Lemma raw_reads_back w :
  w <> "" -> Forall (fun b => 128 <= byte_val b)%N (String.list_ascii_of_string w) ->
  reads_back w w.
Proof.
  intros Hne Hw. exists (String.length w). split; [destruct w; cbn; [done | lia]|].
  clear Hne. intros fuel s. induction w as [|b w IH]; cbn in Hw.
  - cbn [String.length Nat.add]. rewrite str_app_nil_l.
    destruct (parse_string fuel s) as [[t r]|]; done.
  - apply Forall_cons in Hw as [Hb Hw]. cbn [String.length Nat.add].
    rewrite str_app_cons, high_byte_step, IH by done.
    destruct (parse_string fuel s) as [[t r]|]; done.
Qed.

Lemma u_escape_step n fuel s :
  (n < 65536)%N ->
  parse_string (S fuel) (u_escape n +:+ s) =
    '(ch, s1) ← (if is_high n then parse_unicode (hex4 n +:+ s) else Some (encode_char n, s));
    '(t, r) ← parse_string fuel s1; Some (ch +:+ t, r).
Proof.
  intros Hn. unfold u_escape. rewrite !str_app_assoc.
  change (BSL +:+ ?x) with (String (Ascii.ascii_of_N 92) x).
  change ("u" +:+ ?x) with (String (Ascii.ascii_of_N 117) x).
  cbn [parse_string]. change (byte_val (Ascii.ascii_of_N 92)) with 92%N.
  change (byte_val (Ascii.ascii_of_N 117)) with 117%N. cbn [N.eqb Pos.eqb].
  unfold parse_unicode at 1. rewrite parse_hex4_hex4 by done. cbn.
  destruct (is_high n) eqn:E; [|done]. unfold parse_unicode.
  rewrite parse_hex4_hex4 by done. cbn. by rewrite E.
Qed.

Lemma u_escape_length n : String.length (u_escape n) = 6.
Proof. reflexivity. Qed.

Lemma bmp_reads_back n :
  (n < 65536)%N -> is_high n = false -> reads_back (u_escape n) (encode_char n).
Proof.
  intros Hn Hh. exists 1. rewrite u_escape_length. split; [lia|]. intros fuel s.
  cbn [Nat.add]. rewrite u_escape_step by done. by rewrite Hh.
Qed.

Lemma pair_reads_back n :
  (65536 <= n < 1114112)%N ->
  reads_back (u_escape (55296 + (n - 65536) / 1024) +:+ u_escape (56320 + (n - 65536) mod 1024))
             (encode_char n).
Proof.
  intros Hn. set (hi := (55296 + (n - 65536) / 1024)%N).
  set (lo := (56320 + (n - 65536) mod 1024)%N).
  assert (Hhi : (55296 <= hi <= 56319)%N) by (unfold hi; div_lia).
  assert (Hlo : (56320 <= lo <= 57343)%N) by (unfold lo; div_lia).
  exists 1. rewrite str_app_length, !u_escape_length. split; [lia|]. intros fuel s.
  cbn [Nat.add]. rewrite str_app_assoc, u_escape_step by lia.
  assert (is_high hi = true) as ->.
  { unfold is_high. apply andb_true_iff. rewrite !N.leb_le. lia. }
  assert (Hl : is_low lo = true).
  { unfold is_low. apply andb_true_iff. rewrite !N.leb_le. lia. }
  unfold parse_unicode. rewrite parse_hex4_hex4 by lia. cbn [mbind option_bind].
  assert (is_high hi = true) as ->.
  { unfold is_high. apply andb_true_iff. rewrite !N.leb_le. lia. }
  unfold u_escape. rewrite !str_app_assoc.
  change (BSL +:+ ?x) with (String (Ascii.ascii_of_N 92) x).
  change ("u" +:+ ?x) with (String (Ascii.ascii_of_N 117) x).
  change (byte_val (Ascii.ascii_of_N 92)) with 92%N.
  change (byte_val (Ascii.ascii_of_N 117)) with 117%N. cbn [N.eqb Pos.eqb andb].
  rewrite parse_hex4_hex4, Hl by lia. cbn.
  by replace (65536 + (hi - 55296) * 1024 + (lo - 56320))%N with n
    by (unfold hi, lo; div_lia).
Qed.

Lemma encode_bytes n : scalar n -> (128 <= n)%N ->
  encode_char n <> "" /\
  Forall (fun b => 128 <= byte_val b)%N (String.list_ascii_of_string (encode_char n)).
Proof.
  intros Hn H. unfold encode_char, bytes_of, scalar in *.
  rewrite String.list_ascii_of_string_of_list_ascii.
  destruct (N.ltb_spec n 128); [lia|].
  destruct (N.ltb_spec n 2048); [|destruct (N.ltb_spec n 65536)];
    (split; [done|]); repeat constructor; rewrite byte_val_ascii; div_lia.
Qed.

(** Every written character of a well-formed text is read back. *)
Lemma json_char_reads_back ascii n :
  scalar n -> reads_back (json_char ascii (encode_char n)) (encode_char n).
Proof.
  intros Hn. destruct (N.ltb_spec n 128) as [Hl|Hl].
  - assert (Hc : encode_char n = String (Ascii.ascii_of_N n) "").
    { unfold encode_char. by destruct (N.ltb_spec n 128); [|lia]. }
    rewrite Hc. apply ascii_reads_back. rewrite byte_val_ascii; lia.
  - unfold json_char. rewrite decode_encode by done.
    repeat match goal with |- context [(n =? ?k)%N] => destruct (N.eqb_spec n k); [lia|] end.
    destruct (N.ltb_spec n 32); [lia|]. destruct (N.ltb_spec n 127); [lia|]. cbn [orb].
    destruct ascii; cbn [negb].
    + destruct (N.ltb_spec n 65536); [apply bmp_reads_back | apply pair_reads_back];
        unfold scalar in *; try lia.
      unfold is_high. destruct (N.leb_spec 55296 n); [|done]. cbn.
      destruct (N.leb_spec n 56319); [lia|done].
    + by apply raw_reads_back; apply encode_bytes.
Qed.

(** A string whose characters all encode scalar values. *)
Definition utf8_text (s : string) : Prop :=
  Forall (fun c => exists n, scalar n /\ c = encode_char n) (utf8_chars s).

Lemma parse_json_chars ascii cs rest fuel :
  Forall (fun c => exists n, scalar n /\ c = encode_char n) cs ->
  String.length (of_chars (map (json_char ascii) cs)) < fuel ->
  parse_string fuel (of_chars (map (json_char ascii) cs) +:+ DQ +:+ rest) =
    Some (of_chars cs, rest).
Proof.
  intros H. revert fuel. induction H as [|c cs (n & Hn & ->) _ IH]; intros fuel Hf.
  - destruct fuel; [cbn in Hf; lia|]. reflexivity.
  - cbn [map] in *. rewrite !of_chars_cons, str_app_assoc in *. rewrite str_app_length in Hf.
    destruct (json_char_reads_back ascii n Hn) as (k & Hk & Hstep).
    replace fuel with (k + (fuel - k)) by lia. rewrite Hstep, IH by lia. done.
Qed.

Lemma parse_json_string ascii s rest fuel :
  utf8_text s -> String.length (json_string ascii s) <= S fuel ->
  exists w, json_string ascii s +:+ rest = String (Ascii.ascii_of_N 34) w /\
    parse_string fuel w = Some (s, rest).
Proof.
  intros Hs Hf. unfold json_string in *. rewrite !str_app_assoc.
  eexists. split; [reflexivity|]. cbn [String.append].
  rewrite parse_json_chars; [by rewrite of_utf8_chars|done|].
  rewrite !str_app_length in Hf. change (String.length DQ) with 1 in Hf. lia.
Qed.

(** ** Integers *)

Lemma digits_N_snoc ds c :
  digits_N (ds +:+ String c "") = (digits_N ds * 10 + (byte_val c - 48))%N.
Proof. unfold digits_N. by rewrite list_ascii_app, foldl_app. Qed.

Lemma all_bytes_app p s t : all_bytes p (s +:+ t) = all_bytes p s && all_bytes p t.
Proof.
  induction s as [|c s IH]; [done|]. rewrite str_app_cons. cbn. by rewrite IH, andb_assoc.
Qed.

Lemma pretty_digit d : (d < 10)%N ->
  is_digit (pretty_N_char d) = true /\ (byte_val (pretty_N_char d) - 48 = d)%N /\
  (d <> 0%N -> byte_val (pretty_N_char d) <> 48%N).
Proof.
  intros H. destruct d as [|p]; [by vm_compute|].
  do 9 (destruct p as [p|p|]; try lia; try by vm_compute; try (split_and!; by vm_compute)).
Qed.

Lemma pretty_digits n s : (0 < n)%N -> exists ds,
  pretty_N_go n s = ds +:+ s /\ all_bytes is_digit ds = true /\ digits_N ds = n /\
  exists c ds', ds = String c ds' /\ byte_val c <> 48%N.
Proof.
  revert s. induction (N.lt_wf_0 n) as [n _ IH]. intros s Hn.
  rewrite pretty_N_go_step by done. set (c := pretty_N_char (n mod 10)).
  destruct (pretty_digit (n mod 10)%N) as (Hd & Hv & Hz); [by apply N.mod_lt|]. fold c in Hd, Hv, Hz.
  destruct (N.eq_dec (n / 10)%N 0%N) as [E|E].
  - rewrite E, pretty_N_go_0. exists (String c ""). split_and!; [done| | |].
    + cbn. by rewrite Hd.
    + unfold digits_N. cbn. rewrite Hv. apply N.mod_small. by apply N.div_small_iff in E.
    + exists c, "". split; [done|]. apply Hz. rewrite N.mod_small; [lia|].
      by apply N.div_small_iff in E.
  - assert (Hlt : (n / 10 < n)%N) by (by apply N.div_lt). assert (Hpos : (0 < n / 10)%N) by (by apply N.neq_0_lt_0).
    destruct (IH _ Hlt (String c s) Hpos) as (ds & Hgo & Hall & Hval & x & ds' & -> & Hx).
    exists (String x ds' +:+ String c ""). split_and!.
    + by rewrite Hgo, str_app_assoc.
    + rewrite all_bytes_app, Hall. cbn. by rewrite Hd.
    + rewrite digits_N_snoc, Hval, Hv. pose proof (N.div_mod n 10); lia.
    + eexists x, _. by split.
Qed.

Definition stops_number (rest : string) : bool :=
  match rest with
  | EmptyString => true
  | String c _ => existsb (N.eqb (byte_val c)) [44; 93; 125; 32; 10]%N
  end.

Lemma span_digits_app ds rest :
  all_bytes is_digit ds = true -> stops_number rest = true ->
  span_digits (ds +:+ rest) = (ds, rest).
Proof.
  intros Hd Hr. induction ds as [|c ds IH].
  - rewrite str_app_nil_l. destruct rest as [|c rest]; [done|]. cbn in Hr |- *.
    unfold is_digit, byte_in. bsplit.
    destruct (N.leb_spec 48 (byte_val c)); [|done]. cbn.
    destruct (N.leb_spec (byte_val c) 57); [|done]. exfalso.
    repeat match type of Hr with (N.eqb ?a ?b || _) = true =>
      destruct (N.eqb_spec a b); [lia|]; cbn in Hr end. done.
  - cbn in Hd. bsplit. rewrite str_app_cons. cbn. rewrite H. by rewrite IH.
Qed.

Lemma stops_simpl rest : stops_number rest = true ->
  match rest with
  | EmptyString => True
  | String c _ => (byte_val c =? 46)%N = false /\ (byte_val c =? 101)%N = false /\
                  (byte_val c =? 69)%N = false /\ is_digit c = false
  end.
Proof.
  destruct rest as [|c rest]; [done|]. unfold is_digit, byte_in. cbn. intros H.
  repeat match type of H with (N.eqb ?a ?b || _) = true =>
    destruct (N.eqb_spec a b) as [->|_]; [by vm_compute|]; cbn in H end. done.
Qed.

Lemma parse_digits (neg : bool) ds rest :
  all_bytes is_digit ds = true -> stops_number rest = true ->
  (ds = "0" \/ exists c ds', ds = String c ds' /\ byte_val c <> 48%N) ->
  parse_number ((if neg then "-" else "") +:+ ds +:+ rest) =
    Some (PInt (if neg then - Z.of_N (digits_N ds) else Z.of_N (digits_N ds))%Z, rest).
Proof.
  intros Hd Hr Hh.
  assert (H1 : exists c ds', ds = String c ds' /\ is_digit c = true).
  { destruct Hh as [->|(c & ds' & -> & _)]; [by exists (Ascii.ascii_of_N 48), ""|].
    cbn in Hd. bsplit. eauto. }
  destruct H1 as (c & ds' & Hc & Hcd).
  assert (Hmin : (byte_val c =? 45)%N = false).
  { unfold is_digit, byte_in in Hcd. rewrite andb_true_iff, !N.leb_le in Hcd.
    apply N.eqb_neq. lia. }
  unfold parse_number.
  assert (Hs : match (if neg then "-" else "") +:+ ds +:+ rest with
               | String c s' => if (byte_val c =? 45)%N then (true, s')
                                else (false, (if neg then "-" else "") +:+ ds +:+ rest)
               | EmptyString => (false, (if neg then "-" else "") +:+ ds +:+ rest)
               end = (neg, ds +:+ rest)).
  { destruct neg; [reflexivity|]. subst ds. rewrite str_app_nil_l, str_app_cons. by rewrite Hmin. }
  rewrite Hs.
  assert (Hds : match ds +:+ rest with
                | String c s' => if (byte_val c =? 48)%N then ("0", s') else span_digits (ds +:+ rest)
                | EmptyString => ("", ds +:+ rest)
                end = (ds, rest)).
  { destruct Hh as [->|(c' & ds'' & -> & Hz)]; [reflexivity|].
    rewrite str_app_cons. apply N.eqb_neq in Hz. rewrite Hz. rewrite <- str_app_cons.
    by apply span_digits_app. }
  rewrite Hds. apply stops_simpl in Hr.
  destruct rest as [|e rest]; [by subst ds; destruct neg|].
  destruct Hr as (-> & -> & -> & _). cbn [orb]. by subst ds; destruct neg.
Qed.

Lemma parse_int z rest :
  stops_number rest = true -> parse_number (str_of_Z z +:+ rest) = Some (PInt z, rest).
Proof.
  intros Hr. unfold str_of_Z. destruct z as [|p|p].
  - apply (parse_digits false "0" rest); [done|done|by left].
  - destruct (pretty_digits (Npos p) "") as (ds & Hgo & Hall & Hval & Hhd); [lia|].
    rewrite str_app_nil_r in Hgo. change (pretty (Zpos p)) with (pretty (Npos p)).
    assert (pretty (Npos p) = ds) as -> by done.
    pose proof (parse_digits false ds rest Hall Hr (or_intror Hhd)) as H.
    rewrite str_app_nil_l, Hval in H. exact H.
  - destruct (pretty_digits (Npos p) "") as (ds & Hgo & Hall & Hval & Hhd); [lia|].
    rewrite str_app_nil_r in Hgo. change (pretty (Zneg p)) with ("-" +:+ pretty (Npos p)).
    assert (pretty (Npos p) = ds) as -> by done.
    rewrite str_app_assoc, (parse_digits true ds rest Hall Hr (or_intror Hhd)). by rewrite Hval.
Qed.

(** ** Sorting by a key commutes with a map that keeps the key *)

Section SortMap.
Context {A B : Type} (f : A -> string) (f' : B -> string) (g : A -> B).
Context (Hg : forall x, f' (g x) = f x).

Lemma list_merge_map l1 l2 :
  list_merge (key_le f') (map g l1) (map g l2) = map g (list_merge (key_le f) l1 l2).
Proof.
  revert l2. induction l1 as [|x1 l1 IH1]; intros l2; [by destruct l2|].
  induction l2 as [|x2 l2 IH2]; [done|]. cbn [map] in *. rewrite !list_merge_cons.
  assert (Hiff : key_le f' (g x1) (g x2) <-> key_le f x1 x2).
  { unfold key_le. by rewrite !Hg. }
  destruct (decide (key_le f x1 x2)) as [H|H];
    destruct (decide (key_le f' (g x1) (g x2))) as [H'|H']; try (by tauto); cbn [map].
  - by rewrite <- IH1.
  - by rewrite <- IH2.
Qed.

Lemma merge_list_to_stack_map st l :
  merge_list_to_stack (key_le f') (map (option_map (map g)) st) (map g l) =
  map (option_map (map g)) (merge_list_to_stack (key_le f) st l).
Proof.
  revert l. induction st as [|[l'|] st IH]; intros l; cbn; [done| |done].
  by rewrite list_merge_map, IH.
Qed.

Lemma sorted_by_map l : sorted_by f' (map g l) = map g (sorted_by f l).
Proof.
  unfold sorted_by, merge_sort. change (@nil (option (list B))) with
    (map (option_map (map g)) []).
  generalize (@nil (option (list A))) as st. induction l as [|x l IH]; intros st; cbn.
  - induction st as [|[l|] st IH]; cbn; [done| |done]. by rewrite IH, list_merge_map.
  - change [g x] with (map g [x]). by rewrite merge_list_to_stack_map, IH.
Qed.
End SortMap.

(** * Printing and reading back *)

Section PyvalInd.
Context (P : pyval -> Prop).
Context (Hnone : P PNone) (Hbool : forall b, P (PBool b)) (Hint : forall z, P (PInt z))
  (Hfloat : forall r, P (PFloat r)) (Hstr : forall s, P (PStr s))
  (Hlist : forall l, Forall P l -> P (PList l))
  (Hdict : forall d, Forall (fun kv => P (snd kv)) d -> P (PDict d)).

Fixpoint pyval_rect' (v : pyval) : P v :=
  match v with
  | PNone => Hnone
  | PBool b => Hbool b
  | PInt z => Hint z
  | PFloat r => Hfloat r
  | PStr s => Hstr s
  | PList l => Hlist l ((fix go l : Forall P l :=
      match l with
      | [] => @List.Forall_nil _ _
      | x :: l' => @List.Forall_cons _ _ x l' (pyval_rect' x) (go l')
      end) l)
  | PDict d => Hdict d ((fix go d : Forall (fun kv => P (snd kv)) d :=
      match d with
      | [] => @List.Forall_nil _ _
      | kv :: d' => @List.Forall_cons _ _ kv d' (pyval_rect' (snd kv)) (go d')
      end) d)
  end.
End PyvalInd.

(** The value read back: the same, with the members in key order. *)
Fixpoint canon (v : pyval) : pyval :=
  match v with
  | PList l => PList (map canon l)
  | PDict d => PDict (sorted_by fst (map (fun kv => (fst kv, canon (snd kv))) d))
  | _ => v
  end.

(** Values without floats, with distinct keys and well-formed text. *)
Fixpoint json_ok (v : pyval) : Prop :=
  match v with
  | PFloat _ => False
  | PStr s => utf8_text s
  | PList l => foldr (fun x p => json_ok x /\ p) True l
  | PDict d => NoDup (keys d) /\ foldr (fun kv p => utf8_text (fst kv) /\ json_ok (snd kv) /\ p) True d
  | _ => True
  end.

Definition style_ok (st : json_style) : Prop :=
  exists w1 w2, st_item_sep st = "," +:+ w1 /\ st_key_sep st = ":" +:+ w2 /\
    all_bytes is_ws w1 = true /\ all_bytes is_ws w2 = true.

Lemma skip_ws_app w s : all_bytes is_ws w = true -> skip_ws (w +:+ s) = skip_ws s.
Proof.
  induction w as [|c w IH]; [done|]. cbn [all_bytes]. intros H. bsplit.
  rewrite str_app_cons. cbn [skip_ws]. rewrite H. auto.
Qed.

Definition visible_head (s : string) : Prop :=
  exists c t, s = String c t /\ is_ws c = false /\ (byte_val c =? 93)%N = false.

Lemma skip_ws_visible s t : visible_head s -> skip_ws (s +:+ t) = s +:+ t.
Proof. intros (c & u & -> & Hc & _). rewrite str_app_cons. cbn [skip_ws]. by rewrite Hc. Qed.

Lemma strip_prefix_app p t : strip_prefix p (p +:+ t) = Some t.
Proof.
  unfold strip_prefix. rewrite (proj2 (prefix_spec p (p +:+ t))) by eauto. f_equal.
  rewrite str_app_length. replace (String.length p + String.length t - String.length p)
    with (String.length t) by lia.
  induction p as [|c p IH]; [|by rewrite str_app_cons].
  rewrite str_app_nil_l. cbn [String.length]. induction t as [|c t IH]; cbn; [done|].
  by rewrite IH.
Qed.

Lemma newline_ws st lvl : all_bytes is_ws (newline st lvl) = true.
Proof.
  unfold newline. destruct (st_indent st); [|done]. rewrite all_bytes_app.
  change (all_bytes is_ws LF) with true. cbn [andb]. unfold spaces.
  induction (2 * lvl) as [|n IH]; [done|]. cbn [replicate]. rewrite of_chars_cons.
  rewrite all_bytes_app. by rewrite IH.
Qed.

Lemma dump_head st lvl v : json_ok v -> visible_head (dump st lvl v).
Proof.
  destruct v as [|b|z|r|s|l|d]; cbn [dump json_ok]; intros H.
  - by eexists _, _.
  - destruct b; by eexists _, _.
  - unfold str_of_Z. destruct z as [|p|p]; [by exists (Ascii.ascii_of_N 48), ""| |
      exists (Ascii.ascii_of_N 45), (pretty (Npos p)); by split].
    destruct (pretty_digits (Npos p) "") as (ds & Hgo & Hall & _ & c & ds' & -> & _); [lia|].
    rewrite str_app_nil_r in Hgo. exists c, ds'. split; [exact Hgo|].
    cbn [all_bytes] in Hall. apply andb_true_iff in Hall as [Hc _].
    unfold is_digit, byte_in in Hc. rewrite andb_true_iff, !N.leb_le in Hc.
    split; [|apply N.eqb_neq; lia]. unfold is_ws. apply not_true_iff_false.
    rewrite existsb_exists. intros (x & Hx & Heq%N.eqb_eq). cbn in Hx. lia.
  - done.
  - by eexists _, _.
  - unfold json_block. destruct (map _ l); by eexists _, _.
  - unfold json_block. destruct (map _ _); by eexists _, _.
Qed.

Lemma dump_length st lvl v : json_ok v -> 0 < String.length (dump st lvl v).
Proof. intros H. destruct (dump_head st lvl v H) as (c & t & -> & _). cbn. lia. Qed.

Section RoundTrip.
Context (st : json_style) (w1 w2 : string).
Context (Hw1 : all_bytes is_ws w1 = true) (Hw2 : all_bytes is_ws w2 = true).
Context (Hitem : st_item_sep st = "," +:+ w1) (Hkey : st_key_sep st = ":" +:+ w2).

(** The printed form of [v], followed by a text that cannot extend it. *)
Definition reads (v : pyval) : Prop := forall lvl fuel rest,
  json_ok v -> stops_number rest = true -> String.length (dump st lvl v) <= fuel ->
  parse_value fuel (dump st lvl v +:+ rest) = Some (canon v, rest).

Lemma ws_stops w rest :
  all_bytes is_ws w = true -> stops_number rest = true ->
  match w with String c _ => (byte_val c =? 9)%N || (byte_val c =? 13)%N | _ => false end = false ->
  stops_number (w +:+ rest) = true.
Proof.
  destruct w as [|c w]; [done|]. rewrite str_app_cons. cbn [all_bytes stops_number].
  intros H _ Hn. bsplit. unfold is_ws in *. cbn [existsb] in *.
  destruct (byte_val c =? 32)%N, (byte_val c =? 9)%N, (byte_val c =? 10)%N, (byte_val c =? 13)%N,
    (byte_val c =? 44)%N, (byte_val c =? 93)%N, (byte_val c =? 125)%N; done.
Qed.

Lemma newline_stops lvl rest : stops_number rest = true -> stops_number (newline st lvl +:+ rest) = true.
Proof.
  intros Hr. apply ws_stops; [apply newline_ws | done|]. unfold newline.
  by destruct (st_indent st).
Qed.

(** The items of an array up to the closing bracket. *)
Lemma parse_items_dump lvl wsep l fuel rest :
  all_bytes is_ws wsep = true ->
  Forall reads l -> foldr (fun x p => json_ok x /\ p) True l -> l <> [] ->
  let items := map (dump st (S lvl)) l in
  let text := String.concat (st_item_sep st +:+ wsep) items in
  String.length text < fuel ->
  parse_items fuel (text +:+ newline st lvl +:+ "]" +:+ rest) = Some (map canon l, rest).
Proof.
  intros Hws Hl. revert fuel. induction Hl as [|v l Hv Hl IH]; intros fuel Hok Hne; [done|].
  cbn zeta in *. intros Hf. destruct fuel as [|fuel]; [lia|]. cbn [foldr] in Hok.
  destruct Hok as [Hov Hok]. cbn [parse_items]. destruct l as [|v2 l].
  - cbn [map String.concat] in *. rewrite Hv by (try apply newline_stops; done || lia).
    cbn [mbind option_bind]. rewrite skip_ws_app by apply newline_ws. reflexivity.
  - change (String.concat (st_item_sep st +:+ wsep) (map (dump st (S lvl)) (v :: v2 :: l)))
      with (dump st (S lvl) v +:+ (st_item_sep st +:+ wsep) +:+
            String.concat (st_item_sep st +:+ wsep) (map (dump st (S lvl)) (v2 :: l))) in *.
    rewrite Hitem in *. rewrite !str_app_assoc in *. rewrite !str_app_length in Hf.
    change (String.length ",") with 1 in Hf.
    rewrite Hv by (done || lia). cbn [mbind option_bind].
    change ("," +:+ ?x) with (String (Ascii.ascii_of_N 44) x). cbn [skip_ws].
    change (is_ws (Ascii.ascii_of_N 44)) with false. cbn iota.
    change (byte_val (Ascii.ascii_of_N 44)) with 44%N. cbn [N.eqb Pos.eqb].
    rewrite skip_ws_app, skip_ws_app by done.
    assert (Hvis : visible_head (String.concat (("," +:+ w1) +:+ wsep)
                      (map (dump st (S lvl)) (v2 :: l)))).
    { destruct (dump_head st (S lvl) v2) as (c & t & Hc & Hcw & Hcb); [apply Hok|].
      destruct l; cbn [map String.concat]; rewrite Hc; eexists c, _; by split_and!. }
    rewrite str_app_assoc in Hvis. rewrite skip_ws_visible by done.
    rewrite IH by (done || lia). done.
Qed.

(** The members of an object, in the order they are printed. *)
Definition member (lvl : nat) (kv : string * pyval) : string :=
  json_string (st_ascii st) (fst kv) +:+ st_key_sep st +:+ dump st (S lvl) (snd kv).

Lemma member_head lvl kv : visible_head (member lvl kv).
Proof. unfold member, json_string. by eexists _, _. Qed.

Lemma dset_fresh (acc : dict) k v : k ∉ keys acc -> dset acc k v = acc ++ [(k, v)].
Proof.
  induction acc as [|[j w] acc IH]; cbn; [done|]. intros [Hne Hin]%not_elem_of_cons.
  destruct (String.eqb_spec j k); [by subst|]. by rewrite IH.
Qed.

(** One member, followed by a text [tail] that ends the value. *)
Lemma parse_one_member lvl k v acc fuel tail :
  reads v -> utf8_text k -> json_ok v -> stops_number tail = true ->
  String.length (member lvl (k, v)) <= fuel ->
  parse_members (S fuel) acc (member lvl (k, v) +:+ tail) =
    match skip_ws tail with
    | String d r3 =>
        if (byte_val d =? 44)%N then parse_members fuel (dset acc k (canon v)) (skip_ws r3)
        else if (byte_val d =? 125)%N then Some (dset acc k (canon v), r3)
        else None
    | EmptyString => None
    end.
Proof.
  intros Hv Hk Hov Ht Hlen. unfold member in *. cbn [fst snd] in *. rewrite Hkey in *.
  rewrite !str_app_assoc. rewrite !str_app_length in Hlen.
  destruct (parse_json_string (st_ascii st) k ((":" +:+ w2) +:+ dump st (S lvl) v +:+ tail) fuel)
    as (w & Hw & Hp); [done|lia|]. rewrite !str_app_assoc in Hw, Hp. rewrite Hw.
  cbn [parse_members]. change (byte_val (Ascii.ascii_of_N 34)) with 34%N.
  cbn [N.eqb Pos.eqb negb]. rewrite Hp. cbn [mbind option_bind].
  change (":" +:+ ?x) with (String (Ascii.ascii_of_N 58) x). cbn [skip_ws].
  change (is_ws (Ascii.ascii_of_N 58)) with false. cbn iota.
  change (byte_val (Ascii.ascii_of_N 58)) with 58%N. cbn [N.eqb Pos.eqb negb].
  rewrite skip_ws_app by done. rewrite skip_ws_visible by (by apply dump_head).
  rewrite Hv by (done || lia). done.
Qed.

Lemma parse_members_dump lvl wsep (d : dict) acc fuel rest :
  all_bytes is_ws wsep = true ->
  Forall (fun kv => reads (snd kv)) d ->
  Forall (fun kv => utf8_text (fst kv) /\ json_ok (snd kv)) d ->
  NoDup (keys acc ++ keys d) -> d <> [] ->
  let text := String.concat (st_item_sep st +:+ wsep) (map (member lvl) d) in
  String.length text < fuel ->
  parse_members fuel acc (text +:+ newline st lvl +:+ "}" +:+ rest) =
    Some (acc ++ map (fun kv => (fst kv, canon (snd kv))) d, rest).
Proof.
  intros Hws Hd. revert acc fuel.
  induction Hd as [|[k v] d Hv Hd IH]; intros acc fuel Hok Hnd Hne; [done|].
  cbn zeta in *. intros Hf. destruct fuel as [|fuel]; [lia|].
  apply Forall_cons in Hok as [[Hk Hov] Hok]. cbn [fst snd] in *.
  assert (Hacc : dset acc k (canon v) = acc ++ [(k, canon v)]).
  { apply dset_fresh. intros Hin. apply NoDup_app in Hnd as (_ & Hdis & _).
    apply (Hdis k Hin). by left. }
  destruct d as [|kv2 d].
  - cbn [map String.concat] in *. rewrite parse_one_member by (try apply newline_stops; done || lia).
    rewrite skip_ws_app by apply newline_ws. cbn. by rewrite Hacc.
  - change (String.concat (st_item_sep st +:+ wsep) (map (member lvl) ((k, v) :: kv2 :: d)))
      with (member lvl (k, v) +:+ (st_item_sep st +:+ wsep) +:+
            String.concat (st_item_sep st +:+ wsep) (map (member lvl) (kv2 :: d))) in *.
    rewrite Hitem in *. rewrite !str_app_assoc in *. rewrite !str_app_length in Hf.
    change (String.length ",") with 1 in Hf. rewrite parse_one_member by (done || lia).
    change ("," +:+ ?x) with (String (Ascii.ascii_of_N 44) x). cbn [skip_ws].
    change (is_ws (Ascii.ascii_of_N 44)) with false. cbn iota.
    change (byte_val (Ascii.ascii_of_N 44)) with 44%N. cbn [N.eqb Pos.eqb].
    rewrite skip_ws_app, skip_ws_app by done.
    assert (Hvis : visible_head (String.concat ("," +:+ w1 +:+ wsep)
                      (map (member lvl) (kv2 :: d)))).
    { destruct (member_head lvl kv2) as (c & t & Hc & Hcw & Hcb).
      destruct d; cbn [map String.concat]; rewrite Hc; eexists c, _; by split_and!. }
    rewrite skip_ws_visible by done. rewrite Hacc, IH; [|done| |done|lia].
    + by rewrite <- app_assoc.
    + unfold keys in *. rewrite map_app. cbn in Hnd |- *. by rewrite <- app_assoc.
Qed.

(** Words and numbers: the dispatch on the first character. *)
Lemma parse_words rest :
  parse_word json_words ("null" +:+ rest) = Some (PNone, rest) /\
  parse_word json_words ("true" +:+ rest) = Some (PBool true, rest) /\
  parse_word json_words ("false" +:+ rest) = Some (PBool false, rest).
Proof.
  unfold json_words. cbn [parse_word]. rewrite (strip_prefix_app "null"), (strip_prefix_app "true"), (strip_prefix_app "false").
  change (strip_prefix "null" ("true" +:+ rest)) with (@None string).
  change (strip_prefix "null" ("false" +:+ rest)) with (@None string).
  change (strip_prefix "true" ("false" +:+ rest)) with (@None string).
  done.
Qed.

Lemma other_prefix p c d s t : c <> d -> strip_prefix (String c p) (String d (s +:+ t)) = None.
Proof. intros Hne. unfold strip_prefix. cbn. by destruct (Ascii.ascii_dec c d). Qed.

Lemma other_second p a c d s : c <> d ->
  strip_prefix (String a (String c p)) (String a (String d s)) = None.
Proof.
  intros Hne. unfold strip_prefix. cbn. destruct (Ascii.ascii_dec a a); [|done].
  by destruct (Ascii.ascii_dec c d).
Qed.

Lemma digit_parses fuel c ds rest : is_digit c = true ->
  parse_value (S fuel) (String c ds +:+ rest) = parse_number (String c ds +:+ rest).
Proof.
  intros Hd. pose proof Hd as Hc.
  unfold is_digit, byte_in in Hc. rewrite andb_true_iff, !N.leb_le in Hc.
  rewrite str_app_cons. cbn [parse_value].
  assert (Hw : parse_word json_words (String c (ds +:+ rest)) = None).
  { unfold json_words. cbn [parse_word].
    rewrite !other_prefix by (intros <-; vm_compute in Hd; discriminate Hd). done. }
  rewrite Hw. repeat match goal with |- context [(byte_val c =? ?k)%N] =>
    destruct (N.eqb_spec (byte_val c) k); [lia|] end. done.
Qed.

Lemma minus_parses fuel c ds rest : is_digit c = true ->
  parse_value (S fuel) (String (Ascii.ascii_of_N 45) (String c ds) +:+ rest) =
  parse_number (String (Ascii.ascii_of_N 45) (String c ds) +:+ rest).
Proof.
  intros Hd. pose proof Hd as Hc.
  unfold is_digit, byte_in in Hc. rewrite andb_true_iff, !N.leb_le in Hc.
  rewrite !str_app_cons. cbn [parse_value].
  change (byte_val (Ascii.ascii_of_N 45)) with 45%N. cbn [N.eqb Pos.eqb].
  set (t := String c (ds +:+ rest)).
  assert (Hw : parse_word json_words (String (Ascii.ascii_of_N 45) t) = None).
  { unfold json_words. cbn [parse_word]. unfold t. rewrite <- str_app_cons.
    rewrite !other_prefix by done. rewrite str_app_cons, other_second; [done|].
    intros <-. vm_compute in Hd. discriminate Hd. }
  by rewrite Hw.
Qed.

Lemma int_reads z : reads (PInt z).
Proof.
  intros lvl fuel rest _ Hr Hf. cbn [dump canon] in *.
  pose proof (parse_int z rest Hr) as Hp. unfold str_of_Z in *.
  pose proof (dump_length st lvl (PInt z) I) as Hpos. cbn [dump] in Hpos.
  unfold str_of_Z in Hpos. destruct fuel as [|fuel]; [lia|].
  rewrite <- Hp. destruct z as [|p|p].
  - reflexivity.
  - destruct (pretty_digits (Npos p) "") as (ds & Hgo & Hall & _ & c & ds' & -> & _); [lia|].
    rewrite str_app_nil_r in Hgo. assert (pretty (Zpos p) = String c ds') as -> by exact Hgo.
    cbn [all_bytes] in Hall. apply andb_true_iff in Hall as [Hc _]. by apply digit_parses.
  - destruct (pretty_digits (Npos p) "") as (ds & Hgo & Hall & _ & c & ds' & -> & _); [lia|].
    rewrite str_app_nil_r in Hgo.
    assert (pretty (Zneg p) = String (Ascii.ascii_of_N 45) (String c ds')) as ->
      by (change (pretty (Zneg p)) with ("-" +:+ pretty_N_go (Npos p) ""); by rewrite Hgo).
    cbn [all_bytes] in Hall. apply andb_true_iff in Hall as [Hc _]. by apply minus_parses.
Qed.

Lemma str_reads s : reads (PStr s).
Proof.
  intros lvl fuel rest Hok _ Hf. pose proof (dump_length st lvl _ Hok) as Hpos.
  cbn [dump canon json_ok] in *. destruct fuel as [|fuel]; [lia|].
  destruct (parse_json_string (st_ascii st) s rest fuel Hok Hf) as (w & -> & Hp).
  cbn [parse_value]. change (byte_val (Ascii.ascii_of_N 34)) with 34%N.
  cbn [N.eqb Pos.eqb]. by rewrite Hp.
Qed.

(** A block of items: what comes after the opening bracket. *)
Lemma block_text lvl opening closing items :
  items <> [] ->
  json_block st lvl opening closing items =
    opening +:+ newline st (S lvl) +:+
    String.concat (st_item_sep st +:+ newline st (S lvl)) items +:+ newline st lvl +:+ closing.
Proof. by destruct items. Qed.

Lemma list_reads l : Forall reads l -> reads (PList l).
Proof.
  intros IH lvl fuel rest Hok Hr Hf. pose proof (dump_length st lvl _ Hok) as Hpos.
  cbn [dump canon json_ok] in *. destruct fuel as [|fuel]; [lia|].
  destruct l as [|v l]; [reflexivity|]. rewrite block_text in * by done.
  rewrite !str_app_assoc. rewrite !str_app_length in Hf.
  change (String.length "[") with 1 in Hf. change (String.length "]") with 1 in Hf.
  change ("[" +:+ ?x) with (String (Ascii.ascii_of_N 91) x). cbn [parse_value].
  change (byte_val (Ascii.ascii_of_N 91)) with 91%N. cbn [N.eqb Pos.eqb].
  rewrite skip_ws_app by apply newline_ws.
  set (text := String.concat _ _) in *.
  assert (Hvis : visible_head text).
  { destruct (dump_head st (S lvl) v) as (c & t & Hc & Hcw & Hcb); [apply Hok|].
    unfold text. destruct l; cbn [map String.concat]; rewrite Hc; eexists c, _; by split_and!. }
  rewrite skip_ws_visible by done. destruct Hvis as (c & t & Ht & _ & Hc).
  rewrite Ht, str_app_cons, Hc. rewrite <- str_app_cons, <- Ht. unfold text.
  rewrite parse_items_dump; [done|apply newline_ws|done|done|done|]. fold text. lia.
Qed.

Lemma dict_reads d : Forall (fun kv => reads (snd kv)) d -> reads (PDict d).
Proof.
  intros IH lvl fuel rest [Hnd Hok] Hr Hf.
  pose proof (dump_length st lvl (PDict d) (conj Hnd Hok)) as Hpos. cbn [dump canon] in *.
  destruct fuel as [|fuel]; [lia|].
  rewrite !(sorted_by_map fst fst) in * by done. rewrite map_map in *. cbn [fst snd] in *.
  set (e := sorted_by fst d) in *. pose proof (sorted_by_perm fst d) as Hperm. fold e in Hperm.
  rewrite (map_ext _ (member lvl)) in * by done.
  destruct e as [|kv e']; [reflexivity|]. set (e := kv :: e') in *.
  rewrite block_text in * by done.
  rewrite !str_app_assoc. rewrite !str_app_length in Hf.
  change (String.length "{") with 1 in Hf. change (String.length "}") with 1 in Hf.
  change ("{" +:+ ?x) with (String (Ascii.ascii_of_N 123) x). cbn [parse_value].
  change (byte_val (Ascii.ascii_of_N 123)) with 123%N. cbn [N.eqb Pos.eqb].
  rewrite skip_ws_app by apply newline_ws.
  set (text := String.concat _ _) in *.
  assert (Hvis : exists t, text = String (Ascii.ascii_of_N 34) t).
  { unfold text, e. destruct e'; cbn [map String.concat]; unfold member, json_string;
      by eexists. }
  destruct Hvis as (t & Ht). rewrite skip_ws_visible by (rewrite Ht; by eexists _, _).
  rewrite Ht, str_app_cons. change (byte_val (Ascii.ascii_of_N 34)) with 34%N.
  cbn [N.eqb Pos.eqb]. rewrite <- str_app_cons, <- Ht. unfold text.
  rewrite parse_members_dump; [done|apply newline_ws| | | |done|fold text; lia].
  - by rewrite Hperm.
  - rewrite Hperm. clear -Hok. induction d as [|kv d IH]; [constructor|].
    destruct Hok as (? & ? & ?). constructor; auto.
  - cbn [keys map app]. unfold keys. by rewrite (Permutation_map fst Hperm).
Qed.

Lemma all_reads v : reads v.
Proof.
  induction v as [|b|z|r|s|l IH|d IH] using pyval_rect'.
  - intros lvl [|fuel] rest _ _ Hf; [cbn in Hf; lia|]. cbn [dump parse_value].
    destruct (parse_words rest) as (H & _ & _). by rewrite H.
  - intros lvl [|fuel] rest _ _ Hf; [destruct b; cbn in Hf; lia|]. cbn [dump].
    destruct (parse_words rest) as (_ & Ht & Hfa).
    destruct b; cbn [parse_value]; [by rewrite Ht | by rewrite Hfa].
  - apply int_reads.
  - by intros lvl fuel rest [].
  - apply str_reads.
  - by apply list_reads.
  - by apply dict_reads.
Qed.
End RoundTrip.

Lemma skip_ws_all w : all_bytes is_ws w = true -> skip_ws w = "".
Proof.
  intros H. rewrite <- (str_app_nil_r w), skip_ws_app by done. done.
Qed.

(** What [dumps] writes, [loads] reads, up to the order of the members. *)
Lemma loads_dumps st v tail :
  style_ok st -> json_ok v -> all_bytes is_ws tail = true -> stops_number tail = true ->
  loads (dumps st v +:+ tail) = Some (canon v).
Proof.
  intros (w1 & w2 & Hi & Hk & H1 & H2) Hok Hws Htail. unfold loads, dumps.
  rewrite skip_ws_visible by (by apply dump_head).
  rewrite (all_reads st w1 w2) by (done || rewrite str_app_length; lia).
  by rewrite skip_ws_all.
Qed.

(** ** Lookups in a value that was read back *)

Lemma keys_canon d :
  keys (sorted_by fst (map (fun kv => (fst kv, canon (snd kv))) d)) ≡ₚ keys d.
Proof.
  unfold keys. rewrite (sorted_by_map fst fst) by done. rewrite map_map.
  rewrite (map_ext _ fst) by done. apply Permutation_map, sorted_by_perm.
Qed.

Lemma canon_dget d k :
  NoDup (keys d) -> dget (dict_of (canon (PDict d))) k = option_map canon (dget d k).
Proof.
  intros Hnd. cbn [canon dict_of].
  pose proof (keys_canon d) as Hk.
  assert (Hnd' : NoDup (keys (sorted_by fst (map (fun kv => (fst kv, canon (snd kv))) d))))
    by (by rewrite Hk).
  destruct (dget d k) as [v|] eqn:E; cbn.
  - apply elem_dget; [done|]. apply elem_of_sorted_by, list_elem_of_fmap.
    exists (k, v). split; [done|]. by apply dget_elem.
  - apply dget_None. rewrite Hk. by apply dget_None.
Qed.

Lemma canon_keys_subset d ks : keys_subset (dict_of (canon (PDict d))) ks = keys_subset d ks.
Proof.
  cbn [canon dict_of]. unfold keys_subset.
  generalize (keys_canon d). generalize (keys (sorted_by fst (map (fun kv => (fst kv, canon (snd kv))) d))).
  intros l Hl. induction Hl as [|x l l' _ IH|x y l|l1 l2 l3 _ IH1 _ IH2]; cbn;
    [done | by rewrite IH | | by rewrite IH1, IH2].
  by rewrite !andb_assoc, (andb_comm (existsb _ _)).
Qed.

Lemma canon_has_keys d ks :
  NoDup (keys d) -> has_keys (dict_of (canon (PDict d))) ks = has_keys d ks.
Proof.
  intros Hnd. unfold has_keys, has_key. induction ks as [|k ks IH]; cbn [forallb]; [done|].
  rewrite IH, canon_dget by done. by destruct (dget d k).
Qed.

Lemma canon_str_list l : canon (str_list l) = str_list l.
Proof.
  unfold str_list. cbn. f_equal. induction l as [|x l IH]; cbn; [done|]. by rewrite IH.
Qed.

Lemma canon_opt_str o : canon (opt_str o) = opt_str o.
Proof. by destruct o. Qed.

(** ** Printed text has no carriage return *)

Definition no_cr (s : string) : bool := all_bytes (fun c => negb (byte_val c =? 13)%N) s.

Lemma no_cr_app s t : no_cr (s +:+ t) = no_cr s && no_cr t.
Proof. apply all_bytes_app. Qed.

Lemma no_cr_contains s : no_cr s = true -> contains_byte 13 s = false.
Proof.
  induction s as [|c s IH]; cbn; [done|]. intros H. bsplit.
  apply orb_false_iff. unfold no_cr in IH. split; [done | auto].
Qed.

Lemma no_cr_of_chars l : forallb no_cr l = true -> no_cr (of_chars l) = true.
Proof.
  induction l as [|c l IH]; [done|]. cbn [forallb]. intros H. bsplit.
  rewrite of_chars_cons, no_cr_app. apply andb_true_iff. auto.
Qed.

Lemma no_cr_concat sep l : no_cr sep = true -> forallb no_cr l = true ->
  no_cr (String.concat sep l) = true.
Proof.
  intros Hs. induction l as [|x l IH]; [done|]. cbn [forallb]. intros H. bsplit.
  destruct l as [|y l]; [done|].
  change (String.concat sep (x :: y :: l)) with (x +:+ sep +:+ String.concat sep (y :: l)).
  rewrite !no_cr_app, Hs. apply andb_true_iff. split; [done|]. cbn [andb]. auto.
Qed.

Lemma hex_digit_no_cr d : (d < 16)%N -> byte_val (hex_digit d) <> 13%N.
Proof.
  intros H. unfold hex_digit. destruct (N.ltb_spec d 10); rewrite byte_val_ascii; lia.
Qed.

Lemma u_escape_no_cr n : (n < 65536)%N -> no_cr (u_escape n) = true.
Proof.
  intros Hn. unfold u_escape, hex4, hex_byte. rewrite !no_cr_app. unfold no_cr.
  cbn [all_bytes]. repeat (apply andb_true_iff; split); try done; apply negb_true_iff, N.eqb_neq;
    apply hex_digit_no_cr; div_lia.
Qed.

Lemma json_char_no_cr ascii n : scalar n -> no_cr (json_char ascii (encode_char n)) = true.
Proof.
  intros Hn. destruct (N.ltb_spec n 128) as [Hl|Hl].
  - assert (Hc : encode_char n = String (Ascii.ascii_of_N n) "").
    { unfold encode_char. by destruct (N.ltb_spec n 128); [|lia]. }
    rewrite Hc. assert (Hb : (byte_val (Ascii.ascii_of_N n) < 128)%N) by (rewrite byte_val_ascii; lia).
    revert Hb. generalize (Ascii.ascii_of_N n). intros c Hb.
    destruct c as [[] [] [] [] [] [] [] []]; vm_compute in Hb; try discriminate Hb;
      destruct ascii; vm_compute; reflexivity.
  - unfold json_char. rewrite decode_encode by done.
    repeat match goal with |- context [(n =? ?k)%N] => destruct (N.eqb_spec n k); [lia|] end.
    destruct (N.ltb_spec n 32); [lia|]. destruct (N.ltb_spec n 127); [lia|]. cbn [orb].
    unfold scalar in Hn. destruct ascii; cbn [negb].
    + destruct (N.ltb_spec n 65536); [by apply u_escape_no_cr|]. rewrite no_cr_app.
      rewrite !u_escape_no_cr by div_lia. done.
    + destruct (encode_bytes n Hn Hl) as [_ H1]. revert H1. generalize (encode_char n). intros s H1.
      induction s as [|c s IH]; [done|]. cbn in H1. apply Forall_cons in H1 as [Hc Hs].
      unfold no_cr in *. cbn [all_bytes]. apply andb_true_iff. split; [|auto].
      apply negb_true_iff, N.eqb_neq. lia.
Qed.

Lemma json_string_no_cr ascii s : utf8_text s -> no_cr (json_string ascii s) = true.
Proof.
  intros Hs. unfold json_string. rewrite !no_cr_app. apply andb_true_iff. split; [done|].
  apply andb_true_iff. split; [|done]. apply no_cr_of_chars.
  induction Hs as [|c cs (n & Hn & ->) _ IH]; [done|]. cbn [map forallb].
  by rewrite json_char_no_cr.
Qed.

Lemma newline_no_cr st lvl : no_cr (newline st lvl) = true.
Proof.
  unfold newline. destruct (st_indent st); [|done]. rewrite no_cr_app.
  apply andb_true_iff. split; [done|]. apply no_cr_of_chars.
  by induction (2 * lvl).
Qed.

Lemma block_no_cr st lvl a b items : no_cr (st_item_sep st) = true -> no_cr a = true -> no_cr b = true ->
  forallb no_cr items = true -> no_cr (json_block st lvl a b items) = true.
Proof.
  intros Hs Ha Hb Hi. unfold json_block. destruct items as [|x l]; [by rewrite no_cr_app, Ha|].
  rewrite !no_cr_app, Ha, Hb, !newline_no_cr, no_cr_concat; [done| |done].
  by rewrite no_cr_app, Hs, newline_no_cr.
Qed.

Lemma digits_no_cr ds : all_bytes is_digit ds = true -> no_cr ds = true.
Proof.
  induction ds as [|c ds IH]; cbn; [done|]. intros H. bsplit. unfold no_cr in *. cbn [all_bytes].
  apply andb_true_iff. split; [|auto]. unfold is_digit, byte_in in H.
  rewrite andb_true_iff, !N.leb_le in H. apply negb_true_iff, N.eqb_neq. lia.
Qed.

Lemma int_no_cr z : no_cr (str_of_Z z) = true.
Proof.
  unfold str_of_Z. destruct z as [|p|p]; [done| |];
    destruct (pretty_digits (Npos p) "") as (ds & Hgo & Hall & _); try lia;
    rewrite str_app_nil_r in Hgo.
  - assert (pretty (Zpos p) = ds) as -> by exact Hgo. by apply digits_no_cr.
  - change (pretty (Zneg p)) with ("-" +:+ pretty_N_go (Npos p) ""). rewrite Hgo, no_cr_app.
    apply andb_true_iff. split; [done|]. by apply digits_no_cr.
Qed.

Lemma dump_no_cr st v : no_cr (st_item_sep st) = true -> no_cr (st_key_sep st) = true ->
  json_ok v -> forall lvl, no_cr (dump st lvl v) = true.
Proof.
  intros Hs Hk. induction v as [|b|z|r|s|l IH|d IH] using pyval_rect'; intros Hok lvl;
    cbn [dump json_ok] in *.
  - done.
  - by destruct b.
  - apply int_no_cr.
  - done.
  - by apply json_string_no_cr.
  - apply block_no_cr; try done. apply forallb_forall. intros x (v & <- & Hv)%in_map_iff.
    rewrite Forall_forall in IH. apply IH; [by apply list_elem_of_In|].
    clear -Hok Hv. induction l as [|w l IH]; [done|]. destruct Hok as [? ?].
    destruct Hv as [->|Hv]; auto.
  - apply block_no_cr; try done. apply forallb_forall. intros x (kv & <- & Hv)%in_map_iff.
    apply list_elem_of_In, elem_of_sorted_by, list_elem_of_fmap in Hv as (kw & -> & Hw). cbn [fst snd].
    destruct Hok as [_ Hok].
    assert (Ho : utf8_text (fst kw) /\ json_ok (snd kw)).
    { clear -Hok Hw. induction d as [|y d IH]; [by apply not_elem_of_nil in Hw|].
      destruct Hok as (? & ? & ?). apply elem_of_cons in Hw as [->|Hw]; auto. }
    rewrite Forall_forall in IH. rewrite !no_cr_app, Hk, json_string_no_cr by apply Ho.
    cbn [andb]. apply IH; [done | apply Ho].
Qed.

(** ** A decidable sufficient condition: plain ASCII text *)

Definition ascii_text (s : string) : bool := all_bytes (fun c => byte_val c <? 128)%N s.

Lemma ascii_utf8 s : ascii_text s = true -> utf8_text s.
Proof.
  unfold ascii_text, utf8_text. induction s as [|c s IH]; [constructor|]. cbn [all_bytes].
  intros H. bsplit. apply N.ltb_lt in H.
  assert (Hs : utf8_chars (String c s) = String c "" :: utf8_chars s).
  { cbn [utf8_chars]. destruct (utf8_chars s) as [|[|d t] cs] eqn:E; [done|done|].
    assert (Hd : is_cont d = false).
    { destruct s as [|d' s]; [done|]. cbn [all_bytes] in H0. bsplit. apply N.ltb_lt in H0.
      assert (d = d') as ->.
      { cbn [utf8_chars] in E. destruct (utf8_chars s) as [|[|e u] ds]; try congruence.
        destruct (is_cont e); congruence. }
      unfold is_cont. apply andb_false_iff. left. apply N.leb_gt. lia. }
    by rewrite Hd. }
  rewrite Hs. constructor; [|auto]. exists (byte_val c). split; [left; lia|].
  unfold encode_char. destruct (N.ltb_spec (byte_val c) 128); [|lia].
  unfold bytes_of. cbn. by rewrite Ascii.ascii_N_embedding.
Qed.

Fixpoint ascii_value (v : pyval) : bool :=
  match v with
  | PFloat _ => false
  | PStr s => ascii_text s
  | PList l => forallb ascii_value l
  | PDict d => no_dup_strings (keys d) &&
      forallb (fun kv => ascii_text (fst kv) && ascii_value (snd kv)) d
  | _ => true
  end.

Lemma ascii_json_ok v : ascii_value v = true -> json_ok v.
Proof.
  induction v as [|b|z|r|s|l IH|d IH] using pyval_rect'; cbn [ascii_value json_ok]; try done.
  - apply ascii_utf8.
  - intros H. induction IH as [|x l Hx _ IH]; cbn in *; [done|]. bsplit. auto.
  - intros H. bsplit. unfold no_dup_strings in H. apply bool_decide_eq_true in H.
    split; [done|]. clear H. induction IH as [|kv d Hx _ IH]; cbn in *; [done|]. bsplit.
    auto using ascii_utf8.
Qed.

(** * UTF-8 as [bytes.decode] and [str.encode] check it *)

Definition scalar_b (n : N) : bool :=
  ((n <? 55296) || (57344 <=? n) && (n <? 1114112))%N.

Definition valid_utf8 (s : string) : bool :=
  forallb (fun c => scalar_b (decode_char c) && (encode_char (decode_char c) =? c)%string) (utf8_chars s).

Lemma scalar_b_spec n : scalar_b n = true <-> scalar n.
Proof.
  unfold scalar_b, scalar. rewrite orb_true_iff, andb_true_iff, !N.ltb_lt, N.leb_le. lia.
Qed.

Lemma valid_utf8_spec s : valid_utf8 s = true <-> utf8_text s.
Proof.
  unfold valid_utf8, utf8_text. rewrite forallb_forall, Forall_forall.
  split; intros Hs c Hc.
  - apply list_elem_of_In, Hs in Hc. bsplit. exists (decode_char c).
    split; [by apply scalar_b_spec|done].
  - apply list_elem_of_In, Hs in Hc as (n & Hn & ->). rewrite decode_encode by done.
    apply andb_true_iff. split; [by apply scalar_b_spec|apply String.eqb_refl].
Qed.

(** A character does not start with a continuation byte. *)
Lemma encode_starts n : scalar n -> starts_char (encode_char n) = true.
Proof.
  intros Hn. unfold encode_char, scalar, starts_char, bytes_of, is_cont in *.
  destruct (N.ltb_spec n 128); [|destruct (N.ltb_spec n 2048); [|destruct (N.ltb_spec n 65536)]];
    cbn [map String.string_of_list_ascii]; rewrite byte_val_ascii by div_lia; apply negb_true_iff;
    apply andb_false_iff; rewrite N.leb_gt, N.ltb_ge; div_lia.
Qed.

Lemma utf8_starts s : utf8_text s -> starts_char s = true.
Proof.
  unfold utf8_text. intros Hs. rewrite <- (of_utf8_chars s).
  destruct (utf8_chars s) as [|c cs]; [done|]. apply Forall_cons in Hs as [(n & Hn & ->) _].
  rewrite of_chars_cons. pose proof (encode_starts n Hn) as Hst.
  destruct (encode_char n) eqn:E; [|exact Hst].
  apply (f_equal String.length) in E. unfold encode_char, bytes_of in E.
  by repeat case_match.
Qed.

Lemma utf8_text_app s t : utf8_text s -> utf8_text t -> utf8_text (s +:+ t).
Proof.
  intros Hs Ht. unfold utf8_text. rewrite utf8_chars_app by (by apply utf8_starts).
  by apply Forall_app.
Qed.

Lemma utf8_of_chars l : Forall utf8_text l -> utf8_text (of_chars l).
Proof.
  induction 1 as [|c l Hc _ IH]; [constructor|]. rewrite of_chars_cons. by apply utf8_text_app.
Qed.

Lemma utf8_concat sep l : utf8_text sep -> Forall utf8_text l -> utf8_text (String.concat sep l).
Proof.
  intros Hs. induction 1 as [|x l Hx Hl IH]; [constructor|]. destruct l as [|y l]; [done|].
  change (String.concat sep (x :: y :: l)) with (x +:+ sep +:+ String.concat sep (y :: l)).
  auto using utf8_text_app.
Qed.

Lemma hex_digit_ascii d : (d < 16)%N -> (byte_val (hex_digit d) <? 128)%N = true.
Proof.
  intros H. unfold hex_digit. destruct (N.ltb_spec d 10); rewrite byte_val_ascii by lia;
    apply N.ltb_lt; lia.
Qed.

Lemma u_escape_utf8 n : (n < 65536)%N -> utf8_text (u_escape n).
Proof.
  intros Hn. apply ascii_utf8. unfold ascii_text, u_escape, hex4, hex_byte.
  rewrite !all_bytes_app. cbn [all_bytes]. rewrite !hex_digit_ascii by div_lia. done.
Qed.

Lemma encode_char_utf8 n : scalar n -> utf8_text (encode_char n).
Proof.
  intros Hn. apply valid_utf8_spec. unfold valid_utf8.
  assert (utf8_chars (encode_char n) = [encode_char n]) as ->.
  { unfold encode_char, scalar, bytes_of in *.
    assert (Hc : forall k, (128 <= k < 192)%N -> is_cont (Ascii.ascii_of_N k) = true).
    { intros k Hk. unfold is_cont. rewrite byte_val_ascii by lia.
      apply andb_true_iff. rewrite N.leb_le, N.ltb_lt. lia. }
    destruct (N.ltb_spec n 128); [|destruct (N.ltb_spec n 2048); [|destruct (N.ltb_spec n 65536)]];
      cbn [map String.string_of_list_ascii utf8_chars]; rewrite ?Hc by div_lia; done. }
  cbn [forallb]. rewrite decode_encode by done.
  rewrite (proj2 (scalar_b_spec n) Hn), String.eqb_refl. done.
Qed.

Lemma json_char_utf8 ascii n : scalar n -> utf8_text (json_char ascii (encode_char n)).
Proof.
  intros Hn. unfold json_char. rewrite decode_encode by done.
  repeat match goal with |- context [(n =? ?k)%N] => destruct (N.eqb_spec n k);
    [by apply ascii_utf8|] end.
  destruct (N.ltb_spec n 32); [apply u_escape_utf8; lia|].
  destruct (_ || _); [by apply encode_char_utf8|].
  unfold scalar in Hn. destruct (N.ltb_spec n 65536); [by apply u_escape_utf8|].
  apply utf8_text_app; apply u_escape_utf8; div_lia.
Qed.

Lemma json_string_utf8 ascii s : utf8_text s -> utf8_text (json_string ascii s).
Proof.
  intros Hs. unfold json_string. apply utf8_text_app; [by apply ascii_utf8|].
  apply utf8_text_app; [|by apply ascii_utf8]. apply utf8_of_chars.
  induction Hs as [|c cs (n & Hn & ->) _ IH]; [constructor|]. constructor; [|done].
  by apply json_char_utf8.
Qed.

Lemma newline_utf8 st lvl : utf8_text (newline st lvl).
Proof.
  unfold newline. destruct (st_indent st); [|constructor]. apply utf8_text_app; [by apply ascii_utf8|].
  apply utf8_of_chars. induction (2 * lvl); constructor; [by apply ascii_utf8|done].
Qed.

Lemma block_utf8 st lvl a b items : utf8_text (st_item_sep st) -> utf8_text a -> utf8_text b ->
  Forall utf8_text items -> utf8_text (json_block st lvl a b items).
Proof.
  intros Hs Ha Hb Hi. unfold json_block. destruct items as [|x l]; [by apply utf8_text_app|].
  repeat apply utf8_text_app; try done; try apply newline_utf8.
  apply utf8_concat; [|done]. apply utf8_text_app; [done|apply newline_utf8].
Qed.

Lemma int_utf8 z : utf8_text (str_of_Z z).
Proof.
  assert (Hd : forall ds, all_bytes is_digit ds = true -> ascii_text ds = true).
  { intros ds. induction ds as [|c ds IH]; [done|]. unfold ascii_text in *. cbn [all_bytes].
    intros H. bsplit. apply andb_true_iff. split; [|auto]. unfold is_digit, byte_in in H.
    apply andb_true_iff in H as [_ H]. apply N.leb_le in H. apply N.ltb_lt. lia. }
  apply ascii_utf8. unfold str_of_Z. destruct z as [|p|p]; [done| |];
    destruct (pretty_digits (Npos p) "") as (ds & Hgo & Hall & _); try lia;
    rewrite str_app_nil_r in Hgo.
  - assert (pretty (Zpos p) = ds) as -> by exact Hgo. by apply Hd.
  - change (pretty (Zneg p)) with ("-" +:+ pretty_N_go (Npos p) ""). rewrite Hgo.
    unfold ascii_text. rewrite all_bytes_app. apply andb_true_iff. split; [done|]. by apply Hd.
Qed.

(** What [dumps] writes of well-formed text is well-formed text. *)
Lemma dump_utf8 st v : utf8_text (st_item_sep st) -> utf8_text (st_key_sep st) ->
  json_ok v -> forall lvl, utf8_text (dump st lvl v).
Proof.
  intros Hs Hk. induction v as [|b|z|r|s|l IH|d IH] using pyval_rect'; intros Hok lvl;
    cbn [dump json_ok] in *.
  - by apply ascii_utf8.
  - destruct b; by apply ascii_utf8.
  - apply int_utf8.
  - done.
  - by apply json_string_utf8.
  - apply block_utf8; try done; try by apply ascii_utf8.
    induction IH as [|x l Hx _ IHl]; [constructor|]. destruct Hok. constructor; auto.
  - apply block_utf8; try done; try by apply ascii_utf8.
    apply Forall_forall. intros x Hx%list_elem_of_fmap. destruct Hx as (kv & -> & Hv).
    apply elem_of_sorted_by, list_elem_of_fmap in Hv as (kw & -> & Hw). cbn [fst snd].
    destruct Hok as [_ Hok].
    assert (Ho : utf8_text (fst kw) /\ json_ok (snd kw)).
    { clear -Hok Hw. induction d as [|y d IH]; [by apply not_elem_of_nil in Hw|].
      destruct Hok as (? & ? & ?). apply elem_of_cons in Hw as [->|Hw]; auto. }
    rewrite Forall_forall in IH. destruct Ho as [Hkey Hval].
    apply utf8_text_app; [by apply json_string_utf8|]. apply utf8_text_app; [done|].
    exact (IH _ Hw Hval _).
Qed.
