(* ===== verification/Sha256.v ===== *)
(** The standard library's [hashlib.sha256(s.encode("utf-8")).hexdigest()],
    executable: 32-bit words as [N] below [2 ^ 32], the message schedule and
    the compression function written out. *)

From S2P Require Export PyStr.

#[local] Open Scope N_scope.

Definition sha_k : list N :=
  [
    1116352408; 1899447441; 3049323471; 3921009573; 961987163; 1508970993;
    2453635748; 2870763221; 3624381080; 310598401; 607225278; 1426881987;
    1925078388; 2162078206; 2614888103; 3248222580; 3835390401; 4022224774;
    264347078; 604807628; 770255983; 1249150122; 1555081692; 1996064986;
    2554220882; 2821834349; 2952996808; 3210313671; 3336571891; 3584528711;
    113926993; 338241895; 666307205; 773529912; 1294757372; 1396182291;
    1695183700; 1986661051; 2177026350; 2456956037; 2730485921; 2820302411;
    3259730800; 3345764771; 3516065817; 3600352804; 4094571909; 275423344;
    430227734; 506948616; 659060556; 883997877; 958139571; 1322822218;
    1537002063; 1747873779; 1955562222; 2024104815; 2227730452; 2361852424;
    2428436474; 2756734187; 3204031479; 3329325298 ].

Definition sha_init : list N :=
  [
    1779033703; 3144134277; 1013904242; 2773480762; 1359893119; 2600822924;
    528734635; 1541459225 ].

(** * Words *)

Definition w32 (n : N) : N := N.land n (N.ones 32).
Definition add32 (a b : N) : N := w32 (a + b).
Definition rotr (n x : N) : N := N.lor (N.shiftr x n) (w32 (N.shiftl x (32 - n))).
Definition xor3 (a b c : N) : N := N.lxor a (N.lxor b c).

Definition ch (x y z : N) : N := N.lxor (N.land x y) (N.land (N.lxor x (N.ones 32)) z).
Definition maj (x y z : N) : N := xor3 (N.land x y) (N.land x z) (N.land y z).
Definition big_sigma0 (x : N) : N := xor3 (rotr 2 x) (rotr 13 x) (rotr 22 x).
Definition big_sigma1 (x : N) : N := xor3 (rotr 6 x) (rotr 11 x) (rotr 25 x).
Definition small_sigma0 (x : N) : N := xor3 (rotr 7 x) (rotr 18 x) (N.shiftr x 3).
Definition small_sigma1 (x : N) : N := xor3 (rotr 17 x) (rotr 19 x) (N.shiftr x 10).

(** * Padding and blocks *)

Fixpoint be_bytes (k : nat) (n : N) : list N :=
  match k with
  | O => []
  | S k' => be_bytes k' (n / 256) ++ [n mod 256]
  end.

Definition be_word (bytes : list N) : N := foldl (fun acc b => acc * 256 + b) 0 bytes.

Definition sha_pad (msg : list N) : list N :=
  let len := length msg in
  let zeros := ((119 - len mod 64) mod 64)%nat in
  msg ++ [128] ++ replicate zeros 0 ++ be_bytes 8 (N.of_nat len * 8).

Fixpoint chunks {A} (fuel n : nat) (l : list A) : list (list A) :=
  match fuel, l with
  | O, _ | _, [] => []
  | S fuel', _ => take n l :: chunks fuel' n (drop n l)
  end.

(** The last sixteen words are kept in reverse, [w[t-1]] first. *)
Fixpoint schedule (fuel : nat) (recent : list N) : list N :=
  match fuel with
  | O => []
  | S fuel' =>
      let w i := default 0 (recent !! i) in
      let next := add32 (add32 (small_sigma1 (w 1%nat)) (w 6%nat))
                        (add32 (small_sigma0 (w 14%nat)) (w 15%nat)) in
      next :: schedule fuel' (next :: take 15 recent)
  end.

Definition block_words (block : list N) : list N :=
  let first := map be_word (chunks 16 4 block) in
  first ++ schedule 48 (rev first).

Definition sha_round (s : list N) (kw : N * N) : list N :=
  match s with
  | [a; b; c; d; e; f; g; h] =>
      let t1 := add32 (add32 h (big_sigma1 e))
                      (add32 (ch e f g) (add32 (fst kw) (snd kw))) in
      let t2 := add32 (big_sigma0 a) (maj a b c) in
      [add32 t1 t2; a; b; c; add32 d t1; e; f; g]
  | _ => s
  end.

Definition sha_block (h : list N) (block : list N) : list N :=
  zip_with add32 h (foldl sha_round h (zip sha_k (block_words block))).

Definition sha256 (msg : list N) : list N :=
  let padded := sha_pad msg in
  foldl sha_block sha_init (chunks (length padded) 64 padded).

Definition hex_of (bytes : list N) : string := of_chars (map hex_byte bytes).

(** [hashlib.sha256(s.encode("utf-8")).hexdigest()] *)
Definition sha256_hex (s : string) : string :=
  hex_of (List.concat (map (be_bytes 4)
    (sha256 (map byte_val (String.list_ascii_of_string s))))).

Example sha256_abc :
  sha256_hex "abc" = "ba7816bf8f01cfea414140de5dae2223b00361a396177a9cb410ff61f20015ad"%string.
Proof. vm_compute. reflexivity. Qed.

Example sha256_two_blocks :
  sha256_hex "abcdbcdecdefdefgefghfghighijhijkijkljklmklmnlmnomnopnopq" =
  "248d6a61d20638b8e5c026930c3e6039a33ce45964ff2167f6ecedd419db06c1"%string.
Proof. vm_compute. reflexivity. Qed.

(** * The form of a digest *)

#[local] Open Scope nat_scope.

Lemma be_bytes_spec k n : length (be_bytes k n) = k /\ Forall (fun b => (b < 256)%N) (be_bytes k n).
Proof.
  revert n. induction k as [|k IH]; intros n; cbn [be_bytes]; [by split|]. destruct (IH (n / 256)%N) as [Hl Hf].
  split; [rewrite length_app, Hl; cbn; lia|]. apply Forall_app. split; [done|]. constructor; [|done].
  by apply N.mod_lt.
Qed.

Lemma sha_round_length s kw : length s = 8 -> length (sha_round s kw) = 8.
Proof. intros Hs. unfold sha_round. by do 9 (destruct s as [|? s]; try done). Qed.

Lemma sha_rounds_length kws s : length s = 8 -> length (foldl sha_round s kws) = 8.
Proof. revert s. induction kws as [|kw kws IH]; intros s Hs; [done|]. cbn [foldl]. by apply IH, sha_round_length. Qed.

Lemma sha_block_length h block : length h = 8 -> length (sha_block h block) = 8.
Proof.
  intros Hh. unfold sha_block. rewrite length_zip_with.
  assert (forall l s, length s = 8 -> length (foldl sha_round s l) = 8) as Hr.
  { induction l as [|kw l IH]; intros s Hs; [done|]. cbn [foldl]. by apply IH, sha_round_length. }
  rewrite Hr by done. lia.
Qed.

Lemma hex_digit_hex d : (d < 16)%N -> is_lower_hex (hex_digit d) = true.
Proof. intros H. do 16 (destruct d as [|d] using N.peano_ind; [by vm_compute|clear IHd]). lia. Qed.

Lemma hex_of_spec l : Forall (fun b => (b < 256)%N) l ->
  all_bytes is_lower_hex (hex_of l) = true /\ String.length (hex_of l) = 2 * length l.
Proof.
  induction 1 as [|b l Hb _ [IH1 IH2]]; [done|]. unfold hex_of in *. cbn [map]. rewrite of_chars_cons.
  unfold hex_byte at 1 3. rewrite !str_app_cons. cbn [all_bytes String.length length].
  rewrite str_app_nil_l, IH1, IH2. rewrite !hex_digit_hex; [split; [done|lia]|by apply N.mod_lt|].
  apply N.Div0.div_lt_upper_bound. lia.
Qed.

Lemma sha256_hex_spec s :
  all_bytes is_lower_hex (sha256_hex s) = true /\ String.length (sha256_hex s) = 64.
Proof.
  unfold sha256_hex. set (ws := sha256 _).
  assert (length ws = 8) as Hw.
  { subst ws. unfold sha256. assert (forall l h, length h = 8 -> length (foldl sha_block h l) = 8) as Hr.
    { induction l as [|b l IH]; intros h Hh; [done|]. cbn [foldl]. by apply IH, sha_block_length. }
    by apply Hr. }
  assert (Forall (fun b => (b < 256)%N) (List.concat (map (be_bytes 4) ws)) /\
          length (List.concat (map (be_bytes 4) ws)) = 4 * length ws) as [Hf Hl].
  { clear Hw. induction ws as [|w ws [IH1 IH2]]; [done|]. cbn [map List.concat].
    destruct (be_bytes_spec 4 w) as [H1 H2]. split; [by apply Forall_app|]. rewrite length_app, H1, IH2. cbn. lia. }
  destruct (hex_of_spec _ Hf) as [H1 H2]. split; [done|]. rewrite H2, Hl, Hw. done.
Qed.
