(* ===== verification/Files.v ===== *)
(** The file operations of [pathlib], [os] and [tempfile] that the modelled
    modules perform, on a tree of paths below one directory.  Every mutation
    also records the state it leaves, so that the states a crash can expose are
    the recorded ones.  Failures of the device are not modelled; a path is its
    list of components. *)

From S2P Require Export PyVal.

(** * The file system *)

Abbreviation path := (list string).

(** A symbolic link is seen through what it finally resolves to. *)
Inductive node : Type :=
  | Dir
  | File (text : string)
  | Link (resolves : option node).

Abbreviation tree := (gmap path node).

Definition is_symlink (t : tree) (p : path) : bool :=
  match t !! p with Some (Link _) => true | _ => false end.

Definition resolve (t : tree) (p : path) : option node :=
  match t !! p with
  | Some (Link r) => r
  | r => r
  end.

(** [path.exists()], [path.is_dir()] and [path.is_file()] follow links. *)
Definition path_exists (t : tree) (p : path) : bool :=
  match resolve t p with Some _ => true | None => false end.
Definition path_is_dir (t : tree) (p : path) : bool :=
  match resolve t p with Some Dir => true | _ => false end.
Definition path_is_file (t : tree) (p : path) : bool :=
  match resolve t p with Some (File _) => true | _ => false end.

(** Text mode reading: a carriage return, with the line feed that may follow
    it, is one line feed. *)
Fixpoint universal_newlines (s : string) : string :=
  match s with
  | EmptyString => EmptyString
  | String c s' =>
      if (byte_val c =? 13)%N then
        match s' with
        | String d s'' =>
            if (byte_val d =? 10)%N then LF +:+ universal_newlines s''
            else LF +:+ universal_newlines s'
        | EmptyString => LF
        end
      else String c (universal_newlines s')
  end.

(** [path.read_text()] *)
Definition read_text (t : tree) (p : path) : res string :=
  match resolve t p with
  | Some (File text) => Ok (universal_newlines text)
  | Some _ => raise PyOSError "Is a directory"
  | None => raise PyFileNotFoundError "No such file or directory"
  end.

(** [[path.name for path in directory.iterdir()]] *)
Definition iterdir (t : tree) (dir : path) : list string :=
  cat_options (map (fun kv =>
    match rev (fst kv) with
    | name :: parent => if decide (rev parent = dir) then Some name else None
    | [] => None
    end) (map_to_list t)).

(** * Mutations, with the states they leave *)

Record files : Type := mkFiles { now : tree; trace : list tree }.

Abbreviation io := (py files).

Definition io_tree {A} (f : tree -> A) : io A := fun s => (Ok (f (now s)), s).
Definition io_res {A} (f : tree -> res A) : io A := fun s => (f (now s), s).
Definition io_set (p : path) (n : option node) : io unit := fun s =>
  let t := partial_alter (fun _ => n) p (now s) in
  (Ok tt, mkFiles t (trace s ++ [t])).

(** [except OSError] *)
Definition is_os_error (e : exn) : bool :=
  match exn_cls e with
  | PyOSError | PyFileExistsError | PyFileNotFoundError => true
  | _ => false
  end.

(** The directory of an entry to create must be one. *)
Definition need_parent (p : path) : io unit := fun s =>
  match p with
  | [] => (Ok tt, s)
  | _ => (match resolve (now s) (removelast p) with
          | Some Dir => Ok tt
          | Some _ => raise PyOSError "Not a directory"
          | None => raise PyFileNotFoundError "No such file or directory"
          end, s)
  end.

Definition os_mkdir (p : path) : io unit :=
  _ ← need_parent p;
  r ← io_tree (fun t => t !! p);
  match r with
  | None => io_set p (Some Dir)
  | Some _ => py_raise PyFileExistsError "File exists"
  end.

(** [path.mkdir(parents=True, exist_ok=True)], on the reversed path. *)
Fixpoint mkdir_rev (rp : path) : io unit :=
  py_catch
    (py_catch (os_mkdir (rev rp)) (is_class PyFileNotFoundError)
      (fun e => match rp with
                | _ :: parent => _ ← mkdir_rev parent; os_mkdir (rev rp)
                | [] => py_raise PyFileNotFoundError (exn_msg e)
                end))
    is_os_error
    (fun e => d ← io_tree (fun t => path_is_dir t (rev rp));
              if (d : bool) then mret tt else fun s => (Raise e, s)).

Definition mkdir (p : path) : io unit := mkdir_rev (rev p).

(** [os.link(source, target)] *)
Definition link (source target : path) : io unit :=
  _ ← need_parent target;
  r ← io_tree (fun t => (t !! source, t !! target));
  match r with
  | (None, _) => py_raise PyFileNotFoundError "No such file or directory"
  | (_, Some _) => py_raise PyFileExistsError "File exists"
  | (Some n, None) => io_set target (Some n)
  end.

(** [os.unlink(path)], a missing file being ignored. *)
Definition unlink (p : path) : io unit := io_set p None.

(** [tempfile.NamedTemporaryFile(dir=.., prefix=.., suffix=..)] followed by a
    write: the first of the random names that is not in use. *)
Definition write_temporary (dir : path) (prefix suffix : string) (randoms : list string)
    (text : string) : io path :=
  _ ← need_parent (dir ++ ["tmp"]);
  names ← io_tree (fun t =>
    List.filter (fun p => bool_decide (t !! p = None))
      (map (fun r => dir ++ [prefix +:+ r +:+ suffix]) randoms));
  match names with
  | [] => py_raise PyFileExistsError "No usable temporary file name found"
  | p :: _ => _ ← io_set p (Some (File text)); mret p
  end.

(** [source.rename(target)] and [os.replace(source, target)] of a file: one
    step, a file at the target is replaced. *)
Definition rename (source target : path) : io unit :=
  r ← io_tree (fun t => t !! source);
  match r with
  | None => py_raise PyFileNotFoundError "No such file or directory"
  | Some n =>
      _ ← need_parent target;
      occupied ← io_tree (fun t => match t !! target with Some Dir => true | _ => false end);
      if (occupied : bool) then py_raise PyOSError "Is a directory"
      else fun s => let t := <[target := n]> (delete source (now s)) in
                    (Ok tt, mkFiles t (trace s ++ [t]))
  end.

(** * Laws *)

Lemma universal_newlines_id s :
  contains_byte 13 s = false -> universal_newlines s = s.
Proof.
  induction s as [|c s IH]; cbn; [done|]. intros H. bsplit.
  rewrite H. by rewrite IH.
Qed.

Lemma elem_of_iterdir t dir name :
  name ∈ iterdir t dir <-> is_Some (t !! (dir ++ [name])).
Proof.
  unfold iterdir. rewrite elem_of_cat_options, list_elem_of_fmap. split.
  - intros ([p n] & Heq & Hin). cbn in Heq. destruct (rev p) as [|x q] eqn:E; [done|].
    destruct (decide (rev q = dir)); [|done]. injection Heq as ->. subst dir.
    apply elem_of_map_to_list in Hin. exists n. rewrite <- Hin. f_equal.
    rewrite <- (rev_involutive p), E. done.
  - intros [n Hn]. exists (dir ++ [name], n). cbn. rewrite rev_app_distr. cbn.
    rewrite rev_involutive, decide_True by done. split; [done|]. by apply elem_of_map_to_list.
Qed.

(** * A program logic for the file operations *)

(** From a tree satisfying [P], the operation ends with [Q] of its result and
    tree, and every state it exposes on the way satisfies [I]. *)
Definition triple {A : Type} (P : tree -> Prop) (m : io A) (I : tree -> Prop)
    (Q : res A -> tree -> Prop) : Prop :=
  forall s, P (now s) ->
    Q (fst (m s)) (now (snd (m s))) /\
    exists new, trace (snd (m s)) = trace s ++ new /\ Forall I new.

Section Triples.
Context {A B : Type}.
Implicit Types (P I : tree -> Prop).

Lemma triple_conseq P P' I (Q Q' : res A -> tree -> Prop) m :
  (forall t, P t -> P' t) -> (forall r t, Q' r t -> Q r t) ->
  triple P' m I Q' -> triple P m I Q.
Proof. intros HP HQ H s Hs. destruct (H s (HP _ Hs)) as [? ?]. split; auto. Qed.

Lemma triple_assume (φ : Prop) P I (Q : res A -> tree -> Prop) m :
  (φ -> triple P m I Q) -> triple (fun t => φ /\ P t) m I Q.
Proof. intros H s [Hφ Hs]. exact (H Hφ s Hs). Qed.

Lemma triple_pure P I (Q : res A -> tree -> Prop) r :
  (forall t, P t -> Q r t) -> triple P (fun s => (r, s)) I Q.
Proof. intros H s Hs. cbn. split; [auto|]. exists []. by rewrite app_nil_r. Qed.

Lemma triple_read P I (Q : res A -> tree -> Prop) f :
  (forall t, P t -> Q (f t) t) -> triple P (io_res f) I Q.
Proof. intros H s Hs. cbn. split; [auto|]. exists []. by rewrite app_nil_r. Qed.

Lemma triple_tree P I (Q : res A -> tree -> Prop) (f : tree -> A) :
  (forall t, P t -> Q (Ok (f t)) t) -> triple P (io_tree f) I Q.
Proof. intros H s Hs. cbn. split; [auto|]. exists []. by rewrite app_nil_r. Qed.

Lemma triple_bind P I (R : res A -> tree -> Prop) (Q : res B -> tree -> Prop)
    (m : io A) (f : A -> io B) :
  triple P m I R -> (forall a, triple (R (Ok a)) (f a) I Q) ->
  (forall e t, R (Raise e) t -> Q (Raise e) t) ->
  triple P (m ≫= f) I Q.
Proof.
  intros Hm Hf He s Hs. destruct (Hm s Hs) as [HR (n1 & Ht1 & HI1)].
  unfold mbind, py_bind. destruct (m s) as [[a|e] s1]; cbn in *.
  - destruct (Hf a s1 HR) as [HQ (n2 & Ht2 & HI2)]. split; [done|].
    exists (n1 ++ n2). rewrite Ht2, Ht1, app_assoc. split; [done|].
    apply Forall_app. done.
  - split; [auto|]. by exists n1.
Qed.

Lemma triple_catch P I (R Q : res A -> tree -> Prop) m p h :
  triple P m I R -> (forall a t, R (Ok a) t -> Q (Ok a) t) ->
  (forall e t, p e = false -> R (Raise e) t -> Q (Raise e) t) ->
  (forall e, p e = true -> triple (R (Raise e)) (h e) I Q) ->
  triple P (py_catch m p h) I Q.
Proof.
  intros Hm Hok Hno Hh s Hs. destruct (Hm s Hs) as [HR (n1 & Ht1 & HI1)].
  unfold py_catch. destruct (m s) as [[a|e] s1]; cbn in *.
  - split; [auto|]. by exists n1.
  - destruct (p e) eqn:Hp; [|split; [by apply Hno | by exists n1]].
    destruct (Hh e Hp s1 HR) as [HQ (n2 & Ht2 & HI2)]. split; [done|].
    exists (n1 ++ n2). rewrite Ht2, Ht1, app_assoc. split; [done|]. by apply Forall_app.
Qed.
End Triples.

Lemma triple_set {P I : tree -> Prop} {Q : res unit -> tree -> Prop} p n :
  (forall t, P t -> let t' := partial_alter (fun _ => n) p t in I t' /\ Q (Ok tt) t') ->
  triple P (io_set p n) I Q.
Proof.
  intros H s Hs. destruct (H _ Hs) as [HI HQ]. cbn. split; [done|].
  eexists. split; [done|]. by constructor.
Qed.

Lemma triple_unlink_after {A : Type} (P I : tree -> Prop) (R Q : res A -> tree -> Prop) (m : io A) p :
  triple P m I R ->
  (forall r t, R r t -> let t' := delete p t in I t' /\ Q r t') ->
  triple P (py_finally m (fun s => snd (unlink p s))) I Q.
Proof.
  intros Hm H s Hs. destruct (Hm s Hs) as [HR (n1 & Ht1 & HI1)].
  unfold py_finally. destruct (m s) as [r s1]. cbn in *. destruct (H _ _ HR) as [HI HQ].
  split; [done|]. eexists. rewrite Ht1, <- app_assoc. split; [done|].
  apply Forall_app. split; [done|]. by constructor.
Qed.

Lemma read_regular_file t p :
  is_symlink t p = false -> path_is_file t p = true ->
  exists text, t !! p = Some (File text) /\ read_text t p = Ok (universal_newlines text).
Proof.
  unfold is_symlink, path_is_file, read_text, resolve.
  destruct (t !! p) as [[|text|]|]; try done. by exists text.
Qed.
