(* ===== verification/Tickets.v ===== *)
(** The ticket store, [src/devlegate/tickets.py]: parsing one ticket file,
    collecting the managed directories, the dependency graph check and the
    runnable set.  The NanoYAML reader is third-party code and a parameter of
    the parsing definitions. *)

From S2P Require Export PyVal.

(** * Data *)

(** [_WORKFLOW_STATES], in the order the directories are visited. *)
Inductive WorkflowState : Type := Backlog | Todo | Review | Accepted | Done.

#[global] Instance WorkflowState_eq_dec : EqDecision WorkflowState.
Proof. solve_decision. Defined.

Definition _WORKFLOW_STATES : list WorkflowState := [Backlog; Todo; Review; Accepted; Done].

Definition state_name (s : WorkflowState) : string :=
  match s with
  | Backlog => "backlog"
  | Todo => "todo"
  | Review => "review"
  | Accepted => "accepted"
  | Done => "done"
  end.

Definition is_state (s t : WorkflowState) : bool := bool_decide (s = t).

Definition _METADATA_KEYS : list string := ["type"; "title"; "depends_on"].

Record Ticket : Type := mkTicket {
  tk_id : string;
  tk_state : WorkflowState;
  tk_title : string;
  tk_depends_on : list string;
  tk_body : string;
  tk_path : string
}.

#[global] Instance Ticket_eq_dec : EqDecision Ticket.
Proof. solve_decision. Defined.

(** [TicketStore]: the tickets with the two derived attributes set by
    [__post_init__]. *)
Record TicketStore : Type := mkTicketStore {
  ts_tickets : list Ticket;
  ts_by_id : gmap string Ticket;
  ts_runnable : list Ticket
}.

(** [{ticket.id: ticket for ticket in tickets}]: the last ticket of an id wins. *)
Definition index_tickets (tickets : list Ticket) : gmap string Ticket :=
  foldl (fun m t => <[tk_id t := t]> m) ∅ tickets.

(** [all(index[dependency].state == "done" for dependency in ticket.depends_on)] *)
Definition dependencies_done (index : gmap string Ticket) (t : Ticket) : res bool :=
  res_all (fun d =>
    match index !! d with
    | Some u => Ok (is_state (tk_state u) Done)
    | None => raise PyKeyError d
    end) (tk_depends_on t).

(** [TicketStore.__post_init__] *)
Definition make_store (tickets : list Ticket) : res TicketStore :=
  let index := index_tickets tickets in
  runnable ← res_filter
    (fun t => if is_state (tk_state t) Todo then dependencies_done index t else Ok false)
    tickets;
  Ok (mkTicketStore tickets index (sorted_by tk_id runnable)).

Definition selected (store : TicketStore) : option Ticket := hd_error (ts_runnable store).

(** * Parsing one ticket file *)

(** [name.endswith(".md") and bool(_ID.fullmatch(name[:-3]))] *)
Definition is_canonical_ticket_name (name : string) : bool :=
  ends_with ".md" name && is_identifier (drop_last 3 name).

Definition _ticket_error {A} (path reason : string) : res A :=
  raise TicketError ("invalid ticket " +:+ path +:+ ": " +:+ reason).

Definition is_delimiter (line : string) : bool := (rstrip_bytes is_crlf line =? "---")%string.

(** [_split_ticket], on the text [path.read_text()] returns. *)
Definition _split_ticket (path text : string) : res (string * string) :=
  match splitlines_keepends text with
  | [] => _ticket_error path "missing opening frontmatter delimiter"
  | first :: rest =>
      if negb (is_delimiter first)
      then _ticket_error path "missing opening frontmatter delimiter"
      else match find_index is_delimiter rest with
      | None => _ticket_error path "missing closing frontmatter delimiter"
      | Some closing =>
          let metadata := of_chars (take closing rest) in
          let body := of_chars (drop (S closing) rest) in
          if (strip body =? "")%string
          then _ticket_error path "ticket body is empty"
          else Ok (metadata, body)
      end
  end.

(** [ord(c) < 32 or 0x7F <= ord(c) <= 0x9F] *)
Definition is_control_char (c : string) : bool :=
  match c with
  | String a EmptyString => (byte_val a <? 32)%N || (byte_val a =? 127)%N
  | String a (String b EmptyString) => (byte_val a =? 194)%N && byte_in 128 159 b
  | _ => false
  end.

Section Parsing.
(** [nanoyaml.loads]: the mapping, or the text of the error it raises. *)
Variable loads : string -> string + dict.

(** [_parse_ticket]; [name] is [path.name]. *)
Definition _parse_ticket (path name : string) (state : WorkflowState) (text : string)
    : res Ticket :=
  let ticket_id := path_stem name in
  if negb (is_canonical_ticket_name name)
  then _ticket_error path "filename must be a valid ticket ID ending in .md"
  else
  '(metadata_text, body) ← _split_ticket path text;
  match loads metadata_text with
  | inl error => _ticket_error path ("invalid NanoYAML metadata: " +:+ error)
  | inr metadata =>
      let unknown := py_sorted
        (List.filter (fun k => negb (existsb (String.eqb k) _METADATA_KEYS)) (keys metadata)) in
      match unknown with
      | u :: _ => _ticket_error path ("unknown metadata key " +:+ repr_str u)
      | [] =>
      if negb (has_key metadata "type")
      then _ticket_error path ("missing required metadata key " +:+ dq "type")
      else if negb (has_key metadata "title")
      then _ticket_error path ("missing required metadata key " +:+ dq "title")
      else if negb (eq_str (get metadata "type") "devlegate.ticket")
      then _ticket_error path ("metadata " +:+ dq "type" +:+ " must be " +:+ dq "devlegate.ticket")
      else
      let title := get metadata "title" in
      if negb (is_str title) || (strip (str_of title) =? "")%string
      then _ticket_error path ("metadata " +:+ dq "title" +:+ " must be a non-empty string")
      else if (160 <? str_len (str_of title))%nat
              || existsb is_control_char (utf8_chars (str_of title))
      then _ticket_error path ("metadata " +:+ dq "title" +:+
             " must be one readable line of at most 160 characters")
      else
      let dependencies := get_or metadata "depends_on" (PList []) in
      if has_key metadata "depends_on"
         && (negb (is_list dependencies) || negb (truthy dependencies))
      then _ticket_error path ("metadata " +:+ dq "depends_on" +:+ " must be a non-empty sequence")
      else if negb (forallb is_str (list_of dependencies))
      then _ticket_error path ("metadata " +:+ dq "depends_on" +:+ " entries must be strings")
      else
      let deps := map str_of (list_of dependencies) in
      if negb (no_dup_strings deps)
      then _ticket_error path "metadata contains duplicate dependency IDs"
      else
      _ ← res_map (fun dependency =>
            if negb (is_identifier dependency)
            then _ticket_error path ("invalid dependency ID " +:+ repr_str dependency)
            else if (dependency =? ticket_id)%string
            then _ticket_error path "ticket cannot depend on itself"
            else Ok tt) deps;
      Ok (mkTicket ticket_id state (strip (str_of title)) deps body path)
      end
  end.
End Parsing.

(** * The dependency graph check *)

(** The closure's mutable variables. *)
Record dfs : Type := mkDfs {
  visiting : gset string;
  visited : gset string;
  stack : list string
}.

Definition cycle_message (cycle : list string) : string :=
  "dependency cycle: " +:+ String.concat " -> " cycle.

(** What a visit does: finish, find a cycle (the list the message renders), or
    look up an id that is not in [tickets]; [None] when the fuel runs out. *)
Inductive visit_error : Type :=
  | Cycle (cycle : list string)
  | MissingKey (k : string).

(** A loop of visits, [for id in ids: visit(id)], stopping at the first error. *)
Fixpoint visit_each (visit : string -> dfs -> option (visit_error + dfs))
    (ids : list string) (st : dfs) : option (visit_error + dfs) :=
  match ids with
  | [] => Some (inr st)
  | d :: ids' =>
      match visit d st with
      | Some (inr st') => visit_each visit ids' st'
      | r => r
      end
  end.

Section Cycles.
Variable tickets : gmap string Ticket.

(** [visit], with the recursion depth bounded by [fuel]. *)
Fixpoint visit (fuel : nat) (ticket_id : string) (st : dfs) : option (visit_error + dfs) :=
  match fuel with
  | O => None
  | S fuel' =>
      if decide (ticket_id ∈ visited st) then Some (inr st)
      else if decide (ticket_id ∈ visiting st) then
        let start := default 0 (find_index (String.eqb ticket_id) (stack st)) in
        Some (inl (Cycle (drop start (stack st) ++ [ticket_id])))
      else
      match tickets !! ticket_id with
      | None => Some (inl (MissingKey ticket_id))
      | Some t =>
          match visit_each (visit fuel') (py_sorted (tk_depends_on t))
                  (mkDfs ({[ticket_id]} ∪ visiting st) (visited st)
                         (stack st ++ [ticket_id])) with
          | Some (inr st2) =>
              Some (inr (mkDfs (visiting st2 ∖ {[ticket_id]}) ({[ticket_id]} ∪ visited st2)
                               (removelast (stack st2))))
          | r => r
          end
      end
  end.

Definition ticket_ids : list string := py_sorted (map fst (map_to_list tickets)).

(** The recursion is never deeper than the number of tickets plus one. *)
Definition _validate_cycles : option (visit_error + dfs) :=
  visit_each (visit (S (size tickets))) ticket_ids (mkDfs ∅ ∅ []).
End Cycles.

(** The outcome of the check as the loader sees it. *)
Definition check_cycles (tickets : gmap string Ticket) : res unit :=
  match _validate_cycles tickets with
  | Some (inr _) => Ok tt
  | Some (inl (Cycle c)) => raise TicketError (cycle_message c)
  | Some (inl (MissingKey k)) => raise PyKeyError k
  | None => raise PyValueError "out of fuel"
  end.

(** * Loading the managed directories *)

(** What the loader sees of one directory entry: a regular file with the text
    [read_text] returns, a symbolic link, or anything else. *)
Inductive dir_entry : Type :=
  | EntFile (text : string)
  | EntSymlink
  | EntOther.

Inductive directory : Type :=
  | DirMissing
  | DirNotDirectory
  | DirEntries (entries : list (string * dir_entry)).

(** A checkout: the path and the content of each workflow directory. *)
Definition checkout : Type := WorkflowState -> string * directory.

Section Loading.
Variable loads : string -> string + dict.

(** The body of the loop over [sorted(directory.iterdir())]. *)
Definition load_entry (state : WorkflowState) (dir : string) (e : string * dir_entry)
    : res (option Ticket) :=
  let path := dir +:+ "/" +:+ fst e in
  if negb (is_canonical_ticket_name (fst e)) then Ok None
  else match snd e with
  | EntFile text => Some <$> _parse_ticket loads path (fst e) state text
  | _ => raise TicketError ("invalid managed ticket entry: " +:+ path)
  end.

Definition load_directory (repo : checkout) (state : WorkflowState) : res (list Ticket) :=
  let '(dir, content) := repo state in
  match content with
  | DirMissing => Ok []
  | DirNotDirectory =>
      raise TicketError ("managed workflow path is not a directory: " +:+ dir)
  | DirEntries entries =>
      found ← res_map (load_entry state dir) (sorted_by fst entries);
      Ok (cat_options found)
  end.

Definition same_id (k : string) (t : Ticket) : bool := (tk_id t =? k)%string.

(** The first id, in order, that is at two locations. *)
Definition find_duplicate (tickets : list Ticket) : option string :=
  List.find (fun k => (1 <? length (List.filter (same_id k) tickets))%nat)
    (py_sorted (map tk_id tickets)).

Definition check_duplicates (tickets : list Ticket) : res unit :=
  match find_duplicate tickets with
  | Some k =>
      raise TicketError ("duplicate ticket ID " +:+ k +:+ ":" +:+ LF +:+
        String.concat LF
          (map (fun t => "  " +:+ tk_path t) (List.filter (same_id k) tickets)))
  | None => Ok tt
  end.

Definition check_dependencies (index : gmap string Ticket) (tickets : list Ticket)
    : res unit :=
  _ ← res_map (fun t =>
        res_map (fun dependency =>
          ensure (bool_decide (is_Some (index !! dependency))) TicketError
            ("missing dependency: " +:+ tk_id t +:+ " depends on " +:+ dependency))
          (tk_depends_on t)) (sorted_by tk_id tickets);
  Ok tt.

Definition load_ticket_store (repo : checkout) : res TicketStore :=
  per_state ← res_map (load_directory repo) _WORKFLOW_STATES;
  let tickets := List.concat per_state in
  _ ← check_duplicates tickets;
  let by_id := index_tickets tickets in
  _ ← check_dependencies by_id tickets;
  _ ← check_cycles by_id;
  make_store (sorted_by tk_id tickets).
End Loading.

(** * The dependency check decides acyclicity *)

Section CyclesCorrect.
Variable tickets : gmap string Ticket.

(** [d] is an immediate dependency of [t]. *)
Definition depends (d t : string) : Prop :=
  exists tk, tickets !! t = Some tk /\ d ∈ tk_depends_on tk.

Definition acyclic : Prop := forall k, ~ tc depends k k.

(** Each element of the list depends on the next one. *)
Definition is_path (l : list string) : Prop :=
  forall i a b, l !! i = Some a -> l !! S i = Some b -> depends b a.

(** A non-empty dependency path from an id back to itself. *)
Definition is_cycle (c : list string) : Prop :=
  exists x l, c = x :: l ++ [x] /\ is_path c.

Lemma is_path_snoc l a b : is_path (l ++ [a]) -> depends b a -> is_path ((l ++ [a]) ++ [b]).
Proof.
  intros Hp Hd i x y Hx Hy.
  destruct (decide (S i < length (l ++ [a]))) as [Hlt|Hge].
  - rewrite lookup_app_l in Hx, Hy by lia. by eapply Hp.
  - pose proof (lookup_lt_Some _ _ _ Hy) as Hl. rewrite !length_app in *. cbn in *.
    assert (i = length l) as -> by lia.
    rewrite lookup_app_l, list_lookup_middle in Hx by (rewrite ?length_app; cbn; lia).
    rewrite lookup_app_r in Hy by (rewrite length_app; cbn; lia).
    replace (S (length l) - length (l ++ [a])) with 0 in Hy by (rewrite length_app; cbn; lia).
    cbn in Hy. by simplify_eq.
Qed.

Lemma is_path_drop n l : is_path l -> is_path (drop n l).
Proof. intros Hp i a b. rewrite !lookup_drop, Nat.add_succ_r. apply Hp. Qed.

Lemma path_tc l x y : is_path (x :: l ++ [y]) -> tc depends y x.
Proof.
  revert x. induction l as [|z l IH]; intros x Hp.
  - apply tc_once. by apply (Hp 0).
  - eapply tc_r.
    + apply IH. intros i a b Ha Hb. by apply (Hp (S i)).
    + by apply (Hp 0).
Qed.

Lemma cycle_not_acyclic c : is_cycle c -> ~ acyclic.
Proof. intros (x & l & -> & Hp) Hac. by apply (Hac x), (path_tc l). Qed.

Lemma Acc_no_tc k : Acc depends k -> ~ tc depends k k.
Proof. intros H. by apply Acc_irrefl, Acc_tc. Qed.

(** ** The invariant of the traversal *)

(** The stack lists the visiting set along a dependency path; every visited
    ticket has only well-founded dependencies. *)
Record dfs_inv (st : dfs) : Prop := {
  inv_visiting : visiting st = list_to_set (stack st);
  inv_nodup : NoDup (stack st);
  inv_dom : forall x, x ∈ stack st -> is_Some (tickets !! x);
  inv_acc : forall x, x ∈ visited st -> Acc depends x
}.

(** A finished visit of [ids] leaves the stack as it was and adds the ids. *)
Record dfs_post (ids : list string) (st st' : dfs) : Prop := {
  post_inv : dfs_inv st';
  post_visiting : visiting st' = visiting st;
  post_stack : stack st' = stack st;
  post_visited : forall x, x ∈ visited st -> x ∈ visited st';
  post_ids : forall x, x ∈ ids -> x ∈ visited st'
}.

Definition visit_spec (ids : list string) (st : dfs) (r : option (visit_error + dfs)) : Prop :=
  match r with
  | None => False
  | Some (inr st') => dfs_post ids st st'
  | Some (inl (Cycle c)) => is_cycle c
  | Some (inl (MissingKey k)) => tickets !! k = None
  end.

(** The loop meets the specification when each visit does. *)
Lemma visit_each_spec fuel ids st :
  (forall id st, dfs_inv st -> is_path (stack st ++ [id]) ->
     size tickets < fuel + length (stack st) -> visit_spec [id] st (visit tickets fuel id st)) ->
  dfs_inv st -> (forall id, id ∈ ids -> is_path (stack st ++ [id])) ->
  size tickets < fuel + length (stack st) ->
  visit_spec ids st (visit_each (visit tickets fuel) ids st).
Proof.
  intros Hvisit. revert st. induction ids as [|id ids IH]; intros st Hinv Hpath Hfuel; cbn.
  { by split; [..| by intros ? ?%not_elem_of_nil]. }
  pose proof (Hvisit id st Hinv (Hpath id (list_elem_of_here _ _)) Hfuel) as Hv.
  destruct (visit tickets fuel id st) as [[e|st']|]; [by destruct e | | done].
  destruct Hv as [Hinv' Hvis Hstk Hsub Hid].
  specialize (IH st' Hinv'). rewrite Hstk in IH.
  specialize (IH (fun x Hx => Hpath x (list_elem_of_further _ _ _ Hx)) Hfuel).
  destruct (visit_each (visit tickets fuel) ids st') as [[e|st'']|]; [by destruct e | | done].
  destruct IH as [Hinv'' Hvis' Hstk' Hsub' Hids].
  split; [done | congruence | congruence | by auto |].
  intros x [->|Hx]%elem_of_cons; [|auto].
  apply Hsub', Hid, list_elem_of_here.
Qed.

(** A visited id on the stack closes a genuine cycle. *)
Lemma stack_cycle st id :
  is_path (stack st ++ [id]) -> id ∈ stack st ->
  is_cycle (drop (default 0 (find_index (String.eqb id) (stack st))) (stack st) ++ [id]).
Proof.
  intros Hp Hin.
  assert (exists i, find_index (String.eqb id) (stack st) = Some i /\ stack st !! i = Some id)
    as (i & -> & Hi).
  { clear Hp. revert Hin. induction (stack st) as [|x l IH]; [by intros ?%not_elem_of_nil|].
    cbn. destruct (id =? x)%string eqn:E.
    - apply String.eqb_eq in E as ->. intros _. by exists 0.
    - apply String.eqb_neq in E. intros [?|Hl]%elem_of_cons; [done|].
      destruct (IH Hl) as (i & -> & Hi). by exists (S i). }
  cbn. exists id, (drop (S i) (stack st)).
  assert (Hd : drop i (stack st) = id :: drop (S i) (stack st)) by by apply drop_S.
  rewrite Hd. split; [done|]. cbn. rewrite app_comm_cons, <- Hd.
  replace (drop i (stack st) ++ [id]) with (drop i (stack st ++ [id])); [by apply is_path_drop|].
  apply drop_app_le. apply lookup_lt_Some in Hi. lia.
Qed.

Lemma push_pop (id : string) (X : gset string) : id ∉ X -> ({[id]} ∪ X) ∖ {[id]} = X.
Proof. clear. set_solver. Qed.

Lemma push_inv st id t :
  dfs_inv st -> tickets !! id = Some t -> id ∉ visiting st ->
  dfs_inv (mkDfs ({[id]} ∪ visiting st) (visited st) (stack st ++ [id])).
Proof.
  intros [Hv Hn Hd Ha] Ht Hid. split; cbn; [| | |done].
  - rewrite Hv, list_to_set_app_L. cbn. by rewrite (union_empty_r_L {[id]}), (union_comm_L _ {[id]}).
  - apply NoDup_app. split_and!; [done | | apply NoDup_singleton].
    intros x Hx ->%list_elem_of_singleton. apply Hid. rewrite Hv. by apply elem_of_list_to_set.
  - intros x [Hx| ->%list_elem_of_singleton]%elem_of_app; [auto | by eauto].
Qed.

Lemma stack_size st : dfs_inv st -> length (stack st) <= size tickets.
Proof.
  intros [_ Hn Hd _]. rewrite <- (size_dom tickets (D := gset string)).
  rewrite <- (size_list_to_set (C := gset string)) by done. apply subseteq_size.
  intros x Hx%elem_of_list_to_set. apply elem_of_dom. auto.
Qed.

Theorem visit_meets_spec fuel id st :
  dfs_inv st -> is_path (stack st ++ [id]) ->
  size tickets < fuel + length (stack st) ->
  visit_spec [id] st (visit tickets fuel id st).
Proof.
  revert id st. induction fuel as [|fuel IH]; intros id st Hinv Hpath Hfuel.
  { apply stack_size in Hinv. lia. }
  cbn [visit]. destruct (decide (id ∈ visited st)) as [Hv|Hv].
  { by split; [..| intros x ->%list_elem_of_singleton]. }
  destruct (decide (id ∈ visiting st)) as [Hg|Hg].
  { apply stack_cycle; [done|]. rewrite (inv_visiting _ Hinv) in Hg.
    by apply elem_of_list_to_set in Hg. }
  destruct (tickets !! id) as [t|] eqn:Ht; [|done].
  set (st1 := mkDfs _ _ _).
  assert (Hinv1 : dfs_inv st1) by by eapply push_inv.
  assert (Hsz : size tickets < fuel + length (stack st1)).
  { cbn. rewrite length_app. cbn. lia. }
  pose proof (visit_each_spec fuel (py_sorted (tk_depends_on t)) st1 IH Hinv1) as Hl.
  specialize (Hl (fun d Hd => is_path_snoc _ _ _ Hpath
    (ex_intro _ t (conj Ht (proj1 (elem_of_py_sorted _ _) Hd)))) Hsz).
  destruct (visit_each (visit tickets fuel) _ st1) as [[e|st2]|]; [by destruct e | | done].
  destruct Hl as [[Hv2 Hn2 Hd2 Ha2] Hvis Hstk Hsub Hids]. cbn in Hvis, Hstk, Hsub.
  assert (Hacc : Acc depends id).
  { constructor. intros d (t' & Ht' & Hd). simplify_eq.
    apply Ha2, Hids. by apply elem_of_py_sorted. }
  assert (Hpop : visiting st2 ∖ {[id]} = visiting st) by (rewrite Hvis; by apply push_pop).
  assert (Hstk' : removelast (stack st2) = stack st) by (rewrite Hstk; apply removelast_last).
  split; [split|..]; cbn [visiting visited stack].
  - rewrite Hpop, Hstk'. apply (inv_visiting _ Hinv).
  - rewrite Hstk'. apply (inv_nodup _ Hinv).
  - rewrite Hstk'. apply (inv_dom _ Hinv).
  - intros x [->%elem_of_singleton|Hx]%elem_of_union; auto.
  - exact Hpop.
  - exact Hstk'.
  - intros x Hx. apply elem_of_union_r. auto.
  - intros x ->%list_elem_of_singleton. by apply elem_of_union_l, elem_of_singleton.
Qed.

(** Every dependency of a ticket is a ticket. *)
Definition closed : Prop := forall t tk d,
  tickets !! t = Some tk -> d ∈ tk_depends_on tk -> is_Some (tickets !! d).

Lemma elem_of_ticket_ids k : k ∈ ticket_ids tickets <-> is_Some (tickets !! k).
Proof.
  unfold ticket_ids. rewrite elem_of_py_sorted, list_elem_of_fmap. split.
  - intros ([j t] & -> & Ht%elem_of_map_to_list). by eauto.
  - intros [t Ht]. exists (k, t). by rewrite elem_of_map_to_list.
Qed.

Lemma validate_cycles_spec :
  visit_spec (ticket_ids tickets) (mkDfs ∅ ∅ []) (_validate_cycles tickets).
Proof.
  apply visit_each_spec; [intros id st; apply visit_meets_spec | | | cbn; lia].
  - split; cbn; [done | constructor | by intros ? ?%not_elem_of_nil | set_solver].
  - intros id _ i a b Ha Hb. discriminate Hb.
Qed.

Lemma depends_dom d t : depends d t -> is_Some (tickets !! t).
Proof. intros (tk & -> & _). by eauto. Qed.

Lemma tc_dom d t : tc depends d t -> is_Some (tickets !! t).
Proof. induction 1; eauto using depends_dom. Qed.

Lemma visited_acyclic st : dfs_post (ticket_ids tickets) (mkDfs ∅ ∅ []) st -> acyclic.
Proof.
  intros [Hinv _ _ _ Hids] k Hk. eapply Acc_no_tc; [|exact Hk].
  apply (inv_acc _ Hinv), Hids, elem_of_ticket_ids. by eapply tc_dom.
Qed.

(** The traversal of a closed graph never looks up an unknown id. *)
Definition missing_free (e : visit_error) : Prop :=
  match e with Cycle _ => True | MissingKey _ => False end.

Lemma visit_each_closed f ids st e :
  (forall id st e, is_Some (tickets !! id) -> f id st = Some (inl e) -> missing_free e) ->
  (forall id, id ∈ ids -> is_Some (tickets !! id)) ->
  visit_each f ids st = Some (inl e) -> missing_free e.
Proof.
  intros Hf. revert st. induction ids as [|d ds IH]; intros st Hd; cbn; [done|].
  destruct (f d st) as [[e'|st']|] eqn:Ev; [| |done].
  - intros [= <-]. eapply Hf; [|exact Ev]. apply Hd, list_elem_of_here.
  - apply IH. intros d' Hd'. apply Hd. by right.
Qed.

Lemma visit_closed fuel id st e :
  closed -> is_Some (tickets !! id) ->
  visit tickets fuel id st = Some (inl e) -> missing_free e.
Proof.
  intros Hc. revert id st e.
  induction fuel as [|fuel IH]; intros id st e Hid; cbn [visit]; [done|].
  destruct (decide (id ∈ visited st)); [done|].
  destruct (decide (id ∈ visiting st)); [by intros [= <-]|].
  destruct Hid as [t Ht]. rewrite Ht.
  destruct (visit_each _ _ _) as [[e'|st']|] eqn:Ev; [|done|done].
  intros [= <-]. eapply visit_each_closed; [exact IH | | exact Ev].
  intros d Hd. rewrite elem_of_py_sorted in Hd. by apply (Hc id t d).
Qed.

(** On a closed graph the check always terminates within its fuel, and it
    either accepts an acyclic graph or reports a genuine cycle. *)
Lemma check_cycles_cases :
  closed ->
  (check_cycles tickets = Ok tt /\ acyclic) \/
  (exists c, check_cycles tickets = raise TicketError (cycle_message c) /\ is_cycle c).
Proof.
  intros Hc. pose proof validate_cycles_spec as Hspec. unfold check_cycles.
  destruct (_validate_cycles tickets) as [[[c|k]|st]|] eqn:E; cbn in Hspec; [| | |done].
  - right. by exists c.
  - unfold _validate_cycles in E. apply visit_each_closed in E; [done | |].
    + intros id st e. by apply visit_closed.
    + intros id. by rewrite elem_of_ticket_ids.
  - left. split; [done|]. by eapply visited_acyclic.
Qed.

Lemma check_cycles_ok_iff : closed -> check_cycles tickets = Ok tt <-> acyclic.
Proof.
  intros Hc. destruct (check_cycles_cases Hc) as [[-> ?]|(c & -> & Hcy)]; [done|].
  apply cycle_not_acyclic in Hcy. split; done.
Qed.
End CyclesCorrect.

(** * The loaded store is well formed *)

Section Index.
Implicit Types (l : list Ticket) (t : Ticket).

Lemma foldl_index_notin l (m : gmap string Ticket) k :
  k ∉ map tk_id l -> foldl (fun m t => <[tk_id t := t]> m) m l !! k = m !! k.
Proof.
  revert m. induction l as [|t l IH]; intros m; cbn; [done|].
  intros [Hne Hin]%not_elem_of_cons. rewrite IH by done. by apply lookup_insert_ne.
Qed.

Lemma foldl_index l (m : gmap string Ticket) k t :
  NoDup (map tk_id l) -> (forall k', k' ∈ map tk_id l -> m !! k' = None) ->
  foldl (fun m t => <[tk_id t := t]> m) m l !! k = Some t <->
  (t ∈ l /\ tk_id t = k) \/ m !! k = Some t.
Proof.
  revert m. induction l as [|u l IH]; intros m Hnd Hm; cbn.
  { rewrite elem_of_nil. naive_solver. }
  apply NoDup_cons in Hnd as [Hu Hnd].
  destruct (decide (tk_id u = k)) as [<-|Hne].
  - rewrite foldl_index_notin, lookup_insert_eq by done.
    rewrite (Hm (tk_id u)) by apply list_elem_of_here. rewrite elem_of_cons. split.
    + intros [= ->]. left. by split; [left|].
    + intros [[[->|Hin] Heq]|?]; [done | | done]. exfalso. apply Hu.
      apply list_elem_of_fmap. by exists t.
  - rewrite IH; [|done|].
    + rewrite lookup_insert_ne, elem_of_cons by done. split.
      * intros [[? ?]|?]; auto.
      * intros [[[->|?] ?]|?]; [done | auto | auto].
    + intros k' Hk'. rewrite lookup_insert_ne by (intros <-; done).
      apply Hm. by right.
Qed.

Lemma index_tickets_spec l k t :
  NoDup (map tk_id l) -> index_tickets l !! k = Some t <-> t ∈ l /\ tk_id t = k.
Proof.
  intros Hnd. unfold index_tickets. rewrite foldl_index; [|done|].
  - rewrite lookup_empty. split; [by intros [|] | auto].
  - intros k' _. apply lookup_empty.
Qed.

Lemma index_tickets_perm l l' :
  NoDup (map tk_id l) -> l ≡ₚ l' -> index_tickets l = index_tickets l'.
Proof.
  intros Hnd Hp. apply map_eq. intros k. apply option_eq. intros t.
  rewrite !index_tickets_spec by (try done; by rewrite <- (Permutation_map tk_id Hp)).
  by rewrite Hp.
Qed.
End Index.

(** All dependencies of [t] are in state done. *)
Definition deps_done_in (index : gmap string Ticket) (t : Ticket) : Prop :=
  forall d, d ∈ tk_depends_on t -> exists u, index !! d = Some u /\ tk_state u = Done.

Definition runnable_in (store : TicketStore) (t : Ticket) : Prop :=
  t ∈ ts_tickets store /\ tk_state t = Todo /\ deps_done_in (ts_by_id store) t.

(** What the loader promises to the scheduler. *)
Record wf_store (store : TicketStore) : Prop := {
  wf_ids : NoDup (map tk_id (ts_tickets store));
  wf_sorted : StronglySorted (key_le tk_id) (ts_tickets store);
  wf_index : forall k t,
    ts_by_id store !! k = Some t <-> t ∈ ts_tickets store /\ tk_id t = k;
  wf_closed : closed (ts_by_id store);
  wf_acyclic : acyclic (ts_by_id store);
  wf_runnable : forall t, t ∈ ts_runnable store <-> runnable_in store t;
  wf_runnable_sorted : StronglySorted (key_le tk_id) (ts_runnable store);
  wf_runnable_ids : NoDup (map tk_id (ts_runnable store))
}.

Definition deps_done_b (index : gmap string Ticket) (t : Ticket) : bool :=
  forallb (fun d => match index !! d with Some u => is_state (tk_state u) Done | None => false end)
    (tk_depends_on t).

Lemma is_state_spec s t : is_state s t = true <-> s = t.
Proof. unfold is_state. by rewrite bool_decide_eq_true. Qed.

Lemma deps_done_b_spec index t : deps_done_b index t = true <-> deps_done_in index t.
Proof.
  unfold deps_done_b, deps_done_in. rewrite forallb_forall.
  setoid_rewrite <- list_elem_of_In. split; intros H d Hd; specialize (H d Hd).
  - destruct (index !! d) as [u|]; [|done]. exists u. by rewrite <- is_state_spec.
  - destruct H as (u & -> & Hu). by apply is_state_spec.
Qed.

Lemma dependencies_done_pure index t :
  (forall d, d ∈ tk_depends_on t -> is_Some (index !! d)) ->
  dependencies_done index t = Ok (deps_done_b index t).
Proof.
  intros Hd. apply res_all_pure, Forall_forall. intros d Hin.
  by destruct (Hd d Hin) as [u ->].
Qed.

Lemma make_store_wf l :
  NoDup (map tk_id l) -> StronglySorted (key_le tk_id) l ->
  closed (index_tickets l) -> acyclic (index_tickets l) ->
  exists store, make_store l = Ok store /\ ts_tickets store = l /\ wf_store store.
Proof.
  intros Hnd Hs Hc Ha.
  set (test := fun t => is_state (tk_state t) Todo && deps_done_b (index_tickets l) t).
  exists (mkTicketStore l (index_tickets l) (sorted_by tk_id (List.filter test l))).
  assert (Hrun : forall t, t ∈ sorted_by tk_id (List.filter test l) <->
                   t ∈ l /\ tk_state t = Todo /\ deps_done_in (index_tickets l) t).
  { intros t. rewrite elem_of_sorted_by, list_elem_of_In, filter_In, <- list_elem_of_In.
    unfold test. by rewrite andb_true_iff, is_state_spec, deps_done_b_spec. }
  split_and!; [|done|].
  - unfold make_store. rewrite (res_filter_pure _ test); [done|].
    apply Forall_forall. intros t Ht. unfold test.
    destruct (is_state (tk_state t) Todo); [|done]. apply dependencies_done_pure.
    intros d Hd. apply (Hc (tk_id t) t); [|done]. by apply index_tickets_spec.
  - split; cbn; try done.
    + intros k t. by apply index_tickets_spec.
    + apply sorted_by_sorted.
    + rewrite (Permutation_map tk_id (sorted_by_perm tk_id _)).
      by apply NoDup_map_filter.
Qed.

(** ** Each stage of the loader *)

Section LoadStages.
Variable loads : string -> string + dict.

Lemma find_duplicate_None l : find_duplicate l = None -> NoDup (map tk_id l).
Proof.
  intros Hf. assert (Hle : forall k, k ∈ map tk_id l -> length (List.filter (same_id k) l) <= 1).
  { intros k Hk. apply (find_none _ _) with (x := k) in Hf.
    - apply Nat.ltb_ge in Hf. lia.
    - by apply list_elem_of_In, elem_of_py_sorted. }
  clear Hf. induction l as [|t l IH]; cbn in *; [constructor|].
  apply NoDup_cons. split.
  - intros (u & Heq & Hu)%list_elem_of_fmap. specialize (Hle (tk_id t) (list_elem_of_here _ _)).
    unfold same_id at 1 in Hle. rewrite String.eqb_refl in Hle. cbn in Hle.
    assert (Hin : In u (List.filter (same_id (tk_id t)) l)).
    { apply filter_In. split; [by apply list_elem_of_In|]. unfold same_id.
      rewrite Heq. apply String.eqb_refl. }
    destruct (List.filter (same_id (tk_id t)) l); [done | cbn in Hle; lia].
  - apply IH. intros k Hk. specialize (Hle k (list_elem_of_further _ _ _ Hk)).
    destruct (same_id k t); cbn in Hle; lia.
Qed.

Lemma check_duplicates_ok l : check_duplicates l = Ok tt -> NoDup (map tk_id l).
Proof.
  unfold check_duplicates. destruct (find_duplicate l) eqn:E; [done|].
  intros _. by apply find_duplicate_None.
Qed.

Lemma check_dependencies_ok index l :
  check_dependencies index l = Ok tt ->
  forall t d, t ∈ l -> d ∈ tk_depends_on t -> is_Some (index !! d).
Proof.
  unfold check_dependencies. intros (xs & Hxs & _)%res_bind_ok t d Ht Hd.
  destruct (res_map_each _ _ _ t Hxs) as (ys & Hys & _); [by apply elem_of_sorted_by|].
  destruct (res_map_each _ _ _ d Hys Hd) as ([] & Hy & _).
  by apply ensure_ok, bool_decide_eq_true in Hy.
Qed.

(** The canonical entries of one directory and the tickets they parse to. *)
Definition parsed_from (repo : checkout) (t : Ticket) : Prop :=
  exists state dir entries name text,
    repo state = (dir, DirEntries entries) /\ (name, EntFile text) ∈ entries /\
    is_canonical_ticket_name name = true /\
    _parse_ticket loads (dir +:+ "/" +:+ name) name state text = Ok t.

Lemma load_directory_sound repo state ts t :
  load_directory loads repo state = Ok ts -> t ∈ ts -> parsed_from repo t.
Proof.
  unfold load_directory. destruct (repo state) as [dir [| |entries]] eqn:E; [|done|].
  { intros [= <-] Hx. by apply not_elem_of_nil in Hx. }
  intros (found & Hf & [= <-])%res_bind_ok Ht. rewrite elem_of_cat_options in Ht.
  destruct (res_map_from _ _ _ _ Hf Ht) as ([name ent] & Hin & Hl).
  rewrite elem_of_sorted_by in Hin. unfold load_entry in Hl. cbn in Hl.
  destruct (is_canonical_ticket_name name) eqn:Hc; [|done]. cbn in Hl.
  destruct ent as [text| |]; [|done|done].
  destruct (_parse_ticket _ _ _ _ _) eqn:Hp; [|done]. injection Hl as ->.
  exists state, dir, entries, name, text. done.
Qed.

Lemma load_directory_complete repo state ts dir entries name ent :
  load_directory loads repo state = Ok ts ->
  repo state = (dir, DirEntries entries) -> (name, ent) ∈ entries ->
  is_canonical_ticket_name name = true ->
  exists text t, ent = EntFile text /\ t ∈ ts /\
    _parse_ticket loads (dir +:+ "/" +:+ name) name state text = Ok t.
Proof.
  unfold load_directory. intros Hl Hr Hin Hc. rewrite Hr in Hl.
  apply res_bind_ok in Hl as (found & Hf & [= <-]).
  destruct (res_map_each _ _ _ (name, ent) Hf) as (o & Hl & Ho);
    [by apply elem_of_sorted_by|].
  unfold load_entry in Hl. cbn in Hl. rewrite Hc in Hl. cbn in Hl.
  destruct ent as [text| |]; [|done|done].
  destruct (_parse_ticket _ _ _ _ _) eqn:Hp; [|done]. injection Hl as <-.
  exists text, a. by rewrite elem_of_cat_options.
Qed.

Lemma load_stages repo store :
  load_ticket_store loads repo = Ok store ->
  exists per_state, res_map (load_directory loads repo) _WORKFLOW_STATES = Ok per_state /\
    let l := List.concat per_state in
    NoDup (map tk_id l) /\ ts_tickets store = sorted_by tk_id l /\ wf_store store.
Proof.
  unfold load_ticket_store. intros (ps & Hps & H)%res_bind_ok. cbn zeta in H.
  apply res_bind_ok in H as ([] & Hdup & H). apply res_bind_ok in H as ([] & Hdep & H).
  apply res_bind_ok in H as ([] & Hcyc & H). apply check_duplicates_ok in Hdup.
  assert (Hp := sorted_by_perm tk_id (List.concat ps)).
  assert (Hdup' : NoDup (map tk_id (sorted_by tk_id (List.concat ps))))
    by by rewrite (Permutation_map tk_id Hp).
  assert (Hix := index_tickets_perm _ _ Hdup' Hp).
  assert (Hc : closed (index_tickets (List.concat ps))).
  { intros k tk d Hk Hd. apply index_tickets_spec in Hk as [Hin _]; [|done].
    eapply check_dependencies_ok; done. }
  rewrite check_cycles_ok_iff in Hcyc by done.
  edestruct (make_store_wf (sorted_by tk_id (List.concat ps))) as (st & Hst & Hts & Hwf);
    rewrite ?Hix; try done; [apply sorted_by_sorted|].
  exists ps. split; [done|]. cbn. rewrite H in Hst. injection Hst as ->. done.
Qed.
End LoadStages.

(** ** Facts about one parsed ticket *)

Lemma canonical_stem name :
  is_canonical_ticket_name name = true ->
  path_stem name = drop_last 3 name /\ is_identifier (drop_last 3 name) = true.
Proof.
  unfold is_canonical_ticket_name. intros [He Hi]%andb_true_iff. split; [|done].
  apply prefix_spec in He as [u Hu]. apply (f_equal String.list_ascii_of_string) in Hu.
  unfold str_rev in Hu.
  rewrite list_ascii_app, String.list_ascii_of_string_of_list_ascii in Hu.
  unfold path_stem. rewrite Hu. change (find_index _ _) with (Some 2). cbn iota beta.
  unfold drop_last in *. destruct (String.length name - 3) as [|n] eqn:En; [|done].
  exfalso. assert (Hz : forall s, String.substring 0 0 s = "") by by destruct s.
  by rewrite Hz in Hi.
Qed.

(** What the scheduler relies on in a parsed ticket. *)
Record valid_ticket (t : Ticket) : Prop := {
  valid_id : is_identifier (tk_id t) = true;
  valid_title : tk_title t <> "" ;
  valid_deps : Forall (fun d => is_identifier d = true) (tk_depends_on t);
  valid_deps_nodup : NoDup (tk_depends_on t);
  valid_not_self : tk_id t ∉ tk_depends_on t;
  valid_body : strip (tk_body t) <> ""
}.

Ltac split_if H :=
  match type of H with
  | (if ?b then _ else _) = _ => destruct b eqn:?; [discriminate H|]
  end.

Lemma split_ticket_body path text metadata body :
  _split_ticket path text = Ok (metadata, body) -> strip body <> "".
Proof.
  unfold _split_ticket. destruct (splitlines_keepends text) as [|first rest]; [done|].
  destruct (negb (is_delimiter first)); [done|].
  destruct (find_index is_delimiter rest) as [i|]; [|done]. cbn zeta.
  destruct (strip _ =? "")%string eqn:E; [done|]. intros [= <- <-]. by apply String.eqb_neq.
Qed.

Lemma parse_ticket_valid loads path name state text t :
  _parse_ticket loads path name state text = Ok t ->
  valid_ticket t /\ tk_id t = drop_last 3 name /\ tk_state t = state /\ tk_path t = path.
Proof.
  unfold _parse_ticket. intros H. split_if H.
  destruct (canonical_stem name) as [Hst Hid]; [by apply negb_false_iff|].
  apply res_bind_ok in H as ([md body] & Hbody & H). apply split_ticket_body in Hbody.
  destruct (loads md) as [e|m]; [done|].
  cbn zeta in H. destruct (py_sorted _) as [|u us] eqn:Eu; [|done].
  do 8 split_if H. apply res_bind_ok in H as (us & Hdeps & [= <-]). bsplit.
  rewrite Hst in *. split; [|done]. split; cbn; try done.
  - apply Forall_forall. intros d Hd.
    destruct (res_map_each _ _ _ d Hdeps Hd) as ([] & Hu & _).
    by destruct (is_identifier d).
  - by apply (bool_decide_eq_true (NoDup _)).
  - intros Hd. destruct (res_map_each _ _ _ _ Hdeps Hd) as ([] & Hu & _).
    rewrite Hid, String.eqb_refl in Hu. done.
Qed.

(** * Properties *)

(** C31: a store returned by [load_ticket_store] is well formed (unique ids in
    order, dependencies present, no dependency cycle, the runnable set exactly
    the todo tickets whose dependencies are all done), and its tickets are
    exactly the canonical files of the workflow directories, each parsed and
    validated. *)
Theorem load_ticket_store_sound loads repo store :
  load_ticket_store loads repo = Ok store ->
  wf_store store /\
  (forall t, t ∈ ts_tickets store <-> parsed_from loads repo t) /\
  Forall valid_ticket (ts_tickets store).
Proof.
  intros Hl. destruct (load_stages _ _ _ Hl) as (ps & Hps & _ & Hts & Hwf).
  assert (Hin : forall t, t ∈ ts_tickets store <-> parsed_from loads repo t).
  { intros t. rewrite Hts, elem_of_sorted_by, list_elem_of_In, in_concat. split.
    - intros (ts & Hin & Ht). apply list_elem_of_In in Hin, Ht.
      destruct (res_map_from _ _ _ _ Hps Hin) as (state & _ & Hd).
      by eapply load_directory_sound.
    - intros (state & dir & es & name & text & Hr & He & Hc & Hp).
      destruct (res_map_each _ _ _ state Hps) as (ts & Hd & Hin);
        [by destruct state; repeat constructor|].
      destruct (load_directory_complete _ _ _ _ _ _ _ _ Hd Hr He Hc)
        as (text' & t' & [= <-] & Ht & Hp').
      exists ts. rewrite Hp in Hp'. injection Hp' as ->. by rewrite <- !list_elem_of_In. }
  split_and!; [done|done|]. apply Forall_forall. intros t Ht. apply Hin in Ht.
  destruct Ht as (? & ? & ? & ? & ? & _ & _ & _ & Hp).
  exact (proj1 (parse_ticket_valid _ _ _ _ _ _ Hp)).
Qed.

(** A decidable form of closure, for concrete ticket lists. *)
Definition closed_b (l : list Ticket) : bool :=
  no_dup_strings (map tk_id l) &&
  forallb (fun t => forallb (fun d => existsb (String.eqb d) (map tk_id l)) (tk_depends_on t)) l.

Lemma closed_b_spec l : closed_b l = true -> closed (index_tickets l).
Proof.
  unfold closed_b, no_dup_strings. intros H. bsplit. intros k t d Hk Hd.
  apply index_tickets_spec in Hk as [Hin _]; [|done].
  rewrite forallb_forall in H0. apply list_elem_of_In, H0 in Hin.
  rewrite forallb_forall in Hin. apply list_elem_of_In, Hin in Hd.
  apply existsb_exists in Hd as (k' & Hk' & <-%String.eqb_eq).
  apply list_elem_of_In, list_elem_of_fmap in Hk' as (u & -> & Hu). exists u.
  by apply index_tickets_spec.
Qed.

(** A reader for the witnesses: the metadata lists the dependency ids, one per
    line. *)
Definition toy_loads (text : string) : string + dict :=
  inr ([("type", PStr "devlegate.ticket"); ("title", PStr "T")] ++
       match map (rstrip_bytes is_crlf) (splitlines_keepends text) with
       | [] => []
       | ds => [("depends_on", PList (map PStr ds))]
       end).

Definition toy_text (deps : list string) : string :=
  of_chars (map (fun l => l +:+ LF) (["---"] ++ deps ++ ["---"; "body"])).

Definition toy_repo (todo : list (string * list string)) : checkout := fun s =>
  (state_name s,
   match s with
   | Todo => DirEntries (map (fun e => (fst e +:+ ".md", EntFile (toy_text (snd e)))) todo ++
                         [("notes.txt", EntOther)])
   | Done => DirEntries [("d0.md", EntFile (toy_text []))]
   | _ => DirMissing
   end).

Lemma load_ticket_store_sound_witness :
  exists store,
    load_ticket_store toy_loads (toy_repo [("b", ["a"]); ("a", ["d0"])]) = Ok store /\
    map tk_id (ts_runnable store) = ["a"] /\ wf_store store.
Proof.
  eexists. split; [vm_compute; reflexivity|]. split; [vm_compute; reflexivity|].
  apply (load_ticket_store_sound toy_loads (toy_repo [("b", ["a"]); ("a", ["d0"])])).
  vm_compute. reflexivity.
Defined.

(** C32: the depth-first dependency check always terminates on a closed graph:
    it accepts exactly the acyclic graphs, and otherwise its error message
    lists a genuine dependency cycle. *)
Theorem check_cycles_decides tickets :
  closed tickets ->
  (check_cycles tickets = Ok tt <-> acyclic tickets) /\
  (~ acyclic tickets ->
   exists c, is_cycle tickets c /\
     check_cycles tickets = raise TicketError (cycle_message c)).
Proof.
  intros Hc. split; [by apply check_cycles_ok_iff|].
  intros Hna. destruct (check_cycles_cases _ Hc) as [[_ ?]|(c & ? & ?)]; [done|].
  by exists c.
Qed.

Definition toy_ticket (id : string) (state : WorkflowState) (deps : list string) : Ticket :=
  mkTicket id state "T" deps "body" (id +:+ ".md").

Lemma check_cycles_decides_witness :
  check_cycles (index_tickets [toy_ticket "a" Todo ["b"]; toy_ticket "b" Todo ["a"]]) =
    raise TicketError "dependency cycle: a -> b -> a" /\
  ~ acyclic (index_tickets [toy_ticket "a" Todo ["b"]; toy_ticket "b" Todo ["a"]]).
Proof.
  split; [vm_compute; reflexivity|].
  intros Ha. eapply check_cycles_decides in Ha; [vm_compute in Ha; discriminate Ha|].
  apply closed_b_spec. vm_compute. reflexivity.
Defined.

(** the scheduler's selection from a well-formed store is the runnable
    ticket with the least id, and there is a selection exactly when some todo
    ticket has all its dependencies done. *)
Theorem selected_is_least_runnable store :
  wf_store store ->
  match selected store with
  | Some t => runnable_in store t /\
              forall u, runnable_in store u -> String.le (tk_id t) (tk_id u)
  | None => forall u, ~ runnable_in store u
  end.
Proof.
  intros Hwf. pose proof (wf_runnable_sorted _ Hwf) as Hs. unfold selected.
  pose proof (wf_runnable _ Hwf) as Hr.
  destruct (ts_runnable store) as [|t l]; cbn.
  - intros u Hu%Hr. by apply not_elem_of_nil in Hu.
  - split; [apply Hr; left|]. intros u [->|Hu]%Hr%elem_of_cons; [by unfold String.le|].
    apply StronglySorted_inv in Hs as [_ Hs]. rewrite Forall_forall in Hs. exact (Hs u Hu).
Qed.

Lemma selected_is_least_runnable_witness :
  exists store, make_store [toy_ticket "a" Todo []; toy_ticket "b" Todo []] = Ok store /\
    (fmap tk_id (selected store) = Some "a") /\
    match selected store with
    | Some t => forall u, runnable_in store u -> String.le (tk_id t) (tk_id u)
    | None => False
    end.
Proof.
  destruct (make_store_wf [toy_ticket "a" Todo []; toy_ticket "b" Todo []])
    as (store & Hst & _ & Hwf).
  - apply (bool_decide_unpack _). vm_compute. exact I.
  - apply (Sorted_StronglySorted _). repeat constructor.
  - apply closed_b_spec. vm_compute. reflexivity.
  - eapply check_cycles_ok_iff; [apply closed_b_spec|]; vm_compute; reflexivity.
  - exists store. split; [exact Hst|]. pose proof (selected_is_least_runnable store Hwf) as H.
    vm_compute in Hst. injection Hst as <-.
    split; [reflexivity|]. exact (proj2 H).
Defined.

(** A ticket file written as an opening delimiter, metadata lines, a
    closing delimiter and a non-blank body splits back into exactly that
    metadata text and that body. *)
Theorem split_ticket_roundtrip path ms body :
  Forall (fun m => one_line m /\ starts_char m = true /\ is_delimiter (m +:+ LF) = false) ms ->
  starts_char body = true -> strip body <> "" ->
  _split_ticket path
    ("---" +:+ LF +:+ of_chars (map (fun m => m +:+ LF) ms) +:+ "---" +:+ LF +:+ body) =
    Ok (of_chars (map (fun m => m +:+ LF) ms), body).
Proof.
  intros Hms Hb Hne.
  assert (Hd : one_line "---") by repeat constructor.
  assert (Hrest : forall ms', Forall (fun m => one_line m /\ starts_char m = true /\
                    is_delimiter (m +:+ LF) = false) ms' ->
            let text := of_chars (map (fun m => m +:+ LF) ms') +:+ "---" +:+ LF +:+ body in
            starts_char text = true /\
            splitlines_keepends text =
              map (fun m => m +:+ LF) ms' ++ ("---" +:+ LF) :: splitlines_keepends body).
  { clear Hms. induction 1 as [|m ms' (Hm1 & Hm2 & Hm3) _ [IH1 IH2]]; cbn zeta.
    - split; [done|]. by rewrite str_app_nil_l, splitlines_line.
    - cbn [map]. rewrite of_chars_cons, !str_app_assoc. split; [by destruct m|].
      rewrite splitlines_line by done. cbn [app]. by rewrite IH2. }
  destruct (Hrest ms Hms) as [Hst Hsp]. unfold _split_ticket.
  rewrite splitlines_line by done. rewrite Hsp. change (is_delimiter ("---" +:+ LF)) with true.
  cbn [negb].
  assert (Hfi : find_index is_delimiter
    (map (fun m => m +:+ LF) ms ++ ("---" +:+ LF) :: splitlines_keepends body) = Some (length ms)).
  { clear -Hms. induction Hms as [|m ms (_ & _ & Hm) _ IH]; cbn [map app find_index]; [done|].
    by rewrite Hm, IH. }
  rewrite Hfi. cbn zeta.
  rewrite take_app_length', drop_app_ge by (rewrite length_map; lia).
  rewrite length_map. replace (S (length ms) - length ms) with 1 by lia. cbn [drop].
  rewrite skipn_O, splitlines_concat. by destruct (String.eqb_spec (strip body) "").
Qed.

Lemma split_ticket_roundtrip_witness :
  _split_ticket "t.md" ("---" +:+ LF +:+ of_chars (map (fun m => m +:+ LF) ["type: x"; "title: y"])
                        +:+ "---" +:+ LF +:+ "do it") =
    Ok (of_chars (map (fun m => m +:+ LF) ["type: x"; "title: y"]), "do it").
Proof.
  apply (split_ticket_roundtrip "t.md" ["type: x"; "title: y"] "do it"); [|done|done].
  repeat first [constructor | split].
Defined.
