(* ===== verification/Egress.v ===== *)
(** The typed egress of one worker process, [src/devlegate/worker_egress.py]:
    the claim a worker makes through the reserved [devlegate_report] tool, and
    the parser that accepts exactly one of them from the untrusted event
    stream. *)

From S2P Require Export PyVal.

(** * Data *)

Record WorkerClaim : Type := mkClaim {
  cl_outcome : string;
  cl_summary : string;
  cl_remaining : list string;
  cl_questions : list string;
  cl_report : option string
}.

#[global] Instance WorkerClaim_eq_dec : EqDecision WorkerClaim.
Proof. solve_decision. Defined.

Record OpenCodeRunResult : Type := mkOpenCodeRun {
  oc_process_returncode : Z;
  oc_transport_error : option string;
  oc_interruption_kind : option string;
  oc_worker_group_retired : bool;
  oc_process_started : bool
}.

Record WorkerRunResult : Type := mkRun {
  run_process_returncode : Z;
  run_transport_error : option string;
  run_claim : option WorkerClaim;
  run_egress_error : option string;
  run_interruption_kind : option string;
  run_worker_group_retired : bool;
  run_process_started : bool
}.

Definition is_missing {A} (o : option A) : bool := match o with None => true | _ => false end.

Definition transport_ok (run : WorkerRunResult) : bool := is_missing (run_transport_error run).

Definition egress_ok (run : WorkerRunResult) : bool :=
  is_missing (run_egress_error run) && negb (is_missing (run_claim run)).

Definition _OUTCOMES : list string := ["completed"; "incomplete"; "blocked"].
Definition _CLAIM_FIELDS : list string :=
  ["outcome"; "summary"; "remaining"; "questions"; "report"].
Definition _CLAIM_FIELDS_SHORT : list string :=
  ["outcome"; "summary"; "remaining"; "questions"].

(** [isinstance(v, list) and all(isinstance(item, str) for item in v)] *)
Definition is_str_list (v : pyval) : bool := is_list v && forallb is_str (list_of v).

Definition strings_of (v : pyval) : list string := map str_of (list_of v).

(** [v is not None and not isinstance(v, str)] *)
Definition not_opt_str (v : pyval) : bool := negb (is_none v) && negb (is_str v).

(** * The claim *)

Definition _claim (arguments : pyval) : res WorkerClaim :=
  let d := dict_of arguments in
  if negb (is_dict arguments && (keys_eq d _CLAIM_FIELDS || keys_eq d _CLAIM_FIELDS_SHORT))
  then raise WorkerProtocolError "devlegate_report arguments must have exact fields"
  else
  outcome ← getitem d "outcome";
  summary ← getitem d "summary";
  remaining ← getitem d "remaining";
  questions ← getitem d "questions";
  let report := get d "report" in
  _ ← ensure (is_str outcome && existsb (eq_str outcome) _OUTCOMES)
        WorkerProtocolError "devlegate_report outcome is invalid";
  _ ← ensure (is_str summary)
        WorkerProtocolError "devlegate_report summary must be a string";
  _ ← ensure (is_str_list remaining)
        WorkerProtocolError "devlegate_report remaining must be list[string]";
  _ ← ensure (is_str_list questions)
        WorkerProtocolError "devlegate_report questions must be list[string]";
  _ ← ensure (negb (not_opt_str report))
        WorkerProtocolError "devlegate_report report must be a string or null";
  Ok (mkClaim (str_of outcome) (str_of summary) (strings_of remaining)
              (strings_of questions) (str_opt report)).

(** * The parser *)

Record WorkerEgressParser : Type := mkParser {
  pa_claim : option WorkerClaim;
  pa_error : option string
}.

Definition new_parser : WorkerEgressParser := mkParser None None.

Definition fail_parser (p : WorkerEgressParser) (msg : string) : WorkerEgressParser :=
  mkParser (pa_claim p) (Some msg).

(** [WorkerEgressParser.consume]; any exception of [_claim] other than
    [WorkerProtocolError] would escape. *)
Definition consume (p : WorkerEgressParser) (event : pyval) : res WorkerEgressParser :=
  if negb (is_missing (pa_error p)) then Ok p
  else if negb (is_dict event) || negb (eq_str (get (dict_of event) "type") "tool_use")
  then Ok p
  else
  let part := get (dict_of event) "part" in
  if negb (is_dict part) || negb (eq_str (get (dict_of part) "tool") "devlegate_report")
  then Ok p
  else if negb (eq_str (get (dict_of part) "type") "tool")
  then Ok (fail_parser p "devlegate_report event has invalid tool type")
  else
  let state := get (dict_of part) "state" in
  if negb (is_dict state) || negb (eq_str (get (dict_of state) "status") "completed")
  then Ok (fail_parser p "devlegate_report event is not completed")
  else if negb (is_missing (pa_claim p))
  then Ok (fail_parser p "duplicate devlegate_report event")
  else match _claim (get (dict_of state) "input") with
  | Ok c => Ok (mkParser (Some c) (pa_error p))
  | Raise e => if is_class WorkerProtocolError e
               then Ok (fail_parser p (exn_msg e)) else Raise e
  end.

Definition consume_all (events : list pyval) : res WorkerEgressParser :=
  res_fold consume new_parser events.

Definition finish (p : WorkerEgressParser) : option WorkerClaim * option string :=
  match pa_error p, pa_claim p with
  | Some error, _ => (None, Some error)
  | None, None => (None, Some "exactly one devlegate_report event is required")
  | None, Some c => (Some c, None)
  end.

(** * The contract: what one event means *)

(** The reserved tool is addressed by an event, whatever its content. *)
Definition addresses_report (event : pyval) : bool :=
  is_dict event && eq_str (get (dict_of event) "type") "tool_use" &&
  is_dict (get (dict_of event) "part") &&
  eq_str (get (dict_of (get (dict_of event) "part")) "tool") "devlegate_report".

Definition report_state (event : pyval) : pyval :=
  get (dict_of (get (dict_of event) "part")) "state".

(** The event is a completed call of the reserved tool with claim [c]. *)
Definition reports (event : pyval) (c : WorkerClaim) : Prop :=
  addresses_report event = true /\
  get (dict_of (get (dict_of event) "part")) "type" = PStr "tool" /\
  is_dict (report_state event) = true /\
  get (dict_of (report_state event)) "status" = PStr "completed" /\
  _claim (get (dict_of (report_state event)) "input") = Ok c.

(** Only protocol errors come out of [_claim]. *)
Lemma claim_error arguments e :
  _claim arguments = Raise e -> exn_cls e = WorkerProtocolError.
Proof.
  unfold _claim. set (d := dict_of arguments). destruct (negb _) eqn:E; [by intros [= <-]|].
  apply negb_false_iff, andb_true_iff in E as [_ E].
  assert (Hk : has_keys d _CLAIM_FIELDS_SHORT = true).
  { unfold keys_eq in E. apply orb_true_iff in E as [E|E];
      apply andb_true_iff in E as [_ E]; [|done].
    unfold has_keys, _CLAIM_FIELDS, _CLAIM_FIELDS_SHORT in *. cbn [forallb] in *.
    bsplit. by repeat (apply andb_true_iff; split). }
  unfold has_keys, _CLAIM_FIELDS_SHORT in Hk. cbn [forallb] in Hk. bsplit.
  repeat match goal with H : has_key _ _ = true |- _ => apply has_key_spec in H as [? H] end.
  unfold getitem.
  repeat match goal with H : dget d _ = Some _ |- _ => rewrite H end. cbn.
  repeat (match goal with |- context [ensure ?b _ _] => destruct b; cbn; [|by intros [= <-]] end).
  done.
Qed.

(** A claim that parses carries a known outcome. *)
Lemma claim_outcome arguments c : _claim arguments = Ok c -> cl_outcome c ∈ _OUTCOMES.
Proof.
  unfold _claim. intros H. step_in H. unfold ensure in H.
  repeat (apply res_bind_ok in H as (? & ? & H)).
  repeat match goal with E : (if ?b then Ok tt else _) = Ok _ |- _ =>
    destruct b eqn:?; [clear E | discriminate E] end.
  injection H as <-. cbn [cl_outcome]. bsplit.
  match goal with E : existsb (eq_str _) _ = true |- _ =>
    apply existsb_eq_str in E as (s & -> & Hs) end.
  exact Hs.
Qed.

(** The parser's state after a prefix of the stream, stated on the events. *)
Inductive parser_state (events : list pyval) : WorkerEgressParser -> Prop :=
  | ps_none :
      Forall (fun e => addresses_report e = false) events ->
      parser_state events new_parser
  | ps_one e c :
      List.filter addresses_report events = [e] -> reports e c ->
      parser_state events (mkParser (Some c) None)
  | ps_error c msg :
      (forall e d, List.filter addresses_report events = [e] -> ~ reports e d) ->
      List.filter addresses_report events <> [] ->
      parser_state events (mkParser c (Some msg)).

Lemma filter_snoc {A} (p : A -> bool) l x :
  List.filter p (l ++ [x]) = List.filter p l ++ if p x then [x] else [].
Proof. rewrite List.filter_app. cbn. by destruct (p x). Qed.

Lemma filter_none {A} (p : A -> bool) l :
  Forall (fun e => p e = false) l <-> List.filter p l = [].
Proof.
  induction l as [|x l IH]; cbn; [by split|]. rewrite Forall_cons, IH.
  destruct (p x); split; naive_solver.
Qed.

(** What [consume] does with an event, by cases on the event alone. *)
Lemma consume_cases p event :
  (addresses_report event = false /\ consume p event = Ok p) \/
  (addresses_report event = true /\
   ((exists c, reports event c /\ consume p event =
       Ok (if negb (is_missing (pa_error p)) then p else
           if negb (is_missing (pa_claim p))
           then fail_parser p "duplicate devlegate_report event"
           else mkParser (Some c) (pa_error p))) \/
    ((forall c, ~ reports event c) /\
     exists msg, consume p event =
       Ok (if negb (is_missing (pa_error p)) then p else fail_parser p msg)))).
Proof.
  unfold consume, reports, report_state, addresses_report.
  set (part := get (dict_of event) "part"). set (state := get (dict_of part) "state").
  destruct (is_dict event); cbn; [|left; by destruct (is_missing (pa_error p))].
  destruct (eq_str (get (dict_of event) "type") "tool_use"); cbn;
    [|left; by destruct (is_missing (pa_error p))].
  destruct (is_dict part); cbn; [|left; by destruct (is_missing (pa_error p))].
  destruct (eq_str (get (dict_of part) "tool") "devlegate_report"); cbn;
    [|left; by destruct (is_missing (pa_error p))].
  right. split; [done|].
  destruct (eq_str (get (dict_of part) "type") "tool") eqn:E1; cbn.
  2: { right. split; [|eexists; by destruct (is_missing (pa_error p))].
       intros c (_ & H & _). apply eq_str_spec in H. congruence. }
  destruct (is_dict state) eqn:E2; cbn.
  2: { right. split; [|eexists; by destruct (is_missing (pa_error p))].
       intros c (_ & _ & H & _). congruence. }
  destruct (eq_str (get (dict_of state) "status") "completed") eqn:E3; cbn.
  2: { right. split; [|eexists; by destruct (is_missing (pa_error p))].
       intros c (_ & _ & _ & H & _). apply eq_str_spec in H. congruence. }
  apply eq_str_spec in E1, E3.
  destruct (_claim (get (dict_of state) "input")) as [c|e] eqn:E4.
  - left. exists c. split; [by split_and!|].
    destruct (pa_error p); cbn; [done|]. by destruct (pa_claim p).
  - right. split; [by intros c (_ & _ & _ & _ & ?)|].
    unfold is_class. rewrite (claim_error _ _ E4). cbn.
    destruct (pa_error p); cbn; [by exists ""|].
    destruct (pa_claim p); cbn; by eexists.
Qed.

Lemma parser_state_step events event p :
  parser_state events p ->
  exists p', consume p event = Ok p' /\ parser_state (events ++ [event]) p'.
Proof.
  intros Hp. destruct (consume_cases p event)
    as [[Ha ->] | [Ha [(c & Hc & Hr) | (Hn & msg & ->)]]].
  - exists p. split; [done|]. destruct Hp as [H | e c H1 H2 | c msg H1 H2].
    + constructor. apply Forall_app. split; [done|]. by constructor.
    + econstructor; [|done]. rewrite filter_snoc, Ha, app_nil_r. done.
    + constructor; rewrite filter_snoc, Ha, app_nil_r; done.
  - rewrite Hr. eexists. split; [done|].
    destruct Hp as [H | e d H1 H2 | d msg H1 H2]; cbn.
    + econstructor; [|done]. rewrite filter_snoc, Ha. by apply filter_none in H as ->.
    + constructor; rewrite filter_snoc, Ha, H1; cbn; done.
    + constructor; rewrite filter_snoc, Ha; [|by destruct (List.filter _ _)].
      intros e' d'. destruct (List.filter addresses_report events) as [|? [|]]; cbn; try done.
  - eexists. split; [done|].
    destruct Hp as [H | e d H1 H2 | d msg' H1 H2]; cbn.
    + constructor; rewrite filter_snoc, Ha; apply filter_none in H as ->; cbn; [|done].
      intros e d [= <-]. apply Hn.
    + constructor; rewrite filter_snoc, Ha, H1; cbn; done.
    + constructor; rewrite filter_snoc, Ha; [|by destruct (List.filter _ _)].
      intros e' d'. destruct (List.filter addresses_report events) as [|? [|]]; cbn; try done.
Qed.

Lemma consume_from events p rest :
  parser_state events p ->
  exists p', res_fold consume p rest = Ok p' /\ parser_state (events ++ rest) p'.
Proof.
  revert events p. induction rest as [|e rest IH]; intros events p Hp; cbn.
  - exists p. by rewrite app_nil_r.
  - destruct (parser_state_step _ e _ Hp) as (p1 & -> & H1). cbn.
    destruct (IH _ _ H1) as (p2 & H2 & H3). exists p2. by rewrite <- app_assoc in H3.
Qed.

Lemma consume_all_state events :
  exists p, consume_all events = Ok p /\ parser_state events p.
Proof. apply (consume_from [] new_parser events). by constructor. Qed.

(** ** Properties *)

(** on every event stream the parser finishes without an exception, and it
    returns a claim exactly when one single event addresses the reserved tool
    and that event is a completed call with a well-formed claim; in every other
    case it returns an error and no claim. *)
Theorem egress_accepts_exactly_one events :
  exists p, consume_all events = Ok p /\
    (forall c, fst (finish p) = Some c <->
       exists e, List.filter addresses_report events = [e] /\ reports e c) /\
    (fst (finish p) = None <-> is_Some (snd (finish p))).
Proof.
  destruct (consume_all_state events) as (p & Hp & Hs). exists p. split; [done|].
  destruct Hs as [H | e c H1 H2 | c msg H1 H2]; cbn.
  - split; [|by split; eauto]. intros c. apply filter_none in H as ->. split; [done|].
    by intros (? & ? & _).
  - split; [|by split; [|intros []]]. intros d. split.
    + intros [= <-]. eauto.
    + intros (e' & He & Hd). rewrite H1 in He. injection He as <-.
      destruct H2 as (_ & _ & _ & _ & H2), Hd as (_ & _ & _ & _ & Hd). congruence.
  - split; [|by split; eauto]. intros d. split; [done|].
    intros (e & He & Hd). by destruct (H1 e d He).
Qed.
