(* ===== verification/WorkerStream.v ===== *)
(** What one worker process writes and is given, [src/devlegate/worker_supervisor.py]:
    worker text made inert before it reaches a terminal or a log, the reading of
    the event stream on its standard output, the delivery of its prompt and the
    environment it inherits.  The threads that read the two streams are
    joined in any [interleaving] of their writes. *)

From S2P Require Export Json Egress.

(** [s[:n]] and [s[n:]] on bytes *)
Definition take_bytes (n : nat) (s : string) : string :=
  String.string_of_list_ascii (take n (String.list_ascii_of_string s)).
Definition drop_bytes (n : nat) (s : string) : string :=
  String.string_of_list_ascii (drop n (String.list_ascii_of_string s)).

(** * Rendering *)

Definition TAB_text : string := bytes_of [9%N].

(** [f"{n:04x}"], for a code point *)
Definition hex_wide (n : N) : string :=
  if (n <? 65536)%N then hex4 n
  else (if (n / 65536 <? 16)%N then String (hex_digit (n / 65536)) "" else hex_byte (n / 65536)) +:+
       hex4 (n mod 65536).

Definition is_control (n : N) : bool := (n <? 32)%N || (127 <=? n)%N && (n <? 160)%N.

Section Render.
(** [str.isprintable] of one character, a table of the Unicode database *)
Variable isprintable : string -> bool.

Definition render_character (character : string) : string :=
  let codepoint := decode_char character in
  if (character =? LF)%string || (character =? TAB_text)%string then character
  else if (32 <=? codepoint)%N && (codepoint <=? 126)%N || isprintable character then character
  else if (codepoint <=? 127)%N then BSL +:+ "x" +:+ hex_byte codepoint
  else BSL +:+ "u" +:+ hex_wide codepoint.

Definition _render_worker_text (text : string) : string :=
  of_chars (map render_character (utf8_chars text)).
End Render.

(** * What a run shows *)

Inductive channel : Type := Stdout | Stderr.

(** The sinks that both reading threads write under one lock, with the signals
    that a failing log sends to the process. *)
Record output : Type := mkOutput {
  out_terminal : list (channel * string);
  out_records : list string;
  out_log_error : option string;
  out_terminations : nat
}.

Definition no_output : output := mkOutput [] [] None 0.

Record sinks : Type := mkSinks {
  sk_isprintable : string -> bool;
  (** [execution_log.write]: the text of the exception it raises, if it does *)
  sk_execution_log : option (output -> string -> option string);
  (** [process.poll() is None] *)
  sk_running : output -> bool;
  sk_show_worker_output : bool
}.

Definition show (sk : sinks) (rendered : string) (stream : channel) (o : output) : output :=
  if sk_show_worker_output sk
  then mkOutput (out_terminal o ++ [(stream, rendered)]) (out_records o) (out_log_error o)
         (out_terminations o)
  else o.

(** [write] of [_run_opencode]; a [process.terminate()] that fails is ignored there *)
Definition write_worker (sk : sinks) (text : string) (stream : channel) (o : output) : output :=
  let rendered := _render_worker_text (sk_isprintable sk) text in
  if (rendered =? "")%string then o else
  match sk_execution_log sk with
  | None => show sk rendered stream o
  | Some log_write =>
      match log_write o rendered with
      | Some error =>
          mkOutput (out_terminal o) (out_records o) (Some ("execution log write failed: " +:+ error))
            (if sk_running sk o then S (out_terminations o) else out_terminations o)
      | None =>
          show sk rendered stream
            (mkOutput (out_terminal o) (out_records o ++ [rendered]) (out_log_error o)
               (out_terminations o))
      end
  end.

(** * The event stream *)

Definition _OPENCODE_JSON_TYPES : list string :=
  ["error"; "reasoning"; "step_finish"; "step_start"; "text"; "tool_use"].

Definition MAX_STDOUT_EVENT_BYTES : N := 1048576.

Definition _extract_error_message (error : pyval) : option string :=
  match error with
  | PStr error => Some error
  | PDict error =>
      match get error "message" with
      | PStr message => Some message
      | _ =>
          match get (dict_of (get error "data")) "message" with
          | PStr message => Some message
          | _ => str_opt (get error "name")
          end
      end
  | _ => None
  end.

(** [stream.readline(limit)] on bytes: at most [limit] of them, up to a line feed *)
Fixpoint readline (limit : N) (s : string) : string * string :=
  match s with
  | EmptyString => ("", "")
  | String c s' =>
      if (limit =? 0)%N then ("", s)
      else if (byte_val c =? 10)%N then (String c "", s')
      else let '(line, rest) := readline (N.pred limit) s' in (String c line, rest)
  end.

(** The loop that throws the rest of an oversized line away. *)
Fixpoint discard_line (fuel : nat) (s : string) : string :=
  match fuel with
  | O => s
  | S fuel =>
      let '(discarded, rest) := readline (MAX_STDOUT_EVENT_BYTES + 1) s in
      if (discarded =? "")%string then rest
      else if ends_with LF discarded then rest
      else discard_line fuel rest
  end.

(** What the thread of the standard output keeps, with the calls of [write] it has
    made; [H] is the state of the event handler. *)
Record reader (H : Type) : Type := mkReader {
  rd_transport_error : option string;
  rd_handler : H;
  rd_writes : list (string * channel);
  rd_service_log : list string
}.
Arguments mkReader {H}.
Arguments rd_transport_error {H}.
Arguments rd_handler {H}.
Arguments rd_writes {H}.
Arguments rd_service_log {H}.

Definition new_reader {H} (h : H) : reader H := mkReader None h [] [].

Section Reader.
Context {H : Type} (event_handler : option (H -> pyval -> res H)).

Definition protocol_violation (message : string) : py (reader H) unit :=
  py_modify (fun r => mkReader (Some message) (rd_handler r) (rd_writes r)
                        (rd_service_log r ++ ["OpenCode protocol error: " +:+ message])).

Definition write (text : string) (stream : channel) : py (reader H) unit :=
  py_modify (fun r => mkReader (rd_transport_error r) (rd_handler r)
                        (rd_writes r ++ [(text, stream)]) (rd_service_log r)).

Definition handle_event (event : pyval) : py (reader H) unit := fun r =>
  match event_handler with
  | None => (Ok tt, r)
  | Some handler =>
      match handler (rd_handler r) event with
      | Ok h => (Ok tt, mkReader (rd_transport_error r) h (rd_writes r) (rd_service_log r))
      | Raise e => (Raise e, r)
      end
  end.

Definition show_text (event : dict) : py (reader H) unit :=
  match get event "part" with
  | PDict part =>
      match get part "text" with
      | PStr text => write (text +:+ LF) Stdout
      | _ => protocol_violation "text event has no text part"
      end
  | _ => protocol_violation "text event has no text part"
  end.

(** The four tests of a tool event, in the order of the [or]. *)
Definition invalid_tool (part : pyval) : res bool :=
  if negb (is_dict part) then Ok true
  else if negb (is_str (get (dict_of part) "tool")) then Ok true
  else if negb (is_dict (get (dict_of part) "state")) then Ok true
  else known ← in_strs (get (dict_of (get (dict_of part) "state")) "status")
                 ["pending"; "running"; "completed"; "error"];
       Ok (negb known).

Definition show_tool_state (tool : string) (state : dict) : py (reader H) unit :=
  _ ← write ("OpenCode tool: " +:+ tool +:+ LF) Stdout;
  if eq_str (get state "status") "completed" then
    match get state "output" with
    | PStr output => write output Stdout
    | _ => mret tt
    end
  else if eq_str (get state "status") "error" then
    match _extract_error_message (get state "error") with
    | Some error => if (error =? "")%string then mret tt
                    else write ("OpenCode tool failed: " +:+ error) Stdout
    | None => mret tt
    end
  else mret tt.

Definition show_tool (event : dict) : py (reader H) unit :=
  let part := get event "part" in
  invalid ← py_lift (invalid_tool part);
  if (invalid : bool) then protocol_violation "invalid tool event on stdout"
  else show_tool_state (str_of (get (dict_of part) "tool")) (dict_of (get (dict_of part) "state")).

Definition show_error (event : dict) : py (reader H) unit :=
  match _extract_error_message (get event "error") with
  | Some error => if (error =? "")%string then mret tt
                  else write ("OpenCode error: " +:+ error +:+ LF) Stdout
  | None => mret tt
  end.

Definition route_event (event : pyval) : py (reader H) unit :=
  if negb (is_dict event) then protocol_violation "unsupported event on stdout" else
  let event := dict_of event in
  known ← py_lift (in_strs (get event "type") _OPENCODE_JSON_TYPES);
  if negb known then protocol_violation "unsupported event on stdout" else
  let event_type := get event "type" in
  if eq_str event_type "text" || eq_str event_type "reasoning" then show_text event
  else if eq_str event_type "tool_use" then show_tool event
  else if eq_str event_type "error" then show_error event
  else mret tt.

(** One event: the handler sees it before its type is looked at. *)
Definition consume_event (event : pyval) : py (reader H) unit :=
  _ ← handle_event event;
  route_event event.

(** [json.loads(raw_line.decode("utf-8"))] *)
Definition decode_line (raw_line : string) : option pyval :=
  if valid_utf8 raw_line then loads raw_line else None.

Definition consume_line (raw_line : string) : py (reader H) unit :=
  match decode_line raw_line with
  | None => protocol_violation "invalid JSON event on stdout"
  | Some event => consume_event event
  end.

(** The loop of the thread; its result is what it left unread, nothing unless
    an exception ended it. *)
Fixpoint consume_lines (fuel : nat) (s : string) : py (reader H) unit :=
  match fuel with
  | O => mret tt
  | S fuel =>
      let '(raw_line, rest) := readline (MAX_STDOUT_EVENT_BYTES + 1) s in
      if (raw_line =? "")%string then mret tt
      else if (MAX_STDOUT_EVENT_BYTES <? N.of_nat (String.length raw_line))%N then
        _ ← protocol_violation "stdout event exceeds maximum size";
        consume_lines fuel
          (if negb (ends_with LF raw_line) then discard_line fuel rest else rest)
      else
        _ ← consume_line raw_line;
        consume_lines fuel rest
  end.

Definition consume_stdout (s : string) : py (reader H) unit :=
  consume_lines (S (String.length s)) s.
End Reader.

(** ** The error stream *)

(** U+FFFD *)
Definition replacement : string := bytes_of [239; 191; 189]%N.

(** The continuation bytes a lead byte asks for: how many, and the range of the first. *)
Definition lead_byte (b : N) : option (nat * N * N) :=
  if (b <? 128)%N then Some (0, 0%N, 0%N)
  else if (b <? 194)%N then None
  else if (b <? 224)%N then Some (1, 128%N, 191%N)
  else if (b =? 224)%N then Some (2, 160%N, 191%N)
  else if (b =? 237)%N then Some (2, 128%N, 159%N)
  else if (b <? 240)%N then Some (2, 128%N, 191%N)
  else if (b =? 240)%N then Some (3, 144%N, 191%N)
  else if (b <? 244)%N then Some (3, 128%N, 191%N)
  else if (b =? 244)%N then Some (3, 128%N, 143%N)
  else None.

(** The continuation bytes that are there, and whether that is all of them. *)
Fixpoint continuation (n : nat) (lo hi : N) (s : string) : string * bool * string :=
  match n with
  | O => ("", true, s)
  | S n =>
      match s with
      | String c s' =>
          if byte_in lo hi c
          then let '(t, whole, rest) := continuation n 128 191 s' in (String c t, whole, rest)
          else ("", false, s)
      | EmptyString => ("", false, s)
      end
  end.

(** [raw.decode("utf-8", errors="replace")] *)
Fixpoint decode_replace (fuel : nat) (s : string) : string :=
  match fuel, s with
  | S fuel, String c s' =>
      match lead_byte (byte_val c) with
      | None => replacement +:+ decode_replace fuel s'
      | Some (n, lo, hi) =>
          let '(t, whole, rest) := continuation n lo hi s' in
          (if whole then String c t else replacement) +:+ decode_replace fuel rest
      end
  | _, _ => ""
  end.

Definition decode_with_replacement (s : string) : string := decode_replace (String.length s) s.

(** [stream.read(4096)] on bytes, until nothing is left *)
Fixpoint read_chunks (fuel n : nat) (s : string) : list string :=
  match fuel, s with
  | S fuel, String _ _ => take_bytes n s :: read_chunks fuel n (drop_bytes n s)
  | _, _ => []
  end.

Definition STDERR_CHUNK : nat := 4096.

(** The calls of [write] that [consume_stderr] makes. *)
Definition consume_stderr (s : string) : list (string * channel) :=
  map (fun raw_chunk => (decode_with_replacement raw_chunk, Stderr))
    (read_chunks (String.length s) STDERR_CHUNK s).

(** ** Both threads *)

(** The calls of two threads in an order that the lock may give them. *)
Inductive interleaving {A} : list A -> list A -> list A -> Prop :=
  | il_nil : interleaving [] [] []
  | il_left x l1 l2 l : interleaving l1 l2 l -> interleaving (x :: l1) l2 (x :: l)
  | il_right x l1 l2 l : interleaving l1 l2 l -> interleaving l1 (x :: l2) (x :: l).

Definition write_all_calls (sk : sinks) (calls : list (string * channel)) : output :=
  foldl (fun o call => write_worker sk call.1 call.2 o) no_output calls.

(** ** The prompt *)

Inductive written : Type :=
  | Written (count : nat)
  | WriteFails (error : string).

Record stdin_pipe : Type := mkPipe {
  (** what [stdin.write(remaining)] does after the bytes already delivered *)
  pp_write : string -> string -> written;
  pp_flush : string -> option string
}.

Fixpoint deliver (pipe : stdin_pipe) (fuel : nat) (delivered remaining : string) : option string * string :=
  match fuel with
  | O => (None, delivered)
  | S fuel =>
      if (remaining =? "")%string
      then (pp_flush pipe delivered, delivered)
      else match pp_write pipe delivered remaining with
           | WriteFails error => (Some error, delivered)
           | Written O => (Some "worker stdin accepted no prompt bytes", delivered)
           | Written (S n) =>
               deliver pipe fuel (delivered +:+ take_bytes (S n) remaining) (drop_bytes (S n) remaining)
           end
  end.

(** [deliver_prompt]: [prompt_error] and the bytes the worker was given.  Text
    with a surrogate has no UTF-8 form, and that [ValueError] is caught. *)
Definition deliver_prompt (pipe : option stdin_pipe) (encode_error : string) (prompt : string)
    : option string * string :=
  match pipe with
  | None => (None, "")
  | Some pipe =>
      let '(error, delivered) :=
        if valid_utf8 prompt then deliver pipe (S (String.length prompt)) "" prompt
        else (Some encode_error, "") in
      (match error with
       | Some error => Some ("worker prompt delivery failed: " +:+ error)
       | None => None
       end, delivered)
  end.

(** ** The environment *)

Definition _HOST_CONTROL_ENVIRONMENT : list string :=
  ["NOTIFY_SOCKET"; "WATCHDOG_PID"; "WATCHDOG_USEC"; "DEVLEGATE_HOST_MODE"; "DEVLEGATE_REQUIRE_NOTIFY";
   "DEVLEGATE_STARTUP_FD"; "DEVLEGATE_RESTART_AUTHORITY_FD"; "DEVLEGATE_RESTART_AUTHORITY_KEY";
   "DEVLEGATE_RESTART_REQUEST"; "DEVLEGATE_RESTART_INSTANCE"; "PEX"; "SCIE"; "SCIE_ARGV0";
   "__PEX_ENTRY_POINT__"; "_PEX_CACHE_ACCESS_LOCK"].

Definition host_controlled (name : string) : bool :=
  bool_decide (name ∈ _HOST_CONTROL_ENVIRONMENT) ||
  (starts_with "PEX_" name || starts_with "SCIE_" name) ||
  starts_with "__PEX" name || starts_with "_PEX_" name.

Definition worker_environment (environment : list (string * string)) : list (string * string) :=
  foldl (fun worker_env name => if host_controlled name then dpop worker_env name else worker_env)
    environment (keys environment).

(** * Laws *)

(** ** Text *)

(** A Python string: code points, surrogates included. *)
Definition code_point (c : string) : Prop := exists n, (n < 1114112)%N /\ c = encode_char n.
Definition python_text (s : string) : Prop := Forall code_point (utf8_chars s).

Lemma decode_encode_any n : (n < 1114112)%N -> decode_char (encode_char n) = n.
Proof.
  intros Hn. unfold encode_char.
  destruct (N.ltb_spec n 128); [|destruct (N.ltb_spec n 2048); [|destruct (N.ltb_spec n 65536)]];
    unfold bytes_of; cbn [map String.string_of_list_ascii decode_char];
    rewrite ?byte_val_ascii by div_lia; div_lia.
Qed.

Lemma hex_byte_ascii n : (n < 256)%N -> ascii_text (hex_byte n) = true.
Proof.
  intros Hn. unfold hex_byte, ascii_text. cbn [all_bytes].
  rewrite !hex_digit_ascii by div_lia. done.
Qed.

Lemma ascii_text_app s t : ascii_text (s +:+ t) = ascii_text s && ascii_text t.
Proof. apply all_bytes_app. Qed.

(** Printable: a text that leaves a terminal alone, line feeds and tabs aside. *)
Definition inert_char (c : string) : Prop :=
  c = LF \/ c = TAB_text \/ is_control (decode_char c) = false.
Definition inert (s : string) : Prop := utf8_text s /\ Forall inert_char (utf8_chars s).

Lemma inert_app s t : inert s -> inert t -> inert (s +:+ t).
Proof.
  intros [Us Is] [Ut It]. split; [by apply utf8_text_app|].
  rewrite utf8_chars_app by (by apply utf8_starts). by apply Forall_app.
Qed.

Lemma inert_of_chars l : Forall inert l -> inert (of_chars l).
Proof.
  induction 1 as [|c l Hc _ IH]; [by split; constructor|]. rewrite of_chars_cons. by apply inert_app.
Qed.

(** The printable ASCII texts that the escapes are made of. *)
Definition visible_byte (c : Ascii.ascii) : bool := byte_in 32 126 c.

Lemma visible_inert s : all_bytes visible_byte s = true -> inert s.
Proof.
  intros H. split.
  { apply ascii_utf8. unfold ascii_text. induction s as [|c s IH]; [done|]. cbn [all_bytes] in *.
    bsplit. apply andb_true_iff. split; [|auto]. unfold visible_byte, byte_in in *. bsplit.
    apply N.ltb_lt. rewrite N.leb_le in *. lia. }
  induction s as [|c s IH]; [constructor|]. cbn [all_bytes] in H. bsplit.
  change (String c s) with (String c "" +:+ s). rewrite utf8_chars_app.
  - apply Forall_app. split; [|auto]. constructor; [right; right|constructor]. cbn. unfold is_control.
    unfold visible_byte, byte_in in *. bsplit. rewrite N.leb_le in *.
    apply orb_false_iff. rewrite andb_false_iff, !N.ltb_ge, N.leb_gt. split; [lia|left; lia].
  - destruct s as [|d s]; [done|]. cbn [all_bytes starts_char] in *. bsplit.
    unfold visible_byte, byte_in, is_cont in *. bsplit. rewrite N.leb_le in *.
    apply negb_true_iff, andb_false_iff. left. rewrite N.leb_gt. lia.
Qed.

Lemma hex_digit_visible d : (d < 16)%N -> visible_byte (hex_digit d) = true.
Proof.
  intros H. unfold visible_byte, byte_in, hex_digit.
  destruct (N.ltb_spec d 10); rewrite byte_val_ascii by lia; apply andb_true_iff; rewrite !N.leb_le; lia.
Qed.

Lemma hex_byte_visible n : (n < 256)%N -> all_bytes visible_byte (hex_byte n) = true.
Proof. intros Hn. unfold hex_byte. cbn [all_bytes]. by rewrite !hex_digit_visible by div_lia. Qed.

Lemma hex_wide_visible n : (n < 1114112)%N -> all_bytes visible_byte (hex_wide n) = true.
Proof.
  intros Hn. unfold hex_wide, hex4.
  destruct (N.ltb_spec n 65536).
  - rewrite all_bytes_app, !hex_byte_visible by div_lia. done.
  - rewrite !all_bytes_app, !hex_byte_visible by div_lia.
    destruct (N.ltb_spec (n / 65536) 16); cbn [all_bytes];
      rewrite ?hex_digit_visible, ?hex_byte_visible by div_lia; done.
Qed.

(** A character is one character. *)
Lemma all_cont_joined a t : is_cont a = false -> all_bytes is_cont t = true ->
  utf8_chars (String a t) = [String a t].
Proof.
  revert a. induction t as [|b t IH]; intros a Ha Ht; [done|]. cbn [all_bytes] in Ht. bsplit.
  cbn [utf8_chars]. assert (utf8_chars (String b t) = [String b t]) as E.
  { clear Ha IH. revert b H. induction t as [|d t IH]; intros b Hb; [done|]. cbn [all_bytes] in H0. bsplit.
    cbn [utf8_chars]. cbn [utf8_chars] in IH. rewrite (IH H0 d H). by rewrite H. }
  cbn [utf8_chars] in E. rewrite E. by rewrite H.
Qed.

Lemma one_char n : (n < 1114112)%N -> utf8_chars (encode_char n) = [encode_char n].
Proof.
  intros Hn. unfold encode_char.
  destruct (N.ltb_spec n 128); [done|destruct (N.ltb_spec n 2048); [|destruct (N.ltb_spec n 65536)]];
    unfold bytes_of; cbn [map String.string_of_list_ascii]; apply all_cont_joined; cbn [all_bytes];
    unfold is_cont; rewrite ?byte_val_ascii by div_lia; rewrite ?andb_true_iff, ?andb_false_iff, ?N.leb_le,
      ?N.ltb_lt, ?N.leb_gt, ?N.ltb_ge; repeat split; try done; div_lia.
Qed.

Lemma scalar_range n : scalar n -> (n < 1114112)%N.
Proof. unfold scalar. lia. Qed.

Lemma LF_inert : inert LF.
Proof. split; [by apply ascii_utf8|]. constructor; [by left|constructor]. Qed.

Lemma TAB_inert : inert TAB_text.
Proof. split; [by apply ascii_utf8|]. constructor; [right; by left|constructor]. Qed.

Section RenderLaws.
Context (isprintable : string -> bool).

(** Python's documentation of [isprintable]: no control character and no
    surrogate is printable. *)
Definition printable_table : Prop := forall n, (n < 1114112)%N ->
  isprintable (encode_char n) = true -> scalar n /\ is_control n = false.

Hypothesis table : printable_table.

Lemma encoded_inert n : scalar n -> inert_char (encode_char n) -> inert (encode_char n).
Proof.
  intros Hn Hc. pose proof (encode_char_utf8 n Hn) as U. split; [done|].
  rewrite one_char by (by apply scalar_range). by constructor.
Qed.

Lemma render_character_inert n : (n < 1114112)%N ->
  inert (render_character isprintable (encode_char n)).
Proof.
  intros Hn. unfold render_character. rewrite decode_encode_any by done.
  destruct (_ || _) eqn:E1.
  { apply orb_true_iff in E1 as [E1|E1]; bsplit; rewrite E1;
      [exact LF_inert|exact TAB_inert]. }
  destruct (_ || isprintable _) eqn:E2.
  - apply orb_true_iff in E2 as [E2|E2].
    + bsplit. rewrite N.leb_le in *. apply encoded_inert; [left; lia|]. right. right.
      rewrite decode_encode_any by done. unfold is_control.
      apply orb_false_iff. rewrite andb_false_iff, !N.ltb_ge, N.leb_gt. split; [lia|left; lia].
    + destruct (table n Hn E2) as [Hs Hc]. apply encoded_inert; [done|]. right. right.
      by rewrite decode_encode_any.
  - destruct (N.leb_spec n 127); apply visible_inert; rewrite !all_bytes_app, ?hex_byte_visible,
      ?hex_wide_visible by lia; reflexivity.
Qed.

Lemma render_inert text : python_text text -> inert (_render_worker_text isprintable text).
Proof.
  intros Ht. apply inert_of_chars, Forall_fmap. eapply Forall_impl; [exact Ht|].
  intros c (n & Hn & ->). by apply render_character_inert.
Qed.

(** Text that is printable already is shown as it is. *)
Lemma render_printable text :
  Forall (fun c => c = LF \/ c = TAB_text \/ isprintable c = true) (utf8_chars text) ->
  _render_worker_text isprintable text = text.
Proof.
  intros H. unfold _render_worker_text. rewrite <- (of_utf8_chars text) at 2. f_equal.
  rewrite <- (map_id (utf8_chars text)) at 2. apply map_ext_in. intros c Hc.
  apply list_elem_of_In in Hc. rewrite Forall_forall in H. unfold render_character.
  destruct (H c Hc) as [Hl | [Hl | Hl] ]; rewrite Hl; [done|done|]. rewrite orb_true_r. by destruct (_ || _).
Qed.
End RenderLaws.

(** ** Lines *)

(** The lines of a byte stream, each with its line feed. *)
Fixpoint lf_lines (s : string) : list string :=
  match s with
  | EmptyString => []
  | String c s' =>
      if (byte_val c =? 10)%N then String c "" :: lf_lines s'
      else match lf_lines s' with
           | [] => [String c ""]
           | l :: ls => String c l :: ls
           end
  end.

Lemma readline_split limit s : s = (readline limit s).1 +:+ (readline limit s).2.
Proof.
  revert limit. induction s as [|c s IH]; intros limit; [done|]. cbn [readline].
  destruct (_ =? 0)%N; [done|]. destruct (_ =? 10)%N; [done|].
  specialize (IH (N.pred limit)). destruct (readline _ s) as [line rest]. cbn in *.
  by rewrite str_app_cons, <- IH.
Qed.

Lemma readline_empty limit s : (0 < limit)%N -> (readline limit s).1 = "" -> s = "".
Proof.
  intros Hl. destruct s as [|c s]; [done|]. cbn [readline].
  destruct (N.eqb_spec limit 0); [lia|]. destruct (_ =? 10)%N; [done|].
  by destruct (readline _ s).
Qed.

Lemma readline_length limit s :
  String.length (readline limit s).1 + String.length (readline limit s).2 = String.length s.
Proof. rewrite (readline_split limit s) at 3. by rewrite str_app_length. Qed.

(** A line shorter than the limit is a whole line. *)
Lemma readline_whole limit s : s <> "" -> (N.of_nat (String.length (readline limit s).1) < limit)%N ->
  lf_lines s = (readline limit s).1 :: lf_lines (readline limit s).2.
Proof.
  revert limit. induction s as [|c s IH]; intros limit Hs Hl; [done|]. cbn [readline lf_lines] in *.
  destruct (N.eqb_spec limit 0) as [->|H0]; [cbn in Hl; lia|].
  destruct (_ =? 10)%N; [done|]. specialize (IH (N.pred limit)).
  destruct (readline _ s) as [line rest] eqn:E. cbn [fst snd String.length] in *.
  destruct s as [|d s].
  - cbn in E. injection E as <- <-. done.
  - rewrite IH by (done || lia). done.
Qed.

(** The first line of a stream is at least as long as what a reading of it gives. *)
Lemma readline_first limit s l ls : lf_lines s = l :: ls ->
  String.length (readline limit s).1 <= String.length l.
Proof.
  revert limit l ls. induction s as [|c s IH]; intros limit l ls E; [done|].
  cbn [readline lf_lines] in *. destruct (limit =? 0)%N; [cbn; lia|].
  destruct (_ =? 10)%N; [injection E as <- <-; done|].
  specialize (IH (N.pred limit)). destruct (readline _ s) as [line rest] eqn:Er.
  destruct (lf_lines s) as [|l' ls'] eqn:El.
  - injection E as <- <-. destruct s as [|d s]; [|cbn [lf_lines] in El; repeat case_match; done].
    cbn in Er. injection Er as <- <-. done.
  - injection E as <- <-. cbn. specialize (IH _ _ eq_refl). cbn in IH. lia.
Qed.

(** ** Events *)

(** What an event of the stream has to be. *)
Definition valid_event (event : pyval) : bool :=
  match event with
  | PDict d =>
      existsb (eq_str (get d "type")) _OPENCODE_JSON_TYPES &&
      let part := get d "part" in
      if eq_str (get d "type") "text" || eq_str (get d "type") "reasoning"
      then is_dict part && is_str (get (dict_of part) "text")
      else if eq_str (get d "type") "tool_use"
      then is_dict part && is_str (get (dict_of part) "tool") &&
           is_dict (get (dict_of part) "state") &&
           existsb (eq_str (get (dict_of (get (dict_of part) "state")) "status"))
             ["pending"; "running"; "completed"; "error"]
      else true
  | _ => false
  end.

Lemma Some_is_Some {A} (x : A) : is_Some (Some x).
Proof. by eexists. Qed.

#[local] Hint Resolve Some_is_Some : core.

(** The state a finished statement leaves. *)
Ltac outcome := eexists; split; [reflexivity|]; split; [reflexivity|]; cbn; by eauto.

Section ReaderLaws.
Context {H : Type} (event_handler : option (H -> pyval -> res H)).

Definition handler_step (h : H) (event : pyval) : res H :=
  match event_handler with Some handler => handler h event | None => Ok h end.

Lemma show_text_outcome d r :
  let valid := is_dict (get d "part") && is_str (get (dict_of (get d "part")) "text") in
  exists r', show_text (H := H) d r = (Ok tt, r') /\ rd_handler r' = rd_handler r /\
    (if valid then rd_transport_error r' = rd_transport_error r else is_Some (rd_transport_error r')).
Proof.
  unfold show_text. destruct (get d "part") as [| | | | | |part]; cbn [is_dict andb dict_of]; try outcome.
  destruct (get part "text"); outcome.
Qed.

(** A statement that only writes. *)
Definition quiet (m : py (reader H) unit) : Prop := forall r, exists r',
  m r = (Ok tt, r') /\ rd_handler r' = rd_handler r /\ rd_transport_error r' = rd_transport_error r.

Lemma quiet_write text stream : quiet (write text stream).
Proof. intros r. outcome. Qed.

Lemma quiet_ret : quiet (mret tt).
Proof. intros r. outcome. Qed.

Lemma quiet_bind m k : quiet m -> quiet k -> quiet (_ ← m; k).
Proof.
  intros Hm Hk r. destruct (Hm r) as (r1 & E1 & <- & <-). destruct (Hk r1) as (r2 & E2 & <- & <-).
  exists r2. run. by rewrite E1, E2.
Qed.

Lemma quiet_error d : quiet (show_error d).
Proof. unfold show_error. repeat case_match; first [apply quiet_write|apply quiet_ret]. Qed.

Lemma quiet_tool_state tool d : quiet (show_tool_state tool d).
Proof.
  apply quiet_bind; [apply quiet_write|]. repeat case_match; first [apply quiet_write|apply quiet_ret].
Qed.

Lemma show_tool_outcome d r :
  let part := get d "part" in
  let valid := is_dict part && is_str (get (dict_of part) "tool") &&
    is_dict (get (dict_of part) "state") &&
    existsb (eq_str (get (dict_of (get (dict_of part) "state")) "status"))
      ["pending"; "running"; "completed"; "error"] in
  match show_tool (H := H) d r with
  | (Ok _, r') => rd_handler r' = rd_handler r /\
      (if valid then rd_transport_error r' = rd_transport_error r else is_Some (rd_transport_error r'))
  | (Raise _, _) => valid = false
  end.
Proof.
  unfold show_tool, invalid_tool. run.
  destruct (get d "part") as [| | | | | |part]; cbn [is_dict negb andb dict_of]; try (cbn; split; [done|by eauto]).
  destruct (get part "tool") as [| | | |tool| |]; cbn [is_str negb andb]; try (cbn; split; [done|by eauto]).
  destruct (get part "state") as [| | | | | |st]; cbn [is_dict negb andb dict_of];
    try (cbn; split; [done|by eauto]).
  unfold in_strs. destruct (hashable (get st "status")) eqn:Eh.
  - destruct (existsb _ _) eqn:E; cbn [mbind res_bind negb]; [|by (cbn; split; [done|eauto])].
    cbn [str_of]. by destruct (quiet_tool_state tool st r) as (r' & -> & ? & ?).
  - cbn. by destruct (get st "status").
Qed.

Lemma route_outcome event (r : reader H) :
  match route_event event r with
  | (Ok _, r') => rd_handler r' = rd_handler r /\
      (if valid_event event then rd_transport_error r' = rd_transport_error r
       else is_Some (rd_transport_error r'))
  | (Raise _, _) => valid_event event = false
  end.
Proof.
  unfold route_event. destruct event as [| | | | | |d]; cbn [is_dict negb valid_event dict_of];
    try (cbn; split; [done|by eauto]).
  run. unfold in_strs. destruct (hashable _) eqn:Eh.
  2: { by destruct (get d "type"). }
  set (t := get d "type") in *. destruct (existsb (eq_str t) _) eqn:Et; cbn [negb andb];
    [|by (cbn; split; [done|eauto])].
  destruct (eq_str t "text" || _).
  { destruct (show_text_outcome d r) as (r' & -> & -> & Hr'). split; [done|]. exact Hr'. }
  destruct (eq_str t "tool_use"); [apply show_tool_outcome|].
  destruct (eq_str t "error"); [|by cbn].
  by destruct (quiet_error d r) as (r' & -> & -> & Hr').
Qed.

Lemma event_outcome event (r : reader H) :
  match consume_event event_handler event r with
  | (Ok _, r') => handler_step (rd_handler r) event = Ok (rd_handler r') /\
      (if valid_event event then rd_transport_error r' = rd_transport_error r
       else is_Some (rd_transport_error r'))
  | (Raise x, _) => handler_step (rd_handler r) event = Raise x \/ valid_event event = false
  end.
Proof.
  unfold consume_event, handler_step. run. unfold handle_event.
  destruct event_handler as [handler|]; [destruct (handler (rd_handler r) event) as [h|x] eqn:Eh|];
    [| by left |].
  - pose proof (route_outcome event (mkReader (rd_transport_error r) h (rd_writes r) (rd_service_log r))) as Hr.
    destruct (route_event _ _) as [[u|x] r']; [|by right]. destruct Hr as [-> ?]. done.
  - pose proof (route_outcome event r) as Hr.
    destruct (route_event _ _) as [[u|x] r']; [|by right]. destruct Hr as [-> ?]. done.
Qed.

(** An error of the protocol is never forgotten. *)
Lemma line_keeps_error raw_line r : is_Some (rd_transport_error r) ->
  is_Some (rd_transport_error (consume_line event_handler raw_line r).2) \/
  exists x, (consume_line event_handler raw_line r).1 = Raise x.
Proof.
  intros Hr. unfold consume_line. destruct (decode_line raw_line) as [event|]; [|by left; eauto].
  pose proof (event_outcome event r) as E. destruct (consume_event _ event r) as [[u|x] r']; [|by eauto].
  left. cbn. destruct E as [_ E]. destruct (valid_event event); [by rewrite E|done].
Qed.

Lemma lines_keep_error fuel s r : is_Some (rd_transport_error r) ->
  is_Some (rd_transport_error (consume_lines event_handler fuel s r).2) \/
  exists x, (consume_lines event_handler fuel s r).1 = Raise x.
Proof.
  revert s r. induction fuel as [|fuel IH]; intros s r Hr; [by left|]. cbn [consume_lines].
  destruct (readline _ s) as [raw_line rest]. destruct (raw_line =? "")%string; [by left|].
  destruct (_ <? _)%N; run; [by apply IH; eauto|].
  pose proof (line_keeps_error raw_line r Hr) as Hl.
  destruct (consume_line _ raw_line r) as [[u|x] r']; [|by right; eauto].
  destruct Hl as [Hl|[x Hl]]; [by apply IH|done].
Qed.

Lemma error_is_final fuel s r r' : is_Some (rd_transport_error r) ->
  consume_lines event_handler fuel s r = (Ok tt, r') -> rd_transport_error r' <> None.
Proof.
  intros Hr E Ht. destruct (lines_keep_error fuel s r Hr) as [Hk|[x Hk]]; rewrite E in Hk; cbn in Hk.
  - rewrite Ht in Hk. by destruct Hk.
  - done.
Qed.

(** The line of an event that the protocol allows. *)
Definition event_line (line : string) (event : pyval) : Prop :=
  (N.of_nat (String.length line) <= MAX_STDOUT_EVENT_BYTES)%N /\
  decode_line line = Some event /\ valid_event event = true.

Lemma lines_accepted fuel s r h : String.length s < fuel -> rd_transport_error r = None ->
  (exists r', consume_lines event_handler fuel s r = (Ok tt, r') /\
     rd_transport_error r' = None /\ rd_handler r' = h) <->
  (exists events, Forall2 event_line (lf_lines s) events /\
     res_fold handler_step (rd_handler r) events = Ok h).
Proof.
  revert s r. induction fuel as [|fuel IH]; intros s r Hf Hr; [lia|]. cbn [consume_lines].
  pose proof (readline_length (MAX_STDOUT_EVENT_BYTES + 1) s) as Hlen.
  pose proof (readline_empty (MAX_STDOUT_EVENT_BYTES + 1) s ltac:(done)) as Hempty.
  pose proof (readline_whole (MAX_STDOUT_EVENT_BYTES + 1) s) as Hwhole.
  pose proof (readline_first (MAX_STDOUT_EVENT_BYTES + 1) s) as Hfirst.
  destruct (readline _ s) as [raw_line rest]. cbn [fst snd] in *.
  destruct (String.eqb_spec raw_line "") as [->|Hne].
  { rewrite (Hempty eq_refl). cbn. split.
    - intros (r' & [= <-] & _ & <-). exists []. by split; [constructor|].
    - intros (events & He & Hh). inversion He; subst. injection Hh as <-. by exists r. }
  assert (s <> "") as Hs by (intros ->; cbn in Hlen; destruct raw_line; [done|cbn in Hlen; lia]).
  destruct (N.ltb_spec MAX_STDOUT_EVENT_BYTES (N.of_nat (String.length raw_line))) as [Hbig|Hsmall].
  - (* an oversized line *)
    split.
    + intros (r' & E & Ht & _). refine (False_ind _ (error_is_final fuel _ _ r' _ E Ht)). cbn. by eauto.
    + intros (events & He & _). exfalso. destruct (lf_lines s) as [|l ls] eqn:El.
      { destruct s as [|c s]; [done|]. cbn [lf_lines] in El. by repeat case_match. }
      inversion He as [|? e ? es (Hl & _) _]; subst. specialize (Hfirst l ls eq_refl). lia.
  - rewrite (Hwhole Hs) by lia. rewrite py_bind_run.
    assert (Hrest : String.length rest < fuel) by (destruct raw_line; [done|cbn in Hlen; lia]).
    unfold consume_line. destruct (decode_line raw_line) as [event|] eqn:Ed.
    + pose proof (event_outcome event r) as Ho. destruct (consume_event _ event r) as [[u|x] r1].
      * destruct Ho as [Hh Ho]. destruct (valid_event event) eqn:Ev.
        -- rewrite (IH rest r1 Hrest ltac:(congruence)). split.
           ++ intros (events & He & Hf'). exists (event :: events). split; [by constructor|].
              cbn. by rewrite Hh.
           ++ intros (events & He & Hf'). inversion He as [|? e ? es (_ & E & _) Hes]; subst.
              assert (e = event) as -> by congruence. cbn in Hf'. rewrite Hh in Hf'. eauto.
        -- split.
           ++ intros (r' & E & Ht & _). by destruct (error_is_final fuel _ _ r' Ho E Ht).
           ++ intros (events & He & _). inversion He as [|? e ? es (_ & E & Hv) Hes]; subst. congruence.
      * split; [by intros (r' & E & _)|]. intros (events & He & Hf').
        inversion He as [|? e ? es (_ & E & Hv) Hes]; subst. assert (e = event) as -> by congruence.
        destruct Ho as [Ho|Ho]; [|congruence]. cbn in Hf'. by rewrite Ho in Hf'.
    + unfold protocol_violation, py_modify. split.
      * intros (r' & E & Ht & _). refine (False_ind _ (error_is_final fuel _ _ r' _ E Ht)). cbn. by eauto.
      * intros (events & He & _). inversion He as [|? e ? es (_ & E & Hv) Hes]; subst. congruence.
Qed.
End ReaderLaws.
