(* ===== verification/WorkerText.v ===== *)
(** The text that a worker's streams carry is made of code points, whatever bytes
    arrive: the strings of a parsed event, and the decoding of the error stream.
    Both reach an operator only through the rendering of [WorkerStream]. *)

From S2P Require Export WorkerStream.

(** * Text from bytes *)

Lemma code_points_start l : Forall code_point l -> starts_char (of_chars l) = true.
Proof.
  intros [|c cs (n & Hn & ->) _]; [done|]. rewrite of_chars_cons.
  unfold encode_char, bytes_of, starts_char, is_cont.
  destruct (N.ltb_spec n 128); [|destruct (N.ltb_spec n 2048); [|destruct (N.ltb_spec n 65536)]];
    cbn [map String.string_of_list_ascii]; rewrite str_app_cons, byte_val_ascii by div_lia;
    apply negb_true_iff, andb_false_iff; rewrite N.leb_gt, N.ltb_ge; div_lia.
Qed.

Lemma code_points_text l : Forall code_point l -> python_text (of_chars l).
Proof.
  unfold python_text. induction 1 as [|c l (n & Hn & ->) Hl IH]; [constructor|].
  rewrite of_chars_cons, utf8_chars_app, one_char by (done || by apply code_points_start).
  constructor; [by exists n|done].
Qed.

Lemma python_chars s : python_text s <-> exists l, Forall code_point l /\ s = of_chars l.
Proof.
  split; [|intros (l & Hl & ->); by apply code_points_text].
  intros Hs. exists (utf8_chars s). by rewrite of_utf8_chars.
Qed.

Lemma python_app s t : python_text s -> python_text t -> python_text (s +:+ t).
Proof.
  rewrite !python_chars. intros (l & Hl & ->) (m & Hm & ->). exists (l ++ m).
  rewrite of_chars_app. split; [by apply Forall_app|done].
Qed.

Lemma utf8_python s : utf8_text s -> python_text s.
Proof.
  intros Hs. eapply Forall_impl; [exact Hs|]. intros c (n & Hn & ->). exists n.
  split; [by apply scalar_range|done].
Qed.

Lemma code_point_text n : (n < 1114112)%N -> python_text (encode_char n).
Proof. intros Hn. unfold python_text. rewrite one_char by done. constructor; [by exists n|done]. Qed.

(** The front of a text: an ASCII byte, or a longer character. *)
Lemma utf8_front s : utf8_text s -> s = "" \/
  (exists c s', s = String c s' /\ (byte_val c < 128)%N /\ utf8_text s') \/
  (exists n s', scalar n /\ (128 <= n)%N /\ s = encode_char n +:+ s' /\ utf8_text s').
Proof.
  intros Hs. rewrite <- (of_utf8_chars s). unfold utf8_text in Hs.
  destruct Hs as [|c cs (n & Hn & ->) Hcs]; [by left|right]. rewrite of_chars_cons.
  assert (utf8_text (of_chars cs)) as Hrest.
  { apply utf8_of_chars. eapply Forall_impl; [exact Hcs|]. intros c (m & Hm & ->). by apply encode_char_utf8. }
  destruct (N.ltb_spec n 128) as [Hlt|Hge]; [left|right; eauto 10].
  unfold encode_char. destruct (N.ltb_spec n 128); [|lia]. unfold bytes_of.
  cbn [map String.string_of_list_ascii]. eexists _, _. split; [by rewrite str_app_cons|].
  by rewrite byte_val_ascii by lia.
Qed.

Lemma utf8_tail c s : utf8_text (String c s) -> (byte_val c < 128)%N -> utf8_text s.
Proof.
  intros Hs Hc. destruct (utf8_front _ Hs) as [?|[(d & s' & [= <- <-] & _ & Hs')|(n & s' & Hn & Hge & E & _)]];
    [done|done|].
  destruct (encode_bytes n Hn Hge) as [Hne Hb]. destruct (encode_char n) as [|d w]; [done|].
  rewrite str_app_cons in E. injection E as <- _. cbn in Hb. apply Forall_cons in Hb as [Hb _]. lia.
Qed.

Lemma ws_byte c : is_ws c = true -> (byte_val c < 128)%N.
Proof.
  unfold is_ws. intros H. cbn [existsb] in H. rewrite !orb_true_iff, !N.eqb_eq in H. lia.
Qed.

Lemma utf8_skip_ws s : utf8_text s -> utf8_text (skip_ws s).
Proof.
  induction s as [|c s IH]; intros Hs; [done|]. cbn [skip_ws]. destruct (is_ws c) eqn:E; [|done].
  apply IH, (utf8_tail c); [done|by apply ws_byte].
Qed.

Lemma hex_byte_val c n : hex_val c = Some n -> (byte_val c < 128)%N /\ (n < 16)%N.
Proof.
  unfold hex_val, byte_in. intros H. repeat case_match; try done; injection H as <-; bsplit;
    rewrite N.leb_le in *; lia.
Qed.

Lemma utf8_hex4 s n r : utf8_text s -> parse_hex4 s = Some (n, r) -> utf8_text r /\ (n < 65536)%N.
Proof.
  intros Hs H. destruct s as [|a [|b [|c [|d s]]]]; try done. unfold parse_hex4 in H.
  destruct (hex_val a) as [w|] eqn:Ea; [|done]. destruct (hex_val b) as [x|] eqn:Eb; [|done].
  destruct (hex_val c) as [y|] eqn:Ec; [|done]. destruct (hex_val d) as [z|] eqn:Ed; [|done].
  cbn in H. injection H as <- <-. apply hex_byte_val in Ea, Eb, Ec, Ed.
  split; [|lia]. do 4 (apply utf8_tail in Hs; [|naive_solver]). done.
Qed.

Lemma utf8_unicode s ch r : utf8_text s -> parse_unicode s = Some (ch, r) -> python_text ch /\ utf8_text r.
Proof.
  intros Hs H. unfold parse_unicode in H. destruct (parse_hex4 s) as [[n s1]|] eqn:E; [|done].
  destruct (utf8_hex4 _ _ _ Hs E) as [Hs1 Hn]. cbn in H.
  assert (python_text (encode_char n)) as Hc by (apply code_point_text; lia).
  destruct (is_high n) eqn:Eh; [|by injection H as <- <-].
  destruct s1 as [|b [|u s2]]; try by injection H as <- <-.
  destruct (_ && _) eqn:Eb; [|by injection H as <- <-]. bsplit. rewrite N.eqb_eq in *.
  destruct (parse_hex4 s2) as [[m s3]|] eqn:E2; [|done].
  assert (utf8_text s2) as Hs2 by (do 2 (apply utf8_tail in Hs1; [|lia]); done).
  destruct (utf8_hex4 _ _ _ Hs2 E2) as [Hs3 Hm].
  destruct (is_low m) eqn:El; [|by injection H as <- <-]. injection H as <- <-. split; [|done].
  apply code_point_text. unfold is_high, is_low in *. bsplit. rewrite N.leb_le in *. lia.
Qed.

Lemma escape_text n ch : simple_escape n = Some ch -> python_text ch /\ (n < 128)%N.
Proof.
  unfold simple_escape. intros H.
  repeat (case_match; try discriminate H); injection H as <-; (split; [|lia]); apply utf8_python;
    by apply ascii_utf8.
Qed.

(** A run of bytes outside ASCII is copied. *)
Lemma string_high w fuel s t r : Forall (fun b => 128 <= byte_val b)%N (String.list_ascii_of_string w) ->
  parse_string fuel (w +:+ s) = Some (t, r) ->
  exists f t', f + String.length w = fuel /\ t = w +:+ t' /\ parse_string f s = Some (t', r).
Proof.
  revert fuel t. induction w as [|b w IH]; intros fuel t Hw H.
  - exists fuel, t. rewrite str_app_nil_l in *. split; [cbn; lia|done].
  - cbn in Hw. apply Forall_cons in Hw as [Hb Hw]. rewrite str_app_cons in H.
    destruct fuel as [|fuel]; [done|]. rewrite high_byte_step in H by done.
    destruct (parse_string fuel (w +:+ s)) as [[u v]|] eqn:E; [|done]. cbn in H. injection H as <- <-.
    destruct (IH _ _ Hw E) as (f & t' & Hf & -> & Hp). exists f, t'.
    rewrite str_app_cons. split; [cbn; lia|done].
Qed.

Lemma utf8_string fuel s t r : utf8_text s -> parse_string fuel s = Some (t, r) ->
  python_text t /\ utf8_text r.
Proof.
  revert s t. induction fuel as [fuel IH] using lt_wf_ind. intros s t Hs H.
  destruct (utf8_front s Hs) as [->|[(c & s' & -> & Hc & Hs')|(n & s' & Hn & Hge & -> & Hs')]].
  - by destruct fuel.
  - destruct fuel as [|fuel]; [done|]. cbn [parse_string] in H.
    destruct (_ =? 34)%N; [injection H as <- <-; by split; [constructor|]|].
    destruct (_ =? 92)%N.
    + destruct s' as [|e s2]; [done|].
      destruct (if (byte_val e =? 117)%N then _ else _) as [[ch s1]|] eqn:Ee; [|done]. cbn in H.
      destruct (parse_string fuel s1) as [[u v]|] eqn:E; [|done]. cbn in H. injection H as <- <-.
      assert (python_text ch /\ utf8_text s1) as [Hch Hs1].
      { destruct (N.eqb_spec (byte_val e) 117).
        - apply (utf8_unicode s2); [|done]. apply (utf8_tail e); [done|lia].
        - destruct (simple_escape (byte_val e)) as [c'|] eqn:Es; [|done]. cbn in Ee. injection Ee as <- <-.
          apply escape_text in Es as [? ?]. split; [done|]. by apply (utf8_tail e). }
      destruct (IH fuel ltac:(lia) _ _ Hs1 E) as [? ?]. split; [by apply python_app|done].
    + destruct (_ <? 32)%N; [done|]. destruct (parse_string fuel s') as [[u v]|] eqn:E; [|done].
      cbn in H. injection H as <- <-. destruct (IH fuel ltac:(lia) _ _ Hs' E) as [? ?]. split; [|done].
      change (String c u) with (String c "" +:+ u). apply python_app; [|done].
      apply utf8_python, ascii_utf8. unfold ascii_text. cbn [all_bytes]. by rewrite (proj2 (N.ltb_lt _ _) Hc).
  - destruct (encode_bytes n Hn Hge) as [Hne Hb].
    destruct (string_high _ _ _ _ _ Hb H) as (f & t' & Hf & -> & Hp).
    destruct (encode_char n) as [|b w] eqn:Ec; [done|]. cbn in Hf.
    destruct (IH f ltac:(lia) _ _ Hs' Hp) as [? ?]. split; [|done]. apply python_app; [|done].
    rewrite <- Ec. apply code_point_text. by apply scalar_range.
Qed.

(** ** Values *)

(** Every string of a value, keys included, is text. *)
Inductive python_value : pyval -> Prop :=
  | pt_none : python_value PNone
  | pt_bool b : python_value (PBool b)
  | pt_int z : python_value (PInt z)
  | pt_float r : python_value (PFloat r)
  | pt_str s : python_text s -> python_value (PStr s)
  | pt_list l : Forall python_value l -> python_value (PList l)
  | pt_dict d : Forall (fun kv => python_text kv.1 /\ python_value kv.2) d -> python_value (PDict d).

Definition python_dict (d : dict) : Prop := Forall (fun kv => python_text kv.1 /\ python_value kv.2) d.

Lemma python_dset d k v : python_dict d -> python_text k -> python_value v -> python_dict (dset d k v).
Proof.
  intros Hd Hk Hv. induction Hd as [|[k' v'] d [Hk' Hv'] Hd IH]; cbn; [by constructor|].
  case_match; constructor; try done; by split.
Qed.

Lemma python_get d k : python_dict d -> python_value (get d k).
Proof.
  unfold get, get_or. intros Hd. destruct (dget d k) as [v|] eqn:E; [|constructor].
  apply dget_elem in E. apply (proj1 (Forall_forall _ _) Hd _) in E. apply E.
Qed.

Lemma python_dict_of v : python_value v -> python_dict (dict_of v).
Proof. intros [| | | | | |d Hd]; cbn; by try constructor. Qed.

Lemma python_str_of v s : python_value v -> v = PStr s -> python_text s.
Proof. by intros Hv ->; inversion Hv. Qed.

Lemma utf8_digits s : utf8_text s -> utf8_text (span_digits s).2.
Proof.
  induction s as [|c s IH]; intros Hs; [done|]. cbn [span_digits]. destruct (is_digit c) eqn:E; [|done].
  destruct (span_digits s) as [d r]. cbn in *. apply IH, (utf8_tail c); [done|].
  unfold is_digit, byte_in in E. bsplit. rewrite N.leb_le in *. lia.
Qed.

(** An ASCII byte tested by its value is dropped. *)
Ltac ascii_tail Hs :=
  apply utf8_tail in Hs; [|
    repeat match goal with
    | H : (_ || _) = true |- _ => apply orb_true_iff in H; destruct H
    | H : N.eqb _ _ = true |- _ => apply N.eqb_eq in H
    | H : negb (N.eqb _ _) = false |- _ => apply negb_false_iff, N.eqb_eq in H
    end; lia].

Lemma utf8_number s v r : utf8_text s -> parse_number s = Some (v, r) -> python_value v /\ utf8_text r.
Proof.
  intros Hs H. unfold parse_number in H.
  set (p1 := match s with EmptyString => _ | String c s' => _ end) in H.
  assert (utf8_text p1.2) as H1.
  { subst p1. destruct s as [|c s]; [done|]. destruct (_ =? 45)%N eqn:E; [by ascii_tail Hs|done]. }
  destruct p1 as [neg s1]. cbn in H1.
  set (p2 := match s1 with EmptyString => _ | String c s' => _ end) in H.
  assert (utf8_text p2.2) as H2.
  { subst p2. destruct s1 as [|c s1]; [done|]. destruct (_ =? 48)%N eqn:E; [by ascii_tail H1|].
    by apply utf8_digits. }
  destruct p2 as [ds s2]. cbn in H2.
  set (p3 := match s2 with EmptyString => _ | String c s' => _ end) in H.
  assert (utf8_text p3.2) as H3.
  { subst p3. destruct s2 as [|c s2]; [done|]. destruct (_ =? 46)%N eqn:E; [|done].
    pose proof H2 as H2'. ascii_tail H2'. apply utf8_digits in H2'. by destruct (span_digits s2) as [[|? ?] ?]. }
  destruct p3 as [frac s3]. cbn in H3.
  set (p4 := match s3 with EmptyString => _ | String c s' => _ end) in H.
  assert (utf8_text p4.2) as H4.
  { subst p4. destruct s3 as [|c s3]; [done|]. destruct (_ || _) eqn:E; [|done].
    pose proof H3 as H3'. ascii_tail H3'.
    set (q := match s3 with EmptyString => _ | String g r' => _ end).
    assert (utf8_text q.2) as Hq.
    { subst q. destruct s3 as [|g s3]; [done|].
      destruct ((byte_val g =? 45)%N || (byte_val g =? 43)%N) eqn:E'; [by ascii_tail H3'|done]. }
    destruct q as [sign q]. cbn in Hq. apply utf8_digits in Hq. by destruct (span_digits q) as [[|? ?] ?]. }
  destruct p4 as [expo s4]. cbn in H4.
  destruct ds; [done|]. destruct (frac +:+ expo); injection H as <- <-; split; (constructor || done).
Qed.

Lemma prefix_tail p s rest : ascii_text p = true -> utf8_text s -> Json.strip_prefix p s = Some rest -> utf8_text rest.
Proof.
  unfold Json.strip_prefix. intros Hp Hs H. destruct (String.prefix p s) eqn:E; [|done]. injection H as <-.
  apply prefix_spec in E as [t ->]. revert Hp Hs. induction p as [|c p IH]; intros Hp Hs.
  - rewrite str_app_nil_l in *. cbn [String.length]. by rewrite Nat.sub_0_r, substring_full.
  - rewrite str_app_cons in *. cbn [String.length]. cbn [String.substring Nat.sub].
    unfold ascii_text in Hp. cbn [all_bytes] in Hp. bsplit. apply IH; [done|].
    apply (utf8_tail c); [done|]. by apply N.ltb_lt.
Qed.

Lemma utf8_word ws s v r : Forall (fun wv => ascii_text wv.1 = true /\ python_value wv.2) ws ->
  utf8_text s -> parse_word ws s = Some (v, r) -> python_value v /\ utf8_text r.
Proof.
  induction 1 as [|[w x] ws [Hw Hx] _ IH]; intros Hs H; [done|]. cbn [parse_word] in H.
  destruct (Json.strip_prefix w s) as [rest|] eqn:E; [|by apply IH].
  injection H as <- <-. split; [done|]. by eapply prefix_tail.
Qed.

Lemma words_python : Forall (fun wv => ascii_text wv.1 = true /\ python_value wv.2) json_words.
Proof. repeat constructor. Qed.

Lemma utf8_values fuel :
  (forall s v r, utf8_text s -> parse_value fuel s = Some (v, r) -> python_value v /\ utf8_text r) /\
  (forall s l r, utf8_text s -> parse_items fuel s = Some (l, r) -> Forall python_value l /\ utf8_text r) /\
  (forall d s m r, python_dict d -> utf8_text s -> parse_members fuel d s = Some (m, r) ->
     python_dict m /\ utf8_text r).
Proof.
  induction fuel as [|fuel (IHv & IHi & IHm)]; [done|]. split_and!.
  - intros s v r Hs H. destruct s as [|c s]; [done|]. cbn [parse_value] in H.
    destruct (_ =? 34)%N eqn:E34.
    { ascii_tail Hs. destruct (parse_string fuel s) as [[t r']|] eqn:E; [|done]. cbn in H. injection H as <- <-.
      destruct (utf8_string _ _ _ _ Hs E). split; [by constructor|done]. }
    destruct (_ =? 91)%N eqn:E91.
    { ascii_tail Hs. apply utf8_skip_ws in Hs. destruct (skip_ws s) as [|d u]; [done|].
      destruct (_ =? 93)%N eqn:E93; [injection H as <- <-; ascii_tail Hs; split; [by repeat constructor|done]|].
      destruct (parse_items fuel _) as [[l r']|] eqn:E; [|done]. cbn in H. injection H as <- <-.
      destruct (IHi _ _ _ Hs E). split; [by constructor|done]. }
    destruct (_ =? 123)%N eqn:E123.
    { ascii_tail Hs. apply utf8_skip_ws in Hs. destruct (skip_ws s) as [|d u]; [done|].
      destruct (_ =? 125)%N eqn:E125; [injection H as <- <-; ascii_tail Hs; split; [by repeat constructor|done]|].
      destruct (parse_members fuel _ _) as [[l r']|] eqn:E; [|done]. cbn in H. injection H as <- <-.
      destruct (IHm _ _ _ _ ltac:(by constructor) Hs E). split; [by constructor|done]. }
    destruct (parse_word _ _) as [[v' r']|] eqn:E.
    + injection H as <- <-. by eapply utf8_word; [apply words_python|..].
    + by eapply utf8_number.
  - intros s l r Hs H. cbn [parse_items] in H.
    destruct (parse_value fuel s) as [[v u]|] eqn:E; [|done]. cbn in H.
    destruct (IHv _ _ _ Hs E) as [Hv Hu]. apply utf8_skip_ws in Hu. destruct (skip_ws u) as [|c u']; [done|].
    destruct (_ =? 44)%N eqn:E44.
    { ascii_tail Hu. apply utf8_skip_ws in Hu. destruct (parse_items fuel _) as [[l' r']|] eqn:E'; [|done].
      cbn in H. injection H as <- <-. destruct (IHi _ _ _ Hu E'). split; [by constructor|done]. }
    destruct (_ =? 93)%N eqn:E93; [|done]. injection H as <- <-. ascii_tail Hu. split; [by repeat constructor|done].
  - intros d s m r Hd Hs H. cbn [parse_members] in H. destruct s as [|q s]; [done|].
    destruct (negb _) eqn:E34; [done|]. ascii_tail Hs.
    destruct (parse_string fuel s) as [[k u]|] eqn:E; [|done]. cbn in H.
    destruct (utf8_string _ _ _ _ Hs E) as [Hk Hu]. apply utf8_skip_ws in Hu.
    destruct (skip_ws u) as [|c u']; [done|]. destruct (negb (_ =? 58)%N) eqn:E58; [done|]. ascii_tail Hu.
    apply utf8_skip_ws in Hu. destruct (parse_value fuel _) as [[v w]|] eqn:E2; [|done]. cbn in H.
    destruct (IHv _ _ _ Hu E2) as [Hv Hw]. apply utf8_skip_ws in Hw. destruct (skip_ws w) as [|e w']; [done|].
    destruct (_ =? 44)%N eqn:E44.
    { ascii_tail Hw. apply (IHm _ _ _ _ (python_dset _ _ _ Hd Hk Hv)) in H; [done|]. by apply utf8_skip_ws. }
    destruct (_ =? 125)%N eqn:E125; [|done]. injection H as <- <-. ascii_tail Hw.
    split; [by apply python_dset|done].
Qed.

Lemma loads_python s v : utf8_text s -> loads s = Some v -> python_value v.
Proof.
  unfold loads. intros Hs H. destruct (parse_value _ _) as [[u r]|] eqn:E; [|done].
  destruct (skip_ws r); [|done]. injection H as <-.
  by apply (proj1 (utf8_values _) _ _ _ (utf8_skip_ws _ Hs)) in E as [? _].
Qed.

(** ** The error stream *)

Lemma byte_exact c : Ascii.ascii_of_N (byte_val c) = c.
Proof. apply Ascii.ascii_N_embedding. Qed.

Lemma byte_is c n : byte_val c = n -> c = Ascii.ascii_of_N n.
Proof. intros <-. by rewrite byte_exact. Qed.

Lemma byte_in_spec lo hi c : byte_in lo hi c = true <-> (lo <= byte_val c <= hi)%N.
Proof. unfold byte_in. by rewrite andb_true_iff, !N.leb_le. Qed.

(** What a complete sequence of continuation bytes is. *)
Lemma continuation_whole n lo hi s t rest : continuation n lo hi s = (t, true, rest) ->
  match n with
  | O => t = ""
  | S n =>
      exists b t' s', t = String b t' /\ (lo <= byte_val b <= hi)%N /\
        continuation n 128 191 s' = (t', true, rest)
  end.
Proof.
  destruct n as [|n]; cbn [continuation]; [by intros [= <-]|].
  destruct s as [|b s]; [done|]. destruct (byte_in lo hi b) eqn:E; [|done].
  destruct (continuation n 128 191 s) as [[t' w] r] eqn:Ec. intros [= <- -> <-].
  exists b, t', s. by rewrite byte_in_spec in E.
Qed.

Ltac next_byte H :=
  apply continuation_whole in H; cbv iota beta in H;
  let b := fresh "b" in let Hb := fresh "Hb" in
  destruct H as (b & ? & ? & -> & Hb & H).

(** The bytes of a character in terms of its number. *)
Ltac encodes n :=
  exists n; split; [unfold scalar; div_lia|]; unfold encode_char;
  repeat match goal with |- context [(?a <? ?b)%N] => destruct (N.ltb_spec a b); try (exfalso; div_lia) end;
  unfold bytes_of; cbn [map String.string_of_list_ascii];
  repeat f_equal; apply byte_is; div_lia.

Lemma whole_scalar c n lo hi s t rest : lead_byte (byte_val c) = Some (n, lo, hi) ->
  continuation n lo hi s = (t, true, rest) -> exists m, scalar m /\ String c t = encode_char m.
Proof.
  unfold lead_byte. intros Hl Hc. remember (byte_val c) as b eqn:Eb.
  repeat match type of Hl with
  | (if (?x <? ?y)%N then _ else _) = _ => destruct (N.ltb_spec x y)
  | (if (?x =? ?y)%N then _ else _) = _ => destruct (N.eqb_spec x y)
  | Some _ = Some _ => injection Hl as <- <- <-
  | None = Some _ => discriminate Hl
  end.
  - apply continuation_whole in Hc as ->. encodes b.
  - next_byte Hc. apply continuation_whole in Hc as ->. encodes ((b mod 32) * 64 + byte_val b0 mod 64)%N.
  - do 2 next_byte Hc. apply continuation_whole in Hc as ->.
    encodes ((b mod 16) * 4096 + byte_val b0 mod 64 * 64 + byte_val b1 mod 64)%N.
  - do 2 next_byte Hc. apply continuation_whole in Hc as ->.
    encodes ((b mod 16) * 4096 + byte_val b0 mod 64 * 64 + byte_val b1 mod 64)%N.
  - do 2 next_byte Hc. apply continuation_whole in Hc as ->.
    encodes ((b mod 16) * 4096 + byte_val b0 mod 64 * 64 + byte_val b1 mod 64)%N.
  - do 3 next_byte Hc. apply continuation_whole in Hc as ->.
    encodes ((b mod 8) * 262144 + byte_val b0 mod 64 * 4096 + byte_val b1 mod 64 * 64 + byte_val b2 mod 64)%N.
  - do 3 next_byte Hc. apply continuation_whole in Hc as ->.
    encodes ((b mod 8) * 262144 + byte_val b0 mod 64 * 4096 + byte_val b1 mod 64 * 64 + byte_val b2 mod 64)%N.
  - do 3 next_byte Hc. apply continuation_whole in Hc as ->.
    encodes ((b mod 8) * 262144 + byte_val b0 mod 64 * 4096 + byte_val b1 mod 64 * 64 + byte_val b2 mod 64)%N.
Qed.

Lemma decode_replace_utf8 fuel s : utf8_text (decode_replace fuel s).
Proof.
  revert s. induction fuel as [|fuel IH]; intros s; [constructor|]. destruct s as [|c s]; [constructor|].
  cbn [decode_replace]. destruct (lead_byte (byte_val c)) as [[[n lo] hi]|] eqn:El.
  - destruct (continuation n lo hi s) as [[t whole] rest] eqn:Ec. apply utf8_text_app; [|apply IH].
    destruct whole; [|by apply valid_utf8_spec]. destruct (whole_scalar _ _ _ _ _ _ _ El Ec) as (m & Hm & ->).
    by apply encode_char_utf8.
  - apply utf8_text_app; [by apply valid_utf8_spec|apply IH].
Qed.

(** Text is decoded to itself. *)
Lemma continuation_of t lo hi rest n : length (String.list_ascii_of_string t) = n ->
  match t with
  | String b t' => byte_in lo hi b = true /\ all_bytes (byte_in 128 191) t' = true
  | EmptyString => True
  end -> continuation n lo hi (t +:+ rest) = (t, true, rest).
Proof.
  revert lo hi n. induction t as [|b t IH]; intros lo hi n Hn Ht; cbn in Hn; subst n.
  - by rewrite str_app_nil_l.
  - rewrite str_app_cons. cbn [continuation]. destruct Ht as [-> Ht]. rewrite IH; [done|done|].
    destruct t; [done|]. cbn [all_bytes] in Ht. by bsplit.
Qed.

Lemma decode_replace_text fuel s : utf8_text s -> String.length s <= fuel -> decode_replace fuel s = s.
Proof.
  revert s. induction fuel as [|fuel IH]; intros s Hs Hf; [by destruct s; [|cbn in Hf; lia]|].
  destruct (utf8_front s Hs) as [->|[(c & s' & -> & Hc & Hs')|(n & s' & Hn & Hge & -> & Hs')]]; [done| |].
  - cbn [decode_replace String.length] in *. unfold lead_byte. destruct (N.ltb_spec (byte_val c) 128); [|lia].
    cbn [continuation]. rewrite IH by (done || lia). done.
  - rewrite str_app_length in Hf. destruct (encode_char n) as [|c t] eqn:Ee.
    { by destruct (encode_bytes n Hn Hge) as [He _]. }
    rewrite str_app_cons. cbn [decode_replace String.length] in *.
    assert (exists k lo hi, lead_byte (byte_val c) = Some (k, lo, hi) /\
      continuation k lo hi (t +:+ s') = (t, true, s')) as (k & lo & hi & -> & ->).
    2: { rewrite IH by (done || lia). done. }
    unfold encode_char in Ee. unfold scalar in Hn.
    destruct (N.ltb_spec n 128); [lia|destruct (N.ltb_spec n 2048); [|destruct (N.ltb_spec n 65536)]];
      unfold bytes_of in Ee; cbn [map String.string_of_list_ascii] in Ee; injection Ee as <- <-;
      rewrite byte_val_ascii by div_lia; unfold lead_byte;
      repeat match goal with
      | |- context [(?a <? ?b)%N] => destruct (N.ltb_spec a b); try (exfalso; div_lia)
      | |- context [(?a =? ?b)%N] => destruct (N.eqb_spec a b); try (exfalso; div_lia)
      end;
      (do 3 eexists); (split; [reflexivity|]); apply continuation_of; try reflexivity; cbn [all_bytes];
      rewrite ?andb_true_iff, ?byte_in_spec, ?byte_val_ascii by div_lia; repeat split; div_lia.
Qed.

(** * What reaches the operator *)

Lemma utf8_LF : utf8_text LF. Proof. by apply ascii_utf8. Qed.
Lemma python_LF : python_text LF. Proof. apply utf8_python, utf8_LF. Qed.

Lemma python_ascii s : ascii_text s = true -> python_text s.
Proof. intros. by apply utf8_python, ascii_utf8. Qed.

Lemma error_message_text v s : python_value v -> _extract_error_message v = Some s -> python_text s.
Proof.
  unfold _extract_error_message. intros Hv H. destruct v as [| | | |t| |d]; try done.
  - injection H as <-. by inversion Hv.
  - pose proof (python_dict_of _ Hv) as Hd. cbn in Hd.
    pose proof (python_get _ "message" (python_dict_of _ (python_get d "data" Hd))) as Hm2.
    pose proof (python_get d "message" Hd) as Hm. pose proof (python_get d "name" Hd) as Hn.
    destruct (get d "message"); try (injection H as <-; by inversion Hm);
      (destruct (get (dict_of (get d "data")) "message"); try (injection H as <-; by inversion Hm2);
       destruct (get d "name"); try discriminate H; injection H as <-; by inversion Hn).
Qed.

Section Calls.
Context {H : Type} (event_handler : option (H -> pyval -> res H)).

Definition texts (calls : list (string * channel)) : Prop := Forall (fun call => python_text call.1) calls.

(** Whatever [m] ends with, its calls of [write] are made with text. *)
Definition writes_text (m : py (reader H) unit) : Prop :=
  forall r, texts (rd_writes r) -> texts (rd_writes (m r).2).

Lemma wt_write text stream : python_text text -> writes_text (write text stream).
Proof. intros Ht r Hr. cbn. apply Forall_app. split; [done|]. by repeat constructor. Qed.

Lemma wt_ret : writes_text (mret tt).
Proof. by intros r Hr. Qed.

Lemma wt_violation message : writes_text (protocol_violation message).
Proof. by intros r Hr. Qed.

Lemma wt_bind m k : writes_text m -> writes_text k -> writes_text (_ ← m; k).
Proof.
  intros Hm Hk r Hr. specialize (Hm r Hr). run. destruct (m r) as [[u|x] r']; [by apply Hk|done].
Qed.

Lemma wt_lift {A} (x : res A) k : (forall a, writes_text (k a)) -> writes_text (a ← py_lift x; k a).
Proof. intros Hk r Hr. run. destruct x; [by apply Hk|done]. Qed.

Lemma wt_if (b : bool) m k : writes_text m -> writes_text k -> writes_text (if b then m else k).
Proof. by destruct b. Qed.

Lemma wt_text d : python_dict d -> writes_text (show_text d).
Proof.
  intros Hd. unfold show_text. pose proof (python_get d "part" Hd) as Hp.
  destruct (get d "part") as [| | | | | |part]; try apply wt_violation.
  pose proof (python_get part "text" (python_dict_of _ Hp)) as Ht.
  destruct (get part "text"); try apply wt_violation. apply wt_write, python_app; [by inversion Ht|apply python_LF].
Qed.

Lemma wt_tool_state tool st : python_text tool -> python_dict st -> writes_text (show_tool_state tool st).
Proof.
  intros Ht Hst. apply wt_bind.
  { apply wt_write. repeat apply python_app; [by apply python_ascii|done|apply python_LF]. }
  apply wt_if; [|apply wt_if; [|apply wt_ret]].
  - pose proof (python_get st "output" Hst) as Ho. destruct (get st "output"); try apply wt_ret.
    apply wt_write. by inversion Ho.
  - pose proof (error_message_text (get st "error")) as Hm.
    destruct (_extract_error_message _) as [e|]; [|apply wt_ret]. apply wt_if; [apply wt_ret|].
    apply wt_write, python_app; [by apply python_ascii|]. apply Hm; [by apply python_get|done].
Qed.

Lemma wt_tool d : python_dict d -> writes_text (show_tool d).
Proof.
  intros Hd. apply wt_lift. intros invalid. apply wt_if; [apply wt_violation|].
  pose proof (python_dict_of _ (python_get d "part" Hd)) as Hp.
  apply wt_tool_state; [|by apply python_dict_of, python_get].
  pose proof (python_get _ "tool" Hp) as Ht. destruct (get _ "tool"); try constructor. by inversion Ht.
Qed.

Lemma wt_error d : python_dict d -> writes_text (show_error d).
Proof.
  intros Hd. unfold show_error. pose proof (error_message_text (get d "error")) as Hm.
  destruct (_extract_error_message _) as [e|]; [|apply wt_ret]. apply wt_if; [apply wt_ret|].
  apply wt_write. repeat apply python_app; [by apply python_ascii| |apply python_LF].
  apply Hm; [by apply python_get|done].
Qed.

Lemma wt_event v : python_value v -> writes_text (consume_event event_handler v).
Proof.
  intros Hv. apply wt_bind.
  { intros r Hr. unfold handle_event. destruct event_handler as [handler|]; [|done].
    by destruct (handler _ _). }
  pose proof (python_dict_of _ Hv) as Hd. apply wt_if; [apply wt_violation|]. apply wt_lift. intros known.
  apply wt_if; [apply wt_violation|]. apply wt_if; [by apply wt_text|]. apply wt_if; [by apply wt_tool|].
  apply wt_if; [by apply wt_error|apply wt_ret].
Qed.

Lemma wt_lines fuel s : writes_text (consume_lines event_handler fuel s).
Proof.
  revert s. induction fuel as [|fuel IH]; intros s; [apply wt_ret|]. cbn [consume_lines].
  destruct (readline _ s) as [raw_line rest]. apply wt_if; [apply wt_ret|].
  apply wt_if; (apply wt_bind; [|apply IH]); [apply wt_violation|].
  unfold consume_line, decode_line. destruct (valid_utf8 raw_line) eqn:Ev; [|apply wt_violation].
  destruct (loads raw_line) as [v|] eqn:El; [|apply wt_violation]. apply wt_event.
  eapply loads_python; [|exact El]. by apply valid_utf8_spec.
Qed.
End Calls.

Lemma stderr_text e : texts (consume_stderr e).
Proof.
  unfold consume_stderr, texts. apply Forall_fmap, Forall_true. intros chunk.
  apply utf8_python, decode_replace_utf8.
Qed.

Lemma interleaving_forall {A} (P : A -> Prop) l1 l2 l :
  interleaving l1 l2 l -> Forall P l1 -> Forall P l2 -> Forall P l.
Proof. induction 1; [done| |]; rewrite ?Forall_cons; tauto. Qed.

(** The sinks hold rendered text only. *)
Definition shown_inert (o : output) : Prop :=
  Forall (fun shown => inert shown.2) (out_terminal o) /\ Forall inert (out_records o).

Lemma write_inert sk text stream o : printable_table (sk_isprintable sk) -> python_text text ->
  shown_inert o -> shown_inert (write_worker sk text stream o).
Proof.
  intros Htab Ht [Hterm Hrec]. pose proof (render_inert _ Htab text Ht) as Hi.
  unfold write_worker. destruct (_ =? "")%string; [done|].
  destruct (sk_execution_log sk) as [log_write|].
  - destruct (log_write o _); [done|]. unfold show.
    destruct (sk_show_worker_output sk); split; cbn; rewrite ?Forall_app; auto.
  - unfold show. destruct (sk_show_worker_output sk); split; cbn; rewrite ?Forall_app; auto.
Qed.

Lemma calls_inert sk calls o : printable_table (sk_isprintable sk) -> texts calls -> shown_inert o ->
  shown_inert (foldl (fun o call => write_worker sk call.1 call.2 o) o calls).
Proof.
  intros Htab Hc. revert o. induction Hc as [|[text stream] calls Ht _ IH]; intros o Ho; [done|].
  cbn. by apply IH, write_inert.
Qed.
