(* ===== verification/ExecutionResult.v ===== *)
(** Interpretation and durable reports of worker executions,
    [src/devlegate/execution_result.py]: the canonical conclusion of a run, the
    report record with its dictionary form and validator, and the report store
    on the control worktree. *)

From S2P Require Export Egress Sha256 Json Files.

Definition _CONCLUSIONS : list string := ["completed"; "incomplete"; "blocked"; "failed"].
Definition _REPORT_SCHEMA : string := "devlegate.execution-report.v1".

Record ExecutionResult : Type := mkResult {
  er_process_returncode : Z;
  er_transport_error : option string;
  er_egress_error : option string;
  er_claim : option WorkerClaim;
  er_conclusion : string;
  er_questions : list string;
  er_remaining : list string;
  er_reason : string;
  er_process_started : bool
}.

Record ExecutionReport : Type := mkReport {
  rep_execution_id : string;
  rep_ticket_id : string;
  rep_code_base_head : string;
  rep_control_head : string;
  rep_execution_branch : string;
  rep_execution_path : string;
  rep_workspace_head : option string;
  rep_result : ExecutionResult;
  rep_report_artifact : option string;
  rep_report_sha256 : option string
}.

Definition er_egress_ok (r : ExecutionResult) : bool :=
  is_missing (er_egress_error r) && negb (is_missing (er_claim r)).

Definition claim_dict (c : WorkerClaim) : pyval :=
  PDict [("outcome", PStr (cl_outcome c)); ("summary", PStr (cl_summary c));
         ("remaining", str_list (cl_remaining c)); ("questions", str_list (cl_questions c));
         ("report", opt_str (cl_report c))].

(** [ExecutionReport.as_dict] *)
Definition as_dict (rep : ExecutionReport) : pyval :=
  let r := rep_result rep in
  PDict
    [("schema", PStr _REPORT_SCHEMA);
     ("execution_id", PStr (rep_execution_id rep));
     ("ticket_id", PStr (rep_ticket_id rep));
     ("code_base_head", PStr (rep_code_base_head rep));
     ("control_head", PStr (rep_control_head rep));
     ("execution_branch", PStr (rep_execution_branch rep));
     ("execution_path", PStr (rep_execution_path rep));
     ("workspace_head", opt_str (rep_workspace_head rep));
     ("process_returncode", PInt (er_process_returncode r));
     ("process_started", PBool (er_process_started r));
     ("transport_error", opt_str (er_transport_error r));
     ("transport_ok", PBool (is_missing (er_transport_error r)));
     ("egress_error", opt_str (er_egress_error r));
     ("egress_ok", PBool (er_egress_ok r));
     ("worker_claim", match er_claim r with Some c => claim_dict c | None => PNone end);
     ("conclusion", PStr (er_conclusion r));
     ("questions", str_list (er_questions r));
     ("remaining", str_list (er_remaining r));
     ("reason", PStr (er_reason r));
     ("report_artifact", opt_str (rep_report_artifact rep));
     ("report_sha256", opt_str (rep_report_sha256 rep))].

Definition to_json (rep : ExecutionReport) : string :=
  dumps indent_style (as_dict rep) +:+ LF.

(** * Canonical interpretation *)

(** [signal.Signals(number).name] on Linux. *)
Definition signal_names : list (Z * string) :=
  [(1, "SIGHUP"); (2, "SIGINT"); (3, "SIGQUIT"); (4, "SIGILL"); (5, "SIGTRAP");
   (6, "SIGABRT"); (7, "SIGBUS"); (8, "SIGFPE"); (9, "SIGKILL"); (10, "SIGUSR1");
   (11, "SIGSEGV"); (12, "SIGUSR2"); (13, "SIGPIPE"); (14, "SIGALRM"); (15, "SIGTERM");
   (16, "SIGSTKFLT"); (17, "SIGCHLD"); (18, "SIGCONT"); (19, "SIGSTOP"); (20, "SIGTSTP");
   (21, "SIGTTIN"); (22, "SIGTTOU"); (23, "SIGURG"); (24, "SIGXCPU"); (25, "SIGXFSZ");
   (26, "SIGVTALRM"); (27, "SIGPROF"); (28, "SIGWINCH"); (29, "SIGIO"); (30, "SIGPWR");
   (31, "SIGSYS"); (34, "SIGRTMIN"); (64, "SIGRTMAX")]%Z.

Definition signal_name (number : Z) : string :=
  match List.find (fun p => fst p =? number)%Z signal_names with
  | Some (_, name) => name
  | None => "UNKNOWN"
  end.

(** [o or alternative] on an optional string: the empty string is false. *)
Definition or_else (o : option string) (alternative : string) : string :=
  match o with
  | Some s => if (s =? "")%string then alternative else s
  | None => alternative
  end.

Definition _canonical_result (process_returncode : Z) (transport_error egress_error : option string)
    (claim : option WorkerClaim) (process_started : bool) : res (string * string) :=
  if negb (is_missing claim) && negb (is_missing egress_error)
  then raise ExecutionReportError "worker claim cannot coexist with typed-egress error"
  else if negb process_started
  then Ok ("failed", "worker launch failed: " +:+ or_else transport_error "unknown error")
  else if (process_returncode <? 0)%Z
  then Ok ("failed", "worker terminated by signal " +:+ str_of_Z (- process_returncode) +:+
             " (" +:+ signal_name (- process_returncode) +:+ ")")
  else if negb (process_returncode =? 0)%Z
  then Ok ("failed", "worker exited with status " +:+ str_of_Z process_returncode)
  else match transport_error with
  | Some e => Ok ("failed", e)
  | None =>
      match egress_error, claim with
      | None, Some c => Ok (cl_outcome c, "valid worker claim")
      | _, _ => Ok ("failed", or_else egress_error "worker claim is unavailable")
      end
  end.

Definition build_execution_result (run : WorkerRunResult) : res ExecutionResult :=
  let claim := run_claim run in
  let questions := match claim with Some c => cl_questions c | None => [] end in
  let remaining := match claim with Some c => cl_remaining c | None => [] end in
  '(conclusion, reason) ← _canonical_result (run_process_returncode run)
      (run_transport_error run) (run_egress_error run) claim (run_process_started run);
  Ok (mkResult (run_process_returncode run) (run_transport_error run) (run_egress_error run)
        claim conclusion questions remaining reason (run_process_started run)).

Definition artifact_name (ticket_id execution_id : string) : string :=
  "executions/" +:+ ticket_id +:+ "/" +:+ execution_id +:+ ".md".

Definition long_report (r : ExecutionResult) : option string :=
  match er_claim r with Some c => cl_report c | None => None end.

Definition build_execution_report (execution_id ticket_id code_base_head control_head
    execution_branch execution_path : string) (workspace_head : option string)
    (run : WorkerRunResult) : res ExecutionReport :=
  result ← build_execution_result run;
  let long := long_report result in
  Ok (mkReport execution_id ticket_id code_base_head control_head execution_branch
        execution_path workspace_head result
        (option_map (fun _ => artifact_name ticket_id execution_id) long)
        (option_map sha256_hex long)).

(** * Validation of a decoded report *)

Definition _strings (value : pyval) (field : string) : res (list string) :=
  if is_str_list value then Ok (strings_of value)
  else raise ExecutionReportError ("execution report " +:+ field +:+ " is invalid").

Definition _parse_claim (value : pyval) : res WorkerClaim :=
  let d := dict_of value in
  if negb (is_dict value && (keys_eq d _CLAIM_FIELDS_SHORT || keys_eq d _CLAIM_FIELDS))
  then raise ExecutionReportError "execution report worker claim is invalid"
  else
  outcome ← getitem d "outcome";
  _ ← ensure (is_str outcome && existsb (eq_str outcome) _OUTCOMES)
        ExecutionReportError "execution report worker claim outcome is invalid";
  summary ← getitem d "summary";
  _ ← ensure (is_str summary)
        ExecutionReportError "execution report worker claim summary is invalid";
  let report := get d "report" in
  _ ← ensure (negb (not_opt_str report))
        ExecutionReportError "execution report worker claim report is invalid";
  r ← getitem d "remaining";
  remaining ← _strings r "worker claim remaining";
  q ← getitem d "questions";
  questions ← _strings q "worker claim questions";
  Ok (mkClaim (str_of outcome) (str_of summary) remaining questions (str_opt report)).

Definition report_required : list string :=
  ["schema"; "execution_id"; "ticket_id"; "code_base_head"; "control_head";
   "execution_branch"; "execution_path"; "workspace_head"; "process_returncode";
   "transport_error"; "transport_ok"; "egress_error"; "egress_ok"; "worker_claim";
   "conclusion"; "questions"; "remaining"; "reason"].

Definition report_optional : list string :=
  ["report_artifact"; "report_sha256"; "process_started"].

Definition report_strings : list string :=
  ["execution_id"; "ticket_id"; "code_base_head"; "control_head"; "execution_branch";
   "execution_path"; "reason"].

(** [payload[field]] once the required fields are known to be there. *)
Definition rejected {A} (msg : string) : res A := raise ExecutionReportError msg.

(** The identity and artifact fields; then the process and transport fields. *)
Definition check_report_identity (d : dict) : res unit :=
  if negb (eq_str (get d "schema") _REPORT_SCHEMA)
  then rejected "unsupported execution report schema"
  else if negb (forallb (fun f => is_str (get d f)) report_strings)
  then rejected "execution report identity fields are invalid"
  else if negb (is_identifier (str_of (get d "execution_id")))
  then rejected "invalid execution report execution_id"
  else if negb (is_identifier (str_of (get d "ticket_id")))
  then rejected "invalid execution report ticket_id"
  else if not_opt_str (get d "workspace_head")
  then rejected "execution report workspace head is invalid"
  else if not_opt_str (get d "report_artifact")
  then rejected "execution report artifact is invalid"
  else if negb (is_none (get d "report_artifact") ||
                eq_str (get d "report_artifact")
                  (artifact_name (str_of (get d "ticket_id")) (str_of (get d "execution_id"))))
  then rejected "execution report artifact identity is invalid"
  else if not_opt_str (get d "report_sha256")
  then rejected "execution report digest is invalid"
  else Ok tt.

Definition is_plain_int (v : pyval) : bool := match v with PInt _ => true | _ => false end.
Definition int_of (v : pyval) : Z := match v with PInt z => z | _ => 0 end.
Definition bool_of (v : pyval) : bool := match v with PBool b => b | _ => false end.

Definition check_report_process (d : dict) : res unit :=
  if negb (is_plain_int (get d "process_returncode"))
  then rejected "execution report process status is invalid"
  else if negb (is_bool (get_or d "process_started" (PBool true)))
  then rejected "execution report process provenance is invalid"
  else if not_opt_str (get d "transport_error")
  then rejected "execution report transport error is invalid"
  else if not_opt_str (get d "egress_error")
  then rejected "execution report egress error is invalid"
  else if negb (is_bool (get d "transport_ok")) ||
          negb (Bool.eqb (bool_of (get d "transport_ok")) (is_none (get d "transport_error")))
  then rejected "execution report transport status is inconsistent"
  else Ok tt.

(** The claim with the fields that depend on it. *)
Definition check_report_claim (d : dict) : res (option WorkerClaim) :=
  claim ← (if is_none (get d "worker_claim") then Ok None
           else Some <$> _parse_claim (get d "worker_claim"));
  let report := match claim with Some c => cl_report c | None => None end in
  let has_report := negb (is_missing report) in
  if negb (Bool.eqb (is_none (get d "report_artifact")) (negb has_report)) ||
     negb (Bool.eqb (is_none (get d "report_sha256")) (negb has_report))
  then rejected "execution report artifact binding is inconsistent"
  else if has_report &&
          negb (eq_str (get d "report_sha256") (sha256_hex (default "" report)))
  then rejected "execution report digest is inconsistent"
  else if negb (is_bool (get d "egress_ok")) ||
          negb (Bool.eqb (bool_of (get d "egress_ok"))
                         (negb (is_missing claim) && is_none (get d "egress_error")))
  then rejected "execution report egress status is inconsistent"
  else Ok claim.

(** [ExecutionReport.from_dict] *)
Definition from_dict (payload : pyval) : res ExecutionReport :=
  if negb (is_dict payload) then rejected "execution report must be an object" else
  let d := dict_of payload in
  if negb (has_keys d report_required) ||
     negb (keys_subset d (report_required ++ report_optional))
  then rejected "execution report fields are invalid"
  else
  _ ← check_report_identity d;
  _ ← check_report_process d;
  claim ← check_report_claim d;
  let conclusion := get d "conclusion" in
  if negb (is_str conclusion && existsb (eq_str conclusion) _CONCLUSIONS)
  then rejected "execution report conclusion is invalid"
  else
  questions ← _strings (get d "questions") "questions";
  remaining ← _strings (get d "remaining") "remaining";
  if is_missing claim && (negb (bool_decide (questions = [])) || negb (bool_decide (remaining = [])))
  then rejected "execution report has semantic data without claim"
  else if match claim with
          | Some c => negb (bool_decide (questions = cl_questions c)) ||
                      negb (bool_decide (remaining = cl_remaining c))
          | None => false
          end
  then rejected "execution report claim data is inconsistent"
  else
  let started := bool_of (get_or d "process_started" (PBool true)) in
  '(expected_conclusion, expected_reason) ← _canonical_result
      (int_of (get d "process_returncode")) (str_opt (get d "transport_error"))
      (str_opt (get d "egress_error")) claim started;
  if negb (eq_str conclusion expected_conclusion)
  then rejected "execution report conclusion is inconsistent"
  else if negb (eq_str (get d "reason") expected_reason)
  then rejected "execution report reason is inconsistent"
  else
  let s f := str_of (get d f) in
  Ok (mkReport (s "execution_id") (s "ticket_id") (s "code_base_head") (s "control_head")
        (s "execution_branch") (s "execution_path") (str_opt (get d "workspace_head"))
        (mkResult (int_of (get d "process_returncode")) (str_opt (get d "transport_error"))
           (str_opt (get d "egress_error")) claim (s "conclusion") questions remaining
           (s "reason") started)
        (str_opt (get d "report_artifact")) (str_opt (get d "report_sha256"))).

(** * The report store *)

Definition is_report_error (e : exn) : bool := is_class ExecutionReportError e.

(** Paths below the control worktree, whose own path is []. *)
Definition root : path := ["executions"].
Definition ticket_dir (ticket_id : string) : path := root ++ [ticket_id].
Definition json_path (ticket_id execution_id : string) : path :=
  ticket_dir ticket_id ++ [execution_id +:+ ".json"].
(** [path.with_suffix(".md")] *)
Definition md_path (ticket_id execution_id : string) : path :=
  ticket_dir ticket_id ++ [execution_id +:+ ".md"].

Definition _validate_roots (t : tree) : res unit :=
  if is_symlink t [] then rejected "control worktree root is a symlink"
  else if is_symlink t root then rejected "execution report root is a symlink"
  else Ok tt.

Definition _path (ticket_id execution_id : string) : res path :=
  if negb (is_identifier ticket_id) || negb (is_identifier execution_id)
  then rejected "invalid execution report identity"
  else Ok (json_path ticket_id execution_id).

Section Write.
(** The random names tried for the artifact's and the report's temporary. *)
Variables (randoms_md randoms_json : list string).

Definition temporary_prefix (rep : ExecutionReport) : string :=
  "." +:+ rep_execution_id rep +:+ ".".

(** [try: os.link(..) except FileExistsError: ..] for the artifact. *)
Definition link_artifact (temporary artifact : path) (content : string) : io unit :=
  py_catch (link temporary artifact) (is_class PyFileExistsError)
    (fun _ =>
       t ← io_tree id;
       same ← (if is_symlink t artifact || negb (path_is_file t artifact) then mret false
               else text ← py_lift (read_text t artifact); mret (text =? content)%string);
       py_ensure same ExecutionReportError "execution report artifact already exists").

Definition publish_artifact (rep : ExecutionReport) (content : string) : io unit :=
  let dir := ticket_dir (rep_ticket_id rep) in
  temporary ← write_temporary dir (temporary_prefix rep) ".tmp" randoms_md content;
  py_finally
    (link_artifact temporary (md_path (rep_ticket_id rep) (rep_execution_id rep)) content)
    (fun s => snd (unlink temporary s)).

Definition publish_json (rep : ExecutionReport) : io unit :=
  let dir := ticket_dir (rep_ticket_id rep) in
  temporary ← write_temporary dir (temporary_prefix rep) ".tmp" randoms_json (to_json rep);
  py_finally
    (link temporary (json_path (rep_ticket_id rep) (rep_execution_id rep)))
    (fun s => snd (unlink temporary s)).

(** The body of the outer [try]. *)
Definition write_body (rep : ExecutionReport) : io path :=
  _ ← io_res _validate_roots;
  _ ← mkdir root;
  _ ← io_res _validate_roots;
  linked ← io_tree (fun t => path_exists t (ticket_dir (rep_ticket_id rep)) &&
                             is_symlink t (ticket_dir (rep_ticket_id rep)));
  _ ← py_ensure (negb linked) ExecutionReportError
        "execution report ticket directory is a symlink";
  _ ← mkdir (ticket_dir (rep_ticket_id rep));
  _ ← match long_report (rep_result rep) with
      | Some content => publish_artifact rep content
      | None => mret tt
      end;
  _ ← publish_json rep;
  mret (json_path (rep_ticket_id rep) (rep_execution_id rep)).

(** [ExecutionReportStore.write]; the cleanup of the temporaries is done by
    the steps that create them. *)
Definition write (rep : ExecutionReport) : io path :=
  _ ← py_lift (from_dict (as_dict rep));
  _ ← py_lift (_path (rep_ticket_id rep) (rep_execution_id rep));
  py_catch
    (py_catch (write_body rep) (is_class PyFileExistsError)
      (fun _ => py_raise ExecutionReportError "execution report already exists"))
    is_os_error
    (fun e => py_raise ExecutionReportError
                ("cannot persist execution report: " +:+ exn_msg e)).
End Write.

(** The artifact a report names, against its digest. *)
Definition check_artifact (t : tree) (rep : ExecutionReport) (artifact : path) : res unit :=
  match rep_report_artifact rep with
  | None => Ok tt
  | Some _ =>
      if is_symlink t artifact || negb (path_is_file t artifact)
      then rejected "execution report artifact is unavailable"
      else content ← read_text t artifact;
           ensure (eq_str (opt_str (rep_report_sha256 rep)) (sha256_hex content))
             ExecutionReportError "execution report artifact integrity mismatch"
  end.

Definition show_path (p : path) : string := String.concat "/" p.

(** [ExecutionReportStore.read] *)
Definition read (t : tree) (ticket_id execution_id : string) : res ExecutionReport :=
  p ← _path ticket_id execution_id;
  _ ← _validate_roots t;
  if is_symlink t p || is_symlink t (ticket_dir ticket_id)
  then rejected "execution report path is a symlink"
  else
  let unreadable := "cannot read execution report: " +:+ show_path p in
  text ← catch (read_text t p) is_os_error (fun _ => rejected unreadable);
  match loads text with
  | None => rejected unreadable
  | Some payload =>
      rep ← from_dict payload;
      if negb ((rep_ticket_id rep =? ticket_id)%string &&
               (rep_execution_id rep =? execution_id)%string)
      then rejected "execution report identity does not match path"
      else
      _ ← check_artifact t rep (md_path ticket_id execution_id);
      Ok rep
  end.

(** One [*.json] entry of a ticket directory, in [ExecutionReportStore.list]. *)
Definition list_entry (t : tree) (dir_name name : string) : res ExecutionReport :=
  let p := ticket_dir dir_name ++ [name] in
  if is_symlink t p || negb (path_is_file t p)
  then rejected "execution report path is a symlink"
  else
  let unreadable := "cannot read execution report: " +:+ show_path p in
  rep ← catch
          (text ← read_text t p;
           match loads text with
           | None => rejected unreadable
           | Some payload => from_dict payload
           end)
          (fun e => is_os_error e || is_report_error e) (fun _ => rejected unreadable);
  let stem := path_stem name in
  if negb ((rep_ticket_id rep =? dir_name)%string && (rep_execution_id rep =? stem)%string)
  then rejected "execution report identity does not match path"
  else
  _ ← check_artifact t rep (ticket_dir dir_name ++ [stem +:+ ".md"]);
  Ok rep.

Definition list_directory (t : tree) (dir_name : string) : res (list ExecutionReport) :=
  if is_symlink t (ticket_dir dir_name) || negb (path_is_dir t (ticket_dir dir_name))
  then rejected "execution report ticket directory is unsafe"
  else res_map (list_entry t dir_name)
         (py_sorted (List.filter (ends_with ".json") (iterdir t (ticket_dir dir_name)))).

(** [ExecutionReportStore.list] *)
Definition list_reports (t : tree) (ticket_id : option string) : res (list ExecutionReport) :=
  _ ← _validate_roots t;
  match ticket_id with
  | Some k =>
      if negb (is_identifier k) then rejected "invalid execution report identity"
      else if is_symlink t (ticket_dir k)
      then rejected "execution report ticket directory is unsafe"
      else if path_exists t root && negb (path_is_dir t root)
      then rejected "execution report root is unsafe"
      else if negb (path_exists t (ticket_dir k)) then Ok []
      else list_directory t k
  | None =>
      let names :=
        if path_is_dir t root
        then py_sorted (List.filter (fun k => path_is_dir t (ticket_dir k)) (iterdir t root))
        else [] in
      per ← res_map (list_directory t) names; Ok (List.concat per)
  end.

(** * The contract: canonical reports *)

Definition claim_lists (claim : option WorkerClaim) : list string * list string :=
  match claim with Some c => (cl_questions c, cl_remaining c) | None => ([], []) end.

(** What every stored report satisfies: its derived fields are functions of the
    identity and of the observation of the worker. *)
Record valid_report (rep : ExecutionReport) : Prop := {
  vr_execution_id : is_identifier (rep_execution_id rep) = true;
  vr_ticket_id : is_identifier (rep_ticket_id rep) = true;
  vr_outcome : forall c, er_claim (rep_result rep) = Some c -> cl_outcome c ∈ _OUTCOMES;
  vr_lists : (er_questions (rep_result rep), er_remaining (rep_result rep)) =
             claim_lists (er_claim (rep_result rep));
  vr_artifact : rep_report_artifact rep =
    option_map (fun _ => artifact_name (rep_ticket_id rep) (rep_execution_id rep))
               (long_report (rep_result rep));
  vr_sha256 : rep_report_sha256 rep = option_map sha256_hex (long_report (rep_result rep));
  vr_canonical :
    _canonical_result (er_process_returncode (rep_result rep))
      (er_transport_error (rep_result rep)) (er_egress_error (rep_result rep))
      (er_claim (rep_result rep)) (er_process_started (rep_result rep)) =
    Ok (er_conclusion (rep_result rep), er_reason (rep_result rep))
}.

Lemma str_opt_opt o : str_opt (opt_str o) = o.
Proof. by destruct o. Qed.

Lemma not_opt_str_opt o : not_opt_str (opt_str o) = false.
Proof. by destruct o. Qed.

Lemma is_none_opt o : is_none (opt_str o) = is_missing o.
Proof. by destruct o. Qed.

Lemma opt_str_str v : not_opt_str v = false -> opt_str (str_opt v) = v.
Proof. by destruct v. Qed.

Lemma is_str_list_strs l : is_str_list (str_list l) = true.
Proof. unfold is_str_list, str_list. cbn. induction l; cbn; done. Qed.

Lemma strings_of_strs l : strings_of (str_list l) = l.
Proof. unfold strings_of, str_list. cbn. induction l as [|x l IH]; cbn; [done|]. by rewrite IH. Qed.

Lemma str_list_strings v : is_str_list v = true -> str_list (strings_of v) = v.
Proof.
  unfold is_str_list, str_list, strings_of. destruct v as [| | | | |l|]; try done. cbn.
  intros H. f_equal. induction l as [|x l IH]; cbn in *; [done|]. bsplit.
  rewrite IH by done. by destruct x.
Qed.

#[export] Hint Rewrite str_opt_opt not_opt_str_opt is_none_opt is_str_list_strs
  strings_of_strs String.eqb_refl @bool_decide_eq_true_2 : pystr.

Lemma canonical_conclusion rc te ee claim st c r :
  _canonical_result rc te ee claim st = Ok (c, r) ->
  c = "failed" \/
  (exists cl, claim = Some cl /\ c = cl_outcome cl /\ r = "valid worker claim" /\
     rc = 0%Z /\ te = None /\ ee = None /\ st = true).
Proof.
  unfold _canonical_result. intros H. step_in H. destruct st; cbn in H; [|left; congruence].
  destruct (rc <? 0)%Z; [left; congruence|].
  destruct (Z.eqb_spec rc 0) as [->|]; cbn in H; [|left; congruence].
  destruct te; [left; congruence|]. destruct ee; [left; congruence|].
  destruct claim as [cl|]; [|left; congruence]. right. exists cl. injection H as <- <-. done.
Qed.

Lemma parse_claim_dict c : cl_outcome c ∈ _OUTCOMES -> _parse_claim (claim_dict c) = Ok c.
Proof.
  intros Ho. destruct c as [o s r q rep]. unfold _parse_claim, claim_dict. cbn.
  assert (E : existsb (eq_str (PStr o)) _OUTCOMES = true) by (apply existsb_eq_str; eauto).
  cbn in E. rewrite E. cbn. unfold _strings. cbn [get get_or dget default String.eqb].
  rewrite !is_str_list_strs, !strings_of_strs. by destruct rep.
Qed.

(** The claim part of the checks accepts a canonical report's dictionary. *)
Lemma check_report_claim_dict rep d :
  valid_report rep -> as_dict rep = PDict d ->
  check_report_claim d = Ok (er_claim (rep_result rep)).
Proof.
  intros V [= <-]. unfold check_report_claim.
  cbn [get get_or dget default String.eqb Ascii.eqb Bool.eqb].
  destruct V as [_ _ Ho _ Ha Hs Hc]. unfold long_report in *.
  destruct rep as [x t cb ch eb ep wh [rc te ee cl co qs rm re st] art sha].
  cbn -[claim_dict _parse_claim sha256_hex] in *.
  destruct cl as [c|]; cbn -[claim_dict _parse_claim sha256_hex] in *.
  - change (is_none (claim_dict c)) with false. rewrite parse_claim_dict by auto.
    cbn -[sha256_hex]. subst art sha.
    assert (ee = None) as ->. { destruct ee; [|done]. unfold _canonical_result in Hc. done. }
    destruct (cl_report c) as [text|]; cbn -[sha256_hex]; [|done].
    by rewrite String.eqb_refl.
  - subst art sha. cbn. by destruct ee.
Qed.

Lemma valid_conclusion rep :
  valid_report rep -> er_conclusion (rep_result rep) ∈ _CONCLUSIONS.
Proof.
  intros V. destruct (canonical_conclusion _ _ _ _ _ _ _ (vr_canonical _ V))
    as [-> | (c & Hc & -> & _)]; [by repeat constructor|].
  apply (vr_outcome _ V) in Hc. unfold _OUTCOMES, _CONCLUSIONS in *. set_solver.
Qed.

Lemma from_dict_as_dict rep : valid_report rep -> from_dict (as_dict rep) = Ok rep.
Proof.
  intros V. pose proof (check_report_claim_dict rep _ V eq_refl) as Hclaim.
  pose proof (valid_conclusion _ V) as Hco.
  assert (Hid : check_report_identity (dict_of (as_dict rep)) = Ok tt).
  { destruct V as [Hx Ht _ _ Ha Hs _]. unfold check_report_identity.
    cbn -[sha256_hex is_identifier artifact_name].
    rewrite Hx, Ht, Ha, Hs. cbn -[sha256_hex artifact_name]. rewrite not_opt_str_opt.
    destruct (long_report _); cbn -[sha256_hex artifact_name]; [|done].
    by rewrite String.eqb_refl. }
  assert (Hpr : check_report_process (dict_of (as_dict rep)) = Ok tt).
  { unfold check_report_process. cbn. rewrite !not_opt_str_opt, is_none_opt. cbn.
    by rewrite eqb_reflx. }
  assert (Hk : has_keys (dict_of (as_dict rep)) report_required = true) by done.
  assert (Hs : keys_subset (dict_of (as_dict rep)) (report_required ++ report_optional) = true)
    by done.
  unfold from_dict. change (is_dict (as_dict rep)) with true. cbn [negb].
  rewrite Hk, Hs. cbn [negb orb]. cbn zeta. rewrite Hid. cbn [mbind res_bind]. rewrite Hpr.
  cbn [mbind res_bind]. change (PDict (dict_of (as_dict rep))) with (as_dict rep) in Hclaim.
  unfold as_dict in Hclaim |- *. cbn [dict_of] in *. rewrite Hclaim.
  cbn -[_strings _canonical_result str_list existsb].
  assert (E : existsb (eq_str (PStr (er_conclusion (rep_result rep)))) _CONCLUSIONS = true)
    by (apply existsb_eq_str; eauto).
  rewrite E. cbn -[_canonical_result str_list]. unfold _strings.
  rewrite !is_str_list_strs, !strings_of_strs, !str_opt_opt. cbn -[_canonical_result].
  rewrite (vr_canonical _ V). cbn. rewrite !String.eqb_refl. cbn.
  pose proof (vr_lists _ V) as Hl.
  destruct rep as [x t cb ch eb ep wh [rc te ee cl co qs rm re st] art sha].
  cbn in *. destruct cl; cbn in *; injection Hl as -> ->; cbn;
    rewrite ?bool_decide_eq_true_2 by done; by cbn; rewrite ?str_opt_opt.
Qed.

(** Reading a chain of rejecting tests: a check that succeeds passed each one. *)
Ltac passed H :=
  repeat match type of H with
  | (if ?b then _ else _) = Ok _ => destruct b eqn:?; [discriminate H|]
  end.

Lemma parse_claim_outcome v c : _parse_claim v = Ok c -> cl_outcome c ∈ _OUTCOMES.
Proof.
  unfold _parse_claim. intros H. step_in H. unfold ensure in H.
  apply res_bind_ok in H as (o & Ho & H). apply res_bind_ok in H as ([] & Hc & H).
  destruct (is_str o && _) eqn:E; [clear Hc | discriminate Hc].
  repeat (apply res_bind_ok in H as (? & ? & H)). injection H as <-. cbn. bsplit.
  match goal with E : existsb (eq_str _) _ = true |- _ =>
    apply existsb_eq_str in E as (s & -> & Hs) end. exact Hs.
Qed.

Lemma check_report_claim_ok d claim :
  check_report_claim d = Ok claim ->
  (forall c, claim = Some c -> cl_outcome c ∈ _OUTCOMES) /\
  (get d "worker_claim" = PNone -> claim = None) /\
  (let long := match claim with Some c => cl_report c | None => None end in
   is_none (get d "report_artifact") = is_missing long /\
   is_none (get d "report_sha256") = is_missing long /\
   (forall text, long = Some text -> get d "report_sha256" = PStr (sha256_hex text))) /\
  get d "egress_ok" = PBool (negb (is_missing claim) && is_none (get d "egress_error")).
Proof.
  unfold check_report_claim. intros H.
  apply res_bind_ok in H as (cl & Hcl & H). cbn zeta in H. passed H. injection H as ->.
  apply orb_false_iff in Heqb as [E1 E2]. apply orb_false_iff in Heqb1 as [E3 E4].
  apply negb_false_iff, eqb_prop in E1, E2, E4. apply negb_false_iff in E3.
  rewrite negb_involutive in E1, E2. split_and!.
  - intros c ->. destruct (is_none (get d "worker_claim")); [done|].
    destruct (_parse_claim _) eqn:E; [|done]. injection Hcl as ->. by eapply parse_claim_outcome.
  - intros E. rewrite E in Hcl. cbn in Hcl. congruence.
  - done.
  - done.
  - intros text E. rewrite E in Heqb0. cbn -[sha256_hex] in Heqb0.
    apply negb_false_iff, eq_str_spec in Heqb0. done.
  - destruct (get d "egress_ok"); try done. cbn in E4. by rewrite E4.
Qed.

Lemma check_identity_ok d :
  check_report_identity d = Ok tt ->
  get d "schema" = PStr _REPORT_SCHEMA /\
  Forall (fun f => is_str (get d f) = true) report_strings /\
  is_identifier (str_of (get d "execution_id")) = true /\
  is_identifier (str_of (get d "ticket_id")) = true /\
  Forall (fun f => not_opt_str (get d f) = false)
    ["workspace_head"; "report_artifact"; "report_sha256"] /\
  (get d "report_artifact" = PNone \/
   get d "report_artifact" = PStr (artifact_name (str_of (get d "ticket_id"))
                                                 (str_of (get d "execution_id")))).
Proof.
  unfold check_report_identity. intros H. passed H. bsplit.
  match goal with E : eq_str _ _REPORT_SCHEMA = true |- _ => apply eq_str_spec in E end.
  match goal with E : forallb _ _ = true |- _ => rewrite forallb_forall in E end.
  split_and!; try done.
  - apply Forall_forall. intros f Hf. apply list_elem_of_In in Hf. auto.
  - by repeat constructor.
  - destruct (orb_prop _ _ Heqb5) as [E|E]; [left; by apply is_none_spec | right; by apply eq_str_spec].
Qed.

Lemma check_process_ok d :
  check_report_process d = Ok tt ->
  is_plain_int (get d "process_returncode") = true /\
  is_bool (get_or d "process_started" (PBool true)) = true /\
  not_opt_str (get d "transport_error") = false /\
  not_opt_str (get d "egress_error") = false /\
  get d "transport_ok" = PBool (is_none (get d "transport_error")).
Proof.
  unfold check_report_process. intros H. passed H. bsplit. split_and!; try done.
  destruct (get d "transport_ok"); try done. cbn in *.
  match goal with E : Bool.eqb _ _ = true |- _ => apply eqb_prop in E as -> end. done.
Qed.

Lemma strings_ok v f l : _strings v f = Ok l -> v = str_list l.
Proof.
  unfold _strings. destruct (is_str_list v) eqn:E; [|done]. intros [= <-].
  by rewrite str_list_strings.
Qed.

Lemma is_missing_str_opt v : not_opt_str v = false -> is_missing (str_opt v) = is_none v.
Proof. by destruct v. Qed.

Lemma int_of_plain v : is_plain_int v = true -> PInt (int_of v) = v.
Proof. by destruct v. Qed.

Lemma bool_of_bool v : is_bool v = true -> PBool (bool_of v) = v.
Proof. by destruct v. Qed.

Lemma is_str_of v : is_str v = true -> v = PStr (str_of v).
Proof. by destruct v. Qed.

(** What a decoded report says about the dictionary it comes from: every field
    but the claim is the one its own dictionary form has. *)
Lemma from_dict_fields p rep :
  from_dict p = Ok rep ->
  valid_report rep /\
  exists d, p = PDict d /\
    forall k v, dget d k = Some v -> k <> "worker_claim" ->
      dget (dict_of (as_dict rep)) k = Some v.
Proof.
  unfold from_dict. intros H. destruct (is_dict p) eqn:Hd; [|discriminate H].
  apply is_dict_spec in Hd as [d ->]. cbn [negb dict_of] in H.
  passed H. rename Heqb into Hkeys.
  apply res_bind_ok in H as ([] & Hid & H). apply check_identity_ok in Hid.
  apply res_bind_ok in H as ([] & Hpr & H). apply check_process_ok in Hpr.
  apply res_bind_ok in H as (claim & Hcl & H). apply check_report_claim_ok in Hcl.
  cbn zeta in H. passed H. rename Heqb into Hcon.
  apply res_bind_ok in H as (qs & Hqs & H). apply strings_ok in Hqs.
  apply res_bind_ok in H as (rm & Hrm & H). apply strings_ok in Hrm.
  passed H. apply res_bind_ok in H as ([ec er] & Hcan & H).
  passed H. injection H as <-. bsplit.
  match goal with E : eq_str (get d "conclusion") _ = true |- _ => apply eq_str_spec in E end.
  match goal with E : eq_str (get d "reason") _ = true |- _ => apply eq_str_spec in E end.
  destruct Hid as (Hsch & Hstr & Hx & Ht & Hopt & Hart).
  destruct Hpr as (Hrc & Hst & Hte & Hee & Hto).
  destruct Hcl as (Hout & _ & (Ha1 & Ha2 & Ha3) & Heo).
  assert (Hsha : str_opt (get d "report_sha256") = option_map sha256_hex
            match claim with Some c => cl_report c | None => None end).
  { destruct (match claim with Some c => cl_report c | None => None end) as [text|].
    - by rewrite (Ha3 _ eq_refl).
    - apply is_none_spec in Ha2. by rewrite Ha2. }
  assert (Hlists : (qs, rm) = claim_lists claim).
  { destruct claim as [c|]; cbn in *; bsplit; by subst. }
  rewrite Forall_forall in Hstr, Hopt. setoid_rewrite list_elem_of_In in Hstr.
  setoid_rewrite list_elem_of_In in Hopt.
  split.
  - split; cbn -[sha256_hex artifact_name]; try done.
    + unfold long_report. cbn. destruct Hart as [E|E]; rewrite E in *; cbn in *;
        by destruct (match claim with Some c => cl_report c | None => None end).
    + rewrite Hcan. by repeat f_equal; [rewrite Heqb1 | rewrite Heqb2].
  - exists d. split; [done|]. intros k v Hk Hne.
    pose proof (keys_subset_elem _ _ _ _ H2 Hk) as Hin.
    assert (Hg : get d k = v) by (unfold get, get_or; by rewrite Hk).
    unfold report_required, report_optional in Hin. cbn [app] in Hin.
    repeat (apply elem_of_cons in Hin; destruct Hin as [-> | Hin];
      [try done; unfold as_dict; cbn [dict_of dget String.eqb Ascii.eqb Bool.eqb];
       cbn -[get get_or str_opt opt_str str_list str_of int_of bool_of];
       f_equal; rewrite <- Hg;
       solve [ rewrite opt_str_str by first [assumption | apply Hopt; cbn; tauto]; done
             | symmetry; apply is_str_of; first [assumption | apply Hstr; cbn; tauto]
             | congruence
             | by apply int_of_plain
             | rewrite is_missing_str_opt by done; congruence
             | unfold er_egress_ok; cbn -[get str_opt]; rewrite is_missing_str_opt by done;
               rewrite andb_comm; congruence
             | rewrite bool_of_bool by done; unfold get, get_or; by rewrite Hk ] |]); [..|by apply not_elem_of_nil in Hin].
Qed.

(** * The store's commit order *)

Lemma tmp_ne_entry dir x r suffix : is_identifier x = true ->
  dir ++ [("." +:+ x +:+ ".") +:+ r +:+ ".tmp"] <> dir ++ [x +:+ suffix].
Proof.
  intros Hx H. apply app_inv_head in H. injection H as H. destruct x as [|c x]; [done|].
  rewrite str_app_cons in H. rewrite !str_app_cons in H. injection H as Hc _.
  subst c. cbn in Hx. done.
Qed.

Lemma json_ne_md k x : json_path k x <> md_path k x.
Proof.
  unfold json_path, md_path. intros H%app_inv_head. injection H as H.
  by apply str_app_inj_l in H.
Qed.

Section CommitOrder.
Context (rep : ExecutionReport) (Hid : is_identifier (rep_execution_id rep) = true).
Context (j0 : option node) (plain0 : Prop).

Let json := json_path (rep_ticket_id rep) (rep_execution_id rep).
Let md := md_path (rep_ticket_id rep) (rep_execution_id rep).

(** No directory on the way to the report is a symbolic link. *)
Definition plain_dirs (t : tree) : Prop :=
  Forall (fun p => is_symlink t p = false) [[]; root; ticket_dir (rep_ticket_id rep)].

(** The report's entry is as before the call. *)
Definition uncommitted (t : tree) : Prop := t !! json = j0 /\ (plain0 -> plain_dirs t).

(** The artifact the report names, if any, is in place. *)
Definition artifact_ready (t : tree) : Prop :=
  match long_report (rep_result rep) with
  | Some content => exists text, t !! md = Some (File text) /\
                      (text = content \/ universal_newlines text = content)
  | None => True
  end.

Definition committed (t : tree) : Prop :=
  j0 = None /\ t !! json = Some (File (to_json rep)) /\ artifact_ready t /\
  (plain0 -> plain_dirs t).

Definition crash_safe (t : tree) : Prop := uncommitted t \/ committed t.

(** Making a directory, or changing a file of a ticket directory. *)
Definition harmless (q : path) (n : option node) : Prop := n = Some Dir \/ length q = 3.

Lemma plain_dirs_set q n t :
  harmless q n -> plain_dirs t -> plain_dirs (partial_alter (fun _ => n) q t).
Proof.
  intros Hq. unfold plain_dirs. rewrite !Forall_forall. intros Hall p Hp.
  specialize (Hall p Hp). unfold is_symlink in *.
  destruct (decide (q = p)) as [->|Hne]; [|by rewrite lookup_partial_alter_ne].
  rewrite lookup_partial_alter_eq. destruct Hq as [->|Hq]; [done|].
  apply list_elem_of_In in Hp. cbn in Hp. by destruct Hp as [<-|[<-|[<-|[]]]].
Qed.

Lemma uncommitted_set q n t :
  q <> json -> harmless q n -> uncommitted t -> uncommitted (partial_alter (fun _ => n) q t).
Proof.
  unfold uncommitted. intros Hne Hq [Hj Hp]. rewrite lookup_partial_alter_ne by done.
  split; [done|]. intros H0. apply plain_dirs_set; auto.
Qed.

Lemma mkdir_uncommitted rp :
  length rp <= 2 ->
  triple uncommitted (mkdir_rev rp) crash_safe (fun _ => uncommitted).
Proof.
  intros Hl.
  assert (Hne : forall q : path, length q <= 2 -> q <> json).
  { intros q Hq ->. unfold json, json_path, ticket_dir in Hq. cbn in Hq. lia. }
  assert (Hos : forall q : path, length q <= 2 ->
            triple uncommitted (os_mkdir q) crash_safe (fun _ => uncommitted)).
  { intros q Hq. unfold os_mkdir.
    apply (triple_bind _ _ (fun _ => uncommitted)); [| |done].
    { intros s Hs. unfold need_parent. destruct q; cbn; split; try done;
        exists []; by rewrite app_nil_r. }
    intros []. apply (triple_bind _ _ (fun _ => uncommitted)); [| |done].
    { by apply triple_tree. }
    intros [n|]; [by apply triple_pure|]. apply triple_set. intros t Ht.
    split; [left|]; apply uncommitted_set; auto; by left. }
  induction rp as [|x rp IH]; cbn [mkdir_rev];
    apply (triple_catch _ _ (fun _ => uncommitted)); try done.
  1, 3: apply (triple_catch _ _ (fun _ => uncommitted)); try done;
    [apply Hos; cbn in *; rewrite ?length_app, ?length_rev; cbn; lia|]; intros e _.
  - by apply triple_pure.
  - apply (triple_bind _ _ (fun _ => uncommitted)); [apply IH; cbn in Hl; lia| |done].
    intros []. apply Hos. rewrite length_rev. done.
  - intros e _. apply (triple_bind _ _ (fun _ => uncommitted));
      [by apply triple_tree| |done].
    intros []; by apply triple_pure.
  - intros e _. apply (triple_bind _ _ (fun _ => uncommitted));
      [by apply triple_tree| |done].
    intros []; by apply triple_pure.
Qed.

(** A temporary in the report's directory is never the report or its artifact. *)
Definition is_temporary (p : path) : Prop :=
  exists r, p = ticket_dir (rep_ticket_id rep) ++ [temporary_prefix rep +:+ r +:+ ".tmp"].

Lemma temporary_ne p : is_temporary p -> p <> json /\ p <> md.
Proof. intros [r ->]. split; by apply tmp_ne_entry. Qed.

Lemma temporary_harmless p n : is_temporary p -> harmless p n.
Proof. intros [r ->]. by right. Qed.

Lemma write_temporary_spec (P : tree -> Prop) randoms text :
  (forall t, P t -> crash_safe t) ->
  (forall t p n, is_temporary p -> P t -> P (partial_alter (fun _ => n) p t)) ->
  triple P
    (write_temporary (ticket_dir (rep_ticket_id rep)) (temporary_prefix rep) ".tmp" randoms text)
    crash_safe
    (fun r t => P t /\ forall p, r = Ok p -> is_temporary p /\ t !! p = Some (File text)).
Proof.
  intros Hcs Hst. unfold write_temporary.
  apply (triple_bind _ _ (fun _ => P)); [| |by split].
  { intros s Hs. unfold need_parent. cbn. split; [done|].
    exists []. by rewrite app_nil_r. }
  intros []. set (cands t := List.filter _ _).
  apply (triple_bind _ _ (fun r t => P t /\ forall l, r = Ok l -> l = cands t));
    [apply triple_tree; by intros t Ht; split; [|congruence]
    | | by intros e t [? _]; split; [|discriminate]].
  intros l. destruct l as [|p l]; [apply triple_pure; by intros t [? _]; split; [|discriminate]|].
  apply (triple_bind _ _ (fun r t => r = Ok tt /\ P t /\ is_temporary p /\
                            t !! p = Some (File text))); [| |by intros ? ? [? _]].
  - apply triple_set. intros t [Ht Hl]. specialize (Hl _ eq_refl).
    assert (Hp : is_temporary p).
    { assert (Hin : In p (cands t)) by (rewrite <- Hl; by left).
      apply filter_In in Hin as [(r & <- & _)%in_map_iff _]. by exists r. }
    split_and!; [apply Hcs|..]; auto. by rewrite lookup_partial_alter_eq.
  - intros []. apply triple_pure. intros t (_ & ? & ? & ?). split; [done|].
    by intros q [= <-].
Qed.

Lemma link_spec (P I : tree -> Prop) source target text :
  (forall t, P t -> t !! source = Some (File text)) ->
  (forall t, P t -> t !! target = None -> I (<[target := File text]> t)) ->
  triple P (link source target) I
    (fun r t => (exists e, r = Raise e /\ P t) \/
       (r = Ok tt /\ exists t1, P t1 /\ t1 !! target = None /\ t = <[target := File text]> t1)).
Proof.
  intros Hsrc HI. unfold link.
  apply (triple_bind _ _ (fun _ => P)); [| |by intros e t Ht; left; eauto].
  { intros s Hs. unfold need_parent. destruct target; cbn; split; try done;
      exists []; by rewrite app_nil_r. }
  intros [].
  apply (triple_bind _ _ (fun r t => P t /\ forall x, r = Ok x -> x = (t !! source, t !! target)));
    [apply triple_tree;
       by intros t Ht; split; [|congruence]
    | | by intros e t [? _]; left; eauto].
  intros [src tgt].
  destruct src as [n|]; [destruct tgt as [m|]|];
    [apply triple_pure; intros t [? _]; left; eauto | |
     apply triple_pure; intros t [? _]; left; eauto].
  apply triple_set. intros t [Ht Hl]. specialize (Hl _ eq_refl). injection Hl as Hs Htg.
  rewrite (Hsrc _ Ht) in Hs. injection Hs as ->. split; [by apply HI|]. right.
  split; [done|]. by exists t.
Qed.

Lemma publish_json_spec randoms :
  triple (fun t => uncommitted t /\ artifact_ready t) (publish_json randoms rep) crash_safe
    (fun r t => match r with Ok _ => committed t | Raise _ => uncommitted t end).
Proof.
  assert (Hstable : forall t p n, is_temporary p -> uncommitted t /\ artifact_ready t ->
    uncommitted (partial_alter (fun _ => n) p t) /\
    artifact_ready (partial_alter (fun _ => n) p t)).
  { intros t p n Ht [Hu Ha]. destruct (temporary_ne _ Ht) as [Hj Hm].
    split; [apply uncommitted_set; auto using temporary_harmless|].
    unfold artifact_ready in *. destruct (long_report _); [|done].
    by rewrite lookup_partial_alter_ne. }
  unfold publish_json. eapply triple_bind;
    [apply write_temporary_spec; [intros t [? _]; by left | exact Hstable] | |
     by intros e t [[? _] _]].
  intros p. cbn beta.
  set (P t := (uncommitted t /\ artifact_ready t) /\ is_temporary p /\
              t !! p = Some (File (to_json rep))).
  assert (Hcommit : forall t, P t -> t !! json = None ->
            committed (<[json := File (to_json rep)]> t)).
  { intros t [[[Hu Hp] Ha] [_ _]] Hn. split_and!; [by rewrite <- Hu | by rewrite lookup_insert_eq| |].
    - unfold artifact_ready in *. destruct (long_report _); [|done].
      rewrite lookup_insert_ne by apply json_ne_md. done.
    - intros H0. apply plain_dirs_set; [by right | auto]. }
  eapply (triple_conseq _ P); [intros t [[? ?] Hp]; destruct (Hp p eq_refl); by split_and! | |].
  2: { eapply triple_unlink_after with
         (Q := fun r t => match r with Ok _ => committed t | Raise _ => uncommitted t end).
       - apply (link_spec P crash_safe _ _ (to_json rep)); [by intros t (_ & _ & ?)|].
         intros t Ht Hn. right. by apply Hcommit.
       - cbn zeta. intros r t [(e & -> & [Hua [Htmp _]]) | (-> & t1 & Ht1 & Hn & ->)].
         + destruct (Hstable t p None Htmp Hua) as [? _]. split; [by left|done].
         + destruct Ht1 as (Hua & Htmp & ?) eqn:E. clear E.
           assert (Hc : committed (delete p (<[json:=File (to_json rep)]> t1))).
           { destruct (Hcommit t1 Ht1 Hn) as (? & Hj & Ha & Hp).
             destruct (temporary_ne _ Htmp) as [Hpj Hpm]. split_and!; [done| | |].
             - by rewrite lookup_delete_ne.
             - unfold artifact_ready in *. destruct (long_report _); [|done].
               by rewrite lookup_delete_ne.
             - intros H0. apply plain_dirs_set; auto using temporary_harmless. }
           by split; [right|]. }
  done.
Qed.

Lemma link_artifact_spec temporary content :
  is_temporary temporary -> long_report (rep_result rep) = Some content ->
  triple (fun t => uncommitted t /\ t !! temporary = Some (File content))
    (link_artifact temporary md content) crash_safe
    (fun r t => uncommitted t /\ (r = Ok tt -> artifact_ready t)).
Proof.
  intros Htmp Hlong. unfold link_artifact.
  assert (Hset : forall t, uncommitted t -> uncommitted (<[md := File content]> t)).
  { intros t Hu. apply uncommitted_set; [|by right|done].
    intros E. symmetry in E. by apply json_ne_md in E. }
  eapply triple_catch.
  - apply link_spec with (text := content); [by intros t [_ ?]|].
    intros t [Hu _] _. left. by apply Hset.
  - intros [] t [(e & [=] & _)|(_ & t1 & [Hu _] & _ & ->)]. split; [by apply Hset|].
    intros _. unfold artifact_ready. rewrite Hlong. exists content.
    rewrite lookup_insert_eq. by split; [|left].
  - intros e t _ [(e' & _ & [Hu _])|([=] & _)]. by split.
  - intros e _. apply (triple_bind _ _ (fun r t => uncommitted t /\ r = Ok t));
      [apply triple_tree;
       by intros t [(? & ? & [? _])|([=] & _)]| |by intros e' t [? [=]]].
    intros t0. cbn beta.
    apply (triple_bind _ _ (fun r t => uncommitted t /\ (r = Ok true -> artifact_ready t)));
      [| |by intros ? ? [? _]].
    + destruct (is_symlink t0 md || negb (path_is_file t0 md)) eqn:E;
        [by apply triple_pure; intros t [? _]|].
      apply orb_false_iff in E as [E1 E2]. apply negb_false_iff in E2.
      destruct (read_regular_file _ _ E1 E2) as (text & Hm & ->).
      apply triple_pure. intros t [Hu [= ->]]. split; [done|].
      intros [= Heq%String.eqb_eq]. unfold artifact_ready. rewrite Hlong. eauto.
    + intros b. apply triple_pure. intros t [Hu Hb]. split; [done|].
      intros Hr. destruct b; [by apply Hb | done].
Qed.

Lemma publish_artifact_spec randoms content :
  long_report (rep_result rep) = Some content ->
  triple uncommitted (publish_artifact randoms rep content) crash_safe
    (fun r t => uncommitted t /\ (r = Ok tt -> artifact_ready t)).
Proof.
  intros Hlong. unfold publish_artifact. eapply triple_bind;
    [apply (write_temporary_spec uncommitted); [by left|] | | by intros e t [? _]].
  { intros t p n Ht. destruct (temporary_ne _ Ht) as [Hj _].
    apply uncommitted_set; auto using temporary_harmless. }
  intros p. cbn beta.
  eapply (triple_conseq _ (fun t => is_temporary p /\ uncommitted t /\
                                    t !! p = Some (File content)));
    [intros t [? Hp]; destruct (Hp p eq_refl); by split_and! | |].
  2: { apply triple_assume. intros Htmp.
       eapply triple_unlink_after; [by apply link_artifact_spec|].
       cbn beta zeta. intros r t [Hu Hr]. destruct (temporary_ne _ Htmp) as [Hj Hm].
       assert (uncommitted (delete p t)) by
         (apply uncommitted_set; auto using temporary_harmless).
       split; [by left|]. instantiate (1 := fun r t => uncommitted t /\ (r = Ok tt -> artifact_ready t)).
       split; [done|]. intros E. specialize (Hr E).
       unfold artifact_ready in *. destruct (long_report _); [|done].
       by rewrite lookup_delete_ne. }
  done.
Qed.

Lemma write_body_spec randoms_md randoms_json :
  triple uncommitted (write_body randoms_md randoms_json rep) crash_safe
    (fun r t => match r with Ok _ => committed t | Raise _ => uncommitted t end).
Proof.
  unfold write_body.
  do 2 (eapply triple_bind;
    [first [by apply triple_read with (Q := fun _ => uncommitted)
           | apply mkdir_uncommitted; cbn; lia] | intros [] | done]).
  eapply triple_bind; [by apply triple_read with (Q := fun _ => uncommitted)| intros [] | done].
  eapply triple_bind;
    [by apply triple_tree with (Q := fun _ => uncommitted)| |done].
  intros linked. eapply triple_bind;
    [by apply triple_pure with (Q := fun _ => uncommitted)| intros [] | done].
  eapply triple_bind; [apply mkdir_uncommitted; cbn; lia | intros [] | done].
  eapply triple_bind with (R := fun r t => uncommitted t /\ (r = Ok tt -> artifact_ready t)).
  - destruct (long_report (rep_result rep)) as [content|] eqn:E;
      [by apply publish_artifact_spec|]. apply triple_pure. intros t Ht. split; [done|].
    unfold artifact_ready. by rewrite E.
  - intros []. eapply triple_bind.
    + eapply triple_conseq; [|by intros r t H; exact H|apply publish_json_spec].
      intros t [? Hr]. split; [done|]. by apply Hr.
    + intros []. by apply triple_pure.
    + by intros e t H.
  - by intros e t [? _].
Qed.

Lemma write_spec randoms_md randoms_json :
  triple uncommitted (write randoms_md randoms_json rep) crash_safe
    (fun r t => match r with Ok _ => committed t | Raise _ => uncommitted t end).
Proof.
  unfold write.
  eapply triple_bind; [by apply triple_pure with (Q := fun _ => uncommitted)| intros ? | done].
  eapply triple_bind; [by apply triple_pure with (Q := fun _ => uncommitted)| intros ? | done].
  eapply triple_catch with (R := fun r t =>
    match r with Ok _ => committed t | Raise _ => uncommitted t end);
    [|done|done|by intros e _; apply triple_pure].
  eapply triple_catch; [apply write_body_spec|done|done|by intros e _; apply triple_pure].
Qed.
End CommitOrder.

(** * Reading a report back *)

(** Validation looks at a dictionary only through its lookups, its key set and
    the parsed claim. *)
Lemma from_dict_ext d e :
  (forall k, k <> "worker_claim" -> dget d k = dget e k) ->
  (forall ks, has_keys d ks = has_keys e ks) -> (forall ks, keys_subset d ks = keys_subset e ks) ->
  is_none (get d "worker_claim") = is_none (get e "worker_claim") ->
  _parse_claim (get d "worker_claim") = _parse_claim (get e "worker_claim") ->
  from_dict (PDict d) = from_dict (PDict e).
Proof.
  intros Hget Hhas Hsub Hnone Hclaim.
  assert (G : forall k, k <> "worker_claim" -> get d k = get e k).
  { intros k Hk. unfold get, get_or. by rewrite Hget. }
  assert (G' : forall k v, k <> "worker_claim" -> get_or d k v = get_or e k v).
  { intros k v Hk. unfold get_or. by rewrite Hget. }
  assert (E1 : check_report_identity d = check_report_identity e).
  { unfold check_report_identity, report_strings. cbn [forallb]. by rewrite !G by done. }
  assert (E2 : check_report_process d = check_report_process e).
  { unfold check_report_process. by rewrite !G, !G' by done. }
  assert (E3 : check_report_claim d = check_report_claim e).
  { unfold check_report_claim. rewrite Hnone, Hclaim.
    rewrite (G "report_artifact"), (G "report_sha256"), (G "egress_ok"), (G "egress_error") by done.
    done. }
  unfold from_dict. cbn [is_dict dict_of negb]. rewrite Hhas, Hsub, E1, E2, E3.
  by rewrite !G, !G' by done.
Qed.

Lemma parse_claim_canon c : _parse_claim (canon (claim_dict c)) = _parse_claim (claim_dict c).
Proof.
  assert (Hnd : NoDup (keys (dict_of (claim_dict c))))
    by (apply (bool_decide_unpack _); vm_compute; exact I).
  assert (G : forall k, get (dict_of (canon (claim_dict c))) k = get (dict_of (claim_dict c)) k).
  { intros k. unfold get, get_or, claim_dict. rewrite canon_dget by done.
    cbn [dict_of dget].
    repeat match goal with |- context [(?a =? k)%string] => destruct (a =? k)%string end;
      cbn [option_map default]; rewrite ?canon_str_list, ?canon_opt_str; done. }
  assert (GI : forall k, getitem (dict_of (canon (claim_dict c))) k =
                         getitem (dict_of (claim_dict c)) k).
  { intros k. unfold getitem, claim_dict. rewrite canon_dget by done. cbn [dict_of dget].
    repeat match goal with |- context [(?a =? k)%string] => destruct (a =? k)%string end;
      cbn [option_map]; rewrite ?canon_str_list, ?canon_opt_str; done. }
  unfold _parse_claim, keys_eq. change (is_dict (canon (claim_dict c))) with true.
  unfold claim_dict at 2 3. rewrite !G, !GI. unfold claim_dict at 1 2 3 4.
  rewrite !canon_keys_subset, !canon_has_keys by done. reflexivity.
Qed.

Lemma from_dict_canon rep : from_dict (canon (as_dict rep)) = from_dict (as_dict rep).
Proof.
  set (d := dict_of (as_dict rep)). change (as_dict rep) with (PDict d).
  assert (Hnd : NoDup (keys d)) by (apply (bool_decide_unpack _); vm_compute; exact I).
  change (canon (PDict d)) with (PDict (dict_of (canon (PDict d)))). apply from_dict_ext.
  - intros k Hk. rewrite canon_dget by done. unfold d, as_dict. cbn [dict_of dget].
    repeat match goal with |- context [(?a =? k)%string] => destruct (String.eqb_spec a k) as [<-|_] end;
      cbn [option_map]; rewrite ?canon_str_list, ?canon_opt_str; try done.
  - intros ks. by apply canon_has_keys.
  - apply canon_keys_subset.
  - unfold get, get_or. rewrite canon_dget by done. unfold d, as_dict. cbn [dict_of].
    cbn [dget String.eqb Ascii.eqb Bool.eqb option_map default]. by destruct (er_claim _).
  - unfold get, get_or. rewrite canon_dget by done. unfold d, as_dict. cbn [dict_of].
    cbn [dget String.eqb Ascii.eqb Bool.eqb option_map default].
    destruct (er_claim _) as [c|]; [apply parse_claim_canon | done].
Qed.

(** What a run hands over: the parser's claim or its error, never both. *)
Definition run_of (rc : Z) (transport : option string) (p : WorkerEgressParser)
    (started : bool) : WorkerRunResult :=
  mkRun rc transport (fst (finish p)) (snd (finish p)) None true started.

Lemma finish_exclusive p : fst (finish p) = None \/ snd (finish p) = None.
Proof. unfold finish. destruct (pa_error p); [by left|]. destruct (pa_claim p); [by right|by left]. Qed.

Lemma finish_outcome events p c :
  consume_all events = Ok p -> fst (finish p) = Some c -> cl_outcome c ∈ _OUTCOMES.
Proof.
  intros Hp Hc. destruct (consume_all_state events) as (p' & Hp' & Hs).
  rewrite Hp in Hp'. injection Hp' as <-.
  destruct Hs as [H | e c' H1 (_ & _ & _ & _ & H2) | c' msg H1 H2]; cbn in Hc; try done.
  injection Hc as <-. by eapply claim_outcome.
Qed.

Lemma canonical_total rc te ee claim st :
  claim = None \/ ee = None -> exists c r, _canonical_result rc te ee claim st = Ok (c, r).
Proof.
  intros H. unfold _canonical_result.
  destruct (negb (is_missing claim) && negb (is_missing ee)) eqn:E.
  { destruct H; subst; cbn in E; [done|]. by rewrite andb_false_r in E. }
  destruct st; cbn; [|eauto]. destruct (rc <? 0)%Z; [eauto|].
  destruct (negb (rc =? 0)%Z); [eauto|]. destruct te; [eauto|]. destruct ee, claim; eauto.
Qed.

Lemma parse_claim_dict_inv c c' : _parse_claim (claim_dict c) = Ok c' -> c' = c.
Proof.
  intros H. pose proof (parse_claim_outcome _ _ H) as Ho.
  assert (Hc : cl_outcome c' = cl_outcome c).
  { unfold _parse_claim in H. change (is_dict (claim_dict c)) with true in H.
    cbn [andb negb] in H. passed H.
    repeat (apply res_bind_ok in H as (? & ? & H)). injection H as <-. cbn [cl_outcome].
    match goal with E : getitem _ "outcome" = Ok ?v |- _ => injection E as <- end. done. }
  rewrite Hc in Ho. rewrite (parse_claim_dict _ Ho) in H. congruence.
Qed.

(** A report whose dictionary is accepted is the one that is decoded. *)
Lemma from_dict_as_dict_inv rep rep' : from_dict (as_dict rep) = Ok rep' -> rep' = rep.
Proof.
  unfold from_dict. change (is_dict (as_dict rep)) with true. cbn [negb]. intros H. passed H.
  apply res_bind_ok in H as (_ & _ & H). apply res_bind_ok in H as (_ & _ & H).
  apply res_bind_ok in H as (claim & Hcl & H). cbn zeta in H. passed H.
  apply res_bind_ok in H as (qs & Hqs & H). apply strings_ok in Hqs.
  apply res_bind_ok in H as (rm & Hrm & H). apply strings_ok in Hrm.
  passed H. apply res_bind_ok in H as ([ec er] & _ & H). passed H. injection H as <-.
  apply res_bind_ok in Hcl as (cl & Hp & Hcl). cbn zeta in Hcl. passed Hcl. injection Hcl as ->.
  assert (claim = er_claim (rep_result rep)) as ->.
  { change (get (dict_of (as_dict rep)) "worker_claim") with
      (match er_claim (rep_result rep) with Some c => claim_dict c | None => PNone end) in Hp.
    destruct (er_claim (rep_result rep)) as [c|]; cbn -[claim_dict _parse_claim] in Hp; [|congruence].
    change (is_none (claim_dict c)) with false in Hp.
    destruct (_parse_claim (claim_dict c)) eqn:E; [|done].
    apply parse_claim_dict_inv in E as ->. injection Hp as <-. done. }
  apply (f_equal strings_of) in Hqs, Hrm. rewrite strings_of_strs in Hqs, Hrm.
  change (strings_of (str_list (er_questions (rep_result rep))) = qs) in Hqs.
  change (strings_of (str_list (er_remaining (rep_result rep))) = rm) in Hrm.
  rewrite strings_of_strs in Hqs, Hrm. subst qs rm.
  destruct rep as [x t cb ch eb ep wh [rc te ee cl co qs rm re st] art sha].
  cbn. by rewrite !str_opt_opt.
Qed.

(** Reading the entry a write committed. *)
Lemma read_committed rep t :
  valid_report rep -> json_ok (as_dict rep) ->
  (forall text, long_report (rep_result rep) = Some text -> contains_byte 13 text = false) ->
  plain_dirs rep t ->
  t !! json_path (rep_ticket_id rep) (rep_execution_id rep) = Some (File (to_json rep)) ->
  artifact_ready rep t ->
  read t (rep_ticket_id rep) (rep_execution_id rep) = Ok rep.
Proof.
  intros V Hok Hcr Hdirs Hj Ha.
  assert (Hnl : universal_newlines (to_json rep) = to_json rep).
  { apply universal_newlines_id, no_cr_contains. unfold to_json. rewrite no_cr_app.
    unfold dumps. by rewrite dump_no_cr. }
  unfold read, _path.
  rewrite (vr_ticket_id _ V), (vr_execution_id _ V). cbn [negb orb mbind res_bind].
  unfold plain_dirs in Hdirs. rewrite !Forall_cons in Hdirs. destruct Hdirs as (H1 & H2 & H3 & _).
  unfold _validate_roots. rewrite H1, H2. cbn [mbind res_bind].
  unfold is_symlink at 1. rewrite Hj, H3. cbn [orb].
  unfold read_text, resolve. rewrite Hj, Hnl. cbn [catch mbind res_bind].
  unfold to_json. rewrite loads_dumps by (try done; by exists "", " ").
  rewrite from_dict_canon, from_dict_as_dict by done. cbn [mbind res_bind].
  rewrite !String.eqb_refl. cbn [andb negb]. unfold check_artifact.
  rewrite (vr_artifact _ V). unfold artifact_ready in Ha.
  destruct (long_report (rep_result rep)) as [content|] eqn:El; [|done].
  cbn [option_map]. destruct Ha as (text & Hm & Htext).
  assert (Hread : universal_newlines text = content).
  { destruct Htext as [->|]; [|done]. apply universal_newlines_id. auto. }
  unfold is_symlink, path_is_file, read_text, resolve. rewrite Hm. cbn [negb orb].
  cbn [mbind res_bind]. rewrite Hread, (vr_sha256 _ V), El. cbn [option_map opt_str eq_str].
  by rewrite String.eqb_refl.
Qed.

Lemma built_valid_run x t run :
  is_identifier x = true -> is_identifier t = true ->
  (forall c, run_claim run = Some c -> cl_outcome c ∈ _OUTCOMES) ->
  run_claim run = None \/ run_egress_error run = None ->
  exists rep, build_execution_report x t "" "" "" "" None run = Ok rep /\ valid_report rep.
Proof.
  intros Hx Ht Ho He. unfold build_execution_report, build_execution_result.
  destruct (canonical_total (run_process_returncode run) (run_transport_error run)
              (run_egress_error run) (run_claim run) (run_process_started run) He)
    as (c & r & Hc). rewrite Hc. cbn. eexists. split; [done|].
  split; cbn; try done. by destruct (run_claim run).
Qed.

(** ** Properties *)

Definition sample_claim : WorkerClaim := mkClaim "completed" "did it" [] ["next?"] (Some "long text").

Definition sample_report : ExecutionReport :=
  mkReport "e1" "t1" "c0" "h0" "branch" "/ws" None
    (mkResult 0 None None (Some sample_claim) "completed" ["next?"] [] "valid worker claim" true)
    (Some "executions/t1/e1.md") (Some (sha256_hex "long text")).

(** a report built from well-formed identifiers and from what the egress
    parser returned on any event stream is always produced, is canonical, and
    passes the validator unchanged. *)
Theorem built_report_valid x t cb ch eb ep wh events p rc te started :
  is_identifier x = true -> is_identifier t = true -> consume_all events = Ok p ->
  exists rep, build_execution_report x t cb ch eb ep wh (run_of rc te p started) = Ok rep /\
    valid_report rep /\ from_dict (as_dict rep) = Ok rep.
Proof.
  intros Hx Ht Hp. unfold build_execution_report, build_execution_result. cbn.
  destruct (canonical_total rc te (snd (finish p)) (fst (finish p)) started (finish_exclusive p))
    as (c & r & Hc). rewrite Hc. cbn. eexists. split; [done|].
  match goal with |- valid_report ?r /\ _ => assert (V : valid_report r) end.
  { split; cbn; try done.
    - intros cl Hcl. by eapply finish_outcome.
    - by destruct (fst (finish p)). }
  split; [done|]. exact (from_dict_as_dict _ V).
Qed.

Definition report_event (report : pyval) : pyval :=
  PDict [("type", PStr "tool_use");
         ("part", PDict [("tool", PStr "devlegate_report"); ("type", PStr "tool");
            ("state", PDict [("status", PStr "completed");
               ("input", PDict [("outcome", PStr "completed"); ("summary", PStr "s");
                  ("remaining", PList []); ("questions", PList []); ("report", report)])])])].

Lemma built_report_valid_witness :
  exists p rep, consume_all [PDict [("type", PStr "step_start")]; report_event PNone] = Ok p /\
    build_execution_report "e" "t" "c" "h" "b" "/p" None (run_of 0 None p true) = Ok rep /\
    valid_report rep.
Proof.
  set (p := mkParser (Some (mkClaim "completed" "s" [] [] None)) None).
  assert (Hp : consume_all [PDict [("type", PStr "step_start")]; report_event PNone] = Ok p)
    by (vm_compute; reflexivity).
  destruct (built_report_valid "e" "t" "c" "h" "b" "/p" None _ p 0 None true
              eq_refl eq_refl Hp) as (rep & Hb & V & _).
  exists p, rep. split; [exact Hp|]. split; [exact Hb | exact V].
Defined.

(** an execution result concludes with the worker's own outcome only when
    the process started, exited with status 0 and without a transport or egress
    error, and delivered a claim; in every other case the conclusion is failed.
    A claim is thus never taken over from a process that did not end cleanly. *)
Theorem conclusion_needs_clean_exit run r :
  build_execution_result run = Ok r ->
  (er_conclusion r = "failed" \/
   exists c, run_claim run = Some c /\ er_conclusion r = cl_outcome c /\
     run_process_returncode run = 0%Z /\ run_transport_error run = None /\
     run_egress_error run = None /\ run_process_started run = true) /\
  (run_claim run = None -> er_questions r = [] /\ er_remaining r = []).
Proof.
  unfold build_execution_result. intros H. apply res_bind_ok in H as ([c e] & Hc & H).
  injection H as <-. cbn. split; [|by intros ->; split].
  destruct (canonical_conclusion _ _ _ _ _ _ _ Hc) as [?|(cl & ? & ? & _ & ? & ? & ? & ?)]; [by left|].
  right. exists cl. by split_and!.
Qed.

Lemma conclusion_needs_clean_exit_witness :
  exists r, build_execution_result (mkRun (-9) None (Some sample_claim) None None true true) = Ok r /\
    er_reason r = "worker terminated by signal 9 (SIGKILL)" /\
    (er_conclusion r = "failed" \/ exists c, Some sample_claim = Some c /\
       er_conclusion r = cl_outcome c /\ (-9 = 0)%Z /\ @None string = None /\
       @None string = None /\ true = true).
Proof.
  eexists. split; [vm_compute; reflexivity|]. split; [reflexivity|].
  refine (proj1 (conclusion_needs_clean_exit
    (mkRun (-9) None (Some sample_claim) None None true true) _ _)).
  vm_compute. reflexivity.
Defined.

(** The call from any state, whatever its outcome. *)
Lemma write_outcome randoms_md randoms_json rep s :
  let j0 := now s !! json_path (rep_ticket_id rep) (rep_execution_id rep) in
  let plain := plain_dirs rep (now s) in
  match fst (write randoms_md randoms_json rep s) with
  | Ok _ => committed rep j0 plain (now (snd (write randoms_md randoms_json rep s)))
  | Raise _ => uncommitted rep j0 plain (now (snd (write randoms_md randoms_json rep s)))
  end /\
  exists new, trace (snd (write randoms_md randoms_json rep s)) = trace s ++ new /\
    Forall (crash_safe rep j0 plain) new.
Proof.
  cbn zeta. destruct (is_identifier (rep_execution_id rep)) eqn:Hid.
  - exact (write_spec rep Hid _ _ randoms_md randoms_json s (conj eq_refl (fun H => H))).
  - unfold write, mbind, py_bind, py_lift. destruct (from_dict (as_dict rep)).
    + unfold _path. rewrite Hid, orb_true_r. cbn. split; [by split|].
      exists []. by rewrite app_nil_r.
    + cbn. split; [by split|]. exists []. by rewrite app_nil_r.
Qed.

(** C22: the JSON report is the commit marker of a write.  In every state a crash
    can expose, and at the end, the report's entry is either as it was before the
    call or it is the complete report with its artifact already in place; an
    existing entry is never changed; and the call returns a path exactly when it
    has committed the report. *)
Theorem write_commits_last randoms_md randoms_json rep s :
  let entry t := t !! json_path (rep_ticket_id rep) (rep_execution_id rep) in
  let complete t := entry (now s) = None /\ entry t = Some (File (to_json rep)) /\
                    artifact_ready rep t in
  let '(r, s') := write randoms_md randoms_json rep s in
  (exists new, trace s' = trace s ++ new /\
     Forall (fun t => entry t = entry (now s) \/ complete t) new) /\
  match r with
  | Ok _ => complete (now s')
  | Raise _ => entry (now s') = entry (now s)
  end.
Proof.
  cbn zeta. destruct (write_outcome randoms_md randoms_json rep s) as [Hr (new & Ht & Hnew)].
  destruct (write randoms_md randoms_json rep s) as [r s']. cbn [fst snd] in *. split.
  - exists new. split; [done|]. eapply Forall_impl; [exact Hnew|].
    intros t [[H _]|(H1 & H2 & H3 & _)]; [by left | by right].
  - destruct r; [by destruct Hr as (? & ? & ? & _) | by destruct Hr].
Qed.

(** a report that the store accepted can be read back unchanged, when no
    directory on its path is a symbolic link, its texts are well-formed and the
    long report has no carriage return. *)
Theorem write_then_read randoms_md randoms_json rep s p s' :
  write randoms_md randoms_json rep s = (Ok p, s') ->
  plain_dirs rep (now s) -> json_ok (as_dict rep) ->
  (forall text, long_report (rep_result rep) = Some text -> contains_byte 13 text = false) ->
  read (now s') (rep_ticket_id rep) (rep_execution_id rep) = Ok rep.
Proof.
  intros Hw Hp Hok Hcr. pose proof (write_outcome randoms_md randoms_json rep s) as [Hr _].
  rewrite Hw in Hr. cbn in Hr. destruct Hr as (_ & Hj & Ha & Hd).
  assert (V : valid_report rep).
  { unfold write, mbind, py_bind, py_lift in Hw.
    destruct (from_dict (as_dict rep)) as [rep'|] eqn:E; [|done].
    pose proof (from_dict_as_dict_inv _ _ E) as ->. exact (proj1 (from_dict_fields _ _ E)). }
  apply read_committed; auto.
Qed.

Definition empty_control : tree := {[ [] := Dir ]}.

Definition sample_write : res path * files :=
  write ["a"] ["b"] sample_report (mkFiles empty_control []).

Lemma write_then_read_witness :
  fst sample_write = Ok ["executions"; "t1"; "e1.json"] /\
  read (now (snd sample_write)) "t1" "e1" = Ok sample_report.
Proof.
  assert (H : fst sample_write = Ok ["executions"; "t1"; "e1.json"]) by (vm_compute; reflexivity).
  split; [exact H|].
  apply (write_then_read ["a"] ["b"] sample_report (mkFiles empty_control [])
            ["executions"; "t1"; "e1.json"] (snd sample_write)).
  - rewrite <- H. unfold sample_write. destruct (write _ _ _ _). reflexivity.
  - repeat constructor.
  - apply ascii_json_ok. vm_compute. reflexivity.
  - intros text [= <-]. reflexivity.
Defined.

(** when the worker's long report contains a carriage return the write
    succeeds and commits, but the report can never be read again: reading the
    artifact translates the line ending, so its digest no longer matches. *)
Theorem carriage_return_report_is_lost :
  exists rep s', valid_report rep /\
    long_report (rep_result rep) = Some ("one" +:+ CR +:+ LF +:+ "two") /\
    fst (write ["a"] ["b"] rep (mkFiles empty_control [])) =
      Ok (json_path (rep_ticket_id rep) (rep_execution_id rep)) /\
    s' = snd (write ["a"] ["b"] rep (mkFiles empty_control [])) /\
    read (now s') (rep_ticket_id rep) (rep_execution_id rep) =
      raise ExecutionReportError "execution report artifact integrity mismatch".
Proof.
  set (run := mkRun 0 None
    (Some (mkClaim "completed" "s" [] [] (Some ("one" +:+ CR +:+ LF +:+ "two")))) None None true true).
  assert (Ho : forall c, run_claim run = Some c -> cl_outcome c ∈ _OUTCOMES).
  { intros c [= <-]. by left. }
  destruct (built_valid_run "e1" "t1" run eq_refl eq_refl Ho (or_intror eq_refl)) as (rep & Hb & V).
  exists rep. eexists. split; [exact V|]. vm_compute in Hb. injection Hb as <-.
  split; [reflexivity|]. split; [vm_compute; reflexivity|]. split; [reflexivity|].
  vm_compute. reflexivity.
Qed.
