(* ===== verification/ReportDecoding.v ===== *)
(** What the validator of execution reports, [ExecutionReport.from_dict] of
    [src/devlegate/execution_result.py], accepts: exactly the dictionaries that
    describe a canonical report. *)

From S2P Require Export ExecutionResult.

(** The claim of a report as a dictionary may hold it: the long report, when there
    is none, may be left out. *)
Definition encodes_claim (v : pyval) (claim : option WorkerClaim) : Prop :=
  match claim with
  | None => v = PNone
  | Some c => exists d, v = PDict d /\
      (keys_eq d _CLAIM_FIELDS_SHORT || keys_eq d _CLAIM_FIELDS) = true /\
      get d "outcome" = PStr (cl_outcome c) /\ get d "summary" = PStr (cl_summary c) /\
      get d "remaining" = str_list (cl_remaining c) /\ get d "questions" = str_list (cl_questions c) /\
      get d "report" = opt_str (cl_report c)
  end.

(** The dictionary describes the report: it has all required fields and no unknown
    ones, each with the value of the report's own dictionary; a worker counts as
    started when the field is left out. *)
Record describes (d : dict) (rep : ExecutionReport) : Prop := {
  de_required : has_keys d report_required = true;
  de_known : keys_subset d (report_required ++ report_optional) = true;
  de_fields : forall k, k <> "worker_claim" -> k <> "process_started" ->
    get d k = get (dict_of (as_dict rep)) k;
  de_started : get_or d "process_started" (PBool true) = PBool (er_process_started (rep_result rep));
  de_claim : encodes_claim (get d "worker_claim") (er_claim (rep_result rep))
}.

(** ** Claims *)

Lemma has_keys_get (d : dict) ks k : has_keys d ks = true -> k ∈ ks -> dget d k = Some (get d k).
Proof.
  unfold has_keys. rewrite forallb_forall. intros H Hk%list_elem_of_In%H.
  apply has_key_spec in Hk as [v Hv]. unfold get, get_or. by rewrite Hv.
Qed.

Lemma claim_keys (d : dict) : (keys_eq d _CLAIM_FIELDS_SHORT || keys_eq d _CLAIM_FIELDS) = true ->
  has_keys d _CLAIM_FIELDS_SHORT = true.
Proof.
  intros E. unfold keys_eq in E. apply orb_true_iff in E as [E|E]; apply andb_true_iff in E as [_ E]; [done|].
  unfold has_keys, _CLAIM_FIELDS, _CLAIM_FIELDS_SHORT in *. cbn [forallb] in *.
  bsplit. by repeat (apply andb_true_iff; split).
Qed.

Lemma getitem_claim (d : dict) k : has_keys d _CLAIM_FIELDS_SHORT = true -> k ∈ _CLAIM_FIELDS_SHORT ->
  getitem d k = Ok (get d k).
Proof. intros Hd Hk. unfold getitem. by rewrite (has_keys_get d _ k Hd Hk). Qed.

Lemma parse_claim_iff v c :
  _parse_claim v = Ok c <-> cl_outcome c ∈ _OUTCOMES /\ encodes_claim v (Some c).
Proof.
  unfold _parse_claim. destruct v as [| | | | | |d]; cbn [is_dict andb negb dict_of];
    try (split; [done|by intros (_ & d & ? & _)]).
  destruct (keys_eq d _CLAIM_FIELDS_SHORT || keys_eq d _CLAIM_FIELDS) eqn:Ek; cbn [negb].
  2: { split; [done|]. intros (_ & d' & [= <-] & Hk & _). congruence. }
  pose proof (claim_keys d Ek) as Hd. rewrite !(getitem_claim d) by (done || (unfold _CLAIM_FIELDS_SHORT; set_solver)).
  cbn [mbind res_bind]. unfold ensure, _strings. split.
  - intros H. repeat match type of H with context [if ?b then _ else _] => destruct b eqn:?; [|discriminate H] end.
    cbn in H. injection H as <-. bsplit.
    match goal with E : existsb (eq_str _) _ = true |- _ => apply existsb_eq_str in E as (o & Ho & Hin) end.
    split; [by rewrite Ho|]. exists d. cbn. rewrite Ho. split_and!; try done; symmetry.
    + symmetry. by apply is_str_of.
    + by apply str_list_strings.
    + by apply str_list_strings.
    + by apply opt_str_str.
  - intros (Ho & d' & [= <-] & _ & -> & -> & -> & -> & ->).
    assert (existsb (eq_str (PStr (cl_outcome c))) _OUTCOMES = true) as -> by (apply existsb_eq_str; eauto).
    cbn [is_str andb mbind res_bind str_of]. rewrite not_opt_str_opt. cbn [negb mbind res_bind].
    rewrite !is_str_list_strs, !strings_of_strs, str_opt_opt. cbn. by destruct c.
Qed.

(** ** Decoding *)

(** Validation looks at a dictionary only through these lookups. *)
Lemma from_dict_reads d e :
  has_keys d report_required = has_keys e report_required ->
  keys_subset d (report_required ++ report_optional) = keys_subset e (report_required ++ report_optional) ->
  (forall k, k <> "worker_claim" -> k <> "process_started" -> get d k = get e k) ->
  get_or d "process_started" (PBool true) = get_or e "process_started" (PBool true) ->
  is_none (get d "worker_claim") = is_none (get e "worker_claim") ->
  _parse_claim (get d "worker_claim") = _parse_claim (get e "worker_claim") ->
  from_dict (PDict d) = from_dict (PDict e).
Proof.
  intros Hhas Hsub G Hst Hnone Hclaim.
  assert (E1 : check_report_identity d = check_report_identity e).
  { unfold check_report_identity, report_strings. cbn [forallb]. by rewrite !G by done. }
  assert (E2 : check_report_process d = check_report_process e).
  { unfold check_report_process. by rewrite !G, !Hst by done. }
  assert (E3 : check_report_claim d = check_report_claim e).
  { unfold check_report_claim. rewrite Hnone, Hclaim.
    by rewrite (G "report_artifact"), (G "report_sha256"), (G "egress_ok"), (G "egress_error") by done. }
  unfold from_dict. cbn [is_dict dict_of negb]. rewrite Hhas, Hsub, E1, E2, E3.
  by rewrite !G, !Hst by done.
Qed.

(** What a decoded report has of the fields that may be left out. *)
Lemma from_dict_parts d rep : from_dict (PDict d) = Ok rep ->
  has_keys d report_required = true /\ keys_subset d (report_required ++ report_optional) = true /\
  rep_report_artifact rep = str_opt (get d "report_artifact") /\
  rep_report_sha256 rep = str_opt (get d "report_sha256") /\
  get_or d "process_started" (PBool true) = PBool (er_process_started (rep_result rep)) /\
  encodes_claim (get d "worker_claim") (er_claim (rep_result rep)).
Proof.
  unfold from_dict. cbn [is_dict negb dict_of]. intros H. passed H. rename Heqb into Hkeys.
  apply res_bind_ok in H as ([] & _ & H).
  apply res_bind_ok in H as ([] & Hpr & H). apply check_process_ok in Hpr as (_ & Hst & _).
  apply res_bind_ok in H as (claim & Hcl & H). cbn zeta in H. passed H.
  apply res_bind_ok in H as (qs & _ & H). apply res_bind_ok in H as (rm & _ & H).
  passed H. apply res_bind_ok in H as ([ec er] & _ & H). passed H. injection H as <-. bsplit.
  cbn -[get get_or]. split_and!; try done; [by rewrite bool_of_bool|].
  unfold check_report_claim in Hcl. apply res_bind_ok in Hcl as (cl & Hp & Hcl). cbn zeta in Hcl. passed Hcl.
  injection Hcl as <-. destruct (is_none (get d "worker_claim")) eqn:En.
  - injection Hp as <-. by apply is_none_spec.
  - destruct (_parse_claim _) as [c|] eqn:Ep; [|done]. injection Hp as <-. by apply parse_claim_iff in Ep as [_ ?].
Qed.

Lemma decoded_describes d rep : from_dict (PDict d) = Ok rep -> valid_report rep /\ describes d rep.
Proof.
  intros H. destruct (from_dict_parts d rep H) as (Hhas & Hsub & Hart & Hsha & Hst & Hcl).
  destruct (from_dict_fields _ _ H) as (V & d' & [= <-] & Hf). split; [done|]. split; try done.
  intros k Hk Hs. destruct (dget d k) as [v|] eqn:Ek.
  - unfold get, get_or. by rewrite Ek, (Hf k v Ek Hk).
  - assert (k ∉ report_required) as Hn by (intros Hin; by rewrite (has_keys_get d _ k Hhas Hin) in Ek).
    assert (get d k = PNone) as -> by (unfold get, get_or; by rewrite Ek).
    assert (get d "report_artifact" = PNone -> rep_report_artifact rep = None) as Ha by (intros E; by rewrite Hart, E).
    assert (get d "report_sha256" = PNone -> rep_report_sha256 rep = None) as Hsh by (intros E; by rewrite Hsha, E).
    unfold get, get_or in *. destruct (dget (dict_of (as_dict rep)) k) as [v|] eqn:Ev; [|done].
    assert (k ∈ report_required ++ report_optional) as Hin.
    { eapply keys_subset_elem; [|exact Ev]. done. }
    apply elem_of_app in Hin as [|Hin]; [done|]. unfold report_optional in Hin.
    repeat (apply elem_of_cons in Hin as [->|Hin]); [..|done|by apply not_elem_of_nil in Hin].
    + rewrite Ek in Ha. unfold as_dict in Ev. rewrite (Ha eq_refl) in Ev. by injection Ev as <-.
    + rewrite Ek in Hsh. unfold as_dict in Ev. rewrite (Hsh eq_refl) in Ev. by injection Ev as <-.
Qed.

(** C35: the validator of reports accepts exactly the dictionaries that describe a
    canonical report, and returns that report: all required fields and no unknown
    ones are there, every field has the value that the report's own dictionary
    gives it (the artifact and its digest may be left out where they are null, and
    the start of a worker that was started), the claim is given field by field, and
    the derived fields (conclusion, reason, questions, remaining, artifact name,
    digest) are the functions of the identity and the observation that the builder
    computes.  In particular a canonical report's own dictionary decodes to it. *)
Theorem from_dict_exact p rep :
  (from_dict p = Ok rep <-> valid_report rep /\ exists d, p = PDict d /\ describes d rep) /\
  (valid_report rep -> from_dict (as_dict rep) = Ok rep).
Proof.
  split; [|apply from_dict_as_dict]. split.
  - intros H. destruct (from_dict_fields _ _ H) as (_ & d & -> & _).
    destruct (decoded_describes d rep H). split; [done|]. by exists d.
  - intros (V & d & -> & D). rewrite <- (from_dict_as_dict rep V).
    destruct D as [Hhas Hsub Hf Hst Hcl].
    change (as_dict rep) with (PDict (dict_of (as_dict rep))).
    assert (get (dict_of (as_dict rep)) "worker_claim" =
      match er_claim (rep_result rep) with Some c => claim_dict c | None => PNone end) as Eas by done.
    apply from_dict_reads; try done; rewrite Eas; destruct (er_claim (rep_result rep)) as [c|] eqn:Ec.
    + destruct Hcl as (dc & -> & _). done.
    + by rewrite Hcl.
    + pose proof (vr_outcome _ V c Ec) as Ho. rewrite (parse_claim_dict c Ho). by apply parse_claim_iff.
    + by rewrite Hcl.
Qed.

(** A dictionary that leaves out what may be left out. *)
Definition short_dict : dict :=
  [("schema", PStr _REPORT_SCHEMA); ("execution_id", PStr "e1"); ("ticket_id", PStr "t1");
   ("code_base_head", PStr "c0"); ("control_head", PStr "h0"); ("execution_branch", PStr "branch");
   ("execution_path", PStr "/ws"); ("workspace_head", PNone); ("process_returncode", PInt 0);
   ("transport_error", PNone); ("transport_ok", PBool true); ("egress_error", PNone); ("egress_ok", PBool true);
   ("worker_claim", PDict [("outcome", PStr "completed"); ("summary", PStr "did it"); ("remaining", PList []);
                           ("questions", PList [PStr "next?"])]);
   ("conclusion", PStr "completed"); ("questions", PList [PStr "next?"]); ("remaining", PList []);
   ("reason", PStr "valid worker claim")].

Definition short_report : ExecutionReport :=
  mkReport "e1" "t1" "c0" "h0" "branch" "/ws" None
    (mkResult 0 None None (Some (mkClaim "completed" "did it" [] ["next?"] None)) "completed" ["next?"] []
       "valid worker claim" true) None None.

Lemma from_dict_exact_witness : describes short_dict short_report /\ from_dict (as_dict short_report) = Ok short_report.
Proof.
  assert (H : from_dict (PDict short_dict) = Ok short_report) by (vm_compute; reflexivity).
  destruct (from_dict_exact (PDict short_dict) short_report) as [[Hd _] Hv].
  destruct (Hd H) as (V & d & [= <-] & D). split; [exact D|exact (Hv V)].
Defined.
