(* ===== verification/RuntimeData.v ===== *)
(** The data of the service engine, [src/devlegate/runtime.py] up to
    [ServiceEngine]: snapshots and plans with their dictionary forms, the
    request and workflow fingerprints, the worker identity read from persisted
    state, the Git status summary and the commit-chain tests. *)

From S2P Require Export Tickets ExecutionResult.

(** * Small helpers *)

Definition opt_dict {A} (f : A -> pyval) (o : option A) : pyval :=
  match o with Some x => f x | None => PNone end.

Definition pair_dict (a b : string) (p : string * string) : pyval :=
  PDict [(a, PStr (fst p)); (b, PStr (snd p))].

(** [dict(counts)] for pairs of a name and a number. *)
Definition counts_dict (counts : list (string * Z)) : pyval :=
  PDict (foldl (fun d kv => dset d (fst kv) (PInt (snd kv))) [] counts).

(** [_is_git_identity]: forty characters, hexadecimal when lowered. *)
Definition _is_git_identity (value : pyval) : bool :=
  match value with
  | PStr s => (str_len s =? 40)%nat && all_bytes is_lower_hex (ascii_lower s)
  | _ => false
  end.

(** * Intents, authorizations, observations *)

Record IterationIntent : Type := mkIntent {
  in_retry_ticket_id : option string;
  in_force_retry : bool
}.

Record ExecutionAuthorization : Type := mkAuth {
  au_ticket_id : string;
  au_kind : string
}.

Definition is_automatic_resume (a : ExecutionAuthorization) : bool :=
  (au_kind a =? "automatic_resume")%string.
Definition is_explicit_retry (a : ExecutionAuthorization) : bool :=
  (au_kind a =? "explicit_retry")%string.
Definition is_zero_delta_retry (a : ExecutionAuthorization) : bool :=
  (au_kind a =? "zero_delta_product_drift")%string.
Definition is_forced_retry (a : ExecutionAuthorization) : bool :=
  (au_kind a =? "forced_retry")%string.

Record GitObservation : Type := mkGitObs {
  go_branch : option string;
  go_detached : bool;
  go_local_head : string;
  go_remote_ref : string;
  go_remote_head : option string;
  go_working_tree_clean : bool;
  go_working_tree_fingerprint : string
}.

#[export] Instance GitObservation_eq_dec : EqDecision GitObservation.
Proof. solve_decision. Defined.

Definition git_dict (g : GitObservation) : pyval :=
  PDict [("branch", opt_str (go_branch g)); ("detached", PBool (go_detached g));
         ("local_head", PStr (go_local_head g)); ("remote_ref", PStr (go_remote_ref g));
         ("remote_head", opt_str (go_remote_head g));
         ("working_tree_clean", PBool (go_working_tree_clean g));
         ("working_tree_fingerprint", PStr (go_working_tree_fingerprint g))].

Record ExecutionPlan : Type := mkPlan {
  pl_action : string;
  pl_reason : string;
  pl_ticket_id : option string;
  pl_ticket_title : option string;
  pl_ticket_state : option string;
  pl_bound : bool;
  pl_code : option GitObservation;
  pl_control : option GitObservation
}.

#[export] Instance ExecutionPlan_eq_dec : EqDecision ExecutionPlan.
Proof. solve_decision. Defined.

Definition plan_dict (p : ExecutionPlan) : pyval :=
  PDict [("action", PStr (pl_action p)); ("reason", PStr (pl_reason p));
         ("ticket", match pl_ticket_id p with
            | Some k => PDict [("id", PStr k); ("title", opt_str (pl_ticket_title p));
                               ("state", opt_str (pl_ticket_state p))]
            | None => PNone
            end);
         ("bound", PBool (pl_bound p));
         ("observation", PDict [("code", opt_dict git_dict (pl_code p));
                                ("control", opt_dict git_dict (pl_control p))])].

Record AdmissionBarrier : Type := mkBarrier {
  ab_action : string;
  ab_kind : string;
  ab_reason : string;
  ab_ticket_id : option string
}.

Record BlockedReason : Type := mkBlocked {
  br_kind : string;
  br_ticket_id : option string;
  br_tickets : list (string * string)
}.

#[export] Instance BlockedReason_eq_dec : EqDecision BlockedReason.
Proof. solve_decision. Defined.

Definition blocked_dict (b : BlockedReason) : pyval :=
  if (br_kind b =? "dependencies")%string
  then PDict [("kind", PStr (br_kind b));
              ("tickets", PList (map (pair_dict "id" "state") (br_tickets b)))]
  else PDict ([("kind", PStr (br_kind b))] ++
              match br_ticket_id b with Some k => [("ticket_id", PStr k)] | None => [] end).

Record FailedExecution : Type := mkFailed {
  fe_ticket_id : string;
  fe_title : string;
  fe_reason : string;
  fe_retryable : bool;
  fe_nonretryable_reason : option string;
  fe_interruption_kind : option string;
  fe_manual_retry_required : bool
}.

#[export] Instance FailedExecution_eq_dec : EqDecision FailedExecution.
Proof. solve_decision. Defined.

Definition display_reason (f : FailedExecution) : string :=
  if fe_retryable f then fe_reason f else or_else (fe_nonretryable_reason f) "unknown".

Definition failed_dict (f : FailedExecution) : pyval :=
  PDict [("id", PStr (fe_ticket_id f)); ("title", PStr (fe_title f));
         ("reason", PStr (fe_reason f)); ("retryable", PBool (fe_retryable f));
         ("nonretryable_reason", opt_str (fe_nonretryable_reason f));
         ("interruption_kind", opt_str (fe_interruption_kind f));
         ("manual_retry_required", PBool (fe_manual_retry_required f))].

Record RetryCandidate : Type := mkRetryCandidate {
  rc_ticket_id : string;
  rc_title : string;
  rc_reason : string;
  rc_kind : string
}.

Record StatusSnapshot : Type := mkStatus {
  ss_phase : string;
  ss_bound_ticket_id : option string;
  ss_persisted_body_present : bool;
  ss_code : GitObservation;
  ss_control : option GitObservation;
  ss_counts : list (string * Z);
  ss_runnable : list (string * string);
  ss_blocked : list (string * string * BlockedReason);
  ss_review : list (string * string);
  ss_accepted : list (string * string);
  ss_next_ticket : option (string * string);
  ss_plan : ExecutionPlan;
  ss_failed_executions : list FailedExecution;
  ss_reconciliation : option dict;
  ss_execution_stage : option string;
  ss_execution_id : option string;
  ss_bound_ticket_title : option string;
  ss_lifecycle_integration : option (string * string);
  ss_eligible : list (string * string)
}.

Definition id_title : string * string -> pyval := pair_dict "id" "title".

(** [x if self.bound_ticket_id else None] *)
Definition when_bound (s : StatusSnapshot) (o : option string) : pyval :=
  if negb (or_else (ss_bound_ticket_id s) "" =? "")%string then opt_str o else PNone.

Definition status_dict (s : StatusSnapshot) : pyval :=
  PDict ([("execution", PDict
      [("phase", PStr (ss_phase s)); ("stage", when_bound s (ss_execution_stage s));
       ("execution_id", when_bound s (ss_execution_id s));
       ("bound_ticket", opt_str (ss_bound_ticket_id s));
       ("ticket_title", opt_str (ss_bound_ticket_title s));
       ("persisted_body", PBool (ss_persisted_body_present s))]);
    ("observation", PDict [("code", git_dict (ss_code s));
                           ("control", opt_dict git_dict (ss_control s))]);
    ("tickets", PDict
      [("counts", counts_dict (ss_counts s));
       ("eligible", PList (map id_title (ss_eligible s)));
       ("blocked", PList (map (fun b => PDict [("id", PStr (fst (fst b)));
          ("title", PStr (snd (fst b))); ("reason", blocked_dict (snd b))]) (ss_blocked s)));
       ("review", PList (map id_title (ss_review s)));
       ("accepted", PList (map id_title (ss_accepted s)));
       ("next", opt_dict id_title (ss_next_ticket s))]);
    ("plan", plan_dict (ss_plan s));
    ("failed_executions", PList (map failed_dict (ss_failed_executions s)));
    ("reconciliation", opt_dict PDict (ss_reconciliation s))] ++
    match ss_lifecycle_integration s with
    | Some p => [("lifecycle", PDict [("integration", pair_dict "ticket_id" "state" p)])]
    | None => []
    end).

Record ServiceSnapshot : Type := mkService {
  sv_lifecycle : string;
  sv_phase : string;
  sv_execution_stage : option string;
  sv_worker_running : bool;
  sv_selected_ticket_id : option string;
  sv_execution_id : option string;
  sv_product : option GitObservation;
  sv_control : option GitObservation;
  sv_counts : list (string * Z);
  sv_runnable : list (string * string);
  sv_review : list (string * string);
  sv_accepted : list (string * string);
  sv_blocked_reason : option string
}.

Definition service_dict (s : ServiceSnapshot) : pyval :=
  PDict [("service", PDict [("lifecycle", PStr (sv_lifecycle s));
                            ("worker_running", PBool (sv_worker_running s))]);
    ("runtime", PDict [("phase", PStr (sv_phase s));
       ("execution_stage", opt_str (sv_execution_stage s));
       ("selected_ticket_id", opt_str (sv_selected_ticket_id s));
       ("execution_id", opt_str (sv_execution_id s))]);
    ("observation", PDict [("product", opt_dict git_dict (sv_product s));
                           ("control", opt_dict git_dict (sv_control s))]);
    ("workflow", PDict [("counts", counts_dict (sv_counts s));
       ("runnable", PList (map id_title (sv_runnable s)));
       ("review", PList (map id_title (sv_review s)));
       ("accepted", PList (map id_title (sv_accepted s)))]);
    ("blocked_reason", opt_str (sv_blocked_reason s))].

(** * Request fingerprints *)

Definition mutation_value (method : string) (payload : list (string * string)) : pyval :=
  PDict [("method", PStr method);
         ("payload", PDict (map (fun kv => (fst kv, PStr (snd kv))) payload))].

Definition _mutation_fingerprint (method : string) (payload : list (string * string)) : string :=
  sha256_hex (dumps compact_style (mutation_value method payload)).

Definition flag (b : bool) : string := if b then "1" else "0".

Definition _retry_request_fingerprint (ticket_id : string) (force : bool) : string :=
  if negb force then _mutation_fingerprint "retry" [("ticket_id", ticket_id)]
  else _mutation_fingerprint "retry" [("ticket_id", ticket_id); ("force", flag force)].

Definition _drop_request_fingerprint (ticket_id execution_id : string) : string :=
  _mutation_fingerprint "drop" [("ticket_id", ticket_id); ("execution_id", execution_id)].

Definition _recover_request_fingerprint (ticket_id execution_id observed_head : string) : string :=
  _mutation_fingerprint "recover"
    [("ticket_id", ticket_id); ("execution_id", execution_id); ("observed_head", observed_head)].

Definition _reconcile_request_fingerprint (ticket_id : string) (onto : option string)
    (rewrite_published : bool) : string :=
  _mutation_fingerprint "reconcile-update-base"
    [("ticket_id", ticket_id); ("onto", default "<current-product-head>" onto);
     ("rewrite_published", flag rewrite_published)].

Definition _reconcile_resume_request_fingerprint (ticket_id : string) : string :=
  _mutation_fingerprint "reconcile-resume" [("ticket_id", ticket_id)].

Definition _reconcile_auto_request_fingerprint (ticket_id : string) (onto : option string) : string :=
  _mutation_fingerprint "reconcile-auto"
    [("ticket_id", ticket_id); ("onto", default "<auto>" onto)].

Definition _control_reconcile_request_fingerprint (from_head to_head : string) : string :=
  _mutation_fingerprint "reconcile-control" [("from", from_head); ("to", to_head)].

(** * The worker identity of persisted state *)

(** [worker_supervisor.WorkerProcessIdentity] *)
Record WorkerProcessIdentity : Type := mkWorkerIdentity {
  wi_execution_id : string;
  wi_pid : Z;
  wi_pgid : Z;
  wi_sid : Z;
  wi_boot_id : string;
  wi_start_time : Z;
  wi_containment_id : option string
}.

#[export] Instance WorkerProcessIdentity_eq_dec : EqDecision WorkerProcessIdentity.
Proof. solve_decision. Defined.

Definition identity_required : list string :=
  ["execution_id"; "pid"; "pgid"; "sid"; "boot_id"; "start_time"].

Definition invalid_identity {A} : res A := raise DevlegateError "invalid worker identity".

Definition positive_int (v : pyval) : bool := is_plain_int v && (0 <? int_of v)%Z.

(** [set(value) < {...}] is the proper subset test. *)
Definition keys_below (d : dict) (ks : list string) : bool :=
  keys_subset d ks && negb (has_keys d ks).

Definition _worker_identity_from_value (value : pyval) (execution_id : option pyval)
    : res (option WorkerProcessIdentity) :=
  if is_none value then Ok None
  else
  let d := dict_of value in
  if negb (is_dict value) || negb (keys_subset d (identity_required ++ ["containment_id"]))
     || keys_below d identity_required
  then invalid_identity
  else
  matches ← match execution_id with
            | Some x => if is_none x then Ok true
                        else v ← getitem d "execution_id"; Ok (py_eq v x)
            | None => Ok true
            end;
  if negb matches
  then raise DevlegateError "worker identity does not match execution identity"
  else
  x ← getitem d "execution_id";
  if negb (nonempty_str x) then invalid_identity else
  positive ← res_all (fun f => v ← getitem d f; Ok (positive_int v)) ["pid"; "pgid"; "sid"];
  if negb positive then invalid_identity else
  start ← getitem d "start_time";
  if negb (is_plain_int start) || (int_of start <? 0)%Z then invalid_identity else
  boot ← getitem d "boot_id";
  if negb (nonempty_str boot) then invalid_identity
  else if not_opt_str (get d "containment_id") then invalid_identity
  else Ok (Some (mkWorkerIdentity (str_of x) (int_of (get d "pid")) (int_of (get d "pgid"))
                   (int_of (get d "sid")) (str_of boot) (int_of start)
                   (str_opt (get d "containment_id")))).

(** * Workflow fingerprints *)

(** What the fingerprints see of one directory entry. *)
Inductive fp_entry : Type :=
  | FpFile (bytes : string)
  | FpSymlink
  | FpOther.

Inductive fp_directory : Type :=
  | FpMissing
  | FpNotDirectory
  | FpDirectory (entries : list (string * fp_entry)).

Definition fp_line (state : string) (e : string * fp_entry) : string :=
  let '(kind, digest) := match snd e with
    | FpFile bytes => ("file", sha256_hex bytes)
    | FpSymlink => ("symlink", "")
    | FpOther => ("other", "")
    end in
  state +:+ "/" +:+ fst e +:+ NUL +:+ kind +:+ NUL +:+ digest +:+ LF.

Definition workflow_entries (state : string) (dir : fp_directory) : list string :=
  match dir with
  | FpMissing => [state +:+ NUL +:+ "missing" +:+ LF]
  | FpNotDirectory => [state +:+ NUL +:+ "non-directory" +:+ LF]
  | FpDirectory entries =>
      (state +:+ NUL +:+ "dir" +:+ LF) ::
      map (fp_line state)
        (List.filter (fun e => is_canonical_ticket_name (fst e)) (sorted_by fst entries))
  end.

Definition _workflow_fingerprint (repo : WorkflowState -> fp_directory) : string :=
  sha256_hex (of_chars (List.concat
    (map (fun s => workflow_entries (state_name s) (repo s)) _WORKFLOW_STATES))).

Definition todo_entry (e : string * fp_entry) : option string :=
  match snd e with
  | FpFile bytes =>
      if is_canonical_ticket_name (fst e)
      then Some (fst e +:+ NUL +:+ sha256_hex bytes +:+ LF) else None
  | _ => None
  end.

Definition _todo_fingerprint (dir : fp_directory) : string * Z :=
  let entries := match dir with
    | FpDirectory es => py_sorted (cat_options (map todo_entry es))
    | _ => []
    end in
  (sha256_hex (of_chars entries), Z.of_nat (length entries)).

(** * The Git status summary *)

Definition _CONFLICT_CODES : list string := ["DD"; "AU"; "UD"; "UA"; "DU"; "AA"; "UU"].

Record status_counts : Type := mkCounts {
  sc_tracked_modified : Z;
  sc_staged : Z;
  sc_untracked : Z;
  sc_deleted : Z;
  sc_renamed : Z;
  sc_conflicted : Z
}.

Definition count_if (b : bool) (n : Z) : Z := if b then (n + 1)%Z else n.

(** One line of [git status --porcelain]; indexing a code of fewer than two
    characters raises. *)
Definition status_line (s : status_counts) (line : string) : res status_counts :=
  let cs := take 2 (utf8_chars line) in
  let code := of_chars cs in
  if (code =? "??")%string
  then Ok (mkCounts (sc_tracked_modified s) (sc_staged s) (sc_untracked s + 1)
             (sc_deleted s) (sc_renamed s) (sc_conflicted s))
  else match cs with
  | [c0; c1] =>
      Ok (mkCounts
            (count_if (negb (c1 =? " ")%string) (sc_tracked_modified s))
            (count_if (negb (c0 =? " ")%string) (sc_staged s))
            (sc_untracked s)
            (count_if (existsb (String.eqb "D") cs) (sc_deleted s))
            (count_if (existsb (String.eqb "R") cs) (sc_renamed s))
            (count_if (existsb (String.eqb code) _CONFLICT_CODES) (sc_conflicted s)))
  | _ => raise PyIndexError "string index out of range"
  end.

Definition _status_summary (status : string) : res status_counts :=
  res_fold status_line (mkCounts 0 0 0 0 0 0) (splitlines status).

Definition _status_fingerprint (status : string) : string := sha256_hex status.

(** * Commit chains, on what [git rev-list --parents -n 1] prints *)

Section Commits.
(** The exit status and the fields of the output for a revision. *)
Variable rev_parents : string -> Z * list string.

Definition single_parent (rev : string) : option string :=
  match rev_parents rev with
  | (code, [_; parent]) => if (code =? 0)%Z then Some parent else None
  | _ => None
  end.

Definition _is_same_parent_replacement (original target : string) : bool :=
  if (original =? target)%string then false
  else match single_parent original, single_parent target with
  | Some a, Some b => (a =? b)%string
  | _, _ => false
  end.

Fixpoint linear_from (previous : string) (commits : list string) : bool :=
  match commits with
  | [] => true
  | c :: cs =>
      match single_parent c with
      | Some p => (p =? previous)%string && linear_from c cs
      | None => false
      end
  end.

Definition _is_linear_chain (root : string) (commits : list string) : bool :=
  linear_from root commits && negb (bool_decide (commits = [])).
End Commits.

(** * Fingerprints of requests identify them *)

Definition sha256_collision : Prop := exists a b, a <> b /\ sha256_hex a = sha256_hex b.

(** The mutating requests with the arguments their fingerprints cover. *)
Inductive request : Type :=
  | Retry (ticket_id : string) (force : bool)
  | Drop (ticket_id execution_id : string)
  | Recover (ticket_id execution_id observed_head : string)
  | UpdateBase (ticket_id : string) (onto : option string) (rewrite_published : bool)
  | ReconcileResume (ticket_id : string)
  | ReconcileAuto (ticket_id : string) (onto : option string)
  | ControlReconcile (from_head to_head : string).

Definition request_parts (r : request) : string * list (string * string) :=
  match r with
  | Retry t f => ("retry", ("ticket_id", t) :: if f then [("force", "1")] else [])
  | Drop t x => ("drop", [("ticket_id", t); ("execution_id", x)])
  | Recover t x h => ("recover", [("ticket_id", t); ("execution_id", x); ("observed_head", h)])
  | UpdateBase t o w => ("reconcile-update-base",
      [("ticket_id", t); ("onto", default "<current-product-head>" o); ("rewrite_published", flag w)])
  | ReconcileResume t => ("reconcile-resume", [("ticket_id", t)])
  | ReconcileAuto t o => ("reconcile-auto", [("ticket_id", t); ("onto", default "<auto>" o)])
  | ControlReconcile a b => ("reconcile-control", [("from", a); ("to", b)])
  end.

Definition request_fingerprint (r : request) : string :=
  match r with
  | Retry t f => _retry_request_fingerprint t f
  | Drop t x => _drop_request_fingerprint t x
  | Recover t x h => _recover_request_fingerprint t x h
  | UpdateBase t o w => _reconcile_request_fingerprint t o w
  | ReconcileResume t => _reconcile_resume_request_fingerprint t
  | ReconcileAuto t o => _reconcile_auto_request_fingerprint t o
  | ControlReconcile a b => _control_reconcile_request_fingerprint a b
  end.

(** The placeholder a fingerprint uses for an absent target. *)
Definition placeholder (r : request) : request :=
  match r with
  | UpdateBase t None w => UpdateBase t (Some "<current-product-head>") w
  | ReconcileAuto t None => ReconcileAuto t (Some "<auto>")
  | _ => r
  end.

Lemma request_fingerprint_parts r :
  request_fingerprint r =
    _mutation_fingerprint (fst (request_parts r)) (snd (request_parts r)).
Proof. by destruct r as [t []| | | | | |]. Qed.

Lemma parts_placeholder r r' : request_parts r = request_parts r' -> placeholder r = placeholder r'.
Proof.
  destruct r as [t f| | |t o w| |t o|], r' as [t' f'| | |t' o' w'| |t' o'|]; cbn;
    try discriminate; try (destruct f); try (destruct f'); try (destruct o); try (destruct o');
    cbn; try (destruct w); try (destruct w'); cbn; congruence.
Qed.

(** Texts of a request that JSON can carry. *)
Definition request_ok (r : request) : Prop :=
  json_ok (mutation_value (fst (request_parts r)) (snd (request_parts r))).

Lemma dumps_inj v w :
  json_ok v -> json_ok w -> dumps compact_style v = dumps compact_style w -> canon v = canon w.
Proof.
  intros Hv Hw H.
  assert (S : style_ok compact_style) by (by exists "", "").
  pose proof (loads_dumps compact_style v "" S Hv eq_refl eq_refl) as H1.
  pose proof (loads_dumps compact_style w "" S Hw eq_refl eq_refl) as H2.
  rewrite !str_app_nil_r, H in *. congruence.
Qed.

Lemma mutation_canon m p :
  canon (mutation_value m p) =
    PDict [("method", PStr m);
           ("payload", PDict (map (fun kv => (fst kv, PStr (snd kv))) (sorted_by fst p)))].
Proof.
  unfold mutation_value. cbn [canon map fst snd].
  rewrite map_map. cbn [fst snd canon]. rewrite (sorted_by_map fst fst) by done. reflexivity.
Qed.

(** two mutating requests with the same fingerprint are the same request, up
    to the placeholder that stands for an absent reconciliation target, unless
    they exhibit a SHA-256 collision: the canonical JSON that is hashed
    determines the method and every argument. *)
Theorem request_fingerprint_identifies r r' :
  request_ok r -> request_ok r' -> request_fingerprint r = request_fingerprint r' ->
  placeholder r = placeholder r' \/ sha256_collision.
Proof.
  intros Hr Hr' H. rewrite !request_fingerprint_parts in H.
  destruct (decide (dumps compact_style (mutation_value (fst (request_parts r)) (snd (request_parts r))) =
                    dumps compact_style (mutation_value (fst (request_parts r')) (snd (request_parts r')))))
    as [E|E]; [left|by right; eexists _, _].
  apply dumps_inj in E; [|done|done]. rewrite !mutation_canon in E. injection E as Hm Hp.
  apply parts_placeholder.
  assert (Hs : sorted_by fst (snd (request_parts r)) = sorted_by fst (snd (request_parts r'))).
  { revert Hp. generalize (sorted_by fst (snd (request_parts r))),
      (sorted_by fst (snd (request_parts r'))). intros l. induction l as [|[k v] l IH];
      intros [|[k' v'] l']; cbn; try done. intros [= -> -> H']. f_equal. auto. }
  clear Hp H Hr Hr'.
  destruct r as [t []| | |t [o|] []| |t [o|]|], r' as [t' []| | |t' [o'|] []| |t' [o'|]|];
    cbn in Hm; try discriminate Hm; vm_compute in Hs; cbn; congruence.
Qed.

Lemma request_fingerprint_identifies_witness :
  request_ok (Retry "t1" true) /\
  (placeholder (Retry "t1" true) = placeholder (Retry "t1" true) \/ sha256_collision).
Proof.
  assert (H : request_ok (Retry "t1" true)) by (apply ascii_json_ok; vm_compute; reflexivity).
  split; [exact H|]. by apply (request_fingerprint_identifies (Retry "t1" true) (Retry "t1" true) H H).
Defined.

(** * The worker identity validator *)

(** The dictionary the engine persists for an identity. *)
Definition identity_dict (w : WorkerProcessIdentity) : dict :=
  [("execution_id", PStr (wi_execution_id w)); ("pid", PInt (wi_pid w));
   ("pgid", PInt (wi_pgid w)); ("sid", PInt (wi_sid w)); ("boot_id", PStr (wi_boot_id w));
   ("start_time", PInt (wi_start_time w)); ("containment_id", opt_str (wi_containment_id w))].

Record valid_identity (w : WorkerProcessIdentity) : Prop := {
  vi_execution_id : wi_execution_id w <> "";
  vi_boot_id : wi_boot_id w <> "";
  vi_pids : (0 < wi_pid w)%Z /\ (0 < wi_pgid w)%Z /\ (0 < wi_sid w)%Z;
  vi_start_time : (0 <= wi_start_time w)%Z
}.

Lemma getitem_get d k v : getitem d k = Ok v -> get d k = v /\ dget d k = Some v.
Proof. unfold getitem, get, get_or. destruct (dget d k); [|done]. by intros [= ->]. Qed.

Lemma worker_identity_fields value expected w :
  _worker_identity_from_value value expected = Ok (Some w) ->
  valid_identity w /\
  (exists d, value = PDict d /\
     forall k v, dget d k = Some v -> dget (identity_dict w) k = Some v) /\
  (forall x, expected = Some (PStr x) -> wi_execution_id w = x).
Proof.
  unfold _worker_identity_from_value. intros H.
  destruct (is_none value); [discriminate H|].
  destruct (is_dict value) eqn:Hd; [|discriminate H]. apply is_dict_spec in Hd as [d ->].
  cbn [negb orb dict_of] in H. destruct (negb _ || _) eqn:Hk in H; [discriminate H|].
  apply orb_false_iff in Hk as [Hsub%negb_false_iff _].
  apply res_bind_ok in H as (b & Hb & H). destruct b; [|discriminate H]. cbn [negb] in H.
  apply res_bind_ok in H as (x & Hx & H). passed H. apply negb_false_iff in Heqb.
  apply res_bind_ok in H as (ps & Hps & H). destruct ps; [|discriminate H]. cbn [negb] in H.
  apply res_all_ok_true in Hps. rewrite Forall_forall in Hps.
  apply res_bind_ok in H as (st & Hst & H). passed H.
  apply orb_false_iff in Heqb0 as [Hsi%negb_false_iff Hs0].
  apply res_bind_ok in H as (bo & Hbo & H). passed H. injection H as <-.
  apply negb_false_iff in Heqb0. apply nonempty_str_spec in Heqb as (xs & -> & Hxs).
  apply nonempty_str_spec in Heqb0 as (bs & -> & Hbs).
  apply getitem_get in Hx as [Hx Hx'], Hst as [Hst Hst'], Hbo as [Hbo Hbo'].
  assert (Hpos : forall f, In f ["pid"; "pgid"; "sid"] -> positive_int (get d f) = true).
  { intros f Hf. apply list_elem_of_In in Hf. apply Hps in Hf.
    apply res_bind_ok in Hf as (v & Hv & [= Hf]). by apply getitem_get in Hv as [-> _]. }
  unfold positive_int in Hpos. split_and!.
  + split; cbn; try done; [|by apply Z.ltb_ge].
    split_and!; apply Z.ltb_lt; match goal with |- (_ <? int_of (get _ ?f))%Z = true =>
      destruct (andb_prop _ _ (Hpos f ltac:(cbn; tauto))); done end.
  + exists d. split; [done|]. intros k v Hk.
    pose proof (keys_subset_elem _ _ _ _ Hsub Hk) as Hin.
    assert (Hg : get d k = v) by (unfold get, get_or; by rewrite Hk).
    unfold identity_required in Hin. cbn [app] in Hin.
    repeat (apply elem_of_cons in Hin; destruct Hin as [-> | Hin];
      [unfold identity_dict; cbn [dget String.eqb Ascii.eqb Bool.eqb];
       cbn -[get str_opt opt_str int_of]; f_equal; rewrite <- Hg;
       solve [ congruence
             | rewrite opt_str_str by done; done
             | rewrite <- Hst in Hsi; by apply int_of_plain
             | match goal with |- PInt (int_of (get _ ?f)) = _ =>
                 destruct (andb_prop _ _ (Hpos f ltac:(cbn; tauto))); by apply int_of_plain end
             | rewrite Hst; by apply int_of_plain ] |]).
    by apply not_elem_of_nil in Hin.
  + intros y ->. cbn in Hb. unfold getitem in Hb. rewrite Hx' in Hb. cbn in Hb.
    injection Hb as Hb. by apply String.eqb_eq in Hb.
Qed.

Lemma worker_identity_readback w :
  valid_identity w ->
  _worker_identity_from_value (PDict (identity_dict w)) (Some (PStr (wi_execution_id w))) =
    Ok (Some w).
Proof.
  revert w.
  intros [x pid pgid sid boot st cid] [Hx Hb (H1 & H2 & H3) H4]. cbn in *.
  unfold _worker_identity_from_value. cbn. rewrite String.eqb_refl. cbn.
  unfold nonempty_str, positive_int. cbn. apply String.eqb_neq in Hx, Hb. rewrite Hx, Hb. cbn.
  apply Z.ltb_lt in H1, H2, H3. apply Z.ltb_ge in H4. rewrite H1, H2, H3. cbn. rewrite H4.
  by destruct cid.
Qed.

(** a worker identity that the persisted-state reader accepts has non-empty
    execution and boot ids, positive process, group and session ids and a
    non-negative start time, belongs to the expected execution when one is given,
    and every field of the identity is the one the state holds; conversely the
    persisted form of such an identity is read back unchanged. *)
Theorem worker_identity_exact :
  (forall value expected w,
     _worker_identity_from_value value expected = Ok (Some w) ->
     valid_identity w /\
     (exists d, value = PDict d /\
        forall k v, dget d k = Some v -> dget (identity_dict w) k = Some v) /\
     (forall x, expected = Some (PStr x) -> wi_execution_id w = x)) /\
  (forall w, valid_identity w ->
     _worker_identity_from_value (PDict (identity_dict w)) (Some (PStr (wi_execution_id w))) =
       Ok (Some w)).
Proof. split; [exact worker_identity_fields | exact worker_identity_readback]. Qed.

(** The shape check of the identity reader tests for a proper subset of the
    required fields, so a dictionary that misses some of them but has the
    optional one is let through and ends in a [KeyError] instead of the
    [DevlegateError] the callers handle. *)
Theorem worker_identity_shape_check_gap :
  _worker_identity_from_value (PDict [("containment_id", PStr "c")]) None =
    raise PyKeyError "execution_id" /\
  _worker_identity_from_value (PDict [("pid", PInt 1)]) None =
    raise DevlegateError "invalid worker identity".
Proof. split; reflexivity. Qed.

(** * Fingerprints of directories *)

(** Sorting by distinct keys does not depend on the initial order. *)
Lemma sorted_by_unique {A} (f : A -> string) l l' :
  NoDup (map f l) -> l ≡ₚ l' -> sorted_by f l = sorted_by f l'.
Proof.
  intros Hnd Hp. assert (Hs : sorted_by f l ≡ₚ sorted_by f l') by (by rewrite !sorted_by_perm).
  pose proof (sorted_by_sorted f l) as H1. pose proof (sorted_by_sorted f l') as H2.
  assert (Hnd1 : NoDup (map f (sorted_by f l)))
    by (by rewrite (Permutation_map f (sorted_by_perm f l))).
  revert Hs H1 H2 Hnd1. generalize (sorted_by f l), (sorted_by f l'). clear.
  intros l. induction l as [|x l IH]; intros l' Hp H1 H2 Hnd;
    [by apply Permutation_nil in Hp as ->|].
  destruct l' as [|y l']; [by symmetry in Hp; apply Permutation_nil in Hp|].
  apply StronglySorted_inv in H1 as [H1 Hx], H2 as [H2 Hy].
  assert (x = y) as ->.
  { assert (Hin : x ∈ y :: l') by (rewrite <- Hp; by left).
    assert (Hin' : y ∈ x :: l) by (rewrite Hp; by left).
    apply elem_of_cons in Hin as [->|Hin]; [done|].
    apply elem_of_cons in Hin' as [->|Hin']; [done|].
    rewrite Forall_forall in Hx, Hy. specialize (Hx y Hin'). specialize (Hy x Hin).
    apply NoDup_cons in Hnd as [Hn _]. destruct Hn.
    apply list_elem_of_fmap. exists y. split; [|done].
    by apply (anti_symm String.le). }
  f_equal. apply IH; try done; [by apply Permutation_cons_inv in Hp|].
  by apply NoDup_cons in Hnd as [_ ?].
Qed.

Lemma py_sorted_unique l l' : l ≡ₚ l' -> py_sorted l = py_sorted l'.
Proof.
  intros Hp. apply (StronglySorted_unique String.le);
    [apply StronglySorted_merge_sort; apply _ | apply StronglySorted_merge_sort; apply _|].
  by rewrite !py_sorted_perm.
Qed.

Lemma cat_options_perm {A} (l l' : list (option A)) : l ≡ₚ l' -> cat_options l ≡ₚ cat_options l'.
Proof.
  induction 1 as [|[x|] l l' _ IH|[x|] [y|] l|l1 l2 l3 _ IH1 _ IH2]; cbn; auto.
  - apply Permutation_swap.
  - by rewrite IH1.
Qed.

(** Two listings of the same directory: the entries in some order. *)
Definition same_directory (d e : fp_directory) : Prop :=
  match d, e with
  | FpMissing, FpMissing | FpNotDirectory, FpNotDirectory => True
  | FpDirectory l, FpDirectory l' => l ≡ₚ l' /\ NoDup (map fst l)
  | _, _ => False
  end.

(** C37: the workflow and todo fingerprints depend only on the content of the
    directories, not on the order in which the file system lists them. *)
Theorem fingerprints_ignore_listing_order repo repo' d d' :
  (forall s, same_directory (repo s) (repo' s)) -> same_directory d d' ->
  _workflow_fingerprint repo = _workflow_fingerprint repo' /\
  _todo_fingerprint d = _todo_fingerprint d'.
Proof.
  intros Hrepo Hd. split.
  - unfold _workflow_fingerprint. do 2 f_equal. f_equal. apply map_ext. intros s.
    specialize (Hrepo s). unfold workflow_entries.
    destruct (repo s), (repo' s); try done. destruct Hrepo as [Hp Hnd].
    by rewrite (sorted_by_unique fst _ _ Hnd Hp).
  - unfold _todo_fingerprint. destruct d, d'; try done. destruct Hd as [Hp _].
    by rewrite (py_sorted_unique _ _ (cat_options_perm _ _ (Permutation_map todo_entry Hp))).
Qed.

Definition listing_a : fp_directory := FpDirectory [("a.md", FpFile "x"); ("b.md", FpFile "y")].
Definition listing_b : fp_directory := FpDirectory [("b.md", FpFile "y"); ("a.md", FpFile "x")].

Lemma fingerprints_ignore_listing_order_witness :
  same_directory listing_a listing_b /\
  _workflow_fingerprint (fun _ => listing_a) = _workflow_fingerprint (fun _ => listing_b).
Proof.
  assert (H : same_directory listing_a listing_b).
  { split; [apply Permutation_swap|]. apply (bool_decide_unpack _). vm_compute. exact I. }
  split; [exact H|].
  exact (proj1 (fingerprints_ignore_listing_order (fun _ => listing_a) (fun _ => listing_b)
                  listing_a listing_b (fun _ => H) H)).
Defined.
