(* ===== verification/RuntimeStore.v ===== *)
(** The durable state store, [src/devlegate/runtime_store.py]: the persistence
    boundary as a class with its laws, and the SQLite implementation on a model
    of the one database file.  Statements outside a transaction take effect at
    once; the statements between [BEGIN IMMEDIATE] and the commit take effect at
    the commit.  Where SQLite can fail is an argument of each operation. *)

From S2P Require Export RuntimeData.

(** * The boundary *)

(** Where the database refuses, with the text of its error. *)
Inductive db_step : Type := AtConnect | AtBegin | AtCommit.

#[export] Instance db_step_eq_dec : EqDecision db_step.
Proof. solve_decision. Defined.

Abbreviation db_failure := (option (db_step * string)).

Class RuntimeStore (S : Type) : Type := {
  store_load : db_failure -> S -> res pyval;
  store_replace : db_failure -> dict -> S -> res unit * S
}.

(** What the engine relies on, for a store in a sane state ([store_ok], which
    every replacement keeps): the store holds a decoded object; a successful
    replacement is what is loaded next, up to the order of its keys; a failed
    one changes nothing that can be loaded; both fail only with the store's own
    error. *)
Class RuntimeStoreLaws (S : Type) `{RuntimeStore S} : Type := {
  store_ok : S -> Prop;
  replace_keeps_ok : forall f state s, store_ok s -> store_ok (snd (store_replace f state s));
  load_after_replace : forall f state s s',
    store_ok s -> json_ok (PDict state) -> store_replace f state s = (Ok tt, s') ->
    store_load None s' = Ok (canon (PDict state));
  load_after_failure : forall f state s e s' v,
    store_replace f state s = (Raise e, s') ->
    store_load None s = Ok v -> store_load None s' = Ok v;
  replace_error : forall f state s e s',
    store_replace f state s = (Raise e, s') -> exn_cls e = RuntimeStoreError;
  load_error : forall f s e, store_load f s = Raise e -> exn_cls e = RuntimeStoreError
}.

(** * The database *)

(** A column value: SQLite columns are dynamically typed. *)
Record database : Type := mkDb {
  db_version : Z;
  (** The [runtime_state] table, if it exists, with its only row. *)
  db_state : option (option (pyval * pyval));
  (** The [supervision_authority] table with its only row: [authority],
      [unit_name], [state_key], [env_file], [repository]. *)
  db_authority : option (option (list pyval))
}.

Definition schema_version : Z := 2.
Definition empty_db : database := mkDb 0 None None.

(** The file: missing, or a database. *)
Record SQLiteRuntimeStore : Type := mkStore {
  rs_path : string;
  rs_file : option database
}.

Definition store_error {A} (msg : string) : res A := raise RuntimeStoreError msg.

Definition fails_at (step : db_step) (f : db_failure) : option string :=
  match f with
  | Some (s, text) => if decide (s = step) then Some text else None
  | None => None
  end.

Definition _validate_schema (db : database) : res unit :=
  if negb (db_version db =? schema_version)%Z
  then store_error ("unsupported runtime database schema version: " +:+ str_of_Z (db_version db))
  else if is_missing (db_state db) then store_error "runtime database schema is incomplete"
  else if is_missing (db_authority db)
  then store_error "runtime database authority schema is incomplete"
  else Ok tt.

(** [CREATE TABLE IF NOT EXISTS] *)
Definition create_table {A} (t : option (option A)) : option (option A) :=
  match t with Some rows => Some rows | None => Some None end.

(** [_initialize_schema]: the database as the statements leave it, and whether
    the schema is valid then. *)
Definition _initialize_schema (db : database) : res unit * database :=
  let version := db_version db in
  if (schema_version <? version)%Z
  then (store_error ("unsupported runtime database schema version: " +:+ str_of_Z version), db)
  else
  let db1 := mkDb (if (version =? schema_version)%Z then version else schema_version)
               (if (version =? 0)%Z then create_table (db_state db) else db_state db)
               (if (version <=? 1)%Z then create_table (db_authority db) else db_authority db) in
  (_validate_schema db1, db1).

Definition open_db (s : SQLiteRuntimeStore) : database := default empty_db (rs_file s).

Definition with_db (s : SQLiteRuntimeStore) (db : database) : SQLiteRuntimeStore :=
  mkStore (rs_path s) (Some db).

(** The frame shared by the writing operations: connect, initialise, begin,
    change, commit; [what] names the operation in the error text. *)
Definition transaction (what : string) (f : db_failure)
    (change : database -> res database) (s : SQLiteRuntimeStore)
    : res unit * SQLiteRuntimeStore :=
  let failed text := store_error (what +:+ rs_path s +:+ ": " +:+ text) in
  match fails_at AtConnect f with
  | Some text => (store_error ("cannot open runtime database " +:+ rs_path s +:+ ": " +:+ text), s)
  | None =>
      match _initialize_schema (open_db s) with
      | (Raise e, db) => (Raise e, with_db s db)
      | (Ok _, db) =>
          match fails_at AtBegin f with
          | Some text => (failed text, with_db s db)
          | None =>
              match change db with
              | Raise e => (failed (exn_msg e), with_db s db)
              | Ok db' =>
                  match fails_at AtCommit f with
                  | Some text => (failed text, with_db s db)
                  | None => (Ok tt, with_db s db')
                  end
              end
          end
      end
  end.

(** [SQLiteRuntimeStore.probe] *)
Definition probe (f : db_failure) (s : SQLiteRuntimeStore) : res unit * SQLiteRuntimeStore :=
  transaction "cannot initialize runtime database " f Ok s.

(** * Operations *)

(** [_read]: the decoded state and the revision. *)
Definition _read (f : db_failure) (s : SQLiteRuntimeStore) : res (option (dict * Z)) :=
  match rs_file s with
  | None => Ok None
  | Some db =>
      match fails_at AtConnect f with
      | Some text => store_error ("cannot open runtime database " +:+ rs_path s +:+ ": " +:+ text)
      | None =>
          _ ← _validate_schema db;
          match db_state db with
          | Some (Some (payload, revision)) =>
              if negb (is_str payload) || negb (is_plain_int revision) || (int_of revision <? 1)%Z
              then store_error "runtime database state row is invalid"
              else match loads (str_of payload) with
              | None => store_error "cannot decode runtime state payload: invalid JSON"
              | Some (PDict state) => Ok (Some (state, int_of revision))
              | Some _ => store_error "runtime state payload is not an object"
              end
          | _ => Ok None
          end
      end
  end.

Definition idle_state : dict := [("phase", PStr "idle")].

Definition load (f : db_failure) (s : SQLiteRuntimeStore) : res pyval :=
  r ← _read f s;
  Ok (PDict (match r with Some (state, _) => state | None => idle_state end)).

Definition observe (f : db_failure) (s : SQLiteRuntimeStore) : res (pyval * string) :=
  r ← _read f s;
  Ok (match r with
      | Some (state, revision) => (PDict state, "sqlite:" +:+ str_of_Z revision)
      | None => (PDict idle_state, "missing")
      end).

(** The row a replacement writes: the next revision. *)
Definition replace_row (payload : string) (db : database) : res database :=
  match db_state db with
  | Some None => Ok (mkDb (db_version db) (Some (Some (PStr payload, PInt 1))) (db_authority db))
  | Some (Some (_, revision)) =>
      if negb (is_plain_int revision) then raise PyTypeError "unsupported operand"
      else Ok (mkDb (db_version db) (Some (Some (PStr payload, PInt (int_of revision + 1))))
                 (db_authority db))
  | None => raise PyOSError "no such table: runtime_state"
  end.

Definition replace (f : db_failure) (state : dict) (s : SQLiteRuntimeStore)
    : res unit * SQLiteRuntimeStore :=
  transaction "cannot write runtime database " f
    (replace_row (dumps default_style (PDict state))) s.

Definition set_authority (row : option (list pyval)) (db : database) : res database :=
  match db_authority db with
  | Some _ => Ok (mkDb (db_version db) (db_state db) (Some row))
  | None => raise PyOSError "no such table: supervision_authority"
  end.

Definition establish_systemd_authority (f : db_failure)
    (unit_name state_key env_file repository : string) (s : SQLiteRuntimeStore)
    : res unit * SQLiteRuntimeStore :=
  transaction "cannot establish systemd authority in " f
    (set_authority (Some (map PStr ["systemd"; unit_name; state_key; env_file; repository]))) s.

Definition clear_systemd_authority (f : db_failure) (s : SQLiteRuntimeStore)
    : res unit * SQLiteRuntimeStore :=
  transaction "cannot clear systemd authority in " f (set_authority None) s.

Definition authority_keys : list string :=
  ["authority"; "unit_name"; "state_key"; "env_file"; "repository"].

(** [_read_authority] *)
Definition _read_authority (f : db_failure) (s : SQLiteRuntimeStore) : res (option dict) :=
  match rs_file s with
  | None => Ok None
  | Some db =>
      match fails_at AtConnect f with
      | Some text => store_error ("cannot open runtime database " +:+ rs_path s +:+ ": " +:+ text)
      | None =>
          _ ← _validate_schema db;
          match db_authority db with
          | Some (Some row) =>
              if negb (forallb nonempty_str row)
              then store_error "runtime supervision authority is invalid"
              else Ok (Some (zip authority_keys row))
          | _ => Ok None
          end
      end
  end.

Definition supervision_authority := _read_authority.

#[export] Instance sqlite_store : RuntimeStore SQLiteRuntimeStore := {
  store_load := load;
  store_replace := replace
}.

(** * Laws *)

Lemma initialize_ok db db' : _initialize_schema db = (Ok tt, db') -> _validate_schema db' = Ok tt.
Proof. unfold _initialize_schema. destruct (_ <? _)%Z; [done|]. intros [= H <-]. exact H. Qed.

(** Initialising keeps what can be read. *)
Lemma initialize_keeps db r db' :
  _initialize_schema db = (r, db') -> _validate_schema db = Ok tt -> db' = db /\ r = Ok tt.
Proof.
  unfold _initialize_schema. intros H V. pose proof V as V'. unfold _validate_schema in V'.
  destruct (Z.eqb_spec (db_version db) schema_version) as [E|]; [|done]. cbn in V'.
  rewrite E in H. cbn in H. destruct db as [v st au]. cbn in *. subst v. injection H as <- <-.
  split; [done|]. exact V.
Qed.

Lemma validate_schema_tables db :
  _validate_schema db = Ok tt ->
  db_version db = schema_version /\ is_Some (db_state db) /\ is_Some (db_authority db).
Proof.
  unfold _validate_schema. destruct (Z.eqb_spec (db_version db) schema_version); [|done]. cbn.
  destruct (db_state db), (db_authority db); cbn; intros; try done.
Qed.

(** How a transaction ends. *)
Lemma transaction_cases what f change s :
  (exists e, exn_cls e = RuntimeStoreError /\ transaction what f change s = (Raise e, s)) \/
  (exists e db, exn_cls e = RuntimeStoreError /\ snd (_initialize_schema (open_db s)) = db /\
     transaction what f change s = (Raise e, with_db s db)) \/
  (exists db db', _initialize_schema (open_db s) = (Ok tt, db) /\ change db = Ok db' /\
     transaction what f change s = (Ok tt, with_db s db')).
Proof.
  unfold transaction. destruct (fails_at AtConnect f); [left; eexists; by split; [|reflexivity]|]. right.
  destruct (_initialize_schema (open_db s)) as [[[]|e] db] eqn:E.
  2: { left. exists e, db. split_and!; try done. unfold _initialize_schema in E.
       destruct (_ <? _)%Z; [by injection E as <- <-|]. injection E as E _.
       unfold _validate_schema, store_error in E. repeat case_match; try done;
         by injection E as <-. }
  destruct (fails_at AtBegin f); [left; eexists _, _; by split_and!; [|done|reflexivity]|].
  destruct (change db) eqn:Ec; [|left; eexists _, _; by split_and!; [|done|reflexivity]].
  destruct (fails_at AtCommit f); [left; eexists _, _; by split_and!; [|done|reflexivity]|].
  right. by eexists _, _.
Qed.

Lemma failed_keeps_load s db v :
  snd (_initialize_schema (open_db s)) = db -> load None s = Ok v -> load None (with_db s db) = Ok v.
Proof.
  unfold load, _read, with_db. destruct s as [p [d|]]; cbn.
  - intros <- H. destruct (_validate_schema d) as [[]|] eqn:V; [|done]. cbn in H.
    destruct (_initialize_schema d) as [r d'] eqn:E. cbn.
    destruct (initialize_keeps _ _ _ E V) as [-> _]. rewrite V. cbn. exact H.
  - intros <- [= <-]. reflexivity.
Qed.

Lemma read_errors f s e : _read f s = Raise e -> exn_cls e = RuntimeStoreError.
Proof.
  unfold _read, _validate_schema, store_error, raise. intros H.
  repeat (case_match; cbn in H; try done; try by injection H as <-).
Qed.

(** The revision of the row, if there is one, is a positive integer. *)
Definition sane_revision (s : SQLiteRuntimeStore) : Prop :=
  forall db payload revision, rs_file s = Some db ->
    db_state db = Some (Some (payload, revision)) -> positive_int revision = true.

Lemma initialize_row db payload revision :
  db_state (snd (_initialize_schema db)) = Some (Some (payload, revision)) ->
  db_state db = Some (Some (payload, revision)).
Proof.
  unfold _initialize_schema. destruct (_ <? _)%Z; [done|]. cbn.
  destruct (_ =? 0)%Z; [|done]. by destruct (db_state db) as [[]|].
Qed.

Lemma sane_initialized s :
  sane_revision s -> sane_revision (with_db s (snd (_initialize_schema (open_db s)))).
Proof.
  intros Hs db payload revision [= <-] Hrow. apply initialize_row in Hrow.
  unfold open_db in Hrow. destruct (rs_file s) as [db0|] eqn:E; [by eapply Hs | done].
Qed.

(** The row after a replacement: the payload with the next positive revision. *)
Lemma replace_row_spec payload db db' :
  (forall p r, db_state db = Some (Some (p, r)) -> positive_int r = true) ->
  replace_row payload db = Ok db' ->
  exists n, (0 < n)%Z /\
    db' = mkDb (db_version db) (Some (Some (PStr payload, PInt n))) (db_authority db).
Proof.
  unfold replace_row. intros Hpos H. destruct (db_state db) as [[[p r]|]|]; [| |done].
  - specialize (Hpos p r eq_refl). apply andb_prop in Hpos as [Hi Hp]. rewrite Hi in H.
    cbn in H. injection H as <-. apply Z.ltb_lt in Hp. eexists. split; [|done]. lia.
  - injection H as <-. by exists 1%Z.
Qed.

Lemma load_written p db payload n state :
  _validate_schema db = Ok tt -> (0 < n)%Z -> loads payload = Some (PDict state) ->
  load None (mkStore p (Some (mkDb (db_version db) (Some (Some (PStr payload, PInt n)))
                                (db_authority db)))) = Ok (PDict state).
Proof.
  intros V Hn Hl. destruct (validate_schema_tables _ V) as (Hv & _ & [a Ha]).
  unfold load, _read. cbn [rs_file fails_at]. unfold _validate_schema. cbn [db_version db_state db_authority].
  rewrite Hv, Ha. cbn. destruct (Z.ltb_spec n 1); [lia|]. by rewrite Hl.
Qed.

Lemma replace_result f state s :
  let r := replace f state s in
  (exists e, exn_cls e = RuntimeStoreError /\ r = (Raise e, s)) \/
  (exists e, exn_cls e = RuntimeStoreError /\
     r = (Raise e, with_db s (snd (_initialize_schema (open_db s))))) \/
  (exists db db', _initialize_schema (open_db s) = (Ok tt, db) /\
     replace_row (dumps default_style (PDict state)) db = Ok db' /\ r = (Ok tt, with_db s db')).
Proof.
  cbn zeta. unfold replace.
  destruct (transaction_cases "cannot write runtime database " f
              (replace_row (dumps default_style (PDict state))) s)
    as [?|[(e & db & He & <- & H)|?]]; [by left | right; left; eauto | by right; right].
Qed.

Lemma sane_open s : sane_revision s ->
  forall p r, db_state (snd (_initialize_schema (open_db s))) = Some (Some (p, r)) ->
    positive_int r = true.
Proof. intros Hs p r H. exact (sane_initialized s Hs _ p r eq_refl H). Qed.

#[export] Instance sqlite_store_laws : RuntimeStoreLaws SQLiteRuntimeStore.
Proof.
  refine {| store_ok := sane_revision |}; cbn [store_load store_replace sqlite_store].
  - intros f state s Hs. destruct (replace_result f state s)
      as [(e & _ & ->)|[(e & _ & ->)|(db & db' & Hi & Hc & ->)]]; cbn [snd];
      [done | by apply sane_initialized|].
    apply replace_row_spec in Hc as (n & Hn & ->);
      [|replace db with (snd (_initialize_schema (open_db s))) by (by rewrite Hi); by apply sane_open].
    intros db' payload revision [= <-] [= <- <-]. cbn. by apply Z.ltb_lt.
  - intros f state s s' Hs Hok H. destruct (replace_result f state s)
      as [(e & _ & H')|[(e & _ & H')|(db & db' & Hi & Hc & H')]]; rewrite H' in H;
      try discriminate H. injection H as <-.
    apply replace_row_spec in Hc as (n & Hn & ->);
      [|replace db with (snd (_initialize_schema (open_db s))) by (by rewrite Hi); by apply sane_open].
    apply load_written; [by eapply initialize_ok | done|].
    rewrite <- (str_app_nil_r (dumps _ _)). by rewrite loads_dumps by (try done; by exists " ", " ").
  - intros f state s e s' v H Hl. destruct (replace_result f state s)
      as [(e' & _ & H')|[(e' & _ & H')|(db & db' & _ & _ & H')]]; rewrite H' in H;
      try discriminate H; injection H as _ <-; [done|]. by apply failed_keeps_load.
  - intros f state s e s' H. destruct (replace_result f state s)
      as [(e' & He & H')|[(e' & He & H')|(db & db' & _ & _ & H')]]; rewrite H' in H;
      try discriminate H; by injection H as <- _.
  - intros f s e H. unfold load in H. destruct (_read f s) eqn:E; [done|].
    injection H as <-. by eapply read_errors.
Defined.
