(* ===== verification/StateInvariant.v ===== *)
(** The persisted state of the service engine, [src/devlegate/runtime.py]:
    [_load_state], the invariant [_validate_state_invariant] checks on every load
    and before every write, and [_save_state], the only operation that changes
    the state.  The state is a dictionary; the checks are written against it in
    the source's order, section by section. *)

From S2P Require Export RuntimeStore.

Definition invalid {A} (msg : string) : res A := raise DevlegateError msg.

(** [if not b: raise DevlegateError(msg)] *)
Definition require (b : bool) (msg : string) : res unit := ensure b DevlegateError msg.

(** [isinstance(d.get(f), str) and d[f]] for every field *)
Definition all_text (d : dict) (fields : list string) : bool :=
  forallb (fun f => nonempty_str (get d f)) fields.

Definition all_str (d : dict) (fields : list string) : bool :=
  forallb (fun f => is_str (get d f)) fields.

(** * The reconciliation section *)

Definition reconciliation_fields : list string :=
  ["ticket_id"; "execution_id"; "original_base"; "observed_product"; "worker_checkpoint";
   "product_remote_head"; "control_head"; "execution_branch"; "execution_path"; "evidence_ref"].

(** [except ExecutionReportError] around [ExecutionReport.from_dict]. *)
Definition report_of (v : pyval) (msg : string) : res ExecutionReport :=
  catch (from_dict v) is_report_error (fun _ => invalid msg).

Definition report_bound (rep : ExecutionReport) (d : dict) : bool :=
  eq_str (get d "ticket_id") (rep_ticket_id rep) &&
  eq_str (get d "execution_id") (rep_execution_id rep) &&
  eq_str (get d "original_base") (rep_code_base_head rep) &&
  eq_str (get d "control_head") (rep_control_head rep) &&
  eq_str (get d "execution_branch") (rep_execution_branch rep) &&
  eq_str (get d "execution_path") (rep_execution_path rep) &&
  match rep_workspace_head rep with
  | Some h => eq_str (get d "worker_checkpoint") h
  | None => false
  end.

Definition validate_reconciliation (v : pyval) : res unit :=
  if is_none v then Ok tt else
  let d := dict_of v in
  if negb (is_dict v) then invalid "invalid reconciliation state" else
  status_ok ← in_strs (get d "status") ["pending"; "resolving"; "resolved"];
  _ ← require status_ok "invalid reconciliation state";
  _ ← require (all_text d reconciliation_fields) "invalid reconciliation identity";
  _ ← require (negb (eq_str (get d "status") "resolving" &&
                     negb (eq_str (get d "resolution") "resume")))
        "resolving reconciliation must be a resume";
  resolution_ok ← (if has_key d "resolution"
                   then in_none_strs (get d "resolution") ["resume"; "update-base"]
                   else Ok true);
  _ ← require resolution_ok "invalid reconciliation resolution";
  class_ok ← (if has_key d "resolution_class"
              then in_strs (get d "resolution_class")
                ["resume"; "update-base"; "update-base with published-lineage rewrite"]
              else Ok true);
  _ ← require class_ok "invalid reconciliation resolution class";
  _ ← require (negb (has_key d "reason") || is_str (get d "reason"))
        "invalid reconciliation reason";
  _ ← require (negb (has_key d "execution_remote_head") ||
               is_none (get d "execution_remote_head") ||
               _is_git_identity (get d "execution_remote_head"))
        "invalid reconciliation execution remote identity";
  if negb (has_key d "execution_report") then Ok tt
  else rep ← report_of (get d "execution_report") "invalid retained reconciliation report";
       require (report_bound rep d) "retained reconciliation report binding is invalid".

(** * Failed executions *)

Definition failure_fields : list string :=
  ["execution_id"; "product_head"; "remote_head"; "control_head"; "todo_fingerprint"; "reason"].

Definition validate_failures (v : pyval) : res unit :=
  require (is_dict v && forallb (fun kv => is_dict (snd kv) && all_str (dict_of (snd kv)) failure_fields)
                          (dict_of v))
    "invalid state: failed execution metadata is invalid".

(** * Automatic retry records *)

Definition retry_base_fields : list string :=
  ["status"; "reason"; "ticket_id"; "stale_execution_id"; "original_base"; "worker_checkpoint";
   "product_head"; "control_head"].

Definition retry_required (status : string) (d : dict) : list string :=
  retry_base_fields ++
  (if existsb (String.eqb status) ["pending_admission"; "admitted"; "completed"]
      || ((status =? "not_admitted")%string && has_key d "fresh_execution_id")
   then ["fresh_execution_id"] else []) ++
  (if (status =? "completed")%string then ["completed_conclusion"] else []).

Definition validate_automatic_retry (v : pyval) (current : bool) : res unit :=
  if is_none v then Ok tt else
  let d := dict_of v in
  if negb (is_dict v) then invalid "invalid automatic retry state" else
  status_ok ← in_strs (get d "status")
    (if current then ["pending"; "pending_admission"; "admitted"] else ["completed"; "not_admitted"]);
  _ ← require status_ok "invalid automatic retry status";
  let required := retry_required (str_of (get d "status")) d in
  _ ← require (has_keys d required) "automatic retry identity is incomplete";
  _ ← require (keys_eq d required) "automatic retry fields are invalid";
  _ ← require (all_text d ["reason"; "ticket_id"; "stale_execution_id"; "worker_checkpoint"])
        "automatic retry identity is invalid";
  _ ← require (forallb (fun f => _is_git_identity (get d f))
                 ["original_base"; "product_head"; "control_head"])
        "automatic retry Git identity is invalid";
  _ ← require (negb (existsb (String.eqb "fresh_execution_id") required) ||
               nonempty_str (get d "fresh_execution_id"))
        "automatic retry fresh execution is invalid";
  require (negb (existsb (String.eqb "completed_conclusion") required) ||
           nonempty_str (get d "completed_conclusion"))
    "automatic retry conclusion is invalid".

(** * Interruption, manual retry, accepted integration *)

Definition interruption_kinds : list string :=
  ["operator_abort"; "service_shutdown"; "process_loss"].

Definition validate_interruption (v : pyval) : res unit :=
  require (is_none v || existsb (eq_str v) interruption_kinds) "invalid execution interruption kind".

Definition manual_fields : list string := ["ticket_id"; "execution_id"; "generation"; "request_id"].

Definition validate_manual_retry (v : pyval) : res unit :=
  require (is_none v ||
           (is_dict v && keys_eq (dict_of v) manual_fields && all_text (dict_of v) manual_fields))
    "invalid manual retry marker".

Definition validate_accepted (phase : string) (v : pyval) : res unit :=
  if is_none v then Ok tt else
  _ ← require (phase =? "idle")%string "accepted integration state is only valid while idle";
  let d := dict_of v in
  require (is_dict v && keys_eq d ["ticket_id"; "checkpoint"; "control_head"] &&
           nonempty_str (get d "ticket_id") && _is_git_identity (get d "checkpoint") &&
           _is_git_identity (get d "control_head"))
    "invalid accepted integration state".

(** * The phase-dependent part *)

Definition valid_phases : list string := ["idle"; "merge_pending"; "agent_pending"; "agent_running"].

Definition execution_stages : list string :=
  ["worker-launch"; "worker-running"; "post-worker"; "pre-checkpoint"; "checkpointing";
   "post-checkpoint"; "publishing"; "post-publication"; "lifecycle"].

(** The stages in which the worker has ended or not yet started. *)
Definition workerless_stages : list string :=
  ["worker-launch"; "post-worker"; "pre-checkpoint"; "checkpointing"; "post-checkpoint";
   "publishing"; "post-publication"; "lifecycle"].

Definition report_stages : list string :=
  ["checkpointing"; "post-checkpoint"; "publishing"; "post-publication"].

Definition execution_fields : list string :=
  ["execution_ticket_id"; "execution_base_head"; "execution_control_head"; "execution_branch";
   "execution_path"; "execution_id"].

(** [v is None or (isinstance(v, str) and bool(v))] *)
Definition none_or_text (v : pyval) : bool := is_none v || nonempty_str v.

Definition validate_report_stage (stage : string) (pending : pyval) : res unit :=
  rep ← report_of pending
          ("invalid " +:+ stage +:+ " state: pending execution report is invalid");
  if (stage =? "checkpointing")%string
  then require (is_missing (rep_workspace_head rep))
         "invalid checkpointing state: checkpoint identity is premature"
  else require (negb (or_else (rep_workspace_head rep) "" =? "")%string)
         ("invalid " +:+ stage +:+ " state: checkpoint identity is missing").

(** The checks of [agent_pending] and [agent_running]. *)
Definition validate_agent (phase : string) (identity : option WorkerProcessIdentity) (state : dict)
    : res unit :=
  let wrong msg := "invalid " +:+ phase +:+ " state: " +:+ msg in
  _ ← require (all_str state ["local_head"; "remote_head"; "changed_paths"])
        (wrong "synchronization coordinates are incomplete");
  _ ← require (nonempty_str (get state "selected_ticket_id") &&
               is_str (get state "selected_ticket_body"))
        (wrong "selected ticket binding is incomplete");
  _ ← require (is_str (get state "control_head"))
        (wrong "control revision identity is incomplete");
  let stage := get state "execution_stage" in
  stage_ok ← (if is_none stage then Ok true else in_strs stage execution_stages);
  _ ← require stage_ok "invalid execution stage";
  let running := (phase =? "agent_running")%string in
  let no_worker := is_missing identity in
  _ ← require (negb (running && eq_str stage "worker-running" && no_worker))
        "worker-running state requires worker identity";
  _ ← require (negb (running && existsb (eq_str stage) workerless_stages && negb no_worker))
        "later execution stage cannot retain worker identity";
  _ ← (if running && existsb (eq_str stage) report_stages
       then validate_report_stage (str_of stage) (get state "pending_execution_report")
       else Ok tt);
  _ ← require (has_keys state (execution_fields ++ ["execution_remote_head"]) &&
               all_text state execution_fields &&
               none_or_text (get state "execution_remote_head"))
        "invalid state: execution workspace binding is incomplete";
  require (negb (has_key state "execution_remote_head") ||
           none_or_text (get state "execution_remote_head"))
    "invalid state: execution remote revision identity is invalid".

(** [_validate_state_invariant]; the caller has checked that [phase] is a
    string. *)
Definition _validate_state_invariant (state : dict) : res unit :=
  phase_value ← getitem state "phase";
  phase_ok ← in_strs phase_value valid_phases;
  let phase := str_of phase_value in
  _ ← require phase_ok ("invalid state phase: " +:+ py_str phase_value);
  _ ← validate_reconciliation (get state "reconciliation");
  _ ← validate_failures (get_or state "failed_executions" (PDict []));
  _ ← validate_automatic_retry (get state "automatic_retry") true;
  _ ← validate_automatic_retry (get state "last_automatic_retry") false;
  identity ← _worker_identity_from_value (get state "worker_identity")
               (Some (get state "execution_id"));
  _ ← validate_interruption (get state "execution_interruption_kind");
  _ ← validate_manual_retry (get state "manual_retry_required");
  _ ← require (negb ((phase =? "idle")%string && negb (is_missing identity)))
        "invalid idle state: worker identity is still active";
  _ ← validate_accepted phase (get state "accepted_integration");
  if (phase =? "idle")%string then Ok tt
  else if (phase =? "merge_pending")%string
  then require (all_str state ["local_head"; "remote_head"; "changed_paths"; "control_head"])
         ("invalid merge_pending state: synchronization coordinates " +:+ "are incomplete")
  else validate_agent phase identity state.

(** * Loading and saving *)

Section Engine.
Context {S : Type} `{RuntimeStore S}.
Variable state_file : string.

(** [except RuntimeStoreError as error: raise DevlegateError(str(error))] *)
Definition as_devlegate {A} (m : res A) : res A :=
  catch m (is_class RuntimeStoreError) (fun e => raise DevlegateError (exn_msg e)).

Definition _load_state (f : db_failure) (s : S) : res dict :=
  v ← as_devlegate (store_load f s);
  let state := dict_of v in
  if negb (is_dict v) || negb (is_str (get state "phase"))
  then invalid ("invalid state file: " +:+ state_file)
  else _ ← _validate_state_invariant state; Ok state.

(** The keyword arguments of [_save_state]. *)
Record save_options : Type := mkSave {
  so_clear_execution : bool;
  so_preserve_resume_required : bool;
  so_clear_pre_worker_generation : bool;
  so_clear_operator_recovery : bool;
  so_fields : dict
}.

Definition idle_cleared : list string :=
  ["selected_ticket_id"; "selected_ticket_body"; "selected_ticket_title";
   "pending_execution_report"; "execution_interruption_kind"].

Definition execution_cleared (preserve_resume : bool) : list string :=
  ["execution_ticket_id"; "execution_base_head"; "execution_control_head"; "execution_branch";
   "execution_path"; "execution_id"; "execution_remote_head"; "execution_start_head"] ++
  (if preserve_resume then [] else ["resume_required"]).

Definition generation_cleared : list string :=
  ["execution_stage"; "execution_start_head"; "execution_interruption_kind"; "resume_required"].

(** The dictionary that [_save_state] writes. *)
Definition next_state (current : dict) (phase : string) (o : save_options) : dict :=
  let s0 := dmerge (dmerge current [("phase", PStr phase)]) (so_fields o) in
  let s1 := if (phase =? "idle")%string
            then dset (dpops s0 idle_cleared) "worker_identity" PNone else s0 in
  let s2 := if so_clear_execution o
            then dpops s1 (execution_cleared (so_preserve_resume_required o)) else s1 in
  let s3 := if so_clear_pre_worker_generation o then dpops s2 generation_cleared else s2 in
  if so_clear_operator_recovery o then dpops s3 ["operator_recovery"] else s3.

(** The engine's copy of the state and its store. *)
Record durable : Type := mkDurable { du_state : dict; du_store : S }.

Definition _save_state (f : db_failure) (phase : string) (o : save_options) : py durable unit :=
  fun d =>
    let state := next_state (du_state d) phase o in
    match _validate_state_invariant state with
    | Raise e => (Raise e, d)
    | Ok _ =>
        match store_replace f state (du_store d) with
        | (Raise e, s') => (as_devlegate (Raise e), mkDurable (du_state d) s')
        | (Ok _, s') => (Ok tt, mkDurable state s')
        end
    end.
End Engine.

(** * Validation does not depend on key order *)

Section CanonTests.
Implicit Type v : pyval.

Lemma canon_is_none v : is_none (canon v) = is_none v. Proof. by destruct v. Qed.
Lemma canon_is_str v : is_str (canon v) = is_str v. Proof. by destruct v. Qed.
Lemma canon_is_bool v : is_bool (canon v) = is_bool v. Proof. by destruct v. Qed.
Lemma canon_is_dict v : is_dict (canon v) = is_dict v. Proof. by destruct v. Qed.
Lemma canon_is_plain_int v : is_plain_int (canon v) = is_plain_int v. Proof. by destruct v. Qed.
Lemma canon_int_of v : int_of (canon v) = int_of v. Proof. by destruct v. Qed.
Lemma canon_bool_of v : bool_of (canon v) = bool_of v. Proof. by destruct v. Qed.
Lemma canon_str_of v : str_of (canon v) = str_of v. Proof. by destruct v. Qed.
Lemma canon_str_opt v : str_opt (canon v) = str_opt v. Proof. by destruct v. Qed.
Lemma canon_not_opt_str v : not_opt_str (canon v) = not_opt_str v. Proof. by destruct v. Qed.
Lemma canon_eq_str v s : eq_str (canon v) s = eq_str v s. Proof. by destruct v. Qed.
Lemma canon_nonempty_str v : nonempty_str (canon v) = nonempty_str v. Proof. by destruct v. Qed.
Lemma canon_in_strs v l : in_strs (canon v) l = in_strs v l. Proof. by destruct v. Qed.
Lemma canon_in_none_strs v l : in_none_strs (canon v) l = in_none_strs v l.
Proof. by destruct v. Qed.
Lemma canon_git_identity v : _is_git_identity (canon v) = _is_git_identity v.
Proof. by destruct v. Qed.
Lemma canon_positive_int v : positive_int (canon v) = positive_int v. Proof. by destruct v. Qed.
Lemma canon_none_or_text v : none_or_text (canon v) = none_or_text v. Proof. by destruct v. Qed.

Lemma canon_is_str_list v : is_str_list (canon v) = is_str_list v.
Proof.
  unfold is_str_list. destruct v as [| | | | |l|]; try done. cbn.
  induction l as [|x l IH]; cbn; [done|]. by rewrite canon_is_str, IH.
Qed.

Lemma canon_strings_of v : strings_of (canon v) = strings_of v.
Proof.
  unfold strings_of. destruct v as [| | | | |l|]; try done. cbn.
  induction l as [|x l IH]; cbn; [done|]. by rewrite canon_str_of, IH.
Qed.

Lemma canon_existsb_eq_str v l : existsb (eq_str (canon v)) l = existsb (eq_str v) l.
Proof. induction l as [|x l IH]; cbn; [done|]. by rewrite canon_eq_str, IH. Qed.
End CanonTests.

#[export] Hint Rewrite canon_is_none canon_is_str canon_is_bool canon_is_dict canon_is_plain_int
  canon_int_of canon_bool_of canon_str_of canon_str_opt canon_not_opt_str canon_eq_str
  canon_nonempty_str canon_in_strs canon_in_none_strs canon_git_identity canon_positive_int
  canon_none_or_text canon_is_str_list canon_strings_of canon_existsb_eq_str : canon.

(** A dictionary whose lookups are those of another one, read back. *)
Record read_back (d e : dict) : Prop := {
  rb_get : forall k, get e k = canon (get d k);
  rb_get_or : forall k v, canon v = v -> get_or e k v = canon (get_or d k v);
  rb_has_key : forall k, has_key e k = has_key d k;
  rb_has_keys : forall ks, has_keys e ks = has_keys d ks;
  rb_keys_subset : forall ks, keys_subset e ks = keys_subset d ks
}.

Lemma canon_read_back d : NoDup (keys d) -> read_back d (dict_of (canon (PDict d))).
Proof.
  intros Hnd. split.
  - intros k. unfold get, get_or. rewrite canon_dget by done. by destruct (dget d k).
  - intros k v Hv. unfold get_or. rewrite canon_dget by done. by destruct (dget d k).
  - intros k. unfold has_key. rewrite canon_dget by done. by destruct (dget d k).
  - intros ks. by apply canon_has_keys.
  - apply canon_keys_subset.
Qed.

Lemma json_ok_keys v : json_ok v -> NoDup (keys (dict_of v)).
Proof. destruct v; cbn; try (intros; constructor). by intros [? _]. Qed.

Lemma json_ok_get d k : json_ok (PDict d) -> json_ok (get d k).
Proof.
  intros [_ H]. unfold get, get_or. induction d as [|[j v] d IH]; cbn in *; [done|].
  destruct H as (_ & Hv & H). destruct (j =? k)%string; cbn; auto.
Qed.

Lemma value_read_back v :
  json_ok v -> is_dict v = true -> read_back (dict_of v) (dict_of (canon v)).
Proof. intros Hok [d ->]%is_dict_spec. apply canon_read_back. apply Hok. Qed.

Section ReadBack.
Context {d e : dict} (R : read_back d e).

Lemma rb_all_text fs : all_text e fs = all_text d fs.
Proof.
  unfold all_text. induction fs as [|f fs IH]; cbn; [done|].
  rewrite (rb_get _ _ R), canon_nonempty_str. by rewrite IH.
Qed.

Lemma rb_all_str fs : all_str e fs = all_str d fs.
Proof.
  unfold all_str. induction fs as [|f fs IH]; cbn; [done|].
  rewrite (rb_get _ _ R), canon_is_str. by rewrite IH.
Qed.

Lemma rb_keys_eq ks : keys_eq e ks = keys_eq d ks.
Proof. unfold keys_eq. by rewrite (rb_keys_subset _ _ R), (rb_has_keys _ _ R). Qed.

Lemma rb_keys_below ks : keys_below e ks = keys_below d ks.
Proof. unfold keys_below. by rewrite (rb_keys_subset _ _ R), (rb_has_keys _ _ R). Qed.

Lemma rb_getitem k : getitem e k = canon <$> getitem d k.
Proof.
  unfold getitem. pose proof (rb_has_key _ _ R k) as Hh. pose proof (rb_get _ _ R k) as Hg.
  unfold has_key, get, get_or in *. destruct (dget e k), (dget d k); cbn in *; try done.
  by rewrite Hg.
Qed.
End ReadBack.

Ltac canon_simpl R :=
  rewrite ?(rb_get _ _ R), ?(rb_has_key _ _ R), ?(rb_has_keys _ _ R), ?(rb_keys_subset _ _ R),
    ?(rb_all_text R), ?(rb_all_str R), ?(rb_keys_eq R), ?(rb_keys_below R);
  autorewrite with canon.

Lemma canon_strings v f : _strings (canon v) f = _strings v f.
Proof. unfold _strings. by autorewrite with canon. Qed.

Lemma canon_parse_claim v : json_ok v -> _parse_claim (canon v) = _parse_claim v.
Proof.
  intros Hok. unfold _parse_claim. rewrite canon_is_dict.
  destruct (is_dict v) eqn:Hd; [|done]. pose proof (value_read_back v Hok Hd) as R.
  cbn [andb]. rewrite !(rb_keys_eq R), !(rb_getitem R).
  destruct (negb _); [done|]. unfold fmap, res_fmap, mbind, res_bind.
  destruct (getitem (dict_of v) "outcome"); [|done]. autorewrite with canon.
  destruct (ensure _ _ _); [|done].
  destruct (getitem (dict_of v) "summary"); [|done]. canon_simpl R.
  destruct (ensure _ _ _); [|done]. destruct (ensure _ _ _); [|done].
  destruct (getitem (dict_of v) "remaining"); [|done]. rewrite canon_strings.
  destruct (_strings _ _); [|done].
  destruct (getitem (dict_of v) "questions"); [|done]. by rewrite canon_strings.
Qed.

Lemma canon_from_dict v : json_ok v -> from_dict (canon v) = from_dict v.
Proof.
  intros Hok. unfold from_dict. rewrite canon_is_dict.
  destruct (is_dict v) eqn:Hd; [|done]. pose proof (value_read_back v Hok Hd) as R.
  cbn [negb]. set (d := dict_of v) in *. set (e := dict_of (canon v)) in *.
  assert (Hst : get_or e "process_started" (PBool true) =
                canon (get_or d "process_started" (PBool true))) by (by apply (rb_get_or _ _ R)).
  assert (E1 : check_report_identity e = check_report_identity d).
  { unfold check_report_identity, report_strings. cbn [forallb]. by canon_simpl R. }
  assert (E2 : check_report_process e = check_report_process d).
  { unfold check_report_process. rewrite Hst. by canon_simpl R. }
  assert (E3 : check_report_claim e = check_report_claim d).
  { unfold check_report_claim. canon_simpl R. rewrite canon_parse_claim
      by (apply json_ok_get; by destruct v).
    destruct (if is_none _ then _ else _); [|done]. cbn. by autorewrite with canon. }
  rewrite (rb_has_keys _ _ R), (rb_keys_subset _ _ R), E1, E2, E3, Hst.
  destruct (negb _ || negb _); [done|].
  destruct (check_report_identity d); [|done]. destruct (check_report_process d); [|done].
  destruct (check_report_claim d) as [claim|]; [|done]. unfold mbind, res_bind.
  cbn zeta beta. canon_simpl R. rewrite !canon_strings. destruct (negb (_ && _)); [done|].
  destruct (_strings _ _); [|done]. destruct (_strings _ _); [|done].
  destruct (is_missing claim && _); [done|]. destruct (match claim with Some _ => _ | None => _ end); [done|].
  destruct (_canonical_result _ _ _ _ _) as [[c r]|]; [|done]. by autorewrite with canon.
Qed.

(** ** Each section of the invariant *)

Ltac bind_cases :=
  repeat match goal with
  | |- (?m ≫= _) = (?m ≫= _) => destruct m; [|reflexivity]; unfold mbind at 1 2, res_bind at 1 2
  end.

Lemma canon_report_bound rep d e : read_back d e -> report_bound rep e = report_bound rep d.
Proof.
  intros R. unfold report_bound. canon_simpl R.
  destruct (rep_workspace_head rep); [by autorewrite with canon | done].
Qed.

Lemma canon_report_of v msg : json_ok v -> report_of (canon v) msg = report_of v msg.
Proof. intros. unfold report_of. by rewrite canon_from_dict. Qed.

Lemma canon_validate_reconciliation v :
  json_ok v -> validate_reconciliation (canon v) = validate_reconciliation v.
Proof.
  intros Hok. unfold validate_reconciliation. rewrite canon_is_none, canon_is_dict.
  destruct (is_none v); [done|]. destruct (is_dict v) eqn:Hd; [|done].
  pose proof (value_read_back v Hok Hd) as R. cbn [negb].
  canon_simpl R. rewrite canon_report_of by (apply json_ok_get; by destruct v).
  bind_cases. destruct (negb _); [done|]. destruct (report_of _ _); [|done].
  unfold mbind, res_bind. by rewrite (canon_report_bound _ _ _ R).
Qed.

Lemma forallb_perm {A} (p : A -> bool) l l' : l ≡ₚ l' -> forallb p l = forallb p l'.
Proof.
  induction 1 as [|x l l' _ IH|x y l|l1 l2 l3 _ IH1 _ IH2]; cbn;
    [done | by rewrite IH | | by rewrite IH1].
  by rewrite !andb_assoc, (andb_comm (p x)).
Qed.

Lemma canon_validate_failures v : json_ok v -> validate_failures (canon v) = validate_failures v.
Proof.
  intros Hok. unfold validate_failures. f_equal. rewrite canon_is_dict.
  destruct (is_dict v) eqn:Hd; [|done]. apply is_dict_spec in Hd as [d ->]. cbn [andb dict_of].
  cbn [canon dict_of]. rewrite (forallb_perm _ _ _ (sorted_by_perm _ _)).
  destruct Hok as [_ Hok]. induction d as [|kv d IH]; [done|]. cbn [map forallb fst snd] in *.
  destruct Hok as (_ & Hv & Hok). rewrite IH by done. f_equal. rewrite canon_is_dict.
  destruct (is_dict (snd kv)) eqn:E; [|done].
  by rewrite (rb_all_str (value_read_back _ Hv E)).
Qed.

Lemma canon_retry_required s d e : read_back d e -> retry_required s e = retry_required s d.
Proof. intros R. unfold retry_required. by rewrite (rb_has_key _ _ R). Qed.

Lemma rb_identities {d e} fs : read_back d e ->
  forallb (fun f => _is_git_identity (get e f)) fs = forallb (fun f => _is_git_identity (get d f)) fs.
Proof.
  intros R. induction fs as [|f fs IH]; cbn; [done|].
  by rewrite (rb_get _ _ R), canon_git_identity, IH.
Qed.

Lemma canon_validate_retry v c :
  json_ok v -> validate_automatic_retry (canon v) c = validate_automatic_retry v c.
Proof.
  intros Hok. unfold validate_automatic_retry. rewrite canon_is_none, canon_is_dict.
  destruct (is_none v); [done|]. destruct (is_dict v) eqn:Hd; [|done].
  pose proof (value_read_back v Hok Hd) as R. cbn [negb].
  canon_simpl R. by rewrite !(canon_retry_required _ _ _ R), (rb_identities _ R); canon_simpl R.
Qed.

Lemma canon_validate_manual v : json_ok v -> validate_manual_retry (canon v) = validate_manual_retry v.
Proof.
  intros Hok. unfold validate_manual_retry. rewrite canon_is_none, canon_is_dict.
  destruct (is_dict v) eqn:Hd; [|done]. pose proof (value_read_back v Hok Hd) as R.
  by canon_simpl R.
Qed.

Lemma canon_validate_accepted p v :
  json_ok v -> validate_accepted p (canon v) = validate_accepted p v.
Proof.
  intros Hok. unfold validate_accepted. rewrite canon_is_none, canon_is_dict.
  destruct (is_none v); [done|]. bind_cases.
  destruct (is_dict v) eqn:Hd; [|done]. pose proof (value_read_back v Hok Hd) as R.
  by canon_simpl R.
Qed.

Lemma rb_positive {d e} fs : read_back d e ->
  res_all (fun f => v ← getitem e f; Ok (positive_int v)) fs =
  res_all (fun f => v ← getitem d f; Ok (positive_int v)) fs.
Proof.
  intros R. induction fs as [|f fs IH]; cbn; [done|]. rewrite (rb_getitem R).
  destruct (getitem d f); cbn; [|done]. by rewrite canon_positive_int, IH.
Qed.

(** An identity that is accepted is accepted when read back. *)
Lemma canon_worker_identity v x w :
  json_ok v -> _worker_identity_from_value v (Some x) = Ok w ->
  _worker_identity_from_value (canon v) (Some (canon x)) = Ok w.
Proof.
  intros Hok. unfold _worker_identity_from_value. rewrite !canon_is_none.
  destruct (is_none v); [done|]. rewrite canon_is_dict. destruct (is_dict v) eqn:Hd; [|done].
  pose proof (value_read_back v Hok Hd) as R. cbn [negb orb].
  rewrite (rb_keys_subset _ _ R), (rb_keys_below R). destruct (negb _ || _); [done|].
  rewrite (rb_positive _ R), !(rb_getitem R).
  unfold mbind, res_bind, fmap, res_fmap.
  destruct (getitem (dict_of v) "execution_id") as [i|] eqn:Ei; [|by destruct (is_none x)].
  assert (Hm : forall b, (if is_none x then Ok true else Ok (py_eq i x)) = Ok b ->
             nonempty_str i = true ->
             (if is_none x then Ok true else Ok (py_eq (canon i) (canon x))) = Ok b).
  { intros b Hb (s & -> & _)%nonempty_str_spec. destruct (is_none x); [done|].
    rewrite <- Hb. by destruct x. }
  destruct (if is_none x then Ok true else Ok (py_eq i x)) as [b|] eqn:Eb; [|done].
  destruct (nonempty_str i) eqn:En; [|destruct b; done].
  rewrite (Hm b eq_refl eq_refl). destruct b; [|done]. cbn [negb].
  rewrite canon_nonempty_str, En. cbn [negb]. canon_simpl R.
  destruct (res_all _ _) as [[]|]; [|done|done].
  destruct (getitem (dict_of v) "start_time"); [|done]. autorewrite with canon.
  destruct (getitem (dict_of v) "boot_id"); [|done]. by autorewrite with canon.
Qed.

Lemma canon_validate_agent p i d e :
  read_back d e -> json_ok (PDict d) -> validate_agent p i e = validate_agent p i d.
Proof.
  intros R Hok. unfold validate_agent. canon_simpl R. bind_cases.
  assert (E : validate_report_stage (str_of (get d "execution_stage"))
                (canon (get d "pending_execution_report")) =
              validate_report_stage (str_of (get d "execution_stage"))
                (get d "pending_execution_report")).
  { unfold validate_report_stage. by rewrite canon_report_of by (by apply json_ok_get). }
  by rewrite E.
Qed.

(** A state that satisfies the invariant satisfies it when read back. *)
Lemma canon_invariant d :
  json_ok (PDict d) -> _validate_state_invariant d = Ok tt ->
  _validate_state_invariant (dict_of (canon (PDict d))) = Ok tt.
Proof.
  intros Hok. pose proof (canon_read_back d (proj1 Hok)) as R.
  set (e := dict_of (canon (PDict d))) in *.
  assert (Hfail : get_or e "failed_executions" (PDict []) =
                  canon (get_or d "failed_executions" (PDict [])))
    by (by apply (rb_get_or _ _ R)).
  assert (Hfok : json_ok (get_or d "failed_executions" (PDict []))).
  { pose proof (json_ok_get d "failed_executions" Hok) as H. unfold get, get_or in *.
    destruct (dget d "failed_executions"); [done|]. cbn. split; [constructor | done]. }
  unfold _validate_state_invariant. rewrite (rb_getitem R), Hfail.
  rewrite !(rb_get _ _ R).
  rewrite canon_validate_reconciliation, canon_validate_failures, !canon_validate_retry,
    canon_validate_manual by (done || by apply json_ok_get).
  unfold validate_interruption. autorewrite with canon.
  unfold mbind at 1, res_bind at 1, fmap, res_fmap.
  destruct (getitem d "phase") as [ph|]; [|done]. cbn [mbind res_bind]. autorewrite with canon.
  intros H. apply res_bind_ok in H as ([] & Hp & H).
  2: { apply res_bind_ok in H as (? & ? & ?). done. }
  rewrite Hp. cbn [mbind res_bind]. change (require true ?m) with (Ok tt) in *.
  cbn [mbind res_bind] in H |- *.
  rewrite canon_validate_accepted by (by apply json_ok_get).
  repeat (apply res_bind_ok in H as ([] & Hstep & H); rewrite Hstep; clear Hstep;
          cbn [mbind res_bind]).
  apply res_bind_ok in H as (id & Hid & H).
  rewrite (canon_worker_identity _ _ _ (json_ok_get _ _ Hok) Hid). cbn [mbind res_bind].
  repeat (apply res_bind_ok in H as ([] & Hstep & H);
          rewrite Hstep; clear Hstep; cbn [mbind res_bind]).
  rewrite (rb_all_str R), (canon_validate_agent _ _ _ _ R Hok). exact H.
Qed.

(** * What the invariant guarantees *)

(** Executing the checks of an accepted state. *)
Ltac checked H := let x := fresh "Hc" in apply res_bind_ok in H as ([] & x & H).

Lemma require_ok b msg u : require b msg = Ok u -> b = true.
Proof. unfold require, ensure. by destruct b. Qed.

Lemma identity_none v x : _worker_identity_from_value v x = Ok None -> v = PNone.
Proof.
  unfold _worker_identity_from_value. destruct (is_none v) eqn:E; [by apply is_none_spec in E|].
  intros H. passed H. apply res_bind_ok in H as (? & _ & H). passed H.
  apply res_bind_ok in H as (? & _ & H). passed H. apply res_bind_ok in H as (? & _ & H). passed H.
  apply res_bind_ok in H as (? & _ & H). passed H. apply res_bind_ok in H as (? & _ & H). passed H.
  done.
Qed.

(** The binding of a ticket to an execution workspace. *)
Definition execution_bound (state : dict) : Prop :=
  all_text state ("selected_ticket_id" :: execution_fields) = true /\
  is_str (get state "selected_ticket_body") = true /\
  none_or_text (get state "execution_remote_head") = true /\
  all_str state ["local_head"; "remote_head"; "changed_paths"; "control_head"] = true.

Record agent_facts (phase : string) (state : dict) (identity : option WorkerProcessIdentity) : Prop := {
  af_bound : execution_bound state;
  af_stage : get state "execution_stage" = PNone \/
             exists s, get state "execution_stage" = PStr s /\ s ∈ execution_stages;
  af_worker : phase = "agent_running" -> get state "execution_stage" = PStr "worker-running" ->
              is_Some identity;
  af_no_worker : forall s, phase = "agent_running" -> get state "execution_stage" = PStr s ->
              s ∈ workerless_stages -> identity = None;
  af_report : forall s, phase = "agent_running" -> get state "execution_stage" = PStr s ->
              s ∈ report_stages ->
              exists rep, from_dict (get state "pending_execution_report") = Ok rep /\
                valid_report rep /\
                (if (s =? "checkpointing")%string then rep_workspace_head rep = None
                 else exists h, rep_workspace_head rep = Some h /\ h <> "")
}.

Lemma report_of_ok v msg rep : report_of v msg = Ok rep -> from_dict v = Ok rep.
Proof.
  unfold report_of, catch. destruct (from_dict v) as [r|e]; [done|].
  by destruct (is_report_error e).
Qed.

Lemma report_stage_ok s v :
  validate_report_stage s v = Ok tt ->
  exists rep, from_dict v = Ok rep /\ valid_report rep /\
    (if (s =? "checkpointing")%string then rep_workspace_head rep = None
     else exists h, rep_workspace_head rep = Some h /\ h <> "").
Proof.
  unfold validate_report_stage. intros H. apply res_bind_ok in H as (rep & Hr & H).
  apply report_of_ok in Hr. exists rep. split; [done|].
  split; [exact (proj1 (from_dict_fields _ _ Hr))|].
  destruct (s =? "checkpointing")%string; apply require_ok in H.
  - by destruct (rep_workspace_head rep).
  - unfold or_else in H. destruct (rep_workspace_head rep) as [h|]; [|done].
    exists h. split; [done|]. intros ->. cbn in H. done.
Qed.

Lemma eq_stage state s l :
  get state "execution_stage" = PStr s -> s ∈ l ->
  existsb (eq_str (get state "execution_stage")) l = true.
Proof. intros -> Hs. apply existsb_eq_str. eauto. Qed.

Lemma validate_agent_ok phase identity state :
  validate_agent phase identity state = Ok tt -> agent_facts phase state identity.
Proof.
  unfold validate_agent. cbn zeta. intros H. checked H. checked H. checked H.
  apply require_ok in Hc, Hc0, Hc1.
  apply res_bind_ok in H as (b & Hst & H). checked H. apply require_ok in Hc2. subst b.
  checked H. checked H. apply require_ok in Hc2, Hc3.
  apply negb_true_iff in Hc2, Hc3. checked H. rename Hc4 into Hrep. checked H.
  apply require_ok in Hc4. clear H. bsplit. split.
  - unfold execution_bound, all_text, all_str, execution_fields in *. cbn [forallb] in *. bsplit.
    split_and!; repeat first [done | apply andb_true_iff; split].
  - destruct (is_none (get state "execution_stage")) eqn:En; [left; by apply is_none_spec|].
    right. by apply in_strs_true in Hst.
  - intros -> Hs. rewrite Hs in Hc2. cbn in Hc2. destruct identity; [eauto | done].
  - intros s -> Hs Hin. rewrite (eq_stage _ _ _ Hs Hin) in Hc3. by destruct identity.
  - intros s -> Hs Hin. rewrite (eq_stage _ _ _ Hs Hin), Hs in Hrep. cbn in Hrep.
    by apply report_stage_ok.
Qed.

(** The facts a reader of a valid state may use. *)
Record state_facts (state : dict) : Prop := {
  sf_phase : exists phase, dget state "phase" = Some (PStr phase) /\ phase ∈ valid_phases;
  sf_idle : get state "phase" = PStr "idle" -> get state "worker_identity" = PNone;
  sf_not_idle : get state "phase" <> PStr "idle" -> get state "accepted_integration" = PNone;
  sf_merge : get state "phase" = PStr "merge_pending" ->
    all_str state ["local_head"; "remote_head"; "changed_paths"; "control_head"] = true;
  sf_agent : forall phase, get state "phase" = PStr phase -> phase ∈ ["agent_pending"; "agent_running"] ->
    exists identity,
      _worker_identity_from_value (get state "worker_identity") (Some (get state "execution_id")) =
        Ok identity /\
      agent_facts phase state identity
}.

Lemma invariant_facts state : _validate_state_invariant state = Ok tt -> state_facts state.
Proof.
  unfold _validate_state_invariant. intros H.
  apply res_bind_ok in H as (ph & Hph & H). apply res_bind_ok in H as (b & Hb & H).
  checked H. apply require_ok in Hc. subst b. apply in_strs_true in Hb as (phase & -> & Hin).
  cbn [str_of] in H. apply getitem_get in Hph as [Hph Hph'].
  do 4 (checked H). apply res_bind_ok in H as (identity & Hid & H). do 4 (checked H).
  apply require_ok in Hc5. apply negb_true_iff in Hc5. rename Hc6 into Hacc.
  split.
  - eauto.
  - rewrite Hph. intros [= ->]. cbn in Hc5. destruct identity; [done|]. by eapply identity_none.
  - rewrite Hph. intros Hne. unfold validate_accepted in Hacc.
    destruct (is_none (get state "accepted_integration")) eqn:E; [by apply is_none_spec|].
    checked Hacc. apply require_ok in Hc6. apply String.eqb_eq in Hc6. congruence.
  - rewrite Hph. intros [= ->]. cbn in H. by apply require_ok in H.
  - intros phase' E Hag. rewrite Hph in E. injection E as <-. exists identity. split; [done|].
    destruct (String.eqb_spec phase "idle") as [->|]; [set_solver|].
    destruct (String.eqb_spec phase "merge_pending") as [->|]; [set_solver|].
    by apply validate_agent_ok.
Qed.

(** * Saving *)

Section Saving.
Context {S : Type} `{RuntimeStoreLaws S}.
Variable state_file : string.

(** Memory and store agree, on a state that satisfies the invariant. *)
Definition consistent (d : durable (S := S)) : Prop :=
  _validate_state_invariant (du_state d) = Ok tt /\ store_ok (du_store d) /\
  _load_state state_file None (du_store d) = Ok (dict_of (canon (PDict (du_state d)))).

Lemma load_state_reads s st :
  _load_state state_file None s = Ok st -> exists v, store_load None s = Ok v /\
    forall s', store_load None s' = Ok v -> _load_state state_file None s' = Ok st.
Proof.
  unfold _load_state, as_devlegate. destruct (store_load None s) as [v|e] eqn:E.
  - intros Hl. exists v. split; [done|]. intros s' ->. exact Hl.
  - cbn. by destruct (is_class RuntimeStoreError e).
Qed.

Lemma load_saved state s :
  json_ok (PDict state) -> _validate_state_invariant state = Ok tt ->
  store_load None s = Ok (canon (PDict state)) ->
  _load_state state_file None s = Ok (dict_of (canon (PDict state))).
Proof.
  intros Hok Hv Hl. unfold _load_state, as_devlegate. rewrite Hl. cbn [catch mbind res_bind].
  destruct (invariant_facts _ Hv) as [(ph & Hph & _) _ _ _ _].
  assert (Hs : is_str (get (dict_of (canon (PDict state))) "phase") = true).
  { rewrite (rb_get _ _ (canon_read_back state (proj1 Hok))), canon_is_str.
    unfold get, get_or. by rewrite Hph. }
  change (is_dict (canon (PDict state))) with true. rewrite Hs. cbn [negb orb].
  by rewrite canon_invariant.
Qed.

Lemma save_state_consistent f phase o d :
  consistent d -> json_ok (PDict (next_state (du_state d) phase o)) ->
  let r := fst (_save_state f phase o d) in
  let d' := snd (_save_state f phase o d) in
  consistent d' /\
  match r with
  | Ok _ => du_state d' = next_state (du_state d) phase o
  | Raise _ => du_state d' = du_state d
  end.
Proof.
  intros (Hv & Hs & Hl) Hok. unfold _save_state. set (state := next_state _ _ _) in *.
  destruct (_validate_state_invariant state) as [[]|e] eqn:E; [|done].
  pose proof (replace_keeps_ok f state (du_store d) Hs) as Hs'.
  destruct (store_replace f state (du_store d)) as [[[]|e] s'] eqn:Er; cbn in *.
  - split; [|done]. split_and!; [done|done|]. apply load_saved; [done|done|].
    exact (load_after_replace _ _ _ _ Hs Hok Er).
  - split; [|by unfold as_devlegate, catch; destruct (is_class _ _)]. split_and!; [done|done|].
    destruct (load_state_reads _ _ Hl) as (v & Hv' & Hall). apply Hall.
    exact (load_after_failure _ _ _ _ _ _ Er Hv').
Qed.

(** C14: saving is atomic and keeps memory and store in agreement.  From a state
    where the loaded value is the engine's own, every save ends in such a state
    again, with the invariant intact: after a success both hold exactly the
    requested next state, and after any failure, of validation or of the
    database at any step, both still hold the old one. *)
Theorem save_state_atomic f phase o d r d' :
  consistent d -> json_ok (PDict (next_state (du_state d) phase o)) ->
  _save_state f phase o d = (r, d') ->
  consistent d' /\
  (r = Ok tt -> du_state d' = next_state (du_state d) phase o) /\
  (forall e, r = Raise e -> du_state d' = du_state d).
Proof.
  intros Hc Hok Hr. destruct (save_state_consistent f phase o d Hc Hok) as [Hc' Hm].
  rewrite Hr in Hc', Hm. cbn in *. split; [done|].
  split; [by intros -> | by intros e ->].
Qed.
End Saving.

Definition fresh_engine : durable (S := SQLiteRuntimeStore) :=
  mkDurable idle_state (mkStore "state.sqlite3" None).

Definition merge_fields : save_options :=
  mkSave false false false false
    [("local_head", PStr "a"); ("remote_head", PStr "b"); ("changed_paths", PStr "c");
     ("control_head", PStr "d")].

Lemma fresh_consistent : consistent "state.sqlite3" fresh_engine.
Proof. split_and!; [reflexivity | by intros db p r [=] | reflexivity]. Qed.

Lemma save_state_atomic_witness :
  exists d', _save_state (S := SQLiteRuntimeStore) None "merge_pending" merge_fields fresh_engine =
      (Ok tt, d') /\
    get (du_state d') "phase" = PStr "merge_pending" /\ consistent "state.sqlite3" d'.
Proof.
  eexists. split; [vm_compute; reflexivity|]. split; [reflexivity|].
  refine (proj1 (save_state_atomic "state.sqlite3" None "merge_pending" merge_fields fresh_engine
                   (Ok tt) _ fresh_consistent _ _)).
  - apply ascii_json_ok. vm_compute. reflexivity.
  - vm_compute. reflexivity.
Defined.

(** C36: what every loaded or saved state guarantees.  The phase is one of the
    four; an idle state has no worker identity; accepted integrations exist only
    in idle states; an agent phase has the complete ticket and workspace
    binding; a running worker has a valid identity that names this execution;
    the stages before and after the worker have none; and the stages around
    publication carry a canonical report, without a workspace head exactly
    before the checkpoint. *)
Theorem invariant_guarantees state :
  _validate_state_invariant state = Ok tt ->
  state_facts state /\
  (get state "phase" = PStr "agent_running" ->
   get state "execution_stage" = PStr "worker-running" ->
   exists w, _worker_identity_from_value (get state "worker_identity")
               (Some (get state "execution_id")) = Ok (Some w) /\
     valid_identity w /\ get state "execution_id" = PStr (wi_execution_id w)).
Proof.
  intros Hv. pose proof (invariant_facts _ Hv) as F. split; [exact F|]. intros Hp Hs.
  destruct (sf_agent _ F _ Hp) as (identity & Hid & A); [by right; left|].
  destruct (af_worker _ _ _ A eq_refl Hs) as [w ->]. exists w. split; [done|].
  destruct (af_bound _ _ _ A) as (Ht & _).
  assert (He : nonempty_str (get state "execution_id") = true).
  { unfold all_text, execution_fields in Ht. cbn [forallb] in Ht. by bsplit. }
  apply nonempty_str_spec in He as (x & Hx & _). rewrite Hx in *.
  destruct (worker_identity_fields _ _ _ Hid) as (V & _ & Heq).
  split; [done|]. by rewrite (Heq x eq_refl).
Qed.

Definition running_state : dict :=
  [("phase", PStr "agent_running"); ("execution_stage", PStr "worker-running");
   ("local_head", PStr "l"); ("remote_head", PStr "r"); ("changed_paths", PStr "");
   ("control_head", PStr "c"); ("selected_ticket_id", PStr "t"); ("selected_ticket_body", PStr "b");
   ("execution_ticket_id", PStr "t"); ("execution_base_head", PStr "l");
   ("execution_control_head", PStr "c"); ("execution_branch", PStr "br");
   ("execution_path", PStr "/p"); ("execution_id", PStr "x"); ("execution_remote_head", PNone);
   ("worker_identity", PDict (identity_dict (mkWorkerIdentity "x" 10 10 10 "boot" 5 None)))].

Lemma invariant_guarantees_witness :
  _validate_state_invariant running_state = Ok tt /\
  exists w, _worker_identity_from_value (get running_state "worker_identity")
              (Some (get running_state "execution_id")) = Ok (Some w) /\ valid_identity w.
Proof.
  assert (Hv : _validate_state_invariant running_state = Ok tt) by (vm_compute; reflexivity).
  split; [exact Hv|].
  destruct (proj2 (invariant_guarantees running_state Hv) eq_refl eq_refl) as (w & Hw & V & _).
  exists w. split; [exact Hw | exact V].
Defined.

(** A stored state whose reconciliation status is not hashable escapes the
    validator as a [TypeError], which no caller of the loader handles, where
    every other malformed status is the [DevlegateError] of an invalid state. *)
Theorem unhashable_status_escapes status :
  _validate_state_invariant [("phase", PStr "idle");
      ("reconciliation", PDict [("status", status)])] =
    if hashable status then
      if existsb (eq_str status) ["pending"; "resolving"; "resolved"]
      then raise DevlegateError "invalid reconciliation identity"
      else raise DevlegateError "invalid reconciliation state"
    else raise PyTypeError "unhashable type".
Proof.
  assert (Hr : validate_reconciliation (PDict [("status", status)]) =
    if hashable status then
      if existsb (eq_str status) ["pending"; "resolving"; "resolved"]
      then raise DevlegateError "invalid reconciliation identity"
      else raise DevlegateError "invalid reconciliation state"
    else raise PyTypeError "unhashable type").
  { unfold validate_reconciliation. change (get _ "status") with status. unfold in_strs.
    destruct (hashable status); [|reflexivity].
    destruct (existsb (eq_str status) _); reflexivity. }
  unfold _validate_state_invariant. change (get _ "reconciliation") with
    (PDict [("status", status)]). rewrite Hr.
  destruct (hashable status); [destruct (existsb (eq_str status) _)|]; reflexivity.
Qed.
