(* ===== verification/CommitMessages.v ===== *)
(** The messages of Devlegate's own commits, [src/devlegate/commit_messages.py]:
    the worker's summary is reduced to single spaces, wrapped greedily at 72
    characters, and followed by the trailers that identify the execution. *)

From S2P Require Export PyStr.

Definition width : nat := 72.

(** [textwrap.wrap] on words separated by single spaces, without breaking long
    words or hyphens; [line] is the line being filled. *)
Fixpoint wrap (line : string) (ws : list string) : list string :=
  match ws with
  | [] => [line]
  | w :: ws' =>
      if (str_len line + 1 + str_len w <=? width)%nat
      then wrap (line +:+ " " +:+ w) ws'
      else line :: wrap w ws'
  end.

Definition _summary (summary : string) : string :=
  match words summary with
  | [] => "Worker reported no summary."
  | w :: ws => String.concat LF (wrap w ws)
  end.

Definition message (heading summary : string) (trailers : list string) : string :=
  heading +:+ LF +:+ LF +:+ "Worker result:" +:+ LF +:+ _summary summary +:+ LF +:+ LF +:+
  String.concat LF trailers.

Definition checkpoint_message (ticket_id title execution_id summary : string) : string :=
  message (ticket_id +:+ ": " +:+ title) summary ["Devlegate-Execution: " +:+ execution_id].

Definition lifecycle_message (ticket_id title execution_id conclusion summary : string) : string :=
  message (ticket_id +:+ ": " +:+ title +:+ " (" +:+ conclusion +:+ ")") summary
    ["Devlegate-Execution: " +:+ execution_id].

Definition integration_message (ticket_id title execution_id summary checkpoint : string) : string :=
  message (ticket_id +:+ ": " +:+ title +:+ " (integrated)") summary
    ["Devlegate-Execution: " +:+ execution_id; "Devlegate-Checkpoint: " +:+ checkpoint].

(** * Wrapping keeps the words and the width *)

Definition fits (line : string) : Prop :=
  (str_len line <= width)%nat.

(** The lines are the words in order, each line filled as far as it goes. *)

Lemma utf8_chars_space w : length (utf8_chars (" " +:+ w)) <= 1 + length (utf8_chars w).
Proof.
  change (" " +:+ w) with (String (Ascii.ascii_of_N 32) w). cbn [utf8_chars].
  destruct (utf8_chars w) as [|[|c t] cs]; [cbn; lia .. |]. destruct (is_cont c); cbn; lia.
Qed.

Lemma str_len_add line w : str_len (line +:+ " " +:+ w) <= str_len line + 1 + str_len w.
Proof.
  unfold str_len. rewrite utf8_chars_app by done. rewrite length_app.
  pose proof (utf8_chars_space w). lia.
Qed.

Definition line_of (group : list string) : string := String.concat " " group.

Lemma line_of_snoc g w : g <> [] -> line_of (g ++ [w]) = line_of g +:+ " " +:+ w.
Proof.
  unfold line_of. induction g as [|a [|b g] IH]; [done | done |]. intros _.
  change (String.concat " " ((a :: b :: g) ++ [w]))
    with (a +:+ " " +:+ String.concat " " ((b :: g) ++ [w])).
  rewrite IH by done. change (String.concat " " (a :: b :: g)) with (a +:+ " " +:+ String.concat " " (b :: g)).
  by rewrite !str_app_assoc.
Qed.

(** A line that is filled: it fits unless it is a single word, and the first word
    of the next line would not have fitted. *)
Fixpoint filled (groups : list (list string)) : Prop :=
  match groups with
  | g :: groups' =>
      g <> [] /\ (str_len (line_of g) <= width \/ length g = 1) /\
      (forall w, hd_error (concat groups') = Some w -> width < str_len (line_of g) + 1 + str_len w) /\
      filled groups'
  | [] => True
  end.

Lemma wrap_groups g ws :
  g <> [] -> str_len (line_of g) <= width \/ length g = 1 ->
  exists groups, wrap (line_of g) ws = map line_of groups /\ concat groups = g ++ ws /\
    filled groups.
Proof.
  revert g. induction ws as [|w ws IH]; intros g Hg Hfit; cbn [wrap].
  - exists [g]. cbn. rewrite !app_nil_r. split_and!; done.
  - destruct (_ <=? _)%nat eqn:E; [apply Nat.leb_le in E | apply Nat.leb_gt in E].
    + rewrite <- line_of_snoc by done.
      destruct (IH (g ++ [w])) as (groups & Hw & Hc & Hf).
      * by destruct g.
      * left. rewrite line_of_snoc by done. pose proof (str_len_add (line_of g) w). lia.
      * exists groups. rewrite Hc, <- app_assoc. done.
    + destruct (IH [w]) as (groups & Hw & Hc & Hf); [done | by right |].
      exists (g :: groups). cbn. change (line_of [w]) with w in Hw. rewrite Hw, Hc.
      split_and!; try done. intros w' [= <-]. exact E.
Qed.

(** The wrapped summary of a commit message is the worker's words in order,
    joined by spaces within lines and line feeds between them; a line is at most
    72 characters long unless it is one word, and is filled as far as it goes. *)
Theorem summary_wraps_words summary w ws :
  words summary = w :: ws ->
  exists groups, _summary summary = String.concat LF (map line_of groups) /\
    concat groups = words summary /\ filled groups.
Proof.
  intros Hw. unfold _summary. rewrite Hw.
  destruct (wrap_groups [w] ws) as (groups & Hg & Hc & Hf); [done | by right |].
  exists groups. change (line_of [w]) with w in Hg. by rewrite Hg.
Qed.

Lemma summary_wraps_words_witness :
  exists groups, _summary " did   it " = String.concat LF (map line_of groups) /\
    concat groups = words " did   it " /\ filled groups.
Proof. apply (summary_wraps_words " did   it " "did" ["it"]). reflexivity. Defined.
