(* ===== verification/Workspace.v ===== *)
(** Per-ticket Git worktrees, [src/devlegate/execution_workspace.py].  Git, the
    file system and [pathlib]'s resolution of links are the environment: a class
    of operations on a world that the definitions thread, with a log of every
    command they run.  [ExecutionWorkspaceManager]'s methods are the definitions
    of the section, in the order the source composes them. *)

From S2P Require Export Tickets CommitMessages Files.

(** * Paths, as [pathlib.PurePosixPath] reads and joins them *)

Record Path : Type := mkPath { p_root : string; p_names : list string }.

#[export] Instance Path_eq_dec : EqDecision Path.
Proof. solve_decision. Defined.

(** Empty and [.] components disappear; exactly two leading slashes are kept. *)
Definition Path_of (s : string) : Path :=
  let names := List.filter (fun c => negb ((c =? "")%string || (c =? ".")%string))
                 (split_on (Ascii.ascii_of_N 47) s) in
  mkPath (if starts_with "//" s && negb (starts_with "///" s) then "//"
          else if starts_with "/" s then "/" else "") names.

Definition is_absolute (p : Path) : bool := negb (p_root p =? "")%string.

Definition parts (p : Path) : list string :=
  (if is_absolute p then [p_root p] else []) ++ p_names p.

Definition path_str (p : Path) : string :=
  if is_absolute p then p_root p +:+ String.concat "/" (p_names p)
  else match p_names p with [] => "." | ns => String.concat "/" ns end.

(** [p / q] *)
Definition path_join (p q : Path) : Path :=
  if is_absolute q then q else mkPath (p_root p) (p_names p ++ p_names q).

(** [p / "name"] for a plain name. *)
Definition path_child (p : Path) (name : string) : Path := path_join p (Path_of name).

(** * Data *)

Record ExecutionWorkspace : Type := mkWorkspace {
  ew_ticket_id : string;
  ew_branch : string;
  ew_path : Path;
  ew_head : string;
  ew_base_head : string;
  ew_dirty : bool
}.

#[export] Instance ExecutionWorkspace_eq_dec : EqDecision ExecutionWorkspace.
Proof. solve_decision. Defined.

Record WorkspaceInspection : Type := mkInspection {
  wi_classification : string;
  wi_reason : string;
  wi_workspace : option ExecutionWorkspace
}.

#[export] Instance WorkspaceInspection_eq_dec : EqDecision WorkspaceInspection.
Proof. solve_decision. Defined.

Record ExecutionCheckpoint : Type := mkCheckpoint {
  ck_before_head : string;
  ck_after_head : string;
  ck_commit_created : bool
}.

(** [WorktreeRegistration = dict[str, str | None]] *)
Abbreviation WorktreeRegistration := (list (string * string)).

Record CompletedProcess : Type := mkProc {
  returncode : Z;
  stdout : string;
  stderr : string
}.

Definition failed (p : CompletedProcess) : bool := negb (returncode p =? 0)%Z.

(** [result.stderr.strip() or "unknown git error"] *)
Definition git_error (p : CompletedProcess) : string :=
  if (strip (stderr p) =? "")%string then "unknown git error" else strip (stderr p).

Definition unsafe (reason : string) : WorkspaceInspection := mkInspection "UNSAFE" reason None.
Definition recoverable (reason : string) : WorkspaceInspection :=
  mkInspection "RECOVERABLE" reason None.

Definition workspace_error {A} (msg : string) : res A := raise ExecutionWorkspaceError msg.

(** [except ExecutionWorkspaceError]: the conflict is a subclass. *)
Definition is_workspace_error (e : exn) : bool :=
  match exn_cls e with
  | ExecutionWorkspaceError | ExecutionWorkspaceConflict => true
  | _ => false
  end.

(** [except (OSError, subprocess.SubprocessError)] *)
Definition is_external_error (e : exn) : bool :=
  is_os_error e || is_class PySubprocessError e.

(** * The porcelain listing of worktrees *)

Section Porcelain.
(** [Path.resolve] *)
Variable resolve_path : Path -> Path.

Abbreviation entries := (list (Path * WorktreeRegistration)).

(** [entries.get(path)] *)
Definition registration_at (p : Path) (es : list (Path * WorktreeRegistration))
    : option WorktreeRegistration :=
  snd <$> List.find (fun e => bool_decide (fst e = p)) es.

Definition unexpected {A} : res A := workspace_error "unexpected Git worktree metadata".

(** The local function [finish]. *)
Definition finish_entry (current : WorktreeRegistration) (es : list (Path * WorktreeRegistration))
    : res (list (Path * WorktreeRegistration)) :=
  match current with
  | [] => Ok es
  | _ =>
      if negb (has_key current "path") || negb (has_key current "head") then unexpected
      else if negb (has_key current "branch") && negb (has_key current "detached") &&
              negb (has_key current "bare") then unexpected
      else if has_key current "branch" && has_key current "detached" then unexpected
      else
      let path := resolve_path (Path_of (default "" (dget current "path"))) in
      match registration_at path es with
      | Some _ => workspace_error ("duplicate Git worktree registration: " +:+ path_str path)
      | None => Ok (es ++ [(path, current)])
      end
  end.

Record porcelain : Type := mkPorcelain {
  pc_entries : list (Path * WorktreeRegistration);
  pc_current : WorktreeRegistration;
  pc_seen : gset string
}.

Definition SPACE : Ascii.ascii := Ascii.ascii_of_N 32.

(** [value[11:]] of [refs/heads/...] *)
Definition branch_name (value : string) : string :=
  String.substring 11 (String.length value - 11) value.

(** The assignments of one [key value] line. *)
Definition porcelain_field (line key value : string) (current : WorktreeRegistration)
    : res WorktreeRegistration :=
  if negb (existsb (String.eqb key) ["worktree"; "HEAD"; "branch"; "locked"; "prunable"])
  then workspace_error ("unexpected Git worktree metadata: " +:+ line)
  else if (key =? "worktree")%string
  then if (value =? "")%string then unexpected else Ok (dset current "path" value)
  else if (key =? "HEAD")%string
  then if (value =? "")%string then unexpected else Ok (dset current "head" value)
  else if (key =? "branch")%string
  then if negb (starts_with "refs/heads/" value) || (branch_name value =? "")%string
       then workspace_error ("unexpected Git worktree branch metadata: " +:+ line)
       else Ok (dset current "branch" (branch_name value))
  else Ok current.

Definition porcelain_line (st : porcelain) (line : string) : res porcelain :=
  if (line =? "")%string
  then es ← finish_entry (pc_current st) (pc_entries st); Ok (mkPorcelain es [] ∅)
  else
  let '(key, value) := partition SPACE line in
  if bool_decide (key ∈ pc_seen st)
  then workspace_error ("duplicate Git worktree metadata field: " +:+ key)
  else
  let seen := {[key]} ∪ pc_seen st in
  match value with
  | None =>
      if existsb (String.eqb key) ["detached"; "bare"; "locked"]
      then Ok (mkPorcelain (pc_entries st) (dset (pc_current st) key "") seen)
      else workspace_error ("unexpected Git worktree metadata: " +:+ line)
  | Some value =>
      current ← porcelain_field line key value (pc_current st);
      Ok (mkPorcelain (pc_entries st) current seen)
  end.

Definition _parse_worktree_porcelain (output : string)
    : res (list (Path * WorktreeRegistration)) :=
  pc_entries <$> res_fold porcelain_line (mkPorcelain [] [] ∅) (splitlines output ++ [""]).

(** [next((path for path, item in registrations.items()
             if item.get("branch") == branch), None)] *)
Definition branch_path (branch : string) (es : list (Path * WorktreeRegistration)) : option Path :=
  fst <$> List.find (fun e => bool_decide (dget (snd e) "branch" = Some branch)) es.
End Porcelain.

(** * The environment *)

(** Running git, and the observations of the file system the manager makes. *)
Class GitWorld (W : Type) : Type := {
  gw_run : Path -> list string -> W -> res CompletedProcess * W;
  (** The same with text on the standard input. *)
  gw_run_input : Path -> list string -> string -> W -> res CompletedProcess * W;
  gw_mkdir : Path -> W -> res unit * W;
  (** The files below the control worktree, and their replacement. *)
  gw_files : W -> tree;
  gw_edit : tree -> W -> W;
  gw_cwd : W -> Path;
  gw_resolve : W -> Path -> Path;
  gw_is_symlink : W -> Path -> bool;
  gw_is_dir : W -> Path -> bool;
  gw_exists : W -> Path -> bool;
  gw_has_entries : W -> Path -> bool
}.

Inductive event : Type :=
  | Run (directory : Path) (args : list string)
  | RunInput (directory : Path) (args : list string) (input : string)
  | Mkdir (directory : Path)
  | Edit (files : tree).

Record logged (W : Type) : Type := mkLogged { lg_world : W; lg_events : list event }.
Arguments mkLogged {W} _ _.
Arguments lg_world {W} _.
Arguments lg_events {W} _.

(** [for x in l: f x] *)
Fixpoint py_each {S A} (f : A -> py S unit) (l : list A) : py S unit :=
  match l with
  | [] => mret tt
  | x :: l' => _ ← f x; py_each f l'
  end.

(** [str(CalledProcessError)] for the command [git -C dir args]. *)
Definition signal_names : list (Z * string) :=
  [(1, "SIGHUP: 1"); (2, "SIGINT: 2"); (3, "SIGQUIT: 3"); (4, "SIGILL: 4"); (6, "SIGABRT: 6");
   (7, "SIGBUS: 7"); (8, "SIGFPE: 8"); (9, "SIGKILL: 9"); (11, "SIGSEGV: 11");
   (13, "SIGPIPE: 13"); (14, "SIGALRM: 14"); (15, "SIGTERM: 15")]%Z.

Definition called_process_error (directory : Path) (args : list string) (code : Z) : string :=
  let command := "[" +:+ String.concat ", "
    (map repr_str ("git" :: "-C" :: path_str directory :: args)) +:+ "]" in
  "Command '" +:+ command +:+ "' " +:+
  (if (code <? 0)%Z
   then match List.find (fun kv => (fst kv =? - code)%Z) signal_names with
        | Some kv => "died with <Signals." +:+ snd kv +:+ ">."
        | None => "died with unknown signal " +:+ str_of_Z (- code) +:+ "."
        end
   else "returned non-zero exit status " +:+ str_of_Z code +:+ ".").

Section Manager.
Context {W : Type} `{GitWorld W}.
(** The depth at which Python raises [RecursionError]. *)
Variable recursion_limit : nat.

Abbreviation M := (py (logged W)).

Definition ask {A} (f : W -> A) : M A := fun s => (Ok (f (lg_world s)), s).

(** [_git(repo, *args)] and [_git(repo, *args, check=False)] *)
Definition _git (repo : Path) (args : list string) : M CompletedProcess := fun s =>
  let '(r, w) := gw_run repo args (lg_world s) in
  (r, mkLogged w (lg_events s ++ [Run repo args])).

(** [_git(repo, *args, input_text=text, check=False)] *)
Definition _git_input (repo : Path) (args : list string) (text : string) : M CompletedProcess := fun s =>
  let '(r, w) := gw_run_input repo args text (lg_world s) in
  (r, mkLogged w (lg_events s ++ [RunInput repo args text])).

Definition _git_check (repo : Path) (args : list string) : M CompletedProcess :=
  p ← _git repo args;
  if failed p
  then py_raise PySubprocessError (called_process_error repo args (returncode p))
  else mret p.

(** File operations below the control worktree. *)
Definition in_control {A} (m : io A) : M A := fun s =>
  let '(r, f) := m (mkFiles (gw_files (lg_world s)) []) in
  (r, mkLogged (gw_edit (now f) (lg_world s)) (lg_events s ++ [Edit (now f)])).

Definition make_directory (p : Path) : M unit := fun s =>
  let '(r, w) := gw_mkdir p (lg_world s) in
  (r, mkLogged w (lg_events s ++ [Mkdir p])).

(** [raise ExecutionWorkspaceError(msg)] *)
Definition refuse {A} (msg : string) : M A := py_raise ExecutionWorkspaceError msg.

Record ExecutionWorkspaceManager : Type := mkManager {
  mg_repo : Path;
  mg_ticket_id : string;
  mg_branch : string;
  mg_root : Path;
  mg_path : Path
}.

(** [ExecutionWorkspaceManager.__init__] *)
Definition new_manager (repo root : Path) (ticket_id : string) : M ExecutionWorkspaceManager :=
  if negb (is_canonical_ticket_name (ticket_id +:+ ".md"))
  then refuse ("invalid ticket ID for execution workspace: " +:+ ticket_id)
  else
  resolved ← ask (fun w => gw_resolve w repo);
  absolute ← ask (fun w => path_join (gw_cwd w) root);
  mret (mkManager resolved ticket_id ("devlegate/work/" +:+ ticket_id) absolute
          (path_child (path_child absolute "work") ticket_id)).

Section Methods.
Variable self : ExecutionWorkspaceManager.

Definition self_path : Path := mg_path self.
Definition self_branch : string := mg_branch self.
Definition work_root : Path := path_child (mg_root self) "work".

Definition _path_conflict {A} (observed : string) : M A :=
  py_raise ExecutionWorkspaceConflict
    ("expected execution worktree " +:+ path_str self_path +:+ " for ticket " +:+
     mg_ticket_id self +:+ " and branch " +:+ self_branch +:+ " " +:+ observed).

(** ** Registrations and branches *)

Definition _registrations : M (list (Path * WorktreeRegistration)) :=
  listing ← _git_check (mg_repo self) ["worktree"; "list"; "--porcelain"];
  resolve_path ← ask gw_resolve;
  py_lift (_parse_worktree_porcelain resolve_path (stdout listing)).

Definition _validate_base (base_head : string) : M unit :=
  r ← _git (mg_repo self) ["rev-parse"; "--verify"; base_head +:+ "^{commit}"];
  if failed r || negb (strip (stdout r) =? base_head)%string
  then refuse ("planned code revision " +:+ base_head +:+
               " is not available in the product repository")
  else mret tt.

Definition show_branch : M CompletedProcess :=
  _git (mg_repo self) ["show-ref"; "--verify"; "refs/heads/" +:+ self_branch].

Definition _ensure_branch (base_head : string) : M unit :=
  existing ← show_branch;
  if negb (failed existing) then mret tt else
  created ← _git (mg_repo self) ["branch"; self_branch; base_head];
  if negb (failed created) then mret tt else
  observed ← show_branch;
  if failed observed
  then refuse ("cannot create execution branch " +:+ self_branch +:+ ": " +:+ git_error created)
  else mret tt.

Definition _validate_branch (base_head : string) : M unit :=
  ancestor ← _git (mg_repo self) ["merge-base"; "--is-ancestor"; base_head; self_branch];
  if failed ancestor
  then py_raise ExecutionWorkspaceConflict
         ("execution branch " +:+ self_branch +:+ " is unrelated to planned code revision " +:+
          base_head)
  else mret tt.

(** The local function [resolve_git_path]. *)
Definition resolve_git_path (w : W) (directory : Path) (value : string) : Path :=
  let path := Path_of value in
  if is_absolute path then gw_resolve w path else gw_resolve w (path_join directory path).

(** [registration["key"]] *)
Definition registered (registration : WorktreeRegistration) (key : string) : M string :=
  match dget registration key with
  | Some v => mret v
  | None => py_raise PyKeyError (repr_str key)
  end.

Definition _validate_existing (registration : option WorktreeRegistration) (base_head : string)
    : M ExecutionWorkspace :=
  directory ← ask (fun w => gw_is_dir w self_path);
  match registration, (directory : bool) with
  | Some registration, true =>
      common ← _git self_path ["rev-parse"; "--git-common-dir"];
      root ← _git self_path ["rev-parse"; "--show-toplevel"];
      expected ← _git_check (mg_repo self) ["rev-parse"; "--git-common-dir"];
      foreign ← ask (fun w =>
        failed common ||
        negb (bool_decide (resolve_git_path w self_path (strip (stdout common)) =
                           resolve_git_path w (mg_repo self) (strip (stdout expected)))) ||
        failed root ||
        negb (bool_decide (resolve_git_path w self_path (strip (stdout root)) =
                           gw_resolve w self_path)));
      if (foreign : bool) then _path_conflict "belongs to another repository" else
      branch ← _git self_path ["symbolic-ref"; "--quiet"; "--short"; "HEAD"];
      if failed branch || negb (strip (stdout branch) =? self_branch)%string
      then _path_conflict ("is on branch " +:+
             (if (strip (stdout branch) =? "")%string then "<detached>"
              else strip (stdout branch)))
      else
      head ← _git_check self_path ["rev-parse"; "HEAD"];
      let head := strip (stdout head) in
      recorded ← registered registration "head";
      if negb (head =? recorded)%string
      then refuse ("execution worktree " +:+ path_str self_path +:+
                   " registration HEAD does not match its checkout")
      else
      recorded_branch ← registered registration "branch";
      if negb (recorded_branch =? self_branch)%string
      then _path_conflict "has the wrong registered branch"
      else
      status ← _git_check self_path ["status"; "--porcelain"];
      mret (mkWorkspace (mg_ticket_id self) self_branch self_path head base_head
              (negb (stdout status =? "")%string))
  | _, _ => refuse ("expected execution worktree " +:+ path_str self_path +:+
                    " is not registered and cannot be reused")
  end.

Definition symlinked_root : M bool :=
  ask (fun w => gw_is_symlink w (mg_root self) || gw_is_symlink w work_root).

Definition _validate_workspace (workspace : ExecutionWorkspace) : M ExecutionWorkspace :=
  if negb (ew_ticket_id workspace =? mg_ticket_id self)%string ||
     negb (ew_branch workspace =? self_branch)%string ||
     negb (bool_decide (ew_path workspace = self_path))
  then refuse "execution workspace binding is invalid"
  else
  linked_root ← symlinked_root;
  linked ← ask (fun w => gw_is_symlink w self_path);
  if (linked_root : bool) || (linked : bool) then _path_conflict "is a symlink" else
  registrations ← _registrations;
  expected_path ← ask (fun w => gw_resolve w self_path);
  _validate_existing (registration_at expected_path registrations) (ew_base_head workspace).

(** ** Submodules *)

Definition TAB : Ascii.ascii := Ascii.ascii_of_N 9.
Definition NUL_byte : Ascii.ascii := Ascii.ascii_of_N 0.

(** [re.fullmatch(r"[0-9a-f]{40}", s)] *)
Definition is_sha (s : string) : bool :=
  (String.length s =? 40)%nat && all_bytes is_lower_hex s.

Definition list_head (repo : Path) : M CompletedProcess :=
  _git_check repo ["ls-tree"; "-r"; "-z"; "HEAD"].

(** The mode, kind and object of a [git ls-tree] entry with its name. *)
Definition tree_entry (entry : string) : option (string * string * string * string) :=
  match partition TAB entry with
  | (metadata, Some name) =>
      match words metadata with
      | [mode; kind; object] => Some (mode, kind, object, name)
      | _ => None
      end
  | _ => None
  end.

Fixpoint gitlinks (entries : list string) : res (list Path) :=
  match entries with
  | [] => Ok []
  | entry :: rest =>
      match tree_entry entry with
      | Some (mode, _, _, name) =>
          if negb (mode =? "160000")%string then gitlinks rest else
          let path := Path_of name in
          if is_absolute path || existsb (String.eqb "..") (parts path) ||
             existsb (String.eqb ".") (parts path)
          then workspace_error ("unsafe submodule path in execution superproject: " +:+ name)
          else paths ← gitlinks rest; Ok (path :: paths)
      | None => gitlinks rest
      end
  end.

Definition _gitlink_paths (repo : Path) : M (list Path) :=
  listing ← list_head repo;
  py_lift (gitlinks (split_on NUL_byte (stdout listing))).

(** The first entry of the name decides. *)
Fixpoint expected_entry (path : Path) (entries : list string) : option string :=
  match entries with
  | [] => None
  | entry :: rest =>
      match tree_entry entry with
      | Some (mode, _, object, name) =>
          if (name =? path_str path)%string
          then if negb (mode =? "160000")%string || negb (is_sha object) then None else Some object
          else expected_entry path rest
      | None => expected_entry path rest
      end
  end.

Definition _expected_gitlink (repo path : Path) : M string :=
  listing ← list_head repo;
  match expected_entry path (split_on NUL_byte (stdout listing)) with
  | Some object => mret object
  | None => refuse ("cannot observe gitlink for submodule " +:+ path_str path)
  end.

(** The directories below [repo] that [path.parts] runs through. *)
Fixpoint walk (current : Path) (components : list string) : list Path :=
  match components with
  | [] => []
  | c :: cs => path_child current c :: walk (path_child current c) cs
  end.

Definition _validate_submodule_paths (repo : Path) : M unit :=
  paths ← _gitlink_paths repo;
  py_each (fun path =>
    linked ← ask (fun w => existsb (gw_is_symlink w) (walk repo (parts path)));
    if (linked : bool)
    then refuse ("submodule path is unsafe because it contains a symlink: " +:+ path_str path)
    else
    let candidate := path_join repo path in
    blocked ← ask (fun w => gw_exists w candidate && negb (gw_is_dir w candidate));
    if (blocked : bool) then refuse ("submodule path is not a directory: " +:+ path_str path)
    else mret tt) paths.

(** One line of [git submodule status]. *)
Definition submodule_line (line : string) : res unit :=
  let malformed := workspace_error "malformed submodule status" in
  match utf8_chars line with
  | mark :: rest =>
      if (str_len line <? 43)%nat || negb (existsb (String.eqb mark) [" "; "+"; "-"; "U"])
      then malformed
      else match partition SPACE (of_chars rest) with
      | (object, Some name) =>
          if negb (is_sha object) then malformed
          else if existsb (String.eqb mark) ["+"; "U"]
          then workspace_error ("submodule " +:+ name +:+ " is initialized at an unexpected state")
          else Ok tt
      | (_, None) => malformed
      end
  | [] => malformed
  end.

Definition submodule_error {A} (path : Path) (what : string) : M A :=
  refuse ("submodule " +:+ path_str path +:+ what).

Fixpoint _observe_initialized_submodules (depth : nat) (repo : Path) : M unit :=
  match depth with
  | 0 => py_raise PyRecursionError "maximum recursion depth exceeded"
  | S depth' =>
  result ← _git repo ["submodule"; "status"; "--recursive"];
  if failed result
  then
    modules ← ask (fun w => gw_exists w (path_child repo ".gitmodules"));
    empty ← (if (modules : bool) then mret false
             else paths ← _gitlink_paths repo; mret (bool_decide (paths = [])));
    if (empty : bool) then mret tt
    else refuse ("cannot observe submodule state: " +:+ git_error result)
  else
  _ ← py_lift (res_map submodule_line (splitlines (stdout result)));
  paths ← _gitlink_paths repo;
  py_each (fun path =>
    let candidate := path_join repo path in
    directory ← ask (fun w => gw_is_dir w candidate);
    if negb (directory : bool) then mret tt else
    initialized ← _git candidate ["rev-parse"; "--git-dir"];
    initialized_root ← _git candidate ["rev-parse"; "--show-toplevel"];
    elsewhere ← ask (fun w =>
      negb (bool_decide (gw_resolve w (Path_of (strip (stdout initialized_root))) =
                         gw_resolve w candidate)));
    if failed initialized || failed initialized_root || (elsewhere : bool)
    then
      used ← ask (fun w => gw_has_entries w candidate);
      if (used : bool) then submodule_error path " has an unsafe existing checkout" else mret tt
    else
    head ← _git candidate ["rev-parse"; "HEAD"];
    status ← _git candidate ["status"; "--porcelain"];
    expected ← _expected_gitlink repo path;
    if failed head || failed status
    then refuse ("cannot observe submodule " +:+ path_str path +:+
                 "; dependency integrity cannot be proven")
    else if negb (strip (stdout head) =? expected)%string || negb (stdout status =? "")%string
    then submodule_error path (" is dirty or has unexpected HEAD (head=" +:+ strip (stdout head) +:+
           ", expected=" +:+ expected +:+ ", status=" +:+ repr_str (stdout status) +:+
           "); preserving evidence")
    else _observe_initialized_submodules depth' candidate) paths
  end.

Fixpoint _verify_submodules (depth : nat) (repo : Path) : M unit :=
  match depth with
  | 0 => py_raise PyRecursionError "maximum recursion depth exceeded"
  | S depth' =>
  paths ← _gitlink_paths repo;
  py_each (fun path =>
    let candidate := path_join repo path in
    bad ← ask (fun w => gw_is_symlink w candidate || negb (gw_is_dir w candidate));
    if (bad : bool) then submodule_error path " is not initialized safely" else
    expected ← _expected_gitlink repo path;
    head ← _git candidate ["rev-parse"; "HEAD"];
    root ← _git candidate ["rev-parse"; "--show-toplevel"];
    status ← _git candidate ["status"; "--porcelain"];
    elsewhere ← ask (fun w =>
      negb (bool_decide (gw_resolve w (Path_of (strip (stdout root))) = gw_resolve w candidate)));
    if failed head || failed root || (elsewhere : bool) || failed status
    then refuse ("cannot verify submodule " +:+ path_str path +:+
                 "; dependency integrity cannot be proven")
    else if negb (strip (stdout head) =? expected)%string
    then submodule_error path (" has unexpected HEAD; expected " +:+ expected)
    else if negb (stdout status =? "")%string
    then submodule_error path " is dirty; dependency integrity cannot be proven"
    else _verify_submodules depth' candidate) paths
  end.

Definition _prepare_submodules (path : Path) : M unit :=
  py_catch
    (_ ← _validate_submodule_paths path;
     _ ← _observe_initialized_submodules recursion_limit path;
     updated ← _git path ["submodule"; "update"; "--init"; "--recursive"];
     if failed updated
     then refuse ("submodule materialization failed: " +:+ git_error updated)
     else _verify_submodules recursion_limit path)
    is_external_error
    (fun e => refuse ("cannot prepare execution submodules: " +:+ exn_msg e)).

(** [verify_submodules] *)
Definition verify_submodules (workspace : ExecutionWorkspace) : M unit :=
  _ ← _validate_workspace workspace;
  _verify_submodules recursion_limit (ew_path workspace).

(** ** The operations *)

Definition _prune_expected_stale_registration : M unit :=
  removed ← _git (mg_repo self) ["worktree"; "remove"; path_str self_path];
  if failed removed
  then refuse ("cannot remove stale execution worktree registration " +:+ path_str self_path +:+
               ": " +:+ git_error removed)
  else mret tt.

(** [workspace = self._validate_existing(...); self._prepare_submodules(...);
    return workspace] *)
Definition adopt (registration : option WorktreeRegistration) (base_head : string)
    : M ExecutionWorkspace :=
  workspace ← _validate_existing registration base_head;
  _ ← _prepare_submodules (ew_path workspace);
  mret workspace.

(** The rest of [prepare] after the existing registration has been handled. *)
Definition create_worktree (expected_path : Path) (base_head : string) : M ExecutionWorkspace :=
  _ ← make_directory (mkPath (p_root self_path) (removelast (p_names self_path)));
  created ← _git (mg_repo self) ["worktree"; "add"; path_str self_path; self_branch];
  registrations ← _registrations;
  match registration_at expected_path registrations with
  | Some registration => adopt (Some registration) base_head
  | None =>
      if failed created
      then refuse ("cannot create execution worktree " +:+ path_str self_path +:+ ": " +:+
                   git_error created)
      else refuse ("created execution worktree " +:+ path_str self_path +:+
                   " but Git did not register it")
  end.

Definition prepare (base_head : string) : M ExecutionWorkspace :=
  _ ← _validate_base base_head;
  linked_root ← symlinked_root;
  if (linked_root : bool) then _path_conflict "has a symlinked workspace root" else
  _ ← _ensure_branch base_head;
  _ ← _validate_branch base_head;
  registrations ← _registrations;
  let attached := branch_path self_branch registrations in
  expected_path ← ask (fun w => gw_resolve w self_path);
  if bool_decide (is_Some attached /\ attached <> Some expected_path)
  then py_raise ExecutionWorkspaceConflict
         ("execution branch " +:+ self_branch +:+ " is already attached to unexpected worktree " +:+
          path_str (default expected_path attached))
  else
  linked ← ask (fun w => gw_is_symlink w self_path);
  if (linked : bool) then _path_conflict "is a symlink" else
  match registration_at expected_path registrations with
  | Some registration =>
      directory ← ask (fun w => gw_is_dir w self_path);
      if (directory : bool) then adopt (Some registration) base_head
      else _ ← _prune_expected_stale_registration; create_worktree expected_path base_head
  | None =>
      present ← ask (fun w => gw_exists w self_path);
      if (present : bool)
      then
        repository ← ask (fun w => gw_exists w (path_child self_path ".git") ||
                                   gw_exists w (path_child self_path "HEAD"));
        if (repository : bool) then _path_conflict "belongs to another repository"
        else _path_conflict "exists but is not a registered execution worktree"
      else create_worktree expected_path base_head
  end.

Definition inspect_body (base_head : string) (expected_head : option string)
    : M WorkspaceInspection :=
  _ ← _validate_base base_head;
  registrations ← _registrations;
  branch ← show_branch;
  if failed branch then mret (recoverable "execution branch is missing") else
  unrelated ← py_catch (_ ← _validate_branch base_head; mret None) is_workspace_error
                (fun e => mret (Some (exn_msg e)));
  match unrelated with
  | Some reason => mret (recoverable reason)
  | None =>
  expected_path ← ask (fun w => gw_resolve w self_path);
  let attached := branch_path self_branch registrations in
  if bool_decide (is_Some attached /\ attached <> Some expected_path)
  then mret (unsafe ("execution branch is attached to " +:+
                     path_str (default expected_path attached)))
  else
  let registration := registration_at expected_path registrations in
  directory ← ask (fun w => gw_is_dir w self_path);
  if bool_decide (registration = None) || negb (directory : bool)
  then
    present ← ask (fun w => gw_exists w self_path);
    mret (if (present : bool) then unsafe "execution worktree path is not a registered worktree"
          else recoverable "execution worktree is missing")
  else
  workspace ← _validate_existing registration base_head;
  if bool_decide (is_Some expected_head /\ expected_head <> Some (ew_head workspace))
  then mret (unsafe "execution worktree HEAD does not match persisted start HEAD")
  else
  _ ← verify_submodules workspace;
  mret (if ew_dirty workspace then unsafe "execution worktree is dirty"
        else mkInspection "REUSABLE" "persisted execution workspace is reusable" (Some workspace))
  end.

Definition inspect (base_head : string) (expected_head : option string) : M WorkspaceInspection :=
  py_catch (inspect_body base_head expected_head)
    (fun e => is_workspace_error e || is_external_error e)
    (fun e => mret (unsafe (exn_msg e))).

Definition retire (workspace : ExecutionWorkspace) (expected_head : string) : M unit :=
  if negb (ew_ticket_id workspace =? mg_ticket_id self)%string ||
     negb (ew_branch workspace =? self_branch)%string
  then refuse "execution workspace identity is invalid"
  else if negb (bool_decide (ew_path workspace = self_path)) ||
          negb (ew_head workspace =? expected_head)%string
  then refuse "execution workspace checkpoint is invalid"
  else if ew_dirty workspace then refuse "execution worktree is dirty"
  else
  linked_root ← symlinked_root;
  if (linked_root : bool) then _path_conflict "has a symlinked workspace root" else
  linked ← ask (fun w => gw_is_symlink w self_path);
  if (linked : bool) then _path_conflict "is a symlink" else
  registrations ← _registrations;
  let attached := branch_path self_branch registrations in
  expected_path ← ask (fun w => gw_resolve w self_path);
  if bool_decide (is_Some attached /\ attached <> Some expected_path)
  then _path_conflict ("branch is attached to unexpected worktree " +:+
                       path_str (default expected_path attached))
  else
  match registration_at expected_path registrations with
  | None =>
      present ← ask (fun w => gw_exists w self_path);
      if (present : bool) then _path_conflict "is not a registered execution worktree" else mret tt
  | Some registration =>
      validated ← _validate_existing (Some registration) (ew_base_head workspace);
      if negb (ew_head validated =? expected_head)%string || ew_dirty validated
      then refuse "execution worktree changed before removal"
      else
      _ ← _validate_submodule_paths self_path;
      _ ← _verify_submodules recursion_limit self_path;
      removed ← _git (mg_repo self) ["worktree"; "remove"; "--force"; path_str self_path];
      if failed removed
      then refuse ("cannot remove execution worktree " +:+ path_str self_path +:+ ": " +:+
                   git_error removed)
      else
      present ← ask (fun w => gw_exists w self_path);
      remains ← (if (present : bool) then mret true
                 else
                   registrations ← _registrations;
                   expected_path ← ask (fun w => gw_resolve w self_path);
                   mret (bool_decide (is_Some (registration_at expected_path registrations))));
      if (remains : bool)
      then refuse ("execution worktree " +:+ path_str self_path +:+ " remains after removal")
      else mret tt
  end.

Definition checkpoint (workspace : ExecutionWorkspace) (execution_id title summary : string)
    : M ExecutionCheckpoint :=
  _ ← _validate_workspace workspace;
  before ← _git_check (ew_path workspace) ["rev-parse"; "HEAD"];
  let before_head := strip (stdout before) in
  if negb (before_head =? ew_head workspace)%string
  then refuse "execution Git history changed while worker was running"
  else
  _ ← _git_check (ew_path workspace) ["add"; "-A"];
  staged ← _git (ew_path workspace) ["diff"; "--cached"; "--quiet"];
  if negb ((returncode staged =? 0)%Z || (returncode staged =? 1)%Z)
  then refuse ("cannot inspect staged execution changes: " +:+ strip (stderr staged))
  else
  let commit_created := (returncode staged =? 1)%Z in
  _ ← (if commit_created
       then
         committed ← _git (ew_path workspace)
           ["commit"; "-m";
            checkpoint_message (mg_ticket_id self) title execution_id summary];
         if failed committed
         then refuse ("cannot create execution checkpoint: " +:+ git_error committed)
         else mret tt
       else mret tt);
  after ← _git_check (ew_path workspace) ["rev-parse"; "HEAD"];
  mret (mkCheckpoint before_head (strip (stdout after)) commit_created).
End Methods.
End Manager.

(** * What the operations may run *)

Section Commands.
Context {W : Type} `{GitWorld W}.

(** Every command [m] runs, on every path through it, satisfies [P]. *)
Definition runs_only {A} (P : event -> Prop) (m : py (logged W) A) : Prop :=
  forall s, exists new, lg_events (snd (m s)) = lg_events s ++ new /\ Forall P new.

(** The commands in [P] keep an invariant of the world. *)
Definition keeps (P : event -> Prop) (I : W -> Prop) : Prop :=
  (forall repo args w, P (Run repo args) -> I w -> I (snd (gw_run repo args w))) /\
  (forall repo args text w, P (RunInput repo args text) -> I w ->
     I (snd (gw_run_input repo args text w))) /\
  (forall p w, P (Mkdir p) -> I w -> I (snd (gw_mkdir p w))) /\
  (forall t w, P (Edit t) -> I w -> I (gw_edit t w)).

(** The commands in [P] do not change the world. *)
Definition quiet (P : event -> Prop) : Prop := forall w, keeps P (eq w).

(** The same, with what it means for the world. *)
Definition only {A} (P : event -> Prop) (m : py (logged W) A) : Prop :=
  forall s, (exists new, lg_events (snd (m s)) = lg_events s ++ new /\ Forall P new) /\
            (forall I, keeps P I -> I (lg_world s) -> I (lg_world (snd (m s)))).

Lemma only_runs {A} P (m : py (logged W) A) : only P m -> runs_only P m.
Proof. intros Hm s. apply Hm. Qed.

Context {P : event -> Prop}.

Lemma only_lift {A} (r : res A) : only P (py_lift r).
Proof. intros s. split; [|done]. exists []. by rewrite app_nil_r. Qed.

Lemma only_ret {A} (a : A) : only P (mret a).
Proof. apply (only_lift (Ok a)). Qed.

Lemma only_raise {A} c msg : only P (py_raise (A := A) c msg).
Proof. apply only_lift. Qed.

Lemma only_ensure b k msg : only P (py_ensure b k msg).
Proof. exact (only_lift (ensure b k msg)). Qed.

Lemma only_ask {A} (f : W -> A) : only P (ask f).
Proof. intros s. split; [|done]. exists []. by rewrite app_nil_r. Qed.

(** Running one operation after another, from the state the first one leaves. *)
Lemma only_then (s s1 s2 : logged W) :
  (exists n1, lg_events s1 = lg_events s ++ n1 /\ Forall P n1) /\
    (forall I, keeps P I -> I (lg_world s) -> I (lg_world s1)) ->
  (exists n2, lg_events s2 = lg_events s1 ++ n2 /\ Forall P n2) /\
    (forall I, keeps P I -> I (lg_world s1) -> I (lg_world s2)) ->
  (exists n, lg_events s2 = lg_events s ++ n /\ Forall P n) /\
    (forall I, keeps P I -> I (lg_world s) -> I (lg_world s2)).
Proof.
  intros [(n1 & H1 & F1) Q1] [(n2 & H2 & F2) Q2]. split.
  - exists (n1 ++ n2). rewrite H2, H1, app_assoc. split; [done|]. by apply Forall_app.
  - intros I HI Hs. exact (Q2 I HI (Q1 I HI Hs)).
Qed.

(** The successful results of [m] satisfy [Q]. *)
Definition returns {A} (Q : A -> Prop) (m : py (logged W) A) : Prop :=
  forall s a, fst (m s) = Ok a -> Q a.

Lemma only_bind_returns {A B} (Q : A -> Prop) (m : py (logged W) A) (f : A -> py (logged W) B) :
  only P m -> returns Q m -> (forall a, Q a -> only P (f a)) -> only P (m ≫= f).
Proof.
  intros Hm HQ Hf s. specialize (Hm s). specialize (HQ s). unfold mbind, py_bind.
  destruct (m s) as [[a|e] s1]; cbn in *; [|done].
  apply (only_then s s1 _ Hm), Hf. by apply HQ.
Qed.

Lemma only_bind {A B} (m : py (logged W) A) (f : A -> py (logged W) B) :
  only P m -> (forall a, only P (f a)) -> only P (m ≫= f).
Proof. intros Hm Hf. by apply (only_bind_returns (fun _ => True)). Qed.

Lemma only_catch {A} (m : py (logged W) A) p h :
  only P m -> (forall e, only P (h e)) -> only P (py_catch m p h).
Proof.
  intros Hm Hh s. specialize (Hm s). unfold py_catch.
  destruct (m s) as [[a|e] s1]; cbn in *; [done|]. destruct (p e); [|done].
  apply (only_then s s1 _ Hm), Hh.
Qed.

Lemma only_each {A} (f : A -> py (logged W) unit) l :
  (forall a, only P (f a)) -> only P (py_each f l).
Proof. intros Hf. induction l; cbn; [apply only_ret|]. by apply only_bind. Qed.

Lemma only_git repo args : P (Run repo args) -> only P (_git repo args).
Proof.
  intros HP s. unfold _git. destruct (gw_run repo args (lg_world s)) as [r w] eqn:E. split.
  - exists [Run repo args]. by split; [|constructor].
  - intros I (HQ & _) HI. specialize (HQ repo args (lg_world s) HP HI). by rewrite E in HQ.
Qed.

Lemma only_mkdir p : P (Mkdir p) -> only P (make_directory p).
Proof.
  intros HP s. unfold make_directory. destruct (gw_mkdir p (lg_world s)) as [r w] eqn:E. split.
  - exists [Mkdir p]. by split; [|constructor].
  - intros I (_ & _ & HQ & _) HI. specialize (HQ p (lg_world s) HP HI). by rewrite E in HQ.
Qed.

Lemma only_edit {A} (m : io A) : (forall t, P (Edit t)) -> only P (in_control m).
Proof.
  intros HP s. unfold in_control. destruct (m _) as [r f]. split.
  - eexists. split; [done|]. by constructor.
  - intros I (_ & _ & _ & HQ) HI. by apply HQ.
Qed.

Lemma only_input repo args text : P (RunInput repo args text) -> only P (_git_input repo args text).
Proof.
  intros HP s. unfold _git_input. destruct (gw_run_input repo args text (lg_world s)) as [r w] eqn:E. split.
  - exists [RunInput repo args text]. by split; [|constructor].
  - intros I (_ & HQ & _) HI. specialize (HQ repo args text (lg_world s) HP HI). by rewrite E in HQ.
Qed.

Lemma only_quiet {A} (m : py (logged W) A) s : only P m -> quiet P -> lg_world (snd (m s)) = lg_world s.
Proof. intros Hm Hq. symmetry. by apply (proj2 (Hm s)). Qed.

Lemma only_check repo args : P (Run repo args) -> only P (_git_check repo args).
Proof.
  intros HP. apply only_bind; [by apply only_git|]. intros p.
  destruct (failed p); [apply only_raise | apply only_ret].
Qed.
End Commands.

Create HintDb commands.
#[export] Hint Resolve only_ret only_lift only_raise only_ensure only_ask only_catch only_each
  only_git only_input only_mkdir only_check : commands.

(** One syntactic step through a monadic definition. *)
Ltac only_step :=
  match goal with
  | |- only _ (_ ≫= _) => apply only_bind; [|intros ?]
  | |- only _ (match ?x with _ => _ end) => destruct x
  | |- only _ (py_catch _ _ _) => apply only_catch; [|intros ?]
  | |- only _ (py_each _ _) => apply only_each; intros ?
  | |- only _ (let x := _ in _) => cbv zeta
  | |- only _ _ => solve [eauto 6 with commands]
  end.

Ltac only_auto := repeat only_step.

(** The subcommands that only read the repository, as the manager calls them. *)
Definition observation (args : list string) : bool :=
  match args with
  | ["worktree"; "list"; "--porcelain"] | ["submodule"; "status"; "--recursive"]
  | ["diff"; "--cached"; "--quiet"] => true
  | cmd :: _ => existsb (String.eqb cmd)
      ["rev-parse"; "show-ref"; "merge-base"; "symbolic-ref"; "status"; "ls-tree"]
  | [] => false
  end.

Definition observes (e : event) : Prop :=
  match e with Run _ args => observation args = true | RunInput _ _ _ | Mkdir _ | Edit _ => False end.

Section Observers.
Context {W : Type} `{GitWorld W}.
Variable self : ExecutionWorkspaceManager.
Context {P : event -> Prop}.
Hypothesis observers_allowed : forall e, observes e -> P e.

Local Hint Extern 1 (P (Run _ _)) => apply observers_allowed; reflexivity : commands.

Lemma only_registrations : only P (_registrations self).
Proof. unfold _registrations. only_auto. Qed.

Lemma only_validate_existing r b : only P (_validate_existing self r b).
Proof. unfold _validate_existing, _path_conflict, refuse, registered. only_auto. Qed.

Lemma only_validate_base b : only P (_validate_base self b).
Proof. unfold _validate_base, refuse. only_auto. Qed.

Lemma only_show_branch : only P (show_branch self).
Proof. unfold show_branch. only_auto. Qed.

Lemma only_validate_branch b : only P (_validate_branch self b).
Proof. unfold _validate_branch. only_auto. Qed.

Lemma only_symlinked_root : only P (symlinked_root self).
Proof. unfold symlinked_root. only_auto. Qed.

Local Hint Resolve only_registrations only_validate_existing only_validate_base only_show_branch
  only_validate_branch only_symlinked_root : commands.

Lemma only_validate_workspace ws : only P (_validate_workspace self ws).
Proof. unfold _validate_workspace, _path_conflict, refuse. only_auto. Qed.

Lemma only_gitlink_paths repo : only P (_gitlink_paths repo).
Proof. unfold _gitlink_paths, list_head. only_auto. Qed.

Lemma only_expected_gitlink repo path : only P (_expected_gitlink repo path).
Proof. unfold _expected_gitlink, list_head, refuse. only_auto. Qed.

Local Hint Resolve only_validate_workspace only_gitlink_paths only_expected_gitlink : commands.

Lemma only_validate_submodule_paths repo : only P (_validate_submodule_paths repo).
Proof. unfold _validate_submodule_paths, refuse. only_auto. Qed.

Lemma only_observe_submodules n repo : only P (_observe_initialized_submodules n repo).
Proof.
  revert repo. induction n as [|n IH]; intros repo; cbn [_observe_initialized_submodules];
    unfold submodule_error, refuse; only_auto; apply IH.
Qed.

Lemma only_verify_submodules n repo : only P (_verify_submodules n repo).
Proof.
  revert repo. induction n as [|n IH]; intros repo; cbn [_verify_submodules];
    unfold submodule_error, refuse; only_auto; apply IH.
Qed.
End Observers.
#[export] Hint Resolve only_registrations only_validate_existing only_validate_base only_show_branch
  only_validate_branch only_symlinked_root only_validate_workspace only_gitlink_paths
  only_expected_gitlink only_validate_submodule_paths only_observe_submodules
  only_verify_submodules : commands.

Section Operations.
Context {W : Type} `{GitWorld W}.
Variable recursion_limit : nat.
Variable self : ExecutionWorkspaceManager.

Lemma returns_bind {A B} (Q : B -> Prop) (m : py (logged W) A) (f : A -> py (logged W) B) :
  (forall a, returns Q (f a)) -> returns Q (m ≫= f).
Proof.
  intros Hf s b. unfold mbind, py_bind. destruct (m s) as [[a|e] s1]; [apply Hf | done].
Qed.

Lemma returns_ret {A} (Q : A -> Prop) a : Q a -> returns (W := W) Q (mret a).
Proof. by intros ? ? ? [= <-]. Qed.

Lemma returns_raise {A} (Q : A -> Prop) c msg : returns (W := W) Q (py_raise c msg).
Proof. by intros ? ?. Qed.

(** A validated worktree is the manager's own. *)
Definition bound_to (ws : ExecutionWorkspace) : Prop :=
  ew_path ws = self_path self /\ ew_branch ws = self_branch self /\
  ew_ticket_id ws = mg_ticket_id self.

Lemma validate_existing_bound r b : returns bound_to (_validate_existing self r b).
Proof.
  unfold _validate_existing, _path_conflict, refuse, registered.
  repeat match goal with
  | |- returns _ (_ ≫= _) => apply returns_bind; intros ?
  | |- returns _ (match ?x with _ => _ end) => destruct x
  | |- returns _ (let x := _ in _) => cbv zeta
  | |- returns _ (py_raise _ _) => apply returns_raise
  | |- returns _ (mret _) => by apply returns_ret
  end.
Qed.

(** The changes [prepare] may make besides observing. *)
Definition prepares (base_head : string) (e : event) : Prop :=
  observes e \/
  e = Mkdir (mkPath (p_root (self_path self)) (removelast (p_names (self_path self)))) \/
  e = Run (mg_repo self) ["branch"; self_branch self; base_head] \/
  e = Run (mg_repo self) ["worktree"; "add"; path_str (self_path self); self_branch self] \/
  e = Run (mg_repo self) ["worktree"; "remove"; path_str (self_path self)] \/
  e = Run (self_path self) ["submodule"; "update"; "--init"; "--recursive"].

Definition retires (e : event) : Prop :=
  observes e \/
  e = Run (mg_repo self) ["worktree"; "remove"; "--force"; path_str (self_path self)].

(** [checkpoint] of a workspace stages everything and commits at most once. *)
Definition checkpoints (execution_id title summary : string) (e : event) : Prop :=
  observes e \/
  e = Run (self_path self) ["add"; "-A"] \/
  e = Run (self_path self)
        ["commit"; "-m"; checkpoint_message (mg_ticket_id self) title execution_id summary].

Local Hint Extern 1 (prepares _ (Run _ _)) => unfold prepares; cbn; tauto : commands.
Local Hint Extern 1 (prepares _ (Mkdir _)) => unfold prepares; cbn; tauto : commands.
Local Hint Extern 1 (retires (Run _ _)) => unfold retires; cbn; tauto : commands.
Local Hint Extern 2 (prepares _ _) => left; assumption : commands.
Local Hint Extern 2 (retires _) => left; assumption : commands.
Local Hint Extern 1 (observes (Run _ _)) => reflexivity : commands.

Lemma only_inspect b h : only observes (inspect recursion_limit self b h).
Proof. unfold inspect, inspect_body, verify_submodules. only_auto. Qed.

Lemma only_adopt r b : only (prepares b) (adopt recursion_limit self r b).
Proof.
  unfold adopt. eapply only_bind_returns;
    [apply only_validate_existing; by left | apply validate_existing_bound |].
  intros ws (-> & _). unfold _prepare_submodules, refuse. only_auto.
Qed.
Local Hint Resolve only_adopt : commands.

Lemma only_prepare b : only (prepares b) (prepare recursion_limit self b).
Proof.
  unfold prepare, create_worktree, _path_conflict, _ensure_branch, refuse,
    _prune_expected_stale_registration.
  only_auto.
Qed.

Lemma only_retire ws h : only retires (retire recursion_limit self ws h).
Proof. unfold retire, _path_conflict, refuse. only_auto. Qed.
End Operations.

(** * What a reusable workspace guarantees *)

Section Static.
Context {W : Type} `{GitWorld W}.
Variable recursion_limit : nat.
Variable self : ExecutionWorkspaceManager.
(** Commands that observe do not change the world. *)
Hypothesis observers_quiet : quiet observes.
Variable w : W.

(** A command's answer in the world, and the text a successful one prints. *)
Definition answers (repo : Path) (args : list string) (p : CompletedProcess) : Prop :=
  fst (gw_run repo args w) = Ok p.
Definition succeeds (repo : Path) (args : list string) (p : CompletedProcess) : Prop :=
  answers repo args p /\ failed p = false.
Definition says (repo : Path) (args : list string) (text : string) : Prop :=
  exists p, succeeds repo args p /\ strip (stdout p) = text.

Fixpoint submodules_verified (depth : nat) (repo : Path) : Prop :=
  match depth with
  | 0 => False
  | S depth' =>
      exists listing paths,
        succeeds repo ["ls-tree"; "-r"; "-z"; "HEAD"] listing /\
        gitlinks (split_on NUL_byte (stdout listing)) = Ok paths /\
        forall path, path ∈ paths ->
          let candidate := path_join repo path in
          gw_is_symlink w candidate = false /\ gw_is_dir w candidate = true /\
          (exists object,
            expected_entry path (split_on NUL_byte (stdout listing)) = Some object /\
            says candidate ["rev-parse"; "HEAD"] object) /\
          (exists status, succeeds candidate ["status"; "--porcelain"] status /\
                          stdout status = "") /\
          submodules_verified depth' candidate
  end.

Record existing (registration : WorktreeRegistration) (base_head : string)
    (ws : ExecutionWorkspace) : Prop := {
  ex_bound : bound_to self ws;
  ex_base : ew_base_head ws = base_head;
  ex_directory : gw_is_dir w (self_path self) = true;
  ex_common : exists common expected,
    succeeds (self_path self) ["rev-parse"; "--git-common-dir"] common /\
    succeeds (mg_repo self) ["rev-parse"; "--git-common-dir"] expected /\
    resolve_git_path w (self_path self) (strip (stdout common)) =
    resolve_git_path w (mg_repo self) (strip (stdout expected));
  ex_toplevel : exists root,
    succeeds (self_path self) ["rev-parse"; "--show-toplevel"] root /\
    resolve_git_path w (self_path self) (strip (stdout root)) = gw_resolve w (self_path self);
  ex_branch : says (self_path self) ["symbolic-ref"; "--quiet"; "--short"; "HEAD"]
                (self_branch self);
  ex_head : says (self_path self) ["rev-parse"; "HEAD"] (ew_head ws);
  ex_registered : dget registration "head" = Some (ew_head ws) /\
                  dget registration "branch" = Some (self_branch self);
  ex_status : exists status, succeeds (self_path self) ["status"; "--porcelain"] status /\
                ew_dirty ws = negb (stdout status =? "")%string
}.

Record reusable (base_head : string) (expected_head : option string)
    (ws : ExecutionWorkspace) : Prop := {
  ru_base : says (mg_repo self) ["rev-parse"; "--verify"; base_head +:+ "^{commit}"] base_head;
  ru_branch : exists p, succeeds (mg_repo self)
                ["show-ref"; "--verify"; "refs/heads/" +:+ self_branch self] p;
  ru_lineage : exists p, succeeds (mg_repo self)
                ["merge-base"; "--is-ancestor"; base_head; self_branch self] p;
  ru_existing : exists listing es registration,
    succeeds (mg_repo self) ["worktree"; "list"; "--porcelain"] listing /\
    _parse_worktree_porcelain (gw_resolve w) (stdout listing) = Ok es /\
    registration_at (gw_resolve w (self_path self)) es = Some registration /\
    (forall p, branch_path (self_branch self) es = Some p -> p = gw_resolve w (self_path self)) /\
    existing registration base_head ws;
  ru_lexical : gw_is_symlink w (mg_root self) = false /\
               gw_is_symlink w (work_root self) = false /\
               gw_is_symlink w (self_path self) = false;
  ru_clean : ew_dirty ws = false;
  ru_head : forall h, expected_head = Some h -> ew_head ws = h;
  ru_submodules : submodules_verified recursion_limit (self_path self)
}.

(** The successful results of [m] in the world satisfy [Q]. *)
Definition sees {A} (Q : A -> Prop) (m : py (logged W) A) : Prop :=
  forall s a, lg_world s = w -> fst (m s) = Ok a -> Q a.

Lemma sees_bind {A B} (R : A -> Prop) (Q : B -> Prop) (m : py (logged W) A)
    (f : A -> py (logged W) B) :
  only observes m -> sees R m -> (forall a, R a -> sees Q (f a)) -> sees Q (m ≫= f).
Proof.
  intros Ho Hm Hf s b Hs. pose proof (only_quiet m s Ho observers_quiet) as Hk. specialize (Hm s).
  revert Hm Hk.
  unfold mbind, py_bind. destruct (m s) as [[a|e] s1]; cbn; [|done]. intros Hm Hk.
  apply Hf; [by apply Hm|]. by rewrite Hk.
Qed.

Lemma sees_catch {A} (Q : A -> Prop) (m : py (logged W) A) p h :
  only observes m -> sees Q m -> (forall e, sees Q (h e)) -> sees Q (py_catch m p h).
Proof.
  intros Ho Hm Hh s a Hs. pose proof (only_quiet m s Ho observers_quiet) as Hk. specialize (Hm s).
  revert Hm Hk.
  unfold py_catch. destruct (m s) as [[b|e] s1]; cbn; intros Hm Hk; [by apply Hm|].
  destruct (p e); [|done]. apply Hh. by rewrite Hk.
Qed.

Lemma sees_ret {A} (Q : A -> Prop) a : Q a -> sees Q (mret a).
Proof. intros ? ? ? _ [= <-]. done. Qed.

Lemma sees_lift {A} (Q : A -> Prop) r : (forall a, r = Ok a -> Q a) -> sees Q (py_lift r).
Proof. intros HQ s a _ Ha. by apply HQ. Qed.

Lemma sees_raise {A} (Q : A -> Prop) c msg : sees Q (py_raise c msg).
Proof. by intros ? ? _. Qed.

Lemma sees_ask {A} (f : W -> A) : sees (fun a => a = f w) (ask f).
Proof. by intros s a <- [= <-]. Qed.

Lemma sees_git repo args : sees (answers repo args) (_git repo args).
Proof.
  intros s a Hs. unfold _git, answers. rewrite Hs. destruct (gw_run repo args w). cbn. done.
Qed.

Lemma sees_check repo args :
  observation args = true -> sees (succeeds repo args) (_git_check repo args).
Proof.
  intros Ho. eapply sees_bind; [exact (only_git _ _ Ho) | apply sees_git|].
  intros p Hp. destruct (failed p) eqn:E; [apply sees_raise|]. by apply sees_ret.
Qed.

Lemma sees_each {A} (f : A -> py (logged W) unit) l (Q : A -> Prop) :
  (forall a, only observes (f a)) -> (forall a, sees (fun _ => Q a) (f a)) ->
  sees (fun _ => forall a, a ∈ l -> Q a) (py_each f l).
Proof.
  intros Ho Hf. induction l as [|x l IH]; cbn.
  - apply sees_ret. by intros a ?%not_elem_of_nil.
  - eapply sees_bind; [apply Ho | apply Hf |]. intros ? Hx s a Hs Ha y.
    intros [Heq|Hy]%elem_of_cons; [by rewrite Heq|]. by apply (IH s a).
Qed.

Local Hint Extern 1 (observes (Run _ _)) => reflexivity : commands.

(** One step of a [sees] proof: the next operation's answer is named, and the
    test on it decided. *)
Ltac sees_step :=
  lazymatch goal with
  | |- sees _ (ask _ ≫= _) =>
      eapply sees_bind; [apply only_ask | apply sees_ask | intros ? ->]
  | |- sees _ (_git _ _ ≫= _) =>
      eapply sees_bind; [by apply only_git | apply sees_git | intros ? ?]
  | |- sees _ (_git_check _ _ ≫= _) =>
      eapply sees_bind; [by apply only_check | by apply sees_check | intros ? ?]
  | |- sees _ (py_lift _ ≫= _) =>
      eapply sees_bind; [apply only_lift | apply sees_lift; intros ? HL; exact HL | intros ? ?]
  | |- sees _ (let x := _ in _) => cbv zeta
  | |- sees _ (py_raise _ _) => apply sees_raise
  | |- sees _ (if ?b then _ else _) => destruct b eqn:?
  end.

Lemma says_intro repo args p :
  answers repo args p -> failed p = false -> says repo args (strip (stdout p)).
Proof. exists p. done. Qed.

Lemma sees_validate_existing registration base_head :
  sees (fun ws => exists r, registration = Some r /\ existing r base_head ws)
    (_validate_existing self registration base_head).
Proof.
  unfold _validate_existing. sees_step.
  destruct registration as [registration|]; [|apply sees_raise].
  destruct (gw_is_dir w (self_path self)) eqn:Hdir; [|apply sees_raise].
  unfold refuse, _path_conflict, registered. repeat sees_step.
  destruct (dget registration "head") as [recorded|] eqn:Hhead; [|by intros ? ? ? ?].
  eapply sees_bind; [apply only_ret | by apply (sees_ret (eq recorded)) | intros ? <-].
  repeat sees_step.
  destruct (dget registration "branch") as [b|] eqn:Hb; [|by intros ? ? ? ?].
  eapply sees_bind; [apply only_ret | by apply (sees_ret (eq b)) | intros ? <-].
  repeat sees_step. bsplit. subst. apply sees_ret. exists registration. split; [done|].
  split; cbn; unfold says, bound_to, succeeds in *; eauto 8.
Qed.

Lemma sees_registrations :
  sees (fun es => exists listing,
    succeeds (mg_repo self) ["worktree"; "list"; "--porcelain"] listing /\
    _parse_worktree_porcelain (gw_resolve w) (stdout listing) = Ok es) (_registrations self).
Proof.
  unfold _registrations. repeat sees_step. apply sees_lift. eauto.
Qed.

Lemma sees_paths repo :
  sees (fun paths => exists listing,
    succeeds repo ["ls-tree"; "-r"; "-z"; "HEAD"] listing /\
    gitlinks (split_on NUL_byte (stdout listing)) = Ok paths) (_gitlink_paths repo).
Proof. unfold _gitlink_paths, list_head. repeat sees_step. apply sees_lift. eauto. Qed.

Lemma sees_expected repo path :
  sees (fun object => exists listing,
    succeeds repo ["ls-tree"; "-r"; "-z"; "HEAD"] listing /\
    expected_entry path (split_on NUL_byte (stdout listing)) = Some object)
    (_expected_gitlink repo path).
Proof.
  unfold _expected_gitlink, list_head, refuse. repeat sees_step.
  destruct (expected_entry _ _) eqn:E; [|apply sees_raise]. apply sees_ret. eauto.
Qed.

(** The listing of the head is the same every time. *)
Lemma succeeds_det repo args p q : succeeds repo args p -> succeeds repo args q -> p = q.
Proof. unfold succeeds, answers. intros [Hp _] [Hq _]. congruence. Qed.

Lemma sees_verify_submodules depth repo :
  sees (fun _ => submodules_verified depth repo) (_verify_submodules depth repo).
Proof.
  revert repo. induction depth as [|depth IH]; intros repo; cbn [_verify_submodules];
    [apply sees_raise|].
  eapply sees_bind; [apply only_gitlink_paths; auto | apply sees_paths |].
  intros paths (listing & Hl & Hp). intros s u Hs Hok. exists listing, paths.
  split; [done|]. split; [done|]. refine (sees_each _ paths _ _ _ s u Hs Hok).
  - intros path. unfold submodule_error, refuse. only_auto; auto.
  - intros path. unfold submodule_error, refuse. repeat sees_step.
    eapply sees_bind; [apply only_expected_gitlink; auto | apply sees_expected |].
    intros object (listing' & Hl' & Ho). rewrite (succeeds_det _ _ _ _ Hl' Hl) in Ho.
    repeat sees_step; bsplit. subst.
    intros s' a' Hs' Ha. specialize (IH _ s' a' Hs' Ha).
    split_and!; try done.
    + eexists. split; [done|]. by apply says_intro.
    + eexists. split; [by split|]. done.
Qed.

Lemma sees_validate_workspace ws :
  sees (fun _ => gw_is_symlink w (mg_root self) = false /\
               gw_is_symlink w (work_root self) = false /\
               gw_is_symlink w (self_path self) = false) (_validate_workspace self ws).
Proof.
  unfold _validate_workspace, symlinked_root, _path_conflict, refuse. repeat sees_step.
  intros s a _ _. by bsplit.
Qed.

Lemma sees_inspect_body base_head expected_head :
  sees (fun i => wi_classification i = "REUSABLE" ->
     exists ws, wi_workspace i = Some ws /\ reusable base_head expected_head ws)
    (inspect_body recursion_limit self base_head expected_head).
Proof.
  unfold inspect_body, _validate_base, show_branch, _validate_branch, refuse.
  eapply sees_bind with (R := fun _ => says (mg_repo self)
    ["rev-parse"; "--verify"; base_head +:+ "^{commit}"] base_head).
  { only_auto. }
  { repeat sees_step. apply sees_ret. bsplit. eexists; split; [by split|]. done. }
  intros _ Hbase.
  eapply sees_bind; [apply only_registrations; auto | apply sees_registrations |].
  intros es (listing & Hlist & Hes). repeat sees_step; [by apply sees_ret|].
  eapply sees_bind with (R := fun o => o = None -> exists p, succeeds (mg_repo self)
    ["merge-base"; "--is-ancestor"; base_head; self_branch self] p).
  { only_auto. }
  { apply sees_catch; [only_auto | | by intros ?; apply sees_ret].
    eapply sees_bind; [only_auto | | intros ? Hm; apply sees_ret; exact (fun _ => Hm)].
    repeat sees_step. apply sees_ret. eexists. by split. }
  intros [reason|] Hline; [by apply sees_ret | specialize (Hline eq_refl)].
  repeat sees_step; [by apply sees_ret | by apply sees_ret; destruct (gw_exists _ _) |].
  eapply sees_bind; [apply only_validate_existing; auto | apply sees_validate_existing |].
  intros ws (registration & Hreg & Hex). destruct (bool_decide (is_Some expected_head /\ _)) eqn:Hhead;
    [by apply sees_ret|].
  unfold verify_submodules.
  eapply sees_bind with (R := fun _ => submodules_verified recursion_limit (ew_path ws) /\ _).
  { only_auto. }
  { eapply sees_bind; [apply only_validate_workspace; auto | apply sees_validate_workspace |].
    intros ? Hlex s' a' Hs Ha. split; [|exact Hlex].
    exact (sees_verify_submodules _ _ s' a' Hs Ha). }
  intros _ [Hsub Hlex]. apply sees_ret. intros Hclass. destruct (ew_dirty ws) eqn:Hd; [done|].
  exists ws. split; [done|]. destruct (ex_bound _ _ _ Hex) as (Hpath & _). rewrite Hpath in Hsub.
  bsplit. split; try done.
  - eexists. split; [eassumption | done].
  - exists listing, es, registration. split_and!; try done. intros p Hp.
    destruct (decide (p = gw_resolve w (self_path self))) as [->|Hne]; [done|].
    exfalso. apply Heqb0. rewrite Hp. split; [by eexists | congruence].
  - intros h ->. destruct (decide (ew_head ws = h)) as [|Hne]; [done|]. exfalso.
    apply Hhead. split; [done|]. congruence.
Qed.
End Static.

(** * The porcelain format *)

(** A linked worktree as [git worktree list --porcelain] prints it: a detached
    one has no branch, a lock may have a reason. *)
Record worktree : Type := mkWorktree {
  wt_path : string;
  wt_head : string;
  wt_branch : option string;
  wt_locked : option string;
  wt_prunable : option string
}.

Definition worktree_lines (wt : worktree) : list string :=
  ["worktree " +:+ wt_path wt; "HEAD " +:+ wt_head wt;
   match wt_branch wt with Some b => "branch refs/heads/" +:+ b | None => "detached" end] ++
  match wt_locked wt with
  | Some "" => ["locked"]
  | Some reason => ["locked " +:+ reason]
  | None => []
  end ++
  match wt_prunable wt with Some reason => ["prunable " +:+ reason] | None => [] end.

Definition unlines (ls : list string) : string := of_chars (map (fun l => l +:+ LF) ls).

Definition render (wts : list worktree) : string :=
  unlines (concat (map (fun wt => worktree_lines wt ++ [""]) wts)).

Definition registration_of (wt : worktree) : WorktreeRegistration :=
  [("path", wt_path wt); ("head", wt_head wt)] ++
  match wt_branch wt with Some b => [("branch", b)] | None => [("detached", "")] end ++
  match wt_locked wt with Some "" => [("locked", "")] | _ => [] end.

(** A value that fits in one line. *)
Definition field_text (s : string) : Prop := one_line s /\ starts_char s = true.

Record printable (wt : worktree) : Prop := {
  pr_path : field_text (wt_path wt) /\ wt_path wt <> "";
  pr_head : field_text (wt_head wt) /\ wt_head wt <> "";
  pr_branch : forall b, wt_branch wt = Some b -> field_text b /\ b <> "";
  pr_locked : forall r, wt_locked wt = Some r -> field_text r;
  pr_prunable : forall r, wt_prunable wt = Some r -> field_text r
}.

Lemma drop_break_line l : one_line l -> drop_break (l +:+ LF) = l.
Proof.
  intros Hl. unfold drop_break. rewrite utf8_chars_app by done.
  rewrite List.filter_app, of_chars_app. change (of_chars (List.filter _ (utf8_chars LF))) with "".
  rewrite str_app_nil_r. etrans; [|apply of_utf8_chars]. f_equal.
  unfold one_line in Hl. induction Hl as [|c cs Hc _ IH]; [done|]. cbn [List.filter].
  rewrite Hc. cbn [negb]. by rewrite IH.
Qed.

Lemma unlines_starts ls : Forall field_text ls -> starts_char (unlines ls) = true.
Proof.
  destruct 1 as [|l ls [_ Hl] _]; [done|]. unfold unlines. cbn [map]. rewrite of_chars_cons.
  by destruct l.
Qed.

Lemma splitlines_unlines ls : Forall field_text ls -> splitlines (unlines ls) = ls.
Proof.
  unfold splitlines. induction ls as [|l ls IH]; [done|]. intros [[Hl Hs] Hls]%Forall_cons.
  unfold unlines. cbn [map]. rewrite of_chars_cons, str_app_assoc.
  change (of_chars (map _ ls)) with (unlines ls).
  rewrite (splitlines_line l (unlines ls)) by (done || by apply unlines_starts).
  cbn [map]. by rewrite drop_break_line, IH.
Qed.

Lemma field_text_app s t : field_text s -> field_text t -> field_text (s +:+ t).
Proof.
  intros [Hs Ss] [Ht St]. split.
  - unfold one_line. rewrite utf8_chars_app by done. by apply Forall_app.
  - by destruct s.
Qed.

Lemma worktree_lines_text wt : printable wt -> Forall field_text (worktree_lines wt).
Proof.
  assert (Hlit : forall s, forallb (fun c => negb (is_line_break c)) (utf8_chars s) && starts_char s
    = true -> field_text s).
  { intros s [Hs ?]%andb_true_iff. split; [|done]. apply Forall_forall. intros c Hc.
    apply negb_true_iff. eapply forallb_forall in Hs; [exact Hs|]. by apply list_elem_of_In. }
  intros []. unfold worktree_lines. repeat apply Forall_cons_2; try apply Forall_app_2.
  1,2: apply field_text_app; [by apply Hlit | tauto].
  - destruct (wt_branch wt); [|by apply Hlit]. apply field_text_app; [by apply Hlit|].
    by apply pr_branch0.
  - destruct (wt_locked wt) as [[|c r]|]; repeat constructor; try by apply Hlit.
    apply field_text_app; [by apply Hlit | by apply pr_locked0].
  - destruct (wt_prunable wt); repeat constructor.
    apply field_text_app; [by apply Hlit | by apply pr_prunable0].
Qed.

Lemma res_fold_app {A B} (f : A -> B -> res A) a l l' :
  res_fold f a (l ++ l') = res_fold f a l ≫= fun a' => res_fold f a' l'.
Proof.
  revert a. induction l as [|x l IH]; intros a; cbn; [done|].
  destruct (f a x); cbn; [apply IH | done].
Qed.

Section Roundtrip.
Variable resolve_path : Path -> Path.

Definition resolved (wt : worktree) : Path := resolve_path (Path_of (wt_path wt)).

Lemma registration_at_fresh p (es : list (Path * WorktreeRegistration)) :
  p ∉ map fst es -> registration_at p es = None.
Proof.
  unfold registration_at. induction es as [|[q r] es IH]; cbn; [done|].
  intros [Hne Hin]%not_elem_of_cons. rewrite bool_decide_eq_false_2 by congruence. auto.
Qed.

Lemma partition_key key v :
  contains_byte 32 key = false -> partition SPACE (key +:+ " " +:+ v) = (key, Some v).
Proof.
  induction key as [|c key IH]; [done|]. cbn [contains_byte]. intros H. bsplit.
  rewrite str_app_cons. cbn [partition]. rewrite IH by done.
  destruct (Ascii.eqb_spec c SPACE) as [->|]; [|done]. by rewrite N.eqb_refl in *.
Qed.

Lemma field_line key v es cur seen :
  (key =? "")%string = false -> contains_byte 32 key = false -> bool_decide (key ∈ seen) = false ->
  porcelain_line resolve_path (mkPorcelain es cur seen) (key +:+ " " +:+ v) =
  (current ← porcelain_field (key +:+ " " +:+ v) key v cur;
   Ok (mkPorcelain es current ({[key]} ∪ seen))).
Proof.
  intros Hk Hc Hs. unfold porcelain_line. rewrite partition_key by done.
  destruct key as [|c key]; [done|]. rewrite str_app_cons. cbn [String.eqb].
  rewrite <- str_app_cons. cbn [pc_seen]. by rewrite Hs.
Qed.

Lemma flag_line key es cur seen :
  key ∈ ["detached"; "bare"; "locked"] -> bool_decide (key ∈ seen) = false ->
  porcelain_line resolve_path (mkPorcelain es cur seen) key =
  Ok (mkPorcelain es (dset cur key "") ({[key]} ∪ seen)).
Proof.
  intros Hk Hs. unfold porcelain_line. cbn [pc_seen].
  repeat (apply elem_of_cons in Hk as [->|Hk]); [..|by apply not_elem_of_nil in Hk];
    cbn [String.eqb]; cbn [partition]; cbn -[bool_decide]; by rewrite Hs.
Qed.

Lemma eqb_empty s : s <> "" -> (s =? "")%string = false.
Proof. by destruct s. Qed.

Lemma branch_name_app b : branch_name ("refs/heads/" +:+ b) = b.
Proof.
  unfold branch_name. rewrite str_app_length. change (String.length "refs/heads/") with 11.
  replace (11 + String.length b - 11) with (String.length b) by lia.
  exact (substring_full b).
Qed.

(** The three lines every linked worktree has. *)
Lemma fold_fields wt es : printable wt ->
  exists seen : gset string, bool_decide ("locked" ∈ seen) = false /\
    bool_decide ("prunable" ∈ seen) = false /\
  res_fold (porcelain_line resolve_path) (mkPorcelain es [] ∅) (take 3 (worktree_lines wt)) =
  Ok (mkPorcelain es (take 3 (registration_of wt)) seen).
Proof.
  intros [[_ Hp] [_ Hh] Hb _ _]. unfold worktree_lines, registration_of. cbn [app firstn res_fold].
  change ("worktree " +:+ wt_path wt) with ("worktree" +:+ " " +:+ wt_path wt).
  change ("HEAD " +:+ wt_head wt) with ("HEAD" +:+ " " +:+ wt_head wt).
  rewrite field_line by done. unfold porcelain_field at 1. rewrite (eqb_empty _ Hp). cbn.
  rewrite field_line by (vm_compute; reflexivity). unfold porcelain_field at 1.
  rewrite (eqb_empty _ Hh). cbn.
  destruct (wt_branch wt) as [b|] eqn:Eb.
  - destruct (Hb b eq_refl) as [_ Hne].
    change ("branch refs/heads/" +:+ b) with ("branch" +:+ " " +:+ ("refs/heads/" +:+ b)).
    rewrite field_line by (vm_compute; reflexivity). unfold porcelain_field.
    rewrite branch_name_app, (eqb_empty _ Hne).
    assert (Hpre : starts_with "refs/heads/" ("refs/heads/" +:+ b) = true)
      by (apply prefix_spec; by exists b).
    rewrite Hpre.
    exists ({["branch"]} ∪ ({["HEAD"]} ∪ ({["worktree"]} ∪ ∅))).
    split_and!; [vm_compute; reflexivity .. | reflexivity].
  - rewrite flag_line by (by left || (vm_compute; reflexivity)).
    exists ({["detached"]} ∪ ({["HEAD"]} ∪ ({["worktree"]} ∪ ∅))).
    split_and!; [vm_compute; reflexivity .. | reflexivity].
Qed.

(** The optional lines, and the empty line that ends the entry. *)
Lemma fold_options wt es (cur : WorktreeRegistration) (seen : gset string) :
  bool_decide ("locked" ∈ seen) = false -> bool_decide ("prunable" ∈ seen) = false ->
  has_key cur "locked" = false ->
  exists seen',
  res_fold (porcelain_line resolve_path) (mkPorcelain es cur seen)
    (drop 3 (worktree_lines wt)) =
  Ok (mkPorcelain es (cur ++ match wt_locked wt with Some "" => [("locked", "")] | _ => [] end) seen').
Proof.
  intros Hl Hp Hk. unfold worktree_lines. cbn [app skipn].
  assert (Hset : dset cur "locked" "" = cur ++ [("locked", "")]).
  { clear -Hk. induction cur as [|[k v] cur IH]; [done|]. cbn in *.
    unfold has_key in *. cbn in Hk. destruct (k =? "locked")%string; [done|]. by rewrite IH. }
  assert (Hpr : forall cur' (seen' : gset string), bool_decide ("prunable" ∈ seen') = false ->
    exists seen'', res_fold (porcelain_line resolve_path) (mkPorcelain es cur' seen')
      match wt_prunable wt with Some r => ["prunable " +:+ r] | None => [] end =
    Ok (mkPorcelain es cur' seen'')).
  { intros cur' seen' Hs. destruct (wt_prunable wt) as [r|]; [|by eexists]. cbn [res_fold].
    change ("prunable " +:+ r) with ("prunable" +:+ " " +:+ r). rewrite field_line by done.
    cbn. by eexists. }
  assert (Hnew : bool_decide ("prunable" ∈ ({["locked"]} ∪ seen : gset string)) = false).
  { bsplit. apply bool_decide_eq_false. set_solver. }
  rewrite drop_0. destruct (wt_locked wt) as [[|c r]|]; cbn [app res_fold].
  - rewrite flag_line by (done || set_solver). cbn. rewrite Hset. by apply Hpr.
  - change ("locked " +:+ String c r) with ("locked" +:+ " " +:+ String c r).
    rewrite field_line by done. cbn. rewrite app_nil_r. by apply Hpr.
  - cbn. rewrite app_nil_r. by apply Hpr.
Qed.

Lemma fold_worktree wt es : printable wt -> resolved wt ∉ map fst es ->
  res_fold (porcelain_line resolve_path) (mkPorcelain es [] ∅) (worktree_lines wt ++ [""]) =
  Ok (mkPorcelain (es ++ [(resolved wt, registration_of wt)]) [] ∅).
Proof.
  intros Hwt Hfresh%registration_at_fresh. destruct (fold_fields wt es Hwt) as (seen & Hl & Hp & Hf).
  destruct (fold_options wt es (take 3 (registration_of wt)) seen Hl Hp) as (seen' & Ho).
  { unfold registration_of. by destruct (wt_branch wt), (wt_locked wt) as [[]|]. }
  rewrite <- (take_drop 3 (worktree_lines wt)), !res_fold_app, Hf. cbn [mbind res_bind].
  rewrite Ho. cbn [mbind res_bind res_fold]. unfold porcelain_line. cbn [String.eqb pc_current pc_entries].
  unfold registration_of, resolved in *. cbn [app firstn] in *.
  destruct (wt_branch wt) as [b|], (wt_locked wt) as [[|? ?]|]; cbn; rewrite Hfresh; done.
Qed.

Lemma fold_worktrees wts es : Forall printable wts ->
  NoDup (map fst es ++ map resolved wts) ->
  res_fold (porcelain_line resolve_path) (mkPorcelain es [] ∅)
    (concat (map (fun wt => worktree_lines wt ++ [""]) wts)) =
  Ok (mkPorcelain (es ++ map (fun wt => (resolved wt, registration_of wt)) wts) [] ∅).
Proof.
  revert es. induction wts as [|wt wts IH]; intros es Hw Hnd; cbn [map concat].
  - cbn. by rewrite app_nil_r.
  - apply Forall_cons in Hw as [Hwt Hw]. rewrite res_fold_app, fold_worktree; [|done|].
    + cbn [mbind res_bind]. rewrite IH; [by rewrite <- app_assoc | done |].
      rewrite map_app, <- app_assoc. done.
    + apply NoDup_app in Hnd as (_ & Hd & _). intros Hin. apply (Hd _ Hin). by left.
Qed.
End Roundtrip.

(** Parsing Git's porcelain listing returns every worktree it printed, under
    its resolved path and with the branch, head and lock that were printed, for
    worktrees with distinct resolved paths. *)
Theorem porcelain_roundtrip resolve_path wts :
  Forall printable wts -> NoDup (map (resolved resolve_path) wts) ->
  _parse_worktree_porcelain resolve_path (render wts) =
  Ok (map (fun wt => (resolved resolve_path wt, registration_of wt)) wts).
Proof.
  intros Hw Hnd. unfold _parse_worktree_porcelain, render. rewrite splitlines_unlines.
  - rewrite res_fold_app, fold_worktrees by done. done.
  - induction Hw as [|wt wts Hwt _ IH]; cbn [map concat]; [done|]. apply Forall_app_2.
    + apply Forall_app_2; [by apply worktree_lines_text | by repeat constructor].
    + apply NoDup_cons in Hnd as [_ Hnd]. auto.
Qed.

Lemma porcelain_roundtrip_witness :
  let wts := [mkWorktree "/repo" "abc" (Some "main") None None;
              mkWorktree "/x/work/T1" "def" None (Some "kept") (Some "gone")] in
  _parse_worktree_porcelain id (render wts) =
  Ok [(Path_of "/repo", [("path", "/repo"); ("head", "abc"); ("branch", "main")]);
      (Path_of "/x/work/T1", [("path", "/x/work/T1"); ("head", "def"); ("detached", "")])].
Proof.
  cbv zeta. rewrite porcelain_roundtrip; [reflexivity | |].
  - repeat (apply Forall_cons_2 || apply Forall_nil_2); split; cbn; split_and?;
      try done; try (intros ? [= <-]); split_and?; try done;
      split; try done; unfold one_line; vm_compute; repeat constructor.
  - apply (bool_decide_unpack _). vm_compute. exact I.
Defined.

(** * What the porcelain parser accepts *)

Record sound_registration (resolve_path : Path -> Path) (e : Path * WorktreeRegistration) : Prop := {
  sr_path : exists path, dget (snd e) "path" = Some path /\ path <> "" /\
              fst e = resolve_path (Path_of path);
  sr_head : exists head, dget (snd e) "head" = Some head /\ head <> "";
  sr_branch : forall b, dget (snd e) "branch" = Some b -> b <> "" /\ has_key (snd e) "detached" = false;
  sr_kind : has_key (snd e) "branch" || has_key (snd e) "detached" || has_key (snd e) "bare" = true
}.

(** The values collected so far for one entry. *)
Definition sound_current (current : WorktreeRegistration) : Prop :=
  forall k v, k ∈ ["path"; "head"; "branch"] -> dget current k = Some v -> v <> "".

Definition sound_porcelain (resolve_path : Path -> Path) (st : porcelain) : Prop :=
  NoDup (map fst (pc_entries st)) /\ Forall (sound_registration resolve_path) (pc_entries st) /\
  sound_current (pc_current st).

Lemma registration_at_None p (es : list (Path * WorktreeRegistration)) :
  registration_at p es = None -> p ∉ map fst es.
Proof.
  unfold registration_at. induction es as [|[q r] es IH]; cbn; [by intros _ ?%not_elem_of_nil|].
  case_bool_decide; [done|]. intros Hn. apply not_elem_of_cons. split; [congruence | auto].
Qed.

Lemma finish_entry_sound resolve_path current es es' :
  NoDup (map fst es) -> Forall (sound_registration resolve_path) es -> sound_current current ->
  finish_entry resolve_path current es = Ok es' ->
  NoDup (map fst es') /\ Forall (sound_registration resolve_path) es'.
Proof.
  intros Hnd Hes Hcur. unfold finish_entry. destruct current as [|kv cur] eqn:Ec; [by intros [= <-]|].
  rewrite <- Ec in *. clear kv cur Ec.
  destruct (negb _ || negb _) eqn:E1; [done|]. destruct (_ && negb _ && _) eqn:E2; [done|].
  destruct (has_key current "branch" && _) eqn:E3; [done|].
  destruct (registration_at _ es) eqn:E4; [done|]. apply registration_at_None in E4.
  intros [= <-]. bsplit. apply has_key_spec in H as [path Hpath], H0 as [head Hhead].
  rewrite Hpath in *. cbn [default] in *. rewrite map_app. split.
  - apply NoDup_app. split_and!; [done | | apply NoDup_singleton].
    intros p Hp ->%list_elem_of_singleton. done.
  - apply Forall_app. split; [done|]. apply Forall_singleton. split; cbn.
    + exists path. split_and!; [done | | done]. apply (Hcur "path"); [set_solver | done].
    + exists head. split; [done|]. apply (Hcur "head"); [set_solver | done].
    + intros b Hb. split; [apply (Hcur "branch"); [set_solver | done]|].
      apply andb_false_iff in E3 as [E3|]; [|done]. unfold has_key in E3. by rewrite Hb in E3.
    + destruct (has_key current "branch"), (has_key current "detached"); try done.
      by destruct (has_key current "bare").
Qed.

Lemma sound_current_set current k v :
  sound_current current -> (k ∈ ["path"; "head"; "branch"] -> v <> "") ->
  sound_current (dset current k v).
Proof.
  intros Hc Hv k' v' Hk'. rewrite dget_dset. destruct (k =? k')%string eqn:E; [|by apply Hc].
  apply String.eqb_eq in E as ->. intros [= <-]. auto.
Qed.

Lemma porcelain_line_sound resolve_path st line st' :
  sound_porcelain resolve_path st -> porcelain_line resolve_path st line = Ok st' ->
  sound_porcelain resolve_path st'.
Proof.
  intros (Hnd & Hes & Hcur). unfold porcelain_line.
  destruct (line =? "")%string.
  { intros (es & Hf & [= <-])%res_bind_ok. destruct (finish_entry_sound _ _ _ _ Hnd Hes Hcur Hf).
    split_and!; done. }
  destruct (partition SPACE line) as [key [value|]]; destruct (bool_decide _); try done.
  - intros (cur & Hf & [= <-])%res_bind_ok. split_and!; try done. cbn. revert Hf.
    unfold porcelain_field. destruct (negb (existsb _ _)); [done|].
    repeat match goal with |- context [if ?b then _ else _] => destruct b eqn:? end;
      try done; intros [= <-]; try done; bsplit; apply sound_current_set; done.
  - destruct (existsb _ _) eqn:Ek; [|done]. intros [= <-]. split_and!; try done. cbn.
    apply sound_current_set; [done|]. intros Hk Hv. revert Ek.
    repeat (apply elem_of_cons in Hk as [->|Hk]; [done|]). by apply not_elem_of_nil in Hk.
Qed.

(** A worktree listing that is accepted has one entry per resolved path, and
    every entry has a path, a head, and either a non-empty branch, a detached or
    a bare mark, never a branch and a detached mark. *)
Theorem porcelain_sound resolve_path output es :
  _parse_worktree_porcelain resolve_path output = Ok es ->
  NoDup (map fst es) /\ Forall (sound_registration resolve_path) es.
Proof.
  unfold _parse_worktree_porcelain.
  assert (H0 : sound_porcelain resolve_path (mkPorcelain [] [] ∅)).
  { split_and!; [constructor | constructor | by intros k v]. }
  revert H0. generalize (splitlines output ++ [""]). generalize (mkPorcelain [] [] ∅).
  intros st lines. revert st. induction lines as [|l lines IH]; intros st Hst; cbn.
  - intros [= <-]. by destruct Hst as (? & ? & _).
  - destruct (porcelain_line resolve_path st l) as [st'|] eqn:E; [|done]. cbn.
    apply IH. by eapply porcelain_line_sound.
Qed.

Lemma porcelain_sound_witness :
  exists es, _parse_worktree_porcelain id (render [mkWorktree "/repo" "abc" (Some "main") None None])
    = Ok es /\ NoDup (map fst es) /\ Forall (sound_registration id) es.
Proof.
  exists [(Path_of "/repo", [("path", "/repo"); ("head", "abc"); ("branch", "main")])].
  split; [vm_compute; reflexivity|].
  apply (porcelain_sound id (render [mkWorktree "/repo" "abc" (Some "main") None None])).
  vm_compute. reflexivity.
Defined.

Lemma sees_inspect {W : Type} `{GitWorld W} recursion_limit self base_head expected_head
    (s : logged W) i :
  quiet observes ->
  fst (inspect recursion_limit self base_head expected_head s) = Ok i ->
  wi_classification i = "REUSABLE" ->
  exists ws, wi_workspace i = Some ws /\
    reusable recursion_limit self (lg_world s) base_head expected_head ws.
Proof.
  intros Hq. revert s i.
  cut (forall w, sees w (fun i => wi_classification i = "REUSABLE" ->
     exists ws, wi_workspace i = Some ws /\
       reusable recursion_limit self w base_head expected_head ws)
    (inspect recursion_limit self base_head expected_head)).
  { intros Hs s i Hi. exact (Hs _ s i eq_refl Hi). }
  intros w. apply sees_catch; [done | unfold inspect_body, verify_submodules; only_auto; auto
    | by apply sees_inspect_body | by intros ?; apply sees_ret].
Qed.

(** * The contract of the manager *)

(** on every path, errors included, inspecting and verifying a workspace only
    runs commands that observe; preparing one can besides create the branch at
    the base, add or unregister its own worktree and update submodules in it; and
    retiring one can besides remove its own worktree. *)
Theorem manager_commands {W : Type} `{GitWorld W} recursion_limit self base_head expected_head ws :
  runs_only observes (inspect recursion_limit self base_head expected_head) /\
  runs_only observes (verify_submodules recursion_limit self ws) /\
  runs_only (prepares self base_head) (prepare recursion_limit self base_head) /\
  runs_only (retires self) (retire recursion_limit self ws base_head).
Proof.
  split_and!; apply only_runs;
    [apply only_inspect | unfold verify_submodules; only_auto; auto | apply only_prepare | apply only_retire].
Qed.

(** C30: where observing commands leave the world unchanged, a workspace that is
    classified reusable is the manager's own clean worktree: registered at its
    path and nowhere else on its branch, a checkout of that branch in the product
    repository, at the persisted head if there is one, descended from the base,
    not reached through symbolic links, and with every submodule, recursively,
    clean at the commit its superproject records. *)
Theorem inspect_reusable {W : Type} `{GitWorld W} recursion_limit self base_head expected_head
    (s : logged W) i :
  quiet observes ->
  fst (inspect recursion_limit self base_head expected_head s) = Ok i ->
  wi_classification i = "REUSABLE" ->
  exists ws, wi_workspace i = Some ws /\
    reusable recursion_limit self (lg_world s) base_head expected_head ws.
Proof.
  intros Hq Hi. by apply sees_inspect.
Qed.

(** ** Checkpoints *)

Section Checkpoint.
Context {W : Type} `{GitWorld W}.

(** A run of [m] that ends with a result extends the log by one command. *)
Lemma git_log repo args (s s' : logged W) p :
  _git repo args s = (Ok p, s') -> lg_events s' = lg_events s ++ [Run repo args].
Proof. unfold _git. destruct (gw_run _ _ _). by intros [= _ <-]. Qed.

Lemma check_log repo args (s s' : logged W) p :
  _git_check repo args s = (Ok p, s') ->
  lg_events s' = lg_events s ++ [Run repo args] /\ failed p = false.
Proof.
  unfold _git_check, mbind, py_bind. destruct (_git repo args s) as [[q|e] s1] eqn:E; [|done].
  destruct (failed q) eqn:F; [done|]. intros [= <- <-]. by split; [eapply git_log|].
Qed.

Lemma py_bind_ok {S A B} (m : py S A) (f : A -> py S B) s b s' :
  (m ≫= f) s = (Ok b, s') -> exists a s1, m s = (Ok a, s1) /\ f a s1 = (Ok b, s').
Proof.
  unfold mbind, py_bind. destruct (m s) as [[a|e] s1]; [|done]. by exists a, s1.
Qed.
End Checkpoint.

(** a checkpoint starts from the head the workspace was validated at, stages
    everything, inspects the staged difference, and commits exactly when there is
    one, with the message that names the ticket and the execution; these are all
    the commands it runs after the validation. *)
Theorem checkpoint_commands {W : Type} `{GitWorld W} self ws execution_id title summary
    (s s' : logged W) ck :
  checkpoint self ws execution_id title summary s = (Ok ck, s') ->
  bound_to self ws /\ ck_before_head ck = ew_head ws /\
  exists observed, Forall observes observed /\
    lg_events s' = lg_events s ++ observed ++
      map (Run (ew_path ws))
        ([["rev-parse"; "HEAD"]; ["add"; "-A"]; ["diff"; "--cached"; "--quiet"]] ++
         (if ck_commit_created ck
          then [["commit"; "-m";
                 checkpoint_message (mg_ticket_id self) title execution_id summary]]
          else []) ++ [["rev-parse"; "HEAD"]]).
Proof.
  unfold checkpoint. intros (v & s1 & Hv & Hc)%py_bind_ok.
  destruct (only_runs _ _ (only_validate_workspace (P := observes) self ltac:(auto) ws) s)
    as (observed & Hlog & Hobs). rewrite Hv in Hlog. cbn in Hlog.
  assert (Hb : bound_to self ws).
  { revert Hv. unfold _validate_workspace.
    destruct (_ || _ || negb _) eqn:E; [done|]. intros _. bsplit. done. }
  apply py_bind_ok in Hc as (before & s2 & H2 & Hc). destruct (negb _) eqn:Eh in Hc; [done|].
  apply py_bind_ok in Hc as (added & s3 & H3 & Hc).
  apply py_bind_ok in Hc as (staged & s4 & H4 & Hc). destruct (negb _) eqn:Es in Hc; [done|].
  apply py_bind_ok in Hc as ([] & s5 & H5 & Hc).
  apply py_bind_ok in Hc as (after & s6 & H6 & Hc). injection Hc as <- <-. cbn. bsplit.
  split; [done|]. split; [done|]. exists observed. split; [done|].
  apply check_log in H2 as [H2 _], H3 as [H3 _], H6 as [H6 _]. apply git_log in H4.
  rewrite H6. destruct (returncode staged =? 1)%Z.
  - apply py_bind_ok in H5 as (committed & s7 & H5 & Hf). destruct (failed committed); [done|].
    injection Hf as <-. apply git_log in H5. rewrite H5, H4, H3, H2, Hlog, <- !app_assoc. done.
  - injection H5 as <-. rewrite H4, H3, H2, Hlog, <- !app_assoc. done.
Qed.

(** ** A small repository *)

Definition toy_sha : string := "0123456789abcdef0123456789abcdef01234567".

(** One worktree with a submodule; the world counts the commits made in it. *)
Definition toy_run (repo : Path) (args : list string) (w : nat) : res CompletedProcess * nat :=
  let out text := (Ok (mkProc 0 text ""), w) in
  let here := path_str repo in
  match args with
  | "commit" :: _ => (Ok (mkProc 0 "" ""), S w)
  | "diff" :: _ => (Ok (mkProc 1 "" ""), w)
  | ["rev-parse"; "--verify"; _] => out ("b0" +:+ LF)
  | ["rev-parse"; "--git-common-dir"] => out ("/repo/.git" +:+ LF)
  | ["rev-parse"; "--show-toplevel"] => out (here +:+ LF)
  | ["rev-parse"; "HEAD"] =>
      out ((if (here =? "/x/work/T1")%string then "b" +:+ str_of_Z (Z.of_nat w) else toy_sha) +:+ LF)
  | "symbolic-ref" :: _ => out ("devlegate/work/T1" +:+ LF)
  | "worktree" :: "list" :: _ => out (render
      [mkWorktree "/repo" "b0" (Some "main") None None;
       mkWorktree "/x/work/T1" ("b" +:+ str_of_Z (Z.of_nat w)) (Some "devlegate/work/T1") None None])
  | "ls-tree" :: _ =>
      out (if (here =? "/x/work/T1")%string
           then "160000 commit " +:+ toy_sha +:+ String TAB "lib" +:+ NUL else "")
  | _ => out ""
  end.

#[local] Instance toy_world : GitWorld nat := {
  gw_run := toy_run;
  gw_run_input := fun _ _ _ w => (Ok (mkProc 0 "" ""), w);
  gw_mkdir := fun _ w => (Ok tt, w);
  gw_files := fun _ => ∅;
  gw_edit := fun _ w => w;
  gw_cwd := fun _ => Path_of "/";
  gw_resolve := fun _ p => p;
  gw_is_symlink := fun _ _ => false;
  gw_is_dir := fun _ _ => true;
  gw_exists := fun _ _ => true;
  gw_has_entries := fun _ _ => true
}.

Definition toy_manager : ExecutionWorkspaceManager :=
  mkManager (Path_of "/repo") "T1" "devlegate/work/T1" (Path_of "/x") (Path_of "/x/work/T1").

Definition toy_workspace : ExecutionWorkspace :=
  mkWorkspace "T1" "devlegate/work/T1" (Path_of "/x/work/T1") "b0" "b0" false.

Lemma toy_quiet : quiet (W := nat) observes.
Proof.
  intros w. split; [|done]. intros repo args w' Ho ->. cbn in Ho. unfold gw_run; cbn. unfold toy_run.
  repeat (case_match; try done).
Qed.

Lemma inspect_reusable_witness :
  exists i ws, fst (inspect 5 toy_manager "b0" (Some "b0") (mkLogged 0 [])) = Ok i /\
    wi_classification i = "REUSABLE" /\ wi_workspace i = Some ws /\
    reusable 5 toy_manager 0 "b0" (Some "b0") ws.
Proof.
  assert (Hi : fst (inspect 5 toy_manager "b0" (Some "b0") (mkLogged 0 [])) =
    Ok (mkInspection "REUSABLE" "persisted execution workspace is reusable" (Some toy_workspace)))
    by (vm_compute; reflexivity).
  destruct (inspect_reusable 5 toy_manager "b0" (Some "b0") (mkLogged 0 []) _ toy_quiet Hi eq_refl)
    as (ws & Hws & Hr).
  exists (mkInspection "REUSABLE" "persisted execution workspace is reusable" (Some toy_workspace)), ws.
  exact (conj Hi (conj eq_refl (conj Hws Hr))).
Defined.

Lemma checkpoint_commands_witness :
  exists ck s', checkpoint toy_manager toy_workspace "E1" "Title" "did it" (mkLogged 0 []) = (Ok ck, s') /\
    ck_commit_created ck = true /\ ck_after_head ck = "b1" /\ ck_before_head ck = "b0".
Proof.
  set (r := checkpoint toy_manager toy_workspace "E1" "Title" "did it" (mkLogged 0 [])).
  assert (Hr : fst r = Ok (mkCheckpoint "b0" "b1" true)) by (vm_compute; reflexivity).
  exists (mkCheckpoint "b0" "b1" true), (snd r).
  assert (Hc : r = (Ok (mkCheckpoint "b0" "b1" true), snd r)) by (rewrite <- Hr; by destruct r).
  destruct (checkpoint_commands _ _ _ _ _ _ _ _ Hc) as (_ & Hb & _).
  exact (conj Hc (conj eq_refl (conj eq_refl Hb))).
Defined.
