(* ===== verification/Scheduler.v ===== *)
(** The scheduler of the service engine, [src/devlegate/runtime.py] from
    [_evaluate_failed_executions] to [_retry_candidates]: the barriers that stop
    admission, the execution plan, the evaluation of failed executions, the
    status snapshot, the inspection and repair of a bound workspace, and the
    retry tests.  The observations these functions combine (the worker, the
    bound workspace, the control checkout, the service's own evidence) are the
    variables of the section. *)

From S2P Require Export StateInvariant Workspace.

(** [_status_git_observation]: the product checkout is always observed. *)
Record git_observation : Type := mkGit {
  gt_code : GitObservation;
  gt_control : option GitObservation
}.

#[export] Instance git_observation_eq_dec : EqDecision git_observation.
Proof. solve_decision. Defined.

(** [state["phase"]] as text, and [str(state["phase"]) in {...}]. *)
Definition bound_phases : list string := ["agent_pending"; "agent_running"].

Definition is_bound_phase (phase : pyval) : bool :=
  existsb (String.eqb (py_str phase)) bound_phases.

(** * Barriers *)

Definition reconciliation_barrier (reconciliation : dict) : res AdmissionBarrier :=
  reason ← (if eq_str (get reconciliation "status") "resolving"
            then
              ticket_id ← getitem reconciliation "ticket_id";
              Ok ("reconciliation recovery in progress: ticket " +:+ py_str ticket_id +:+
                  "; resolution " +:+
                  py_str (get_or reconciliation "resolution" (PStr "unknown")))
            else
              ticket_id ← getitem reconciliation "ticket_id";
              original ← getitem reconciliation "original_base";
              observed ← getitem reconciliation "observed_product";
              checkpoint ← getitem reconciliation "worker_checkpoint";
              Ok ("reconciliation required: ticket " +:+ py_str ticket_id +:+
                  "; original base " +:+ py_str original +:+
                  "; observed product " +:+ py_str observed +:+
                  "; worker checkpoint " +:+ py_str checkpoint));
  Ok (mkBarrier "blocked" "reconciliation" reason (str_opt (get reconciliation "ticket_id"))).

Definition is_boundary (t : Ticket) : bool :=
  is_state (tk_state t) Review || is_state (tk_state t) Accepted.

Definition boundary (store : TicketStore) : list Ticket :=
  List.filter is_boundary (ts_tickets store).

(** [by_id.get(value)] when [value] is a string. *)
Definition ticket_of (store : TicketStore) (value : pyval) : option Ticket :=
  match value with PStr k => ts_by_id store !! k | _ => None end.

Definition _admission_barrier (state : dict) (store : TicketStore) (dirty branch_ok : bool)
    (code : GitObservation) : res (option AdmissionBarrier) :=
  if negb branch_ok
  then Ok (Some (mkBarrier "blocked" "repository"
         (if go_detached code then "detached HEAD is not supported"
          else "control worktree is unavailable or on the wrong branch") None))
  else
  let reconciliation := get state "reconciliation" in
  pending ← (if is_dict reconciliation
             then in_strs (get (dict_of reconciliation) "status") ["pending"; "resolving"]
             else Ok false);
  if (pending : bool)
  then b ← reconciliation_barrier (dict_of reconciliation); Ok (Some b)
  else
  let accepted := get state "accepted_integration" in
  if is_dict accepted
  then
    match ticket_of store (get (dict_of accepted) "ticket_id") with
    | None => Ok (Some (mkBarrier "blocked" "accepted-integration"
                          "accepted integration ticket is no longer observable" None))
    | Some t => Ok (Some (mkBarrier "none" "accepted-integration"
                          ("accepted integration recovery in progress: " +:+ tk_id t)
                          (Some (tk_id t))))
    end
  else if dirty
  then Ok (Some (mkBarrier "blocked" "repository" "code or control working tree is dirty" None))
  else if (1 <? length (boundary store))%nat
  then Ok (Some (mkBarrier "blocked" "scheduler-barrier"
         "multiple tickets occupy the review/accepted serial boundary" None))
  else Ok None.

Definition _serial_admission_barrier (store : TicketStore) : option AdmissionBarrier :=
  match boundary store with
  | [] => None
  | t :: _ =>
      if is_state (tk_state t) Review
      then Some (mkBarrier "none" "review" ("waiting for review: " +:+ tk_id t) (Some (tk_id t)))
      else Some (mkBarrier "integrate" "accepted"
                   ("accepted, ready for integration: " +:+ tk_id t) (Some (tk_id t)))
  end.

(** [ticket_store.by_id[dependency]] *)
Definition dependency_ticket (store : TicketStore) (d : string) : res Ticket :=
  match ts_by_id store !! d with Some t => Ok t | None => raise PyKeyError d end.

Definition not_done (store : TicketStore) (d : string) : res bool :=
  t ← dependency_ticket store d; Ok (negb (is_state (tk_state t) Done)).

Definition _dependency_blocked_tickets (store : TicketStore) : res (list Ticket) :=
  res_filter (fun t => if is_state (tk_state t) Todo
                       then res_any (not_done store) (tk_depends_on t) else Ok false)
    (ts_tickets store).

(** * The execution plan *)

Section Observations.
(** [self.remote_branch] and [self.control_branch]. *)
Variables (remote_branch control_branch : string).
(** [self._workers.observe] *)
Variable observe_worker : WorkerProcessIdentity -> string.
(** [self._inspect_bound_execution_workspace] *)
Variable inspect_bound : dict -> res WorkspaceInspection.

Definition plan_for (git : git_observation) (action reason : string) (t : option Ticket)
    (bound : bool) : ExecutionPlan :=
  mkPlan action reason (tk_id <$> t) (tk_title <$> t) ((fun t => state_name (tk_state t)) <$> t)
    bound (Some (gt_code git)) (gt_control git).

Definition barrier_plan (git : git_observation) (store : TicketStore) (b : AdmissionBarrier)
    : ExecutionPlan :=
  plan_for git (ab_action b) (ab_reason b) (k ← ab_ticket_id b; ts_by_id store !! k) false.

Definition ambiguous_reason : string :=
  "interrupted execution has ambiguous outcome; explicit operator handling is required".

Definition ownership_reason (observation : string) : string :=
  if (observation =? "matching-live")%string
  then "persisted worker ownership is matching-live; startup reconciliation is blocked"
  else if (observation =? "indeterminate")%string
  then "persisted worker ownership is indeterminate; startup reconciliation is blocked"
  else "persisted worker ownership is absent; mutation-owner reconciliation is required".

(** The reason why a running execution is not resumed. *)
Definition running_reason (state : dict) : res string :=
  let stage := get state "execution_stage" in
  if eq_str stage "worker-running"
  then
    identity ← _worker_identity_from_value (get state "worker_identity")
                 (Some (get state "execution_id"));
    match identity with
    | Some w => Ok (ownership_reason (observe_worker w))
    | None => Ok ambiguous_reason
    end
  else if eq_str stage "post-worker"
  then Ok "persisted post-worker state awaits mutation-owner reconciliation"
  else Ok ambiguous_reason.

(** The plan of a bound execution. *)
Definition bound_plan (state : dict) (phase : pyval) (store : TicketStore) (git : git_observation)
    : res ExecutionPlan :=
  if eq_str phase "agent_running"
  then reason ← running_reason state; Ok (plan_for git "blocked" reason None false)
  else
  match ticket_of store (get state "selected_ticket_id") with
  | None => Ok (plan_for git "blocked" "persisted selected ticket is not in managed storage" None false)
  | Some t =>
      if negb (is_state (tk_state t) Todo || is_state (tk_state t) Review)
      then Ok (plan_for git "blocked" ("selected ticket " +:+ tk_id t +:+
                 " has unexpected bound execution state " +:+ state_name (tk_state t)) None false)
      else
      inspection ← (if eq_str phase "agent_pending" then Some <$> inspect_bound state else Ok None);
      match inspection with
      | Some i =>
          if negb (wi_classification i =? "REUSABLE")%string
          then Ok (plan_for git "blocked" ("bound execution workspace is " +:+
                     ascii_lower (wi_classification i) +:+ ": " +:+ wi_reason i) (Some t) true)
          else Ok (plan_for git "run-worker" "resume persisted bound execution" (Some t) true)
      | None => Ok (plan_for git "run-worker" "resume persisted bound execution" (Some t) true)
      end
  end.

Definition _make_execution_plan (state : dict) (store : TicketStore) (dirty branch_ok : bool)
    (git : git_observation) : res ExecutionPlan :=
  barrier ← _admission_barrier state store dirty branch_ok (gt_code git);
  match barrier with
  | Some b => Ok (barrier_plan git store b)
  | None =>
  phase ← getitem state "phase";
  if is_bound_phase phase then bound_plan state phase store git
  else
  match _serial_admission_barrier store with
  | Some b => Ok (barrier_plan git store b)
  | None =>
  match selected store with
  | None => Ok (plan_for git "none" "no runnable tickets" None false)
  | Some t =>
      Ok (plan_for git "run-worker" "deterministic runnable ticket selection" (Some t) false)
  end
  end
  end.

(** * Failed executions *)

(** The control checkout, as the report store sees it, and its todo directory. *)
Variable control_tree : tree.
Variable todo_directory : fp_directory.

Definition is_runnable (store : TicketStore) (t : Ticket) : bool :=
  bool_decide (t ∈ ts_runnable store).

(** Why a failure no longer describes the current generation. *)
Definition stale_reason (store : TicketStore) (code : GitObservation)
    (control : option GitObservation) (metadata : dict) (t : Ticket) : option string :=
  if negb (is_state (tk_state t) Todo)
  then Some ("ticket is no longer todo (" +:+ state_name (tk_state t) +:+ ")")
  else if negb (is_runnable store t) then Some "ticket is no longer runnable"
  else match control with
  | None => Some "control worktree is unavailable"
  | Some control =>
      if negb (eq_str (get metadata "product_head") (go_local_head code))
      then Some "product HEAD changed since the failure"
      else if negb (eq_str (get metadata "control_head") (go_local_head control))
      then Some "control generation changed since the failure"
      else if negb (py_eq (get metadata "remote_head") (opt_str (go_remote_head code)))
      then Some "product generation changed since the failure"
      else if negb (eq_str (get metadata "todo_fingerprint") (fst (_todo_fingerprint todo_directory)))
      then Some "todo workflow changed since the failure"
      else None
  end.

(** [metadata.get(key) is True] *)
Definition is_true (v : pyval) : bool := match v with PBool b => b | _ => false end.

Definition stored_report (ticket_id : string) (metadata : dict) : res (option ExecutionReport) :=
  catch (execution_id ← getitem metadata "execution_id";
         Some <$> ExecutionResult.read control_tree ticket_id (py_str execution_id))
    (fun e => is_report_error e || is_class PyKeyError e) (fun _ => Ok None).

(** Why the stored evidence does not allow a retry. *)
Definition evidence_reason (ticket_id : string) (metadata : dict) : res (option string) :=
  report ← stored_report ticket_id metadata;
  match report with
  | None =>
      if is_true (get metadata "interrupted") || is_true (get metadata "report_unavailable")
      then Ok None else Ok (Some "failed execution report is unavailable")
  | Some rep =>
      if negb (er_conclusion (rep_result rep) =? "failed")%string
      then Ok (Some "stored execution report is not failed") else Ok None
  end.

Definition first_reason (r1 : option string) (r2 : res (option string)) : res (option string) :=
  match r1 with Some r => Ok (Some r) | None => r2 end.

Definition evaluate_failure (store : TicketStore) (code : GitObservation)
    (control : option GitObservation) (admission_reason : option string)
    (entry : string * pyval) : res (option FailedExecution) :=
  let '(ticket_id, value) := entry in
  if negb (is_dict value) then Ok None else
  let metadata := dict_of value in
  let reason := py_str (get_or metadata "reason" (PStr "unknown failure")) in
  let ticket := ts_by_id store !! ticket_id in
  let stale := match ticket with
    | None => Some "ticket is no longer present"
    | Some t => stale_reason store code control metadata t
    end in
  evidence ← first_reason stale (evidence_reason ticket_id metadata);
  invalid ← first_reason evidence (Ok admission_reason);
  known ← in_strs (get metadata "interruption_kind") interruption_kinds;
  Ok (Some (mkFailed ticket_id (match ticket with Some t => tk_title t | None => ticket_id end)
              reason (is_missing invalid) invalid
              (if (known : bool) then str_opt (get metadata "interruption_kind") else None) false)).

Definition _evaluate_failed_executions (failures : pyval) (store : TicketStore)
    (code : GitObservation) (control : option GitObservation) (admission_reason : option string)
    : res (list FailedExecution) :=
  if negb (is_dict failures) then Ok []
  else
  evaluated ← res_map (evaluate_failure store code control admission_reason)
                (sorted_by fst (dict_of failures));
  Ok (cat_options evaluated).

(** * The status snapshot *)

(** [self.live_execution_evidence()]: the ticket of the execution this process
    owns. *)
Variable live_evidence : option dict.

Definition state_count (store : TicketStore) (s : WorkflowState) : string * Z :=
  (state_name s, Z.of_nat (length (List.filter (fun t => is_state (tk_state t) s) (ts_tickets store)))).

Definition id_and_title (t : Ticket) : string * string := (tk_id t, tk_title t).

Definition in_state (store : TicketStore) (s : WorkflowState) : list (string * string) :=
  map id_and_title (List.filter (fun t => is_state (tk_state t) s) (ts_tickets store)).

(** The unfinished dependencies of a ticket with their states. *)
Definition blockers (store : TicketStore) (t : Ticket) : res (list (string * string)) :=
  unfinished ← res_filter (not_done store) (py_sorted (tk_depends_on t));
  res_map (fun d => u ← dependency_ticket store d; Ok (d, state_name (tk_state u))) unfinished.

(** [(pending["ticket_id"], "in-progress")] of an accepted integration. *)
Definition lifecycle_of (state : dict) : option (string * string) :=
  match get state "accepted_integration" with
  | PDict d => match get d "ticket_id" with PStr k => Some (k, "in-progress") | _ => None end
  | _ => None
  end.

Definition is_dirty (git : git_observation) : bool :=
  negb (go_working_tree_clean (gt_code git)) ||
  match gt_control git with Some c => negb (go_working_tree_clean c) | None => true end.

Definition on_branch (g : GitObservation) (branch : string) : bool :=
  negb (go_detached g) && bool_decide (go_branch g = Some branch).

Definition branches_ok (git : git_observation) : bool :=
  on_branch (gt_code git) remote_branch &&
  match gt_control git with Some c => on_branch c control_branch | None => false end.

(** The reason shown for an eligible ticket that is not offered. *)
Definition global_barrier (pre : option AdmissionBarrier) (bound_ticket_id : option string)
    (bound_phase : bool) (store : TicketStore) : option AdmissionBarrier :=
  match pre, bound_ticket_id with
  | Some b, _ => Some b
  | None, Some k => Some (mkBarrier "blocked" "active-execution" "active execution is in progress" (Some k))
  | None, None =>
      if bound_phase
      then Some (mkBarrier "blocked" "scheduler-barrier"
                   "persisted bound execution is not observable" None)
      else _serial_admission_barrier store
  end.

(** The reason of a ticket with unfinished dependencies. *)
Definition dependency_reason (integration : option string) (unfinished : list (string * string))
    : BlockedReason :=
  match integration, unfinished with
  | Some k, [(d, _)] =>
      if (d =? k)%string then mkBlocked "integration-in-progress" (Some k) []
      else mkBlocked "dependencies" None unfinished
  | _, _ =>
      mkBlocked "dependencies" None
        (map (fun ds => (fst ds, if bool_decide (integration = Some (fst ds))
                                 then "integration-in-progress" else snd ds)) unfinished)
  end.

(** The entry of one ticket in the list of blocked tickets. *)
Definition blocked_entry (dependency_entries : list (string * (string * list (string * string))))
    (bound_ticket_id integration : option string) (eligible_ids : list string)
    (global : option BlockedReason) (t : Ticket) : res (option (string * string * BlockedReason)) :=
  if negb (is_state (tk_state t) Todo) || bool_decide (bound_ticket_id = Some (tk_id t))
  then Ok None
  else match dget dependency_entries (tk_id t) with
  | Some (title, unfinished) =>
      Ok (Some (tk_id t, title, dependency_reason integration unfinished))
  | None =>
      if existsb (String.eqb (tk_id t)) eligible_ids then Ok None
      else match global with
      | Some reason => Ok (Some (tk_id t, tk_title t, reason))
      | None => raise PyAssertionError ""
      end
  end.

(** The snapshot when the ticket store could not be read. *)
Definition broken_snapshot (state : dict) (git : git_observation) (workflow_error : option string)
    : res StatusSnapshot :=
  phase ← getitem state "phase";
  Ok (mkStatus (py_str phase) None false (gt_code git) (gt_control git)
        (map (fun s => (state_name s, 0%Z)) _WORKFLOW_STATES) [] [] [] [] None
        (plan_for git "blocked" (default "workflow is invalid" workflow_error) None false)
        [] None None None None (lifecycle_of state) []).

Definition unbound_worker (plan : ExecutionPlan) : bool :=
  (pl_action plan =? "run-worker")%string && negb (pl_bound plan).

(** [x if bound_ticket_id is not None and isinstance(x, str) else None] *)
Definition if_bound (bound_ticket_id : option string) (v : pyval) : option string :=
  match bound_ticket_id with Some _ => str_opt v | None => None end.

Definition snapshot_of (state : dict) (git : git_observation) (store : TicketStore)
    : res StatusSnapshot :=
  blocked ← _dependency_blocked_tickets store;
  dependency_blocked ← res_map (fun t => b ← blockers store t; Ok (tk_id t, (tk_title t, b))) blocked;
  let dependency_entries := dmerge [] dependency_blocked in
  let lifecycle := lifecycle_of state in
  phase ← getitem state "phase";
  let bound_phase := is_bound_phase phase in
  let dirty := is_dirty git in
  let branch_ok := branches_ok git in
  plan ← _make_execution_plan state store dirty branch_ok git;
  let admission_reason := if unbound_worker plan then None else Some (pl_reason plan) in
  failures ← _evaluate_failed_executions (get_or state "failed_executions" (PDict [])) store
               (gt_code git) (gt_control git) admission_reason;
  let failures := match live_evidence with
    | Some evidence =>
        List.filter (fun f => negb (eq_str (get evidence "ticket_id") (fe_ticket_id f))) failures
    | None => failures
    end in
  let bound_ticket_id := if bound_phase then str_opt (get state "selected_ticket_id") else None in
  let runnable := map id_and_title (ts_runnable store) in
  let eligible := if unbound_worker plan then runnable else [] in
  pre ← _admission_barrier state store dirty branch_ok (gt_code git);
  let global := (fun b => mkBlocked (ab_kind b) (ab_ticket_id b) []) <$>
                  global_barrier pre bound_ticket_id bound_phase store in
  entries ← res_map (blocked_entry dependency_entries bound_ticket_id (fst <$> lifecycle)
                       (map fst eligible) global) (ts_tickets store);
  Ok (mkStatus (py_str phase) bound_ticket_id
        (bound_phase && is_str (get state "selected_ticket_body"))
        (gt_code git) (gt_control git) (map (state_count store) _WORKFLOW_STATES) runnable
        (cat_options entries) (in_state store Review) (in_state store Accepted)
        (k ← pl_ticket_id plan; id_and_title <$> (ts_by_id store !! k))
        plan failures
        (match get state "reconciliation" with PDict d => Some d | _ => None end)
        (if_bound bound_ticket_id (get state "execution_stage"))
        (if_bound bound_ticket_id (get state "execution_id"))
        (k ← bound_ticket_id; tk_title <$> (ts_by_id store !! k))
        lifecycle eligible).

Definition _make_status_snapshot (state : dict) (git : git_observation)
    (ticket_store : option TicketStore) (workflow_error : option string) : res StatusSnapshot :=
  match ticket_store with
  | None => broken_snapshot state git workflow_error
  | Some store => snapshot_of state git store
  end.
End Observations.

(** * Collecting a stable snapshot *)

Section Collection.
Context {W : Type}.
(** The observations of [_collect_status_attempt]; each may see another state of
    the world than the one before. *)
Variable observe_state : py W (dict * string).
Variable observe_git : py W git_observation.
Variable workflow_fingerprint : py W string.
Variable ticket_store : py W TicketStore.
Variable make_snapshot :
  dict -> git_observation -> option TicketStore -> option string -> py W StatusSnapshot.
(** [_published_status_snapshot] and [_publish_status_snapshot]. *)
Variable published : W -> option StatusSnapshot.
Variable publish : StatusSnapshot -> py W unit.

Definition snapshot_changed {A} : py W A := py_raise SnapshotChanged "".

Definition observed_workflow : py W string :=
  py_catch
    (py_catch workflow_fingerprint (is_class PyFileNotFoundError) (fun _ => snapshot_changed))
    is_os_error
    (fun e => py_raise DevlegateError ("cannot observe workflow files: " +:+ exn_msg e)).

(** The ticket store, or the error that made it unreadable. *)
Definition observed_tickets : py W (option TicketStore * option exn) :=
  py_catch
    (py_catch
      (py_catch (store ← ticket_store; mret (Some store, None)) is_devlegate_error
        (fun e => mret (None, Some e)))
      (is_class PyFileNotFoundError) (fun _ => snapshot_changed))
    is_os_error
    (fun e => mret (None, Some (Exn DevlegateError ("cannot read ticket storage: " +:+ exn_msg e)))).

Definition _collect_status_attempt (allow_workflow_blocked : bool) : py W StatusSnapshot :=
  '(_, token_before) ← observe_state;
  git_before ← observe_git;
  workflow_before ← observed_workflow;
  '(store, ticket_error) ← observed_tickets;
  workflow_after ← observed_workflow;
  git_after ← observe_git;
  '(state_after, token_after) ← observe_state;
  if negb (token_before =? token_after)%string || negb (bool_decide (git_before = git_after)) ||
     negb (workflow_before =? workflow_after)%string
  then snapshot_changed
  else match ticket_error, allow_workflow_blocked with
  | Some e, false => fun w => (Raise e, w)
  | _, _ => make_snapshot state_after git_after store (exn_msg <$> ticket_error)
  end.

(** [for _attempt in range(n)]: the first attempt that is not interrupted. *)
Fixpoint attempts (n : nat) (allow : bool) : py W (option StatusSnapshot) :=
  match n with
  | 0 => mret None
  | S n' =>
      py_catch (snapshot ← _collect_status_attempt allow; mret (Some snapshot))
        (is_class SnapshotChanged) (fun _ => attempts n' allow)
  end.

Definition status_view : py W StatusSnapshot :=
  snapshot ← attempts 3 true;
  match snapshot with
  | Some snapshot => _ ← publish snapshot; mret snapshot
  | None =>
      fallback ← (fun w => (Ok (published w), w));
      match fallback with
      | Some snapshot => mret snapshot
      | None => py_raise DevlegateError
                  "project state changed while status snapshot was being collected"
      end
  end.

Definition _retry_candidates : py W (list (string * string * string)) :=
  snapshot ← attempts 3 false;
  match snapshot with
  | Some snapshot =>
      mret (map (fun f => (fe_ticket_id f, fe_title f, fe_reason f))
              (List.filter fe_retryable (ss_failed_executions snapshot)))
  | None => py_raise DevlegateError
              "project state changed while retry candidates were being collected"
  end.

Definition _interrupted_retry_candidate (state : dict) : py W (option RetryCandidate) :=
  if negb (eq_str (get state "phase") "agent_running") then mret None else
  early ← py_lift (in_none_strs (get state "execution_stage") ["pre-checkpoint"]);
  if negb (early : bool) then mret None else
  let ticket_id := get state "execution_ticket_id" in
  if negb (nonempty_str ticket_id) then mret None else
  store ← ticket_store;
  match ticket_of store ticket_id with
  | Some t =>
      if is_state (tk_state t) Todo && is_runnable store t
      then mret (Some (mkRetryCandidate (tk_id t) (tk_title t)
                         "interrupted execution; recovery validation required" "interrupted"))
      else mret None
  | None => mret None
  end.

Definition _interactive_retry_candidates (state : dict) : py W (list RetryCandidate) :=
  failed ← _retry_candidates;
  let candidates := map (fun c => mkRetryCandidate (fst (fst c)) (snd (fst c)) (snd c) "failed") failed in
  interrupted ← _interrupted_retry_candidate state;
  match interrupted with
  | Some c =>
      if forallb (fun d => negb (rc_ticket_id d =? rc_ticket_id c)%string) candidates
      then mret (candidates ++ [c]) else mret candidates
  | None => mret candidates
  end.

(** The admission test of [_retry_locked]. *)
Definition check_retryable (state : dict) (ticket_id : string) (force : bool) : py W unit :=
  let authorization := get state "force_retry_authorization" in
  let forced := force && is_dict authorization &&
    eq_str (get (dict_of authorization) "status") "admitted" &&
    eq_str (get (dict_of authorization) "ticket_id") ticket_id in
  if forced then mret tt else
  candidates ← _retry_candidates;
  if existsb (fun c => (fst (fst c) =? ticket_id)%string) candidates then mret tt
  else py_raise DevlegateError ("ticket " +:+ ticket_id +:+ " is not currently retryable").
End Collection.

(** [_assert_previous_worker_is_safe] *)
Definition _assert_previous_worker_is_safe (observe_worker : WorkerProcessIdentity -> string)
    (state : dict) : res unit :=
  identity ← _worker_identity_from_value (get state "worker_identity")
               (Some (get state "execution_id"));
  let unproven := raise DevlegateError
    "previous worker ownership cannot be proven absent; duplicate launch refused" in
  match identity with
  | None => unproven
  | Some w =>
      let observation := observe_worker w in
      if (observation =? "absent")%string then Ok tt
      else if (observation =? "matching-live")%string
      then raise DevlegateError "previous execution worker is still alive; duplicate launch refused"
      else unproven
  end.

(** * Admission *)

(** Nothing global stands in the way of starting an execution. *)
Record unobstructed (state : dict) (store : TicketStore) (dirty branch_ok : bool) : Prop := {
  un_branch : branch_ok = true;
  un_clean : dirty = false;
  un_reconciliation : forall d, get state "reconciliation" = PDict d ->
    get d "status" <> PStr "pending" /\ get d "status" <> PStr "resolving";
  un_integration : is_dict (get state "accepted_integration") = false;
  un_boundary : length (boundary store) <= 1
}.

Lemma no_barrier state store dirty branch_ok code :
  _admission_barrier state store dirty branch_ok code = Ok None ->
  unobstructed state store dirty branch_ok.
Proof.
  unfold _admission_barrier. destruct branch_ok; [|done]. cbn [negb].
  intros (pending & Hp & H)%res_bind_ok. destruct pending.
  { apply res_bind_ok in H as (b & _ & [=]). }
  destruct (is_dict (get state "accepted_integration")) eqn:Ha; [by destruct (ticket_of _ _)|].
  destruct dirty; [done|]. destruct (1 <? _)%nat eqn:Hb; [done|].
  apply Nat.ltb_ge in Hb. split; try done.
  intros d Hd. rewrite Hd in Hp. cbn [is_dict dict_of] in Hp. apply in_strs_ok in Hp. symmetry in Hp.
  split; intros Hs; by rewrite Hs in Hp.
Qed.

(** A barrier never starts a worker. *)
Lemma barrier_action state store dirty branch_ok code b :
  _admission_barrier state store dirty branch_ok code = Ok (Some b) ->
  (ab_action b =? "run-worker")%string = false.
Proof.
  unfold _admission_barrier. destruct branch_ok; cbn [negb]; [|by intros [= <-]].
  intros (pending & _ & Hb)%res_bind_ok. revert Hb. destruct pending.
  { intros (b' & Hb' & [= <-])%res_bind_ok. unfold reconciliation_barrier in Hb'.
    by apply res_bind_ok in Hb' as (r & _ & [= <-]). }
  destruct (is_dict _); [destruct (ticket_of _ _); by intros [= <-]|].
  destruct dirty; [by intros [= <-]|]. destruct (_ <? _)%nat; by intros [= <-].
Qed.

Lemma barrier_or_clear state store dirty branch_ok code r :
  unobstructed state store dirty branch_ok ->
  _admission_barrier state store dirty branch_ok code = Ok r -> r = None.
Proof.
  intros [-> -> Hr Ha Hb]. unfold _admission_barrier. cbn [negb].
  intros (pending & Hp & H)%res_bind_ok. destruct pending.
  - exfalso. destruct (get state "reconciliation") as [| | | | | |d]; try done.
    cbn [is_dict dict_of] in Hp. apply in_strs_true in Hp as (s & Hs & Hin). destruct (Hr d eq_refl) as [H1 H2].
    repeat (apply elem_of_cons in Hin as [->|Hin]; [by rewrite Hs in *|]).
    by apply not_elem_of_nil in Hin.
  - rewrite Ha in H. replace (1 <? _)%nat with false in H by (symmetry; by apply Nat.ltb_ge).
    congruence.
Qed.

Lemma serial_none store :
  _serial_admission_barrier store = None <->
  forall t, t ∈ ts_tickets store -> tk_state t <> Review /\ tk_state t <> Accepted.
Proof.
  assert (Hb : boundary store = [] <->
    forall t, t ∈ ts_tickets store -> tk_state t <> Review /\ tk_state t <> Accepted).
  { unfold boundary. induction (ts_tickets store) as [|t l IH]; cbn.
    - split; [by intros _ ? ?%not_elem_of_nil | done].
    - unfold is_boundary at 1, is_state. split.
      + repeat case_bool_decide; cbn; try done. intros Hl u [->|Hu]%elem_of_cons; [done|].
        by apply IH.
      + intros Hall. destruct (Hall t ltac:(left)) as [H1 H2].
        rewrite !bool_decide_eq_false_2 by done. cbn. apply IH. intros u Hu. apply Hall. by right. }
  rewrite <- Hb. unfold _serial_admission_barrier. destruct (boundary store) as [|t l]; [done|].
  by destruct (is_state _ _).
Qed.

Section Plans.
Variable observe_worker : WorkerProcessIdentity -> string.
Variable inspect_bound : dict -> res WorkspaceInspection.
Abbreviation make_plan := (_make_execution_plan observe_worker inspect_bound).

(** A new execution may be started: nothing obstructs it, no ticket waits at the
    review and integration boundary, and no execution is bound. *)
Record may_start (state : dict) (store : TicketStore) (dirty branch_ok : bool) : Prop := {
  ms_unobstructed : unobstructed state store dirty branch_ok;
  ms_boundary : forall t, t ∈ ts_tickets store -> tk_state t <> Review /\ tk_state t <> Accepted;
  ms_unbound : is_bound_phase (get state "phase") = false
}.

(** The plan that starts an execution of the selected ticket. *)
Definition start_plan (git : git_observation) (t : Ticket) : ExecutionPlan :=
  plan_for git "run-worker" "deterministic runnable ticket selection" (Some t) false.

Lemma bound_plan_bound state phase store git plan :
  bound_plan observe_worker inspect_bound state phase store git = Ok plan ->
  unbound_worker plan = false.
Proof.
  unfold bound_plan. destruct (eq_str phase "agent_running").
  { by intros (r & _ & [= <-])%res_bind_ok. }
  destruct (ticket_of _ _) as [t|]; [|by intros [= <-]].
  destruct (negb _); [by intros [= <-]|].
  intros (i & _ & H)%res_bind_ok. destruct i as [i|]; [destruct (negb _)|];
    injection H as <-; done.
Qed.

Lemma start_plan_cases state store dirty branch_ok git plan :
  make_plan state store dirty branch_ok git = Ok plan ->
  if unbound_worker plan
  then may_start state store dirty branch_ok /\
       exists t, selected store = Some t /\ plan = start_plan git t
  else ~ (may_start state store dirty branch_ok /\ is_Some (selected store)).
Proof.
  unfold _make_execution_plan. intros (barrier & Hb & H)%res_bind_ok.
  destruct barrier as [b|].
  { assert (Hu : unbound_worker plan = false).
    { injection H as <-. apply barrier_action in Hb. unfold unbound_worker. cbn. by rewrite Hb. }
    rewrite Hu. intros [[Hc _ _] _]. pose proof (barrier_or_clear _ _ _ _ _ _ Hc Hb). done. }
  apply no_barrier in Hb. apply res_bind_ok in H as (phase & Hphase & H).
  apply getitem_get in Hphase as [Hphase _].
  destruct (is_bound_phase phase) eqn:Ep.
  { rewrite (bound_plan_bound _ _ _ _ _ H). intros [[_ _ Hu] _]. congruence. }
  destruct (_serial_admission_barrier store) as [b|] eqn:Es.
  { assert (Hu : unbound_worker plan = false).
    { injection H as <-. revert Es. unfold _serial_admission_barrier.
      destruct (boundary store); [done|]. destruct (is_state _ _); by intros [= <-]. }
    rewrite Hu. intros [[_ Hs _] _]. apply serial_none in Hs. congruence. }
  destruct (selected store) as [t|]; injection H as <-; cbn.
  - split; [|by exists t]. split; [done | by apply serial_none | congruence].
  - by intros [_ [? [=]]].
Qed.
End Plans.

(** * The snapshot of a well-formed store *)

Section WellFormed.
Variable store : TicketStore.
Hypothesis wf : wf_store store.

(** A todo ticket with an unfinished dependency. *)
Definition dependency_blocked (t : Ticket) : bool :=
  is_state (tk_state t) Todo && negb (deps_done_b (ts_by_id store) t).

Definition unfinished (d : string) : bool :=
  match ts_by_id store !! d with Some u => negb (is_state (tk_state u) Done) | None => false end.

Definition blockers_of (t : Ticket) : list (string * string) :=
  map (fun d => (d, match ts_by_id store !! d with Some u => state_name (tk_state u) | None => "" end))
    (List.filter unfinished (py_sorted (tk_depends_on t))).

Lemma dependency_found t d :
  t ∈ ts_tickets store -> d ∈ tk_depends_on t -> exists u, ts_by_id store !! d = Some u.
Proof.
  intros Ht Hd. assert (Hi : ts_by_id store !! tk_id t = Some t) by by apply (wf_index _ wf).
  exact (wf_closed _ wf _ _ _ Hi Hd).
Qed.

Lemma not_done_pure t d :
  t ∈ ts_tickets store -> d ∈ tk_depends_on t -> not_done store d = Ok (unfinished d).
Proof.
  intros Ht Hd. destruct (dependency_found t d Ht Hd) as [u Hu].
  unfold not_done, dependency_ticket, unfinished. by rewrite Hu.
Qed.

Lemma exists_unfinished t : t ∈ ts_tickets store ->
  existsb unfinished (tk_depends_on t) = negb (deps_done_b (ts_by_id store) t).
Proof.
  intros Ht. unfold deps_done_b. pose proof (dependency_found t) as Hf. revert Hf.
  induction (tk_depends_on t) as [|d l IH]; intros Hf; cbn; [done|].
  destruct (Hf d Ht ltac:(left)) as [u Hu]. unfold unfinished at 1. rewrite Hu.
  rewrite IH by (intros; apply Hf; [done | by right]). by destruct (is_state _ _).
Qed.

Lemma dependency_blocked_pure :
  _dependency_blocked_tickets store = Ok (List.filter dependency_blocked (ts_tickets store)).
Proof.
  apply res_filter_pure, Forall_forall. intros t Ht. unfold dependency_blocked.
  destruct (is_state _ _); [|done].
  rewrite (res_any_pure _ unfinished); [by rewrite exists_unfinished|].
  apply Forall_forall. intros d Hd. by apply (not_done_pure t).
Qed.

Lemma blockers_pure t : t ∈ ts_tickets store -> blockers store t = Ok (blockers_of t).
Proof.
  intros Ht. unfold blockers.
  assert (Hd : forall d, d ∈ py_sorted (tk_depends_on t) -> d ∈ tk_depends_on t)
    by (intros d; by rewrite elem_of_py_sorted).
  rewrite (res_filter_pure _ unfinished).
  - cbn. apply res_map_pure, Forall_forall. intros d Hin.
    apply list_elem_of_In, filter_In in Hin as [Hin _]. apply list_elem_of_In in Hin.
    destruct (dependency_found t d Ht (Hd d Hin)) as [u Hu]. unfold dependency_ticket. by rewrite Hu.
  - apply Forall_forall. intros d Hin. by apply (not_done_pure t), Hd.
Qed.

Definition dependency_list : list (string * (string * list (string * string))) :=
  map (fun t => (tk_id t, (tk_title t, blockers_of t)))
    (List.filter dependency_blocked (ts_tickets store)).

Lemma dependency_list_pure :
  res_map (fun t => b ← blockers store t; Ok (tk_id t, (tk_title t, b)))
    (List.filter dependency_blocked (ts_tickets store)) = Ok dependency_list.
Proof.
  apply res_map_pure, Forall_forall. intros t Hin.
  apply list_elem_of_In, filter_In in Hin as [Hin _]. apply list_elem_of_In in Hin.
  by rewrite blockers_pure.
Qed.

Lemma dependency_list_keys :
  keys dependency_list = map tk_id (List.filter dependency_blocked (ts_tickets store)).
Proof. unfold keys, dependency_list. by rewrite map_map. Qed.

Lemma same_ticket t u :
  t ∈ ts_tickets store -> u ∈ ts_tickets store -> tk_id t = tk_id u -> t = u.
Proof.
  intros Ht Hu Heq. assert (H1 : ts_by_id store !! tk_id t = Some t) by by apply (wf_index _ wf).
  assert (H2 : ts_by_id store !! tk_id u = Some u) by by apply (wf_index _ wf). congruence.
Qed.

Lemma dependency_lookup t : t ∈ ts_tickets store ->
  dget (dmerge [] dependency_list) (tk_id t) =
  if dependency_blocked t then Some (tk_title t, blockers_of t) else None.
Proof.
  intros Ht.
  assert (Hnd : NoDup (keys dependency_list)).
  { rewrite dependency_list_keys. apply NoDup_map_filter, (wf_ids _ wf). }
  rewrite dget_dmerge by done. destruct (dependency_blocked t) eqn:Hb.
  - rewrite (elem_dget _ _ (tk_title t, blockers_of t)); [done | done|].
    apply list_elem_of_fmap. exists t. split; [done|]. apply list_elem_of_In, filter_In.
    split; [by apply list_elem_of_In | done].
  - rewrite (proj2 (dget_None _ _)); [done|]. rewrite dependency_list_keys.
    intros (u & Heq & Hu)%list_elem_of_fmap. apply list_elem_of_In, filter_In in Hu as [Hu Hbu].
    apply list_elem_of_In in Hu. rewrite <- (same_ticket t u) in Hbu by done. congruence.
Qed.

Lemma runnable_not_blocked t : t ∈ ts_tickets store -> tk_state t = Todo ->
  (t ∈ ts_runnable store <-> dependency_blocked t = false).
Proof.
  intros Ht Hs. rewrite (wf_runnable _ wf). unfold runnable_in, dependency_blocked.
  rewrite <- deps_done_b_spec, Hs. cbn. destruct (deps_done_b _ _); naive_solver.
Qed.

Lemma selected_runnable :
  match selected store with
  | Some t => t ∈ ts_runnable store /\ forall u, runnable_in store u -> String.le (tk_id t) (tk_id u)
  | None => ts_runnable store = []
  end.
Proof.
  unfold selected. pose proof (wf_runnable_sorted _ wf) as Hs. pose proof (wf_runnable _ wf) as Hr.
  destruct (ts_runnable store) as [|t l]; cbn; [done|]. split; [left|].
  intros u [->|Hu]%Hr%elem_of_cons; [by unfold String.le|].
  apply StronglySorted_inv in Hs as [_ Hs]. rewrite Forall_forall in Hs. exact (Hs u Hu).
Qed.
End WellFormed.

Section Snapshots.
Variables (remote_branch control_branch : string).
Variable observe_worker : WorkerProcessIdentity -> string.
Variable inspect_bound : dict -> res WorkspaceInspection.
Variable control_tree : tree.
Variable todo_directory : fp_directory.
Variable live_evidence : option dict.

Abbreviation make_plan := (_make_execution_plan observe_worker inspect_bound).
Abbreviation evaluate := (_evaluate_failed_executions control_tree todo_directory).
Abbreviation make_snapshot := (snapshot_of remote_branch control_branch observe_worker
  inspect_bound control_tree todo_directory live_evidence).
Abbreviation branch_ok := (branches_ok remote_branch control_branch).

(** The plan a snapshot is made with. *)
Definition plan_of (state : dict) (store : TicketStore) (git : git_observation)
    : res ExecutionPlan :=
  make_plan state store (is_dirty git) (branch_ok git) git.

Definition admission_reason_of (plan : ExecutionPlan) : option string :=
  if unbound_worker plan then None else Some (pl_reason plan).

Definition failures_of (state : dict) (store : TicketStore) (git : git_observation)
    (plan : ExecutionPlan) : res (list FailedExecution) :=
  evaluate (get_or state "failed_executions" (PDict [])) store (gt_code git) (gt_control git)
    (admission_reason_of plan).

Section OneSnapshot.
Variable state : dict.
Variable store : TicketStore.
Variable git : git_observation.
Hypothesis wf : wf_store store.

Definition bound_id (phase : pyval) : option string :=
  if is_bound_phase phase then str_opt (get state "selected_ticket_id") else None.

Definition global_reason (pre : option AdmissionBarrier) (phase : pyval) : option BlockedReason :=
  (fun b => mkBlocked (ab_kind b) (ab_ticket_id b) []) <$>
    global_barrier pre (bound_id phase) (is_bound_phase phase) store.

Definition eligible_of (plan : ExecutionPlan) : list (string * string) :=
  if unbound_worker plan then map id_and_title (ts_runnable store) else [].

(** A todo ticket that is neither bound nor eligible. *)
Definition held_back (phase : pyval) (plan : ExecutionPlan) (t : Ticket) : bool :=
  is_state (tk_state t) Todo && negb (bool_decide (bound_id phase = Some (tk_id t))) &&
  negb (unbound_worker plan && is_runnable store t).

Definition held_entry (reason : BlockedReason) (t : Ticket) : string * string * BlockedReason :=
  (tk_id t, tk_title t,
   if dependency_blocked store t
   then dependency_reason (fst <$> lifecycle_of state) (blockers_of store t) else reason).

Lemma eligible_ids plan t : t ∈ ts_tickets store ->
  existsb (String.eqb (tk_id t)) (map fst (eligible_of plan)) =
  unbound_worker plan && is_runnable store t.
Proof.
  intros Ht. unfold eligible_of. destruct (unbound_worker plan); [|done]. rewrite map_map. cbn.
  apply eq_true_iff_eq. unfold is_runnable. rewrite bool_decide_eq_true, existsb_exists. split.
  - intros (k & Hk & ->%String.eqb_eq%eq_sym). apply list_elem_of_In, list_elem_of_fmap in Hk as (u & Heq & Hu).
    assert (Hu' : u ∈ ts_tickets store) by by apply (wf_runnable _ wf) in Hu as [? _].
    cbn in Heq. by rewrite (same_ticket store wf t u Ht Hu' Heq).
  - intros Hr. exists (tk_id t). split; [|apply String.eqb_refl].
    apply list_elem_of_In, list_elem_of_fmap. by exists t.
Qed.

(** Where the snapshot's assertion is evaluated, it holds. *)
Lemma global_reason_present plan pre phase t :
  plan_of state store git = Ok plan -> getitem state "phase" = Ok phase ->
  _admission_barrier state store (is_dirty git) (branch_ok git) (gt_code git) = Ok pre ->
  t ∈ ts_tickets store -> tk_state t = Todo -> dependency_blocked store t = false ->
  unbound_worker plan && is_runnable store t = false ->
  is_Some (global_reason pre phase).
Proof.
  intros Hplan Hphase Hpre Ht Hs Hdep Hel. unfold global_reason, global_barrier.
  destruct pre as [b|]; [done|]. destruct (bound_id phase); [done|].
  destruct (is_bound_phase phase) eqn:Hb; [done|].
  destruct (_serial_admission_barrier store) as [b|] eqn:Hser; [done|]. exfalso.
  apply (runnable_not_blocked store wf t Ht Hs) in Hdep.
  unfold is_runnable in Hel. rewrite bool_decide_eq_true_2, andb_true_r in Hel by done.
  apply start_plan_cases in Hplan. rewrite Hel in Hplan. apply Hplan. split.
  - split; [by eapply no_barrier | by apply serial_none|].
    apply getitem_get in Hphase as [-> _]. done.
  - pose proof (selected_runnable store wf) as Hsel. destruct (selected store); [done|].
    rewrite Hsel in Hdep. by apply not_elem_of_nil in Hdep.
Qed.

Lemma entries_pure plan pre phase :
  plan_of state store git = Ok plan -> getitem state "phase" = Ok phase ->
  _admission_barrier state store (is_dirty git) (branch_ok git) (gt_code git) = Ok pre ->
  cat_options <$> res_map (blocked_entry (dmerge [] (dependency_list store)) (bound_id phase)
    (fst <$> lifecycle_of state) (map fst (eligible_of plan)) (global_reason pre phase))
    (ts_tickets store) =
  Ok (map (held_entry (default (mkBlocked "" None []) (global_reason pre phase)))
        (List.filter (held_back phase plan) (ts_tickets store))).
Proof.
  intros Hplan Hphase Hpre.
  set (f := held_entry _).
  rewrite (res_map_pure _ (fun t => if held_back phase plan t then Some (f t) else None)).
  - cbn. f_equal. clear. induction (ts_tickets store) as [|t l IH]; cbn; [done|].
    destruct (held_back phase plan t); cbn; by rewrite IH.
  - apply Forall_forall. intros t Ht. unfold blocked_entry, held_back.
    destruct (is_state (tk_state t) Todo) eqn:Hs; [|done]. apply is_state_spec in Hs.
    destruct (bool_decide _); [done|]. cbn [negb orb andb].
    rewrite dependency_lookup, eligible_ids by done.
    destruct (dependency_blocked store t) eqn:Hb.
    + assert (Hr : is_runnable store t = false).
      { apply bool_decide_eq_false. intros Hr%(runnable_not_blocked store wf); [congruence | done..]. }
      rewrite Hr, andb_false_r. subst f. unfold held_entry. by rewrite Hb.
    + destruct (_ && _) eqn:He; [done|]. cbn.
      destruct (global_reason_present plan pre phase t) as [r Hr]; try done.
      rewrite Hr. subst f. unfold held_entry. by rewrite Hb, Hr.
Qed.
End OneSnapshot.

Definition exactly_one (P Q R : Prop) : Prop :=
  (P /\ ~ Q /\ ~ R) \/ (~ P /\ Q /\ ~ R) \/ (~ P /\ ~ Q /\ R).

Lemma held_back_partition state store git plan phase reason t :
  wf_store store -> plan_of state store git = Ok plan -> getitem state "phase" = Ok phase ->
  t ∈ ts_tickets store -> tk_state t = Todo ->
  exactly_one (bound_id state phase = Some (tk_id t))
    (id_and_title t ∈ eligible_of store plan)
    (exists r, (tk_id t, tk_title t, r) ∈ map (held_entry state store reason)
       (List.filter (held_back state store phase plan) (ts_tickets store))).
Proof.
  intros wf Hplan Hphase Ht Hs.
  assert (He : id_and_title t ∈ eligible_of store plan <->
    unbound_worker plan && is_runnable store t = true).
  { unfold eligible_of, is_runnable. destruct (unbound_worker plan); cbn.
    - rewrite bool_decide_eq_true. split; [|intros; apply list_elem_of_fmap; by exists t].
      intros (u & [= Hid _] & Hu)%list_elem_of_fmap.
      assert (Hu' : u ∈ ts_tickets store) by by apply (wf_runnable _ wf) in Hu as [? _].
      by rewrite (same_ticket store wf t u Ht Hu' Hid).
    - split; [by intros ?%not_elem_of_nil | done]. }
  assert (Hh : (exists r, (tk_id t, tk_title t, r) ∈ map (held_entry state store reason)
       (List.filter (held_back state store phase plan) (ts_tickets store))) <->
     held_back state store phase plan t = true).
  { split.
    - intros (r & (u & [= Hid _ _] & Hu)%list_elem_of_fmap).
      apply list_elem_of_In, filter_In in Hu as [Hu Hb]. apply list_elem_of_In in Hu.
      by rewrite (same_ticket store wf t u Ht Hu Hid).
    - intros Hb. eexists. apply list_elem_of_fmap. exists t. split; [done|].
      apply list_elem_of_In, filter_In. split; [by apply list_elem_of_In | done]. }
  assert (Hx : bound_id state phase <> None -> unbound_worker plan = false).
  { intros Hb. destruct (unbound_worker plan) eqn:E; [|done]. exfalso.
    pose proof (start_plan_cases _ _ _ _ _ _ _ _ Hplan) as Hst. rewrite E in Hst.
    destruct Hst as [[_ _ Hu] _]. apply getitem_get in Hphase as [Hg _].
    unfold bound_id in Hb. by rewrite <- Hg, Hu in Hb. }
  unfold exactly_one. rewrite He, Hh. unfold held_back. rewrite Hs.
  cbn [is_state]. unfold is_state. rewrite bool_decide_eq_true_2 by done. cbn [andb].
  destruct (decide (bound_id state phase = Some (tk_id t))) as [Hb|Hb].
  - left. rewrite Hx by (by rewrite Hb). rewrite bool_decide_eq_true_2 by done. done.
  - right. rewrite bool_decide_eq_false_2 by done. cbn.
    destruct (_ && is_runnable store t); [by left | by right].
Qed.

Lemma phase_of state : is_Some (dget state "phase") -> exists phase, getitem state "phase" = Ok phase.
Proof. intros [v Hv]. exists v. unfold getitem. by rewrite Hv. Qed.

Lemma snapshot_computed state store git plan failures :
  wf_store store -> is_Some (dget state "phase") ->
  plan_of state store git = Ok plan -> failures_of state store git plan = Ok failures ->
  exists phase pre snap, getitem state "phase" = Ok phase /\
    make_snapshot state git store = Ok snap /\ ss_plan snap = plan /\
    ss_bound_ticket_id snap = bound_id state phase /\ ss_eligible snap = eligible_of store plan /\
    ss_blocked snap =
      map (held_entry state store (default (mkBlocked "" None []) (global_reason state store pre phase)))
        (List.filter (held_back state store phase plan) (ts_tickets store)) /\
    ss_failed_executions snap =
      match live_evidence with
      | Some e => List.filter (fun f => negb (eq_str (get e "ticket_id") (fe_ticket_id f))) failures
      | None => failures
      end.
Proof.
  intros wf Hp Hplan Hf. destruct (phase_of state Hp) as [phase Hphase].
  pose proof Hplan as Hplan'. unfold plan_of, _make_execution_plan in Hplan'.
  apply res_bind_ok in Hplan' as (pre & Hpre & _).
  pose proof (entries_pure state store git wf plan pre phase Hplan Hphase Hpre) as Hent.
  unfold snapshot_of. rewrite dependency_blocked_pure by done. cbn [mbind res_bind].
  rewrite dependency_list_pure by done. cbn [mbind res_bind]. rewrite Hphase. cbn [mbind res_bind].
  unfold plan_of in Hplan. rewrite Hplan. cbn [mbind res_bind].
  unfold failures_of, admission_reason_of in Hf. rewrite Hf. cbn [mbind res_bind].
  rewrite Hpre. cbn [mbind res_bind].
  destruct (res_map _ (ts_tickets store)) as [entries|e] eqn:Em in Hent; [|done].
  unfold eligible_of, global_reason, bound_id in Em. rewrite Em. cbn [mbind res_bind].
  injection Hent as Hent. exists phase, pre. eexists. split; [done|]. split; [reflexivity|].
  cbn. split_and!; done.
Qed.

(** from a well-formed ticket store the status snapshot is always produced
    once the plan and the failed executions are (its assertion never fails and no
    dependency is missing), and it accounts for every todo ticket exactly once:
    bound, eligible or blocked. *)
Theorem snapshot_partitions_todo state store git plan failures :
  wf_store store -> is_Some (dget state "phase") ->
  plan_of state store git = Ok plan -> failures_of state store git plan = Ok failures ->
  exists snap, make_snapshot state git store = Ok snap /\ ss_plan snap = plan /\
    (forall t, t ∈ ts_tickets store -> tk_state t = Todo ->
      exactly_one (ss_bound_ticket_id snap = Some (tk_id t))
        (id_and_title t ∈ ss_eligible snap)
        (exists r, (tk_id t, tk_title t, r) ∈ ss_blocked snap)) /\
    NoDup (map (fun b => fst (fst b)) (ss_blocked snap)) /\
    (ss_eligible snap <> [] -> may_start state store (is_dirty git) (branch_ok git)).
Proof.
  intros wf Hp Hplan Hf.
  destruct (snapshot_computed _ _ _ _ _ wf Hp Hplan Hf)
    as (phase & pre & snap & Hphase & Hs & Hpl & Hb & He & Hbl & _).
  exists snap. split; [done|]. split; [done|]. rewrite Hb, He, Hbl. split_and!.
  - intros t Ht Hst. by apply (held_back_partition _ _ git).
  - rewrite map_map. cbn. apply NoDup_map_filter, (wf_ids _ wf).
  - unfold eligible_of. destruct (unbound_worker plan) eqn:E; [|done]. intros _.
    pose proof (start_plan_cases _ _ _ _ _ _ _ _ Hplan) as Hst. rewrite E in Hst. apply Hst.
Qed.
End Snapshots.

(** C28: the plan starts a new execution exactly when nothing obstructs it, no
    ticket waits for review or integration, no execution is bound and some todo
    ticket has its dependencies done; it then starts the runnable ticket with the
    least id. *)
Theorem plan_starts_least_runnable observe_worker inspect_bound state store dirty branch_ok git plan :
  wf_store store ->
  _make_execution_plan observe_worker inspect_bound state store dirty branch_ok git = Ok plan ->
  (unbound_worker plan = true <->
   may_start state store dirty branch_ok /\ exists t, runnable_in store t) /\
  (unbound_worker plan = true -> exists t, plan = start_plan git t /\ runnable_in store t /\
     forall u, runnable_in store u -> String.le (tk_id t) (tk_id u)).
Proof.
  intros wf Hplan. pose proof (start_plan_cases _ _ _ _ _ _ _ _ Hplan) as Hc.
  pose proof (selected_runnable store wf) as Hsel.
  destruct (unbound_worker plan).
  - destruct Hc as (Hm & t & Ht & ->). rewrite Ht in Hsel. destruct Hsel as [Hr Hle].
    apply (wf_runnable _ wf) in Hr. split; [|by exists t]. split; [|done]. intros _.
    split; [done | by exists t].
  - split; [|done]. split; [done|]. intros [Hm [t Ht]]. exfalso. apply Hc. split; [done|].
    destruct (selected store); [done|]. apply (wf_runnable _ wf) in Ht. rewrite Hsel in Ht.
    by apply not_elem_of_nil in Ht.
Qed.

(** A plan that resumes a bound execution has inspected its workspace. *)
Lemma resumed_plan observe_worker inspect_bound state store dirty branch_ok git plan :
  is_str (get state "phase") = true ->
  _make_execution_plan observe_worker inspect_bound state store dirty branch_ok git = Ok plan ->
  pl_action plan = "run-worker" -> pl_bound plan = true ->
  get state "phase" = PStr "agent_pending" /\ unobstructed state store dirty branch_ok /\
  (exists i, inspect_bound state = Ok i /\ wi_classification i = "REUSABLE") /\
  exists t, ticket_of store (get state "selected_ticket_id") = Some t /\
    pl_ticket_id plan = Some (tk_id t) /\ (tk_state t = Todo \/ tk_state t = Review).
Proof.
  unfold _make_execution_plan. intros Hstr (barrier & Hb & H)%res_bind_ok Ha Hbound.
  destruct barrier as [b|]; [by injection H as <-|]. apply no_barrier in Hb.
  apply res_bind_ok in H as (phase & Hphase & H). apply getitem_get in Hphase as [Hg _]. rewrite Hg in *.
  destruct (is_bound_phase phase) eqn:Ep.
  2: { destruct (_serial_admission_barrier store); [by injection H as <-|].
       by destruct (selected store); injection H as <-. }
  unfold bound_plan in H. destruct (eq_str phase "agent_running") eqn:Er.
  { apply res_bind_ok in H as (r & _ & [= <-]). done. }
  destruct (ticket_of _ _) as [t|] eqn:Et; [|by injection H as <-].
  destruct (negb (_ || _)) eqn:Es; [by injection H as <-|].
  apply res_bind_ok in H as (i & Hi & H). destruct (eq_str phase "agent_pending") eqn:Epp.
  2: { exfalso. destruct phase; try done. revert Ep Er Epp. unfold is_bound_phase. cbn.
       rewrite !(String.eqb_sym s). by destruct (_ =? s)%string, (_ =? s)%string. }
  apply eq_str_spec in Epp. destruct (inspect_bound state) as [j|]; [|done].
  injection Hi as <-. destruct (negb (_ =? _)%string) eqn:Ej; [by injection H as <-|].
  injection H as <-. bsplit. split_and!; try done; [by exists j|]. exists t. split_and!; try done.
  apply orb_true_iff in Es as [Es%is_state_spec|Es%is_state_spec]; auto.
Qed.

(** * Retries *)

Section Retries.
Variable control_tree : tree.
Variable todo_directory : fp_directory.

(** A recorded failure describes the present generation: the ticket is runnable,
    product, remote and control heads and the todo directory are those of the
    failure, and the stored report is a failed one, or is missing for an execution
    that was interrupted or whose report was recorded as unavailable. *)
Record current_failure (store : TicketStore) (git : git_observation) (ticket_id : string)
    (metadata : dict) : Prop := {
  cf_ticket : exists t, ts_by_id store !! ticket_id = Some t /\ tk_state t = Todo /\ t ∈ ts_runnable store;
  cf_product : get metadata "product_head" = PStr (go_local_head (gt_code git));
  cf_control : exists c, gt_control git = Some c /\ get metadata "control_head" = PStr (go_local_head c);
  cf_remote : py_eq (get metadata "remote_head") (opt_str (go_remote_head (gt_code git))) = true;
  cf_todo : get metadata "todo_fingerprint" = PStr (fst (_todo_fingerprint todo_directory));
  cf_report : (exists rep, stored_report control_tree ticket_id metadata = Ok (Some rep) /\ er_conclusion (rep_result rep) = "failed") \/
              (stored_report control_tree ticket_id metadata = Ok None /\ (get metadata "interrupted" = PBool true \/
                  get metadata "report_unavailable" = PBool true))
}.

Lemma is_true_spec v : is_true v = true <-> v = PBool true.
Proof. destruct v as [|[]| | | | |]; cbn; split; congruence. Qed.

Lemma stale_none store code control metadata t :
  stale_reason todo_directory store code control metadata t = None <->
  tk_state t = Todo /\ t ∈ ts_runnable store /\
  get metadata "product_head" = PStr (go_local_head code) /\
  (exists c, control = Some c /\ get metadata "control_head" = PStr (go_local_head c)) /\
  py_eq (get metadata "remote_head") (opt_str (go_remote_head code)) = true /\
  get metadata "todo_fingerprint" = PStr (fst (_todo_fingerprint todo_directory)).
Proof.
  unfold stale_reason, is_runnable. rewrite <- !eq_str_spec.
  destruct (is_state (tk_state t) Todo) eqn:Es; cbn [negb].
  2: { split; [done|]. intros (Hs & _). by rewrite Hs in Es. }
  apply is_state_spec in Es. case_bool_decide; cbn [negb]; [|naive_solver].
  destruct control as [c|]; [|naive_solver].
  assert (Hc : (exists c0, Some c = Some c0 /\ get metadata "control_head" = PStr (go_local_head c0)) <->
    eq_str (get metadata "control_head") (go_local_head c) = true).
  { rewrite eq_str_spec. naive_solver. }
  rewrite Hc.
  destruct (eq_str (get metadata "product_head") _), (eq_str (get metadata "control_head") _),
    (py_eq _ _), (eq_str (get metadata "todo_fingerprint") _); cbn; naive_solver.
Qed.

Lemma evidence_none ticket_id metadata :
  evidence_reason control_tree ticket_id metadata = Ok None <->
  (exists rep, stored_report control_tree ticket_id metadata = Ok (Some rep) /\
     er_conclusion (rep_result rep) = "failed") \/
  (stored_report control_tree ticket_id metadata = Ok None /\
     (get metadata "interrupted" = PBool true \/ get metadata "report_unavailable" = PBool true)).
Proof.
  unfold evidence_reason. rewrite <- !is_true_spec.
  destruct (stored_report _ _ _) as [[rep|]|e]; cbn; [| |naive_solver].
  - destruct (er_conclusion _ =? "failed")%string eqn:E; cbn; bsplit; naive_solver.
  - destruct (is_true (get metadata "interrupted")), (is_true (get metadata "report_unavailable"));
      cbn; naive_solver.
Qed.

Lemma evaluate_failure_spec store git admission_reason k v f :
  evaluate_failure control_tree todo_directory store (gt_code git) (gt_control git)
    admission_reason (k, v) = Ok (Some f) ->
  fe_ticket_id f = k /\ exists metadata, v = PDict metadata /\
  (fe_retryable f = true <-> admission_reason = None /\ current_failure store git k metadata).
Proof.
  unfold evaluate_failure. destruct (is_dict v) eqn:Hd; [|done]. cbn [negb].
  apply is_dict_spec in Hd as [metadata ->]. cbn [dict_of].
  intros (evidence & He & (invalid & Hi & (known & _ & [= <-])%res_bind_ok)%res_bind_ok)%res_bind_ok.
  cbn. split; [done|]. exists metadata. split; [done|].
  assert (Hinv : is_missing invalid = true <-> evidence = None /\ admission_reason = None).
  { destruct evidence; injection Hi as <-; cbn; [naive_solver|].
    destruct admission_reason; cbn; naive_solver. }
  rewrite Hinv. clear Hinv Hi.
  assert (Hev : evidence = None <-> current_failure store git k metadata); [|tauto].
  destruct (ts_by_id store !! k) as [t|] eqn:Ht.
  2: { injection He as <-. split; [done|]. intros [(t & Ht' & _) _ _ _ _ _]. congruence. }
  destruct (stale_reason _ _ _ _ _ t) as [r|] eqn:Er; cbn in He.
  - injection He as <-. split; [done|]. intros [(u & Hu & H1 & H2) H3 H4 H5 H6 _].
    assert (u = t) as -> by congruence.
    rewrite (proj2 (stale_none _ _ _ _ _)) in Er; [done|]. split_and!; done.
  - apply stale_none in Er as (H1 & H2 & H3 & H4 & H5 & H6). split.
    + intros ->. apply evidence_none in He. split; try done. by exists t.
    + intros [_ _ _ _ _ Hr]. apply evidence_none in Hr. congruence.
Qed.
End Retries.


(** * Stable views *)

Lemma py_catch_ok {S A} (m : py S A) p h s a s' :
  py_catch m p h s = (Ok a, s') ->
  m s = (Ok a, s') \/ exists e s1, m s = (Raise e, s1) /\ p e = true /\ h e s1 = (Ok a, s').
Proof.
  unfold py_catch. destruct (m s) as [[b|e] s1]; [by left|].
  destruct (p e) eqn:E; [|done]. right. by exists e, s1.
Qed.

Section Stability.
Context {W : Type}.
Variable observe_state : py W (dict * string).
Variable observe_git : py W git_observation.
Variable workflow_fingerprint : py W string.
Variable ticket_store : py W TicketStore.
Variable make_snapshot :
  dict -> git_observation -> option TicketStore -> option string -> py W StatusSnapshot.
Variable published : W -> option StatusSnapshot.
Variable publish : StatusSnapshot -> py W unit.

(** From [w], the observations were made twice around the reading of the ticket
    store with equal results, and the snapshot was made from them. *)
Definition stable_view (snap : StatusSnapshot) (w w' : W) : Prop :=
  exists before after token git workflow store error w1 w2 w3 w4 w5 w6 w7,
    observe_state w = (Ok (before, token), w1) /\ observe_git w1 = (Ok git, w2) /\
    workflow_fingerprint w2 = (Ok workflow, w3) /\
    observed_tickets ticket_store w3 = (Ok (store, error), w4) /\
    workflow_fingerprint w4 = (Ok workflow, w5) /\ observe_git w5 = (Ok git, w6) /\
    observe_state w6 = (Ok (after, token), w7) /\
    make_snapshot after git store (exn_msg <$> error) w7 = (Ok snap, w').

Lemma observed_workflow_ok w v w' :
  observed_workflow workflow_fingerprint w = (Ok v, w') -> workflow_fingerprint w = (Ok v, w').
Proof.
  unfold observed_workflow, py_catch, snapshot_changed, py_raise.
  destruct (workflow_fingerprint w) as [[x|e] w1]; [done|].
  destruct (is_class _ e); [done|]. by destruct (is_os_error e).
Qed.

Lemma attempt_stable allow w snap w' :
  _collect_status_attempt observe_state observe_git workflow_fingerprint ticket_store make_snapshot
    allow w = (Ok snap, w') -> stable_view snap w w'.
Proof.
  unfold _collect_status_attempt.
  intros ([before token] & w1 & H1 & H)%py_bind_ok.
  apply py_bind_ok in H as (git & w2 & H2 & H).
  apply py_bind_ok in H as (workflow & w3 & H3%observed_workflow_ok & H).
  apply py_bind_ok in H as ([store error] & w4 & H4 & H).
  apply py_bind_ok in H as (workflow' & w5 & H5%observed_workflow_ok & H).
  apply py_bind_ok in H as (git' & w6 & H6 & H).
  apply py_bind_ok in H as ([after token'] & w7 & H7 & H).
  destruct (_ || _) eqn:E in H; [done|]. bsplit. subst token' git' workflow'.
  assert (Hm : make_snapshot after git store (exn_msg <$> error) w7 = (Ok snap, w'))
    by (destruct error, allow; done).
  do 14 eexists. split_and!; done.
Qed.

Lemma attempts_stable n allow w snap w' :
  attempts observe_state observe_git workflow_fingerprint ticket_store make_snapshot n allow w =
    (Ok (Some snap), w') -> exists w1, stable_view snap w1 w'.
Proof.
  revert w. induction n as [|n IH]; intros w; cbn [attempts]; [done|].
  intros [H | (e & w1 & _ & _ & H)]%py_catch_ok; [|by apply IH in H].
  apply py_bind_ok in H as (s & w2 & Hs & [= -> ->]).
  exists w. by apply attempt_stable in Hs.
Qed.
End Stability.

(** a status view is either a snapshot made from state, Git and workflow
    observations that were identical before and after the ticket files were read,
    then published, or the snapshot published before; interference is never
    reported as a view. *)
Theorem status_view_stable {W : Type} observe_state observe_git workflow_fingerprint ticket_store
    make_snapshot published publish (w w' : W) snap :
  status_view observe_state observe_git workflow_fingerprint ticket_store make_snapshot published
    publish w = (Ok snap, w') ->
  (exists w1 w2, stable_view observe_state observe_git workflow_fingerprint ticket_store
     make_snapshot snap w1 w2 /\ publish snap w2 = (Ok tt, w')) \/
  published w' = Some snap.
Proof.
  unfold status_view. intros (o & w1 & Ha & H)%py_bind_ok. destruct o as [s|].
  - apply py_bind_ok in H as ([] & w2 & Hp & [= -> ->]). left.
    apply attempts_stable in Ha as [w0 Hs]. by exists w0, w1.
  - apply py_bind_ok in H as (o & w2 & [= <- <-] & H). destruct (published w1) as [s|] eqn:E; [|done].
    injection H as -> ->. by right.
Qed.

(** * The bound workspace *)

Section BoundWorkspace.
Context {W : Type} `{GitWorld W}.
Variable recursion_limit : nat.
(** [self.repo], [self.execution_worktree_root], and the control checkout. *)
Variables repo execution_worktree_root : Path.
Variable control_tree : tree.

Definition binding_fields : list string :=
  ["execution_ticket_id"; "execution_id"; "execution_base_head"; "execution_branch";
   "execution_path"].

Definition field (state : dict) (k : string) : string := str_of (get state k).

(** The reports of earlier executions that end at the observed branch head. *)
Definition prior_reports (state : dict) (branch head : string) (reports : list ExecutionReport)
    : list ExecutionReport :=
  List.filter (fun rep => negb (rep_execution_id rep =? field state "execution_id")%string &&
                          (rep_execution_branch rep =? branch)%string &&
                          bool_decide (rep_workspace_head rep = Some head)) reports.

Definition binding_matches (state : dict) (manager : ExecutionWorkspaceManager) : bool :=
  (field state "execution_branch" =? mg_branch manager)%string &&
  bool_decide (Path_of (field state "execution_path") = mg_path manager).

(** The part of the inspection that runs when the topology is not reusable. *)
Definition inspect_conflict (state : dict) (manager : ExecutionWorkspaceManager)
    (topology : WorkspaceInspection) : py (logged W) WorkspaceInspection :=
  observed ← _git repo ["rev-parse"; "--verify"; "refs/heads/" +:+ mg_branch manager];
  if failed observed
  then
    if negb (wi_reason topology =? "execution branch is missing")%string
    then mret (unsafe (wi_reason topology))
    else
    listed ← py_catch (registrations ← _registrations manager; mret (inr registrations))
               (fun e => is_workspace_error e || is_external_error e)
               (fun e => mret (inl (exn_msg e)));
    match listed with
    | inl reason => mret (unsafe reason)
    | inr registrations =>
        present ← (if bool_decide (is_Some (branch_path (mg_branch manager) registrations))
                   then mret true else ask (fun w => gw_exists w (mg_path manager)));
        mret (if (present : bool)
              then unsafe "execution branch is missing but workspace material remains attached"
              else recoverable "execution branch is missing; exact workspace can be rebuilt")
    end
  else
  let old_head := strip (stdout observed) in
  match list_reports control_tree (Some (field state "execution_ticket_id")) with
  | Raise e =>
      if is_report_error e || is_os_error e || is_class WorkflowBlockedError e
      then mret (unsafe ("cannot prove branch provenance: " +:+ exn_msg e))
      else (fun s => (Raise e, s))
  | Ok reports =>
      mret (if negb (length (prior_reports state (mg_branch manager) old_head reports) =? 1)%nat
            then unsafe ("conflicting execution branch ownership cannot be proven; " +:+
                         "operator recovery required")
            else recoverable ("conflicting branch is exactly attributable to a prior execution " +:+
                              "generation"))
  end.

Definition _inspect_bound_execution_workspace (state : dict) : py (logged W) WorkspaceInspection :=
  if negb (all_text state binding_fields)
  then mret (unsafe "persisted execution workspace binding is incomplete")
  else if negb (eq_str (get state "phase") "agent_pending")
  then mret (unsafe "automatic workspace recovery is limited to pre-worker state")
  else if negb (is_none (get state "worker_identity"))
  then mret (unsafe "persisted worker ownership prevents workspace recovery")
  else if negb (is_none (get state "pending_execution_report"))
  then mret (unsafe "durable worker result prevents workspace recovery")
  else
  created ← py_catch
              (manager ← new_manager repo execution_worktree_root (field state "execution_ticket_id");
               mret (inr manager))
              (fun e => is_workspace_error e || is_os_error e) (fun e => mret (inl (exn_msg e)));
  match created with
  | inl reason => mret (unsafe reason)
  | inr manager =>
      if negb (binding_matches state manager)
      then mret (unsafe "persisted execution workspace binding is invalid")
      else
      topology ← inspect recursion_limit manager (field state "execution_base_head")
                   (str_opt (get state "execution_start_head"));
      if (wi_classification topology =? "REUSABLE")%string then mret topology
      else inspect_conflict state manager topology
  end.

(** [_workspace_recovery_ref] *)
Definition _workspace_recovery_ref (ticket_id execution_id : string) : string :=
  "refs/devlegate/recovery/workspace/" +:+ ticket_id +:+ "/" +:+ execution_id.

(** [raise DevlegateError(msg)] *)
Definition engine_error {A} (msg : string) : py (logged W) A := py_raise DevlegateError msg.

Definition rev_parse (ref : string) : py (logged W) CompletedProcess :=
  _git repo ["rev-parse"; "--verify"; ref].

(** [result.returncode or result.stdout.strip() != head] *)
Definition moved_from (head : string) (result : CompletedProcess) : bool :=
  failed result || negb (strip (stdout result) =? head)%string.

(** The evidence reference is made to hold the old head. *)
Definition pin_evidence (evidence_ref old_head : string) : py (logged W) unit :=
  existing ← rev_parse evidence_ref;
  if negb (failed existing)
  then if moved_from old_head existing
       then engine_error "workspace recovery evidence ref has conflicting identity"
       else mret tt
  else
  pinned ← _git repo ["update-ref"; evidence_ref; old_head; ""];
  if negb (failed pinned) then mret tt else
  reread ← rev_parse evidence_ref;
  if moved_from old_head reread
  then engine_error "cannot preserve conflicting execution checkpoint"
  else mret tt.

(** The conflicting worktree, if registered, is removed. *)
Definition remove_conflicting (manager : ExecutionWorkspaceManager) (old_head : string)
    : py (logged W) unit :=
  registrations ← _registrations manager;
  expected ← ask (fun w => gw_resolve w (mg_path manager));
  let registration := registration_at expected registrations in
  let attached := branch_path (mg_branch manager) registrations in
  if bool_decide (is_Some attached /\ attached <> Some expected)
  then engine_error "execution branch moved to an unexpected worktree"
  else
  present ← ask (fun w => gw_exists w (mg_path manager));
  match registration with
  | None =>
      if (present : bool) then engine_error "execution worktree path is not safely registered"
      else mret tt
  | Some _ =>
      workspace ← _validate_existing manager registration old_head;
      if negb (ew_head workspace =? old_head)%string || ew_dirty workspace
      then engine_error "conflicting execution worktree is not clean and exact"
      else
      removed ← _git repo ["worktree"; "remove"; "--force"; path_str (mg_path manager)];
      if failed removed then engine_error "cannot remove conflicting execution worktree"
      else mret tt
  end.

(** From the observed conflict to the repaired branch. *)
Definition repair_conflict (manager : ExecutionWorkspaceManager) (base_head old_head evidence_ref : string)
    : py (logged W) unit :=
  let branch_ref := "refs/heads/" +:+ mg_branch manager in
  _ ← pin_evidence evidence_ref old_head;
  reobserved ← rev_parse branch_ref;
  if moved_from old_head reobserved
  then engine_error "execution branch changed before automatic repair"
  else
  _ ← remove_conflicting manager old_head;
  reobserved ← rev_parse branch_ref;
  if moved_from old_head reobserved
  then engine_error "execution branch changed during automatic repair"
  else
  moved ← _git repo ["update-ref"; branch_ref; base_head; old_head];
  if failed moved then engine_error "execution branch changed before CAS repair"
  else
  repaired ← prepare recursion_limit manager base_head;
  final ← inspect recursion_limit manager base_head (Some (ew_head repaired));
  if negb (wi_classification final =? "REUSABLE")%string
  then engine_error ("repaired execution workspace is not reusable: " +:+ wi_reason final)
  else mret tt.

Definition _repair_bound_execution_workspace (state : dict) : py (logged W) unit :=
  if negb (eq_str (get state "phase") "agent_pending") || negb (is_none (get state "worker_identity"))
  then engine_error "bound execution ownership is not proven absent"
  else if negb (all_text state binding_fields)
  then engine_error "persisted execution identity is incomplete"
  else if negb (is_none (get state "pending_execution_report"))
  then engine_error "durable worker result prevents automatic workspace repair"
  else
  let ticket_id := field state "execution_ticket_id" in
  let base_head := field state "execution_base_head" in
  manager ← new_manager repo execution_worktree_root ticket_id;
  if negb (binding_matches state manager)
  then engine_error "persisted execution workspace binding is invalid"
  else
  observed ← rev_parse ("refs/heads/" +:+ mg_branch manager);
  if failed observed then _ ← prepare recursion_limit manager base_head; mret tt
  else
  let old_head := strip (stdout observed) in
  reports ← py_lift (list_reports control_tree (Some ticket_id));
  match prior_reports state (mg_branch manager) old_head reports with
  | [prior] =>
      repair_conflict manager base_head old_head
        (_workspace_recovery_ref ticket_id (rep_execution_id prior))
  | _ => engine_error ("conflicting execution branch ownership cannot be proven; " +:+
                       "operator recovery required")
  end.
End BoundWorkspace.

Lemma py_bind_fst {S A B} (m : py S A) (f : A -> py S B) s b :
  fst ((m ≫= f) s) = Ok b -> exists a s1, m s = (Ok a, s1) /\ fst (f a s1) = Ok b.
Proof. unfold mbind, py_bind. destruct (m s) as [[a|e] s1]; [|done]. by exists a, s1. Qed.

Section BoundWorkspaceSafety.
Context {W : Type} `{GitWorld W}.
Variable recursion_limit : nat.
Variables repo execution_worktree_root : Path.
Variable control_tree : tree.

Lemma new_manager_state r root k (s : logged W) : snd (new_manager r root k s) = s.
Proof. unfold new_manager, refuse. by destruct (negb _). Qed.

Lemma only_new_manager {P : event -> Prop} r root k : only P (new_manager (W := W) r root k).
Proof. unfold new_manager, refuse. only_auto. Qed.

(** The commands of a repair: observations, pinning the old head under a new
    evidence reference, removing the manager's own worktree, moving the branch by
    compare-and-swap from the observed head to the base, and preparing. *)
Definition repairs (state : dict) (manager : ExecutionWorkspaceManager) (e : event) : Prop :=
  prepares manager (field state "execution_base_head") e \/
  (exists evidence old, e = Run repo ["update-ref"; evidence; old; ""] /\
     starts_with "refs/devlegate/recovery/workspace/" evidence = true) \/
  e = Run repo ["worktree"; "remove"; "--force"; path_str (mg_path manager)] \/
  (exists old, e = Run repo ["update-ref"; "refs/heads/" +:+ mg_branch manager;
                             field state "execution_base_head"; old]).

Local Hint Extern 1 (repairs _ _ (Run _ _)) => unfold repairs, prepares; cbn; eauto 8 : commands.
Local Hint Extern 2 (repairs _ _ _) => left; left; assumption : commands.

Lemma only_weaken {A} (P Q : event -> Prop) (m : py (logged W) A) :
  (forall e, P e -> Q e) -> only P m -> only Q m.
Proof.
  intros HPQ Hm s. destruct (Hm s) as [(new & Hl & Hf) Hq]. split.
  - exists new. split; [done|]. by eapply Forall_impl.
  - intros I (H1 & H2 & H3 & H4). apply Hq. split_and!; eauto.
Qed.

Lemma only_repair_conflict state manager old ticket_id execution_id :
  only (repairs state manager) (repair_conflict recursion_limit repo manager
    (field state "execution_base_head") old (_workspace_recovery_ref ticket_id execution_id)).
Proof.
  unfold repair_conflict, pin_evidence, remove_conflicting, rev_parse, engine_error.
  assert (Hp : only (repairs state manager)
    (prepare recursion_limit manager (field state "execution_base_head")))
    by (eapply only_weaken; [|apply only_prepare]; by left).
  assert (Hi : forall b h, only (repairs state manager) (inspect recursion_limit manager b h))
    by (intros; eapply only_weaken; [|apply only_inspect]; by left; left).
  assert (He : repairs state manager
    (Run repo ["update-ref"; _workspace_recovery_ref ticket_id execution_id; old; ""])).
  { right. left. do 2 eexists. split; [done|]. apply prefix_spec. by eexists. }
  repeat (apply Hi || apply Hp || (apply only_git; exact He) || only_step); auto with commands.
Qed.

(** The inspection of a conflict never finds the workspace reusable. *)
Lemma inspect_conflict_class state manager topology (s : logged W) i :
  fst (inspect_conflict repo control_tree state manager topology s) = Ok i ->
  wi_classification i <> "REUSABLE".
Proof.
  cut (returns (fun i => wi_classification i <> "REUSABLE")
    (inspect_conflict repo control_tree state manager topology)); [intros Hr; apply Hr|].
  unfold inspect_conflict.
  repeat match goal with
  | |- returns _ (_ ≫= _) => apply returns_bind; intros ?
  | |- returns _ (match ?x with _ => _ end) => destruct x
  | |- returns _ (let x := _ in _) => cbv zeta
  | |- returns _ (mret (if ?b then _ else _)) => destruct b
  | |- returns _ (mret _) => by apply returns_ret
  | |- returns _ (fun s => (Raise _, s)) => by intros ? ?
  end.
Qed.

(** The manager a state's binding names. *)
Definition manager_of (state : dict) (s : logged W) : option ExecutionWorkspaceManager :=
  match fst (new_manager repo execution_worktree_root (field state "execution_ticket_id") s) with
  | Ok m => Some m
  | Raise _ => None
  end.
End BoundWorkspaceSafety.

(** repairing a bound workspace runs, besides what preparing it may run, only
    commands that keep the old head reachable under a new recovery reference,
    remove the execution's own worktree, or move its branch from an explicitly
    named head to the base of the binding; with a binding that names no valid
    manager it runs nothing. *)
Theorem repair_commands {W : Type} `{GitWorld W} recursion_limit repo root control_tree state
    (s : logged W) :
  exists new,
    lg_events (snd (_repair_bound_execution_workspace recursion_limit repo root control_tree state s)) =
      lg_events s ++ new /\
    match manager_of repo root state s with
    | Some manager => Forall (repairs repo state manager) new
    | None => new = []
    end.
Proof.
  unfold _repair_bound_execution_workspace, engine_error.
  assert (Hnone : exists new, lg_events s = lg_events s ++ new /\
    match manager_of repo root state s with
    | Some manager => Forall (repairs repo state manager) new
    | None => new = []
    end).
  { exists []. rewrite app_nil_r. split; [done|]. by destruct (manager_of _ _ _ _). }
  destruct (negb _ || negb _); [done|]. destruct (negb (all_text _ _)); [done|].
  destruct (negb (is_none _)); [done|]. unfold mbind at 1, py_bind at 1.
  pose proof (new_manager_state repo root (field state "execution_ticket_id") s) as Hs.
  unfold manager_of in *.
  destruct (new_manager _ _ _ s) as [[manager|e] s1]; cbn in *; subst s1; [|done].
  match goal with |- context [snd (?m s)] => cut (only (repairs repo state manager) m) end.
  { intros Ho. exact (proj1 (Ho s)). }
  destruct (negb (binding_matches _ _)); [only_auto|]. unfold rev_parse.
  apply only_bind; [apply only_git; by left; left|]. intros observed.
  destruct (failed observed).
  { apply only_bind; [|intros; apply only_ret].
    eapply only_weaken; [|apply only_prepare]. by left. }
  apply only_bind; [apply only_lift|]. intros reports.
  destruct (prior_reports _ _ _ _) as [|prior [|]]; try apply only_raise.
  apply only_repair_conflict.
Qed.

Lemma inspect_bound_reusable {W : Type} `{GitWorld W} recursion_limit repo root control_tree state
    (s : logged W) i :
  quiet observes ->
  fst (_inspect_bound_execution_workspace recursion_limit repo root control_tree state s) = Ok i ->
  wi_classification i = "REUSABLE" ->
  get state "worker_identity" = PNone /\ get state "pending_execution_report" = PNone /\
  exists manager ws, manager_of repo root state s = Some manager /\
    binding_matches state manager = true /\
    reusable recursion_limit manager (lg_world s) (field state "execution_base_head")
      (str_opt (get state "execution_start_head")) ws.
Proof.
  intros Hq. unfold _inspect_bound_execution_workspace, manager_of.
  destruct (negb (all_text _ _)); [by intros [= <-]|].
  destruct (negb (eq_str _ _)); [by intros [= <-]|].
  destruct (negb (is_none (get state "worker_identity"))) eqn:Ew; [by intros [= <-]|].
  destruct (negb (is_none (get state "pending_execution_report"))) eqn:Ep; [by intros [= <-]|].
  bsplit. apply is_none_spec in Ew, Ep. intros Hi Hc. split; [done|]. split; [done|].
  apply py_bind_fst in Hi as (created & s1 & Hcreated & Hi).
  destruct created as [reason|manager]; [by injection Hi as <-|].
  apply py_catch_ok in Hcreated as [Hm | (e & s2 & _ & _ & [=])].
  apply py_bind_ok in Hm as (m & s2 & Hm & [= -> ->]).
  pose proof (new_manager_state repo root (field state "execution_ticket_id") s) as Hs.
  rewrite Hm in *. cbn in Hs. subst s1. exists manager.
  destruct (binding_matches state manager); [|by injection Hi as <-].
  apply py_bind_fst in Hi as (topology & s1 & Ht & Hi).
  apply (f_equal fst) in Ht. cbn in Ht.
  destruct (wi_classification topology =? "REUSABLE")%string eqn:Er.
  - apply String.eqb_eq in Er. destruct (sees_inspect _ _ _ _ _ _ Hq Ht Er) as (ws & _ & Hr).
    by exists ws.
  - exfalso. revert Hi Hc. apply inspect_conflict_class.
Qed.

(** C27: when the plan resumes a bound execution, nothing obstructs admission, the
    ticket is managed and todo or in review, the persisted binding names the
    manager's branch and path, no worker and no pending result are recorded, and,
    where observing commands leave the world unchanged, the bound workspace is a
    reusable one for the persisted base and start head. *)
Theorem resume_plan_is_safe {W : Type} `{GitWorld W} recursion_limit repo root control_tree
    observe_worker state store dirty branch_ok git plan (s : logged W) :
  quiet observes -> is_str (get state "phase") = true ->
  _make_execution_plan observe_worker
    (fun state => fst (_inspect_bound_execution_workspace recursion_limit repo root control_tree state s))
    state store dirty branch_ok git = Ok plan ->
  pl_action plan = "run-worker" -> pl_bound plan = true ->
  unobstructed state store dirty branch_ok /\
  (exists t, ticket_of store (get state "selected_ticket_id") = Some t /\
    pl_ticket_id plan = Some (tk_id t) /\ (tk_state t = Todo \/ tk_state t = Review)) /\
  get state "worker_identity" = PNone /\ get state "pending_execution_report" = PNone /\
  exists manager ws, manager_of repo root state s = Some manager /\
    binding_matches state manager = true /\
    reusable recursion_limit manager (lg_world s) (field state "execution_base_head")
      (str_opt (get state "execution_start_head")) ws.
Proof.
  intros Hq Hstr Hplan Ha Hb.
  destruct (resumed_plan _ _ _ _ _ _ _ _ Hstr Hplan Ha Hb) as (_ & Hun & (i & Hi & Hc) & Ht).
  split; [done|]. split; [done|]. exact (inspect_bound_reusable _ _ _ _ _ _ _ Hq Hi Hc).
Qed.

(** * Concrete runs *)

Definition sched_tickets : list Ticket :=
  [toy_ticket "a" Todo []; toy_ticket "b" Todo ["a"]; toy_ticket "c" Backlog []].

Definition sched_store : TicketStore :=
  match make_store sched_tickets with Ok s => s | Raise _ => mkTicketStore [] ∅ [] end.

Lemma sched_wf : wf_store sched_store.
Proof.
  destruct (make_store_wf sched_tickets) as (store & Hst & _ & Hwf).
  - apply (bool_decide_unpack _). vm_compute. exact I.
  - apply (Sorted_StronglySorted _). repeat constructor.
  - apply closed_b_spec. vm_compute. reflexivity.
  - eapply check_cycles_ok_iff; [apply closed_b_spec|]; vm_compute; reflexivity.
  - unfold sched_store. by rewrite Hst.
Qed.

Definition toy_git : git_observation :=
  mkGit (mkGitObs (Some "main") false "p" "origin/main" (Some "p") true "")
        (Some (mkGitObs (Some "control") false "c" "origin/control" (Some "c") true "")).

Definition failed_a : dict :=
  [("execution_id", PStr "E1"); ("product_head", PStr "p"); ("remote_head", PStr "p");
   ("control_head", PStr "c"); ("todo_fingerprint", PStr (fst (_todo_fingerprint FpMissing)));
   ("reason", PStr "it broke"); ("interrupted", PBool true)].

Definition idle_with_failure : dict :=
  [("phase", PStr "idle"); ("failed_executions", PDict [("a", PDict failed_a)])].

Definition absent_worker (w : WorkerProcessIdentity) : string := "absent".
Definition no_workspace (state : dict) : res WorkspaceInspection := Ok (unsafe "no workspace").

Definition toy_plan : ExecutionPlan := start_plan toy_git (toy_ticket "a" Todo []).

Lemma toy_plan_made :
  plan_of "main" "control" absent_worker no_workspace idle_with_failure sched_store toy_git =
  Ok toy_plan.
Proof. vm_compute. reflexivity. Qed.

Lemma plan_starts_least_runnable_witness :
  unbound_worker toy_plan = true /\
  exists t, toy_plan = start_plan toy_git t /\ runnable_in sched_store t /\
    forall u, runnable_in sched_store u -> String.le (tk_id t) (tk_id u).
Proof.
  destruct (plan_starts_least_runnable absent_worker no_workspace idle_with_failure sched_store
    (is_dirty toy_git) (branches_ok "main" "control" toy_git) toy_git toy_plan sched_wf toy_plan_made)
    as [_ H].
  exact (conj eq_refl (H eq_refl)).
Defined.

Definition toy_failure : FailedExecution :=
  mkFailed "a" "a" "it broke" true None None false.

Lemma toy_failures_made :
  failures_of ∅ FpMissing idle_with_failure sched_store toy_git toy_plan =
  Ok [mkFailed "a" (tk_title (toy_ticket "a" Todo [])) "it broke" true None None false].
Proof. vm_compute. reflexivity. Qed.


Lemma snapshot_partitions_todo_witness :
  exists snap,
    snapshot_of "main" "control" absent_worker no_workspace ∅ FpMissing None idle_with_failure
      toy_git sched_store = Ok snap /\
    NoDup (map (fun b => fst (fst b)) (ss_blocked snap)) /\
    exactly_one (ss_bound_ticket_id snap = Some "b")
      (id_and_title (toy_ticket "b" Todo ["a"]) ∈ ss_eligible snap)
      (exists r, ("b", tk_title (toy_ticket "b" Todo ["a"]), r) ∈ ss_blocked snap).
Proof.
  destruct (snapshot_partitions_todo "main" "control" absent_worker no_workspace ∅ FpMissing None
    idle_with_failure sched_store toy_git toy_plan _ sched_wf
    (ex_intro _ (PStr "idle") eq_refl) toy_plan_made toy_failures_made)
    as (snap & Hs & _ & Hall & Hnd & _).
  assert (Hb : toy_ticket "b" Todo ["a"] ∈ ts_tickets sched_store)
    by (apply (bool_decide_unpack _); vm_compute; exact I).
  exact (ex_intro _ snap (conj Hs (conj Hnd (Hall _ Hb eq_refl)))).
Defined.

(** A world that does not move. *)
Definition still {A} (a : A) : py unit A := fun w => (Ok a, w).

Definition toy_snapshot : StatusSnapshot :=
  mkStatus "idle" None false (gt_code toy_git) (gt_control toy_git) [] [] [] [] [] None toy_plan []
    None None None None None [].

Lemma status_view_stable_witness :
  (exists w1 w2, stable_view (still (idle_with_failure, "t")) (still toy_git) (still "f")
     (still sched_store) (fun _ _ _ _ => still toy_snapshot) toy_snapshot w1 w2 /\
     still tt w2 = (Ok tt, tt)) \/ @None StatusSnapshot = Some toy_snapshot.
Proof.
  apply (status_view_stable (still (idle_with_failure, "t")) (still toy_git) (still "f")
     (still sched_store) (fun _ _ _ _ => still toy_snapshot) (fun _ => None)
     (fun _ => still tt) tt tt toy_snapshot).
  reflexivity.
Defined.

Definition pending_state : dict :=
  [("phase", PStr "agent_pending"); ("selected_ticket_id", PStr "T1");
   ("execution_ticket_id", PStr "T1"); ("execution_id", PStr "E1");
   ("execution_base_head", PStr "b0"); ("execution_branch", PStr "devlegate/work/T1");
   ("execution_path", PStr "/x/work/T1"); ("execution_start_head", PStr "b0")].

Definition resume_store : TicketStore :=
  mkTicketStore [toy_ticket "T1" Todo []] {["T1" := toy_ticket "T1" Todo []]}
    [toy_ticket "T1" Todo []].

Definition resume_plan : ExecutionPlan :=
  plan_for toy_git "run-worker" "resume persisted bound execution" (Some (toy_ticket "T1" Todo [])) true.

Lemma resume_plan_is_safe_witness :
  exists manager ws,
    manager_of (H := toy_world) (Path_of "/repo") (Path_of "/x") pending_state (mkLogged 0 []) =
      Some manager /\
    reusable (H := toy_world) 5 manager 0 "b0" (Some "b0") ws.
Proof.
  assert (Hplan : _make_execution_plan absent_worker
    (fun state => fst (_inspect_bound_execution_workspace (H := toy_world) 5 (Path_of "/repo")
       (Path_of "/x") ∅ state (mkLogged 0 []))) pending_state resume_store false true toy_git =
    Ok resume_plan) by (vm_compute; reflexivity).
  destruct (resume_plan_is_safe (H := toy_world) 5 (Path_of "/repo") (Path_of "/x") ∅ absent_worker
    pending_state resume_store false true toy_git resume_plan (mkLogged 0 []) toy_quiet eq_refl
    Hplan eq_refl eq_refl) as (_ & _ & _ & _ & manager & ws & Hm & _ & Hr).
  exact (ex_intro _ manager (ex_intro _ ws (conj Hm Hr))).
Defined.
