(* ===== verification/Drop.v ===== *)
(** Dropping an execution, [src/devlegate/runtime.py]: the disposition and the
    evidence that are stored before anything is removed, and the removal of the
    remote branch, the worktree and the local branch.  Every function takes the
    state of the engine as an argument: it does not change before the drop is
    complete. *)

From S2P Require Export Scheduler Sha256.

(** * Binding of a report *)

(** [_report_matches_execution_binding]: the field of the state and the field of
    the report, in order. *)
Definition binding_pairs (report : ExecutionReport) : list (string * string) :=
  [("execution_id", rep_execution_id report); ("execution_ticket_id", rep_ticket_id report);
   ("execution_control_head", rep_control_head report);
   ("execution_branch", rep_execution_branch report);
   ("execution_path", rep_execution_path report);
   ("execution_base_head", rep_code_base_head report)].

Definition _report_matches_execution_binding (state : dict) (report : ExecutionReport) : res unit :=
  _ ← ensure (forallb (fun kv => nonempty_str (get state (fst kv))) (binding_pairs report))
        WorkflowBlockedError "persisted lifecycle execution binding is incomplete";
  ensure (forallb (fun kv => eq_str (get state (fst kv)) (snd kv)) (binding_pairs report))
    WorkflowBlockedError
    ("recovered execution report does not match its durable execution " +:+ "binding").

(** * Evidence *)

Definition _drop_evidence_ref (ticket_id execution_id : string) : string :=
  "refs/devlegate/executions/" +:+ ticket_id +:+ "/" +:+ execution_id.

Definition _drop_disposition_ref (ticket_id execution_id : string) : string :=
  "refs/devlegate/dispositions/" +:+ ticket_id +:+ "/" +:+ execution_id.

Definition _drop_disposition_payload_for (report : ExecutionReport) (checkpoint disposition : string)
    : dict :=
  [("schema", PStr "devlegate.execution-disposition.v1");
   ("execution_id", PStr (rep_execution_id report)); ("ticket_id", PStr (rep_ticket_id report));
   ("control_head", PStr (rep_control_head report));
   ("code_base_head", PStr (rep_code_base_head report));
   ("execution_branch", PStr (rep_execution_branch report)); ("checkpoint", PStr checkpoint);
   ("worker_conclusion", PStr (er_conclusion (rep_result report)));
   ("execution_report", as_dict report); ("disposition", PStr disposition);
   ("reason", PStr "control authority withdrawn")].

Definition _drop_disposition_payload (report : ExecutionReport) (checkpoint : string) : dict :=
  _drop_disposition_payload_for report checkpoint "dropped".

(** [json.dumps(payload, sort_keys=True, separators=(",", ":")) + "\n"] *)
Definition encoded_disposition (payload : dict) : string :=
  dumps compact_style (PDict payload) +:+ LF.

Section Drop.
Context {W : Type} `{GitWorld W}.
Variable recursion_limit : nat.
Variables repo execution_worktree_root : Path.
Variable remote_name : string.

Abbreviation M := (py (logged W)).

Definition _read_drop_disposition (ticket_id execution_id : string) : M (option dict) :=
  resolved ← rev_parse repo (_drop_disposition_ref ticket_id execution_id);
  if failed resolved then mret None else
  let object_id := strip (stdout resolved) in
  object_type ← _git repo ["cat-file"; "-t"; object_id];
  if failed object_type || negb (strip (stdout object_type) =? "blob")%string
  then engine_error "drop disposition ref does not point to a blob"
  else
  content ← _git repo ["cat-file"; "-p"; object_id];
  if failed content then engine_error "drop disposition blob is unavailable"
  else match loads (stdout content) with
  | None => engine_error "drop disposition blob is invalid"
  | Some (PDict value) => mret (Some value)
  | Some _ => engine_error "drop disposition must be an object"
  end.

(** [report.workspace_head], required. *)
Definition drop_checkpoint (report : ExecutionReport) : M string :=
  match rep_workspace_head report with
  | Some (String a s) => mret (String a s)
  | _ => engine_error "drop execution checkpoint identity is missing"
  end.

(** The blob of a disposition, and the reference that is made to name it. *)
Definition publish_disposition (report : ExecutionReport) (payload : dict) (what : string) : M unit :=
  blob ← _git_input repo ["hash-object"; "-w"; "--stdin"] (encoded_disposition payload);
  if failed blob || (strip (stdout blob) =? "")%string
  then engine_error ("cannot persist drop disposition " +:+ what)
  else
  updated ← _git repo ["update-ref"; _drop_disposition_ref (rep_ticket_id report) (rep_execution_id report);
                       strip (stdout blob)];
  if negb (failed updated) then mret tt else
  reread ← _read_drop_disposition (rep_ticket_id report) (rep_execution_id report);
  if match reread with Some value => py_eq (PDict value) (PDict payload) | None => false end
  then mret tt
  else engine_error ("cannot publish drop disposition " +:+ what).

Definition _persist_drop_intent (report : ExecutionReport) : M unit :=
  checkpoint ← drop_checkpoint report;
  let payload := _drop_disposition_payload_for report checkpoint "dropping" in
  existing ← _read_drop_disposition (rep_ticket_id report) (rep_execution_id report);
  match existing with
  | Some value =>
      if eq_str (get value "disposition") "dropped" then mret tt
      else if negb (py_eq (PDict value) (PDict payload))
      then engine_error "drop disposition intent is inconsistent"
      else mret tt
  | None => publish_disposition report payload "intent"
  end.

Definition commit_of (ref : string) : string := ref +:+ "^{commit}".

(** The evidence reference is made to hold the checkpoint. *)
Definition pin_checkpoint (evidence_ref checkpoint : string) : M unit :=
  observed ← rev_parse repo (commit_of evidence_ref);
  if negb (failed observed)
  then if moved_from checkpoint observed
       then engine_error "drop execution evidence ref is inconsistent"
       else mret tt
  else
  pinned ← _git repo ["update-ref"; evidence_ref; checkpoint];
  if negb (failed pinned) then mret tt else
  reread ← rev_parse repo (commit_of evidence_ref);
  if moved_from checkpoint reread then engine_error "cannot pin drop execution evidence" else mret tt.

Definition _pin_drop_evidence (report : ExecutionReport) : M dict :=
  checkpoint ← drop_checkpoint report;
  _ ← pin_checkpoint (_drop_evidence_ref (rep_ticket_id report) (rep_execution_id report)) checkpoint;
  let payload := _drop_disposition_payload report checkpoint in
  existing ← _read_drop_disposition (rep_ticket_id report) (rep_execution_id report);
  _ ← match existing with
      | None => mret tt
      | Some value =>
          if eq_str (get value "disposition") "dropped" && negb (py_eq (PDict value) (PDict payload))
          then engine_error "drop disposition evidence is inconsistent"
          else
            known ← py_lift (in_strs (get value "disposition") ["dropping"; "dropped"]);
            if (known : bool) then mret tt else engine_error "drop disposition evidence is inconsistent"
      end;
  _ ← publish_disposition report payload "evidence";
  mret payload.

Definition _drop_already_completed (state : dict) (ticket_id execution_id : string) : M bool :=
  payload ← _read_drop_disposition ticket_id execution_id;
  match payload with
  | None => mret false
  | Some value =>
      known ← py_lift (in_strs (get value "disposition") ["dropping"; "dropped"]);
      if negb known || negb (eq_str (get value "ticket_id") ticket_id) ||
         negb (eq_str (get value "execution_id") execution_id)
      then engine_error "execution disposition is invalid"
      else if eq_str (get value "disposition") "dropping" then mret false
      else
      evidence ← rev_parse repo (commit_of (_drop_evidence_ref ticket_id execution_id));
      if failed evidence || negb (eq_str (get value "checkpoint") (strip (stdout evidence)))
      then engine_error "completed drop has inconsistent checkpoint evidence"
      else
        bound ← py_lift (in_strs (get state "phase") ["agent_pending"; "agent_running"]);
        mret (negb (bound && eq_str (get state "execution_id") execution_id))
  end.

(** * Validation of the evidence *)

(** The tip of the execution's branch on the remote. *)
Definition _execution_remote_head (branch : string) : M (option string) :=
  remote ← _git repo ["ls-remote"; remote_name; "refs/heads/" +:+ branch];
  if failed remote
  then engine_error (let text := strip (stderr remote) in
                     if (text =? "")%string then "cannot observe execution branch remote" else text)
  else mret (head (words (stdout remote))).

(** Is the commit the only one after the start, with the start as only parent? *)
Definition _checkpoint_commit_is_exact (workspace : ExecutionWorkspace) (commit start_head : string)
    : M bool :=
  parent ← _git (ew_path workspace) ["rev-parse"; "--verify"; commit +:+ "^"];
  if moved_from start_head parent then mret false else
  parents ← _git (ew_path workspace) ["rev-list"; "--parents"; "-n"; "1"; commit];
  if failed parents || negb (length (words (stdout parents)) =? 2)%nat then mret false else
  lineage ← _git (ew_path workspace) ["rev-list"; "--reverse"; start_head +:+ ".." +:+ commit];
  if failed lineage || negb (bool_decide (splitlines (stdout lineage) = [commit])) then mret false
  else mret (negb (ew_dirty workspace)).

Definition workspace_fields : list string :=
  ["execution_ticket_id"; "execution_base_head"; "execution_branch"; "execution_path"].

Definition _drop_workspace_from_state (state : dict) (report : ExecutionReport) : M ExecutionWorkspace :=
  if negb (all_text state workspace_fields)
  then engine_error "drop execution workspace binding is incomplete"
  else
  manager ← new_manager repo execution_worktree_root (field state "execution_ticket_id");
  if negb (binding_matches state manager)
  then engine_error "drop execution workspace binding is invalid"
  else
  registrations ← _registrations manager;
  expected ← ask (fun w => gw_resolve w (mg_path manager));
  match registration_at expected registrations with
  | Some registration =>
      py_catch (_validate_existing manager (Some registration) (field state "execution_base_head"))
        (fun e => is_workspace_error e || is_os_error e) (fun e => engine_error (exn_msg e))
  | None =>
      present ← ask (fun w => gw_exists w (mg_path manager));
      if bool_decide (is_Some (branch_path (mg_branch manager) registrations)) || present
      then engine_error "drop execution workspace topology is ambiguous"
      else mret (mkWorkspace (rep_ticket_id report) (mg_branch manager) (mg_path manager)
                   (default "" (rep_workspace_head report)) (field state "execution_base_head") false)
  end.

Definition _validate_drop_evidence (state : dict) (ticket_id execution_id : string)
    (allow_missing_remote : bool) : M (ExecutionReport * ExecutionWorkspace) :=
  report ← py_lift (catch (from_dict (get state "pending_execution_report")) is_report_error
                      (fun _ => raise DevlegateError "drop requires a valid pending execution report"));
  if negb (rep_ticket_id report =? ticket_id)%string || negb (rep_execution_id report =? execution_id)%string
  then engine_error "pending report does not match requested execution"
  else
  _ ← py_lift (_report_matches_execution_binding state report);
  match rep_workspace_head report with
  | None => engine_error "drop requires a checkpoint identity"
  | Some checkpoint =>
      workspace ← _drop_workspace_from_state state report;
      if negb (ew_head workspace =? checkpoint)%string
      then engine_error "execution worktree does not match its checkpoint"
      else if negb (nonempty_str (get state "execution_start_head"))
      then engine_error "drop execution start identity is incomplete"
      else
      present ← ask (fun w => gw_exists w (ew_path workspace));
      _ ← (if (present : bool) then
             exact ← _checkpoint_commit_is_exact workspace checkpoint (field state "execution_start_head");
             if (exact : bool) then mret tt
             else engine_error "execution checkpoint evidence is ambiguous"
           else if negb allow_missing_remote then engine_error "execution worktree is missing"
           else
             evidence ← rev_parse repo (commit_of (_drop_evidence_ref ticket_id execution_id));
             if moved_from checkpoint evidence
             then engine_error "retired execution checkpoint evidence is invalid"
             else mret tt);
      remote ← _execution_remote_head (rep_execution_branch report);
      if negb (bool_decide (remote = Some checkpoint)) &&
         negb (allow_missing_remote && bool_decide (remote = None))
      then engine_error "execution remote checkpoint is not exact"
      else mret (report, workspace)
  end.

(** * Removal *)

(** The remote branch goes, if it still is at the checkpoint. *)
Definition retire_remote (branch expected : string) : M unit :=
  remote ← _execution_remote_head branch;
  match remote with
  | None => mret tt
  | Some tip =>
      if negb (tip =? expected)%string then engine_error "execution remote changed before drop"
      else
      deleted ← _git repo ["push"; "--force-with-lease=refs/heads/" +:+ branch +:+ ":" +:+ expected;
                           remote_name; ":refs/heads/" +:+ branch];
      if negb (failed deleted) then mret tt else
      remaining ← _execution_remote_head branch;
      match remaining with
      | None => mret tt
      | Some _ => engine_error (let text := strip (stderr deleted) in
                                if (text =? "")%string then "cannot retire execution remote branch"
                                else text)
      end
  end.

(** The local branch goes, if it still is at the checkpoint. *)
Definition retire_local (branch expected : string) : M unit :=
  local ← rev_parse repo ("refs/heads/" +:+ branch);
  if failed local then mret tt
  else if negb (strip (stdout local) =? expected)%string
  then engine_error "local execution branch changed before drop"
  else
  removed ← _git repo ["branch"; "-D"; branch];
  if negb (failed removed) then mret tt
  else engine_error (let text := strip (stderr removed) in
                     if (text =? "")%string then "cannot retire local execution branch" else text).

Definition _retire_drop_workspace (report : ExecutionReport) (workspace : ExecutionWorkspace) : M unit :=
  match rep_workspace_head report with
  | None => engine_error "drop execution checkpoint identity is missing"
  | Some expected =>
      _ ← retire_remote (rep_execution_branch report) expected;
      manager ← new_manager repo execution_worktree_root (rep_ticket_id report);
      _ ← py_catch (retire recursion_limit manager workspace expected) is_workspace_error
            (fun e => engine_error ("cannot retire execution worktree: " +:+ exn_msg e));
      retire_local (rep_execution_branch report) expected
  end.

(** [_drop_owned] up to its save; the result tells whether there is a state to
    save. *)
Definition drop_effects (state : dict) (ticket_id : string) (execution_id : option string) : M bool :=
  match execution_id with
  | None | Some "" => engine_error "drop requires an exact execution identity"
  | Some execution_id =>
      completed ← _drop_already_completed state ticket_id execution_id;
      if (completed : bool) then mret false else
      existing ← _read_drop_disposition ticket_id execution_id;
      '(report, workspace) ← _validate_drop_evidence state ticket_id execution_id
                               (bool_decide (is_Some existing));
      _ ← _persist_drop_intent report;
      _ ← _pin_drop_evidence report;
      _ ← _retire_drop_workspace report workspace;
      mret true
  end.
End Drop.

(** * The candidate for a drop *)

Definition drop_candidate (ticket_id execution_id : string) (title : pyval) : dict :=
  [("id", PStr ticket_id);
   ("title", if nonempty_str title then title else PStr ticket_id);
   ("reason", PStr "control authority withdrawn; lifecycle replay refused");
   ("kind", PStr "lifecycle"); ("execution_id", PStr execution_id); ("stage", PStr "lifecycle")].

Definition _drop_candidate_from_state (state : dict) : res (list dict) :=
  match get state "execution_ticket_id", get state "execution_id" with
  | PStr ticket_id, PStr execution_id =>
      if negb (eq_str (get state "phase") "agent_running" &&
               eq_str (get state "execution_stage") "lifecycle" &&
               is_none (get state "worker_identity"))
      then Ok [] else
      catch
        (report ← from_dict (get state "pending_execution_report");
         _ ← _report_matches_execution_binding state report;
         mret match rep_workspace_head report with
              | None => []
              | Some _ => [drop_candidate ticket_id execution_id (get state "selected_ticket_title")]
              end)
        (fun e => is_report_error e || is_class WorkflowBlockedError e) (fun _ => Ok [])
  | _, _ => Ok []
  end.

(** * What a drop may run *)

(** Commands that remove something: a branch, here or on the remote, or a
    worktree. *)
Definition removal (args : list string) : bool :=
  match args with
  | cmd :: rest =>
      (cmd =? "push")%string ||
      match rest with
      | sub :: _ => (cmd =? "worktree")%string && (sub =? "remove")%string ||
                    (cmd =? "branch")%string && (sub =? "-D")%string
      | [] => false
      end
  | [] => false
  end.

Definition destructive (e : event) : Prop :=
  match e with Run _ args => removal args = true | RunInput _ _ _ | Mkdir _ | Edit _ => False end.

(** The commands of a drop after its evidence is pinned: observations, new
    objects, the removals, and updates of references other than [evidence_ref]. *)
Definition spares (evidence_ref : string) (e : event) : Prop :=
  match e with
  | Run _ ("update-ref" :: ref :: _) => ref <> evidence_ref
  | Run _ args =>
      observation args = true \/
      match args with
      | "ls-remote" :: _ | "cat-file" :: _ | "worktree" :: "remove" :: _ => True
      | ["push"; _; _; ref] => exists branch, ref = ":refs/heads/" +:+ branch
      | ["branch"; "-D"; _] => True
      | _ => False
      end
  | RunInput _ args _ => args = ["hash-object"; "-w"; "--stdin"]
  | Mkdir _ | Edit _ => False
  end.

(** The reference names the commit, as [rev-parse] sees it. *)
Definition names_commit {W} `{GitWorld W} (repo : Path) (w : W) (ref commit : string) : Prop :=
  exists p, fst (gw_run repo ["rev-parse"; "--verify"; commit_of ref] w) = Ok p /\
            moved_from commit p = false.

(** The reference names a blob with this text, as the reading commands see it. *)
Definition names_blob {W} `{GitWorld W} (repo : Path) (w : W) (ref text : string) : Prop :=
  exists r t p, fst (gw_run repo ["rev-parse"; "--verify"; ref] w) = Ok r /\ failed r = false /\
    fst (gw_run repo ["cat-file"; "-t"; strip (stdout r)] w) = Ok t /\ failed t = false /\
    strip (stdout t) = "blob" /\
    fst (gw_run repo ["cat-file"; "-p"; strip (stdout r)] w) = Ok p /\ failed p = false /\ stdout p = text.

(** The commands that read a reference or an object. *)
Definition object_read (args : list string) : bool :=
  match args with
  | ["rev-parse"; "--verify"; _] | ["cat-file"; _; _] => true
  | _ => false
  end.

(** What the drop relies on of git: an update of a reference to a full object
    name sets it; commands that spare a reference outside [refs/heads] do not
    move it; a blob is stored under the name that [hash-object] prints; reading
    changes nothing that is read. *)
Class GitReferences (W : Type) `{GitWorld W} (repo : Path) : Prop := {
  update_ref_sets : forall ref commit w p w',
    is_sha commit = true -> gw_run repo ["update-ref"; ref; commit] w = (Ok p, w') ->
    failed p = false -> names_commit repo w' ref commit;
  sparing_keeps : forall ref commit, String.prefix "refs/devlegate/" ref = true ->
    keeps (spares ref) (fun w => names_commit repo w ref commit);
  blob_is_named : forall ref text w p w' q w'',
    gw_run_input repo ["hash-object"; "-w"; "--stdin"] text w = (Ok p, w') -> failed p = false ->
    gw_run repo ["update-ref"; ref; strip (stdout p)] w' = (Ok q, w'') -> failed q = false ->
    names_blob repo w'' ref text;
  reading_keeps : forall a b w, object_read a = true -> object_read b = true ->
    fst (gw_run repo b (snd (gw_run repo a w))) = fst (gw_run repo b w)
}.

Section DropSafety.
Context {W : Type} `{GitWorld W}.
Variable recursion_limit : nat.
Variables repo execution_worktree_root : Path.
Variable remote_name : string.

Definition gentle (e : event) : Prop := ~ destructive e.

Local Hint Extern 1 (gentle (Run _ _)) => discriminate : commands.
Local Hint Extern 1 (gentle (RunInput _ _ _)) => by intros [] : commands.

Lemma observes_gentle e : observes e -> gentle e.
Proof.
  destruct e as [dir [|cmd rest]|dir args text|p|t]; try done. unfold gentle, destructive, removal.
  intros Ho [Hd%String.eqb_eq|Hd]%orb_true_iff; [by subst|]. destruct rest as [|sub rest]; [done|].
  apply orb_true_iff in Hd as [Hd|Hd]; bsplit; by subst.
Qed.
Local Hint Resolve observes_gentle : commands.

Lemma gentle_disposition k x : only gentle (_read_drop_disposition repo k x).
Proof. unfold _read_drop_disposition, rev_parse, engine_error. only_auto. Qed.
Local Hint Resolve gentle_disposition : commands.

Lemma gentle_completed state k x : only gentle (_drop_already_completed repo state k x).
Proof. unfold _drop_already_completed, rev_parse, engine_error. only_auto. Qed.

Lemma gentle_remote branch : only gentle (_execution_remote_head repo remote_name branch).
Proof. unfold _execution_remote_head, engine_error. only_auto. Qed.

Lemma gentle_exact ws a b : only gentle (_checkpoint_commit_is_exact ws a b).
Proof. unfold _checkpoint_commit_is_exact. only_auto. Qed.

Lemma gentle_registrations m : only gentle (_registrations m).
Proof. apply only_registrations. auto with commands. Qed.

Lemma gentle_existing m r b : only gentle (_validate_existing m r b).
Proof. apply only_validate_existing. auto with commands. Qed.
Local Hint Resolve gentle_completed gentle_remote gentle_exact gentle_registrations gentle_existing
  only_new_manager : commands.

Lemma gentle_workspace state report :
  only gentle (_drop_workspace_from_state repo execution_worktree_root state report).
Proof. unfold _drop_workspace_from_state, engine_error. only_auto. Qed.
Local Hint Resolve gentle_workspace : commands.

Lemma gentle_evidence state k x b :
  only gentle (_validate_drop_evidence repo execution_worktree_root remote_name state k x b).
Proof. unfold _validate_drop_evidence, rev_parse, engine_error. only_auto. Qed.

Lemma gentle_publish report payload what : only gentle (publish_disposition repo report payload what).
Proof. unfold publish_disposition, engine_error. only_auto. Qed.
Local Hint Resolve gentle_publish : commands.

Lemma gentle_checkpoint report : only gentle (drop_checkpoint (W := W) report).
Proof. unfold drop_checkpoint, engine_error. only_auto. Qed.
Local Hint Resolve gentle_checkpoint : commands.

Lemma gentle_intent report : only gentle (_persist_drop_intent repo report).
Proof. unfold _persist_drop_intent, engine_error. only_auto. Qed.

Lemma gentle_pin_checkpoint ref c : only gentle (pin_checkpoint repo ref c).
Proof. unfold pin_checkpoint, rev_parse, engine_error. only_auto. Qed.
Local Hint Resolve gentle_pin_checkpoint : commands.

Lemma gentle_pin report : only gentle (_pin_drop_evidence repo report).
Proof. unfold _pin_drop_evidence, engine_error. only_auto. Qed.

(** The commands of the removal spare the evidence. *)
Section Removal.
Variable evidence_ref : string.

Lemma spares_observes e : observes e -> spares evidence_ref e.
Proof.
  destruct e as [dir args|dir args text|p|t]; try done. unfold observes, spares. intros Ho.
  destruct args as [|cmd rest]; [by left|].
  destruct (String.eqb_spec cmd "update-ref") as [->|Hne]; [by destruct rest|].
  repeat (case_match; subst; try by left). done.
Qed.
Local Hint Resolve spares_observes : commands.
Local Hint Extern 1 (spares evidence_ref (Run _ _)) => cbn; eauto : commands.

Lemma spares_remote branch : only (spares evidence_ref) (_execution_remote_head repo remote_name branch).
Proof. unfold _execution_remote_head, engine_error. only_auto. Qed.
Local Hint Resolve spares_remote : commands.

Lemma spares_retire m ws h : only (spares evidence_ref) (retire recursion_limit m ws h).
Proof.
  eapply only_weaken; [|apply only_retire]. intros e [He| ->]; [by apply spares_observes|]. cbn. eauto.
Qed.
Local Hint Resolve spares_retire only_new_manager : commands.

Lemma spares_removal report ws : only (spares evidence_ref)
  (_retire_drop_workspace recursion_limit repo execution_worktree_root remote_name report ws).
Proof.
  unfold _retire_drop_workspace, retire_remote, retire_local, rev_parse, engine_error. only_auto.
Qed.
End Removal.
End DropSafety.
#[export] Hint Extern 1 (gentle (Run _ _)) => discriminate : commands.
#[export] Hint Resolve gentle_disposition gentle_completed gentle_evidence gentle_intent gentle_pin
  gentle_publish : commands.

(** * The evidence outlives every drop *)

Section Evidence.
Context {W : Type} `{GitWorld W}.
Variable recursion_limit : nat.
Variables repo execution_worktree_root : Path.
Variable remote_name : string.
Context `{!GitReferences W repo}.
Variable state : dict.
Variables ticket_id execution_id : string.

Definition evidence_ref : string := _drop_evidence_ref ticket_id execution_id.

(** The disposition reference names the final disposition of the report: its
    encoding, or what decodes to an equal object. *)
Definition disposition_stored (w : W) (report : ExecutionReport) (checkpoint : string) : Prop :=
  let payload := _drop_disposition_payload report checkpoint in
  exists text, names_blob repo w (_drop_disposition_ref ticket_id execution_id) text /\
    (text = encoded_disposition payload \/
     exists value, loads text = Some (PDict value) /\ py_eq (PDict value) (PDict payload) = true).

(** The run from [s] that ends with [r] in [s']: after steps that remove nothing it
    came to a state from which only the removal was left; there, and at the end, the
    evidence reference names the checkpoint of the pending report, and there its
    disposition is stored. *)
Definition evidence_kept (s : logged W) (r : res bool) (s' : logged W) : Prop :=
  exists report checkpoint workspace before s1,
    from_dict (get state "pending_execution_report") = Ok report /\
    rep_ticket_id report = ticket_id /\ rep_execution_id report = execution_id /\
    rep_workspace_head report = Some checkpoint /\
    lg_events s1 = lg_events s ++ before /\ Forall gentle before /\
    names_commit repo (lg_world s1) evidence_ref checkpoint /\
    disposition_stored (lg_world s1) report checkpoint /\
    (_ ← _retire_drop_workspace recursion_limit repo execution_worktree_root remote_name report workspace;
     mret true) s1 = (r, s') /\
    names_commit repo (lg_world s') evidence_ref checkpoint.

(** A run that removed something, or that ended as it should, kept the evidence. *)
Definition guarded (m : py (logged W) bool) (s : logged W) : Prop :=
  exists new, lg_events (snd (m s)) = lg_events s ++ new /\
    ((exists e, e ∈ new /\ destructive e) \/ fst (m s) = Ok true -> evidence_kept s (fst (m s)) (snd (m s))).

Lemma guarded_bind {A} (m : py (logged W) A) f s :
  only gentle m -> (forall a s1, m s = (Ok a, s1) -> guarded (f a) s1) -> guarded (m ≫= f) s.
Proof.
  intros Hm Hf. destruct (Hm s) as [(n1 & Hl1 & Hg) _]. unfold guarded. rewrite py_bind_run.
  destruct (m s) as [[a|x] s1] eqn:Em; cbn in Hl1.
  - destruct (Hf a s1 eq_refl) as (n2 & Hl2 & Hk). exists (n1 ++ n2).
    rewrite Hl2, Hl1, app_assoc. split; [done|]. intros Hd.
    destruct Hk as (report & c & ws & before & s2 & Hr & Hid & Hx & Hc & Hl & Hb & Hn & Hds & He2 & Hfin).
    { destruct Hd as [(e & He & Hde)|Hok]; [|by right]. left. exists e. split; [|done].
      apply elem_of_app in He as [He|He]; [|done]. rewrite Forall_forall in Hg. by destruct (Hg e He). }
    exists report, c, ws, (n1 ++ before), s2. split_and!; try done.
    + by rewrite Hl, Hl1, app_assoc.
    + by apply Forall_app.
  - exists n1. split; [done|]. intros [(e & He & Hde)|[=]]. rewrite Forall_forall in Hg. by destruct (Hg e He).
Qed.

Lemma guarded_raise k msg s : guarded (py_raise k msg) s.
Proof.
  exists []. rewrite app_nil_r. split; [done|]. intros [(e & He & _)|[=]]. by apply not_elem_of_nil in He.
Qed.

Lemma guarded_false s : guarded (mret false) s.
Proof.
  exists []. rewrite app_nil_r. split; [done|]. intros [(e & He & _)|[=]]. by apply not_elem_of_nil in He.
Qed.

(** Observing a commit under a reference does not move it. *)
Lemma observed_names c s p s' :
  rev_parse repo (commit_of evidence_ref) s = (Ok p, s') -> moved_from c p = false ->
  names_commit repo (lg_world s') evidence_ref c.
Proof.
  unfold rev_parse, _git. destruct (gw_run repo _ (lg_world s)) as [r w] eqn:Er. intros [= -> <-] Hp.
  destruct (sparing_keeps (repo := repo) evidence_ref c eq_refl) as [Hk _].
  specialize (Hk repo ["rev-parse"; "--verify"; commit_of evidence_ref] (lg_world s)). rewrite Er in Hk.
  apply Hk; [by left|]. exists p. by rewrite Er.
Qed.

Lemma pin_names c s u s' :
  is_sha c = true -> pin_checkpoint repo evidence_ref c s = (Ok u, s') ->
  names_commit repo (lg_world s') evidence_ref c.
Proof.
  intros Hc. unfold pin_checkpoint. intros (observed & s1 & Ho & H1)%py_bind_ok.
  destruct (negb (failed observed)).
  - destruct (moved_from c observed) eqn:Hm; [discriminate|]. injection H1 as _ <-.
    exact (observed_names _ _ _ _ Ho Hm).
  - apply py_bind_ok in H1 as (pinned & s2 & Hp & H2).
    destruct (negb (failed pinned)) eqn:Hf.
    + injection H2 as _ <-. apply negb_true_iff in Hf. unfold _git in Hp.
      destruct (gw_run repo _ (lg_world s1)) as [r w] eqn:Er. injection Hp as -> <-.
      exact (update_ref_sets _ _ _ _ _ Hc Er Hf).
    + apply py_bind_ok in H2 as (reread & s3 & Hr & H3).
      destruct (moved_from c reread) eqn:Hm; [discriminate|]. injection H3 as _ <-.
      exact (observed_names _ _ _ _ Hr Hm).
Qed.

Lemma disposition_is_not_evidence k x : _drop_disposition_ref k x <> evidence_ref.
Proof. unfold _drop_disposition_ref, evidence_ref, _drop_evidence_ref. cbn. discriminate. Qed.

Local Hint Resolve spares_observes : commands.
Local Hint Extern 1 (spares _ (Run _ _)) => cbn; eauto using disposition_is_not_evidence : commands.
Local Hint Extern 1 (spares _ (RunInput _ _ _)) => reflexivity : commands.

Lemma spares_disposition k x : only (spares evidence_ref) (_read_drop_disposition repo k x).
Proof. unfold _read_drop_disposition, rev_parse, engine_error. only_auto. Qed.
Local Hint Resolve spares_disposition : commands.

Lemma spares_publish report payload what :
  only (spares evidence_ref) (publish_disposition repo report payload what).
Proof. unfold publish_disposition, engine_error. only_auto. Qed.

(** A sparing computation keeps the evidence. *)
Lemma spared {A} (m : py (logged W) A) c s :
  only (spares evidence_ref) m -> names_commit repo (lg_world s) evidence_ref c ->
  names_commit repo (lg_world (snd (m s))) evidence_ref c.
Proof. intros Hm Hc. exact (proj2 (Hm s) _ (sparing_keeps evidence_ref c eq_refl) Hc). Qed.

(** A command that reads, and what the reading commands answer afterwards. *)
Lemma read_run args s p s' : object_read args = true -> _git repo args s = (Ok p, s') ->
  fst (gw_run repo args (lg_world s)) = Ok p /\
  forall b, object_read b = true -> fst (gw_run repo b (lg_world s')) = fst (gw_run repo b (lg_world s)).
Proof.
  intros Ha. unfold _git. destruct (gw_run repo args (lg_world s)) as [r w] eqn:Er. intros [= -> <-].
  split; [done|]. intros b Hb. pose proof (reading_keeps args b (lg_world s) Ha Hb) as Hk. by rewrite Er in Hk.
Qed.

(** A disposition that is read is what its reference names. *)
Lemma read_disposition_names k x s value s' :
  _read_drop_disposition repo k x s = (Ok (Some value), s') ->
  exists text, names_blob repo (lg_world s') (_drop_disposition_ref k x) text /\ loads text = Some (PDict value).
Proof.
  unfold _read_drop_disposition, rev_parse. intros (r & s1 & Hr & H1)%py_bind_ok.
  destruct (failed r) eqn:Fr; [discriminate|]. apply py_bind_ok in H1 as (t & s2 & Ht & H2).
  destruct (failed t) eqn:Ft; [discriminate|]. cbn [orb] in H2.
  destruct (String.eqb_spec (strip (stdout t)) "blob") as [Eb|]; [|discriminate]. cbn [negb] in H2.
  apply py_bind_ok in H2 as (p & s3 & Hp & H3). destruct (failed p) eqn:Fp; [discriminate|].
  destruct (loads (stdout p)) as [[]|] eqn:El; try discriminate. injection H3 as -> <-.
  apply read_run in Hr as [Hr K1]; [|done]. apply read_run in Ht as [Ht K2]; [|done].
  apply read_run in Hp as [Hp K3]; [|done]. exists (stdout p). split; [|done]. exists r, t, p.
  rewrite !K3, !K2, !K1, <- Hr by done. rewrite K1 in Ht by done. rewrite K2, K1 in Hp by done. by split_and!.
Qed.

(** A disposition that is published is stored. *)
Lemma publish_stores report c s u s' :
  rep_ticket_id report = ticket_id -> rep_execution_id report = execution_id ->
  publish_disposition repo report (_drop_disposition_payload report c) "evidence" s = (Ok u, s') ->
  disposition_stored (lg_world s') report c.
Proof.
  intros Hk Hx. unfold publish_disposition. rewrite Hk, Hx. intros (blob & s1 & Hb & H1)%py_bind_ok.
  destruct (failed blob) eqn:Fb; [discriminate|]. destruct (_ =? _)%string; [discriminate|]. cbn [orb] in H1.
  apply py_bind_ok in H1 as (updated & s2 & Hu & H2). destruct (failed updated) eqn:Fu; cbn [negb] in H2.
  - apply py_bind_ok in H2 as (reread & s3 & Hr & H3). destruct reread as [value|]; [|discriminate].
    destruct (py_eq _ _) eqn:Ev; [|discriminate]. injection H3 as _ <-.
    apply read_disposition_names in Hr as (text & Hn & Hl). exists text. split; [done|]. right. by exists value.
  - injection H2 as _ <-. unfold _git_input in Hb. unfold _git in Hu.
    destruct (gw_run_input repo _ _ (lg_world s)) as [rb wb] eqn:Er. injection Hb as -> <-. cbn [lg_world] in Hu.
    destruct (gw_run repo _ wb) as [ru wu] eqn:Eu. injection Hu as -> <-.
    eexists. split; [exact (blob_is_named _ _ _ _ _ _ _ Er Fb Eu Fu)|by left].
Qed.

(** After the evidence is pinned, the checkpoint and its disposition are stored. *)
Lemma pin_stores report c s d s' :
  rep_ticket_id report = ticket_id -> rep_execution_id report = execution_id ->
  rep_workspace_head report = Some c -> is_sha c = true ->
  _pin_drop_evidence repo report s = (Ok d, s') ->
  names_commit repo (lg_world s') evidence_ref c /\ disposition_stored (lg_world s') report c.
Proof.
  intros Ht Hx Hc Hsha Hp. unfold _pin_drop_evidence in Hp. apply py_bind_ok in Hp as (c' & s1 & Hc' & Hp).
  unfold drop_checkpoint in Hc'. rewrite Hc in Hc'. destruct c as [|a c]; [discriminate|].
  injection Hc' as <- <-. rewrite Ht, Hx in Hp. fold evidence_ref in Hp.
  apply py_bind_ok in Hp as ([] & s2 & Hpin & Hp). apply py_bind_ok in Hp as (existing & s3 & He & Hp).
  apply py_bind_ok in Hp as ([] & s4 & Hk & Hp). apply py_bind_ok in Hp as ([] & s5 & Hw & [= <- <-]).
  split; [|by eapply publish_stores].
  apply pin_names in Hpin; [|done].
  apply (spared _ _ _ (spares_disposition ticket_id execution_id)) in Hpin. rewrite He in Hpin.
  assert (H4 : lg_world s4 = lg_world s3).
  { revert Hk. destruct existing as [value|]; [|by intros [= <-]].
    destruct (_ && _); [discriminate|]. rewrite py_bind_run, py_lift_run.
    destruct (in_strs _ _) as [[]|]; try discriminate. by intros [= <-]. }
  cbn [snd] in Hpin. rewrite <- H4 in Hpin.
  apply (spared _ _ _ (spares_publish report (_drop_disposition_payload report (String a c)) "evidence")) in Hpin.
  by rewrite Hw in Hpin.
Qed.

Lemma evidence_report k x b s report ws s' :
  _validate_drop_evidence repo execution_worktree_root remote_name state k x b s = (Ok (report, ws), s') ->
  from_dict (get state "pending_execution_report") = Ok report /\
  rep_ticket_id report = k /\ rep_execution_id report = x /\ is_Some (rep_workspace_head report).
Proof.
  unfold _validate_drop_evidence. intros (rep & s1 & Hr & Hs1)%py_bind_ok.
  unfold py_lift in Hr. injection Hr as Hr _.
  destruct (from_dict _) as [rep'|e] eqn:Hf; cbn in Hr; [injection Hr as ->|by destruct (is_report_error e)].
  destruct (_ || _) eqn:Hid in Hs1; [discriminate|]. bsplit.
  apply py_bind_ok in Hs1 as (u & s2 & _ & Hs2).
  destruct (rep_workspace_head rep) as [c|] eqn:Hc; [|discriminate].
  apply py_bind_ok in Hs2 as (ws' & s3 & _ & Hs3). destruct (negb _) in Hs3; [discriminate|].
  destruct (negb _) in Hs3; [discriminate|]. apply py_bind_ok in Hs3 as (present & s4 & _ & Hs4).
  apply py_bind_ok in Hs4 as (u' & s5 & _ & Hs5). apply py_bind_ok in Hs5 as (remote & s6 & _ & Hs6).
  destruct (_ && _) in Hs6; [discriminate|]. injection Hs6 as -> -> ->. rewrite Hc. by split_and!.
Qed.

Lemma drop_guarded (s : logged W) :
  (forall report c, from_dict (get state "pending_execution_report") = Ok report ->
     rep_workspace_head report = Some c -> is_sha c = true) ->
  guarded (drop_effects recursion_limit repo execution_worktree_root remote_name state ticket_id
             (Some execution_id)) s.
Proof.
  intros Hsha. unfold drop_effects. destruct execution_id as [|a x] eqn:Hx; [apply guarded_raise|].
  rewrite <- Hx in *. clear a x Hx.
  apply guarded_bind; [apply gentle_completed|]. intros completed s1 _.
  destruct completed; [apply guarded_false|].
  apply guarded_bind; [apply gentle_disposition|]. intros existing s2 _.
  apply guarded_bind; [apply gentle_evidence|]. intros [report ws] s3 He.
  destruct (evidence_report _ _ _ _ _ _ _ He) as (Hr & Hk & Hxe & [c Hc]).
  apply guarded_bind; [apply gentle_intent|]. intros [] s4 _.
  unfold guarded. rewrite py_bind_run.
  destruct (_pin_drop_evidence repo report s4) as [[d|e] s5] eqn:Hp.
  2: { destruct (gentle_pin repo report s4) as [(new & Hl & Hg) _]. rewrite Hp in Hl. exists new.
       split; [exact Hl|]. intros [(ev & Hin & Hd)|[=]]. rewrite Forall_forall in Hg.
       by destruct (Hg ev Hin). }
  destruct (gentle_pin repo report s4) as [(n1 & Hl1 & Hg) _]. rewrite Hp in Hl1. cbn in Hl1.
  destruct (pin_stores report c s4 d s5 Hk Hxe Hc (Hsha _ _ Hr Hc) Hp) as [Hn Hd].
  set (m := _retire_drop_workspace _ _ _ _ _ _ ≫= _).
  assert (Hm : only (spares evidence_ref) m).
  { apply only_bind; [apply spares_removal|]. intros ?. apply only_ret. }
  destruct (Hm s5) as [(n2 & Hl2 & _) _]. exists (n1 ++ n2). rewrite Hl2, Hl1, app_assoc.
  split; [done|]. intros _. exists report, c, ws, n1, s5. split_and!; try done; [|by apply spared].
  fold m. apply surjective_pairing.
Qed.
End Evidence.


(** * A concrete repository *)

(** References, objects, and whether the execution's worktree is there. *)
Record drop_repo : Type := mkRepo {
  dr_refs : list (string * string);
  dr_objects : list string;
  dr_present : bool
}.

Definition has_caret (s : string) : bool := existsb (Ascii.eqb (Ascii.ascii_of_N 94)) (String.list_ascii_of_string s).

(** The reference that [rev-parse] resolves. *)
Definition resolve_ref (refs : list (string * string)) (rev : string) : option string :=
  match dget (map (fun kv => (commit_of (fst kv), snd kv)) refs) rev with
  | Some v => Some v
  | None => if (rev =? toy_sha +:+ "^")%string then Some "b0"
            else if has_caret rev then None else dget refs rev
  end.

(** What the commands that change nothing print. *)
Definition drop_answer (repo : Path) (args : list string) (w : drop_repo) : res CompletedProcess :=
  let out text := Ok (mkProc 0 text "") in
  match args with
  | ["rev-parse"; "--verify"; rev] =>
      match resolve_ref (dr_refs w) rev with Some v => out v | None => Ok (mkProc 128 "" "") end
  | ["cat-file"; "-t"; _] => out "blob"
  | ["cat-file"; "-p"; object] =>
      match List.find (fun o => (sha256_hex o =? object)%string) (dr_objects w) with
      | Some o => out o
      | None => Ok (mkProc 1 "" "")
      end
  | "ls-remote" :: _ => out (toy_sha +:+ String TAB "refs/heads/devlegate/work/T1" +:+ LF)
  | "rev-list" :: "--parents" :: _ => out (toy_sha +:+ " b0" +:+ LF)
  | "rev-list" :: _ => out (toy_sha +:+ LF)
  | ["rev-parse"; "HEAD"] => out (toy_sha +:+ LF)
  | "worktree" :: "list" :: _ => out (render
      (mkWorktree "/repo" "b0" (Some "main") None None ::
       if dr_present w then [mkWorktree "/x/work/T1" toy_sha (Some "devlegate/work/T1") None None] else []))
  | _ => fst (toy_run repo args 0)
  end.

Definition drop_run (repo : Path) (args : list string) (w : drop_repo) : res CompletedProcess * drop_repo :=
  let arg n := nth n args "" in
  let done w' := (Ok (mkProc 0 "" ""), w') in
  if (arg 0 =? "update-ref")%string
  then if has_caret (arg 1) then (Ok (mkProc 128 "" ""), w) else done (mkRepo (dset (dr_refs w) (arg 1) (arg 2)) (dr_objects w) (dr_present w))
  else if (arg 0 =? "branch")%string && (arg 1 =? "-D")%string
  then done (mkRepo (dpop (dr_refs w) ("refs/heads/" +:+ arg 2)) (dr_objects w) (dr_present w))
  else if (arg 0 =? "worktree")%string && (arg 1 =? "remove")%string
  then done (mkRepo (dr_refs w) (dr_objects w) false)
  else (drop_answer repo args w, w).

#[local] Instance drop_repo_world : GitWorld drop_repo := {
  gw_run := drop_run;
  gw_run_input := fun _ _ text w =>
    (Ok (mkProc 0 (sha256_hex text) ""),
     mkRepo (dr_refs w) (text :: dr_objects w) (dr_present w));
  gw_mkdir := fun _ w => (Ok tt, w);
  gw_files := fun _ => ∅;
  gw_edit := fun _ w => w;
  gw_cwd := fun _ => Path_of "/";
  gw_resolve := fun _ p => p;
  gw_is_symlink := fun _ _ => false;
  gw_is_dir := fun _ _ => true;
  gw_exists := fun w _ => dr_present w;
  gw_has_entries := fun _ _ => true
}.

Lemma has_caret_commit ref : has_caret (commit_of ref) = true.
Proof.
  unfold has_caret, commit_of. rewrite list_ascii_app, existsb_app. apply orb_true_r.
Qed.

Lemma commit_of_inj a b : commit_of a = commit_of b -> a = b.
Proof.
  unfold commit_of. intros He.
  assert (Hl : String.length a = String.length b).
  { apply (f_equal String.length) in He. rewrite !str_app_length in He. lia. }
  revert b He Hl. induction a as [|x a IH]; intros [|y b]; try done. cbn. intros [= -> He] [= Hl].
  f_equal. by apply IH.
Qed.

Lemma resolve_commit (refs : list (string * string)) ref :
  dget (map (fun kv => (commit_of (fst kv), snd kv)) refs) (commit_of ref) = dget refs ref.
Proof.
  induction refs as [|[k v] refs IH]; [done|]. cbn.
  destruct (String.eqb_spec k ref) as [->|Hne].
  - by rewrite String.eqb_refl.
  - destruct (String.eqb_spec (commit_of k) (commit_of ref)) as [He|]; [|done].
    by apply commit_of_inj in He.
Qed.

(** A full object name has no space around it. *)
Definition hex_char (c : Ascii.ascii) : bool :=
  negb (is_cont c) && negb (is_space (String c "")).

Lemma lower_hex_char c : is_lower_hex c = true -> hex_char c = true.
Proof. destruct c as [[] [] [] [] [] [] [] []]; vm_compute; done. Qed.

Lemma hex_utf8 s : all_bytes is_lower_hex s = true ->
  utf8_chars s = map (fun c => String c "") (String.list_ascii_of_string s).
Proof.
  induction s as [|c s IH]; [done|]. cbn [all_bytes]. intros [Hc Hs]%andb_true_iff.
  cbn [utf8_chars String.list_ascii_of_string map]. rewrite IH by done.
  destruct s as [|d s]; [done|]. cbn. apply andb_true_iff in Hs as [Hd _].
  apply lower_hex_char, andb_true_iff in Hd as [Hd%negb_true_iff _]. by rewrite Hd.
Qed.

Lemma drop_while_none {A} (p : A -> bool) l : Forall (fun x => p x = false) l -> drop_while p l = l.
Proof. destruct 1 as [|x l Hx]; [done|]. cbn. by rewrite Hx. Qed.

Lemma strip_hex s : all_bytes is_lower_hex s = true -> strip s = s.
Proof.
  intros Hs. unfold strip.
  assert (Hall : Forall (fun x => is_space x = false) (utf8_chars s)).
  { rewrite hex_utf8 by done. apply Forall_fmap. induction s as [|c s IH]; [constructor|].
    cbn in Hs. apply andb_true_iff in Hs as [Hc Hs]. constructor; [|by apply IH].
    apply lower_hex_char, andb_true_iff in Hc as [_ Hc%negb_true_iff]. exact Hc. }
  rewrite (drop_while_none _ (utf8_chars s)) by done.
  rewrite drop_while_none; [by rewrite rev_involutive, of_utf8_chars|].
  by apply Forall_rev.
Qed.

Lemma strip_sha s : is_sha s = true -> strip s = s.
Proof. unfold is_sha. intros [_ Hs]%andb_true_iff. by apply strip_hex. Qed.

Lemma names_same (w w' : drop_repo) ref c :
  dget (dr_refs w') ref = dget (dr_refs w) ref ->
  names_commit (Path_of "/repo") w ref c -> names_commit (Path_of "/repo") w' ref c.
Proof.
  unfold names_commit. change (gw_run (Path_of "/repo") ["rev-parse"; "--verify"; commit_of ref]) with
    (fun w => (match resolve_ref (dr_refs w) (commit_of ref) with
               | Some v => Ok (mkProc 0 v "") | None => Ok (mkProc 128 "" "") end, w)).
  cbn [fst]. unfold resolve_ref. rewrite !resolve_commit, has_caret_commit. by intros ->.
Qed.

(** What the commands of the model answer, without the rest of the world. *)
Lemma run_update ref object w : has_caret ref = false ->
  gw_run (Path_of "/repo") ["update-ref"; ref; object] w =
    (Ok (mkProc 0 "" ""), mkRepo (dset (dr_refs w) ref object) (dr_objects w) (dr_present w)).
Proof. intros Hc. cbn -[has_caret]. unfold drop_run. cbn -[has_caret]. by rewrite Hc. Qed.

Lemma run_resolve ref w : gw_run (Path_of "/repo") ["rev-parse"; "--verify"; ref] w =
  (match resolve_ref (dr_refs w) ref with Some v => Ok (mkProc 0 v "") | None => Ok (mkProc 128 "" "") end, w).
Proof. reflexivity. Qed.

Lemma run_update_caret ref object w : has_caret ref = true ->
  gw_run (Path_of "/repo") ["update-ref"; ref; object] w = (Ok (mkProc 128 "" ""), w).
Proof. intros Hc. cbn -[has_caret]. unfold drop_run. cbn -[has_caret]. by rewrite Hc. Qed.

(** A plain reference is the one that is written. *)
Lemma resolve_plain refs ref v : has_caret ref = false -> dget refs ref = Some v -> resolve_ref refs ref = Some v.
Proof.
  intros Hc Hv. unfold resolve_ref.
  assert (dget (map (fun kv => (commit_of (fst kv), snd kv)) refs) ref = None) as ->.
  { clear Hv. induction refs as [|[k x] refs IH]; [done|]. cbn [map dget fst snd].
    destruct (String.eqb_spec (commit_of k) ref) as [<-|]; [by rewrite has_caret_commit in Hc|done]. }
  destruct (String.eqb_spec ref (toy_sha +:+ "^")) as [->|]; [by vm_compute in Hc|]. by rewrite Hc.
Qed.

Lemma reading_same args w : object_read args = true -> gw_run (Path_of "/repo") args w = (drop_answer (Path_of "/repo") args w, w).
Proof.
  destruct args as [|cmd args]; [done|]. unfold object_read. intros Ha.
  assert (cmd = "rev-parse" \/ cmd = "cat-file") as [->| ->]; [|done..].
  repeat (case_match; subst; try done); auto.
Qed.

#[local] Instance drop_repo_laws : GitReferences drop_repo (Path_of "/repo").
Proof.
  split.
  - intros ref commit w p w' Hsha Hr Hp. destruct (has_caret ref) eqn:Hc.
    { rewrite run_update_caret in Hr by done. by injection Hr as <- <-. }
    rewrite run_update in Hr by done. injection Hr as <- <-. exists (mkProc 0 commit ""). split.
    + rewrite run_resolve. cbn [fst dr_refs]. unfold resolve_ref. by rewrite resolve_commit, dget_dset_eq.
    + unfold moved_from. cbn [failed returncode stdout]. rewrite strip_sha by done.
      by rewrite String.eqb_refl.
  - intros ref commit Hp. split_and!; [|done|done|done].
    intros repo args w Hsp. apply names_same. change (gw_run repo args w) with (drop_run repo args w).
    unfold drop_run. destruct (String.eqb_spec (nth 0 args "") "update-ref") as [He|_].
    { destruct (has_caret _); [done|]. cbn [snd dr_refs]. apply dget_dset_ne. destruct args as [|cmd args]; [done|].
      cbn in He. subst cmd. destruct args as [|r rest]; [intros <-; discriminate Hp|]. exact Hsp. }
    destruct (_ && _); [cbn [snd dr_refs]; apply dget_dpop_ne; intros <-; discriminate Hp|].
    by destruct (_ && _).
  - intros ref text w p w' q w'' Hw _ Hu Hq. injection Hw as <- <-. cbn [stdout] in Hu.
    destruct (has_caret ref) eqn:Hc; [rewrite run_update_caret in Hu by done; by injection Hu as <- <-|].
    rewrite run_update in Hu by done. injection Hu as <- <-.
    assert (Hs : strip (sha256_hex text) = sha256_hex text) by (apply strip_hex, sha256_hex_spec).
    rewrite Hs. exists (mkProc 0 (sha256_hex text) ""), (mkProc 0 "blob" ""), (mkProc 0 text "").
    rewrite run_resolve. cbn [fst dr_refs dr_objects dr_present stdout]. rewrite Hs.
    rewrite (resolve_plain _ _ (sha256_hex text) Hc) by apply dget_dset_eq. rewrite !reading_same by done.
    cbn [fst drop_answer dr_objects List.find]. rewrite String.eqb_refl. by split_and!.
  - intros a b w Ha Hb. by rewrite (reading_same a).
Qed.

(** The execution [E1] of ticket [T1], completed and checkpointed. *)
Definition drop_report : ExecutionReport :=
  mkReport "E1" "T1" "b0" "h0" "devlegate/work/T1" "/x/work/T1" (Some toy_sha)
    (mkResult 0 None None (Some (mkClaim "completed" "did it" [] [] None)) "completed" [] []
       "valid worker claim" true) None None.

Definition drop_state : dict :=
  [("phase", PStr "agent_running"); ("execution_stage", PStr "lifecycle");
   ("execution_ticket_id", PStr "T1"); ("execution_id", PStr "E1");
   ("execution_base_head", PStr "b0"); ("execution_start_head", PStr "b0");
   ("execution_control_head", PStr "h0"); ("execution_branch", PStr "devlegate/work/T1");
   ("execution_path", PStr "/x/work/T1"); ("pending_execution_report", as_dict drop_report)].

Definition drop_before : drop_repo := mkRepo [("refs/heads/devlegate/work/T1", toy_sha)] [] true.

Definition drop_run_all : res bool * logged drop_repo :=
  drop_effects 5 (Path_of "/repo") (Path_of "/x") "origin" drop_state "T1" (Some "E1")
    (mkLogged drop_before []).

