(* ===== verification/Control.v ===== *)
(** The control checkout as the service engine observes it,
    [src/devlegate/runtime.py]: the engine's settings, the world it runs in, Git
    under the shutdown policy, the ticket store of the control worktree, the
    observations of both repositories and the synchronization of the control
    branch.  The state of the engine is an argument: nothing here changes it. *)

From S2P Require Export Drop.

(** * Settings and environment *)

(** The attributes of [ServiceEngine] that stay as [__init__] and [_validate]
    left them. *)
Record settings : Type := mkSettings {
  st_repo : Path;
  st_control_worktree : Path;
  st_execution_worktree_root : Path;
  st_remote_name : string;
  st_remote_branch : string;
  st_control_branch : string;
  st_current_branch : option string;
  (** [_workflow_paths()]: the configured directory of each workflow state. *)
  st_paths : WorkflowState -> string;
  st_recursion_limit : nat
}.

(** The rest of the engine's surroundings: whether the calling thread owns the
    repository, and whether an abort was requested. *)
Class EngineWorld (W : Type) : Type := {
  ew_owner : W -> bool;
  ew_abort_requested : W -> bool
}.

(** [set(text.splitlines()) == set(expected)] *)
Definition same_lines (text : string) (expected : list string) : bool :=
  forallb (fun l => existsb (String.eqb l) expected) (splitlines text) &&
  forallb (fun l => existsb (String.eqb l) (splitlines text)) expected.

(** [result.stderr.strip() or default] *)
Definition stderr_or (p : CompletedProcess) (alternative : string) : string :=
  if (strip (stderr p) =? "")%string then alternative else strip (stderr p).

(** The components of a configured path below the control worktree. *)
Definition below (configured : string) : path := p_names (Path_of configured).

(** ** The files of the control worktree *)

Definition ticket_entry (n : option node) : dir_entry :=
  match n with
  | Some (File text) => EntFile (universal_newlines text)
  | Some (Link _) => EntSymlink
  | _ => EntOther
  end.

(** A workflow directory as [load_ticket_store] reads it. *)
Definition directory_at (t : tree) (p : path) : directory :=
  match resolve t p with
  | None => DirMissing
  | Some Dir => DirEntries (map (fun name => (name, ticket_entry (t !! (p ++ [name])))) (iterdir t p))
  | Some _ => DirNotDirectory
  end.

Definition checkout_of (c : settings) (t : tree) : checkout := fun state =>
  (path_str (path_join (st_control_worktree c) (Path_of (st_paths c state))),
   directory_at t (below (st_paths c state))).

Definition fingerprint_entry (n : option node) : fp_entry :=
  match n with
  | Some (File text) => FpFile text
  | Some (Link _) => FpSymlink
  | _ => FpOther
  end.

(** A workflow directory as the fingerprints read it. *)
Definition fingerprint_directory (t : tree) (p : path) : fp_directory :=
  match resolve t p with
  | None => FpMissing
  | Some Dir =>
      FpDirectory (map (fun name => (name, fingerprint_entry (t !! (p ++ [name])))) (iterdir t p))
  | Some _ => FpNotDirectory
  end.

(** The file of a ticket: [ticket.path]. *)
Definition ticket_file (c : settings) (state : WorkflowState) (ticket_id : string) : path :=
  below (st_paths c state) ++ [ticket_id +:+ ".md"].

(** [f"{self.accepted_path}/{ticket_id}.md"] and the like, in Git's arguments. *)
Definition managed_file (c : settings) (state : WorkflowState) (ticket_id : string) : string :=
  st_paths c state +:+ "/" +:+ ticket_id +:+ ".md".

Section Control.
Context {W : Type} `{GitWorld W, !EngineWorld W}.
Variable c : settings.
(** [nanoyaml.loads] *)
Variable loads_yaml : string -> string + dict.

Abbreviation M := (py (logged W)).

Definition control_git (args : list string) : M CompletedProcess :=
  _git (st_control_worktree c) args.

(** [raise WorkflowBlockedError(msg)] *)
Definition blocked {A} (msg : string) : M A := py_raise WorkflowBlockedError msg.

(** * Git under the shutdown policy *)

Definition _assert_repository_owner : M unit :=
  owner ← ask ew_owner;
  py_ensure owner DevlegateError "hosted repository access is restricted to the owner thread".

(** Did the requested abort interrupt the command ([-signal.SIGINT])? *)
Definition interrupted (p : CompletedProcess) : M bool :=
  abort ← ask ew_abort_requested;
  mret (abort && (returncode p =? -2)%Z).

Definition _raise_on_shutdown_interruption (p : CompletedProcess) : M unit :=
  stopped ← interrupted p;
  py_ensure (negb stopped) ShutdownInterrupted "".

(** [_git_runtime(repo, *args, check=False)] *)
Definition _git_runtime (state : dict) (repo : Path) (args : list string) : M CompletedProcess :=
  _ ← _assert_repository_owner;
  first ← _git repo args;
  result ← (if failed first && eq_str (get state "phase") "merge_pending"
            then
              stopped ← interrupted first;
              if (stopped : bool) then _git repo args else mret first
            else mret first);
  _ ← (if failed result then _raise_on_shutdown_interruption result else mret tt);
  mret result.

(** [_git_runtime(repo, *args)] *)
Definition _git_runtime_check (state : dict) (repo : Path) (args : list string) : M CompletedProcess :=
  result ← _git_runtime state repo args;
  if failed result
  then py_raise PySubprocessError (called_process_error repo args (returncode result))
  else mret result.

(** * Observations *)

Definition _git_observation (state : dict) (repo : Path) (remote_branch : string) : M GitObservation :=
  branch_result ← _git_runtime state repo ["symbolic-ref"; "--quiet"; "--short"; "HEAD"];
  head ← _git_runtime_check state repo ["rev-parse"; "HEAD"];
  let remote_ref := st_remote_name c +:+ "/" +:+ remote_branch in
  remote_result ← _git_runtime state repo ["rev-parse"; "--verify"; remote_ref];
  status ← _git_runtime_check state repo ["status"; "--porcelain"];
  mret (mkGitObs
          (if failed branch_result then None else Some (strip (stdout branch_result)))
          (failed branch_result) (strip (stdout head)) remote_ref
          (if failed remote_result then None else Some (strip (stdout remote_result)))
          (stdout status =? "")%string (_status_fingerprint (stdout status))).

Definition _validate_control_worktree (state : dict) : M unit :=
  present ← ask (fun w => gw_is_dir w (st_control_worktree c));
  if negb present
  then blocked ("control worktree is missing; run 'devlegate control init' to attach " +:+
                st_control_branch c)
  else
  listing ← _git_runtime_check state (st_repo c) ["worktree"; "list"; "--porcelain"];
  registered ← ask (fun w => catch (_parse_worktree_porcelain (gw_resolve w) (stdout listing))
                               is_workspace_error (fun e => raise WorkflowBlockedError (exn_msg e)));
  registered ← py_lift registered;
  expected ← ask (fun w => gw_resolve w (st_control_worktree c));
  if negb (existsb (fun e => bool_decide (fst e = expected)) registered)
  then blocked "control path is not a registered Git worktree for this repository"
  else
  top ← _git_runtime state (st_control_worktree c) ["rev-parse"; "--show-toplevel"];
  same ← ask (fun w => bool_decide (gw_resolve w (Path_of (strip (stdout top))) =
                                    gw_resolve w (st_control_worktree c)));
  if failed top || negb same
  then blocked "control worktree does not resolve to its configured checkout"
  else
  branch ← _git_runtime state (st_control_worktree c) ["symbolic-ref"; "--quiet"; "--short"; "HEAD"];
  if failed branch || negb (strip (stdout branch) =? st_control_branch c)%string
  then blocked ("control worktree is not on configured branch " +:+ st_control_branch c)
  else mret tt.

(** [load_ticket_store(self.control_worktree, self._workflow_paths())] *)
Definition load_control_store : M TicketStore :=
  t ← ask gw_files;
  py_lift (load_ticket_store loads_yaml (checkout_of c t)).

Definition check_workflow_directories (t : tree) : res unit :=
  _ ← res_map (fun state =>
        ensure (path_is_dir t (below (st_paths c state))) WorkflowBlockedError
          ("managed workflow directory is unavailable: " +:+
           path_str (path_join (st_control_worktree c) (Path_of (st_paths c state))) +:+
           " (" +:+ state_name state +:+ ")")) _WORKFLOW_STATES;
  Ok tt.

Definition _ticket_store (state : dict) : M TicketStore :=
  _ ← _assert_repository_owner;
  shadowed ← ask (fun w => existsb (fun s => gw_exists w (path_join (st_repo c) (Path_of (st_paths c s))))
                             _WORKFLOW_STATES);
  if (shadowed : bool)
  then blocked ("configured managed workflow path exists in the product checkout; " +:+
                "canonical workflow belongs only to the control plane; resolve " +:+
                "the conflicting project path explicitly")
  else
  _ ← _validate_control_worktree state;
  t ← ask gw_files;
  _ ← py_lift (check_workflow_directories t);
  py_catch
    (py_catch load_control_store (is_class TicketError)
       (fun e => blocked (exn_msg e)))
    (is_class PyFileNotFoundError)
    (fun _ => blocked "managed workflow changed while it was being observed").

(** [_todo_fingerprint(self.control_worktree, self.todo_path)] *)
Definition control_todo_fingerprint : M string :=
  t ← ask gw_files;
  mret (fst (_todo_fingerprint (fingerprint_directory t (below (st_paths c Todo))))).
End Control.

(** * What the observations may run *)

Section ControlCommands.
Context {W : Type} `{GitWorld W, !EngineWorld W}.
Variable c : settings.
Context {P : event -> Prop}.

Lemma only_owner : only P _assert_repository_owner.
Proof. unfold _assert_repository_owner. only_auto. Qed.

Lemma only_interrupted p : only P (interrupted p).
Proof. unfold interrupted. only_auto. Qed.
Local Hint Resolve only_owner only_interrupted : commands.

Lemma only_interruption p : only P (_raise_on_shutdown_interruption p).
Proof. unfold _raise_on_shutdown_interruption. only_auto. Qed.
Local Hint Resolve only_interruption : commands.

Lemma only_git_runtime state dir args : P (Run dir args) -> only P (_git_runtime state dir args).
Proof. intros HP. unfold _git_runtime. only_auto. Qed.
Local Hint Resolve only_git_runtime : commands.

Lemma only_git_runtime_check state dir args :
  P (Run dir args) -> only P (_git_runtime_check state dir args).
Proof. intros HP. unfold _git_runtime_check. only_auto. Qed.
Local Hint Resolve only_git_runtime_check : commands.

Lemma only_todo_fingerprint : only P (control_todo_fingerprint c).
Proof. unfold control_todo_fingerprint. only_auto. Qed.

Hypothesis observers_allowed : forall e, observes e -> P e.
Local Hint Extern 1 (P (Run _ _)) => apply observers_allowed; reflexivity : commands.

Lemma only_validate_control state : only P (_validate_control_worktree c state).
Proof. unfold _validate_control_worktree, blocked. only_auto. Qed.
Local Hint Resolve only_validate_control : commands.

Lemma only_git_observation state dir branch : only P (_git_observation c state dir branch).
Proof. unfold _git_observation. only_auto. Qed.

Variable loads_yaml : string -> string + dict.

Lemma only_control_store : only P (load_control_store c loads_yaml).
Proof. unfold load_control_store. only_auto. Qed.
Local Hint Resolve only_control_store : commands.

Lemma only_ticket_store state : only P (_ticket_store c loads_yaml state).
Proof. unfold _ticket_store, blocked. only_auto. Qed.
End ControlCommands.
#[export] Hint Resolve only_owner only_interrupted only_interruption only_git_runtime
  only_git_runtime_check only_control_store only_todo_fingerprint only_validate_control
  only_git_observation only_ticket_store : commands.
