(* ===== verification/Integration.v ===== *)
(** Integration of accepted work, [src/devlegate/runtime.py]: the evidence of an
    accepted ticket, the fast-forward of the product branch, the transition of
    the ticket to [done] on the control branch, its observation after an
    interruption, and the synchronization of the control checkout. *)

From S2P Require Export Control.

Section Integration.
Context {W : Type} `{GitWorld W, !EngineWorld W}.
Variable c : settings.
Variable loads_yaml : string -> string + dict.

Abbreviation M := (py (logged W)).
Abbreviation repo := (st_repo c).
Abbreviation control := (st_control_worktree c).

(** * The evidence of an accepted ticket *)

(** [git log -1 --format=%H revision -- path] in the control worktree. *)
Definition last_change (revision file : string) : M CompletedProcess :=
  _git control ["log"; "-1"; "--format=%H"; revision; "--"; file].

(** The revision at which the ticket still is in the accepted directory. *)
Definition accepted_revision (ticket_id : string) : M string :=
  accepted_commit ← last_change "HEAD" (managed_file c Accepted ticket_id);
  if failed accepted_commit || (strip (stdout accepted_commit) =? "")%string
  then blocked "accepted ticket transition is unavailable"
  else
  let revision := strip (stdout accepted_commit) in
  present ← _git control ["cat-file"; "-e"; revision +:+ ":" +:+ managed_file c Accepted ticket_id];
  if negb (failed present) then mret revision else
  previous ← _git control ["rev-parse"; revision +:+ "^"];
  if failed previous
  then blocked "accepted ticket transition parent is unavailable"
  else mret (strip (stdout previous)).

(** Does the last change of the report before [parent] belong to the commit? *)
Definition admitted_by (ticket_id parent review_commit : string) (report : ExecutionReport) : M bool :=
  changed ← last_change parent ("executions/" +:+ ticket_id +:+ "/" +:+ rep_execution_id report +:+ ".json");
  mret (strip (stdout changed) =? review_commit)%string.

(** The report that ends at the execution branch, or that changed nothing. *)
Definition matches_branch (branch : string) (remote_head : option string) (report : ExecutionReport)
    : bool :=
  (rep_execution_branch report =? branch)%string &&
  match rep_workspace_head report with
  | Some head => bool_decide (remote_head = Some head) ||
                 is_missing remote_head && (head =? rep_code_base_head report)%string
  | None => false
  end.

(** [len(value) == 40 and all(c in "0123456789abcdef" for c in value.lower())] *)
Definition valid_report_heads (report : ExecutionReport) : bool :=
  forallb (fun v => _is_git_identity (PStr v))
    [default "" (rep_workspace_head report); rep_code_base_head report; rep_control_head report].

(** [ExecutionReportStore(control_worktree).list(ticket_id)], without failures. *)
Definition completed_reports (ticket_id : string) : M (list ExecutionReport) :=
  t ← ask gw_files;
  py_lift (catch (List.filter (fun r => negb (er_conclusion (rep_result r) =? "failed")%string) <$>
                    list_reports t (Some ticket_id))
             is_report_error
             (fun _ => raise WorkflowBlockedError
                         ("malformed execution evidence for accepted ticket " +:+ ticket_id))).

Definition _accepted_execution_report (ticket_id : string) : M ExecutionReport :=
  t ← ask gw_files;
  if negb (path_is_dir t (ticket_dir ticket_id)) || is_symlink t (ticket_dir ticket_id)
  then blocked ("accepted ticket " +:+ ticket_id +:+ " has no durable execution evidence")
  else
  reports ← completed_reports ticket_id;
  revision ← accepted_revision ticket_id;
  parent ← _git control ["rev-parse"; revision +:+ "^"];
  if failed parent
  then blocked "accepted ticket transition parent is unavailable"
  else
  let parent_head := strip (stdout parent) in
  review_commit ← last_change parent_head (managed_file c Review ticket_id);
  if failed review_commit || (strip (stdout review_commit) =? "")%string
  then blocked "review admission transition is unavailable"
  else
  reports ← py_filter (admitted_by ticket_id parent_head (strip (stdout review_commit))) reports;
  let expected_branch := "devlegate/work/" +:+ ticket_id in
  remote_head ← _execution_remote_head repo (st_remote_name c) expected_branch;
  match List.filter (matches_branch expected_branch remote_head) reports with
  | [report] =>
      if negb (valid_report_heads report)
      then blocked "accepted execution evidence has invalid Git identity"
      else mret report
  | _ => blocked ("accepted ticket " +:+ ticket_id +:+ " has ambiguous or missing completed " +:+
                  "execution evidence")
  end.

Definition _accepted_checkpoint (ticket_id : string) : M string :=
  report ← _accepted_execution_report ticket_id;
  match rep_workspace_head report with
  | Some checkpoint => mret checkpoint
  | None => py_raise PyAssertionError ""
  end.

(** * The transition on the control branch *)

Definition expected_changes (ticket_id : string) : list string :=
  ["D" +:+ String TAB "" +:+ managed_file c Accepted ticket_id;
   "A" +:+ String TAB "" +:+ managed_file c Done ticket_id].

(** Is the commit the move of the ticket from accepted to done, unchanged, on
    top of the expected parent? *)
Definition _accepted_integration_commit_is_exact (commit ticket_id expected_parent : string) : M bool :=
  parent ← _git control ["rev-parse"; commit +:+ "^"];
  if failed parent || negb (strip (stdout parent) =? expected_parent)%string then mret false else
  names ← _git control ["diff-tree"; "--no-commit-id"; "--name-status"; "--no-renames"; "-r"; commit];
  if failed names || negb (same_lines (stdout names) (expected_changes ticket_id)) then mret false else
  before ← _git control ["rev-parse"; strip (stdout parent) +:+ ":" +:+ managed_file c Accepted ticket_id];
  after ← _git control ["rev-parse"; commit +:+ ":" +:+ managed_file c Done ticket_id];
  mret (negb (failed before) && negb (failed after) &&
        (strip (stdout before) =? strip (stdout after))%string).

(** The tip of the control branch on the remote, when it can be observed. *)
Definition control_remote_tip : M (option string) :=
  remote ← _git control ["ls-remote"; st_remote_name c; "refs/heads/" +:+ st_control_branch c];
  mret (if failed remote then None else head (words (stdout remote))).

Definition _observe_accepted_control_integration (ticket_id expected_parent local_head : string)
    (remote_head : option string) : M (string * option string) :=
  let ambiguous := ("ambiguous", None) in
  if negb (_is_git_identity (PStr expected_parent)) || negb (_is_git_identity (PStr local_head))
  then mret ambiguous
  else
  observed ← match remote_head with Some h => mret (Some h) | None => control_remote_tip end;
  match observed with
  | None => mret ambiguous
  | Some remote_head =>
      if negb (_is_git_identity (PStr remote_head)) then mret ambiguous
      else if (remote_head =? expected_parent)%string
      then
        if (local_head =? expected_parent)%string then mret ("not_applied", None)
        else
          exact ← _accepted_integration_commit_is_exact local_head ticket_id expected_parent;
          mret (if (exact : bool) then ("local_exact_unpublished", Some local_head) else ambiguous)
      else
        lineage ← _git control ["rev-list"; "--reverse"; expected_parent +:+ ".." +:+ remote_head];
        if failed lineage then mret ambiguous else
        match splitlines (stdout lineage) with
        | [] => mret ambiguous
        | candidate :: _ =>
            exact ← _accepted_integration_commit_is_exact candidate ticket_id expected_parent;
            mret (if (exact : bool) then ("remote_exact_published", Some candidate) else ambiguous)
        end
  end.

(** [report.result.claim.summary], or the reason without a claim. *)
Definition report_summary (report : ExecutionReport) : string :=
  match er_claim (rep_result report) with
  | Some claim => cl_summary claim
  | None => er_reason (rep_result report)
  end.

Definition control_ref : string := "refs/heads/" +:+ st_control_branch c.

Definition push_control (commit : string) (alternative : string) : M unit :=
  push ← _git control ["push"; st_remote_name c; commit +:+ ":" +:+ control_ref];
  if failed push then py_raise DevlegateError (stderr_or push alternative) else mret tt.

(** The branch of [_complete_accepted] for a ticket that already is in done. *)
Definition resume_transition (ticket_id expected_head current : string) : M string :=
  first ← _observe_accepted_control_integration ticket_id expected_head current None;
  final ← match first with
          | (classification, Some commit) =>
              if (classification =? "local_exact_unpublished")%string
              then
                _ ← push_control commit "cannot publish accepted integration";
                _observe_accepted_control_integration ticket_id expected_head current None
              else mret first
          | _ => mret first
          end;
  if negb (fst final =? "remote_exact_published")%string
  then blocked "accepted integration control lineage is ambiguous"
  else match snd final with
  | Some _ => mret current
  | None => py_raise PyAssertionError ""
  end.

(** The branch for a ticket that still is in accepted. *)
Definition make_transition (ticket_id : string) (ticket : Ticket) (expected_head current : string) : M string :=
  report ← _accepted_execution_report ticket_id;
  if negb (current =? expected_head)%string
  then blocked "control HEAD changed during accepted integration"
  else
  _ ← in_control (rename (ticket_file c (tk_state ticket) (tk_id ticket))
                         (ticket_file c Done ticket_id));
  _ ← _git_check control ["add"; "-A"];
  commit ← _git control ["commit"; "-m";
             integration_message ticket_id (tk_title ticket) (rep_execution_id report)
               (report_summary report) (default "" (rep_workspace_head report))];
  if failed commit
  then py_raise DevlegateError (stderr_or commit "cannot create control transition")
  else
  head ← _git_check control ["rev-parse"; "HEAD"];
  let commit_head := strip (stdout head) in
  exact ← _accepted_integration_commit_is_exact commit_head ticket_id expected_head;
  if negb exact
  then blocked "created accepted integration commit is not exact"
  else
  _ ← push_control commit_head "cannot publish control transition";
  mret commit_head.

Definition _complete_accepted (ticket_id expected_head : string) : M string :=
  head ← _git_check control ["rev-parse"; "HEAD"];
  let current := strip (stdout head) in
  if negb (_is_git_identity (PStr expected_head))
  then blocked "accepted integration control identity is invalid"
  else
  store ← load_control_store c loads_yaml;
  match ts_by_id store !! ticket_id with
  | None => blocked "accepted ticket disappeared during integration"
  | Some ticket =>
      match tk_state ticket with
      | Done => resume_transition ticket_id expected_head current
      | Accepted => make_transition ticket_id ticket expected_head current
      | _ => blocked "accepted ticket changed during integration"
      end
  end.

(** * Execution branches *)

(** [_publish_execution_branch] *)
Definition _publish_execution_branch (workspace : ExecutionWorkspace) (checkpoint_head : string)
    (expected_remote_head : option string) : M unit :=
  let branch := ew_branch workspace in
  observed ← _git_check (ew_path workspace) ["rev-parse"; "HEAD"];
  if negb (strip (stdout observed) =? checkpoint_head)%string
  then engine_error "execution HEAD changed before branch publication"
  else
  observed_remote_head ← _execution_remote_head repo (st_remote_name c) branch;
  if negb (bool_decide (observed_remote_head = expected_remote_head))
  then engine_error "execution branch remote changed during worker execution"
  else
  _ ← match expected_remote_head with
      | None => mret tt
      | Some expected =>
          ancestor ← _git (ew_path workspace) ["merge-base"; "--is-ancestor"; expected; checkpoint_head];
          if failed ancestor
          then engine_error "execution predecessor is not an ancestor of checkpoint"
          else mret tt
      end;
  pushed ← _git (ew_path workspace)
             ["push"; "--force-with-lease=refs/heads/" +:+ branch +:+ ":" +:+ default "" expected_remote_head;
              st_remote_name c; checkpoint_head +:+ ":refs/heads/" +:+ branch];
  if negb (failed pushed) then mret tt else
  current ← _execution_remote_head repo (st_remote_name c) branch;
  if bool_decide (current = Some checkpoint_head) then mret tt
  else if bool_decide (current = expected_remote_head)
  then engine_error (stderr_or pushed "execution checkpoint publication failed")
  else engine_error "execution branch remote changed during publication".

(** The remote branch of an execution without changes. *)
Definition retire_zero_delta_remote (branch checkpoint : string) : M unit :=
  remote ← _execution_remote_head repo (st_remote_name c) branch;
  match remote with
  | None => mret tt
  | Some tip =>
      if negb (tip =? checkpoint)%string
      then blocked "zero-delta execution branch changed before retirement"
      else
      retired ← _git repo ["push"; "--force-with-lease=refs/heads/" +:+ branch +:+ ":" +:+ tip;
                           st_remote_name c; ":refs/heads/" +:+ branch];
      if negb (failed retired) then mret tt else
      remaining ← _execution_remote_head repo (st_remote_name c) branch;
      match remaining with
      | None => mret tt
      | Some _ => blocked (stderr_or retired "cannot retire zero-delta execution branch")
      end
  end.

(** Its worktree. *)
Definition retire_zero_delta_worktree (manager : ExecutionWorkspaceManager) (checkpoint : string)
    : M unit :=
  registrations ← _registrations manager;
  expected ← ask (fun w => gw_resolve w (mg_path manager));
  match registration_at expected registrations with
  | Some registration =>
      py_catch
        (workspace ← _validate_existing manager (Some registration) checkpoint;
         retire (st_recursion_limit c) manager workspace checkpoint)
        (fun e => is_workspace_error e || is_os_error e)
        (fun e => blocked ("cannot retire zero-delta execution: " +:+ exn_msg e))
  | None =>
      present ← ask (fun w => gw_exists w (mg_path manager));
      if present || bool_decide (is_Some (branch_path (mg_branch manager) registrations))
      then blocked "zero-delta execution workspace topology is ambiguous"
      else mret tt
  end.

(** Its local branch. *)
Definition retire_zero_delta_branch (branch checkpoint : string) : M unit :=
  local ← rev_parse repo ("refs/heads/" +:+ branch);
  if failed local then mret tt
  else if negb (strip (stdout local) =? checkpoint)%string
  then blocked "zero-delta execution branch changed before retirement"
  else
  removed ← _git repo ["branch"; "-D"; branch];
  if failed removed
  then blocked (stderr_or removed "cannot retire zero-delta execution branch")
  else mret tt.

Definition _retire_zero_delta_execution (report : ExecutionReport) : M unit :=
  if negb (bool_decide (rep_workspace_head report = Some (rep_code_base_head report)))
  then blocked "zero-delta execution checkpoint is not its base"
  else
  let checkpoint := rep_code_base_head report in
  manager ← new_manager repo (st_execution_worktree_root c) (rep_ticket_id report);
  _ ← retire_zero_delta_remote (rep_execution_branch report) checkpoint;
  _ ← retire_zero_delta_worktree manager checkpoint;
  retire_zero_delta_branch (rep_execution_branch report) checkpoint.

(** * The product branch *)

Definition product_ref : string := "refs/heads/" +:+ st_remote_branch c.

(** The local function [is_ancestor]. *)
Definition is_ancestor (older newer : string) : M bool :=
  r ← _git repo ["merge-base"; "--is-ancestor"; older; newer];
  mret (returncode r =? 0)%Z.

Definition contains_checkpoint (checkpoint head : string) : M bool :=
  if (head =? checkpoint)%string then mret true else is_ancestor checkpoint head.

(** The observed head of the product branch on the remote. *)
Definition observe_product_branch : M string :=
  observed ← _git repo ["ls-remote"; st_remote_name c; product_ref];
  if failed observed
  then engine_error (stderr_or observed "cannot observe product branch")
  else match words (stdout observed) with
  | [] => blocked "configured product branch is unavailable"
  | product_head :: _ => mret product_head
  end.

(** The remote product branch is fast-forwarded to the checkpoint, unless it
    has it, and observed again. *)
Definition publish_product (checkpoint product_head : string) : M unit :=
  contained ← contains_checkpoint checkpoint product_head;
  _ ← (if (contained : bool) then mret tt
       else
       forward ← is_ancestor product_head checkpoint;
       if negb forward
       then blocked ("product history diverged from accepted checkpoint; rebase or merge " +:+
                     "is not performed")
       else
       pushed ← _git repo ["push"; st_remote_name c; checkpoint +:+ ":" +:+ product_ref];
       if failed pushed
       then engine_error (stderr_or pushed "product fast-forward push failed")
       else mret tt);
  reobserved ← _git repo ["ls-remote"; st_remote_name c; product_ref];
  match (if failed reobserved then None else head (words (stdout reobserved))) with
  | None => blocked "published product checkpoint could not be proven"
  | Some tip =>
      proven ← contains_checkpoint checkpoint tip;
      if (proven : bool) then mret tt
      else blocked "published product checkpoint could not be proven"
  end.

(** The product checkout is clean, and fast-forwarded when it is elsewhere. *)
Definition synchronize_product (checkpoint : string) : M unit :=
  current ← _git repo ["rev-parse"; "HEAD"];
  status ← _git repo ["status"; "--porcelain"];
  if failed current || failed status || negb (stdout status =? "")%string
  then blocked "product checkout is not safely synchronized"
  else if (strip (stdout current) =? checkpoint)%string then mret tt
  else
  fetch ← _git repo ["fetch"; st_remote_name c; st_remote_branch c];
  if failed fetch then blocked "cannot refresh published product branch" else
  sync ← _git repo ["merge"; "--ff-only"; st_remote_name c +:+ "/" +:+ st_remote_branch c];
  if failed sync then blocked "product checkout cannot be fast-forwarded safely" else mret tt.

(** The control revision the pending integration was bound to, or the current. *)
Definition expected_control_head (state : dict) (control : GitObservation) : pyval :=
  match get state "accepted_integration" with
  | PDict pending => get pending "control_head"
  | _ => PStr (go_local_head control)
  end.

Definition _integrate_accepted (state : dict) (ticket_id : string)
    (code control : option GitObservation) : M string :=
  match code, control with
  | Some code, Some control =>
      _ ← _validate_control_worktree c state;
      if negb (go_working_tree_clean code) || negb (go_working_tree_clean control)
      then blocked "product or control working tree is dirty"
      else
      report ← _accepted_execution_report ticket_id;
      match rep_workspace_head report with
      | None => py_raise PyAssertionError ""
      | Some checkpoint =>
          product_head ← observe_product_branch;
          if (checkpoint =? rep_code_base_head report)%string
          then
            if negb (product_head =? rep_code_base_head report)%string
            then blocked "zero-delta accepted result is stale or product history changed"
            else
            _ ← _retire_zero_delta_execution report;
            _complete_accepted ticket_id (go_local_head control)
          else
          _ ← publish_product checkpoint product_head;
          _ ← synchronize_product checkpoint;
          match expected_control_head state control with
          | PStr expected_head =>
              if negb (_is_git_identity (PStr expected_head))
              then blocked "accepted integration control identity is invalid"
              else _complete_accepted ticket_id expected_head
          | _ => blocked "accepted integration control identity is invalid"
          end
      end
  | _, _ => blocked "accepted integration lacks Git observations"
  end.

(** * Synchronization of the control checkout *)

Definition _sync_control (state : dict) : M (string * string) :=
  _ ← _validate_control_worktree c state;
  observation ← _git_observation c state control (st_control_branch c);
  if negb (go_working_tree_clean observation) then blocked "control working tree is dirty" else
  fetch ← _git_runtime state control ["fetch"; "--prune"; st_remote_name c; st_control_branch c];
  if failed fetch
  then blocked ("control fetch failed: " +:+ stderr_or fetch "unknown git error")
  else
  let remote_ref := st_remote_name c +:+ "/" +:+ st_control_branch c in
  remote ← _git_runtime state control ["rev-parse"; "--verify"; remote_ref];
  if failed remote then blocked ("control remote branch not found: " +:+ remote_ref) else
  let remote_head := strip (stdout remote) in
  local ← _git_runtime_check state control ["rev-parse"; "HEAD"];
  let local_head := strip (stdout local) in
  if (local_head =? remote_head)%string then mret (local_head, remote_head) else
  ancestor ← _git_runtime state control ["merge-base"; "--is-ancestor"; local_head; remote_head];
  if failed ancestor
  then
    match get state "accepted_integration" with
    | PDict pending =>
        ticket_id ← py_lift (getitem pending "ticket_id");
        control_head ← py_lift (getitem pending "control_head");
        '(classification, _) ← _observe_accepted_control_integration (py_str ticket_id)
                                 (py_str control_head) local_head (Some remote_head);
        if (classification =? "local_exact_unpublished")%string then mret (local_head, remote_head)
        else blocked "accepted integration control lineage is ambiguous"
    | _ => blocked "control branch cannot be fast-forwarded; histories diverged"
    end
  else
  merge ← _git_runtime state control ["merge"; "--ff-only"; remote_ref];
  if failed merge then blocked ("control fast-forward failed: " +:+ strip (stderr merge)) else
  updated ← _git_runtime_check state control ["rev-parse"; "HEAD"];
  mret (strip (stdout updated), remote_head).
End Integration.
