(* ===== verification/Lifecycle.v ===== *)
(** Publication of an execution's result on the control branch,
    [src/devlegate/runtime.py] from [_control_report_at] to
    [_persist_historical_execution_report]: the commit that adds the report and
    moves the ticket to review, its recognition in the local and the published
    history, the proof that the active ticket is the admitted one, and the
    attempts that replay it on a control branch others move. *)

From S2P Require Export Integration.

Section Lifecycle.
Context {W : Type} `{GitWorld W, !EngineWorld W}.
Variable c : settings.
Variable loads_yaml : string -> string + dict.
(** The random names of the report's and the artifact's temporary files. *)
Variables (randoms_md randoms_json : list string).

Abbreviation M := (py (logged W)).
Abbreviation control := (st_control_worktree c).

(** * The binding of a report *)

Definition _report_matches_execution_state (state : dict) (report : ExecutionReport) : M unit :=
  _ ← py_lift (_report_matches_execution_binding state report);
  match rep_workspace_head report with
  | None | Some "" => blocked "execution checkpoint identity is missing"
  | Some head =>
      observed ← _execution_remote_head (st_repo c) (st_remote_name c) (rep_execution_branch report);
      if negb (bool_decide (observed = Some head))
      then blocked "published execution checkpoint does not match the execution branch"
      else mret tt
  end.

(** * Recognition of the lifecycle commit *)

Definition report_path (report : ExecutionReport) : string :=
  "executions/" +:+ rep_ticket_id report +:+ "/" +:+ rep_execution_id report +:+ ".json".

(** [git show commit:file] *)
Definition show_file (commit file : string) : M CompletedProcess :=
  _git control ["show"; commit +:+ ":" +:+ file].

Definition _control_report_at (commit : string) (report : ExecutionReport) : M (option ExecutionReport) :=
  shown ← show_file commit (report_path report);
  if failed shown then mret None else
  match loads (stdout shown) with
  | None => mret None
  | Some value =>
      recovered ← py_lift (catch (Some <$> from_dict value) is_report_error (fun _ => Ok None));
      mret match recovered with
           | Some r => if py_eq (as_dict r) (as_dict report) then Some r else None
           | None => None
           end
  end.

(** [apply_conclusion and report.result.conclusion != "failed"] *)
Definition moves_ticket (apply_conclusion : bool) (report : ExecutionReport) : bool :=
  apply_conclusion && negb (er_conclusion (rep_result report) =? "failed")%string.

Definition lifecycle_changes (apply_conclusion : bool) (report : ExecutionReport) : list string :=
  ["A" +:+ String TAB "" +:+ report_path report] ++
  match rep_report_artifact report with
  | Some artifact => ["A" +:+ String TAB "" +:+ artifact]
  | None => []
  end ++
  (if moves_ticket apply_conclusion report
   then ["D" +:+ String TAB "" +:+ managed_file c Todo (rep_ticket_id report);
         "A" +:+ String TAB "" +:+ managed_file c Review (rep_ticket_id report)]
   else []).

(** The artifact's bytes are the claim's long report. *)
Definition artifact_is_exact (commit : string) (report : ExecutionReport) : M bool :=
  match rep_report_artifact report with
  | None => mret true
  | Some artifact =>
      bytes ← show_file commit artifact;
      mret (negb (failed bytes) &&
            match er_claim (rep_result report) with
            | Some claim => bool_decide (Some (stdout bytes) = cl_report claim)
            | None => false
            end)
  end.

(** The ticket's object is the same in todo before and in review after. *)
Definition ticket_is_moved (commit parent_head : string) (report : ExecutionReport) : M bool :=
  parent_blob ← _git control ["rev-parse"; parent_head +:+ ":" +:+ managed_file c Todo (rep_ticket_id report)];
  review_blob ← _git control ["rev-parse"; commit +:+ ":" +:+ managed_file c Review (rep_ticket_id report)];
  mret (negb (failed parent_blob) && negb (failed review_blob) &&
        (strip (stdout parent_blob) =? strip (stdout review_blob))%string).

(** [git rev-list --reverse parent..commit] lists exactly the commit. *)
Definition single_lineage (parent_head commit : string) : M bool :=
  lineage ← _git control ["rev-list"; "--reverse"; parent_head +:+ ".." +:+ commit];
  mret (negb (failed lineage) && bool_decide (splitlines (stdout lineage) = [commit])).

Definition _lifecycle_commit_is_exact (commit : string) (report : ExecutionReport)
    (apply_conclusion : bool) : M bool :=
  parent ← _git control ["rev-parse"; commit +:+ "^"];
  if failed parent then mret false else
  let parent_head := strip (stdout parent) in
  alone ← single_lineage parent_head commit;
  if negb alone then mret false else
  ancestor ← _git control ["merge-base"; "--is-ancestor"; rep_control_head report; parent_head];
  if failed ancestor then mret false else
  recovered ← _control_report_at commit report;
  if is_missing recovered then mret false else
  names ← _git control ["diff-tree"; "--no-commit-id"; "--name-status"; "--no-renames"; "-r"; commit];
  if failed names || negb (same_lines (stdout names) (lifecycle_changes apply_conclusion report))
  then mret false else
  report_bytes ← show_file commit (report_path report);
  if failed report_bytes || negb (stdout report_bytes =? to_json report)%string then mret false else
  artifact ← artifact_is_exact commit report;
  if negb artifact then mret false
  else if moves_ticket apply_conclusion report then ticket_is_moved commit parent_head report
  else mret true.

Definition _prove_unpublished_lifecycle_lineage (commit remote_head : string) (report : ExecutionReport)
    (apply_conclusion : bool) : M unit :=
  parent ← _git control ["rev-parse"; commit +:+ "^"];
  if failed parent then blocked "unpublished lifecycle parent is unavailable" else
  let parent_head := strip (stdout parent) in
  parent_remote ← _git control ["merge-base"; "--is-ancestor"; parent_head; remote_head];
  if failed parent_remote
  then blocked "unpublished lifecycle parent is not on the fresh remote lineage"
  else
  alone ← single_lineage parent_head commit;
  if negb alone then blocked "unpublished control history contains more than one commit" else
  exact ← _lifecycle_commit_is_exact commit report apply_conclusion;
  if negb exact then blocked "unpublished control commit is not the exact lifecycle mutation"
  else mret tt.

(** The first of the commits that is exact. *)
Fixpoint first_exact (commits : list string) (report : ExecutionReport) (apply_conclusion : bool)
    : M (option string) :=
  match commits with
  | [] => mret None
  | commit :: rest =>
      exact ← _lifecycle_commit_is_exact commit report apply_conclusion;
      if (exact : bool) then mret (Some commit) else first_exact rest report apply_conclusion
  end.

Definition _remote_lifecycle_commit (remote_head : string) (report : ExecutionReport)
    (apply_conclusion : bool) : M (option string) :=
  history ← _git control ["log"; "--format=%H"; remote_head; "--"; report_path report];
  if failed history then mret None
  else first_exact (splitlines (stdout history)) report apply_conclusion.

(** * The active ticket is the admitted one *)

(** The text after the second delimiter line, when there is one. *)
Definition body_after_delimiters (text : string) : option string :=
  let lines := splitlines_keepends text in
  match find_index is_delimiter lines with
  | None => None
  | Some first =>
      match find_index is_delimiter (drop (S first) lines) with
      | None => None
      | Some second => Some (of_chars (drop (S first + S second) lines))
      end
  end.

Definition _prove_bound_ticket_descendant (candidate control_head ticket_id selected_body : string)
    : M unit :=
  ancestor ← _git control ["merge-base"; "--is-ancestor"; control_head; candidate];
  if failed ancestor
  then blocked "control history diverged from the execution admission generation"
  else
  original ← show_file control_head (managed_file c Todo ticket_id);
  current ← show_file candidate (managed_file c Todo ticket_id);
  if failed original || failed current || negb (stdout original =? stdout current)%string
  then blocked "control descendant changed the active ticket; lifecycle replay refused"
  else
  match body_after_delimiters (stdout original) with
  | None => blocked "active ticket admission evidence is invalid"
  | Some original_body =>
      if negb (selected_body =? original_body)%string
      then blocked "persisted active ticket body does not match admission"
      else mret tt
  end.

Definition _prove_control_descendant (state : dict) (candidate : string) (report : ExecutionReport)
    : M unit :=
  _prove_bound_ticket_descendant candidate (rep_control_head report) (rep_ticket_id report)
    (py_str (get_or state "selected_ticket_body" (PStr ""))).

(** * The commit *)

(** Another ticket is in review or accepted. *)
Definition serial_conflict (store : TicketStore) (ticket : Ticket) : bool :=
  existsb (fun item => is_boundary item && negb (tk_id item =? tk_id ticket)%string) (ts_tickets store).

Definition move_to_review (ticket : Ticket) : M unit :=
  let review := ticket_file c Review (tk_id ticket) in
  t ← ask gw_files;
  if path_exists t review || is_symlink t review
  then blocked "review ticket already exists"
  else in_control (rename (ticket_file c (tk_state ticket) (tk_id ticket)) review).

Definition _apply_lifecycle_once (state : dict) (report : ExecutionReport) (apply_conclusion : bool)
    : M string :=
  ticket_store ← _ticket_store c loads_yaml state;
  match ts_by_id ticket_store !! rep_ticket_id report with
  | None => blocked "execution ticket is not in its expected todo state"
  | Some ticket =>
      if negb (is_state (tk_state ticket) Todo)
      then blocked "execution ticket is not in its expected todo state"
      else if moves_ticket apply_conclusion report && serial_conflict ticket_store ticket
      then blocked "review/accepted serial boundary conflicts with lifecycle replay"
      else
      _ ← in_control (write randoms_md randoms_json report);
      _ ← (if moves_ticket apply_conclusion report then move_to_review ticket else mret tt);
      _ ← py_catch (load_control_store c loads_yaml) (is_class TicketError)
            (fun e => blocked ("resulting ticket store is invalid: " +:+ exn_msg e));
      _ ← _git_check control ["add"; "-A"];
      committed ← _git control ["commit"; "-m";
        lifecycle_message (rep_ticket_id report) (tk_title ticket) (rep_execution_id report)
          (er_conclusion (rep_result report)) (report_summary report)];
      if failed committed
      then engine_error (stderr_or committed "cannot create control-plane commit")
      else
      head ← _git_check control ["rev-parse"; "HEAD"];
      mret (strip (stdout head))
  end.

(** * Attempts to publish it *)

(** A clean worktree, and the freshly fetched head of the control branch. *)
Definition fetch_control : M string :=
  status ← _git_check control ["status"; "--porcelain"];
  if negb (stdout status =? "")%string then blocked "control working tree is dirty" else
  fetched ← _git control ["fetch"; "--prune"; st_remote_name c; st_control_branch c];
  if failed fetched
  then blocked ("cannot freshly observe control remote before lifecycle: " +:+
                stderr_or fetched "unknown git error")
  else
  remote_result ← _git control ["rev-parse"; "--verify"; st_remote_name c +:+ "/" +:+ st_control_branch c];
  if failed remote_result then blocked "control remote branch is unavailable"
  else mret (strip (stdout remote_result)).

Definition fast_forward (error : string) : M unit :=
  merge ← _git control ["merge"; "--ff-only"; st_remote_name c +:+ "/" +:+ st_control_branch c];
  if failed merge then blocked error else mret tt.

(** The lifecycle commit is published already. *)
Definition adopt_published (state : dict) (report : ExecutionReport)
    (existing local_head remote_head : string) : M string :=
  parent ← _git control ["rev-parse"; existing +:+ "^"];
  if failed parent then blocked "published lifecycle parent is unavailable" else
  _ ← _prove_control_descendant state (strip (stdout parent)) report;
  _ ← (if (local_head =? remote_head)%string then mret tt
       else
       relation ← _git control ["merge-base"; "--is-ancestor"; local_head; remote_head];
       if failed relation
       then blocked "local control history diverges from published lifecycle"
       else fast_forward "cannot fast-forward control worktree");
  head ← _git_check control ["rev-parse"; "HEAD"];
  mret (strip (stdout head)).

(** The worktree is brought to a descendant of the admission that still has the
    active ticket; a local commit is given up only when it is this mutation. *)
Definition reach_descendant (state : dict) (report : ExecutionReport) (apply_conclusion : bool)
    (local_head remote_head : string) : M unit :=
  if negb (local_head =? rep_control_head report)%string
  then
    admitted_local ← _git control ["merge-base"; "--is-ancestor"; rep_control_head report; local_head];
    local_remote ← _git control ["merge-base"; "--is-ancestor"; local_head; remote_head];
    _ ← (if negb (failed admitted_local) && negb (failed local_remote)
         then _prove_control_descendant state remote_head report
         else
         _ ← _prove_unpublished_lifecycle_lineage local_head remote_head report apply_conclusion;
         _ ← _prove_control_descendant state remote_head report;
         reset ← _git control ["reset"; "--hard"; remote_head];
         if failed reset then blocked "cannot replay lifecycle on control descendant" else mret tt);
    if negb (failed local_remote) && negb (local_head =? remote_head)%string
    then fast_forward "cannot fast-forward control descendant"
    else mret tt
  else if negb (remote_head =? rep_control_head report)%string
  then
    _ ← _prove_control_descendant state remote_head report;
    fast_forward "cannot fast-forward control descendant"
  else _prove_control_descendant state (rep_control_head report) report.

(** One iteration of the loop: the head it publishes, or [None] when the push
    raced with another. *)
Definition lifecycle_attempt (state : dict) (report : ExecutionReport) (apply_conclusion : bool)
    : M (option string) :=
  remote_head ← fetch_control;
  local ← _git_check control ["rev-parse"; "HEAD"];
  let local_head := strip (stdout local) in
  existing ← _remote_lifecycle_commit remote_head report apply_conclusion;
  match existing with
  | Some existing =>
      head ← adopt_published state report existing local_head remote_head;
      mret (Some head)
  | None =>
      _ ← reach_descendant state report apply_conclusion local_head remote_head;
      lifecycle_head ← _apply_lifecycle_once state report apply_conclusion;
      pushed ← _git control ["push"; st_remote_name c; "HEAD:refs/heads/" +:+ st_control_branch c];
      mret (if failed pushed then None else Some lifecycle_head)
  end.

(** [for _attempt in range(n)] *)
Fixpoint lifecycle_attempts (n : nat) (state : dict) (report : ExecutionReport)
    (apply_conclusion : bool) : M string :=
  match n with
  | O => blocked "control lifecycle reconciliation retry bound exceeded"
  | S n =>
      published ← lifecycle_attempt state report apply_conclusion;
      match published with
      | Some head => mret head
      | None => lifecycle_attempts n state report apply_conclusion
      end
  end.

Definition _apply_execution_lifecycle (state : dict) (report : ExecutionReport)
    (allow_unpublished apply_conclusion : bool) : M string :=
  _ ← (if allow_unpublished
       then
         _ ← py_lift (_report_matches_execution_binding state report);
         match rep_workspace_head report with
         | None | Some "" => blocked "execution checkpoint identity is missing"
         | Some _ => mret tt
         end
       else _report_matches_execution_state state report);
  _ ← _validate_control_worktree c state;
  lifecycle_attempts 3 state report apply_conclusion.

Definition _persist_historical_execution_report (state : dict) (report : ExecutionReport) : M string :=
  _apply_execution_lifecycle state report true false.
End Lifecycle.
