(* ===== verification/History.v ===== *)
(** A program logic for computations that run Git: which worlds a run passes
    through, which commands it may issue in the light of them, and what its
    result says.  With it, the history of the control branch and of the product
    branch as Git documents its answers about them. *)

From S2P Require Export Integration.

(** * Worlds that follow each other *)

Section Evolution.
Context {W : Type} `{GitWorld W}.

Inductive env_step : W -> W -> Prop :=
  | env_run repo args w : env_step w (snd (gw_run repo args w))
  | env_input repo args text w : env_step w (snd (gw_run_input repo args text w))
  | env_mkdir p w : env_step w (snd (gw_mkdir p w))
  | env_edit t w : env_step w (gw_edit t w).

Definition evolves : relation W := rtc env_step.

#[export] Instance evolves_preorder : PreOrder evolves.
Proof. apply _. Qed.

(** [F] holds at some moment between the two worlds. *)
Definition during (w w' : W) (F : W -> Prop) : Prop :=
  exists w1, evolves w w1 /\ evolves w1 w' /\ F w1.

(** A fact that no command undoes. *)
Definition lasting (F : W -> Prop) : Prop := forall w w', evolves w w' -> F w -> F w'.

Lemma keeps_lasting F : keeps (fun _ => True) F -> lasting F.
Proof.
  intros (H1 & H2 & H3 & H4) w w'. induction 1 as [|w w1 w2 Hs _ IH]; [done|].
  intros HF. apply IH. destruct Hs; eauto.
Qed.

Lemma during_here w w' (F : W -> Prop) : evolves w w' -> F w' -> during w w' F.
Proof. intros He HF. exists w'. split_and!; [done|apply rtc_refl|done]. Qed.

Lemma during_wider w0 w w' w1 (F : W -> Prop) :
  evolves w0 w -> evolves w' w1 -> during w w' F -> during w0 w1 F.
Proof.
  intros H0 H1 (v & Ha & Hb & HF). exists v. split_and!; [by etrans|by etrans|done].
Qed.

Lemma only_evolves {A} P (m : py (logged W) A) s :
  only P m -> evolves (lg_world s) (lg_world (snd (m s))).
Proof.
  intros Hm. destruct (Hm s) as [_ Hk]. apply (Hk (evolves (lg_world s))); [|reflexivity].
  split_and!; intros; (etrans; [eassumption|]); apply rtc_once; constructor.
Qed.
End Evolution.

(** * Runs that stay within what is allowed *)

Section Safety.
Context {W : Type} `{GitWorld W}.
(** What a run may do that ends in the world. *)
Variable allowed : W -> event -> Prop.

Class Allowance : Prop := allowed_later : forall w w' e,
  evolves w w' -> allowed w e -> allowed w' e.

Definition safe {A} (s : logged W) (m : py (logged W) A) (Post : A -> W -> Prop) : Prop :=
  evolves (lg_world s) (lg_world (snd (m s))) /\
  (exists new, lg_events (snd (m s)) = lg_events s ++ new /\
     Forall (allowed (lg_world (snd (m s)))) new) /\
  (forall a, fst (m s) = Ok a -> Post a (lg_world (snd (m s)))).

Context `{!Allowance}.

Lemma safe_result {A} (r : res A) s (Post : A -> W -> Prop) :
  (forall a, r = Ok a -> Post a (lg_world s)) -> safe s (py_lift r) Post.
Proof.
  intros HP. split; [apply rtc_refl|]. split; [|exact HP]. exists []. by rewrite app_nil_r.
Qed.

Lemma safe_ret {A} (a : A) s (Post : A -> W -> Prop) : Post a (lg_world s) -> safe s (mret a) Post.
Proof. intros HP. apply (safe_result (Ok a)). by intros ? [= <-]. Qed.

Lemma safe_raise {A} k msg s (Post : A -> W -> Prop) : safe s (py_raise k msg) Post.
Proof. by apply (safe_result (Raise (Exn k msg))). Qed.

(** Observations and pure steps leave the state. *)
Lemma safe_ask_bind {A B} (g : W -> A) (f : A -> py (logged W) B) s Post :
  safe s (f (g (lg_world s))) Post -> safe s (ask g ≫= f) Post.
Proof. exact id. Qed.

Lemma safe_lift_bind {A B} (r : res A) (f : A -> py (logged W) B) s (Post : B -> W -> Prop) :
  (forall a, r = Ok a -> safe s (f a) Post) -> safe s (py_lift r ≫= f) Post.
Proof.
  intros Hf. destruct r as [a|e]; [exact (Hf a eq_refl)|].
  split; [apply rtc_refl|]. split; [exists []; by rewrite app_nil_r | done].
Qed.

Lemma safe_then (s s1 s2 : logged W) new1 :
  evolves (lg_world s1) (lg_world s2) ->
  lg_events s1 = lg_events s ++ new1 -> Forall (allowed (lg_world s1)) new1 ->
  (exists new2, lg_events s2 = lg_events s1 ++ new2 /\ Forall (allowed (lg_world s2)) new2) ->
  exists new, lg_events s2 = lg_events s ++ new /\ Forall (allowed (lg_world s2)) new.
Proof.
  intros H2 He1 F1 (new2 & He2 & F2). exists (new1 ++ new2). rewrite He2, He1, app_assoc.
  split; [done|]. apply Forall_app. split; [|done].
  eapply Forall_impl; [exact F1|]. intros e. by apply allowed_later.
Qed.

Lemma safe_bind {A B} (m : py (logged W) A) (f : A -> py (logged W) B) s P1 Post :
  safe s m P1 ->
  (forall a s1, evolves (lg_world s) (lg_world s1) -> P1 a (lg_world s1) -> safe s1 (f a) Post) ->
  safe s (m ≫= f) Post.
Proof.
  intros (Hv & (new1 & Hl1 & F1) & HP) Hf. unfold safe. rewrite py_bind_run.
  destruct (m s) as [[a|e] s1]; cbn in *.
  - destruct (Hf a s1 Hv (HP a eq_refl)) as (Hv2 & Hl2 & HP2). split_and!; [by etrans| |done].
    by eapply safe_then.
  - split_and!; [done| |done]. by exists new1.
Qed.

Lemma safe_catch {A} (m : py (logged W) A) p h s P1 Post :
  safe s m P1 -> (forall a w, evolves (lg_world s) w -> P1 a w -> Post a w) ->
  (forall e s1, evolves (lg_world s) (lg_world s1) -> safe s1 (h e) Post) ->
  safe s (py_catch m p h) Post.
Proof.
  intros (Hv & (new1 & Hl1 & F1) & HP) Ha Hh. unfold safe, py_catch.
  destruct (m s) as [[a|e] s1]; cbn in *.
  - split_and!; [done|by exists new1|]. intros a' [= <-]. by apply Ha, HP.
  - destruct (p e); cbn.
    + destruct (Hh e s1 Hv) as (Hv2 & Hl2 & HP2). split_and!; [by etrans| |done].
      by eapply safe_then.
    + split_and!; [done|by exists new1|done].
Qed.

Lemma safe_weaken {A} (m : py (logged W) A) s (P1 Post : A -> W -> Prop) :
  safe s m P1 -> (forall a w, evolves (lg_world s) w -> P1 a w -> Post a w) -> safe s m Post.
Proof. intros (Hv & Hl & HP) Hw. split_and!; [done..|]. intros a Ha. by apply Hw, HP. Qed.

Lemma safe_git repo args s :
  (forall w', evolves (lg_world s) w' -> allowed w' (Run repo args)) ->
  safe s (_git repo args) (fun p w => gw_run repo args (lg_world s) = (Ok p, w)).
Proof.
  intros Ha. unfold safe, _git. destruct (gw_run repo args (lg_world s)) as [r w] eqn:E. cbn.
  assert (Hv : evolves (lg_world s) w).
  { apply rtc_once. assert (w = snd (gw_run repo args (lg_world s))) as -> by by rewrite E. constructor. }
  split_and!; [done| |by intros a ->].
  exists [Run repo args]. split; [done|]. constructor; [by apply Ha|constructor].
Qed.

Lemma safe_check repo args s :
  (forall w', evolves (lg_world s) w' -> allowed w' (Run repo args)) ->
  safe s (_git_check repo args)
    (fun p w => gw_run repo args (lg_world s) = (Ok p, w) /\ failed p = false).
Proof.
  intros Ha. eapply safe_bind; [by apply safe_git|]. intros p s1 Hv Hr. cbn in Hr.
  destruct (failed p) eqn:Hf; [apply safe_raise|]. by apply safe_ret.
Qed.

Lemma safe_filter {A} (p : A -> py (logged W) bool) l s :
  (forall x s1, safe s1 (p x) (fun _ _ => True)) ->
  safe s (py_filter p l) (fun l' _ => forall x, x ∈ l' -> x ∈ l).
Proof.
  intros Hp. revert s. induction l as [|x l IH]; intros s; cbn [py_filter]; [by apply safe_ret|].
  eapply safe_bind; [apply Hp|]. intros b s1 _ _.
  eapply safe_bind; [apply IH|]. cbn beta. intros xs s2 _ Hxs. apply safe_ret.
  intros y Hy. destruct b; [|right; by apply Hxs].
  apply elem_of_cons in Hy as [->|Hy]; [by left | right; by apply Hxs].
Qed.

Lemma safe_only {A} P (m : py (logged W) A) s :
  only P m -> (forall e w', evolves (lg_world s) w' -> P e -> allowed w' e) ->
  safe s m (fun _ _ => True).
Proof.
  intros Hm Ha. pose proof (only_evolves P m s Hm) as Hv. split_and!; [done| |done].
  destruct (Hm s) as [(new & Hl & Hf) _]. exists new. split; [done|].
  eapply Forall_impl; [exact Hf|]. intros e. by apply Ha.
Qed.
End Safety.

(** One step through a monadic definition, towards [True]. *)
#[export] Hint Resolve safe_ret safe_raise : runs.

(** * What Git documents about the histories *)

(** A commit of the control repository: its parents, what [diff-tree] lists for
    it, and the objects and the texts at its paths. *)
Record commit_data : Type := mkCommit {
  cd_parents : list string;
  cd_changes : list string;
  cd_blob : string -> option string;
  cd_text : string -> option string
}.

Abbreviation identity x := (_is_git_identity (PStr x) = true).

(** [x] is [b] or an ancestor of it. *)
Definition within (commits : string -> option commit_data) : relation string :=
  rtc (fun a b => exists d, commits b = Some d /\ a ∈ cd_parents d).

(** The commits of the control repository, which stay, the head of the control
    worktree, the tip of the control branch on the remote, which others move too,
    and the revisions the remote branch was fetched at.  A successful answer tells
    the truth; Git need not answer. *)
Class ControlHistory (W : Type) `{GitWorld W} (c : settings) : Type := {
  ch_commit : W -> string -> option commit_data;
  ch_head : W -> string;
  ch_tip : W -> option string;
  ch_tracked : W -> string -> Prop;
  ch_stays : forall x d, keeps (fun _ => True) (fun w => ch_commit w x = Some d);
  ch_parent_read : forall x w p w',
    gw_run (st_control_worktree c) ["rev-parse"; x +:+ "^"] w = (Ok p, w') ->
    identity x -> failed p = false ->
    identity (strip (stdout p)) /\
    exists d, ch_commit w' x = Some d /\ head (cd_parents d) = Some (strip (stdout p));
  ch_changes_read : forall x w p w',
    gw_run (st_control_worktree c)
      ["diff-tree"; "--no-commit-id"; "--name-status"; "--no-renames"; "-r"; x] w = (Ok p, w') ->
    identity x -> failed p = false ->
    exists d, ch_commit w' x = Some d /\ splitlines (stdout p) = cd_changes d;
  ch_blob_read : forall x file w p w',
    gw_run (st_control_worktree c) ["rev-parse"; x +:+ ":" +:+ file] w = (Ok p, w') ->
    identity x -> failed p = false ->
    exists d, ch_commit w' x = Some d /\ cd_blob d file = Some (strip (stdout p));
  ch_text_read : forall x file w p w',
    gw_run (st_control_worktree c) ["show"; x +:+ ":" +:+ file] w = (Ok p, w') ->
    identity x -> failed p = false ->
    exists d, ch_commit w' x = Some d /\ cd_text d file = Some (stdout p);
  ch_head_read : forall w p w',
    gw_run (st_control_worktree c) ["rev-parse"; "HEAD"] w = (Ok p, w') ->
    failed p = false -> identity (strip (stdout p)) /\ strip (stdout p) = ch_head w';
  ch_tracked_read : forall w p w',
    gw_run (st_control_worktree c)
      ["rev-parse"; "--verify"; st_remote_name c +:+ "/" +:+ st_control_branch c] w = (Ok p, w') ->
    failed p = false -> identity (strip (stdout p)) /\ ch_tracked w' (strip (stdout p));
  ch_ancestor_read : forall a b w p w',
    gw_run (st_control_worktree c) ["merge-base"; "--is-ancestor"; a; b] w = (Ok p, w') ->
    identity a -> identity b -> failed p = false -> within (ch_commit w') a b;
  ch_log_read : forall r file w p w',
    gw_run (st_control_worktree c) ["log"; "--format=%H"; r; "--"; file] w = (Ok p, w') ->
    identity r -> failed p = false ->
    Forall (fun x => identity x /\ within (ch_commit w') x r) (splitlines (stdout p));
  ch_tip_read : forall w p w',
    gw_run (st_control_worktree c)
      ["ls-remote"; st_remote_name c; "refs/heads/" +:+ st_control_branch c] w = (Ok p, w') ->
    failed p = false -> head (words (stdout p)) = ch_tip w';
  ch_lineage_read : forall a b w p w',
    gw_run (st_control_worktree c) ["rev-list"; "--reverse"; a +:+ ".." +:+ b] w = (Ok p, w') ->
    identity a -> identity b -> failed p = false ->
    Forall (fun x => identity x /\ within (ch_commit w') x b) (splitlines (stdout p));
  ch_push_sets : forall x w p w',
    gw_run (st_control_worktree c)
      ["push"; st_remote_name c; x +:+ ":refs/heads/" +:+ st_control_branch c] w = (Ok p, w') ->
    identity x -> failed p = false -> ch_tip w' = Some x;
  ch_push_head : forall w p w',
    gw_run (st_control_worktree c)
      ["push"; st_remote_name c; "HEAD:refs/heads/" +:+ st_control_branch c] w = (Ok p, w') ->
    failed p = false -> ch_tip w' = Some (ch_head w)
}.

(** The product branch on the remote, and ancestry in the product repository. *)
Class ProductHistory (W : Type) `{GitWorld W} (c : settings) : Type := {
  ph_tip : W -> option string;
  ph_ancestor : string -> string -> Prop;
  ph_tip_read : forall w p w',
    gw_run (st_repo c) ["ls-remote"; st_remote_name c; "refs/heads/" +:+ st_remote_branch c] w =
      (Ok p, w') -> failed p = false -> head (words (stdout p)) = ph_tip w';
  ph_ancestor_read : forall a b w p w',
    gw_run (st_repo c) ["merge-base"; "--is-ancestor"; a; b] w = (Ok p, w') ->
    failed p = false -> ph_ancestor a b
}.

Lemma commit_stays {W} `{ControlHistory W c} w w' x d :
  evolves w w' -> ch_commit w x = Some d -> ch_commit w' x = Some d.
Proof. apply (keeps_lasting (fun w => ch_commit w x = Some d)), ch_stays. Qed.

Lemma within_stays {W} `{ControlHistory W c} w w' x b :
  evolves w w' -> within (ch_commit w) x b -> within (ch_commit w') x b.
Proof.
  intros He. apply rtc_subrel. intros a b' (d & Hd & Ha). exists d. split; [|done].
  by eapply commit_stays.
Qed.

(** Take the next statement of a run: its answer [p], the state [u] after it, how
    the world evolved and what was answered. *)
Tactic Notation "next" ident(p) ident(u) ident(V) ident(R) :=
  let p := fresh p in let u := fresh u in let V := fresh V in let R := fresh R in
  cbn beta; intros p u V R.

Ltac safe_step :=
  lazymatch goal with
  | |- safe _ _ (ask _ ≫= _) _ =>
      apply safe_ask_bind; cbn beta
  | |- safe _ _ (_git _ _ ≫= _) _ =>
      eapply safe_bind; [apply _ | apply safe_git; intros ? ? | next p u V R]
  | |- safe _ _ (_git_check _ _ ≫= _) _ =>
      eapply safe_bind; [apply _ | apply safe_check; [apply _ | intros ? ?] | next p u V R]
  | |- safe _ _ (py_lift _ ≫= _) _ =>
      apply safe_lift_bind; cbn beta; intros ? ?
  | |- safe _ _ (let x := _ in _) _ => cbv zeta
  | |- safe _ _ (py_raise _ _) _ => apply safe_raise
  | |- safe _ _ (mret _) _ => apply safe_ret
  | |- safe _ _ (if ?b then _ else _) _ => destruct b eqn:?
  end.

(** Evolution through the states of a run. *)
Ltac evolve :=
  solve [ eassumption | apply rtc_refl
        | match goal with V : evolves ?a ?b |- evolves ?a _ => transitivity b; [exact V | evolve] end ].

(** A commit known at an earlier state of the run, at a later one. *)
Tactic Notation "carry" hyp(H) "to" constr(w) :=
  eapply (commit_stays _ w) in H; [|evolve].
