(* ===== verification/IntegrationSafety.v ===== *)
(** Integration of accepted work is safe: what it may push and remove, on every
    path, and what its success means for the two histories. *)

From S2P Require Export History.

(** * The transition, as an abstract property of the history *)

(** The commit moves the ticket's file from accepted to done, unchanged, and does
    nothing else, on top of the expected commit. *)
Definition exact_transition (c : settings) (commits : string -> option commit_data)
    (ticket_id expected x : string) : Prop :=
  exists d e blob,
    commits x = Some d /\ head (cd_parents d) = Some expected /\
    (forall l, l ∈ cd_changes d <-> l ∈ expected_changes c ticket_id) /\
    commits expected = Some e /\ cd_blob e (managed_file c Accepted ticket_id) = Some blob /\
    cd_blob d (managed_file c Done ticket_id) = Some blob.

(** The control files hold a completed report of the ticket. *)
Definition accepted_evidence {W} `{GitWorld W} (ticket_id : string) (report : ExecutionReport) (w : W)
    : Prop :=
  exists reports, list_reports (gw_files w) (Some ticket_id) = Ok reports /\ report ∈ reports /\
    er_conclusion (rep_result report) <> "failed" /\
    rep_execution_branch report = "devlegate/work/" +:+ ticket_id /\
    is_Some (rep_workspace_head report) /\ valid_report_heads report = true.

(** Commands that publish nothing and remove nothing. *)
Definition passive (args : list string) : bool :=
  observation args ||
  match args with
  | "merge" :: "--ff-only" :: _ | ["add"; "-A"] | "commit" :: "-m" :: _ => true
  | cmd :: _ => existsb (String.eqb cmd) ["ls-remote"; "cat-file"; "log"; "show"; "diff-tree"; "rev-list"; "fetch"]
  | [] => false
  end.

(** The removal of what an execution without changes left behind, by its shape. *)
Definition retiring (c : settings) (args : list string) : Prop :=
  (exists branch head, args =
     ["push"; "--force-with-lease=refs/heads/" +:+ branch +:+ ":" +:+ head; st_remote_name c;
      ":refs/heads/" +:+ branch]) \/
  (exists dir, args = ["worktree"; "remove"; "--force"; dir]) \/
  (exists branch, args = ["branch"; "-D"; branch]).

Section Safe.
Context {W : Type} `{GitWorld W, !EngineWorld W}.
Variable c : settings.
Context `{!ControlHistory W c, !ProductHistory W c}.
Variable loads_yaml : string -> string + dict.
Variable ticket_id : string.
(** The control revisions the transition may be bound to. *)
Variable bound : string -> Prop.

(** The world in which the integration begins. *)
Variable start : W.

(** The product branch had the tip, at a moment of the run. *)
Definition tip_seen (w' : W) (tip : string) : Prop := during start w' (fun v => ph_tip v = Some tip).

Definition evidence_seen (w' : W) (report : ExecutionReport) : Prop :=
  during start w' (accepted_evidence ticket_id report).

(** An execution that changed nothing, of the product as it is. *)
Definition zero_delta (w' : W) (report : ExecutionReport) : Prop :=
  evidence_seen w' report /\ rep_workspace_head report = Some (rep_code_base_head report) /\
  tip_seen w' (rep_code_base_head report).

(** A command was answered during the run, without an error. *)
Definition answered (w' : W) (dir : Path) (args : list string) (F : string -> Prop) : Prop :=
  during start w' (fun v => exists p, fst (gw_run dir args v) = Ok p /\ failed p = false /\ F (stdout p)).

(** The product repository and the worktree of the report's ticket. *)
Definition worktree_of (report : ExecutionReport) (dir path : Path) (v : W) : Prop :=
  dir = gw_resolve v (st_repo c) /\
  path = path_child (path_child (path_join (gw_cwd v) (st_execution_worktree_root c)) "work")
           (rep_ticket_id report).

(** What the execution left behind is removed: its branch on the remote, leased on
    its base; its worktree, that was seen clean on its base; its local branch, that
    was seen there. *)
Definition retires_report (w' : W) (report : ExecutionReport) (dir : Path) (args : list string) : Prop :=
  let branch := rep_execution_branch report in
  let base := rep_code_base_head report in
  dir = st_repo c /\
    args = ["push"; "--force-with-lease=refs/heads/" +:+ branch +:+ ":" +:+ base; st_remote_name c;
            ":refs/heads/" +:+ branch] \/
  (exists path, during start w' (worktree_of report dir path) /\
     args = ["worktree"; "remove"; "--force"; path_str path] /\
     answered w' path ["rev-parse"; "HEAD"] (fun out => strip out = base) /\
     answered w' path ["status"; "--porcelain"] (fun out => out = "")) \/
  dir = st_repo c /\ args = ["branch"; "-D"; branch] /\
    answered w' (st_repo c) ["rev-parse"; "--verify"; "refs/heads/" +:+ branch] (fun out => strip out = base).

Definition control_push (w' : W) (args : list string) : Prop := exists expected x,
  args = ["push"; st_remote_name c; x +:+ ":refs/heads/" +:+ st_control_branch c] /\ bound expected /\
  exact_transition c (ch_commit w') ticket_id expected x.

Definition product_push (w' : W) (args : list string) : Prop := exists report tip x,
  args = ["push"; st_remote_name c; x +:+ ":refs/heads/" +:+ st_remote_branch c] /\
  evidence_seen w' report /\ rep_workspace_head report = Some x /\
  tip_seen w' tip /\ ph_ancestor tip x.

(** What the integration of the ticket may have done up to the world. *)
Definition integrates (w' : W) (e : event) : Prop :=
  match e with
  | Run dir args =>
      passive args = true \/
      dir = st_control_worktree c /\ control_push w' args \/
      dir = st_repo c /\ product_push w' args \/
      exists report, zero_delta w' report /\ retires_report w' report dir args
  | Edit _ => True
  | _ => False
  end.

Lemma exact_stays w w' expected x :
  evolves w w' -> exact_transition c (ch_commit w) ticket_id expected x ->
  exact_transition c (ch_commit w') ticket_id expected x.
Proof.
  intros He (d & e & blob & Hd & Hp & Hc & Hx & Hb1 & Hb2). exists d, e, blob.
  split_and!; try done; eapply commit_stays; eauto.
Qed.

Lemma seen_later w w' (F : W -> Prop) : evolves w w' -> during start w F -> during start w' F.
Proof. intros He. apply during_wider; [apply rtc_refl|done]. Qed.

Lemma zero_delta_later w w' report : evolves w w' -> zero_delta w report -> zero_delta w' report.
Proof. intros He (Hv & Hh & Ht). split_and!; [by eapply seen_later|done|by eapply seen_later]. Qed.

Lemma retires_later w w' report dir args : evolves w w' -> retires_report w report dir args ->
  retires_report w' report dir args.
Proof.
  intros He [Hr|[(path & H1 & -> & H2 & H3)|(-> & -> & H1)]]; [by left|right..].
  - left. exists path. split_and!; [|done|..]; by eapply seen_later.
  - right. split_and!; [done..|]. by eapply seen_later.
Qed.

#[local] Instance integrates_allowance : Allowance integrates.
Proof.
  intros w w' e H1. destruct e as [dir args| | |]; try done. cbn.
  intros [Hp|[[-> Hp]|[[-> Hp]|(report & Hz & Hr)]]]; [by left|..]; right.
  - left. split; [done|]. destruct Hp as (expected & x & ? & ? & Hx).
    exists expected, x. split_and!; try done. by eapply exact_stays.
  - right. left. split; [done|]. destruct Hp as (report & tip & x & ? & Hv & ? & Ht & ?).
    exists report, tip, x. split_and!; try done; by eapply seen_later.
  - right. right. exists report. split; [by eapply zero_delta_later|by eapply retires_later].
Qed.

Lemma passive_allowed w' dir args : passive args = true -> integrates w' (Run dir args).
Proof. by left. Qed.

Lemma same_lines_spec text expected l :
  same_lines text expected = true -> l ∈ splitlines text <-> l ∈ expected.
Proof.
  unfold same_lines. intros [H1 H2]%andb_true_iff. rewrite forallb_forall in H1, H2.
  split; intros Hl%list_elem_of_In; apply list_elem_of_In.
  - apply H1 in Hl. apply existsb_exists in Hl as (y & Hy & ->%String.eqb_eq). done.
  - apply H2 in Hl. apply existsb_exists in Hl as (y & Hy & ->%String.eqb_eq). done.
Qed.

Ltac passive_step := safe_step; try (apply passive_allowed; reflexivity).
Ltac passive_steps := repeat passive_step.

(** ** The check of a transition *)

Lemma exact_check s expected x :
  identity x -> identity expected ->
  safe integrates s (_accepted_integration_commit_is_exact c x ticket_id expected)
    (fun b w => b = true -> exact_transition c (ch_commit w) ticket_id expected x).
Proof.
  intros Hx Hexp. unfold _accepted_integration_commit_is_exact.
  passive_step. destruct (failed p || _) eqn:Hp; [by apply safe_ret|]. bsplit.
  apply ch_parent_read in R as (_ & d & Hd & Hpar); [|done..].
  passive_step. destruct (failed p0 || _) eqn:Hn; [by apply safe_ret|]. bsplit.
  apply ch_changes_read in R as (d2 & Hd2 & Hch); [|done..].
  passive_step. passive_step. apply safe_ret. intros Hb. bsplit. subst expected.
  eapply ch_blob_read in R as (d3 & Hd3 & Hb3); [|done..].
  eapply ch_blob_read in R0 as (d4 & Hd4 & Hb4); [|done..].
  carry Hd to (lg_world u2). carry Hd2 to (lg_world u2). carry Hd3 to (lg_world u2).
  simplify_eq. exists d, d3, (strip (stdout p2)). split_and!; try done; [|congruence].
  intros l. rewrite <- Hch. by apply same_lines_spec.
Qed.

(** ** The observation of the transition *)

(** The tip of the control branch contained the commit, at a moment of the run. *)
Definition published (w' : W) (x : string) : Prop :=
  during start w' (fun v => exists tip, ch_tip v = Some tip /\ within (ch_commit w') x tip).

Lemma published_later w w' x : evolves w w' -> published w x -> published w' x.
Proof.
  intros He (v & Ha & Hc & tip & Ht & Hw). exists v. split_and!; [evolve|evolve|].
  exists tip. split; [done|]. by eapply within_stays.
Qed.

Lemma remote_tip_check s :
  safe integrates s (control_remote_tip c) (fun o w => forall h, o = Some h -> ch_tip w = Some h).
Proof.
  unfold control_remote_tip. passive_step. apply safe_ret. intros h Hh.
  destruct (failed p) eqn:Hf; [done|]. by erewrite <- ch_tip_read.
Qed.

Definition observed (expected : string) (r : string * option string) (w' : W) : Prop :=
  match r with
  | (classification, Some x) =>
      identity x /\ exact_transition c (ch_commit w') ticket_id expected x /\
      (classification = "remote_exact_published" -> published w' x)
  | (_, None) => True
  end.

Lemma observe_check s expected local :
  evolves start (lg_world s) ->
  safe integrates s (_observe_accepted_control_integration c ticket_id expected local None)
    (observed expected).
Proof.
  intros V0. unfold _observe_accepted_control_integration.
  destruct (_ || _) eqn:Hid; [by apply safe_ret|]. bsplit.
  eapply safe_bind; [apply _|apply remote_tip_check|]. intros o v E Ho.
  destruct o as [tip|]; [|by apply safe_ret]. specialize (Ho tip eq_refl).
  destruct (negb _) eqn:Ht; [by apply safe_ret|]. bsplit.
  destruct (tip =? expected)%string.
  { destruct (local =? expected)%string; [by apply safe_ret|].
    eapply safe_bind; [apply _|by apply exact_check|]. intros b v1 E1 Hb. apply safe_ret.
    destruct b; [|done]. cbn. split_and!; [done|by apply Hb|discriminate]. }
  passive_step. destruct (failed p) eqn:Hf; [by apply safe_ret|].
  eapply ch_lineage_read in R; [|done..].
  destruct (splitlines (stdout p)) as [|x rest]; [by apply safe_ret|].
  apply Forall_cons in R as [[Hx Hw] _].
  eapply safe_bind; [apply _|by apply exact_check|]. intros b v2 E2 Hb. apply safe_ret.
  destruct b; [|done]. cbn. split_and!; [done|by apply Hb|]. intros _.
  exists (lg_world v). split_and!; [evolve|evolve|]. exists tip. split; [done|].
  eapply within_stays; [|exact Hw]. evolve.
Qed.

(** ** The transition *)

Definition transitioned (w' : W) : Prop := exists expected x,
  bound expected /\ exact_transition c (ch_commit w') ticket_id expected x /\ published w' x.

Lemma push_check s expected x alternative :
  evolves start (lg_world s) -> bound expected -> identity x ->
  exact_transition c (ch_commit (lg_world s)) ticket_id expected x ->
  safe integrates s (push_control c x alternative) (fun _ w => transitioned w).
Proof.
  intros V0 Hb Hx He. unfold push_control. safe_step.
  { right. left. split; [done|]. exists expected, x. split_and!; [done..|]. by eapply exact_stays. }
  destruct (failed p) eqn:Hf; [apply safe_raise|]. apply safe_ret.
  exists expected, x. split_and!; [done|by eapply exact_stays|].
  exists (lg_world u). split_and!; [evolve|evolve|]. exists x. split; [|apply rtc_refl].
  by eapply ch_push_sets.
Qed.

Lemma resume_check s expected current :
  evolves start (lg_world s) -> bound expected ->
  safe integrates s (resume_transition c ticket_id expected current) (fun _ w => transitioned w).
Proof.
  intros V0 Hb. unfold resume_transition.
  eapply safe_bind; [apply _|by apply observe_check|]. intros first v E Hfirst.
  eapply (safe_bind _ _ _ _ (observed expected)).
  { destruct first as [k [x|]]; [|by apply safe_ret].
    destruct (k =? _)%string; [|by apply safe_ret]. destruct Hfirst as (Hx & He & _).
    eapply safe_bind; [apply _|eapply push_check; [evolve|done..]|]. intros [] v1 E1 _.
    apply observe_check. evolve. }
  intros [k [x|]] v1 E1 Hfinal; cbn [fst snd]; destruct (negb _) eqn:Hk; try apply safe_raise.
  apply safe_ret. bsplit. destruct Hfinal as (Hx & He & Hp). exists expected, x.
  split_and!; [done|done|by apply Hp].
Qed.

(** ** The evidence *)

Definition quietly (e : event) : Prop :=
  match e with Run _ args => passive args = true | _ => False end.

Lemma observes_quietly e : observes e -> quietly e.
Proof. destruct e as [dir args| | |]; try done. cbn. intros Ho. unfold passive. by rewrite Ho. Qed.

#[local] Hint Extern 1 (quietly (Run _ _)) => reflexivity : commands.
#[local] Hint Resolve observes_quietly : commands.

Lemma only_quietly {A} (m : py (logged W) A) s : only quietly m -> safe integrates s m (fun _ _ => True).
Proof. intros Hm. eapply safe_only; [exact Hm|]. intros [dir args| | |] w' _; try done. by left. Qed.

Lemma quiet_revision : only quietly (accepted_revision c ticket_id).
Proof. unfold accepted_revision, last_change, blocked. only_auto. Qed.

Lemma quiet_admitted k parent x r : only quietly (admitted_by c k parent x r).
Proof. unfold admitted_by, last_change. only_auto. Qed.

Lemma quiet_remote branch : only quietly (_execution_remote_head (st_repo c) (st_remote_name c) branch).
Proof. unfold _execution_remote_head, engine_error. only_auto. Qed.

Lemma completed_reports_check s :
  safe integrates s (completed_reports ticket_id)
    (fun reports w => forall r, r ∈ reports -> er_conclusion (rep_result r) <> "failed" /\
       exists all, list_reports (gw_files (lg_world s)) (Some ticket_id) = Ok all /\ r ∈ all).
Proof.
  unfold completed_reports. safe_step. apply safe_result. intros reports Hr.
  destruct (list_reports _ _) as [all|e] eqn:El in Hr; cbn in Hr; [|by destruct (is_report_error e)].
  injection Hr as <-. intros r Hr%list_elem_of_In%filter_In. destruct Hr as [Hin Hc]. bsplit.
  split; [done|]. exists all. rewrite El. split; [done|]. by apply list_elem_of_In.
Qed.

Lemma matches_branch_spec branch tip report :
  matches_branch branch tip report = true ->
  rep_execution_branch report = branch /\ is_Some (rep_workspace_head report).
Proof.
  unfold matches_branch. intros [Hb Hh]%andb_true_iff. bsplit. split; [done|].
  by destruct (rep_workspace_head report).
Qed.

Lemma accepted_report_check s :
  evolves start (lg_world s) ->
  safe integrates s (_accepted_execution_report c ticket_id) (fun report w => evidence_seen w report).
Proof.
  intros V0. unfold _accepted_execution_report. safe_step.
  destruct (_ || _); [apply safe_raise|].
  eapply safe_bind; [apply _|apply completed_reports_check|]. cbn beta. intros reports v E Hall.
  eapply safe_bind; [apply _|apply only_quietly, quiet_revision|]. intros revision v1 E1 _.
  passive_step. destruct (failed p); [apply safe_raise|].
  eapply safe_bind; [apply _|by apply only_quietly, only_git|]. intros review v2 E2 _.
  destruct (_ || _); [apply safe_raise|].
  eapply safe_bind; [apply _|apply safe_filter; [apply _|]; intros; apply only_quietly, quiet_admitted|].
  cbn beta. intros mine v3 E3 Hmine.
  eapply safe_bind; [apply _|apply only_quietly, quiet_remote|]. intros tip v4 E4 _.
  destruct (List.filter _ mine) as [|report [|]] eqn:Hf; try apply safe_raise.
  destruct (negb _) eqn:Hv; [apply safe_raise|]. apply safe_ret. bsplit.
  assert (Hin : In report (List.filter (matches_branch ("devlegate/work/" +:+ ticket_id) tip) mine))
    by (rewrite Hf; by left).
  apply filter_In in Hin as [Hin [Hb Hh]%matches_branch_spec].
  apply list_elem_of_In, Hmine in Hin. destruct (Hall _ Hin) as (Hc & all & Hl & Ha).
  exists (lg_world s). split_and!; [evolve|evolve|]. by exists all.
Qed.

(** ** Completion *)

Lemma edit_check {A} (m : io A) s : safe integrates s (in_control m) (fun _ _ => True).
Proof.
  eapply (safe_only _ (fun e => exists t, e = Edit t)); [apply only_edit; eauto|].
  by intros e w' _ [t ->].
Qed.

Lemma make_check s ticket expected current :
  evolves start (lg_world s) -> bound expected -> identity expected ->
  safe integrates s (make_transition c ticket_id ticket expected current) (fun _ w => transitioned w).
Proof.
  intros V0 Hb Hexp. unfold make_transition.
  eapply safe_bind; [apply _|by apply accepted_report_check|]. intros report v E _.
  destruct (negb _); [apply safe_raise|].
  eapply safe_bind; [apply _|apply edit_check|]. intros [] v1 E1 _.
  passive_step. passive_step. destruct (failed p0); [apply safe_raise|].
  passive_step. destruct R1 as [R1 Hf]. eapply ch_head_read in R1 as [R1 _]; [|done].
  eapply safe_bind; [apply _|by apply exact_check|]. cbn beta. intros b v5 E5 Hx.
  destruct b; [|apply safe_raise]. specialize (Hx eq_refl).
  eapply safe_bind; [apply _|eapply push_check; [evolve|done..]|]. cbn beta. intros [] v6 E6 Hp.
  by apply safe_ret.
Qed.

Lemma complete_check s expected :
  evolves start (lg_world s) -> bound expected ->
  safe integrates s (_complete_accepted c loads_yaml ticket_id expected) (fun _ w => transitioned w).
Proof.
  intros V0 Hb. unfold _complete_accepted. passive_step.
  destruct (negb _) eqn:Hexp; [apply safe_raise|]. bsplit. unfold load_control_store.
  eapply (safe_bind _ _ _ _ (fun _ _ => True)); [safe_step; by apply safe_result|].
  intros store v1 E1 _. destruct (ts_by_id store !! ticket_id) as [ticket|]; [|apply safe_raise].
  destruct (tk_state ticket); try apply safe_raise.
  - apply make_check; [evolve|done..].
  - apply resume_check; [evolve|done].
Qed.

(** ** The product branch *)

(** The tip of the product branch contained the commit, at a moment of the run. *)
Definition contained (w' : W) (x : string) : Prop :=
  during start w' (fun v => exists tip, ph_tip v = Some tip /\ (tip = x \/ ph_ancestor x tip)).

Lemma ancestor_check s a b :
  safe integrates s (is_ancestor c a b) (fun r _ => r = true -> ph_ancestor a b).
Proof.
  unfold is_ancestor. passive_step. apply safe_ret. intros Hr.
  eapply ph_ancestor_read; [exact R|]. unfold failed. by rewrite Hr.
Qed.

Lemma contains_check s x tip :
  safe integrates s (contains_checkpoint c x tip) (fun r _ => r = true -> tip = x \/ ph_ancestor x tip).
Proof.
  unfold contains_checkpoint. destruct (String.eqb_spec tip x) as [->|]; [apply safe_ret; by left|].
  eapply safe_weaken; [apply ancestor_check|]. cbn beta. intros r w _ Hr Ht. right. by apply Hr.
Qed.

Lemma observe_product_check s :
  safe integrates s (observe_product_branch c) (fun tip w => ph_tip w = Some tip).
Proof.
  unfold observe_product_branch. passive_step.
  destruct (failed p) eqn:Hf; [apply safe_raise|].
  destruct (words (stdout p)) as [|tip rest] eqn:Hw; [apply safe_raise|]. apply safe_ret.
  apply ph_tip_read in R; [|done]. by rewrite <- R, Hw.
Qed.

Lemma publish_check s report x tip :
  evolves start (lg_world s) -> evidence_seen (lg_world s) report ->
  rep_workspace_head report = Some x -> tip_seen (lg_world s) tip ->
  safe integrates s (publish_product c x tip) (fun _ w => contained w x).
Proof.
  intros V0 Hev Hx Ht. unfold publish_product.
  eapply safe_bind; [apply _|apply contains_check|]. intros b v E _.
  eapply (safe_bind _ _ _ _ (fun _ _ => True)).
  { destruct b; [by apply safe_ret|].
    eapply safe_bind; [apply _|apply ancestor_check|]. cbn beta. intros b v1 E1 Hb.
    destruct b; [|apply safe_raise]. cbn [negb]. safe_step.
    { right. right. left. split; [done|]. exists report, tip, x.
      split_and!; [done| |done| |by apply Hb]; (eapply (seen_later (lg_world s)); [evolve|done]). }
    destruct (failed p); [apply safe_raise|]. by apply safe_ret. }
  intros [] v2 E2 _. passive_step.
  destruct (failed p) eqn:Hf; [apply safe_raise|].
  destruct (head _) as [tip'|] eqn:Htip; [|apply safe_raise].
  eapply safe_bind; [apply _|apply contains_check|]. cbn beta. intros b' v4 E4 Hb.
  destruct b'; [|apply safe_raise]. apply safe_ret. exists (lg_world u).
  split_and!; [evolve|evolve|]. exists tip'. split; [|by apply Hb].
  apply ph_tip_read in R; [|done]. by rewrite <- R.
Qed.

Lemma quiet_synchronize x : only quietly (synchronize_product c x).
Proof. unfold synchronize_product, blocked. only_auto. Qed.

Lemma quiet_control_worktree state : only quietly (_validate_control_worktree c state).
Proof. apply only_validate_control. apply observes_quietly. Qed.

(** ** Executions without changes *)

Lemma quiet_registered r key : only quietly (registered r key).
Proof. unfold registered. only_auto. Qed.

(** An answer of the run, later. *)
Lemma answered_here s dir args p (F : string -> Prop) w w' :
  evolves start (lg_world s) -> gw_run dir args (lg_world s) = (Ok p, w) -> evolves w w' ->
  failed p = false -> F (stdout p) -> answered w' dir args F.
Proof.
  intros V0 Hr Hv Hf HF. exists (lg_world s). split_and!; [done| |].
  - etrans; [|exact Hv]. apply rtc_once. assert (w = snd (gw_run dir args (lg_world s))) as -> by by rewrite Hr. constructor.
  - exists p. by rewrite Hr.
Qed.

Lemma answered_later w w' dir args F : evolves w w' -> answered w dir args F -> answered w' dir args F.
Proof. apply seen_later. Qed.

Section Retirement.
Variable report : ExecutionReport.

Abbreviation base := (rep_code_base_head report).
Abbreviation branch := (rep_execution_branch report).

Lemma retire_allowed w' dir args : zero_delta w' report -> retires_report w' report dir args ->
  integrates w' (Run dir args).
Proof. intros Hz Hr. right. right. right. by exists report. Qed.

Lemma retire_remote_check s : zero_delta (lg_world s) report ->
  safe integrates s (retire_zero_delta_remote c branch base) (fun _ _ => True).
Proof.
  intros Hz. unfold retire_zero_delta_remote, blocked.
  eapply safe_bind; [apply _|apply only_quietly, quiet_remote|]. intros remote v E _.
  destruct remote as [tip|]; [|by apply safe_ret].
  destruct (String.eqb_spec tip base) as [->|]; [|apply safe_raise]. cbn [negb]. safe_step.
  { apply retire_allowed; [eapply zero_delta_later; [|exact Hz]; by etrans|]. by left. }
  destruct (negb _); [by apply safe_ret|].
  eapply safe_bind; [apply _|apply only_quietly, quiet_remote|]. intros [] v2 E2 _; [apply safe_raise|by apply safe_ret].
Qed.

Lemma retire_branch_check s : evolves start (lg_world s) -> zero_delta (lg_world s) report ->
  safe integrates s (retire_zero_delta_branch c branch base) (fun _ _ => True).
Proof.
  intros V0 Hz. unfold retire_zero_delta_branch, rev_parse, blocked. passive_step.
  destruct (failed p) eqn:Hf; [by apply safe_ret|].
  destruct (String.eqb_spec (strip (stdout p)) base) as [Hb|]; [|apply safe_raise]. cbn [negb]. safe_step.
  { apply retire_allowed; [eapply zero_delta_later; [|exact Hz]; by etrans|]. right. right. split_and!; [done..|].
    by eapply answered_here. }
  destruct (failed p0); [apply safe_raise|by apply safe_ret].
Qed.

(** What a validated worktree answered. *)
Definition validated (path : Path) (ws : ExecutionWorkspace) (w' : W) : Prop :=
  answered w' path ["rev-parse"; "HEAD"] (fun out => strip out = ew_head ws) /\
  (ew_dirty ws = false -> answered w' path ["status"; "--porcelain"] (fun out => out = "")).

Lemma existing_check s m r b : evolves start (lg_world s) ->
  safe integrates s (_validate_existing m r b) (fun ws w => validated (mg_path m) ws w).
Proof.
  intros V0. unfold _validate_existing, _path_conflict, refuse, self_path. passive_step.
  destruct r as [r|]; [|apply safe_raise]. destruct (gw_is_dir _ _); [|apply safe_raise].
  passive_steps. destruct R3 as [R3 F3].
  eapply safe_bind; [apply _|apply only_quietly, quiet_registered|]. intros recorded v1 E1 _.
  passive_step; [apply safe_raise|].
  eapply safe_bind; [apply _|apply only_quietly, quiet_registered|]. intros branch v2 E2 _.
  passive_step; [apply safe_raise|]. passive_step. destruct R4 as [R4 F4]. apply safe_ret. split; cbn.
  - eapply (answered_here _ _ _ p3); [|exact R3|..]; try done; evolve.
  - intros Hd. bsplit. eapply (answered_here _ _ _ p4); [|exact R4|..]; try done; try evolve.
Qed.

(** The worktree is removed by force only where it was validated: clean, on the
    checkpoint. *)
Lemma retire_check s n m ws : evolves start (lg_world s) -> zero_delta (lg_world s) report ->
  during start (lg_world s) (worktree_of report (mg_repo m) (mg_path m)) ->
  safe integrates s (Workspace.retire n m ws base) (fun _ _ => True).
Proof.
  intros V0 Hz Hw. unfold Workspace.retire, refuse, symlinked_root, _path_conflict, self_path.
  do 3 (passive_step; [apply safe_raise|]). do 2 (passive_step; passive_step; [apply safe_raise|]).
  eapply safe_bind; [apply _|apply only_quietly, only_registrations, observes_quietly|].
  intros regs v1 E1 _. do 2 passive_step; [apply safe_raise|].
  destruct (registration_at _ regs) as [r|]; [|passive_step; passive_step; [apply safe_raise|by apply safe_ret]].
  eapply safe_bind; [apply _|apply existing_check; evolve|]. cbn beta. intros v v2 E2 [Hh Hs].
  passive_step; [apply safe_raise|]. bsplit.
  eapply safe_bind; [apply _|apply only_quietly, (only_validate_submodule_paths m), observes_quietly|].
  intros [] v3 E3 _.
  eapply safe_bind; [apply _|apply only_quietly, (only_verify_submodules m), observes_quietly|].
  intros [] v4 E4 _. safe_step.
  { assert (evolves (lg_world v2) w') by evolve.
    apply retire_allowed; [eapply zero_delta_later; [|exact Hz]; evolve|]. right. left.
    exists (mg_path m). split_and!; [eapply seen_later; [|exact Hw]; evolve|done|..];
      (eapply answered_later; [done|]); [rewrite <- H0; exact Hh|by apply Hs]. }
  passive_step; [apply safe_raise|]. passive_step.
  eapply (safe_bind _ _ _ _ (fun _ _ => True)).
  { destruct (gw_exists _ _); [by apply safe_ret|]. apply only_quietly. only_auto. }
  intros remains v6 E6 _. passive_step; [apply safe_raise|by apply safe_ret].
Qed.

Lemma retire_worktree_check s m : evolves start (lg_world s) -> zero_delta (lg_world s) report ->
  during start (lg_world s) (worktree_of report (mg_repo m) (mg_path m)) ->
  safe integrates s (retire_zero_delta_worktree c m base) (fun _ _ => True).
Proof.
  intros V0 Hz Hw. unfold retire_zero_delta_worktree, blocked.
  eapply safe_bind; [apply _|apply only_quietly, only_registrations, observes_quietly|].
  intros regs v1 E1 _. passive_step.
  destruct (registration_at _ regs) as [r|]; [|passive_step; passive_step; [apply safe_raise|by apply safe_ret]].
  eapply (safe_catch _ _ _ _ _ (fun _ _ => True)); [|done|intros; apply safe_raise].
  eapply safe_bind; [apply _|apply existing_check; evolve|]. cbn beta. intros ws v2 E2 _.
  apply retire_check; [evolve|eapply zero_delta_later; [|exact Hz]|eapply seen_later; [|exact Hw]]; evolve.
Qed.

Lemma retire_execution_check s : evolves start (lg_world s) -> zero_delta (lg_world s) report ->
  safe integrates s (_retire_zero_delta_execution c report) (fun _ _ => True).
Proof.
  intros V0 Hz. unfold _retire_zero_delta_execution, blocked. passive_step; [apply safe_raise|]. cbv zeta.
  eapply (safe_bind _ _ _ _ (fun m w => worktree_of report (mg_repo m) (mg_path m) (lg_world s))).
  { unfold new_manager, refuse. passive_step; [apply safe_raise|]. passive_step. passive_step.
    apply safe_ret. done. }
  cbn beta. intros m v1 E1 Hm.
  assert (Hw : during start (lg_world v1) (worktree_of report (mg_repo m) (mg_path m))) by by exists (lg_world s).
  assert (Hz1 : zero_delta (lg_world v1) report) by by eapply zero_delta_later.
  eapply safe_bind; [apply _|by apply retire_remote_check|]. intros [] v2 E2 _.
  eapply safe_bind; [apply _|apply retire_worktree_check; [evolve|eapply zero_delta_later; [|exact Hz1]; evolve|eapply seen_later; [|exact Hw]; evolve]|].
  intros [] v3 E3 _. apply retire_branch_check; [evolve|]. eapply zero_delta_later; [|exact Hz1]. evolve.
Qed.
End Retirement.

(** The remote product branch contained the worker's checkpoint of an accepted
    report, at a moment of the run. *)
Definition product_integrated (w' : W) : Prop := exists report x,
  evidence_seen w' report /\ rep_workspace_head report = Some x /\ contained w' x.

Lemma product_later w w' : evolves w w' -> product_integrated w -> product_integrated w'.
Proof.
  intros He (report & x & Hv & Hx & Hc). exists report, x.
  split_and!; [|done|]; by eapply seen_later.
Qed.

Lemma integrate_check s state code control :
  evolves start (lg_world s) ->
  (forall o, control = Some o -> bound (go_local_head o)) ->
  (forall o h, control = Some o -> expected_control_head state o = PStr h -> bound h) ->
  safe integrates s (_integrate_accepted c loads_yaml state ticket_id code control)
    (fun _ w => product_integrated w /\ transitioned w).
Proof.
  intros V0 Hb1 Hb2. unfold _integrate_accepted.
  destruct code as [code|]; [|apply safe_raise]. destruct control as [o|]; [|apply safe_raise].
  eapply safe_bind; [apply _|apply only_quietly, quiet_control_worktree|]. intros [] v1 E1 _.
  destruct (_ || _); [apply safe_raise|].
  eapply safe_bind; [apply _|apply accepted_report_check; evolve|]. cbn beta. intros report v2 E2 Hev.
  destruct (rep_workspace_head report) as [x|] eqn:Hx; [|apply safe_raise].
  eapply safe_bind; [apply _|apply observe_product_check|]. cbn beta. intros tip v3 E3 Htip.
  assert (Hev3 : evidence_seen (lg_world v3) report) by (eapply seen_later; [exact E3|done]).
  assert (Ht3 : tip_seen (lg_world v3) tip) by (exists (lg_world v3); split_and!; [evolve|evolve|done]).
  destruct (x =? rep_code_base_head report)%string eqn:Hz; bsplit.
  - destruct (negb _) eqn:Hsame; [apply safe_raise|]. bsplit. subst x tip.
    eapply safe_bind; [apply _|apply retire_execution_check; [evolve|done]|]. intros [] v4 E4 _.
    eapply safe_weaken; [apply complete_check; [evolve|by apply Hb1]|]. cbn beta.
    intros _ w V Ht. split; [|done]. eapply (product_later (lg_world v3)); [evolve|].
    exists report, (rep_code_base_head report). split_and!; [done|done|].
    destruct Ht3 as (v & ? & ? & ?). exists v. split_and!; [done|done|]. eauto.
  - eapply safe_bind; [apply _|by eapply publish_check; try evolve|]. cbn beta. intros [] v4 E4 Hc.
    eapply safe_bind; [apply _|apply only_quietly, quiet_synchronize|]. intros [] v5 E5 _.
    destruct (expected_control_head state o) as [| | | |h| |] eqn:Hh; try apply safe_raise.
    destruct (negb _); [apply safe_raise|].
    eapply safe_weaken; [apply complete_check; [evolve|by eapply Hb2]|]. cbn beta.
    intros _ w V Ht. split; [|done]. eapply (product_later (lg_world v4)); [evolve|].
    exists report, x. split_and!; [by eapply seen_later|done|done].
Qed.
End Safe.

(** * The claims *)

(** The control revisions an integration may be bound to: the one observed now,
    or the one the pending integration was admitted at. *)
Definition bound_head (state : dict) (control : option GitObservation) (expected : string) : Prop :=
  exists o, control = Some o /\
    (expected = go_local_head o \/ expected_control_head state o = PStr expected).

Section Claims.
Context {W : Type} `{GitWorld W, !EngineWorld W}.
Variable c : settings.
Context `{!ControlHistory W c, !ProductHistory W c}.
Variable loads_yaml : string -> string + dict.

Lemma integration_checked state ticket_id code control (s : logged W) :
  safe (integrates c ticket_id (bound_head state control) (lg_world s)) s
    (_integrate_accepted c loads_yaml state ticket_id code control)
    (fun _ w => product_integrated c ticket_id (lg_world s) w /\
                transitioned c ticket_id (bound_head state control) (lg_world s) w).
Proof.
  apply integrate_check; [apply rtc_refl| |].
  - intros o ->. exists o. auto.
  - intros o h -> Hh. exists o. auto.
Qed.


End Claims.
