(* ===== verification/Repository.v ===== *)
(** A concrete repository that answers the Git commands of the engine: the
    environment of the examples.  Commits of the control branch are snapshots of
    the files below the control worktree; the product branch is a line of
    revisions.  It satisfies what [History] assumes of Git. *)

From S2P Require Export History.

(** * Data *)

Record snapshot : Type := mkSnapshot {
  sn_parent : option string;
  sn_changes : list string;
  sn_files : list (string * string)
}.

Record repository : Type := mkRepository {
  rp_commits : list (string * snapshot);
  rp_head : string;
  rp_tip : string;
  rp_product : string;
  rp_checkout : string;
  rp_branches : list (string * string);
  rp_files : tree;
  rp_pushes : bool
}.

Definition sample_settings : settings :=
  mkSettings (Path_of "/repo") (Path_of "/control") (Path_of "/x") "origin" "main" "control"
    (Some "main") state_name 5.

(** A full object name made of a number. *)
Definition object_name (n : nat) : string :=
  let s := str_of_Z (Z.of_nat n) in
  String.concat "" (repeat "0" (40 - String.length s)) +:+ s.

(** The product revisions, each an ancestor of the later ones. *)
Definition product_line : list string := map object_name [1000; 1001; 1002].

Definition product_before (a b : string) : bool :=
  match find_index (String.eqb a) product_line, find_index (String.eqb b) product_line with
  | Some i, Some j => (i <=? j)%nat
  | _, _ => false
  end.

(** * Snapshots and history *)

Definition snapshot_of (t : tree) : list (string * string) :=
  cat_options (map (fun kv => match snd kv with
                              | File text => Some (String.concat "/" (fst kv), text)
                              | _ => None
                              end) (map_to_list t)).

Definition tree_of (files : list (string * string)) (t : tree) : tree :=
  let dirs := list_to_map (List.filter (fun kv => match snd kv with Dir => true | _ => false end)
                             (map_to_list t)) in
  foldl (fun t kv => <[split_on (Ascii.ascii_of_N 47) (fst kv) := File (snd kv)]> t) dirs files.

Definition change (kind file : string) : string := kind +:+ String TAB "" +:+ file.

Definition changes_between (before after : list (string * string)) : list string :=
  cat_options (map (fun kv => if has_key after (fst kv) then None else Some (change "D" (fst kv))) before) ++
  cat_options (map (fun kv => match dget before (fst kv) with
                              | None => Some (change "A" (fst kv))
                              | Some text => if (text =? snd kv)%string then None
                                             else Some (change "M" (fst kv))
                              end) after).

Definition parent_of (d : snapshot) : option string := strip <$> sn_parent d.

(** The commits from [b] back to (and without) [stop], the newest last. *)
Fixpoint walk (fuel : nat) (commits : list (string * snapshot)) (stop b : string) : list string :=
  match fuel with
  | O => []
  | S n =>
      if (b =? stop)%string then [] else
      match dget commits b with
      | None => []
      | Some d => match parent_of d with Some p => walk n commits stop p | None => [] end ++ [b]
      end
  end.

Definition lineage (w : repository) (stop b : string) : list string :=
  walk (S (length (rp_commits w))) (rp_commits w) stop b.

Definition touches (file : string) (d : snapshot) : bool :=
  existsb (fun kind => existsb (String.eqb (change kind file)) (sn_changes d)) ["A"; "D"; "M"].

(** The commits up to the revision that change the file, the newest first. *)
Definition changed_by (w : repository) (revision file : string) : list string :=
  List.filter (fun x => match dget (rp_commits w) x with Some d => touches file d | None => false end)
    (rev (lineage w "" revision)).

(** * Answers *)

Definition arg (n : nat) (args : list string) : string := nth n args "".
Definition said (text : string) : CompletedProcess := mkProc 0 text "".
Definition refused : CompletedProcess := mkProc 1 "" "refused".
Definition answer (o : option string) : CompletedProcess :=
  match o with Some text => said text | None => refused end.

Definition COLON : Ascii.ascii := Ascii.ascii_of_N 58.
Definition CARET : Ascii.ascii := Ascii.ascii_of_N 94.
Definition DOT : Ascii.ascii := Ascii.ascii_of_N 46.

Definition named (w : repository) (name : string) : string :=
  if (name =? "HEAD")%string then rp_head w
  else if (name =? "origin/control")%string then rp_tip w else name.

(** [rev-parse] and [show] of [commit:path], [commit^] and names. *)
Definition revision (w : repository) (spec : string) : option string :=
  match partition COLON spec with
  | (name, Some file) => d ← dget (rp_commits w) name; dget (sn_files d) file
  | (_, None) =>
      match partition CARET spec with
      | (name, Some _) =>
          d ← dget (rp_commits w) name;
          match sn_parent d with
          | Some p => if _is_git_identity (PStr (strip p)) then Some p else None
          | None => None
          end
      | (_, None) =>
          if (spec =? "--show-toplevel")%string then Some "/control"
          else if bool_decide (is_Some (dget (rp_commits w) (named w spec))) &&
                  _is_git_identity (PStr (strip (named w spec)))
               then Some (named w spec) else None
      end
  end.

(** [a..b] *)
Definition range (w : repository) (spec : string) : CompletedProcess :=
  match partition DOT spec with
  | (a, Some (String _ b)) =>
      said (unlines (List.filter (fun x => _is_git_identity (PStr x)) (lineage w a b)))
  | _ => refused
  end.

Definition is_ancestor_of (w : repository) (a b : string) : bool :=
  existsb (String.eqb a) (lineage w "" b).

Definition with_control (w : repository) (commits : list (string * snapshot)) (head tip : string)
    (files : tree) : repository :=
  mkRepository commits head tip (rp_product w) (rp_checkout w) (rp_branches w) files (rp_pushes w).

(** Move the control worktree to the commit. *)
Definition move_to (w : repository) (x : string) : CompletedProcess * repository :=
  match dget (rp_commits w) x with
  | Some d => (said "", with_control w (rp_commits w) x (rp_tip w) (tree_of (sn_files d) (rp_files w)))
  | None => (refused, w)
  end.

Definition record_commit (w : repository) : CompletedProcess * repository :=
  let x := object_name (length (rp_commits w)) in
  let files := snapshot_of (rp_files w) in
  let before := match dget (rp_commits w) (rp_head w) with Some d => sn_files d | None => [] end in
  if bool_decide (is_Some (dget (rp_commits w) x)) then (refused, w)
  else (said "", with_control w
                   (rp_commits w ++ [(x, mkSnapshot (Some (rp_head w)) (changes_between before files) files)])
                   x (rp_tip w) (rp_files w)).

(** A push of [commit:refs/heads/control], accepted when it is a fast-forward. *)
Definition push_to (w : repository) (spec : string) : CompletedProcess * repository :=
  match partition COLON spec with
  | (name, Some _) =>
      let x := if (name =? "HEAD")%string then rp_head w else name in
      if rp_pushes w && is_ancestor_of w (rp_tip w) x && _is_git_identity (PStr x)
      then (said "", with_control w (rp_commits w) (rp_head w) x (rp_files w))
      else (refused, w)
  | _ => (refused, w)
  end.

Definition control_answer (args : list string) (w : repository) : CompletedProcess * repository :=
  let cmd := arg 0 args in
  if (cmd =? "rev-parse")%string then (answer (revision w (List.last args "")), w)
  else if (cmd =? "show")%string then (answer (revision w (List.last args "")), w)
  else if (cmd =? "cat-file")%string then (answer (revision w (List.last args "")), w)
  else if (cmd =? "symbolic-ref")%string then (said "control", w)
  else if (cmd =? "diff-tree")%string
  then (match dget (rp_commits w) (List.last args "") with
        | Some d => said (unlines (sn_changes d)) | None => refused end, w)
  else if (cmd =? "rev-list")%string then (range w (List.last args ""), w)
  else if (cmd =? "ls-remote")%string then (said (rp_tip w), w)
  else if (cmd =? "merge-base")%string
  then (if is_ancestor_of w (arg 2 args) (arg 3 args) then said "" else refused, w)
  else if (cmd =? "log")%string
  then (let found := changed_by w (named w (arg (length args - 3) args)) (List.last args "") in
        said (unlines (List.filter (fun x => _is_git_identity (PStr x))
                (if (arg 1 args =? "-1")%string then take 1 found else found))), w)
  else if (cmd =? "commit")%string then record_commit w
  else if (cmd =? "push")%string then push_to w (List.last args "")
  else if (cmd =? "merge")%string then move_to w (rp_tip w)
  else if (cmd =? "reset")%string then move_to w (List.last args "")
  else (said "", w).

(** A push to the product branch, or the deletion of another branch. *)
Definition push_product (w : repository) (spec : string) : repository :=
  match partition COLON spec with
  | (x, Some target) =>
      if (target =? "refs/heads/main")%string
      then mkRepository (rp_commits w) (rp_head w) (rp_tip w) x (rp_checkout w) (rp_branches w)
             (rp_files w) (rp_pushes w)
      else mkRepository (rp_commits w) (rp_head w) (rp_tip w) (rp_product w) (rp_checkout w)
             (if (x =? "")%string then dpop (rp_branches w) target else dset (rp_branches w) target x)
             (rp_files w) (rp_pushes w)
  | _ => w
  end.

Definition repo_answer (args : list string) (w : repository) : CompletedProcess * repository :=
  let cmd := arg 0 args in
  if (cmd =? "worktree")%string
  then (said (render [mkWorktree "/repo" "b0" (Some "main") None None;
                      mkWorktree "/control" (rp_head w) (Some "control") None None]), w)
  else if (cmd =? "ls-remote")%string
  then (said (if (List.last args "" =? "refs/heads/main")%string then rp_product w
              else default "" (dget (rp_branches w) (List.last args ""))), w)
  else if (cmd =? "merge-base")%string
  then (if product_before (arg 2 args) (arg 3 args) then said "" else refused, w)
  else if (cmd =? "push")%string
  then (said "", push_product w (List.last args ""))
  else if (cmd =? "merge")%string
  then (said "", mkRepository (rp_commits w) (rp_head w) (rp_tip w) (rp_product w)
                   (rp_product w) (rp_branches w) (rp_files w) (rp_pushes w))
  else if (cmd =? "rev-parse")%string
  then (if (arg 1 args =? "HEAD")%string then said (rp_checkout w)
        else if (List.last args "" =? "origin/main")%string then said (rp_product w) else refused, w)
  else if (cmd =? "symbolic-ref")%string then (said "main", w)
  else (said "", w).

Definition repository_run (dir : Path) (args : list string) (w : repository)
    : res CompletedProcess * repository :=
  let '(p, w') := if bool_decide (dir = st_control_worktree sample_settings)
                  then control_answer args w else repo_answer args w in
  (Ok p, w').

#[export] Instance repository_world : GitWorld repository := {
  gw_run := repository_run;
  gw_run_input := fun _ _ _ w => (Ok (said ""), w);
  gw_mkdir := fun _ w => (Ok tt, w);
  gw_files := rp_files;
  gw_edit := fun t w => mkRepository (rp_commits w) (rp_head w) (rp_tip w) (rp_product w)
                          (rp_checkout w) (rp_branches w) t (rp_pushes w);
  gw_cwd := fun _ => Path_of "/";
  gw_resolve := fun _ p => p;
  gw_is_symlink := fun _ _ => false;
  gw_is_dir := fun _ _ => true;
  gw_exists := fun _ _ => false;
  gw_has_entries := fun _ _ => true
}.

#[export] Instance repository_engine : EngineWorld repository := {
  ew_owner := fun _ => true;
  ew_abort_requested := fun _ => false
}.

(** * A worked example: the ticket [T1], done by a worker and accepted *)

Definition sample_ticket : string :=
  "---" +:+ LF +:+ "type: devlegate.ticket" +:+ LF +:+ "title: T" +:+ LF +:+ "---" +:+ LF +:+ "body" +:+ LF.

(** A reader for the sample's frontmatter. *)
Definition sample_yaml (text : string) : string + dict :=
  inr [("type", PStr "devlegate.ticket"); ("title", PStr "T")].

Definition finished_report (checkpoint : nat) : ExecutionReport :=
  mkReport "E1" "T1" (object_name 1000) (object_name 0) "devlegate/work/T1" "/x/work/T1"
    (Some (object_name checkpoint))
    (mkResult 0 None None (Some (mkClaim "completed" "did it" [] [] None)) "completed" [] []
       "valid worker claim" true) None None.

Definition sample_directories : list (path * node) :=
  map (fun p => (p, Dir))
    [[]; ["backlog"]; ["todo"]; ["review"]; ["accepted"]; ["done"]; ["executions"]; ["executions"; "T1"]].

Definition sample_files (files : list (string * string)) : tree :=
  tree_of files (list_to_map sample_directories).

Definition report_file : string := "executions/T1/E1.json".

(** The ticket in todo, then in review with its report, then accepted. *)
Definition sample_commits (report : ExecutionReport) : list (string * snapshot) :=
  let todo := [("todo/T1.md", sample_ticket)] in
  let review := [("review/T1.md", sample_ticket); (report_file, to_json report)] in
  let accepted := [("accepted/T1.md", sample_ticket); (report_file, to_json report)] in
  [(object_name 0, mkSnapshot None (changes_between [] todo) todo);
   (object_name 1, mkSnapshot (Some (object_name 0)) (changes_between todo review) review);
   (object_name 2, mkSnapshot (Some (object_name 1)) (changes_between review accepted) accepted)].

(** A remote that starts or stops to accept the pushes of the control branch. *)
Definition with_pushes (accepts : bool) (w : repository) : repository :=
  mkRepository (rp_commits w) (rp_head w) (rp_tip w) (rp_product w) (rp_checkout w) (rp_branches w)
    (rp_files w) accepts.

Definition sample_repository (report : ExecutionReport) : repository :=
  mkRepository (sample_commits report) (object_name 2) (object_name 2) (object_name 1000)
    (object_name 1000) [("refs/heads/devlegate/work/T1", default "" (rep_workspace_head report))]
    (sample_files [("accepted/T1.md", sample_ticket); (report_file, to_json report)]) true.

(** * The repository satisfies what is assumed of Git *)

(** A character of an object name. *)
Definition name_char (c : Ascii.ascii) : bool :=
  negb (is_cont c) && negb (is_space (String c "")) && negb (Ascii.eqb c COLON) &&
  negb (Ascii.eqb c CARET) && negb (Ascii.eqb c DOT) &&
  negb (existsb (String.eqb (String c "")) line_breaks).

Lemma hex_name_char c : is_lower_hex (byte_lower c) = true -> name_char c = true.
Proof. destruct c as [[] [] [] [] [] [] [] []]; vm_compute; done. Qed.

Lemma identity_name x : identity x -> all_bytes name_char x = true /\ x <> "".
Proof.
  unfold _is_git_identity. intros [Hl Hx]%andb_true_iff. split.
  - clear Hl. induction x as [|c x IH]; [done|]. cbn in *. apply andb_true_iff in Hx as [Hc Hx].
    rewrite hex_name_char by done. by apply IH.
  - by intros ->.
Qed.

Lemma name_chars x : all_bytes name_char x = true ->
  utf8_chars x = map (fun c => String c "") (String.list_ascii_of_string x).
Proof.
  induction x as [|c x IH]; [done|]. cbn [all_bytes]. intros [Hc Hx]%andb_true_iff.
  cbn [utf8_chars String.list_ascii_of_string map]. rewrite IH by done.
  destruct x as [|d x]; [done|]. cbn. apply andb_true_iff in Hx as [Hd _].
  unfold name_char in Hd. bsplit. by rewrite H.
Qed.

Lemma name_elem x ch : all_bytes name_char x = true -> ch ∈ utf8_chars x ->
  exists c, ch = String c "" /\ name_char c = true.
Proof.
  intros Hx. rewrite name_chars by done. intros (c & -> & Hc)%list_elem_of_fmap. exists c.
  split; [done|]. induction x as [|d x IH]; [by apply not_elem_of_nil in Hc|].
  cbn in Hx, Hc. apply andb_true_iff in Hx as [Hd Hx]. apply elem_of_cons in Hc as [->|Hc]; [done|].
  by apply IH.
Qed.

Lemma split_word acc cs :
  (forall ch, ch ∈ cs -> is_space ch = false) -> split_words acc cs =
  match acc, cs with [], [] => [] | _, _ => [of_chars (rev acc ++ cs)] end.
Proof.
  revert acc. induction cs as [|ch cs IH]; intros acc Hcs.
  - cbn. rewrite app_nil_r. by destruct acc.
  - cbn [split_words]. rewrite (Hcs ch) by left.
    rewrite IH by (intros; apply Hcs; by right). cbn [rev]. rewrite <- app_assoc. by destruct acc.
Qed.

Lemma identity_words x : identity x -> head (words x) = Some x.
Proof.
  intros [Hx Hne]%identity_name. unfold words. rewrite split_word.
  - cbn [rev app]. rewrite of_utf8_chars. destruct (utf8_chars x) eqn:Hc; [|done].
    by rewrite <- (of_utf8_chars x), Hc in Hne.
  - intros ch Hch. apply name_elem in Hch as (c & -> & Hc); [|done]. unfold name_char in Hc. by bsplit.
Qed.

Lemma identity_strip x : identity x -> strip x = x.
Proof.
  intros [Hx _]%identity_name. unfold strip.
  assert (Hall : Forall (fun ch => is_space ch = false) (utf8_chars x)).
  { apply Forall_forall. intros ch Hch. apply name_elem in Hch as (c & -> & Hc); [|done].
    unfold name_char in Hc. bsplit. assumption. }
  rewrite (drop_while_none _ (utf8_chars x)) by done.
  rewrite drop_while_none by (by apply Forall_rev). by rewrite rev_involutive, of_utf8_chars.
Qed.

Lemma partition_name sep x rest :
  all_bytes (fun c => negb (Ascii.eqb c sep)) x = true ->
  partition sep (x +:+ String sep rest) = (x, Some rest).
Proof.
  induction x as [|c x IH].
  - intros _. rewrite str_app_nil_l. cbn [partition]. by rewrite Ascii.eqb_refl.
  - cbn [all_bytes]. intros [Hc Hx]%andb_true_iff. bsplit. rewrite str_app_cons. cbn [partition].
    by rewrite Hc, IH.
Qed.

Lemma no_separator sep x rest :
  all_bytes (fun c => negb (Ascii.eqb c sep)) (x +:+ rest) = true ->
  partition sep (x +:+ rest) = (x +:+ rest, None).
Proof.
  generalize (x +:+ rest). induction s as [|c s IH]; cbn [all_bytes partition]; [done|]. intros [Hc Hs]%andb_true_iff. bsplit.
  by rewrite Hc, IH.
Qed.

Lemma name_without sep x :
  sep = COLON \/ sep = CARET \/ sep = DOT -> all_bytes name_char x = true ->
  all_bytes (fun c => negb (Ascii.eqb c sep)) x = true.
Proof.
  intros Hs. induction x as [|c x IH]; [done|]. cbn [all_bytes]. intros [Hc Hx]%andb_true_iff.
  rewrite IH by done. unfold name_char in Hc. bsplit. by destruct Hs as [->|[->| ->]]; apply andb_true_iff; split; rewrite ?H, ?H0, ?H1, ?H2, ?H3, ?H4.
Qed.

Lemma all_bytes_snoc p x c : all_bytes p (x +:+ String c "") = all_bytes p x && p c.
Proof.
  induction x as [|d x IH].
  - rewrite str_app_nil_l. cbn [all_bytes]. by rewrite andb_true_r.
  - rewrite str_app_cons. cbn [all_bytes]. by rewrite IH, andb_assoc.
Qed.

Lemma revision_parent w x :
  identity x -> revision w (x +:+ "^") =
    (d ← dget (rp_commits w) x;
     match sn_parent d with
     | Some p => if _is_git_identity (PStr (strip p)) then Some p else None
     | None => None
     end).
Proof.
  intros [Hx _]%identity_name. unfold revision.
  rewrite no_separator.
  - change "^" with (String CARET ""). rewrite partition_name; [done|]. apply name_without; auto.
  - change "^" with (String CARET ""). rewrite all_bytes_snoc. rewrite name_without by auto. done.
Qed.

Lemma revision_file w x file :
  identity x -> revision w (x +:+ ":" +:+ file) = (d ← dget (rp_commits w) x; dget (sn_files d) file).
Proof.
  intros [Hx _]%identity_name. unfold revision.
  change (":" +:+ file) with (String COLON file). rewrite partition_name; [done|].
  apply name_without; auto.
Qed.

Definition commit_of_snapshot (d : snapshot) : commit_data :=
  mkCommit (match parent_of d with Some p => [p] | None => [] end) (splitlines (unlines (sn_changes d)))
    (fun file => strip <$> dget (sn_files d) file) (fun file => dget (sn_files d) file).

Definition commits_of (w : repository) (x : string) : option commit_data :=
  commit_of_snapshot <$> dget (rp_commits w) x.

Lemma dget_grows {A} (l m : list (string * A)) x d : dget l x = Some d -> dget (l ++ m) x = Some d.
Proof. induction l as [|[k v] l IH]; [done|]. cbn. destruct (k =? x)%string; auto. Qed.

Lemma control_grows args w x d :
  dget (rp_commits w) x = Some d -> dget (rp_commits (snd (control_answer args w))) x = Some d.
Proof.
  intros Hd. unfold control_answer.
  repeat match goal with |- context [if (arg 0 args =? ?s)%string then _ else _] =>
    destruct (arg 0 args =? s)%string end; try done.
  - unfold record_commit. case_bool_decide; [done|]. by apply dget_grows.
  - unfold push_to. destruct (partition _ _) as [name [?|]]; [|done]. by destruct (_ && _ && _).
  - unfold move_to. by destruct (dget (rp_commits w) (rp_tip w)).
  - unfold move_to. by destruct (dget (rp_commits w) (List.last args "")).
Qed.

Lemma repo_keeps args w : rp_commits (snd (repo_answer args w)) = rp_commits w.
Proof.
  unfold repo_answer.
  repeat match goal with |- context [if (arg 0 args =? ?s)%string then _ else _] =>
    destruct (arg 0 args =? s)%string end; try done.
  cbn. unfold push_product. destruct (partition _ _) as [? [target|]]; [|done]. by destruct (target =? _)%string.
Qed.

Lemma repository_grows x d : keeps (fun _ => True) (fun w => commits_of w x = Some d).
Proof.
  unfold commits_of. split_and!; try done. intros dir args w _ (s & Hs & ->)%fmap_Some.
  apply fmap_Some. exists s. split; [|done]. cbn. unfold repository_run.
  case_bool_decide; [pose proof (control_grows args w x s Hs) as Hg | pose proof (repo_keeps args w) as Hg].
  - by destruct (control_answer args w).
  - destruct (repo_answer args w). cbn in *. by rewrite Hg.
Qed.

Lemma walk_within commits fuel stop b x :
  let links := fun y => commit_of_snapshot <$> dget commits y in
  x ∈ walk fuel commits stop b -> within links x b.
Proof.
  intros links. revert b. induction fuel as [|fuel IH]; intros b; cbn; [by intros ?%not_elem_of_nil|].
  destruct (b =? stop)%string; [by intros ?%not_elem_of_nil|].
  destruct (dget commits b) as [d|] eqn:Hd; [|by intros ?%not_elem_of_nil].
  rewrite elem_of_app. intros [Hx| ->%list_elem_of_singleton]; [|apply rtc_refl].
  destruct (parent_of d) as [p|] eqn:Hp; [|by apply not_elem_of_nil in Hx].
  apply IH in Hx. eapply rtc_r; [exact Hx|]. exists (commit_of_snapshot d). unfold links. rewrite Hd.
  split; [done|]. cbn. rewrite Hp. by left.
Qed.

Lemma identity_text x : identity x -> field_text x.
Proof.
  intros [Hx _]%identity_name. split.
  - unfold one_line. apply Forall_forall. intros ch Hch. apply name_elem in Hch as (c & -> & Hc); [|done].
    unfold name_char in Hc. bsplit. assumption.
  - destruct x as [|c x]; [done|]. cbn [all_bytes starts_char] in *. apply andb_true_iff in Hx as [Hc _].
    unfold name_char in Hc. bsplit. by apply negb_true_iff.
Qed.

(** The answer of the control worktree to a command. *)
Lemma control_run args w :
  gw_run (st_control_worktree sample_settings) args w =
  let '(p, w') := control_answer args w in (Ok p, w').
Proof. reflexivity. Qed.

Lemma answered o : failed (answer o) = false -> o = Some (stdout (answer o)).
Proof. by destruct o. Qed.

#[export] Instance repository_history : ControlHistory repository sample_settings.
Proof.
  refine (Build_ControlHistory _ _ _ commits_of (fun w => strip (rp_head w))
            (fun w => head (words (rp_tip w))) (fun w r => r = strip (rp_tip w)) repository_grows
            _ _ _ _ _ _ _ _ _ _ _ _).
  - intros x w p w'. rewrite control_run. intros [= <- <-] Hx Hp.
    change (List.last ["rev-parse"; x +:+ "^"] "") with (x +:+ "^") in *.
    apply answered in Hp. rewrite revision_parent in * by done. unfold commits_of.
    destruct (dget (rp_commits w) x) as [d|]; [|done].
    cbn [mbind option_bind fmap option_fmap option_map] in *.
    destruct (sn_parent d) as [q|] eqn:Hq; [|done].
    destruct (_is_git_identity (PStr (strip q))) eqn:Hi; [|done]. split; [exact Hi|].
    exists (commit_of_snapshot d). split; [done|]. cbn. unfold parent_of. by rewrite Hq.
  - intros x w p w'. rewrite control_run. intros Hr Hx Hp. unfold commits_of.
    change (control_answer _ w) with (match dget (rp_commits w) x with
        | Some d => said (unlines (sn_changes d)) | None => refused end, w) in Hr.
    destruct (dget (rp_commits w) x) as [d|] eqn:Hd; injection Hr as <- <-; [|done].
    exists (commit_of_snapshot d). by rewrite Hd.
  - intros x file w p w'. rewrite control_run. intros [= <- <-] Hx Hp.
    change (List.last ["rev-parse"; x +:+ ":" +:+ file] "") with (x +:+ ":" +:+ file) in *.
    apply answered in Hp. rewrite revision_file in * by done. unfold commits_of.
    destruct (dget (rp_commits w) x) as [d|]; [|done]. cbn in *. exists (commit_of_snapshot d).
    split; [done|]. cbn. by destruct (dget (sn_files d) file).
  - intros x file w p w'. rewrite control_run. intros [= <- <-] Hx Hp.
    change (List.last ["show"; x +:+ ":" +:+ file] "") with (x +:+ ":" +:+ file) in *.
    apply answered in Hp. rewrite revision_file in * by done. unfold commits_of.
    destruct (dget (rp_commits w) x) as [d|]; [|done]. cbn in *. exists (commit_of_snapshot d).
    split; [done|]. cbn. exact Hp.
  - intros w p w'. rewrite control_run. intros [= <- <-] Hp. apply answered in Hp.
    change (List.last ["rev-parse"; "HEAD"] "") with "HEAD" in *.
    change (revision w "HEAD") with
      (if bool_decide (is_Some (dget (rp_commits w) (rp_head w))) &&
          _is_git_identity (PStr (strip (rp_head w))) then Some (rp_head w) else None) in *.
    destruct (_ && _) eqn:Hi; [|done]. by apply andb_true_iff in Hi as [_ Hi].
  - intros w p w'. rewrite control_run. intros [= <- <-] Hp. apply answered in Hp.
    change (List.last ["rev-parse"; "--verify"; "origin" +:+ "/" +:+ "control"] "") with
      ("origin" +:+ "/" +:+ "control") in *.
    change (revision w ("origin" +:+ "/" +:+ "control")) with
      (if bool_decide (is_Some (dget (rp_commits w) (rp_tip w))) &&
          _is_git_identity (PStr (strip (rp_tip w))) then Some (rp_tip w) else None) in *.
    destruct (_ && _) eqn:Hi; [|done]. by apply andb_true_iff in Hi as [_ Hi].
  - intros a b w p w'. rewrite control_run. intros Hr Ha Hb Hp.
    change (control_answer _ w) with (if is_ancestor_of w a b then said "" else refused, w) in Hr.
    unfold is_ancestor_of in Hr. destruct (existsb _ _) eqn:He; injection Hr as <- <-; [|done].
    apply existsb_exists in He as (y & Hy%list_elem_of_In & ->%String.eqb_eq). by eapply walk_within.
  - intros r file w p w'. rewrite control_run. intros Hr Hx Hp.
    change (control_answer _ w) with
      (said (unlines (List.filter (fun x => _is_git_identity (PStr x)) (changed_by w (named w r) file))), w) in Hr.
    injection Hr as <- <-. assert (named w r = r) as ->.
    { unfold named. destruct (String.eqb_spec r "HEAD") as [->|_]; [done|].
      by destruct (String.eqb_spec r "origin/control") as [->|_]. }
    cbn [stdout said]. rewrite splitlines_unlines.
    + apply Forall_forall. intros x Hin%list_elem_of_In. apply filter_In in Hin as [Hin Hi].
      split; [done|]. unfold changed_by in Hin. apply filter_In in Hin as [Hin _].
      apply in_rev, list_elem_of_In in Hin. by eapply walk_within.
    + apply Forall_forall. intros x Hin%list_elem_of_In. apply filter_In in Hin as [_ Hi].
      by apply identity_text.
  - intros w p w'. rewrite control_run. by intros [= <- <-] _.
  - intros a b w p w'. rewrite control_run. intros Hr Ha Hb Hp.
    change (control_answer _ w) with (range w (a +:+ ".." +:+ b), w) in Hr. injection Hr as <- <-.
    unfold range in *. change (".." +:+ b) with (String DOT (String DOT b)) in *.
    rewrite partition_name in * by (apply name_without; [auto|by apply identity_name]).
    cbn [stdout said]. rewrite splitlines_unlines.
    + apply Forall_forall. intros x Hx%list_elem_of_In. apply filter_In in Hx as [Hx Hi].
      split; [done|]. apply list_elem_of_In in Hx. by eapply walk_within.
    + apply Forall_forall. intros x Hx%list_elem_of_In. apply filter_In in Hx as [_ Hi].
      by apply identity_text.
  - intros x w p w'. rewrite control_run. intros Hr Hx Hp.
    change (control_answer _ w) with (push_to w (x +:+ ":refs/heads/control")) in Hr.
    unfold push_to in Hr. change ":refs/heads/control" with (String COLON "refs/heads/control") in Hr.
    rewrite partition_name in Hr by (apply name_without; [auto|by apply identity_name]).
    destruct (String.eqb_spec x "HEAD") as [->|_]; [done|].
    destruct (_ && _ && _); injection Hr as <- <-; [|done]. cbn. by apply identity_words.
  - intros w p w'. rewrite control_run. intros Hr Hp.
    change (control_answer _ w) with
      (if rp_pushes w && is_ancestor_of w (rp_tip w) (rp_head w) && _is_git_identity (PStr (rp_head w))
       then (said "", with_control w (rp_commits w) (rp_head w) (rp_head w) (rp_files w))
       else (refused, w)) in Hr.
    destruct (_ && _ && _) eqn:Hi; injection Hr as <- <-; [|done]. apply andb_true_iff in Hi as [_ Hi].
    rewrite (identity_strip _ Hi). exact (identity_words _ Hi).
Qed.

#[export] Instance repository_product : ProductHistory repository sample_settings.
Proof.
  refine (Build_ProductHistory _ _ _ (fun w => head (words (rp_product w)))
            (fun a b => product_before a b = true) _ _).
  - intros w p w' Hr _. by injection Hr as <- <-.
  - intros a b w p w' Hr Hp.
    change (gw_run _ _ w) with (Ok (if product_before a b then said "" else refused) : res CompletedProcess, w) in Hr.
    injection Hr as <- <-. by destruct (product_before a b).
Qed.
