(* ===== verification/LifecycleSafety.v ===== *)
(** The publication of an execution's result is safe: which commands it may run,
    what it may throw away, what its success means for the control branch, and how
    often it tries. *)

From S2P Require Export IntegrationSafety Lifecycle.

(** * The lifecycle commit, as an abstract property of the history *)

(** The commit adds the report (and its artifact), moves the ticket's file
    unchanged from todo to review when the report concludes, does nothing else,
    and stands on a descendant of the revision the execution was admitted at. *)
Definition exact_lifecycle (c : settings) (commits : string -> option commit_data)
    (report : ExecutionReport) (apply_conclusion : bool) (parent x : string) : Prop :=
  exists d, commits x = Some d /\ head (cd_parents d) = Some parent /\
    within commits (rep_control_head report) parent /\
    (forall l, l ∈ cd_changes d <-> l ∈ lifecycle_changes c apply_conclusion report) /\
    cd_text d (report_path report) = Some (to_json report) /\
    (forall artifact, rep_report_artifact report = Some artifact ->
       exists claim, er_claim (rep_result report) = Some claim /\
         is_Some (cl_report claim) /\ cd_text d artifact = cl_report claim) /\
    (moves_ticket apply_conclusion report = true ->
       exists e blob, commits parent = Some e /\
         cd_blob e (managed_file c Todo (rep_ticket_id report)) = Some blob /\
         cd_blob d (managed_file c Review (rep_ticket_id report)) = Some blob).

Section Safe.
Context {W : Type} `{GitWorld W, !EngineWorld W}.
Variable c : settings.
Context `{!ControlHistory W c}.
Variable loads_yaml : string -> string + dict.
Variables (randoms_md randoms_json : list string).
Variable report : ExecutionReport.
Variable apply_conclusion : bool.

(** The world in which the publication begins. *)
Variable start : W.

Abbreviation exact_on commits parent x := (exact_lifecycle c commits report apply_conclusion parent x).

(** The remote control branch was fetched at the revision, at a moment of the run. *)
Definition fetched (w' : W) (remote : string) : Prop := during start w' (fun v => ch_tracked v remote).

(** What the control worktree had as its head was a commit that this publication
    makes again, on top of a revision of the fetched branch. *)
Definition redoes (w' : W) (remote : string) : Prop := exists x parent,
  during start w' (fun v => ch_head v = x) /\ exact_on (ch_commit w') parent x /\
  within (ch_commit w') parent remote /\ fetched w' remote.

Definition replays (w' : W) (e : event) : Prop :=
  match e with
  | Run dir args =>
      passive args = true \/
      dir = st_control_worktree c /\
      (args = ["push"; st_remote_name c; "HEAD:refs/heads/" +:+ st_control_branch c] \/
       exists remote, args = ["reset"; "--hard"; remote] /\ redoes w' remote)
  | Edit _ => True
  | _ => False
  end.

Lemma lifecycle_exact_stays w w' parent x :
  evolves w w' -> exact_on (ch_commit w) parent x -> exact_on (ch_commit w') parent x.
Proof.
  intros He (d & Hd & Hp & Hw & Hc & Ht & Ha & Hm). exists d. split_and!; try done.
  - by eapply commit_stays.
  - by eapply within_stays.
  - intros Happly. destruct (Hm Happly) as (e & blob & Hx & Hb). exists e, blob.
    split; [|done]. by eapply commit_stays.
Qed.

Lemma fetched_later w w' remote : evolves w w' -> fetched w remote -> fetched w' remote.
Proof. apply seen_later. Qed.

Lemma redoes_later w w' remote : evolves w w' -> redoes w remote -> redoes w' remote.
Proof.
  intros He (x & parent & Hh & Hx & Hw & Hf). exists x, parent. split_and!.
  - by eapply seen_later.
  - by eapply lifecycle_exact_stays.
  - by eapply within_stays.
  - by eapply fetched_later.
Qed.

#[local] Instance replays_allowance : Allowance replays.
Proof.
  intros w w' e He. destruct e as [dir args| | |]; try done. cbn.
  intros [Hp|[-> [Hp|(remote & Ha & Hr)]]]; [by left|right; split; [done|by left]|].
  right. split; [done|]. right. exists remote. split; [done|]. by eapply redoes_later.
Qed.

Ltac passive_step := safe_step; try (left; reflexivity).
Ltac passive_steps := repeat passive_step.

#[local] Hint Extern 1 (quietly (Run _ _)) => reflexivity : commands.
#[local] Hint Resolve observes_quietly : commands.

Lemma only_silently {A} (m : py (logged W) A) s : only quietly m -> safe replays s m (fun _ _ => True).
Proof. intros Hm. eapply safe_only; [exact Hm|]. intros [dir args| | |] w' _; try done. by left. Qed.

(** ** Recognition *)

Lemma quiet_report_at commit : only quietly (_control_report_at c commit report).
Proof. unfold _control_report_at, show_file. only_auto. Qed.

Lemma quiet_alone a b : only quietly (single_lineage c a b).
Proof. unfold single_lineage. only_auto. Qed.

(** The artifact's bytes at the commit are the claim's long report. *)
Definition artifact_at (w : W) (x : string) : Prop := forall artifact,
  rep_report_artifact report = Some artifact ->
  exists d claim, ch_commit w x = Some d /\ er_claim (rep_result report) = Some claim /\
    is_Some (cl_report claim) /\ cd_text d artifact = cl_report claim.

Lemma artifact_check s x :
  identity x -> safe replays s (artifact_is_exact c x report) (fun b w => b = true -> artifact_at w x).
Proof.
  intros Hx. unfold artifact_is_exact, artifact_at.
  destruct (rep_report_artifact report) as [artifact|]; [|by apply safe_ret].
  unfold show_file. passive_step. apply safe_ret. intros Hb a [= <-]. bsplit.
  eapply ch_text_read in R as (d & Hd & Ht); [|done..]. exists d.
  destruct (er_claim _) as [claim|]; [|done]. bsplit. exists claim. rewrite Ht.
  split_and!; [done|done| |done]. match goal with Hs : Some _ = _ |- _ => by rewrite <- Hs end.
Qed.

Definition ticket_moved (w : W) (x parent : string) : Prop := exists d e blob,
  ch_commit w x = Some d /\ ch_commit w parent = Some e /\
  cd_blob e (managed_file c Todo (rep_ticket_id report)) = Some blob /\
  cd_blob d (managed_file c Review (rep_ticket_id report)) = Some blob.

Lemma moved_check s x parent :
  identity x -> identity parent ->
  safe replays s (ticket_is_moved c x parent report) (fun b w => b = true -> ticket_moved w x parent).
Proof.
  intros Hx Hp. unfold ticket_is_moved. passive_steps. intros Hb. bsplit.
  eapply ch_blob_read in R as (e & He & Hb1); [|done..].
  eapply ch_blob_read in R0 as (d & Hd & Hb2); [|done..].
  carry He to (lg_world u0). exists d, e, (strip (stdout p)). split_and!; try done. congruence.
Qed.

Lemma lifecycle_exact_check s x :
  identity x -> identity (rep_control_head report) ->
  safe replays s (_lifecycle_commit_is_exact c x report apply_conclusion)
    (fun b w => b = true -> exists parent, identity parent /\ exact_on (ch_commit w) parent x).
Proof.
  intros Hx Hh. unfold _lifecycle_commit_is_exact.
  passive_step. destruct (failed p) eqn:Hp; [by apply safe_ret|]. cbv zeta.
  apply ch_parent_read in R as (Hi & d & Hd & Hpar); [|done..].
  eapply safe_bind; [apply _|apply only_silently, quiet_alone|]. intros alone v1 E1 _.
  destruct (negb alone); [by apply safe_ret|].
  passive_step. destruct (failed p0) eqn:Ha; [by apply safe_ret|].
  eapply ch_ancestor_read in R as Hw; [|done..].
  eapply safe_bind; [apply _|apply only_silently, quiet_report_at|]. intros recovered v2 E2 _.
  destruct (is_missing recovered); [by apply safe_ret|].
  passive_step. destruct (failed p1 || _) eqn:Hn; [by apply safe_ret|]. bsplit.
  eapply ch_changes_read in R0 as (d2 & Hd2 & Hc); [|done..].
  unfold show_file. passive_step. destruct (failed p2 || _) eqn:Hb; [by apply safe_ret|]. bsplit.
  eapply ch_text_read in R0 as (d3 & Hd3 & Ht); [|done..].
  eapply safe_bind; [apply _|by apply artifact_check|]. intros artifact v3 E3 Hart.
  destruct artifact; [|by apply safe_ret]. specialize (Hart eq_refl). cbn [negb].
  carry Hd to (lg_world v3). carry Hd2 to (lg_world v3). carry Hd3 to (lg_world v3).
  simplify_eq. rename Hd into Hd3.
  assert (Hlater : forall w, evolves (lg_world v3) w ->
    (moves_ticket apply_conclusion report = true -> ticket_moved w x (strip (stdout p))) ->
    exists parent, identity parent /\ exact_on (ch_commit w) parent x).
  { intros w Vw Hm. exists (strip (stdout p)). split; [done|]. eexists. split_and!.
    - by eapply commit_stays.
    - done.
    - eapply within_stays; [|exact Hw]. evolve.
    - intros l. rewrite <- Hc. by apply same_lines_spec.
    - congruence.
    - intros a Hra. destruct (Hart a Hra) as (d4 & claim & Hd4 & Hcl). exists claim.
      by simplify_eq.
    - intros Hmove. destruct (Hm Hmove) as (d4 & e & blob & Hd4 & He & Hb1 & Hb2).
      carry Hd3 to w. simplify_eq. by exists e, blob. }
  destruct (moves_ticket _ _) eqn:Hmv.
  - eapply safe_weaken; [by apply moved_check|]. cbn beta. intros b w Vw Hm Hbt. apply Hlater; auto.
  - apply safe_ret. intros _. apply Hlater; [apply rtc_refl|discriminate].
Qed.

(** ** The published commit *)

(** A revision of the fetched branch contains a commit that is exactly this
    publication. *)
Definition already_published (w' : W) : Prop := exists x parent remote,
  exact_on (ch_commit w') parent x /\ fetched w' remote /\ within (ch_commit w') x remote.

Lemma already_later w w' : evolves w w' -> already_published w -> already_published w'.
Proof.
  intros He (x & parent & remote & Hx & Hf & Hw). exists x, parent, remote. split_and!.
  - by eapply lifecycle_exact_stays.
  - by eapply fetched_later.
  - by eapply within_stays.
Qed.

Lemma first_check commits s :
  identity (rep_control_head report) -> Forall (fun x => identity x) commits ->
  safe replays s (first_exact c commits report apply_conclusion)
    (fun o w => forall x, o = Some x -> x ∈ commits /\ exists parent, exact_on (ch_commit w) parent x).
Proof.
  intros Hh Hall. revert s. induction commits as [|x rest IH]; intros s; cbn [first_exact].
  { by apply safe_ret. }
  apply Forall_cons in Hall as [Hx Hall].
  eapply safe_bind; [apply _|by apply lifecycle_exact_check|]. intros b v E Hb.
  destruct b.
  - apply safe_ret. intros y [= <-]. split; [left|]. destruct (Hb eq_refl) as (parent & _ & He).
    by exists parent.
  - eapply safe_weaken; [by apply IH|]. cbn beta. intros o w _ Ho y Hy.
    destruct (Ho y Hy). split; [by right|done].
Qed.

Lemma published_check s remote :
  identity (rep_control_head report) -> identity remote -> fetched (lg_world s) remote ->
  safe replays s (_remote_lifecycle_commit c remote report apply_conclusion)
    (fun o w => o <> None -> already_published w).
Proof.
  intros Hh Hr Hf. unfold _remote_lifecycle_commit. passive_step.
  destruct (failed p) eqn:Hp; [by apply safe_ret|].
  eapply ch_log_read in R; [|done..].
  eapply safe_weaken; [apply first_check; [done|]|].
  { eapply Forall_impl; [exact R|]. by intros x [Hx _]. }
  cbn beta. intros o w Vw Ho Hsome. destruct o as [x|]; [|done].
  destruct (Ho x eq_refl) as (Hin & parent & Hx). exists x, parent, remote. split_and!; [done| |].
  - eapply (fetched_later (lg_world s)); [evolve|done].
  - eapply Forall_forall in R as [_ Hw]; [|exact Hin]. eapply within_stays; [|exact Hw]. evolve.
Qed.

(** ** What the worktree may give up *)

Lemma unpublished_check s x remote :
  identity x -> identity remote -> identity (rep_control_head report) ->
  during start (lg_world s) (fun v => ch_head v = x) -> fetched (lg_world s) remote ->
  safe replays s (_prove_unpublished_lifecycle_lineage c x remote report apply_conclusion)
    (fun _ w => redoes w remote).
Proof.
  intros Hx Hr Hh Hl Hf. unfold _prove_unpublished_lifecycle_lineage.
  passive_step. destruct (failed p) eqn:Hp; [apply safe_raise|]. cbv zeta.
  apply ch_parent_read in R as (Hi & d & Hd & Hpar); [|done..].
  passive_step. destruct (failed p0) eqn:Ha; [apply safe_raise|].
  eapply ch_ancestor_read in R as Hw; [|done..].
  eapply safe_bind; [apply _|apply only_silently, quiet_alone|]. intros alone v1 E1 _.
  destruct (negb alone); [apply safe_raise|].
  eapply safe_bind; [apply _|by apply lifecycle_exact_check|]. intros b v2 E2 Hb.
  destruct b; [|apply safe_raise]. apply safe_ret. destruct (Hb eq_refl) as (parent & _ & He).
  exists x, parent. split_and!; [by eapply (seen_later start (lg_world s)); [evolve|]|done| |].
  - destruct He as (d' & Hd' & Hpar' & _). carry Hd to (lg_world v2). simplify_eq.
    eapply within_stays; [|exact Hw]. evolve.
  - by eapply (fetched_later (lg_world s)); [evolve|].
Qed.

Lemma quiet_descendant state candidate : only quietly (_prove_control_descendant c state candidate report).
Proof.
  unfold _prove_control_descendant, _prove_bound_ticket_descendant, show_file, blocked. only_auto.
Qed.
#[local] Hint Resolve quiet_descendant : commands.

Lemma quiet_forward error : only quietly (fast_forward c error).
Proof. unfold fast_forward, blocked. only_auto. Qed.
#[local] Hint Resolve quiet_forward : commands.

Lemma reach_check s state local remote :
  identity local -> identity remote -> identity (rep_control_head report) ->
  during start (lg_world s) (fun v => ch_head v = local) -> fetched (lg_world s) remote ->
  safe replays s (reach_descendant c state report apply_conclusion local remote) (fun _ _ => True).
Proof.
  intros Hl Hr Hh Hd Hf. unfold reach_descendant. destruct (negb _).
  - passive_step. passive_step.
    eapply (safe_bind _ _ _ _ (fun _ _ => True)).
    { destruct (_ && _); [apply only_silently, quiet_descendant|].
      eapply safe_bind; [apply _|apply unpublished_check|]; [done..| | |].
      { by eapply (seen_later start (lg_world s)); [evolve|]. }
      { by eapply (fetched_later (lg_world s)); [evolve|]. }
      cbn beta. intros _ v1 E1 Hredo.
      eapply safe_bind; [apply _|apply only_silently, quiet_descendant|]. intros _ v2 E2 _. safe_step.
      { right. split; [done|]. right. exists remote. split; [done|].
        eapply (redoes_later (lg_world v1)); [|exact Hredo]. evolve. }
      destruct (failed p1); [apply safe_raise|by apply safe_ret]. }
    intros _ v3 E3 _. destruct (_ && _); [apply only_silently, quiet_forward|by apply safe_ret].
  - destruct (negb _); apply only_silently; only_auto.
Qed.

(** ** The attempts *)

(** The publication's result: the head of the control worktree, that the control
    branch has now, or that follows an earlier publication. *)
Definition delivered (head : string) (w' : W) : Prop :=
  identity head /\ during start w' (fun v => ch_head v = head) /\
  (already_published w' \/ during start w' (fun v => ch_tip v = Some head)).

Lemma fetch_check s :
  evolves start (lg_world s) ->
  safe replays s (fetch_control c) (fun remote w => identity remote /\ fetched w remote).
Proof.
  intros V0. unfold fetch_control.
  passive_step. destruct (negb _); [apply safe_raise|].
  passive_step. destruct (failed p0); [apply safe_raise|].
  passive_step. destruct (failed p1) eqn:Hf; [apply safe_raise|]. apply safe_ret.
  eapply ch_tracked_read in R1 as [Hi Ht]; [|done]. split; [done|].
  exists (lg_world u1). split_and!; [evolve|evolve|done].
Qed.

(** [git rev-parse HEAD], at the end of an operation. *)
Lemma head_check s (Post : string -> W -> Prop) :
  evolves start (lg_world s) ->
  (forall w head, evolves (lg_world s) w -> identity head -> ch_head w = head -> Post head w) ->
  safe replays s (head ← _git_check (st_control_worktree c) ["rev-parse"; "HEAD"]; mret (strip (stdout head)))
    Post.
Proof.
  intros V0 HP. passive_step. destruct R as [R Hf]. apply safe_ret.
  eapply ch_head_read in R as [Hi Hh]; [|done]. by apply HP.
Qed.

Lemma adopt_check s state existing local remote :
  evolves start (lg_world s) -> already_published (lg_world s) ->
  safe replays s (adopt_published c state report existing local remote) delivered.
Proof.
  intros V0 Hal. unfold adopt_published.
  passive_step. destruct (failed p); [apply safe_raise|].
  eapply safe_bind; [apply _|apply only_silently, quiet_descendant|]. intros _ v1 E1 _.
  eapply (safe_bind _ _ _ _ (fun _ _ => True)).
  { destruct (local =? remote)%string; [by apply safe_ret|]. apply only_silently.
    unfold blocked. only_auto. }
  intros _ v2 E2 _. apply head_check; [evolve|]. intros w head Vw Hi Hh. split_and!; [done| |].
  - exists w. split_and!; [evolve|evolve|done].
  - left. by eapply (already_later (lg_world s)); [evolve|].
Qed.

Lemma replays_edit {A} (m : io A) s : safe replays s (in_control m) (fun _ _ => True).
Proof.
  eapply (safe_only _ (fun e => exists t, e = Edit t)); [apply only_edit; eauto|].
  by intros e w' _ [t ->].
Qed.

Lemma once_check s state :
  evolves start (lg_world s) ->
  safe replays s (_apply_lifecycle_once c loads_yaml randoms_md randoms_json state report apply_conclusion)
    (fun head w => identity head /\ ch_head w = head).
Proof.
  intros V0. unfold _apply_lifecycle_once.
  eapply safe_bind; [apply _|apply only_silently, only_ticket_store; apply observes_quietly|].
  intros store v1 E1 _.
  destruct (ts_by_id store !! rep_ticket_id report) as [ticket|]; [|apply safe_raise].
  destruct (negb _); [apply safe_raise|]. destruct (_ && _); [apply safe_raise|].
  eapply safe_bind; [apply _|apply replays_edit|]. intros _ v2 E2 _.
  eapply (safe_bind _ _ _ _ (fun _ _ => True)).
  { destruct (moves_ticket _ _); [|by apply safe_ret]. unfold move_to_review. safe_step.
    destruct (_ || _); [apply safe_raise|apply replays_edit]. }
  intros _ v3 E3 _.
  eapply safe_bind; [apply _|apply only_silently; unfold blocked; only_auto|]. intros _ v4 E4 _.
  passive_step. passive_step. destruct (failed p0); [apply safe_raise|].
  apply head_check; [evolve|]. auto.
Qed.

Lemma attempt_check s state :
  identity (rep_control_head report) -> evolves start (lg_world s) ->
  safe replays s
    (lifecycle_attempt c loads_yaml randoms_md randoms_json state report apply_conclusion)
    (fun o w => forall head, o = Some head -> delivered head w).
Proof.
  intros Hh V0. unfold lifecycle_attempt.
  eapply safe_bind; [apply _|by apply fetch_check|]. cbn beta. intros remote v1 E1 [Hr Hf].
  passive_step. destruct R as [R Hp]. cbv zeta. eapply ch_head_read in R as [Hl Hd]; [|done].
  eapply safe_bind; [apply _|apply published_check; [done..|]|].
  { by eapply (fetched_later (lg_world v1)); [evolve|]. }
  cbn beta. intros existing v2 E2 Hex. destruct existing as [existing|].
  - eapply safe_bind; [apply _|apply adopt_check; [evolve|by apply Hex]|]. cbn beta.
    intros head v3 E3 Hdel. apply safe_ret. by intros ? [= <-].
  - eapply safe_bind; [apply _|apply reach_check; [done..| |]|].
    { exists (lg_world u). split_and!; [evolve|evolve|done]. }
    { by eapply (fetched_later (lg_world v1)); [evolve|]. }
    cbn beta. intros _ v3 E3 _.
    eapply safe_bind; [apply _|apply once_check; evolve|]. cbn beta. intros head v4 E4 [Hi Hhead].
    safe_step; [right; split; [done|by left]|]. apply safe_ret. intros h Hsome.
    destruct (failed p0) eqn:Hpush; [done|]. injection Hsome as <-. split_and!; [done| |right].
    + exists (lg_world v4). split_and!; [evolve|evolve|done].
    + exists (lg_world u0). split_and!; [evolve|evolve|]. rewrite <- Hhead. by eapply ch_push_head.
Qed.

Lemma attempts_check n s state :
  identity (rep_control_head report) -> evolves start (lg_world s) ->
  safe replays s
    (lifecycle_attempts c loads_yaml randoms_md randoms_json n state report apply_conclusion) delivered.
Proof.
  intros Hh. revert s. induction n as [|n IH]; intros s V0; cbn [lifecycle_attempts]; [apply safe_raise|].
  eapply safe_bind; [apply _|by apply attempt_check|]. cbn beta. intros o v1 E1 Ho.
  destruct o as [head|]; [apply safe_ret; by apply Ho|]. apply IH. evolve.
Qed.

Lemma quiet_matches state : only quietly (_report_matches_execution_state c state report).
Proof.
  unfold _report_matches_execution_state, _execution_remote_head, blocked, engine_error. only_auto.
Qed.

Lemma lifecycle_check s state allow_unpublished :
  identity (rep_control_head report) -> evolves start (lg_world s) ->
  safe replays s
    (_apply_execution_lifecycle c loads_yaml randoms_md randoms_json state report allow_unpublished
       apply_conclusion) delivered.
Proof.
  intros Hh V0. unfold _apply_execution_lifecycle.
  eapply (safe_bind _ _ _ _ (fun _ _ => True)).
  { apply only_silently. destruct allow_unpublished; [|apply quiet_matches]. unfold blocked. only_auto. }
  intros _ v1 E1 _.
  eapply safe_bind; [apply _|apply only_silently, only_validate_control, observes_quietly|].
  intros _ v2 E2 _. apply attempts_check; [done|evolve].
Qed.
End Safe.

(** * How often it tries *)

Section Bounds.
Context {W : Type} `{GitWorld W}.
(** The commands that are counted. *)
Variable counted : event -> bool.

Definition occurrences (l : list event) : nat := length (List.filter counted l).

Definition at_most {A} (n : nat) (m : py (logged W) A) : Prop := forall s,
  exists new, lg_events (snd (m s)) = lg_events s ++ new /\ (occurrences new <= n)%nat.

Abbreviation uncounted := (fun e => counted e = false).

Lemma at_most_only {A} (m : py (logged W) A) : only uncounted m -> at_most 0 m.
Proof.
  intros Hm s. destruct (Hm s) as [(new & Hl & Hf) _]. exists new. split; [done|].
  unfold occurrences. clear Hl. induction Hf as [|e l He _ IH]; [done|]. cbn. by rewrite He.
Qed.

Lemma at_most_bind {A B} n k (m : py (logged W) A) (f : A -> py (logged W) B) :
  at_most n m -> (forall a, at_most k (f a)) -> at_most (n + k) (m ≫= f).
Proof.
  intros Hm Hf s. rewrite py_bind_run. destruct (Hm s) as (l1 & E1 & L1).
  destruct (m s) as [[a|e] s1]; cbn in *.
  - destruct (Hf a s1) as (l2 & E2 & L2). exists (l1 ++ l2). rewrite E2, E1, app_assoc. split; [done|].
    unfold occurrences in *. rewrite List.filter_app, List.length_app. lia.
  - exists l1. split; [done|lia].
Qed.

Lemma at_most_weaken {A} n k (m : py (logged W) A) : (n <= k)%nat -> at_most n m -> at_most k m.
Proof. intros Hk Hm s. destruct (Hm s) as (l & E & L). exists l. split; [done|lia]. Qed.

Lemma at_most_git repo args : at_most 1 (_git repo args).
Proof.
  intros s. unfold _git. destruct (gw_run _ _ _). exists [Run repo args]. split; [done|].
  unfold occurrences. cbn. by case_match; cbn; lia.
Qed.

Lemma at_most_check repo args : at_most 1 (_git_check repo args).
Proof.
  apply (at_most_bind 1 0); [apply at_most_git|]. intros p. apply at_most_only.
  destruct (failed p); [apply only_raise|apply only_ret].
Qed.

Lemma at_most_ret {A} (a : A) : at_most 0 (mret a).
Proof. apply at_most_only, only_ret. Qed.

Lemma at_most_raise {A} k msg : at_most 0 (py_raise k msg : py (logged W) A).
Proof. apply at_most_only, only_raise. Qed.
End Bounds.

(** [git <command> ...] *)
Definition is_command (command : string) (e : event) : bool :=
  match e with Run _ (cmd :: _) => (cmd =? command)%string | _ => false end.

Section Attempts.
Context {W : Type} `{GitWorld W, !EngineWorld W}.
Variable c : settings.
Variable loads_yaml : string -> string + dict.
Variables (randoms_md randoms_json : list string).
Variable report : ExecutionReport.
Variable apply_conclusion : bool.

(** Reading never counts. *)
Lemma uncounted_observes command :
  command ∈ ["fetch"; "commit"; "push"; "reset"] ->
  forall e, observes e -> is_command command e = false.
Proof.
  intros Hc e. destruct e as [dir [|cmd args]| | |]; try done. cbn [observes is_command]. intros Ho.
  apply String.eqb_neq. intros ->.
  repeat (apply elem_of_cons in Hc as [->|Hc]; [by destruct args as [|? [|? [|? ?]]]|]).
  by apply not_elem_of_nil in Hc.
Qed.

Ltac each_command H :=
  repeat (apply elem_of_cons in H as [->|H]; [|]); [..|by apply not_elem_of_nil in H].

#[local] Hint Extern 1 (is_command _ (Run _ _) = false) => reflexivity : commands.
#[local] Hint Extern 1 (is_command _ (Edit _) = false) => reflexivity : commands.

(** The parts of an attempt that only read and fast-forward. *)
Definition reads_allowed (P : event -> Prop) : Prop :=
  (forall e, observes e -> P e) /\
  forall dir cmd args, existsb (String.eqb cmd)
    ["rev-parse"; "rev-list"; "merge-base"; "show"; "diff-tree"; "log"; "status"; "merge"; "ls-remote"] =
    true -> P (Run dir (cmd :: args)).

Section Reads.
Context {P : event -> Prop}.
Hypothesis reads : reads_allowed P.
#[local] Hint Extern 1 (P (Run _ _)) => apply reads; reflexivity : commands.

Lemma only_exact x : only P (_lifecycle_commit_is_exact c x report apply_conclusion).
Proof.
  unfold _lifecycle_commit_is_exact, single_lineage, _control_report_at, artifact_is_exact,
    ticket_is_moved, show_file.
  only_auto.
Qed.
#[local] Hint Resolve only_exact : commands.

Lemma only_first_exact commits : only P (first_exact c commits report apply_conclusion).
Proof. induction commits; cbn [first_exact]; only_auto. Qed.
#[local] Hint Resolve only_first_exact : commands.

Lemma only_remote_lifecycle x : only P (_remote_lifecycle_commit c x report apply_conclusion).
Proof. unfold _remote_lifecycle_commit. only_auto. Qed.

Lemma only_bound_descendant state x : only P (_prove_control_descendant c state x report).
Proof.
  unfold _prove_control_descendant, _prove_bound_ticket_descendant, show_file, blocked. only_auto.
Qed.
#[local] Hint Resolve only_bound_descendant : commands.

Lemma only_forward error : only P (fast_forward c error).
Proof. unfold fast_forward, blocked. only_auto. Qed.
#[local] Hint Resolve only_forward : commands.

Lemma only_adopt_published state existing local remote : only P (adopt_published c state report existing local remote).
Proof. unfold adopt_published, blocked. only_auto. Qed.

Lemma only_unpublished x remote :
  only P (_prove_unpublished_lifecycle_lineage c x remote report apply_conclusion).
Proof. unfold _prove_unpublished_lifecycle_lineage, single_lineage, blocked. only_auto. Qed.

Lemma only_matches state : only P (_report_matches_execution_state c state report).
Proof.
  unfold _report_matches_execution_state, _execution_remote_head, blocked, engine_error. only_auto.
Qed.

Lemma only_store state : only P (_ticket_store c loads_yaml state).
Proof. apply only_ticket_store, reads. Qed.

Lemma only_control_worktree state : only P (_validate_control_worktree c state).
Proof. apply only_validate_control, reads. Qed.
End Reads.

Lemma uncounted_reads command :
  command ∈ ["fetch"; "commit"; "push"; "reset"] -> reads_allowed (fun e => is_command command e = false).
Proof.
  intros Hc. split; [by apply uncounted_observes|].
  intros dir cmd args Hr. cbn [is_command]. apply String.eqb_neq. intros ->. by each_command Hc.
Qed.

(** Close a goal about a computation that runs none of the counted commands; count
    one that runs at most one of them. *)
Ltac none := solve [apply at_most_only; unfold engine_error, blocked; only_auto].
Ltac count :=
  repeat lazymatch goal with
  | |- at_most _ 1 (let x := _ in _) => cbv zeta
  | |- at_most _ 1 (_ ≫= _) =>
      first [ apply (at_most_bind _ 0 1); [none | intros ?]
            | apply (at_most_bind _ 1 0); [|intros ?] ]
  | |- at_most _ 0 _ => none
  | |- at_most _ 1 (if ?b then _ else _) => destruct b
  | |- at_most _ 1 (match ?o with _ => _ end) => destruct o
  | |- at_most _ 1 _ =>
      first [ apply at_most_git | apply at_most_check | apply (at_most_weaken _ 0 1); [lia|none] ]
  end.

(** A part that runs the command [name] at most once counts when it is the one. *)
Definition cost (name command : string) : nat := if (command =? name)%string then 1 else 0.

Lemma cost_zero name command : at_most (W := W) (A := unit) (is_command command) (cost name command) (mret tt).
Proof. apply (at_most_weaken _ 0); [lia|apply at_most_ret]. Qed.

Section Command.
Variable command : string.
Hypothesis counted : command ∈ ["fetch"; "commit"; "push"; "reset"].
#[local] Hint Resolve only_remote_lifecycle only_bound_descendant only_forward only_adopt_published
  only_unpublished only_matches only_store only_control_worktree uncounted_reads counted only_edit : commands.

#[local] Hint Extern 2 (is_command command (Run _ _) = false) =>
  apply (uncounted_reads command counted); reflexivity : commands.

(** The cases of the counted command: the part runs it, or it does not. *)
Ltac by_command :=
  pose proof (uncounted_reads command counted); generalize dependent command;
  let k := fresh "k" in let H := fresh in intros k H; intros; each_command H;
  unfold cost; cbn [String.eqb Ascii.eqb Bool.eqb]; first [none | count].

Lemma fetch_counts : at_most (is_command command) (cost "fetch" command) (fetch_control c).
Proof. unfold fetch_control. by_command. Qed.

Lemma reach_counts state local remote :
  at_most (is_command command) (cost "reset" command)
    (reach_descendant c state report apply_conclusion local remote).
Proof. unfold reach_descendant. by_command. Qed.

Lemma once_counts state :
  at_most (is_command command) (cost "commit" command)
    (_apply_lifecycle_once c loads_yaml randoms_md randoms_json state report apply_conclusion).
Proof. unfold _apply_lifecycle_once, move_to_review. by_command. Qed.

Lemma attempt_counts state :
  at_most (is_command command) 1
    (lifecycle_attempt c loads_yaml randoms_md randoms_json state report apply_conclusion).
Proof.
  set (rest := (cost "reset" command + (cost "commit" command + cost "push" command))%nat).
  apply (at_most_weaken _ (cost "fetch" command + (0 + (0 + rest)))).
  { subst rest. generalize counted. intros Hc. unfold cost. each_command Hc; cbn; lia. }
  unfold lifecycle_attempt.
  apply at_most_bind; [apply fetch_counts|]. intros remote.
  apply at_most_bind; [none|]. intros local. cbv zeta.
  apply at_most_bind; [none|]. intros [existing|].
  { apply (at_most_weaken _ 0); [lia|none]. }
  apply at_most_bind; [apply reach_counts|]. intros _.
  apply at_most_bind; [apply once_counts|]. intros head. by_command.
Qed.

Lemma attempts_count n state :
  at_most (is_command command) n
    (lifecycle_attempts c loads_yaml randoms_md randoms_json n state report apply_conclusion).
Proof.
  induction n as [|n IH]; cbn [lifecycle_attempts]; [apply at_most_raise|].
  apply (at_most_bind _ 1 n); [apply attempt_counts|]. intros [head|]; [|exact IH].
  apply (at_most_weaken _ 0); [lia|apply at_most_ret].
Qed.

Lemma lifecycle_counts state allow_unpublished :
  at_most (is_command command) 3
    (_apply_execution_lifecycle c loads_yaml randoms_md randoms_json state report allow_unpublished
       apply_conclusion).
Proof.
  unfold _apply_execution_lifecycle.
  apply (at_most_bind _ 0 3); [none|]. intros _.
  apply (at_most_bind _ 0 3); [none|]. intros _. apply attempts_count.
Qed.
End Command.
End Attempts.

(** * The claims *)

Section Claims.
Context {W : Type} `{GitWorld W, !EngineWorld W}.
Variable c : settings.
Context `{!ControlHistory W c}.
Variable loads_yaml : string -> string + dict.
Variables (randoms_md randoms_json : list string).

(** C12: publishing an execution's result, on every path and whatever Git answers,
    pushes nothing but the head of the control worktree, without force, to the
    control branch, and gives up the head of the control worktree ([reset --hard])
    only when it had been a commit that adds exactly this report, moves exactly
    this ticket to review and does nothing else, on top of a commit of the
    freshly fetched control branch that descends from the admission: what the
    reset throws away is what the attempt then makes again. *)
Theorem lifecycle_gives_up_own_commit state report allow_unpublished apply_conclusion (s : logged W) :
  identity (rep_control_head report) ->
  let s' := snd (_apply_execution_lifecycle c loads_yaml randoms_md randoms_json state report
                   allow_unpublished apply_conclusion s) in
  exists new, lg_events s' = lg_events s ++ new /\
    Forall (replays c report apply_conclusion (lg_world s) (lg_world s')) new.
Proof.
  intros Hh. by apply (lifecycle_check c loads_yaml randoms_md randoms_json report apply_conclusion
    (lg_world s) s state allow_unpublished Hh (rtc_refl _ _)).
Qed.

(** C13: a publication that ends without an error returns a head the control
    worktree had during the run, and either the push of that head made it the tip
    of the control branch, or the fetched control branch already contained a
    commit that is exactly this publication. *)
Theorem lifecycle_is_delivered state report allow_unpublished apply_conclusion (s : logged W) head s' :
  identity (rep_control_head report) ->
  _apply_execution_lifecycle c loads_yaml randoms_md randoms_json state report allow_unpublished
    apply_conclusion s = (Ok head, s') ->
  delivered c report apply_conclusion (lg_world s) head (lg_world s').
Proof.
  intros Hh Hr.
  destruct (lifecycle_check c loads_yaml randoms_md randoms_json report apply_conclusion
    (lg_world s) s state allow_unpublished Hh (rtc_refl _ _)) as (_ & _ & HP).
  rewrite Hr in HP. exact (HP head eq_refl).
Qed.

(** C26: however others move the control branch and whatever Git answers, one
    publication fetches, commits, resets and pushes at most three times each. *)
Theorem lifecycle_tries_are_bounded state report allow_unpublished apply_conclusion (s : logged W) :
  let s' := snd (_apply_execution_lifecycle c loads_yaml randoms_md randoms_json state report
                   allow_unpublished apply_conclusion s) in
  exists new, lg_events s' = lg_events s ++ new /\
    Forall (fun command => occurrences (is_command command) new <= 3)%nat
      ["fetch"; "commit"; "push"; "reset"].
Proof.
  pose proof (fun k H => lifecycle_counts c loads_yaml randoms_md randoms_json report apply_conclusion
    k H state allow_unpublished s) as Hk. cbv zeta.
  destruct (Hk "fetch") as (new & Hnew & _); [by left|]. exists new. split; [done|].
  apply Forall_forall. intros k Hin. destruct (Hk k Hin) as (new' & Hnew' & Hle).
  rewrite Hnew in Hnew'. by apply app_inv_head in Hnew' as <-.
Qed.
End Claims.
