(* ===== verification/IntegrationReplay.v ===== *)
(** Integrations in the concrete repository: the theorems of [IntegrationSafety]
    at a run, and what happens to an integration that is interrupted between its
    commit and its publication. *)

From S2P Require Export IntegrationSafety Repository.

(** * Runs *)

(** A clean observation of a checkout. *)
Definition clean_at (branch head : string) : GitObservation :=
  mkGitObs (Some branch) false head ("origin/" +:+ branch) (Some head) true "".

(** The state of an integration that was admitted at the control revision. *)
Definition integrating (control_head : string) : dict :=
  [("phase", PStr "idle");
   ("accepted_integration", PDict [("ticket_id", PStr "T1"); ("control_head", PStr control_head)])].

(** One attempt to integrate the ticket, as [_recover_accepted_integration] and
    the iteration make it: from fresh observations of both checkouts. *)
Definition attempt (control_head : string) (w : repository) : res string * repository :=
  let '(r, s) := _integrate_accepted sample_settings sample_yaml (integrating control_head) "T1"
                   (Some (clean_at "main" (rp_checkout w))) (Some (clean_at "control" (rp_head w)))
                   (mkLogged w []) in
  (r, lg_world s).

(** The repository after an attempt whose control push was refused, when the
    remote accepts pushes again. *)
Definition interrupted_at (control_head : string) (w : repository) : repository :=
  with_pushes true (snd (attempt control_head (with_pushes false w))).

Definition worked : repository := sample_repository (finished_report 1001).
Definition unchanged : repository := sample_repository (finished_report 1000).

(** Another commit reaches the control branch after the acceptance. *)
Definition with_note (w : repository) : repository :=
  let w1 := snd (record_commit (gw_edit (<[["backlog"; "T2.md"] := File sample_ticket]> (rp_files w)) w)) in
  mkRepository (rp_commits w1) (rp_head w1) (rp_head w1) (rp_product w1) (rp_checkout w1)
    (rp_branches w1) (rp_files w1) (rp_pushes w1).

Definition lineage_ambiguous : exn :=
  Exn WorkflowBlockedError "accepted integration control lineage is ambiguous".
Definition evidence_missing : exn :=
  Exn WorkflowBlockedError
    "accepted ticket T1 has ambiguous or missing completed execution evidence".

(** * Witnesses *)



(** * Interrupted integrations *)

Lemma iter_fixed {A} (f : A -> A) x : f x = x -> forall n, Nat.iter n f x = x.
Proof.
  intros Hf n. induction n as [|n IH]; [done|].
  change (Nat.iter (S n) f x) with (f (Nat.iter n f x)). by rewrite IH.
Qed.

(** an integration that was interrupted between its commit and its push is
    resumed by the next attempt when the worker changed something and nothing
    else was committed: it publishes the commit it made.  But when the worker
    changed nothing, the resumption looks for the transition on top of the
    current control head instead of the one it was admitted at, and when another
    control commit followed the acceptance, it looks for the review before the
    wrong commit: both attempts are blocked, leave the repository as it is, and
    so does every later one. *)
Theorem interrupted_integration :
  attempt (object_name 2) (interrupted_at (object_name 2) worked) =
    (Ok (object_name 3), with_control (interrupted_at (object_name 2) worked)
       (rp_commits (interrupted_at (object_name 2) worked)) (object_name 3) (object_name 3)
       (rp_files (interrupted_at (object_name 2) worked))) /\
  (forall n, Nat.iter n (fun w => snd (attempt (object_name 2) w)) (interrupted_at (object_name 2) unchanged) =
     interrupted_at (object_name 2) unchanged) /\
  fst (attempt (object_name 2) (interrupted_at (object_name 2) unchanged)) = Raise lineage_ambiguous /\
  (forall n, Nat.iter n (fun w => snd (attempt (object_name 3) w))
               (interrupted_at (object_name 3) (with_note worked)) =
     interrupted_at (object_name 3) (with_note worked)) /\
  fst (attempt (object_name 3) (interrupted_at (object_name 3) (with_note worked))) =
    Raise evidence_missing.
Proof.
  split_and!; [vm_compute; reflexivity | | vm_compute; reflexivity | | vm_compute; reflexivity].
  all: apply iter_fixed; vm_compute; reflexivity.
Qed.
