(* ===== verification/LifecycleReplay.v ===== *)
(** Publications in the concrete repository: the theorems of [LifecycleSafety] at
    a run, and what repeated and interrupted publications do. *)

From S2P Require Export LifecycleSafety Repository.

(** * Runs *)

(** The ticket is in todo, and the worker has finished. *)
Definition admitted_repository : repository :=
  mkRepository
    [(object_name 0, mkSnapshot None [change "A" "todo/T1.md"] [("todo/T1.md", sample_ticket)])]
    (object_name 0) (object_name 0) (object_name 1000) (object_name 1000)
    [("refs/heads/devlegate/work/T1", object_name 1001)]
    (sample_files [("todo/T1.md", sample_ticket)]) true.

Definition executing : dict :=
  [("phase", PStr "agent_running"); ("execution_id", PStr "E1");
   ("execution_ticket_id", PStr "T1"); ("execution_control_head", PStr (object_name 0));
   ("execution_branch", PStr "devlegate/work/T1"); ("execution_path", PStr "/x/work/T1");
   ("execution_base_head", PStr (object_name 1000)); ("selected_ticket_body", PStr ("body" +:+ LF))].

Definition publish (w : repository) : res string * logged repository :=
  _apply_execution_lifecycle sample_settings sample_yaml ["a"] ["b"] executing (finished_report 1001)
    false true (mkLogged w []).

Definition publication (w : repository) : res string * repository :=
  let '(r, s) := publish w in (r, lg_world s).

(** The repository after a publication whose pushes were refused, when the remote
    accepts pushes again. *)
Definition refused_repository : repository :=
  with_pushes true (snd (publication (with_pushes false admitted_repository))).

Definition retries_exhausted : exn :=
  Exn WorkflowBlockedError "control lifecycle reconciliation retry bound exceeded".

(** * Witnesses *)

(** The commit that was made but not published is given up, and made again. *)
Lemma lifecycle_gives_up_own_commit_witness :
  let s' := snd (publish refused_repository) in
  exists new, lg_events s' = new /\
    Run (Path_of "/control") ["reset"; "--hard"; object_name 0] ∈ new /\
    Forall (replays sample_settings (finished_report 1001) true refused_repository (lg_world s')) new.
Proof.
  intros s'.
  destruct (lifecycle_gives_up_own_commit sample_settings sample_yaml ["a"] ["b"] executing
              (finished_report 1001) false true (mkLogged refused_repository [])) as (new & Hnew & Hall).
  { vm_compute. reflexivity. }
  exists new. split_and!; [exact Hnew| |exact Hall].
  change new with ([] ++ new). cbn [lg_events] in Hnew. rewrite <- Hnew.
  apply (list_elem_of_lookup_2 _ 25). vm_compute. reflexivity.
Defined.

Lemma lifecycle_is_delivered_witness :
  let s' := snd (publish admitted_repository) in
  rp_tip (lg_world s') = object_name 1 /\
  delivered sample_settings (finished_report 1001) true admitted_repository (object_name 1) (lg_world s').
Proof.
  intros s'. split; [vm_compute; reflexivity|].
  apply (lifecycle_is_delivered sample_settings sample_yaml ["a"] ["b"] executing (finished_report 1001)
           false true (mkLogged admitted_repository []) (object_name 1) s'); vm_compute; reflexivity.
Defined.

(** * Repeated and interrupted publications *)

(** A publication is idempotent and survives refused pushes: a second one returns
    the first one's commit and leaves the repository as it is; one whose pushes
    are all refused ends with the retry bound and leaves the remote branch alone,
    and the next one, when pushes are accepted again, publishes. *)
Example publication_resumes :
  let w := snd (publication admitted_repository) in
  fst (publication admitted_repository) = Ok (object_name 1) /\ rp_tip w = object_name 1 /\
  publication w = (Ok (object_name 1), w) /\
  fst (publication (with_pushes false admitted_repository)) = Raise retries_exhausted /\
  rp_tip refused_repository = object_name 0 /\
  fst (publication refused_repository) = Ok (object_name 4) /\
  rp_tip (snd (publication refused_repository)) = object_name 4.
Proof. vm_compute. repeat split. Qed.
