(* ===== verification/Operator.v ===== *)
(** Operator commands, [src/devlegate/runtime.py]: how a client's mutation
    reaches the thread that owns the repository.  One slot holds the submitted
    command; the owner claims it, validates it, records a receipt under the
    request id and answers; a lost answer is replayed from the receipt.  The
    engine's own work enters through the interface [OwnerEngine]; the owner's
    loop is a function of a program counter, the whole service a step relation
    over client and owner steps.  Left out of [_run_polling]: the start-up wait,
    the published service snapshot and the log lines, which no step reads. *)

From S2P Require Export Scheduler.

(** * Data *)

(** [OperatorCommand], shared by the waiting clients, the slot and the owner;
    the last four fields are mutable. *)
Record OperatorCommand : Type := mkCommand {
  oc_request_id : string;
  oc_method : string;
  oc_fingerprint : string;
  oc_ticket_id : string;
  oc_onto : option string;
  oc_execution_id : option string;
  oc_rewrite_published : bool;
  oc_force : bool;
  oc_resolution_class : option string;
  oc_admission_event : bool;
  oc_admission_result : option dict;
  oc_admission_error : option exn;
  oc_cancelled : bool
}.

(** The arguments of [_submit_operator_command]. *)
Record submission : Type := mkSubmission {
  su_method : string;
  su_ticket_id : string;
  su_request_id : string;
  su_fingerprint : string;
  su_onto : option string;
  su_execution_id : option string;
  su_rewrite_published : bool;
  su_force : bool
}.

Definition submit_retry (ticket_id : string) (force : bool) (request_id : string) : submission :=
  mkSubmission "retry" ticket_id request_id (_retry_request_fingerprint ticket_id force)
    None None false force.

Definition submit_drop (ticket_id execution_id request_id : string) : submission :=
  mkSubmission "drop" ticket_id request_id (_drop_request_fingerprint ticket_id execution_id)
    None (Some execution_id) false false.

Definition submit_recover (ticket_id execution_id observed_head request_id : string) : submission :=
  mkSubmission "recover" ticket_id request_id
    (_recover_request_fingerprint ticket_id execution_id observed_head)
    (Some observed_head) (Some execution_id) false false.

Definition submit_reconcile_update_base (ticket_id : string) (onto : option string)
    (rewrite_published : bool) (request_id : string) : submission :=
  mkSubmission "reconcile-update-base" ticket_id request_id
    (_reconcile_request_fingerprint ticket_id onto rewrite_published)
    onto None rewrite_published false.

Definition submit_reconcile_resume (ticket_id request_id : string) : submission :=
  mkSubmission "reconcile-resume" ticket_id request_id
    (_reconcile_resume_request_fingerprint ticket_id) None None false false.

Definition submit_reconcile_auto (ticket_id : string) (onto : option string) (request_id : string)
    : submission :=
  mkSubmission "reconcile-auto" ticket_id request_id
    (_reconcile_auto_request_fingerprint ticket_id onto) onto None false false.

Definition submit_reconcile_control (from_head to_head request_id : string) : submission :=
  mkSubmission "reconcile-control" from_head request_id
    (_control_reconcile_request_fingerprint from_head to_head) (Some to_head) None false false.

(** A new command for a submission. *)
Definition new_command (u : submission) : OperatorCommand :=
  mkCommand (su_request_id u) (su_method u) (su_fingerprint u) (su_ticket_id u) (su_onto u)
    (su_execution_id u) (su_rewrite_published u) (su_force u) None false None None false.

(** ** Field updates of a command *)

Definition resolve_target (onto cls : option string) (c : OperatorCommand) : OperatorCommand :=
  mkCommand (oc_request_id c) (oc_method c) (oc_fingerprint c) (oc_ticket_id c) onto
    (oc_execution_id c) (oc_rewrite_published c) (oc_force c) cls
    (oc_admission_event c) (oc_admission_result c) (oc_admission_error c) (oc_cancelled c).

Definition answer (event : bool) (result : option dict) (error : option exn) (cancelled : bool)
    (c : OperatorCommand) : OperatorCommand :=
  mkCommand (oc_request_id c) (oc_method c) (oc_fingerprint c) (oc_ticket_id c) (oc_onto c)
    (oc_execution_id c) (oc_rewrite_published c) (oc_force c) (oc_resolution_class c)
    event result error cancelled.

Definition set_event (c : OperatorCommand) : OperatorCommand :=
  answer true (oc_admission_result c) (oc_admission_error c) (oc_cancelled c) c.
Definition set_result (r : dict) (c : OperatorCommand) : OperatorCommand :=
  answer (oc_admission_event c) (Some r) (oc_admission_error c) (oc_cancelled c) c.
Definition set_error (e : exn) (c : OperatorCommand) : OperatorCommand :=
  answer (oc_admission_event c) (oc_admission_result c) (Some e) (oc_cancelled c) c.
Definition set_cancelled (c : OperatorCommand) : OperatorCommand :=
  answer (oc_admission_event c) (oc_admission_result c) (oc_admission_error c) true c.

(** ** Messages *)

Definition shutting_down : string := "service is shutting down; runtime command was not admitted".
Definition draining_message : string := "service is draining; runtime command was not admitted".
Definition busy_message : string := "service busy; mutable request was not admitted".
Definition timeout_message : string :=
  "service admission coordination timed out; request was not admitted".
Definition collision_message (method : string) : string :=
  "request id collision: " +:+ method +:+ " request semantics differ".

(** ** Acknowledgements *)

Definition accepted_for (ticket_id : string) : dict :=
  [("accepted", PBool true); ("ticket_id", PStr ticket_id)].

Definition _operator_ack (method ticket_id : string) (onto execution_id resolution_class : option string)
    : res dict :=
  if (method =? "retry")%string then Ok (accepted_for ticket_id)
  else if (method =? "drop")%string then
    match execution_id with
    | None => invalid "drop requires an exact execution identity"
    | Some x => Ok (accepted_for ticket_id ++ [("execution_id", PStr x)])
    end
  else if (method =? "recover")%string then
    match execution_id, onto with
    | Some x, Some h =>
        Ok (accepted_for ticket_id ++ [("execution_id", PStr x); ("observed_head", PStr h)])
    | _, _ => invalid "recover requires an exact execution and observed branch HEAD"
    end
  else if (method =? "reconcile-control")%string then
    match onto with
    | None => invalid "reconcile-control requires both control revisions"
    | Some h => Ok [("accepted", PBool true); ("from", PStr ticket_id); ("to", PStr h)]
    end
  else if (method =? "reconcile-resume")%string then Ok (accepted_for ticket_id)
  else if (method =? "reconcile-update-base")%string then
    match onto with
    | None => invalid "reconciliation target was not resolved"
    | Some h => Ok (accepted_for ticket_id ++ [("onto", PStr h)])
    end
  else if (method =? "reconcile-auto")%string then
    Ok (accepted_for ticket_id ++
        match onto with Some h => [("onto", PStr h)] | None => [] end ++
        match resolution_class with Some k => [("resolution_class", PStr k)] | None => [] end)
  else invalid ("unsupported operator command: " +:+ method).

Definition _admission_result (c : OperatorCommand) : res dict :=
  match oc_admission_error c, oc_admission_result c with
  | Some e, _ => Raise e
  | None, None => invalid "service did not produce an operator admission result"
  | None, Some r => Ok r
  end.

(** ** Receipts *)

Definition receipt_fields : list string := ["method"; "fingerprint"; "ticket_id"; "accepted"].

(** The shapes a stored receipt may have. *)
Definition receipt_shapes : list (list string) :=
  [receipt_fields;
   receipt_fields ++ ["execution_id"];
   receipt_fields ++ ["onto"];
   receipt_fields ++ ["resolution_class"];
   receipt_fields ++ ["onto"; "resolution_class"];
   receipt_fields ++ ["execution_id"; "onto"; "resolution_class"]].

(** [self._state.get("mutable_receipts", {})], refused if it is no object. *)
Definition receipts_of (state : dict) : res dict :=
  match get_or state "mutable_receipts" (PDict []) with
  | PDict receipts => Ok receipts
  | _ => invalid "invalid mutable request receipt state"
  end.

Definition _mutable_receipt (state : dict) (request_id : string) : res (option dict) :=
  receipts ← receipts_of state;
  match get receipts request_id with
  | PNone => Ok None
  | PDict receipt =>
      _ ← require (keys_subset receipt (receipt_fields ++ ["execution_id"; "onto"; "resolution_class"]) &&
                   existsb (keys_eq receipt) receipt_shapes) "invalid mutable request receipt";
      _ ← require (all_text receipt ["method"; "fingerprint"; "ticket_id"] &&
                   is_bool (get receipt "accepted")) "invalid mutable request receipt";
      _ ← require (none_or_text (get receipt "execution_id"))
            "invalid mutable request receipt execution";
      _ ← require (none_or_text (get receipt "onto")) "invalid mutable request receipt target";
      _ ← require (none_or_text (get receipt "resolution_class"))
            "invalid mutable request receipt resolution";
      Ok (Some receipt)
  | _ => invalid "invalid mutable request receipt"
  end.

(** The receipt of a command. *)
Definition receipt_of (c : OperatorCommand) : res dict :=
  let receipt := [("method", PStr (oc_method c)); ("fingerprint", PStr (oc_fingerprint c));
                  ("ticket_id", PStr (oc_ticket_id c)); ("accepted", PBool true)] ++
    match oc_execution_id c with Some x => [("execution_id", PStr x)] | None => [] end in
  receipt ←
    (if (oc_method c =? "reconcile-update-base")%string ||
        (oc_method c =? "reconcile-auto")%string && bool_decide (is_Some (oc_onto c))
     then match oc_onto c with
          | None => invalid "reconciliation target was not resolved"
          | Some h => Ok (dset receipt "onto" (PStr h))
          end
     else Ok receipt);
  if (oc_method c =? "reconcile-auto")%string
  then match oc_resolution_class c with
       | None => invalid "automatic reconciliation was not classified"
       | Some k => Ok (dset receipt "resolution_class" (PStr k))
       end
  else Ok receipt.

(** ** The state a record changes *)

(** [mutable_receipts] with one more receipt. *)
Definition with_receipt (receipts : dict) (c : OperatorCommand) (receipt : dict) : dict :=
  dset receipts (oc_request_id c) (PDict receipt).

(** The [reconciliation] entry a reconciliation command leaves. *)
Definition resolved_reconciliation (state : dict) (c : OperatorCommand) : res (option dict) :=
  let current (fields : dict) :=
    match get state "reconciliation" with
    | PDict d => Ok (Some (dmerge d fields))
    | _ => invalid "invalid reconciliation state"
    end in
  if (oc_method c =? "reconcile-resume")%string
  then current [("status", PStr "resolving"); ("resolution", PStr "resume")]
  else if (oc_method c =? "reconcile-auto")%string
  then current [("resolution", PStr (if bool_decide (oc_resolution_class c = Some "resume")
                                     then "resume" else "update-base"));
                ("resolution_class", opt_str (oc_resolution_class c))]
  else Ok None.

(** Does this retry lift the barrier that a forced stop left? *)
Definition clears_manual_retry (state : dict) (c : OperatorCommand) : bool :=
  (oc_method c =? "retry")%string &&
  match get state "manual_retry_required" with
  | PDict manual =>
      eq_str (get manual "ticket_id") (oc_ticket_id c) &&
      (py_eq (get state "execution_id") (get manual "execution_id") ||
       negb (truthy (get state "execution_id"))) &&
      (py_eq (get state "execution_base_head") (get manual "generation") ||
       negb (truthy (get state "execution_base_head")))
  | _ => false
  end.

(** The fields that the record of an admission saves. *)
Definition record_fields (state : dict) (c : OperatorCommand) (receipts : dict)
    (reconciliation : option dict) : dict :=
  [("mutable_receipts", PDict receipts)] ++
  (if clears_manual_retry state c then [("manual_retry_required", PNone)] else []) ++
  (if (oc_method c =? "recover")%string
   then [("operator_recovery",
          PDict [("ticket_id", PStr (oc_ticket_id c)); ("execution_id", opt_str (oc_execution_id c));
                 ("observed_head", opt_str (oc_onto c))])]
   else []) ++
  match reconciliation with Some d => [("reconciliation", PDict d)] | None => [] end.

(** * The engine behind the queue *)

(** What the command protocol uses of the engine: the state and its save, the
    admission checks, the two methods that act while a command is recorded, the
    operations a command is dispatched to, one scheduler iteration, the view
    refresh after a turn, and the workers. *)
Class OwnerEngine (E : Type) : Type := {
  eng_state : E -> dict;
  eng_save : string -> save_options -> py E unit;
  active_workers : E -> Z;
  workers_begin_drain : E -> E;
  owned_execution : E -> option string;
  foreground_abort_requested : E -> bool;
  _validate_retry_admission : string -> bool -> py E unit;
  _validate_drop_admission : string -> option string -> py E unit;
  _validate_recover_admission : string -> string -> string -> py E unit;
  _validate_reconcile_admission : OperatorCommand -> py E string;
  _validate_reconcile_auto_admission : OperatorCommand -> py E (option string * string);
  _validate_reconcile_resume_admission : string -> py E unit;
  _validate_control_reconcile_admission : string -> string -> py E unit;
  _drop_owned : string -> option string -> py E unit;
  _force_retry_transition : string -> string -> dict -> dict -> py E unit;
  _retry_owned : string -> bool -> py E Z;
  _recover_unsafe_bound_execution_workspace : string -> string -> string -> py E unit;
  _reconcile_resume_owned : string -> py E Z;
  _reconcile_update_base_owned : string -> string -> bool -> py E Z;
  _reconcile_control_owned : string -> string -> py E Z;
  run_iteration : py E Z;
  _has_operator_recovery_required : py E bool;
  refresh_views : py E unit
}.

(** A computation that leaves the receipts alone, whatever its outcome. *)
Definition keeps_receipts {E A} `{OwnerEngine E} (m : py E A) : Prop :=
  forall e, dget (eng_state (snd (m e))) "mutable_receipts" = dget (eng_state e) "mutable_receipts".

(** What the protocol relies on.  A save either takes effect or changes nothing;
    only the forced retry writes a receipt, and exactly when it succeeds; a drop
    is validated only with an execution identity; a resolved target is non-empty
    text, and automatic resolution drops no target that was asked for. *)
Class OwnerEngineLaws (E : Type) `{OwnerEngine E} : Prop := {
  save_effect : forall phase o e e',
    eng_save phase o e = (Ok tt, e') -> eng_state e' = next_state (eng_state e) phase o;
  save_failure : forall phase o e x e',
    eng_save phase o e = (Raise x, e') -> eng_state e' = eng_state e;
  drain_state : forall e, eng_state (workers_begin_drain e) = eng_state e;
  retry_keeps : forall k force, keeps_receipts (_validate_retry_admission k force);
  drop_keeps : forall k x, keeps_receipts (_validate_drop_admission k x);
  recover_keeps : forall k x h, keeps_receipts (_validate_recover_admission k x h);
  reconcile_keeps : forall c, keeps_receipts (_validate_reconcile_admission c);
  auto_keeps : forall c, keeps_receipts (_validate_reconcile_auto_admission c);
  resume_keeps : forall k, keeps_receipts (_validate_reconcile_resume_admission k);
  control_keeps : forall a b, keeps_receipts (_validate_control_reconcile_admission a b);
  drop_owned_keeps : forall k x, keeps_receipts (_drop_owned k x);
  retry_owned_keeps : forall k force, keeps_receipts (_retry_owned k force);
  recover_owned_keeps : forall k x h, keeps_receipts (_recover_unsafe_bound_execution_workspace k x h);
  resume_owned_keeps : forall k, keeps_receipts (_reconcile_resume_owned k);
  update_owned_keeps : forall k h b, keeps_receipts (_reconcile_update_base_owned k h b);
  control_owned_keeps : forall a b, keeps_receipts (_reconcile_control_owned a b);
  iteration_keeps : keeps_receipts run_iteration;
  recovery_keeps : keeps_receipts _has_operator_recovery_required;
  refresh_keeps : keeps_receipts refresh_views;
  drop_is_exact : forall k e, fst (_validate_drop_admission k None e) <> Ok tt;
  reconcile_target : forall c e h e',
    _validate_reconcile_admission c e = (Ok h, e') -> h <> "";
  auto_target : forall c e onto cls e',
    _validate_reconcile_auto_admission c e = (Ok (onto, cls), e') ->
    cls <> "" /\ onto <> Some "" /\ (onto = None -> oc_onto c = None);
  force_effect : forall k id receipt receipts e e',
    _force_retry_transition k id receipt receipts e = (Ok tt, e') ->
    dget (eng_state e') "mutable_receipts" = Some (PDict (dset receipts id (PDict receipt)));
  force_failure : forall k id receipt receipts e x e',
    _force_retry_transition k id receipt receipts e = (Raise x, e') ->
    dget (eng_state e') "mutable_receipts" = dget (eng_state e) "mutable_receipts"
}.

(** * The service *)

(** [ShutdownIntent]: the stop event of the host. *)
Record ShutdownIntent : Type := mkShutdown {
  si_set : bool;
  si_kind : option string;
  si_source : option string
}.

(** The command slot and the owner's claims; commands are identified by their
    position in [q_commands]. *)
Record command_queue : Type := mkQueue {
  q_commands : list OperatorCommand;
  q_operator_command : option nat;
  q_operator_active : bool;
  q_operator_active_command : option nat;
  q_scheduler_active : bool
}.

Record lifecycle_state : Type := mkLifecycle {
  lc_intent : option string;
  lc_phase : string;
  lc_request_id : option string;
  lc_force : bool;
  lc_ready : bool
}.

Section Service.
Context {E : Type} `{OwnerEngine E}.

Record service : Type := mkServiceState {
  ss_engine : E;
  ss_queue : command_queue;
  ss_lifecycle : lifecycle_state;
  ss_wake : bool;
  ss_shutdown : bool;
  ss_stop_event : option ShutdownIntent
}.

Definition with_engine (e : E) (s : service) : service :=
  mkServiceState e (ss_queue s) (ss_lifecycle s) (ss_wake s) (ss_shutdown s) (ss_stop_event s).
Definition with_queue (q : command_queue) (s : service) : service :=
  mkServiceState (ss_engine s) q (ss_lifecycle s) (ss_wake s) (ss_shutdown s) (ss_stop_event s).
Definition with_lifecycle (l : lifecycle_state) (s : service) : service :=
  mkServiceState (ss_engine s) (ss_queue s) l (ss_wake s) (ss_shutdown s) (ss_stop_event s).
Definition wake (s : service) : service :=
  mkServiceState (ss_engine s) (ss_queue s) (ss_lifecycle s) true (ss_shutdown s) (ss_stop_event s).
Definition clear_wake (s : service) : service :=
  mkServiceState (ss_engine s) (ss_queue s) (ss_lifecycle s) false (ss_shutdown s) (ss_stop_event s).
Definition shut_down (s : service) : service :=
  mkServiceState (ss_engine s) (ss_queue s) (ss_lifecycle s) (ss_wake s) true (ss_stop_event s).
Definition with_stop_event (i : option ShutdownIntent) (s : service) : service :=
  mkServiceState (ss_engine s) (ss_queue s) (ss_lifecycle s) (ss_wake s) (ss_shutdown s) i.

(** Run an engine operation inside the service. *)
Definition in_engine {A} (m : py E A) : py service A := fun s =>
  let '(r, e) := m (ss_engine s) in (r, with_engine e s).

Definition update_command (c : nat) (f : OperatorCommand -> OperatorCommand) (q : command_queue)
    : command_queue :=
  mkQueue (alter f c (q_commands q)) (q_operator_command q) (q_operator_active q)
    (q_operator_active_command q) (q_scheduler_active q).

Definition on_command (c : nat) (f : OperatorCommand -> OperatorCommand) (s : service) : service :=
  with_queue (update_command c f (ss_queue s)) s.

(** ** Lifecycle *)

Definition lifecycle_intent (s : service) : option string := lc_intent (ss_lifecycle s).

Definition _lifecycle_drain_pending (s : service) : bool :=
  match lifecycle_intent s with Some _ => true | None => false end.

Definition stop_requested (s : service) : bool :=
  match ss_stop_event s with Some i => si_set i | None => false end.

Definition request_abort (s : service) : service :=
  match ss_stop_event s with
  | Some _ => with_stop_event (Some (mkShutdown true (Some "operator_abort") (Some "operator_abort"))) s
  | None => s
  end.

Definition lifecycle_status_payload (s : service) : dict :=
  let l := ss_lifecycle s in
  [("intent", PStr (default "none" (lc_intent l))); ("phase", PStr (lc_phase l));
   ("ready", PBool (lc_ready l)); ("request_id", opt_str (lc_request_id l));
   ("workers", PDict [("active", PInt (active_workers (ss_engine s)))]);
   ("force", PBool (lc_force l))].

Definition mark_service_ready (s : service) : service :=
  let l := ss_lifecycle s in
  with_lifecycle (mkLifecycle (lc_intent l) (lc_phase l) (lc_request_id l) (lc_force l) true) s.

(** The barrier of a forced stop that interrupts a bound execution. *)
Definition manual_barrier (state : dict) (request_id : string) : save_options :=
  mkSave false false false false
    [("manual_retry_required",
      PDict [("ticket_id", get state "execution_ticket_id");
             ("execution_id", get state "execution_id");
             ("generation", get state "execution_base_head"); ("request_id", PStr request_id)])].

Definition needs_manual_barrier (intent : string) (force : bool) (state : dict) : bool :=
  (intent =? "stop")%string && force && is_bound_phase (get state "phase") &&
  all_text state ["execution_ticket_id"; "execution_id"; "execution_base_head"].

(** The first request with an intent, after the intent is recorded. *)
Definition begin_lifecycle (intent request_id : string) (force : bool) : py service unit :=
  _ ← py_modify (fun s => with_engine (workers_begin_drain (ss_engine s)) s);
  _ ← py_modify (fun s => with_lifecycle
        (mkLifecycle (Some intent) "draining" (Some request_id) force (lc_ready (ss_lifecycle s))) s);
  s ← py_get;
  let state := eng_state (ss_engine s) in
  _ ← (if needs_manual_barrier intent force state
       then in_engine (eng_save (py_str (get state "phase")) (manual_barrier state request_id))
       else mret tt);
  py_modify (fun s => if force then request_abort s else s).

Definition request_lifecycle (intent request_id : string) (force : bool) : py service dict :=
  if negb (existsb (String.eqb intent) ["stop"; "restart"])
  then py_raise DevlegateError ("unsupported lifecycle intent: " +:+ intent)
  else
    s ← py_get;
    match lifecycle_intent s with
    | Some accepted =>
        if negb (accepted =? intent)%string
        then py_raise DevlegateError ("service " +:+ accepted +:+ " is already accepted")
        else
          _ ← py_modify (fun s => if force then
                let l := ss_lifecycle s in
                request_abort (with_lifecycle (mkLifecycle (lc_intent l) (lc_phase l)
                  (lc_request_id l) true (lc_ready l)) s) else s);
          s' ← py_get; mret (lifecycle_status_payload s')
    | None =>
        _ ← begin_lifecycle intent request_id force;
        _ ← py_modify wake;
        s' ← py_get; mret (lifecycle_status_payload s')
    end.

(** May a draining service exit: no worker runs, and an execution it owns is
    past its checkpoint. *)
Definition _lifecycle_exit_ready (s : service) : res bool :=
  if negb (_lifecycle_drain_pending s) || negb (active_workers (ss_engine s) =? 0)%Z then Ok false
  else match owned_execution (ss_engine s) with
  | None => Ok true
  | Some _ =>
      let state := eng_state (ss_engine s) in
      if negb (eq_str (get state "phase") "agent_running") then Ok true
      else in_strs (get state "execution_stage")
             ["post-checkpoint"; "publishing"; "post-publication"; "lifecycle"]
  end.

(** ** Clients *)

(** The locked part of [_submit_operator_command]: the answer that is known at
    once, or the command to wait for and whether it is new. *)
Definition _submit_operator_command (u : submission) : py service (dict + nat * bool) :=
  s ← py_get;
  _ ← py_ensure (negb (ss_shutdown s || stop_requested s)) DevlegateError shutting_down;
  _ ← py_ensure (negb (_lifecycle_drain_pending s)) DevlegateError draining_message;
  receipt ← py_lift (_mutable_receipt (eng_state (ss_engine s)) (su_request_id u));
  match receipt with
  | Some receipt =>
      _ ← py_ensure (eq_str (get receipt "method") (su_method u) &&
                     eq_str (get receipt "fingerprint") (su_fingerprint u) &&
                     is_true (get receipt "accepted"))
            DevlegateError (collision_message (su_method u));
      ack ← py_lift (_operator_ack (su_method u) (su_ticket_id u)
                       (str_opt (get_or receipt "onto" (opt_str (su_onto u)))) (su_execution_id u)
                       (str_opt (get receipt "resolution_class")));
      mret (inl ack)
  | None =>
      let q := ss_queue s in
      match (match q_operator_command q with Some c => Some c | None => q_operator_active_command q end) with
      | Some c =>
          match q_commands q !! c with
          | None => py_raise PyIndexError ""
          | Some existing =>
              _ ← py_ensure (oc_request_id existing =? su_request_id u)%string DevlegateError busy_message;
              _ ← py_ensure ((oc_method existing =? su_method u)%string &&
                             (oc_fingerprint existing =? su_fingerprint u)%string)
                    DevlegateError (collision_message (su_method u));
              mret (inr (c, false))
          end
      | None =>
          _ ← py_ensure (negb (q_scheduler_active q)) DevlegateError busy_message;
          let c := length (q_commands q) in
          _ ← py_modify (with_queue (mkQueue (q_commands q ++ [new_command u]) (Some c)
                 (q_operator_active q) (q_operator_active_command q) (q_scheduler_active q)));
          mret (inr (c, true))
      end
  end.

(** The locked part of a wait that timed out; the caller then raises. *)
Definition abandon (c : nat) (s : service) : service :=
  let q := ss_queue s in
  if bool_decide (q_operator_command q = Some c)
  then with_queue
    (update_command c (fun cmd => set_event (set_error (Exn DevlegateError timeout_message)
                                                (set_cancelled cmd)))
       (mkQueue (q_commands q) None (q_operator_active q) (q_operator_active_command q)
          (q_scheduler_active q))) s
  else on_command c set_cancelled s.

(** ** The owner *)

Definition _take_operator_command (s : service) : option nat * service :=
  let q := ss_queue s in
  match q_operator_command q with
  | None => (None, s)
  | Some c =>
      if q_operator_active q || q_scheduler_active q then (None, s)
      else (Some c, with_queue (mkQueue (q_commands q) None true (Some c) (q_scheduler_active q)) s)
  end.

Definition _claim_owner_work (allow_operator : bool) (s : service) : (option nat * bool) * service :=
  let q := ss_queue s in
  match (if allow_operator then q_operator_command q else None) with
  | Some c =>
      if q_operator_active q || q_scheduler_active q then ((None, false), s)
      else ((Some c, false),
            with_queue (mkQueue (q_commands q) None true (Some c) (q_scheduler_active q)) s)
  | None =>
      if q_operator_active q || q_scheduler_active q then ((None, false), s)
      else ((None, true),
            with_queue (mkQueue (q_commands q) (q_operator_command q) (q_operator_active q)
                          (q_operator_active_command q) true) s)
  end.

Definition _release_operator_command (s : service) : service :=
  let q := ss_queue s in
  with_queue (mkQueue (q_commands q) (q_operator_command q) false None (q_scheduler_active q)) s.

Definition _release_scheduler_iteration (s : service) : service :=
  let q := ss_queue s in
  with_queue (mkQueue (q_commands q) (q_operator_command q) (q_operator_active q)
                (q_operator_active_command q) false) s.

Definition _reject_pending_operator_command_on_shutdown (s : service) : service :=
  let q := ss_queue s in
  match q_operator_command q with
  | None => s
  | Some c =>
      with_queue (update_command c (fun cmd => set_event (set_error (Exn DevlegateError shutting_down) cmd))
        (mkQueue (q_commands q) None (q_operator_active q) (q_operator_active_command q)
           (q_scheduler_active q))) s
  end.

(** ** Admission *)

(** The validators may fill in the target and the class of the command. *)
Definition _validate_operator_admission (c : OperatorCommand) : py E OperatorCommand :=
  let m := oc_method c in
  if (m =? "retry")%string then
    _ ← _validate_retry_admission (oc_ticket_id c) (oc_force c); mret c
  else if (m =? "drop")%string then
    _ ← _validate_drop_admission (oc_ticket_id c) (oc_execution_id c); mret c
  else if (m =? "recover")%string then
    match oc_execution_id c, oc_onto c with
    | Some x, Some h => _ ← _validate_recover_admission (oc_ticket_id c) x h; mret c
    | _, _ => py_raise DevlegateError "recover requires an exact execution and observed branch HEAD"
    end
  else if (m =? "reconcile-update-base")%string then
    h ← _validate_reconcile_admission c; mret (resolve_target (Some h) (oc_resolution_class c) c)
  else if (m =? "reconcile-auto")%string then
    '(onto, cls) ← _validate_reconcile_auto_admission c; mret (resolve_target onto (Some cls) c)
  else if (m =? "reconcile-resume")%string then
    _ ← _validate_reconcile_resume_admission (oc_ticket_id c); mret c
  else if (m =? "reconcile-control")%string then
    match oc_onto c with
    | Some h => _ ← _validate_control_reconcile_admission (oc_ticket_id c) h; mret c
    | None => py_raise DevlegateError "reconcile-control requires both control revisions"
    end
  else py_raise DevlegateError ("unsupported operator command: " +:+ m).

Definition _record_operator_admission (c : OperatorCommand) : py E unit :=
  _ ← (if (oc_method c =? "drop")%string
       then _drop_owned (oc_ticket_id c) (oc_execution_id c) else mret tt);
  e ← py_get;
  let state := eng_state e in
  receipts ← py_lift (receipts_of state);
  receipt ← py_lift (receipt_of c);
  if (oc_method c =? "retry")%string && oc_force c
  then _force_retry_transition (oc_ticket_id c) (oc_request_id c) receipt receipts
  else
    reconciliation ← py_lift (resolved_reconciliation state c);
    phase ← py_lift (getitem state "phase");
    eng_save (py_str phase)
      (mkSave false false false false
         (record_fields state c (with_receipt receipts c receipt) reconciliation)).

(** The locked part of [_admit_operator_command], on the command itself. *)
Definition admit_body (draining : bool) (c : OperatorCommand) : py E (OperatorCommand * dict) :=
  _ ← py_ensure (negb (oc_cancelled c)) DevlegateError busy_message;
  _ ← py_ensure (negb draining) DevlegateError draining_message;
  c' ← _validate_operator_admission c;
  _ ← py_ensure (negb (oc_cancelled c')) DevlegateError busy_message;
  _ ← _record_operator_admission c';
  ack ← py_lift (_operator_ack (oc_method c') (oc_ticket_id c') (oc_onto c') (oc_execution_id c')
                   (oc_resolution_class c'));
  mret (c', ack).

Definition admit_locked (c : nat) : py service unit := fun s =>
  match q_commands (ss_queue s) !! c with
  | None => (raise PyIndexError "", s)
  | Some cmd =>
      match admit_body (_lifecycle_drain_pending s) cmd (ss_engine s) with
      | (Ok (cmd', ack), e) =>
          (Ok tt, on_command c (fun _ => set_result ack cmd') (with_engine e s))
      | (Raise x, e) => (Raise x, with_engine e s)
      end
  end.

(** After the lock: [except DevlegateError] keeps the error for the clients,
    [finally] wakes them. *)
Definition publish_admission (c : nat) (r : res unit) (s : service) : service :=
  on_command c (fun cmd => set_event
    (match r with
     | Raise x => if is_devlegate_error x then set_error x cmd else cmd
     | Ok _ => cmd
     end)) s.

Definition _admit_operator_command (c : nat) : py service unit := fun s =>
  let '(r, s') := admit_locked c s in (r, publish_admission c r s').

(** ** Dispatch *)

Definition _dispatch_operator_command (c : OperatorCommand) : py E Z :=
  let m := oc_method c in
  if (m =? "retry")%string then _retry_owned (oc_ticket_id c) (oc_force c)
  else if (m =? "drop")%string then mret 0%Z
  else if (m =? "recover")%string then
    match oc_execution_id c, oc_onto c with
    | Some x, Some h =>
        _ ← _recover_unsafe_bound_execution_workspace (oc_ticket_id c) x h; mret 0%Z
    | _, _ => py_raise DevlegateError "recover identity is incomplete"
    end
  else if (m =? "reconcile-resume")%string then _reconcile_resume_owned (oc_ticket_id c)
  else if (m =? "reconcile-auto")%string then
    e ← py_get;
    let cls := match get (eng_state e) "reconciliation" with
               | PDict d => get d "resolution_class"
               | _ => PNone
               end in
    if eq_str cls "resume" then _reconcile_resume_owned (oc_ticket_id c)
    else
      known ← py_lift (in_strs cls ["update-base"; "update-base with published-lineage rewrite"]);
      match known, oc_onto c with
      | true, Some h => _reconcile_update_base_owned (oc_ticket_id c) h true
      | _, _ => py_raise DevlegateError "automatic reconciliation classification is invalid"
      end
  else if (m =? "reconcile-update-base")%string then
    match oc_onto c with
    | Some h => _reconcile_update_base_owned (oc_ticket_id c) h (oc_rewrite_published c)
    | None => py_raise DevlegateError "reconcile-update-base requires a product base target"
    end
  else if (m =? "reconcile-control")%string then
    match oc_onto c with
    | Some h => _reconcile_control_owned (oc_ticket_id c) h
    | None => py_raise DevlegateError "reconcile-control requires both control revisions"
    end
  else py_raise DevlegateError ("unsupported operator command: " +:+ m).

(** * The polling loop *)

Definition _has_pending_reconciliation (state : dict) : bool :=
  match get state "reconciliation" with
  | PDict d => eq_str (get d "status") "pending"
  | _ => false
  end.

Definition _has_pending_accepted_integration (state : dict) : bool :=
  is_dict (get state "accepted_integration").

Definition stage_in (state : dict) (stages : list string) : res bool :=
  if eq_str (get state "phase") "agent_running"
  then in_strs (get state "execution_stage") stages else Ok false.

Definition _has_recoverable_execution_stage (state : dict) : res bool :=
  stage_in state ["checkpointing"; "post-checkpoint"; "publishing"; "post-publication"; "lifecycle"].

Definition _has_blocked_execution_stage (state : dict) : res bool :=
  stage_in state ["worker-launch"; "worker-running"].

(** How a turn of the loop ends: with a status the loop goes on from, with a
    value the loop returns, or with an exception it does not handle. *)
Inductive turn : Type :=
  | Next (status : Z)
  | Leave (r : res Z).

(** Does the loop survive an engine error that no operator caused? *)
Definition tolerated (once : bool) : py E bool :=
  e ← py_get;
  let state := eng_state e in
  if once then mret false
  else if _has_pending_reconciliation state || _has_pending_accepted_integration state
  then mret true
  else
    recoverable ← py_lift (_has_recoverable_execution_stage state);
    if (recoverable : bool) then mret true
    else
      blocked ← py_lift (_has_blocked_execution_stage state);
      if (blocked : bool) then mret true else _has_operator_recovery_required.

(** The [except] clauses of [_run_polling]. *)
Definition settle (once operator : bool) (r : res Z) : py E turn := fun e =>
  match r with
  | Ok status => (Ok (Next status), e)
  | Raise x =>
      if is_class ShutdownInterrupted x then (Ok (Leave (Ok 0%Z)), e)
      else if is_class WorkspacePreparationBlockedError x || is_class WorkflowBlockedError x
      then (Ok (Next 1), e)
      else if is_devlegate_error x then
        if operator then (Ok (Next 1), e)
        else match tolerated once e with
        | (Ok true, e') => (Ok (Next 1), e')
        | (Ok false, e') => (Ok (Leave (Raise x)), e')
        | (Raise y, e') => (Ok (Leave (Raise y)), e')
        end
      else if is_os_error x || is_class PySubprocessError x then (Ok (Next 1), e)
      else (Ok (Leave (Raise x)), e)
  end.

Definition turn_of (once operator : bool) (r : res Z) (e : E) : turn * E :=
  match settle once operator r e with
  | (Ok t, e') => (t, e')
  | (Raise x, e') => (Leave (Raise x), e')
  end.

(** Where the owner thread is in [_run_polling]. *)
Inductive owner_pc : Type :=
  | AtHead                                       (** the exit tests at the head of the loop *)
  | Claiming                                     (** before [_claim_owner_work] *)
  | Taken (c : nat)                              (** before the locked part of the admission *)
  | Answering (c : nat) (r : res unit)           (** before the event is set *)
  | Dispatching (c : nat)
  | Iterating (claimed : bool)
  | Releasing (operator claimed : bool) (t : turn)  (** before the release in [finally] *)
  | Resting (refresh : bool) (status : Z)          (** refresh of the views, wait *)
  | Stopped (r : res Z).

(** [self._service_shutdown.set(); self._reject_pending_operator_command_on_shutdown()] *)
Definition leave_loop (s : service) : service :=
  _reject_pending_operator_command_on_shutdown (shut_down s).

(** What an [owner_step] did that a client can observe. *)
Inductive label : Type :=
  | Silent
  | AdmittedBy (request_id method fingerprint : string)
  | Replied (u : submission) (r : res dict).

(** Processing of the outcome of admission, dispatch or iteration, before the
    release: [ShutdownInterrupted] also raises the shutdown flag. *)
Definition settled (once operator claimed : bool) (r : res Z) (s : service) : owner_pc * service :=
  let '(t, e) := turn_of once operator r (ss_engine s) in
  let s' := with_engine e s in
  (Releasing operator claimed t,
   match r with
   | Raise x => if is_class ShutdownInterrupted x then shut_down s' else s'
   | Ok _ => s'
   end).

(** [phase != "merge_pending"]: a stopping service finishes a pending merge. *)
Definition stops_at_head (s : service) : bool :=
  stop_requested s && negb (eq_str (get (eng_state (ss_engine s)) "phase") "merge_pending").

(** The end of a turn: [refresh], then [once] and the stop event decide. *)
Definition rest (once refresh : bool) (status : Z) (s : service) : owner_pc * service :=
  let '(r, e) := (if refresh then py_catch refresh_views is_devlegate_error (fun _ => mret tt)
                  else mret tt) (ss_engine s) in
  let s := with_engine e s in
  match r with
  | Raise x => (Stopped (Raise x), s)
  | Ok _ =>
      if foreground_abort_requested (ss_engine s) then (Stopped (Ok 130%Z), s)
      else if once then (Stopped (Ok status), s)
      else match ss_stop_event s with
      | None => (AtHead, clear_wake s)
      | Some _ =>
          match _lifecycle_exit_ready s with
          | Raise x => (Stopped (Raise x), clear_wake s)
          | Ok ready =>
              if ready || stop_requested s then (Stopped (Ok 0%Z), leave_loop (clear_wake s)) else (AtHead, clear_wake s)
          end
      end
  end.

(** One step of the owner thread: each is one locked region, or the work between
    two of them. *)
Definition owner_step (once : bool) (pc : owner_pc) (s : service)
    : option (label * owner_pc * service) :=
  match pc with
  | AtHead =>
      match _lifecycle_exit_ready s with
      | Raise x => Some (Silent, Stopped (Raise x), s)
      | Ok ready =>
          if ready || stops_at_head s
          then Some (Silent, Stopped (Ok 0%Z), leave_loop s)
          else Some (Silent, Claiming, s)
      end
  | Claiming =>
      match _claim_owner_work true s with
      | (Some c, _, s') => Some (Silent, Taken c, s')
      | (None, claimed, s') => Some (Silent, Iterating claimed, s')
      end
  | Taken c =>
      let '(r, s') := admit_locked c s in
      match q_commands (ss_queue s) !! c with
      | None => None
      | Some cmd =>
          Some (match r with
                | Ok _ => AdmittedBy (oc_request_id cmd) (oc_method cmd) (oc_fingerprint cmd)
                | Raise _ => Silent
                end, Answering c r, s')
      end
  | Answering c r =>
      let s' := publish_admission c r s in
      match r with
      | Ok _ => Some (Silent, Dispatching c, s')
      | Raise x => let '(pc', s'') := settled once true false (Raise x) s' in Some (Silent, pc', s'')
      end
  | Dispatching c =>
      match q_commands (ss_queue s) !! c with
      | None => None
      | Some cmd =>
          let '(r, s') := in_engine (_dispatch_operator_command cmd) s in
          let '(pc', s'') := settled once true false r s' in Some (Silent, pc', s'')
      end
  | Iterating claimed =>
      let '(r, s') := in_engine run_iteration s in
      let '(pc', s'') := settled once false claimed r s' in Some (Silent, pc', s'')
  | Releasing operator claimed t =>
      let s' := if operator then _release_operator_command s
                else if claimed then _release_scheduler_iteration s else s in
      match t with
      | Next status => Some (Silent, Resting (operator || claimed) status, s')
      | Leave r => Some (Silent, Stopped r, s')
      end
  | Resting refresh status => let '(pc', s') := rest once refresh status s in Some (Silent, pc', s')
  | Stopped _ => None
  end.

(** * The service as a transition system *)

Record config : Type := mkConfig {
  cf_service : service;
  cf_owner : owner_pc;
  cf_waiting : list (submission * nat)
}.

Inductive step (once : bool) : config -> label -> config -> Prop :=
  | OwnerStep s pc ws l pc' s' :
      owner_step once pc s = Some (l, pc', s') ->
      step once (mkConfig s pc ws) l (mkConfig s' pc' ws)
  | SubmitAnswered s pc ws u ack s' :
      _submit_operator_command u s = (Ok (inl ack), s') ->
      step once (mkConfig s pc ws) (Replied u (Ok ack)) (mkConfig s' pc ws)
  | SubmitRefused s pc ws u x s' :
      _submit_operator_command u s = (Raise x, s') ->
      step once (mkConfig s pc ws) (Replied u (Raise x)) (mkConfig s' pc ws)
  | SubmitWaits s pc ws u c fresh s' :
      _submit_operator_command u s = (Ok (inr (c, fresh)), s') ->
      step once (mkConfig s pc ws) Silent
        (mkConfig (if fresh then wake s' else s') pc (ws ++ [(u, c)]))
  | AnswerSeen s pc ws1 ws2 u c cmd :
      q_commands (ss_queue s) !! c = Some cmd -> oc_admission_event cmd = true ->
      step once (mkConfig s pc (ws1 ++ (u, c) :: ws2)) (Replied u (_admission_result cmd))
        (mkConfig s pc (ws1 ++ ws2))
  | WaitTimedOut s pc ws1 ws2 u c :
      step once (mkConfig s pc (ws1 ++ (u, c) :: ws2))
        (Replied u (Raise (Exn DevlegateError timeout_message)))
        (mkConfig (abandon c s) pc (ws1 ++ ws2))
  | LifecycleRequested s pc ws intent request_id force r s' :
      request_lifecycle intent request_id force s = (r, s') ->
      step once (mkConfig s pc ws) Silent (mkConfig s' pc ws)
  | StopSignalled s pc ws i :
      ss_stop_event s = Some i ->
      step once (mkConfig s pc ws) Silent (mkConfig (request_abort (wake s)) pc ws)
  | MarkedReady s pc ws :
      step once (mkConfig s pc ws) Silent (mkConfig (mark_service_ready s) pc ws).

Inductive steps (once : bool) : config -> list label -> config -> Prop :=
  | StepsDone k : steps once k [] k
  | StepsMore k l k1 ls k2 : step once k l k1 -> steps once k1 ls k2 -> steps once k (l :: ls) k2.
End Service.
Arguments service E : clear implicits.
Arguments config E : clear implicits.
