(* ===== verification/OperatorProtocol.v ===== *)
(** The command protocol of Operator.v, proved against the engine interface: the
    structural invariant of slot, claims and heap; the refinement of a register
    of accepted requests; replay; drain; cancellation; the bound on the owner's
    steps to an answer. *)

From S2P Require Export Operator.

(** * The register of accepted requests *)

(** What a stored receipt stands for: the method and fingerprint it accepts. *)
Definition receipt_entry (v : pyval) : option (string * string) :=
  match v with
  | PDict r => Some (str_of (get r "method"), str_of (get r "fingerprint"))
  | _ => None
  end.

(** The requests that the state says were accepted. *)
Definition register (state : dict) : gmap string (string * string) :=
  match get_or state "mutable_receipts" (PDict []) with
  | PDict d => omap receipt_entry (list_to_map d)
  | _ => ∅
  end.

Lemma list_to_map_dget {V} (d : list (string * V)) k :
  (list_to_map d : gmap string V) !! k = dget d k.
Proof.
  induction d as [|[j w] d IH]; cbn; [apply lookup_empty|].
  destruct (j =? k)%string eqn:E.
  - apply String.eqb_eq in E as ->. apply lookup_insert_eq.
  - apply String.eqb_neq in E. by rewrite lookup_insert_ne.
Qed.

Lemma list_to_map_dset {V} (d : list (string * V)) k v :
  (list_to_map (dset d k v) : gmap string V) = <[k := v]> (list_to_map d).
Proof.
  apply map_eq. intros j. rewrite list_to_map_dget, dget_dset.
  destruct (k =? j)%string eqn:E.
  - apply String.eqb_eq in E as ->. by rewrite lookup_insert_eq.
  - apply String.eqb_neq in E. by rewrite lookup_insert_ne, list_to_map_dget.
Qed.

Lemma register_cong d e :
  dget e "mutable_receipts" = dget d "mutable_receipts" -> register e = register d.
Proof. unfold register, get_or. by intros ->. Qed.

Lemma register_lookup state receipts id :
  receipts_of state = Ok receipts -> register state !! id = receipt_entry (get receipts id).
Proof.
  unfold receipts_of, register. destruct (get_or _ _ _); try discriminate.
  intros [= ->]. rewrite lookup_omap, list_to_map_dget. unfold get, get_or.
  by destruct (dget receipts id).
Qed.

Lemma register_insert state e receipts id receipt :
  receipts_of state = Ok receipts ->
  dget e "mutable_receipts" = Some (PDict (dset receipts id (PDict receipt))) ->
  register e = <[id := (str_of (get receipt "method"), str_of (get receipt "fingerprint"))]>
                 (register state).
Proof.
  unfold receipts_of. intros Hr He. unfold register, get_or in *. rewrite He. cbn [default from_option Datatypes.id].
  destruct (default _ _); try discriminate. injection Hr as ->.
  rewrite list_to_map_dset. by apply omap_insert_Some.
Qed.

(** A receipt that the lookup accepts is in the register, and none is found only
    for an unknown request. *)
Lemma mutable_receipt_some state id receipt :
  _mutable_receipt state id = Ok (Some receipt) ->
  register state !! id = Some (str_of (get receipt "method"), str_of (get receipt "fingerprint")).
Proof.
  unfold _mutable_receipt. intros (receipts & Hr & H)%res_bind_ok.
  rewrite (register_lookup _ _ _ Hr). destruct (get receipts id); try discriminate.
  cbn. repeat apply res_bind_ok in H as (? & _ & H). by injection H as ->.
Qed.

Lemma mutable_receipt_none state id :
  _mutable_receipt state id = Ok None -> register state !! id = None.
Proof.
  unfold _mutable_receipt. intros (receipts & Hr & H)%res_bind_ok.
  rewrite (register_lookup _ _ _ Hr). destruct (get receipts id); try discriminate; [done|].
  repeat apply res_bind_ok in H as (? & _ & H). discriminate.
Qed.

Lemma receipt_of_identity c receipt : receipt_of c = Ok receipt ->
  get receipt "method" = PStr (oc_method c) /\ get receipt "fingerprint" = PStr (oc_fingerprint c).
Proof.
  unfold receipt_of. intros (r1 & H1 & H2)%res_bind_ok.
  assert (Hr1 : get r1 "method" = PStr (oc_method c) /\ get r1 "fingerprint" = PStr (oc_fingerprint c)).
  { match type of H1 with (if ?b then _ else _) = _ => destruct b end.
    - destruct (oc_onto c); [|discriminate]. injection H1 as <-. unfold get, get_or.
      split; reflexivity.
    - by injection H1 as <-. }
  destruct (oc_method c =? "reconcile-auto")%string; [|by injection H2 as <-].
  destruct (oc_resolution_class c); [|discriminate]. injection H2 as <-.
  unfold get, get_or in *. by rewrite !dget_dset_ne by done.
Qed.

(** * What a save does to the receipts *)

Definition cleared_names : list string :=
  idle_cleared ++ ["worker_identity"] ++ execution_cleared false ++ generation_cleared ++
  ["operator_recovery"].

Lemma next_state_field current phase o k :
  k ∉ cleared_names -> k <> "phase" -> NoDup (keys (so_fields o)) ->
  dget (next_state current phase o) k =
    match dget (so_fields o) k with Some v => Some v | None => dget current k end.
Proof.
  intros Hk Hp Hnd. unfold cleared_names in Hk. rewrite !not_elem_of_app in Hk.
  destruct Hk as (Hi & Hw & He & Hg & Ho). unfold next_state.
  assert (He' : forall b, k ∉ execution_cleared b).
  { intros []; [|done]. intros Hin. apply He. unfold execution_cleared in *.
    rewrite app_nil_r in Hin. apply elem_of_app. by left. }
  assert (Hw' : "worker_identity" <> k).
  { intros <-. apply Hw. by left. }
  repeat match goal with |- context [if ?b then _ else _] => destruct b end;
    rewrite ?dget_dpops_ne by auto; rewrite ?dget_dset_ne by auto;
    rewrite ?dget_dpops_ne by auto; rewrite dget_dmerge by done;
    destruct (dget (so_fields o) k); try done; rewrite dget_dmerge by (cbn; apply NoDup_singleton);
    cbn [dget]; by rewrite (proj2 (String.eqb_neq "phase" k)) by done.
Qed.

Lemma receipts_not_cleared : "mutable_receipts" ∉ cleared_names.
Proof. apply (bool_decide_unpack _). vm_compute. exact I. Qed.

(** * Effects of the owner's operations on the register *)

Section Protocol.
Context {E : Type} `{OwnerEngineLaws E}.

Lemma keeps_ret {A} (a : A) : keeps_receipts (E := E) (mret a).
Proof. by intros e. Qed.

Lemma keeps_raise {A} k msg : keeps_receipts (E := E) (A := A) (py_raise k msg).
Proof. by intros e. Qed.

Lemma keeps_lift {A} (r : res A) : keeps_receipts (E := E) (py_lift r).
Proof. by intros e. Qed.

Lemma keeps_get : keeps_receipts (E := E) py_get.
Proof. by intros e. Qed.

Lemma keeps_bind {A B} (m : py E A) (f : A -> py E B) :
  keeps_receipts m -> (forall a, keeps_receipts (f a)) -> keeps_receipts (m ≫= f).
Proof.
  intros Hm Hf e. unfold mbind, py_bind. specialize (Hm e).
  destruct (m e) as [[a|x] e1]; cbn in *; [|done]. by rewrite Hf.
Qed.

Lemma keeps_catch {A} (m : py E A) p h :
  keeps_receipts m -> (forall x, keeps_receipts (h x)) -> keeps_receipts (py_catch m p h).
Proof.
  intros Hm Hh e. unfold py_catch. specialize (Hm e).
  destruct (m e) as [[a|x] e1]; cbn in *; [done|]. destruct (p x); [by rewrite Hh|done].
Qed.

#[local] Hint Resolve keeps_ret keeps_raise keeps_lift keeps_get keeps_bind keeps_catch
  retry_keeps drop_keeps recover_keeps reconcile_keeps auto_keeps resume_keeps control_keeps
  drop_owned_keeps retry_owned_keeps recover_owned_keeps resume_owned_keeps update_owned_keeps
  control_owned_keeps iteration_keeps recovery_keeps refresh_keeps : receipts.

Ltac keeps_auto :=
  repeat first
    [ progress intros
    | solve [auto 3 with receipts]
    | match goal with
      | |- keeps_receipts (match ?x with _ => _ end) => destruct x
      end
    | apply keeps_bind
    | apply keeps_catch ].

Lemma keeps_register {A} (m : py E A) e r e' :
  keeps_receipts m -> m e = (r, e') -> register (eng_state e') = register (eng_state e).
Proof. intros Hm Hr. apply register_cong. specialize (Hm e). by rewrite Hr in Hm. Qed.

Lemma validate_keeps c : keeps_receipts (_validate_operator_admission c).
Proof. unfold _validate_operator_admission. keeps_auto. Qed.

Lemma dispatch_keeps c : keeps_receipts (_dispatch_operator_command c).
Proof. unfold _dispatch_operator_command. keeps_auto. Qed.

Lemma tolerated_keeps once : keeps_receipts (E := E) (tolerated once).
Proof. unfold tolerated. keeps_auto. Qed.

Lemma turn_of_register once operator r e :
  register (eng_state (snd (turn_of once operator r e))) = register (eng_state e).
Proof.
  unfold turn_of, settle. destruct r as [z|x]; [done|].
  destruct (is_class _ x); [done|]. destruct (_ || _); [done|].
  destruct (is_devlegate_error x); [|by destruct (_ || _)].
  destruct operator; [done|]. destruct (tolerated once e) as [[[]|y] e'] eqn:Et; cbn;
    exact (keeps_register _ _ _ _ (tolerated_keeps once) Et).
Qed.

(** The record of an admission accepts exactly its request; a failed one accepts
    nothing. *)
Lemma record_effect c e r e' :
  _record_operator_admission c e = (r, e') ->
  register (eng_state e') =
    match r with
    | Ok _ => <[oc_request_id c := (oc_method c, oc_fingerprint c)]> (register (eng_state e))
    | Raise _ => register (eng_state e)
    end.
Proof.
  unfold _record_operator_admission. run.
  set (first := if (oc_method c =? "drop")%string then _drop_owned _ _ else _).
  assert (Hf : keeps_receipts first) by (unfold first; keeps_auto).
  destruct (first e) as [[[]|x] e1] eqn:E1.
  2: { intros [= <- <-]. exact (keeps_register _ _ _ _ Hf E1). }
  rewrite <- (keeps_register _ _ _ _ Hf E1). clear Hf E1 first e.
  run. run.
  destruct (receipts_of (eng_state e1)) as [receipts|x] eqn:Er; [|by intros [= <- <-]].
  run.
  destruct (receipt_of c) as [receipt|x] eqn:Ec; [|by intros [= <- <-]].
  destruct (receipt_of_identity c receipt Ec) as [Hm Hp].
  assert (Hins : forall s', dget s' "mutable_receipts" =
            Some (PDict (dset receipts (oc_request_id c) (PDict receipt))) ->
          register s' = <[oc_request_id c := (oc_method c, oc_fingerprint c)]> (register (eng_state e1))).
  { intros s' Hs. rewrite (register_insert _ _ _ _ _ Er Hs). by rewrite Hm, Hp. }
  destruct (_ && _).
  { intros Ht. destruct r as [[]|x].
    - apply Hins. exact (force_effect _ _ _ _ _ _ Ht).
    - apply register_cong. exact (force_failure _ _ _ _ _ _ _ Ht). }
  run.
  destruct (resolved_reconciliation _ c) as [reconciliation|x]; [|by intros [= <- <-]].
  run.
  destruct (getitem _ "phase") as [phase|x]; [|by intros [= <- <-]].
  intros Hs. destruct r as [[]|x].
  - apply Hins. rewrite (save_effect _ _ _ _ Hs).
    rewrite next_state_field; [done|exact receipts_not_cleared|done|].
    cbn [so_fields]. unfold record_fields.
    destruct (clears_manual_retry _ c), (_ =? _)%string, reconciliation;
      apply (bool_decide_unpack _); vm_compute; exact I.
  - by rewrite (save_failure _ _ _ _ _ Hs).
Qed.

(** What the locked part of the admission changes of a command. *)
Definition same_request (c d : OperatorCommand) : Prop :=
  oc_request_id d = oc_request_id c /\ oc_method d = oc_method c /\
  oc_fingerprint d = oc_fingerprint c /\ oc_ticket_id d = oc_ticket_id c /\
  oc_execution_id d = oc_execution_id c.

Definition same_answer (c d : OperatorCommand) : Prop :=
  oc_admission_event d = oc_admission_event c /\ oc_admission_result d = oc_admission_result c /\
  oc_admission_error d = oc_admission_error c /\ oc_cancelled d = oc_cancelled c.

Definition ack_of (c : OperatorCommand) : res dict :=
  _operator_ack (oc_method c) (oc_ticket_id c) (oc_onto c) (oc_execution_id c)
    (oc_resolution_class c).

Lemma validate_effect c e c' e' :
  _validate_operator_admission c e = (Ok c', e') ->
  same_request c c' /\ same_answer c c' /\ exists ack, ack_of c' = Ok ack.
Proof.
  unfold _validate_operator_admission, ack_of, _operator_ack, same_request, same_answer.
  destruct (oc_method c =? "retry")%string eqn:M1.
  { intros (? & ? & ? & [= <- <-])%py_bind_ok. rewrite M1. by split_and!; eauto. }
  destruct (oc_method c =? "drop")%string eqn:M2.
  { intros ([] & e1 & Hd & [= <- <-])%py_bind_ok. rewrite M1, M2.
    destruct (oc_execution_id c) as [x|] eqn:Ex; [by split_and!; eauto|].
    destruct (drop_is_exact (oc_ticket_id c) e). by rewrite Hd. }
  destruct (oc_method c =? "recover")%string eqn:M3.
  { destruct (oc_execution_id c) as [x|] eqn:Ex; [|discriminate].
    destruct (oc_onto c) as [h|] eqn:Eo; [|discriminate].
    intros (? & ? & ? & [= <- <-])%py_bind_ok. rewrite M1, M2, M3, Ex, Eo. by split_and!; eauto. }
  destruct (oc_method c =? "reconcile-update-base")%string eqn:M4.
  { intros (h & ? & ? & [= <- <-])%py_bind_ok. cbn. apply String.eqb_eq in M4. rewrite M4.
    by split_and!; eauto. }
  destruct (oc_method c =? "reconcile-auto")%string eqn:M5.
  { intros ([onto cls] & ? & ? & [= <- <-])%py_bind_ok. cbn. apply String.eqb_eq in M5.
    rewrite M5. by split_and!; eauto. }
  destruct (oc_method c =? "reconcile-resume")%string eqn:M6.
  { intros (? & ? & ? & [= <- <-])%py_bind_ok. apply String.eqb_eq in M6. rewrite M6. by split_and!; eauto. }
  destruct (oc_method c =? "reconcile-control")%string eqn:M7; [|discriminate].
  destruct (oc_onto c) as [h|] eqn:Eo; [|discriminate].
  intros (? & ? & ? & [= <- <-])%py_bind_ok. apply String.eqb_eq in M7. rewrite M7, Eo. by split_and!; eauto.
Qed.

Lemma admit_effect draining c e r e' :
  admit_body draining c e = (r, e') ->
  match r with
  | Ok (c', ack) =>
      draining = false /\ oc_cancelled c = false /\ same_request c c' /\ same_answer c c' /\
      ack_of c' = Ok ack /\
      register (eng_state e') =
        <[oc_request_id c := (oc_method c, oc_fingerprint c)]> (register (eng_state e))
  | Raise _ => register (eng_state e') = register (eng_state e)
  end.
Proof.
  unfold admit_body. run. destruct (oc_cancelled c) eqn:Hc; [by intros [= <- <-]|]. cbn [negb].
  run. destruct draining; [by intros [= <- <-]|]. cbn [negb]. run.
  destruct (_validate_operator_admission c e) as [[c'|x] e1] eqn:Hv.
  2: { intros [= <- <-]. exact (keeps_register _ _ _ _ (validate_keeps c) Hv). }
  rewrite <- (keeps_register _ _ _ _ (validate_keeps c) Hv).
  destruct (validate_effect _ _ _ _ Hv) as (Hreq & Hans & ack & Hack).
  run. destruct (oc_cancelled c'); [by intros [= <- <-]|]. cbn [negb]. run.
  destruct (_record_operator_admission c' e1) as [[[]|x] e2] eqn:Hr.
  2: { intros [= <- <-]. exact (record_effect _ _ _ _ Hr). }
  apply record_effect in Hr. fold (ack_of c'). run. rewrite Hack. intros [= <- <-].
  destruct Hreq as (R1 & R2 & R3 & R4 & R5). rewrite R1, R2, R3 in Hr. by split_and!.
Qed.

(** * The invariant *)

(** The abstract service: a register of accepted requests that accepts each
    request id once and acknowledges only what it accepted. *)
Inductive spec_step : gmap string (string * string) -> label -> gmap string (string * string) -> Prop :=
  | SpecSilent reg : spec_step reg Silent reg
  | SpecAccept reg id m f :
      reg !! id = None -> spec_step reg (AdmittedBy id m f) (<[id := (m, f)]> reg)
  | SpecAck reg u ack :
      reg !! su_request_id u = Some (su_method u, su_fingerprint u) ->
      spec_step reg (Replied u (Ok ack)) reg
  | SpecRefuse reg u x : spec_step reg (Replied u (Raise x)) reg.

Inductive spec_steps : gmap string (string * string) -> list label -> gmap string (string * string) -> Prop :=
  | SpecDone reg : spec_steps reg [] reg
  | SpecMore reg l reg1 ls reg2 :
      spec_step reg l reg1 -> spec_steps reg1 ls reg2 -> spec_steps reg (l :: ls) reg2.

(** What the owner holds at a point of its loop. *)
Inductive claim : Type := NoClaim | OperatorClaim (c : option nat) | SchedulerClaim.

Definition claim_of (pc : owner_pc) : claim :=
  match pc with
  | AtHead | Claiming | Resting _ _ | Stopped _ => NoClaim
  | Taken c | Answering c _ | Dispatching c => OperatorClaim (Some c)
  | Releasing true _ _ => OperatorClaim None
  | Iterating true | Releasing false true _ => SchedulerClaim
  | Iterating false | Releasing false false _ => NoClaim
  end.

Definition claim_flags (k : claim) (q : command_queue) : Prop :=
  match k with
  | NoClaim =>
      q_operator_active q = false /\ q_operator_active_command q = None /\ q_scheduler_active q = false
  | OperatorClaim c =>
      q_operator_active q = true /\ q_scheduler_active q = false /\ q_operator_command q = None /\
      exists d, q_operator_active_command q = Some d /\ is_Some (q_commands q !! d) /\
        (c = None \/ c = Some d)
  | SchedulerClaim =>
      q_operator_active q = false /\ q_operator_active_command q = None /\ q_scheduler_active q = true
  end.

(** Is the command still before its admission? *)
Definition pending (q : command_queue) (pc : owner_pc) (c : nat) : Prop :=
  q_operator_command q = Some c \/ pc = Taken c.

Definition matches (u : submission) (cmd : OperatorCommand) : Prop :=
  oc_request_id cmd = su_request_id u /\ oc_method cmd = su_method u /\
  oc_fingerprint cmd = su_fingerprint u.

Definition entry_of (cmd : OperatorCommand) : string * string := (oc_method cmd, oc_fingerprint cmd).

Record inv (q : command_queue) (reg : gmap string (string * string)) (pc : owner_pc)
    (ws : list (submission * nat)) : Prop := {
  inv_claim : claim_flags (claim_of pc) q;
  inv_claimed : pc <> Iterating false /\ (forall t, pc <> Releasing false false t);
  inv_pending : forall c, pending q pc c -> exists cmd, q_commands q !! c = Some cmd /\
    reg !! oc_request_id cmd = None /\ oc_admission_event cmd = false /\
    oc_admission_result cmd = None;
  inv_result : forall c cmd ack, q_commands q !! c = Some cmd -> oc_admission_result cmd = Some ack ->
    reg !! oc_request_id cmd = Some (entry_of cmd);
  inv_waiting : forall u c, (u, c) ∈ ws -> exists cmd, q_commands q !! c = Some cmd /\ matches u cmd
}.

Definition config_register (k : config E) : gmap string (string * string) :=
  register (eng_state (ss_engine (cf_service k))).

Definition config_inv (k : config E) : Prop :=
  inv (ss_queue (cf_service k)) (config_register k) (cf_owner k) (cf_waiting k).

(** A change of one command that keeps its request, and neither adds a result nor
    ends a pending admission, keeps the invariant. *)
Lemma alter_lookup (cmds : list OperatorCommand) c f d cmd :
  alter f c cmds !! d = Some cmd ->
  exists cmd0, cmds !! d = Some cmd0 /\ (cmd = cmd0 \/ c = d /\ cmd = f cmd0).
Proof.
  destruct (decide (c = d)) as [->|Hne].
  - rewrite list_lookup_alter_eq. destruct (cmds !! d) as [cmd0|]; [|done].
    intros [= <-]. eauto.
  - rewrite list_lookup_alter_ne by done. eauto.
Qed.

Definition keeps_request (f : OperatorCommand -> OperatorCommand) : Prop :=
  forall cmd, same_request cmd (f cmd) /\ oc_admission_result (f cmd) = oc_admission_result cmd.

Lemma alter_is_some (cmds : list OperatorCommand) c f d :
  is_Some (cmds !! d) -> is_Some (alter f c cmds !! d).
Proof.
  intros [cmd Hd]. destruct (decide (c = d)) as [->|Hne].
  - rewrite list_lookup_alter_eq, Hd. by eexists.
  - rewrite list_lookup_alter_ne by done. by rewrite Hd.
Qed.

Lemma matches_same u cmd d : same_request cmd d -> matches u cmd -> matches u d.
Proof. intros (? & ? & ? & _) (? & ? & ?). split_and!; congruence. Qed.

Lemma waiting_alter f (c : nat) (cmds : list OperatorCommand) (ws : list (submission * nat)) :
  (forall cmd, cmds !! c = Some cmd -> same_request cmd (f cmd)) ->
  (forall u d, (u, d) ∈ ws -> exists cmd, cmds !! d = Some cmd /\ matches u cmd) ->
  forall u d, (u, d) ∈ ws -> exists cmd, alter f c cmds !! d = Some cmd /\ matches u cmd.
Proof.
  intros Hf Hws u d Hin. destruct (Hws u d Hin) as (cmd & Hd & Hm).
  destruct (decide (c = d)) as [->|Hne].
  - rewrite list_lookup_alter_eq, Hd. eexists; split; [done|]. eapply matches_same; eauto.
  - rewrite list_lookup_alter_ne by done. eauto.
Qed.

Lemma result_alter f (c : nat) (cmds : list OperatorCommand) (reg : gmap string (string * string)) :
  keeps_request f ->
  (forall d cmd ack, cmds !! d = Some cmd -> oc_admission_result cmd = Some ack ->
     reg !! oc_request_id cmd = Some (entry_of cmd)) ->
  forall d cmd ack, alter f c cmds !! d = Some cmd -> oc_admission_result cmd = Some ack ->
     reg !! oc_request_id cmd = Some (entry_of cmd).
Proof.
  intros Hf Hr d cmd ack (cmd0 & Hd & [->|[-> ->]])%alter_lookup; [by eauto|].
  destruct (Hf cmd0) as [(R1 & R2 & R3 & _) Hres]. unfold entry_of. rewrite R1, R2, R3, Hres. 
  apply (Hr _ _ _ Hd).
Qed.

(** Updating the command that is not pending, or only its cancellation. *)
Lemma inv_update q reg pc ws c f :
  inv q reg pc ws -> keeps_request f ->
  (pending q pc c -> forall cmd, oc_admission_event (f cmd) = oc_admission_event cmd) ->
  inv (update_command c f q) reg pc ws.
Proof.
  intros [Hc Hcl Hp Hr Hw] Hf Hev. constructor; cbn.
  - destruct (claim_of pc) as [|d|]; [done| |done]. destruct Hc as (? & ? & ? & e & ? & ? & ?).
    split_and!; [done..|]. exists e. split_and!; [done| |done]. by apply alter_is_some.
  - done.
  - intros d Hd. destruct (Hp d Hd) as (cmd & Hl & Hid & He & Hres).
    destruct (decide (c = d)) as [->|Hne].
    + rewrite list_lookup_alter_eq, Hl. eexists; split; [done|].
      destruct (Hf cmd) as [(R1 & _) Hfr]. rewrite R1, Hfr, (Hev Hd). done.
    + rewrite list_lookup_alter_ne by done. eauto.
  - by apply result_alter.
  - apply waiting_alter; [|done]. intros cmd _. apply Hf.
Qed.

Lemma keeps_set_event : keeps_request set_event. Proof. by intros cmd. Qed.
Lemma keeps_set_error x : keeps_request (set_error x). Proof. by intros cmd. Qed.
Lemma keeps_set_cancelled : keeps_request set_cancelled. Proof. by intros cmd. Qed.

Lemma keeps_compose f g : keeps_request f -> keeps_request g -> keeps_request (fun cmd => f (g cmd)).
Proof.
  intros Hf Hg cmd. destruct (Hg cmd) as [(G1 & G2 & G3 & G4 & G5) Gr].
  destruct (Hf (g cmd)) as [(F1 & F2 & F3 & F4 & F5) Fr]. unfold same_request.
  split_and!; congruence.
Qed.

(** The claim fields of the queue, with the same commands. *)
Definition requeue (q : command_queue) (slot : option nat) (op : bool) (active : option nat) (sched : bool)
    : command_queue := mkQueue (q_commands q) slot op active sched.

(** Moving the claims without touching a command. *)
Lemma inv_requeue q reg pc ws slot op active sched pc' :
  inv q reg pc ws ->
  claim_flags (claim_of pc') (requeue q slot op active sched) ->
  pc' <> Iterating false /\ (forall t, pc' <> Releasing false false t) ->
  (forall c, pending (requeue q slot op active sched) pc' c -> pending q pc c) ->
  inv (requeue q slot op active sched) reg pc' ws.
Proof. intros [Hc Hcl Hp Hr Hw] Hc' Hcl' Hp'. constructor; [done|done| |done|done]. eauto. Qed.

Lemma requeue_same q : requeue q (q_operator_command q) (q_operator_active q)
  (q_operator_active_command q) (q_scheduler_active q) = q.
Proof. by destruct q. Qed.

Lemma inv_pc q reg pc ws pc' :
  inv q reg pc ws -> claim_flags (claim_of pc') q ->
  pc' <> Iterating false /\ (forall t, pc' <> Releasing false false t) ->
  (forall c, pending q pc' c -> pending q pc c) -> inv q reg pc' ws.
Proof.
  intros Hi Hc Hcl Hp. rewrite <- (requeue_same q). eapply inv_requeue; rewrite ?requeue_same; eauto.
Qed.

(** * Every operation keeps the invariant *)

(** The claims and the commands after the slot is answered without admission. *)
Lemma inv_answer_slot q reg pc ws c f :
  inv q reg pc ws -> q_operator_command q = Some c -> keeps_request f ->
  inv (update_command c f (requeue q None (q_operator_active q) (q_operator_active_command q)
         (q_scheduler_active q))) reg pc ws.
Proof.
  intros Hi Hs Hf. pose proof (inv_claim _ _ _ _ Hi) as Hc.
  assert (Hn : forall d, pc <> Taken d) by (intros d ->; cbn in Hc; destruct Hc; naive_solver).
  apply inv_update; [|done|].
  - apply (inv_requeue _ _ pc); [done| |exact (inv_claimed _ _ _ _ Hi)|].
    + destruct (claim_of pc); [done| |done]. naive_solver.
    + intros d [[=]|Hd]. by destruct (Hn d).
  - intros [[=]|Hd]. by destruct (Hn c).
Qed.

Lemma inv_reject (s : service E) reg pc ws :
  inv (ss_queue s) reg pc ws ->
  inv (ss_queue (_reject_pending_operator_command_on_shutdown s)) reg pc ws.
Proof.
  intros Hi. unfold _reject_pending_operator_command_on_shutdown.
  destruct (q_operator_command (ss_queue s)) as [c|] eqn:Hs; [|done].
  exact (inv_answer_slot _ _ _ _ _ _ Hi Hs
           (keeps_compose _ _ keeps_set_event (keeps_set_error _))).
Qed.

Lemma inv_give_up (s : service E) reg pc ws c :
  inv (ss_queue s) reg pc ws -> inv (ss_queue (abandon c s)) reg pc ws.
Proof.
  intros Hi. unfold abandon. destruct (bool_decide _) eqn:Hb.
  - apply bool_decide_eq_true in Hb.
    exact (inv_answer_slot _ _ _ _ _ _ Hi Hb (keeps_compose _ _ keeps_set_event
             (keeps_compose _ _ (keeps_set_error _) keeps_set_cancelled))).
  - apply inv_update; [done|exact keeps_set_cancelled|by intros _ cmd].
Qed.

Lemma inv_publish (s : service E) reg pc ws c r :
  inv (ss_queue s) reg pc ws -> ~ pending (ss_queue s) pc c ->
  inv (ss_queue (publish_admission c r s)) reg pc ws.
Proof.
  intros Hi Hn. apply inv_update; [done| |by intros ?].
  destruct r as [|x]; [exact keeps_set_event|]. destruct (is_devlegate_error x); [|exact keeps_set_event].
  exact (keeps_compose _ _ keeps_set_event (keeps_set_error _)).
Qed.

Lemma inv_fewer_waiting q reg pc ws ws' :
  inv q reg pc ws -> ws' ⊆ ws -> inv q reg pc ws'.
Proof. intros [] Hsub. constructor; [done..|]. eauto. Qed.

(** Submitting appends a command for an unknown request, or joins a known one. *)
Lemma inv_append q reg pc ws u :
  inv q reg pc ws -> q_operator_command q = None -> q_operator_active_command q = None ->
  q_scheduler_active q = false -> reg !! su_request_id u = None ->
  inv (mkQueue (q_commands q ++ [new_command u]) (Some (length (q_commands q)))
         (q_operator_active q) (q_operator_active_command q) (q_scheduler_active q)) reg pc
    (ws ++ [(u, length (q_commands q))]).
Proof.
  intros [Hc Hcl Hp Hr Hw] Hs Ha Hsch Hreg.
  assert (Hnew : (q_commands q ++ [new_command u]) !! length (q_commands q) = Some (new_command u)).
  { by rewrite lookup_app_r, Nat.sub_diag by done. }
  assert (Hold : forall d cmd, q_commands q !! d = Some cmd ->
                   (q_commands q ++ [new_command u]) !! d = Some cmd).
  { intros d cmd Hd. by apply lookup_app_l_Some. }
  constructor; cbn.
  - destruct (claim_of pc); [done| |done]. destruct Hc as (_ & _ & _ & e & He & _). congruence.
  - done.
  - intros c [[= <-]| ->]; [by exists (new_command u)|].
    cbn in Hc. destruct Hc as (_ & _ & _ & e & He & _). congruence.
  - intros c cmd ack Hl. destruct (lookup_app_Some (q_commands q) [new_command u] c cmd) as [H1 _].
    destruct (H1 Hl) as [Hin|[_ Hin]]; [by eapply Hr|].
    apply list_lookup_singleton_Some in Hin as [_ <-]. discriminate.
  - intros v c [Hin|Hin]%elem_of_app.
    + destruct (Hw v c Hin) as (cmd & Hl & Hm). eauto.
    + apply list_elem_of_singleton in Hin as [= -> ->]. by exists (new_command u).
Qed.

Lemma submit_effect u (s : service E) r s' pc ws :
  _submit_operator_command u s = (r, s') ->
  inv (ss_queue s) (register (eng_state (ss_engine s))) pc ws ->
  ss_engine s' = ss_engine s /\
  match r with
  | Ok (inl ack) => s' = s /\
      register (eng_state (ss_engine s)) !! su_request_id u = Some (su_method u, su_fingerprint u)
  | Ok (inr (c, _)) =>
      inv (ss_queue s') (register (eng_state (ss_engine s))) pc (ws ++ [(u, c)])
  | Raise _ => s' = s
  end.
Proof.
  unfold _submit_operator_command. run. run.
  destruct (negb (ss_shutdown s || _)); [|by intros [= <- <-]]. run.
  destruct (negb (_lifecycle_drain_pending s)); [|by intros [= <- <-]]. run.
  destruct (_mutable_receipt _ _) as [[receipt|]|x] eqn:Hr; [| |by intros [= <- <-]].
  - run. destruct (_ && is_true _) eqn:Hb; [|by intros [= <- <-]]. run.
    destruct (_operator_ack _ _ _ _ _); [|by intros [= <- <-]]. intros [= <- <-] _.
    split_and!; [done..|]. rewrite (mutable_receipt_some _ _ _ Hr).
    bsplit. destruct (get receipt "method"), (get receipt "fingerprint"); try discriminate.
    cbn in *. bsplit. by subst.
  - apply mutable_receipt_none in Hr.
    destruct (match q_operator_command (ss_queue s) with Some c => _ | None => _ end) as [c|] eqn:Hex.
    + destruct (q_commands (ss_queue s) !! c) as [existing|] eqn:Hl; [|by intros [= <- <-]].
      run. destruct (_ =? su_request_id u)%string eqn:E1; [|by intros [= <- <-]]. run.
      destruct (_ && _) eqn:E2; [|by intros [= <- <-]]. intros [= <- <-] [Hc Hcl Hp Hrs Hw].
      split; [done|]. constructor; [done..|]. intros v d [Hin|Hin]%elem_of_app; [by auto|].
      apply list_elem_of_singleton in Hin as [= -> ->]. bsplit. by exists existing.
    + run. destruct (negb (q_scheduler_active _)) eqn:Hsch; [|by intros [= <- <-]].
      intros [= <- <-] Hi. split; [done|].
      destruct (q_operator_command (ss_queue s)) eqn:Hs; [discriminate|].
      apply negb_true_iff in Hsch.
      pose proof (inv_append _ _ _ _ u Hi Hs Hex Hsch Hr) as Ha. rewrite Hex, Hsch in *. done.
Qed.

(** * Every step refines the register *)

Definition state_register (s : service E) : gmap string (string * string) :=
  register (eng_state (ss_engine s)).

Lemma settled_effect once operator claimed r s pc' s' :
  settled once operator claimed r s = (pc', s') ->
  (exists t, pc' = Releasing operator claimed t) /\ ss_queue s' = ss_queue s /\
  state_register s' = state_register s.
Proof.
  unfold settled. destruct (turn_of once operator r (ss_engine s)) as [t e] eqn:Et.
  intros [= <- <-]. pose proof (turn_of_register once operator r (ss_engine s)) as Hreg.
  rewrite Et in Hreg. split; [by eexists|].
  destruct r as [|x]; [done|]. by destruct (is_class ShutdownInterrupted x).
Qed.

Lemma in_engine_effect {A} (m : py E A) s r s' :
  keeps_receipts m -> in_engine m s = (r, s') ->
  ss_queue s' = ss_queue s /\ state_register s' = state_register s.
Proof.
  intros Hm. unfold in_engine. destruct (m (ss_engine s)) as [r0 e] eqn:Er. intros [= <- <-].
  split; [done|]. exact (keeps_register _ _ _ _ Hm Er).
Qed.

Lemma rest_effect once refresh status s pc' s' reg ws :
  rest once refresh status s = (pc', s') ->
  inv (ss_queue s) reg (Resting refresh status) ws ->
  inv (ss_queue s') reg pc' ws /\ state_register s' = state_register s.
Proof.
  unfold rest. set (m := if refresh then _ else mret tt).
  assert (Hm : keeps_receipts (E := E) m) by (unfold m; keeps_auto).
  destruct (m (ss_engine s)) as [r e] eqn:Em.
  assert (Hreg : register (eng_state e) = state_register s) by exact (keeps_register _ _ _ _ Hm Em).
  intros Hr Hi.
  assert (Hpc : forall p, claim_of p = NoClaim -> p = AtHead \/ (exists x, p = Stopped x) ->
                  inv (ss_queue s) reg p ws).
  { intros p Hp Hk. apply (inv_pc _ _ _ _ _ Hi).
    - rewrite Hp. exact (inv_claim _ _ _ _ Hi).
    - destruct Hk as [->|[x ->]]; done.
    - intros c [Hc|Hc]; [by left|]. destruct Hk as [->|[x ->]]; discriminate. }
  destruct r as [[]|x]; cbn [with_engine] in Hr.
  2: { injection Hr as <- <-. split; [apply Hpc; eauto|done]. }
  destruct (foreground_abort_requested _); [injection Hr as <- <-; split; [apply Hpc; eauto|done]|].
  destruct once; [injection Hr as <- <-; split; [apply Hpc; eauto|done]|].
  destruct (ss_stop_event _); [|injection Hr as <- <-; split; [apply Hpc; eauto|done]].
  destruct (_lifecycle_exit_ready _) as [b|x]; [|injection Hr as <- <-; split; [apply Hpc; eauto|done]].
  destruct (b || _); injection Hr as <- <-; [|split; [apply Hpc; eauto|done]].
  split.
  - apply (inv_reject (shut_down (clear_wake (with_engine e s)))). apply Hpc; eauto.
  - unfold leave_loop, _reject_pending_operator_command_on_shutdown. by destruct (q_operator_command _).
Qed.

Lemma admit_locked_refines c s r s' cmd ws :
  admit_locked c s = (r, s') -> q_commands (ss_queue s) !! c = Some cmd ->
  inv (ss_queue s) (state_register s) (Taken c) ws ->
  inv (ss_queue s') (state_register s') (Answering c r) ws /\
  spec_step (state_register s)
    (match r with
     | Ok _ => AdmittedBy (oc_request_id cmd) (oc_method cmd) (oc_fingerprint cmd)
     | Raise _ => Silent
     end) (state_register s').
Proof.
  unfold admit_locked. intros Ha Hl Hi. rewrite Hl in Ha.
  pose proof Hi as [Hc Hcl Hp Hr Hw].
  destruct (Hp c (or_intror eq_refl)) as (cmd0 & Hl0 & Hid & Hev & Hres).
  rewrite Hl in Hl0. injection Hl0 as <-.
  assert (Hslot : q_operator_command (ss_queue s) = None) by (cbn in Hc; tauto).
  destruct (admit_body _ cmd (ss_engine s)) as [[[cmd' ack]|x] e] eqn:Hb; apply admit_effect in Hb;
    injection Ha as <- <-.
  - destruct Hb as (_ & _ & Hreq & Hans & _ & Hreg).
    unfold state_register in *. cbn [ss_engine with_engine with_queue on_command] in *.
    rewrite Hreg. split; [|by constructor].
    assert (Hsame : same_request cmd (set_result ack cmd')) by exact Hreq.
    constructor; cbn.
    + destruct Hc as (? & ? & ? & d & ? & ? & Hd). split_and!; [done..|]. exists d.
      split_and!; [done|by apply alter_is_some|destruct Hd; naive_solver].
    + done.
    + intros d [Hd|Hd]; [cbn in Hd; congruence|discriminate].
    + intros d cmd1 ack1 (cmd2 & Hl2 & [->|[-> ->]])%alter_lookup Hack.
      * destruct (decide (oc_request_id cmd2 = oc_request_id cmd)) as [Heq|Hne].
        { pose proof (Hr _ _ _ Hl2 Hack) as Hin. rewrite Heq in Hin. congruence. }
        rewrite lookup_insert_ne by done. by eapply Hr.
      * destruct Hsame as (R1 & R2 & R3 & _). rewrite R1, lookup_insert_eq. unfold entry_of.
        by rewrite R2, R3.
    + apply waiting_alter; [|done]. intros cmd1 Hl1. rewrite Hl in Hl1. by injection Hl1 as <-.
  - unfold state_register in *. cbn [ss_engine with_engine] in *. rewrite Hb.
    split; [|by constructor]. apply (inv_pc _ _ _ _ _ Hi); [done|done|].
    intros d [Hd|Hd]; [by left|discriminate].
Qed.

Lemma owner_step_refines once pc s l pc' s' ws :
  owner_step once pc s = Some (l, pc', s') -> inv (ss_queue s) (state_register s) pc ws ->
  inv (ss_queue s') (state_register s') pc' ws /\ spec_step (state_register s) l (state_register s').
Proof.
  intros Hs Hi. pose proof Hi as [Hc Hcl Hp Hr Hw].
  assert (Hmove : forall q reg p, q = ss_queue s -> reg = state_register s ->
            claim_flags (claim_of p) (ss_queue s) ->
            p <> Iterating false /\ (forall t, p <> Releasing false false t) ->
            (forall c, p <> Taken c) ->
            inv q reg p ws /\ spec_step (state_register s) Silent reg).
  { intros q reg p -> -> Hcp Hkp Hnp. split; [|constructor]. apply (inv_pc _ _ _ _ _ Hi); [done..|].
    intros c [Hd|Hd]; [by left|]. by destruct (Hnp c). }
  destruct pc as [| |c|c r|c|claimed|operator claimed t|refresh status|r]; cbn [owner_step] in Hs.
  - destruct (_lifecycle_exit_ready s) as [ready|x]; [|by injection Hs as <- <- <-; apply Hmove].
    destruct (ready || _); injection Hs as <- <- <-; [|by apply Hmove].
    assert (Hreg : state_register (leave_loop s) = state_register s).
    { unfold leave_loop, _reject_pending_operator_command_on_shutdown. by destruct (q_operator_command _). }
    rewrite Hreg. split; [|constructor]. apply (inv_reject (shut_down s)). by apply Hmove.
  - destruct Hc as (Ho & Ha & Hsch). unfold _claim_owner_work in Hs. rewrite Ho, Hsch in Hs. cbn [orb] in Hs.
    destruct (q_operator_command (ss_queue s)) as [c|] eqn:Hslot; injection Hs as <- <- <-;
      (split; [|constructor]).
    + destruct (Hp c (or_introl Hslot)) as (cmd & Hl & _).
      apply (inv_requeue _ _ _ _ _ _ _ _ _ Hi).
      * cbn. split_and!; try done. exists c. split_and!; [done|by eexists|by right].
      * done.
      * intros d [[=]|[= ->]]. by left.
    + apply (inv_requeue _ _ _ _ _ _ _ _ _ Hi); [done|done|].
      intros d [Hd|[=]]. by left.
  - destruct (admit_locked c s) as [r s1] eqn:Ha.
    destruct (q_commands (ss_queue s) !! c) as [cmd|] eqn:Hl; [|discriminate].
    injection Hs as <- <- <-. exact (admit_locked_refines _ _ _ _ _ _ Ha Hl Hi).
  - assert (Hn : ~ pending (ss_queue s) (Answering c r) c).
    { cbn in Hc. intros [Hd|[=]]. destruct Hc as (_ & _ & ? & _). congruence. }
    pose proof (inv_publish s _ _ ws c r Hi Hn) as Hpub.
    assert (Hreg : state_register (publish_admission c r s) = state_register s) by done.
    destruct r as [[]|x].
    + injection Hs as <- <- <-. rewrite Hreg. split; [|constructor].
      apply (inv_pc _ _ _ _ _ Hpub); [exact (inv_claim _ _ _ _ Hpub)|done|].
      intros d [Hd|Hd]; [by left|discriminate].
    + destruct (settled once true false (Raise x) (publish_admission c (Raise x) s)) as [p s1] eqn:He.
      injection Hs as <- <- <-. destruct (settled_effect _ _ _ _ _ _ _ He) as ([t ->] & Hq & Hg).
      rewrite Hg, Hq, Hreg. split; [|constructor].
      apply (inv_pc _ _ _ _ _ Hpub); [|done|].
      * destruct (inv_claim _ _ _ _ Hpub) as (? & ? & ? & d & ? & ? & ?).
        split_and!; [done..|]. exists d. split_and!; [done|done|by left].
      * intros d [Hd|Hd]; [by left|discriminate].
  - destruct (q_commands (ss_queue s) !! c) as [cmd|]; [|discriminate].
    destruct (in_engine (_dispatch_operator_command cmd) s) as [r s1] eqn:He.
    destruct (in_engine_effect _ _ _ _ (dispatch_keeps cmd) He) as [Hq1 Hg1].
    destruct (settled once true false r s1) as [p s2] eqn:Ht. injection Hs as <- <- <-.
    destruct (settled_effect _ _ _ _ _ _ _ Ht) as ([t ->] & Hq & Hg).
    apply Hmove; [congruence|congruence| |done|done].
    destruct Hc as (? & ? & ? & d & ? & ? & ?).
    split_and!; [done..|]. exists d. split_and!; [done|done|by left].
  - destruct (in_engine run_iteration s) as [r s1] eqn:He.
    destruct (in_engine_effect _ _ _ _ iteration_keeps He) as [Hq1 Hg1].
    destruct (settled once false claimed r s1) as [p s2] eqn:Ht. injection Hs as <- <- <-.
    destruct (settled_effect _ _ _ _ _ _ _ Ht) as ([t ->] & Hq & Hg).
    destruct claimed; [|by destruct Hcl]. apply Hmove; try done; congruence.
  - assert (Hrel : forall p slot op active sched,
              claim_flags (claim_of p) (requeue (ss_queue s) slot op active sched) ->
              slot = q_operator_command (ss_queue s) -> (forall c, p <> Taken c) ->
              p <> Iterating false /\ (forall t, p <> Releasing false false t) ->
              inv (requeue (ss_queue s) slot op active sched) (state_register s) p ws).
    { intros p slot op active sched Hf -> Hnt Hk. apply (inv_requeue _ _ _ _ _ _ _ _ _ Hi); [done|done|].
      intros d [Hd|Hd]; [by left|]. by destruct (Hnt d). }
    destruct operator.
    + destruct t as [status|r]; injection Hs as <- <- <-; (split; [|exact (SpecSilent (state_register s))]);
        apply (Hrel _ _ false None (q_scheduler_active (ss_queue s))); try done; by destruct Hc as (? & ? & ?).
    + destruct claimed; [|by destruct Hcl as [_ Hcl]; destruct (Hcl t)].
      destruct t as [status|r]; injection Hs as <- <- <-; (split; [|exact (SpecSilent (state_register s))]);
        apply (Hrel _ _ (q_operator_active (ss_queue s)) (q_operator_active_command (ss_queue s)) false);
        try done; by destruct Hc as (? & ? & ?).
  - destruct (rest once refresh status s) as [p s1] eqn:Hrest. injection Hs as <- <- <-.
    destruct (rest_effect _ _ _ _ _ _ _ _ Hrest Hi) as [Hi' Hg]. rewrite Hg. split; [done|constructor].
  - discriminate.
Qed.

(** * Client and host steps *)

Lemma manual_barrier_register e phase request_id r e' :
  eng_save phase (manual_barrier (eng_state e) request_id) e = (r, e') ->
  register (eng_state e') = register (eng_state e).
Proof.
  intros Hs. destruct r as [[]|x]; [|by rewrite (save_failure _ _ _ _ _ Hs)].
  apply register_cong. rewrite (save_effect _ _ _ _ Hs), next_state_field;
    [done|exact receipts_not_cleared|done|apply NoDup_singleton].
Qed.

Lemma request_lifecycle_effect intent request_id force s r s' :
  request_lifecycle intent request_id force s = (r, s') ->
  ss_queue s' = ss_queue s /\ state_register s' = state_register s /\
  (_lifecycle_drain_pending s = true -> _lifecycle_drain_pending s' = true).
Proof.
  unfold request_lifecycle. destruct (negb _); [by intros [= <- <-]|]. run.
  unfold _lifecycle_drain_pending, lifecycle_intent.
  destruct (lc_intent (ss_lifecycle s)) as [accepted|] eqn:Hi.
  - destruct (negb _); [intros [= <- <-]; by rewrite Hi|].
    rewrite py_bind_run. unfold py_modify at 1. run. intros [= <- <-].
    destruct force; [|by rewrite Hi]. unfold request_abort. cbn.
    destruct (ss_stop_event s); cbn; by rewrite Hi.
  - rewrite py_bind_run. unfold begin_lifecycle. rewrite py_bind_run. unfold py_modify at 1.
    rewrite py_bind_run. unfold py_modify at 1. run.
    set (s1 := with_lifecycle _ _).
    assert (H1 : ss_queue s1 = ss_queue s /\ state_register s1 = state_register s).
    { split; [done|]. unfold state_register, s1. cbn. by rewrite drain_state. }
    rewrite py_bind_run. destruct (needs_manual_barrier _ _ _).
    + unfold in_engine. destruct (eng_save _ _ (ss_engine s1)) as [r1 e1] eqn:Hs.
      apply manual_barrier_register in Hs. destruct H1 as [Hq Hg].
      destruct r1 as [[]|x].
      * unfold py_modify at 1. rewrite py_bind_run. unfold py_modify at 1. run. intros [= <- <-].
        destruct force; unfold request_abort; [destruct (ss_stop_event _)|];
          (split_and!; [done| |discriminate]); unfold state_register in *; cbn in *; congruence.
      * intros [= <- <-]. split_and!; [done| |discriminate]. unfold state_register in *.
        cbn in *. congruence.
    + unfold mret at 1, py_ret at 1. unfold py_modify at 1. rewrite py_bind_run.
      unfold py_modify at 1. run. intros [= <- <-]. destruct H1 as [Hq Hg].
      destruct force; unfold request_abort; [destruct (ss_stop_event _)|]; (split_and!; [done|done|discriminate]).
Qed.

Lemma step_refines once k l k' :
  step once k l k' -> config_inv k ->
  config_inv k' /\ spec_step (config_register k) l (config_register k').
Proof.
  unfold config_inv, config_register.
  destruct 1 as [s pc ws l pc' s' Ho|s pc ws u ack s' Hs|s pc ws u x s' Hs|s pc ws u c fresh s' Hs
    |s pc ws1 ws2 u c cmd Hl Hev|s pc ws1 ws2 u c|s pc ws intent id force r s' Hs|s pc ws i Hi|s pc ws];
    cbn [cf_service cf_owner cf_waiting]; intros Hinv.
  - exact (owner_step_refines _ _ _ _ _ _ _ Ho Hinv).
  - destruct (submit_effect _ _ _ _ _ _ Hs Hinv) as (_ & -> & Hreg). split; [done|by constructor].
  - destruct (submit_effect _ _ _ _ _ _ Hs Hinv) as (_ & ->). split; [done|constructor].
  - destruct (submit_effect _ _ _ _ _ _ Hs Hinv) as (He & Hi').
    assert (Hf : forall b : bool, ss_queue (if b then wake s' else s') = ss_queue s' /\
                   ss_engine (if b then wake s' else s') = ss_engine s) by (by intros []).
    destruct (Hf fresh) as [-> ->]. split; [done|constructor].
  - split.
    + apply (inv_fewer_waiting _ _ _ _ _ Hinv). set_solver.
    + destruct (_admission_result cmd) as [ack|x] eqn:Hr; [|constructor]. constructor.
      unfold _admission_result in Hr.
      destruct (oc_admission_error cmd), (oc_admission_result cmd) as [ack'|] eqn:Hack; try discriminate.
      destruct (inv_waiting _ _ _ _ Hinv u c) as (cmd' & Hl' & M1 & M2 & M3); [set_solver|].
      rewrite Hl in Hl'. injection Hl' as <-. rewrite <- M1, <- M2, <- M3.
      exact (inv_result _ _ _ _ Hinv _ _ _ Hl Hack).
  - assert (Hg : state_register (abandon c s) = state_register s).
    { unfold abandon. by destruct (bool_decide _). }
    unfold state_register in Hg. rewrite Hg. split; [|constructor].
    apply inv_give_up. apply (inv_fewer_waiting _ _ _ _ _ Hinv). set_solver.
  - destruct (request_lifecycle_effect _ _ _ _ _ _ Hs) as (Hq & Hg & _).
    unfold state_register in Hg. rewrite Hq, Hg. split; [done|constructor].
  - unfold request_abort. cbn. rewrite Hi. split; [done|constructor].
  - split; [done|constructor].
Qed.

Lemma steps_refine once k ls k' :
  steps once k ls k' -> config_inv k ->
  config_inv k' /\ spec_steps (config_register k) ls (config_register k').
Proof.
  induction 1 as [k|k l k1 ls k2 Hs _ IH]; intros Hi; [split; [done|constructor]|].
  destruct (step_refines _ _ _ _ Hs Hi) as [H1 Hstep]. destruct (IH H1) as [H2 Hrest].
  split; [done|]. by econstructor.
Qed.

(** A service whose owner is about to enter its loop. *)
Definition started (k : config E) : Prop :=
  ss_queue (cf_service k) = mkQueue [] None false None false /\ cf_owner k = AtHead /\
  cf_waiting k = [].

Lemma started_inv k : started k -> config_inv k.
Proof.
  unfold config_inv. intros (-> & -> & ->). constructor; cbn; try done.
  - intros c [[=]|[=]].
  - by intros u c ?%not_elem_of_nil.
Qed.

(** * The register *)

Definition accepted_ids (ls : list label) : list string :=
  omap (fun l => match l with AdmittedBy id _ _ => Some id | _ => None end) ls.

Lemma spec_register_grows reg ls reg' : spec_steps reg ls reg' -> reg ⊆ reg'.
Proof.
  induction 1 as [reg|reg l reg1 ls reg2 Hs _ IH]; [done|]. etransitivity; [|exact IH].
  destruct Hs; [done| |done|done]. by apply insert_subseteq.
Qed.

Lemma spec_accepts_once reg ls reg' :
  spec_steps reg ls reg' ->
  NoDup (accepted_ids ls) /\ (forall id, id ∈ accepted_ids ls -> reg !! id = None /\ is_Some (reg' !! id)).
Proof.
  induction 1 as [reg|reg l reg1 ls reg2 Hs Hrest (Hnd & Hin)]; [split; [constructor|by intros ? ?%not_elem_of_nil]|].
  destruct Hs as [reg|reg id m f Hid|reg u ack Hu|reg u x]; cbn; try (split; done).
  split.
  - constructor; [|done]. intros Hi. destruct (Hin _ Hi) as [Hn _]. by rewrite lookup_insert_eq in Hn.
  - intros j [->|Hj]%elem_of_cons.
    + split; [done|]. eapply lookup_weaken_is_Some; [|exact (spec_register_grows _ _ _ Hrest)].
      rewrite lookup_insert_eq. by eexists.
    + destruct (Hin _ Hj) as [Hn Hs]. split; [|done].
      destruct (decide (id = j)) as [->|Hne]; [by rewrite lookup_insert_eq in Hn|].
      by rewrite lookup_insert_ne in Hn.
Qed.
End Protocol.

(** * Theorems *)

(** C5: the command service implements a register of accepted requests.  Every
    execution of owner, clients, timeouts, lifecycle requests and signals, in
    any interleaving of their locked regions, is an execution of the abstract
    register on the receipts of the durable state: it accepts a request id only
    when it has none yet, acknowledges a submission only when the register holds
    its method and fingerprint, and changes the register in no other step. *)
Theorem service_refines_register {E : Type} `{OwnerEngineLaws E} once (k k' : config E) ls :
  started k -> steps once k ls k' -> spec_steps (config_register k) ls (config_register k').
Proof. intros Hk Hs. exact (proj2 (steps_refine _ _ _ _ Hs (started_inv k Hk))). Qed.

Lemma acknowledged_is_registered reg ls reg' u ack :
  spec_steps reg ls reg' -> Replied u (Ok ack) ∈ ls ->
  reg' !! su_request_id u = Some (su_method u, su_fingerprint u).
Proof.
  induction 1 as [reg|reg l reg1 ls reg2 Hs Hrest IH]; [by intros ?%not_elem_of_nil|].
  intros [<-|Hin]%elem_of_cons; [|by apply IH].
  inversion Hs; subst. eapply lookup_weaken; [done|]. exact (spec_register_grows _ _ _ Hrest).
Qed.

(** a request is admitted at most once, and an acknowledgement is a promise.
    In every execution no request id is admitted twice, nor one that the state
    already held at the start; and whoever was told that a submission is
    accepted finds its method and fingerprint under its id in the final state,
    whatever happened since. *)
Theorem admitted_at_most_once {E : Type} `{OwnerEngineLaws E} once (k k' : config E) ls :
  started k -> steps once k ls k' ->
  NoDup (accepted_ids ls) /\
  (forall id, id ∈ accepted_ids ls -> config_register k !! id = None) /\
  (forall u ack, Replied u (Ok ack) ∈ ls ->
     config_register k' !! su_request_id u = Some (su_method u, su_fingerprint u)).
Proof.
  intros Hk Hs. pose proof (proj2 (steps_refine _ _ _ _ Hs (started_inv k Hk))) as Hr.
  destruct (spec_accepts_once _ _ _ Hr) as [Hnd Hin]. split_and!; [done| |].
  - intros id Hid. exact (proj1 (Hin id Hid)).
  - intros u ack Hu. exact (acknowledged_is_registered _ _ _ _ _ Hr Hu).
Qed.

(** C23: operator commands and scheduler iterations exclude each other.  In every
    reachable configuration at most one of the two claims is set; the owner runs
    an iteration only under the scheduler's claim and admits or dispatches a
    command only under the operator's, with the command it holds registered as
    the active one; and a command waits in the slot only while none is active. *)
Theorem owner_work_exclusive {E : Type} `{OwnerEngineLaws E} once (k k' : config E) ls :
  started k -> steps once k ls k' ->
  let q := ss_queue (cf_service k') in
  (q_operator_active q && q_scheduler_active q = false) /\
  (forall claimed, cf_owner k' = Iterating claimed -> q_scheduler_active q = true) /\
  (forall c, cf_owner k' = Taken c \/ (exists r, cf_owner k' = Answering c r) \/ cf_owner k' = Dispatching c ->
     q_operator_active_command q = Some c /\ q_operator_command q = None) /\
  (q_operator_command q <> None -> q_operator_active_command q = None).
Proof.
  intros Hk Hs. destruct (steps_refine _ _ _ _ Hs (started_inv k Hk)) as [[Hc [Hcl _] _ _ _] _].
  cbn zeta. split_and!.
  - destruct (claim_of (cf_owner k')); cbn in Hc; destruct Hc as (? & ? & ?); by apply andb_false_iff; auto.
  - intros claimed Hp. rewrite Hp in *. destruct claimed; [by destruct Hc as (? & ? & ?)|done].
  - intros c [Hp|[[r Hp]|Hp]]; rewrite Hp in Hc; destruct Hc as (_ & _ & ? & d & ? & _ & [?|[= ->]]); done.
  - destruct (claim_of (cf_owner k')); cbn in Hc; [tauto| |tauto]. by destruct Hc as (_ & _ & -> & _).
Qed.

(** ** Drain *)

Lemma on_service_drain {E : Type} (s s' : service E) :
  ss_lifecycle s' = ss_lifecycle s -> _lifecycle_drain_pending s' = _lifecycle_drain_pending s.
Proof. unfold _lifecycle_drain_pending, lifecycle_intent. by intros ->. Qed.

Lemma reject_lifecycle {E : Type} (s : service E) :
  ss_lifecycle (_reject_pending_operator_command_on_shutdown s) = ss_lifecycle s.
Proof. unfold _reject_pending_operator_command_on_shutdown. by destruct (q_operator_command _). Qed.

Lemma settled_lifecycle {E : Type} `{OwnerEngine E} once operator claimed r (s : service E) pc' s' :
  settled once operator claimed r s = (pc', s') -> ss_lifecycle s' = ss_lifecycle s.
Proof.
  unfold settled. destruct (turn_of _ _ _ _) as [t e]. intros [= <- <-].
  destruct r as [|x]; [done|]. by destruct (is_class _ x).
Qed.

Lemma rest_lifecycle {E : Type} `{OwnerEngine E} once refresh status (s : service E) pc' s' :
  rest once refresh status s = (pc', s') -> ss_lifecycle s' = ss_lifecycle s.
Proof.
  unfold rest. set (m := if refresh then _ else mret tt).
  destruct (m (ss_engine s)) as [[[]|x] e]; [|by intros [= <- <-]].
  destruct (foreground_abort_requested _); [by intros [= <- <-]|].
  destruct once; [by intros [= <- <-]|].
  destruct (ss_stop_event _); [|by intros [= <- <-]].
  destruct (_lifecycle_exit_ready _) as [b|x]; [|by intros [= <- <-]].
  destruct (b || _); intros [= <- <-]; [|done].
  exact (reject_lifecycle (shut_down (clear_wake (with_engine e s)))).
Qed.

Lemma owner_step_drain {E : Type} `{OwnerEngineLaws E} once pc (s : service E) l pc' s' :
  owner_step once pc s = Some (l, pc', s') -> _lifecycle_drain_pending s = true ->
  accepted_ids [l] = [] /\ _lifecycle_drain_pending s' = true.
Proof.
  intros Hs Hd.
  enough (accepted_ids [l] = [] /\ ss_lifecycle s' = ss_lifecycle s) as [H1 H2]
    by (split; [done|]; by rewrite (on_service_drain _ _ H2)).
  destruct pc as [| |c|c r|c|claimed|operator claimed t|refresh status|r]; cbn [owner_step] in Hs.
  - destruct (_lifecycle_exit_ready s) as [ready|x]; [|by injection Hs as <- <- <-].
    destruct (ready || _); injection Hs as <- <- <-; [|done]. split; [done|].
    exact (reject_lifecycle (shut_down s)).
  - unfold _claim_owner_work in Hs.
    destruct (q_operator_command (ss_queue s)), (q_operator_active (ss_queue s) || _);
      by injection Hs as <- <- <-.
  - destruct (admit_locked c s) as [r s1] eqn:Ha.
    destruct (q_commands (ss_queue s) !! c) as [cmd|] eqn:Hl; [|discriminate].
    injection Hs as <- <- <-. unfold admit_locked in Ha. rewrite Hl, Hd in Ha.
    destruct (admit_body true cmd (ss_engine s)) as [[[cmd' ack]|x] e] eqn:Hb; injection Ha as <- <-; [|done].
    apply admit_effect in Hb. by destruct Hb.
  - destruct r as [[]|x]; [by injection Hs as <- <- <-|].
    destruct (settled _ _ _ _ _) as [p s1] eqn:He. injection Hs as <- <- <-.
    by apply settled_lifecycle in He.
  - destruct (q_commands (ss_queue s) !! c) as [cmd|]; [|discriminate]. unfold in_engine in Hs.
    destruct (_dispatch_operator_command cmd (ss_engine s)) as [r e].
    destruct (settled _ _ _ _ _) as [p s1] eqn:He. injection Hs as <- <- <-.
    by apply settled_lifecycle in He.
  - unfold in_engine in Hs. destruct (run_iteration (ss_engine s)) as [r e].
    destruct (settled _ _ _ _ _) as [p s1] eqn:He. injection Hs as <- <- <-.
    by apply settled_lifecycle in He.
  - destruct operator, claimed, t; by injection Hs as <- <- <-.
  - destruct (rest once refresh status s) as [p s1] eqn:He. injection Hs as <- <- <-.
    by apply rest_lifecycle in He.
  - discriminate.
Qed.

Lemma submit_lifecycle {E : Type} `{OwnerEngine E} u (s : service E) r s' :
  _submit_operator_command u s = (r, s') -> ss_lifecycle s' = ss_lifecycle s.
Proof.
  unfold _submit_operator_command. run. run.
  destruct (negb (ss_shutdown s || _)); [|by intros [= <- <-]]. run.
  destruct (negb (_lifecycle_drain_pending s)); [|by intros [= <- <-]]. run.
  destruct (_mutable_receipt _ _) as [[receipt|]|x]; [| |by intros [= <- <-]].
  - run. destruct (_ && is_true _); [|by intros [= <- <-]]. run.
    destruct (_operator_ack _ _ _ _ _); by intros [= <- <-].
  - destruct (match q_operator_command (ss_queue s) with Some c => _ | None => _ end) as [c|].
    + destruct (q_commands (ss_queue s) !! c) as [existing|]; [|by intros [= <- <-]].
      run. destruct (_ =? su_request_id u)%string; [|by intros [= <- <-]]. run.
      destruct (_ && _); by intros [= <- <-].
    + run. destruct (negb (q_scheduler_active _)); by intros [= <- <-].
Qed.

Lemma step_drain {E : Type} `{OwnerEngineLaws E} once (k : config E) l k' :
  step once k l k' -> _lifecycle_drain_pending (cf_service k) = true ->
  accepted_ids [l] = [] /\ _lifecycle_drain_pending (cf_service k') = true.
Proof.
  destruct 1 as [s pc ws l pc' s' Ho|s pc ws u ack s' Hs|s pc ws u x s' Hs|s pc ws u c fresh s' Hs
    |s pc ws1 ws2 u c cmd Hl Hev|s pc ws1 ws2 u c|s pc ws intent id force r s' Hs|s pc ws i Hi|s pc ws];
    cbn [cf_service]; intros Hd.
  - exact (owner_step_drain _ _ _ _ _ _ Ho Hd).
  - split; [done|]. by rewrite (on_service_drain _ _ (submit_lifecycle _ _ _ _ Hs)).
  - split; [done|]. by rewrite (on_service_drain _ _ (submit_lifecycle _ _ _ _ Hs)).
  - split; [done|]. rewrite <- Hd, <- (on_service_drain _ _ (submit_lifecycle _ _ _ _ Hs)).
    by destruct fresh.
  - done.
  - split; [done|]. rewrite <- Hd. unfold abandon. by destruct (bool_decide _).
  - split; [done|]. destruct (request_lifecycle_effect _ _ _ _ _ _ Hs) as (_ & _ & Hm). auto.
  - split; [done|]. rewrite <- Hd. unfold request_abort. by destruct (ss_stop_event _).
  - done.
Qed.

(** C24: a draining service admits nothing.  Once a stop or restart is accepted,
    no continuation of the execution records another request, not even of a
    command that was already in the slot or claimed by the owner, and the drain
    is never revoked. *)
Theorem drain_admits_nothing {E : Type} `{OwnerEngineLaws E} once (k k' : config E) ls :
  _lifecycle_drain_pending (cf_service k) = true -> steps once k ls k' ->
  accepted_ids ls = [] /\ _lifecycle_drain_pending (cf_service k') = true.
Proof.
  intros Hd Hs. revert Hd. induction Hs as [k|k l k1 ls k2 Hs _ IH]; intros Hd; [done|].
  destruct (step_drain _ _ _ _ Hs Hd) as [Hl Hd1]. destruct (IH Hd1) as [Hls Hd2].
  split; [|done]. destruct l; [exact Hls|discriminate|exact Hls].
Qed.

(** ** Commands only move forward *)

(** What no step undoes: a command keeps its place, its event once set and its
    cancellation; and a cancelled command gets no result. *)
Definition heap_le (cmds cmds' : list OperatorCommand) : Prop :=
  forall c cmd, cmds !! c = Some cmd -> exists cmd', cmds' !! c = Some cmd' /\
    (oc_admission_event cmd = true -> oc_admission_event cmd' = true) /\
    (oc_cancelled cmd = true ->
       oc_cancelled cmd' = true /\ oc_admission_result cmd' = oc_admission_result cmd).

#[export] Instance heap_le_refl : Reflexive heap_le.
Proof. intros cmds c cmd Hl. by exists cmd. Qed.

#[export] Instance heap_le_trans : Transitive heap_le.
Proof.
  intros l1 l2 l3 H12 H23 c cmd Hl. destruct (H12 c cmd Hl) as (cmd2 & Hl2 & He2 & Hc2).
  destruct (H23 c cmd2 Hl2) as (cmd3 & Hl3 & He3 & Hc3). exists cmd3. split_and!; [done|by auto|].
  intros Hc. destruct (Hc2 Hc) as [Hc2' Hr2]. destruct (Hc3 Hc2') as [? ?]. split; congruence.
Qed.

Lemma heap_le_alter f c cmds :
  (forall cmd, cmds !! c = Some cmd ->
     (oc_admission_event cmd = true -> oc_admission_event (f cmd) = true) /\
     (oc_cancelled cmd = true ->
        oc_cancelled (f cmd) = true /\ oc_admission_result (f cmd) = oc_admission_result cmd)) ->
  heap_le cmds (alter f c cmds).
Proof.
  intros Hf d cmd Hl. destruct (decide (c = d)) as [->|Hne].
  - rewrite list_lookup_alter_eq, Hl. exists (f cmd). split; [done|]. by apply Hf.
  - rewrite list_lookup_alter_ne by done. by exists cmd.
Qed.

Section Progress.
Context {E : Type} `{OwnerEngineLaws E}.

Definition heap (s : service E) : list OperatorCommand := q_commands (ss_queue s).

Lemma heap_reject (s : service E) : heap_le (heap s) (heap (_reject_pending_operator_command_on_shutdown s)).
Proof.
  unfold heap, _reject_pending_operator_command_on_shutdown.
  destruct (q_operator_command (ss_queue s)); [|done]. by apply heap_le_alter.
Qed.

Lemma heap_give_up c (s : service E) : heap_le (heap s) (heap (abandon c s)).
Proof. unfold heap, abandon. destruct (bool_decide _); by apply heap_le_alter. Qed.

Lemma heap_publish c r (s : service E) : heap_le (heap s) (heap (publish_admission c r s)).
Proof.
  unfold heap, publish_admission. apply heap_le_alter. intros cmd _.
  destruct r as [|x]; [done|]. by destruct (is_devlegate_error x).
Qed.

Lemma heap_admit c (s : service E) r s' : admit_locked c s = (r, s') -> heap_le (heap s) (heap s').
Proof.
  unfold admit_locked, heap. destruct (q_commands (ss_queue s) !! c) as [cmd|] eqn:Hl; [|by intros [= <- <-]].
  destruct (admit_body _ cmd _) as [[[cmd' ack]|x] e] eqn:Hb; intros [= <- <-]; [|done].
  apply admit_effect in Hb as (_ & Hn & _ & (H1 & _ & _ & H4) & _).
  apply heap_le_alter. intros cmd0 Hl0. pose proof (eq_trans (eq_sym Hl) Hl0) as [= <-]. cbn.
  rewrite H1. split; [done|]. by rewrite Hn.
Qed.

Lemma rest_queue once refresh status (s : service E) pc' s' :
  rest once refresh status s = (pc', s') ->
  (exists r, pc' = Stopped r) /\ heap_le (heap s) (heap s') \/ pc' = AtHead /\ ss_queue s' = ss_queue s.
Proof.
  unfold rest. set (m := if refresh then _ else mret tt).
  destruct (m (ss_engine s)) as [[[]|x] e]; [|intros [= <- <-]; left; split; [by eexists|done]].
  destruct (foreground_abort_requested _); [intros [= <- <-]; left; split; [by eexists|done]|].
  destruct once; [intros [= <- <-]; left; split; [by eexists|done]|].
  destruct (ss_stop_event _); [|intros [= <- <-]; by right].
  destruct (_lifecycle_exit_ready _) as [b|x]; [|intros [= <- <-]; left; split; [by eexists|done]].
  destruct (b || _); intros [= <- <-]; [|by right]. left. split; [by eexists|].
  exact (heap_reject (shut_down (clear_wake (with_engine e s)))).
Qed.

Lemma heap_owner_step once pc (s : service E) l pc' s' :
  owner_step once pc s = Some (l, pc', s') -> heap_le (heap s) (heap s').
Proof.
  intros Hs.
  destruct pc as [| |c|c r|c|claimed|operator claimed t|refresh status|r]; cbn [owner_step] in Hs.
  - destruct (_lifecycle_exit_ready s) as [ready|x]; [|by injection Hs as <- <- <-].
    destruct (ready || _); injection Hs as <- <- <-; [|done]. exact (heap_reject (shut_down s)).
  - unfold _claim_owner_work in Hs.
    destruct (q_operator_command (ss_queue s)), (q_operator_active (ss_queue s) || _);
      by injection Hs as <- <- <-.
  - destruct (admit_locked c s) as [r s1] eqn:Ha. destruct (q_commands (ss_queue s) !! c); [|discriminate].
    injection Hs as <- <- <-. exact (heap_admit _ _ _ _ Ha).
  - pose proof (heap_publish c r s) as Hp.
    destruct r as [[]|x]; [by injection Hs as <- <- <-|].
    destruct (settled _ _ _ _ _) as [p s1] eqn:He. injection Hs as <- <- <-.
    destruct (settled_effect _ _ _ _ _ _ _ He) as (_ & Hq & _). unfold heap in *. by rewrite Hq.
  - destruct (q_commands (ss_queue s) !! c) as [cmd|]; [|discriminate].
    destruct (in_engine (_dispatch_operator_command cmd) s) as [r s1] eqn:Hd.
    destruct (in_engine_effect _ _ _ _ (dispatch_keeps cmd) Hd) as [Hq1 _].
    destruct (settled _ _ _ _ _) as [p s2] eqn:He. injection Hs as <- <- <-.
    destruct (settled_effect _ _ _ _ _ _ _ He) as (_ & Hq & _). unfold heap. by rewrite Hq, Hq1.
  - destruct (in_engine run_iteration s) as [r s1] eqn:Hd.
    destruct (in_engine_effect _ _ _ _ iteration_keeps Hd) as [Hq1 _].
    destruct (settled _ _ _ _ _) as [p s2] eqn:He. injection Hs as <- <- <-.
    destruct (settled_effect _ _ _ _ _ _ _ He) as (_ & Hq & _). unfold heap. by rewrite Hq, Hq1.
  - by destruct operator, claimed, t; injection Hs as <- <- <-.
  - destruct (rest once refresh status s) as [p s1] eqn:He. injection Hs as <- <- <-.
    destruct (rest_queue _ _ _ _ _ _ He) as [[_ Hle]|[_ Hq]]; [done|]. unfold heap. by rewrite Hq.
  - discriminate.
Qed.

Ltac unchanged := intros [= <- <-]; split; [reflexivity|by auto].

(** What a submission does to slot and commands. *)
Lemma submit_queue u (s : service E) r s' :
  _submit_operator_command u s = (r, s') ->
  heap_le (heap s) (heap s') /\
  (q_operator_command (ss_queue s) = None \/ ss_queue s' = ss_queue s).
Proof.
  unfold _submit_operator_command. run. run.
  destruct (negb (ss_shutdown s || _)); [|unchanged]. run.
  destruct (negb (_lifecycle_drain_pending s)); [|unchanged]. run.
  destruct (_mutable_receipt _ _) as [[receipt|]|x]; [| |unchanged].
  - run. destruct (_ && is_true _); [|unchanged]. run.
    destruct (_operator_ack _ _ _ _ _); unchanged.
  - destruct (q_operator_command (ss_queue s)) as [c|].
    + destruct (q_commands (ss_queue s) !! c) as [existing|]; [|unchanged].
      run. destruct (_ =? su_request_id u)%string; [|unchanged]. run.
      destruct (_ && _); unchanged.
    + destruct (q_operator_active_command (ss_queue s)) as [c|].
      * destruct (q_commands (ss_queue s) !! c) as [existing|]; [|unchanged].
        run. destruct (_ =? su_request_id u)%string; [|unchanged]. run.
        destruct (_ && _); unchanged.
      * run. destruct (negb (q_scheduler_active _)); [intros [= <- <-]|unchanged].
        split; [|by left]. intros d cmd Hl. exists cmd. split; [|done]. cbn. by apply lookup_app_l_Some.
Qed.

Lemma step_heap once (k : config E) l k' :
  step once k l k' -> heap_le (heap (cf_service k)) (heap (cf_service k')).
Proof.
  destruct 1 as [s pc ws l pc' s' Ho|s pc ws u ack s' Hs|s pc ws u x s' Hs|s pc ws u c fresh s' Hs
    |s pc ws1 ws2 u c cmd Hl Hev|s pc ws1 ws2 u c|s pc ws intent id force r s' Hs|s pc ws i Hi|s pc ws];
    cbn [cf_service].
  - exact (heap_owner_step _ _ _ _ _ _ Ho).
  - exact (proj1 (submit_queue _ _ _ _ Hs)).
  - exact (proj1 (submit_queue _ _ _ _ Hs)).
  - destruct (submit_queue _ _ _ _ Hs) as [Hle _]. by destruct fresh.
  - done.
  - apply heap_give_up.
  - destruct (request_lifecycle_effect _ _ _ _ _ _ Hs) as (Hq & _). unfold heap. by rewrite Hq.
  - unfold request_abort. by destruct (ss_stop_event _).
  - done.
Qed.

(** ** Every command is answered *)

Definition answered (k : config E) (c : nat) : Prop :=
  exists cmd, heap (cf_service k) !! c = Some cmd /\ oc_admission_event cmd = true.

(** The command is on its way to the owner's answer. *)
Definition under_way (q : command_queue) (pc : owner_pc) (c : nat) : Prop :=
  q_operator_command q = Some c \/ pc = Taken c \/ exists r, pc = Answering c r.

Definition waits_for_owner (k : config E) (c : nat) : Prop :=
  is_Some (heap (cf_service k) !! c) /\ under_way (ss_queue (cf_service k)) (cf_owner k) c.

Definition stopped (k : config E) : Prop := exists r, cf_owner k = Stopped r.

(** The owner's steps from a point of its loop to the answer. *)
Definition steps_left (pc : owner_pc) : nat :=
  match pc with
  | Iterating _ | Dispatching _ => 7
  | Releasing _ _ _ => 6
  | Resting _ _ => 5
  | AtHead => 4
  | Claiming => 3
  | Taken _ => 2
  | Answering _ _ => 1
  | Stopped _ => 0
  end.

Lemma answered_step once k l k' c : step once k l k' -> answered k c -> answered k' c.
Proof.
  intros Hs (cmd & Hl & Hev). destruct (step_heap _ _ _ _ Hs c cmd Hl) as (cmd' & Hl' & He & _).
  exists cmd'. auto.
Qed.

Lemma reject_answers (s : service E) pc ws c :
  q_operator_command (ss_queue s) = Some c -> is_Some (heap s !! c) ->
  answered (mkConfig (_reject_pending_operator_command_on_shutdown s) pc ws) c.
Proof.
  intros Hs [cmd Hl]. unfold answered, heap, _reject_pending_operator_command_on_shutdown in *.
  rewrite Hs. cbn. rewrite list_lookup_alter_eq, Hl. by eexists.
Qed.

Lemma owner_progress once pc (s : service E) l pc' s' ws c :
  owner_step once pc s = Some (l, pc', s') -> inv (ss_queue s) (state_register s) pc ws ->
  waits_for_owner (mkConfig s pc ws) c ->
  answered (mkConfig s' pc' ws) c \/ (exists r, pc' = Stopped r) \/
  waits_for_owner (mkConfig s' pc' ws) c /\ steps_left pc' < steps_left pc.
Proof.
  intros Hs Hi [Hl Hw]. cbn [cf_service cf_owner] in *.
  pose proof (heap_owner_step _ _ _ _ _ _ Hs) as Hle.
  pose proof (owner_step_refines _ _ _ _ _ _ _ Hs Hi) as [Hi' _].
  assert (Hl' : is_Some (heap s' !! c)).
  { destruct Hl as [cmd Hl]. destruct (Hle c cmd Hl) as (cmd' & -> & _). by eexists. }
  assert (Hgo : under_way (ss_queue s') pc' c -> steps_left pc' < steps_left pc ->
                waits_for_owner (mkConfig s' pc' ws) c /\ steps_left pc' < steps_left pc) by done.
  assert (Hslot : (forall d, pc <> Taken d) -> (forall d r, pc <> Answering d r) ->
            q_operator_command (ss_queue s) = Some c).
  { intros H1 H2. destruct Hw as [Hw|[Hw|[r Hw]]]; [done|by destruct (H1 c)|by destruct (H2 c r)]. }
  pose proof (inv_claim _ _ _ _ Hi) as Hc.
  destruct pc as [| |d|d r|d|claimed|operator claimed t|refresh status|r]; cbn [owner_step] in Hs;
    try (specialize (Hslot ltac:(done) ltac:(done)));
    try (destruct Hc as (_ & _ & Hnone & _); congruence).
  - destruct (_lifecycle_exit_ready s) as [ready|x]; [|injection Hs as <- <- <-; eauto].
    destruct (ready || _); injection Hs as <- <- <-; [right; left; eauto|].
    right; right. apply Hgo; [by left|cbn; lia].
  - destruct Hc as (Ho & Ha & Hsch). unfold _claim_owner_work in Hs. rewrite Hslot, Ho, Hsch in Hs.
    injection Hs as <- <- <-. right; right. apply Hgo; [by right; left|cbn; lia].
  - destruct (admit_locked d s) as [r s1] eqn:Ha.
    destruct (q_commands (ss_queue s) !! d) as [cmd|]; [|discriminate]. injection Hs as <- <- <-.
    right; right. apply Hgo; [|cbn; lia]. right; right. exists r.
    destruct Hc as (_ & _ & Hnone & _). destruct Hw as [Hw|[[= ->]|[r' [=]]]]; [congruence|done].
  - left. assert (d = c) as ->.
    { destruct Hc as (_ & _ & Hnone & _). destruct Hw as [Hw|[[=]|[r' [= -> ->]]]]; [congruence|done]. }
    assert (Hans : answered (mkConfig (publish_admission c r s) (Dispatching c) ws) c).
    { destruct Hl as [cmd Hl]. unfold answered, heap in *. cbn. rewrite list_lookup_alter_eq, Hl.
      eexists; split; [done|]. destruct r as [|x]; [done|]. by destruct (is_devlegate_error x). }
    destruct r as [[]|x]; [injection Hs as <- <- <-; exact Hans|].
    destruct (settled _ _ _ _ _) as [p s1] eqn:He. injection Hs as <- <- <-.
    destruct (settled_effect _ _ _ _ _ _ _ He) as (_ & Hq & _). unfold answered, heap in *.
    cbn [cf_service] in *. by rewrite Hq.
  - destruct (in_engine run_iteration s) as [r s1] eqn:Hd.
    destruct (in_engine_effect _ _ _ _ iteration_keeps Hd) as [Hq1 _].
    destruct (settled _ _ _ _ _) as [p s2] eqn:He. injection Hs as <- <- <-.
    destruct (settled_effect _ _ _ _ _ _ _ He) as ([t ->] & Hq & _).
    right; right. apply Hgo; [left; congruence|cbn; lia].
  - destruct t as [status|r]; injection Hs as <- <- <-; [|right; left; eauto].
    right; right. apply Hgo; [left; by destruct operator, claimed|cbn; lia].
  - destruct (rest once refresh status s) as [p s1] eqn:He. injection Hs as <- <- <-.
    destruct (rest_queue _ _ _ _ _ _ He) as [[[r ->] _]|[-> Hq]]; [right; left; eauto|].
    right; right. apply Hgo; [left; congruence|cbn; lia].
  - discriminate.
Qed.

(** A step of anybody else takes a command from the owner only by answering it. *)
Lemma client_progress once k l k' c :
  step once k l k' -> cf_owner k' = cf_owner k -> config_inv k -> waits_for_owner k c ->
  answered k' c \/ stopped k' \/ waits_for_owner k' c.
Proof.
  intros Hstep. pose proof (step_heap _ _ _ _ Hstep) as Hle.
  assert (Hl : waits_for_owner k c -> is_Some (heap (cf_service k') !! c)).
  { intros [[cmd Hl] _]. destruct (Hle c cmd Hl) as (cmd' & -> & _). by eexists. }
  assert (Hsame : q_operator_command (ss_queue (cf_service k')) = q_operator_command (ss_queue (cf_service k)) ->
            cf_owner k' = cf_owner k -> waits_for_owner k c -> waits_for_owner k' c).
  { intros Hq Ho Hw. split; [by apply Hl|]. unfold under_way. rewrite Hq, Ho. by destruct Hw. }
  revert Hle Hl Hsame.
  destruct Hstep as [s pc ws l pc' s' Ho|s pc ws u ack s' Hs|s pc ws u x s' Hs|s pc ws u d fresh s' Hs
    |s pc ws1 ws2 u d cmd Hd Hev|s pc ws1 ws2 u d|s pc ws intent id force r s' Hs|s pc ws i Hi|s pc ws];
    cbn [cf_service cf_owner]; intros Hle Hl Hsame Howner Hinv Hw.
  - destruct (owner_progress _ _ _ _ _ _ ws c Ho Hinv Hw) as [?|[?|[? _]]]; [by left|by right; left|].
    by right; right.
  - destruct (submit_queue _ _ _ _ Hs) as [_ [Hn|Hq]].
    + right; right. split; [by apply Hl|]. destruct Hw as [_ [Hw|Hw]]; [cbn in Hw; congruence|by right].
    + right; right. apply Hsame; [by rewrite Hq|done|done].
  - destruct (submit_queue _ _ _ _ Hs) as [_ [Hn|Hq]].
    + right; right. split; [by apply Hl|]. destruct Hw as [_ [Hw|Hw]]; [cbn in Hw; congruence|by right].
    + right; right. apply Hsame; [by rewrite Hq|done|done].
  - destruct (submit_queue _ _ _ _ Hs) as [_ [Hn|Hq]].
    + right; right. split; [by apply Hl|]. destruct Hw as [_ [Hw|Hw]]; [cbn in Hw; congruence|by right].
    + right; right. apply Hsame; [by destruct fresh; rewrite <- Hq|done|done].
  - right; right. by apply Hsame.
  - destruct (decide (q_operator_command (ss_queue s) = Some d)) as [Hd|Hd].
    + destruct (decide (d = c)) as [->|Hne].
      * left. destruct Hw as [[cmd Hc] _]. unfold answered, heap, abandon in *. cbn [cf_service] in *.
        rewrite bool_decide_eq_true_2 by done. cbn. rewrite list_lookup_alter_eq, Hc. by eexists.
      * right; right. split; [by apply Hl|]. destruct Hw as [_ [Hw|Hw]]; [cbn in Hw; congruence|by right].
    + right; right. apply Hsame; [|done|done]. unfold abandon. by rewrite bool_decide_eq_false_2.
  - destruct (request_lifecycle_effect _ _ _ _ _ _ Hs) as (Hq & _). right; right.
    apply Hsame; [by rewrite Hq|done|done].
  - right; right. apply Hsame; [|done|done]. unfold request_abort. by destruct (ss_stop_event _).
  - right; right. by apply Hsame.
Qed.
End Progress.

(** An execution with the number of steps the owner takes in it. *)
Inductive run_with {E : Type} `{OwnerEngine E} (once : bool) : config E -> nat -> config E -> Prop :=
  | RunDone k : run_with once k 0 k
  | RunOwner s pc ws l pc' s' n k :
      owner_step once pc s = Some (l, pc', s') -> run_with once (mkConfig s' pc' ws) n k ->
      run_with once (mkConfig s pc ws) (S n) k
  | RunOther k l k1 n k2 :
      step once k l k1 -> cf_owner k1 = cf_owner k -> run_with once k1 n k2 -> run_with once k n k2.

Section Answers.
Context {E : Type} `{OwnerEngineLaws E}.

Lemma run_answered once k n k' c : run_with (E := E) once k n k' -> answered k c -> answered k' c.
Proof.
  induction 1 as [k|s pc ws l pc' s' n k Ho _ IH|k l k1 n k2 Hs _ _ IH]; intros Ha; [done| |].
  - apply IH. exact (answered_step once _ l _ c (OwnerStep once _ _ _ _ _ _ Ho) Ha).
  - apply IH. exact (answered_step once _ _ _ c Hs Ha).
Qed.

Lemma run_stopped once k n k' : run_with (E := E) once k n k' -> stopped k -> stopped k' /\ n = 0.
Proof.
  induction 1 as [k|s pc ws l pc' s' n k Ho _ IH|k l k1 n k2 Hs Hp _ IH]; intros Hst; [done| |].
  - destruct Hst as [r Hr]. cbn in Hr. subst pc. discriminate.
  - apply IH. destruct Hst as [r Hr]. exists r. by rewrite Hp.
Qed.

Lemma run_progress once k n k' c :
  run_with (E := E) once k n k' -> config_inv k -> waits_for_owner k c ->
  steps_left (cf_owner k) <= n -> answered k' c \/ stopped k'.
Proof.
  induction 1 as [k|s pc ws l pc' s' n k Ho Hrun IH|k l k1 n k2 Hs Hp Hrun IH]; intros Hi Hw Hn.
  - destruct (cf_owner k) eqn:Hk; cbn in Hn; try lia. right. by exists r.
  - pose proof (owner_step_refines _ _ _ _ _ _ _ Ho Hi) as [Hi' _].
    destruct (owner_progress _ _ _ _ _ _ ws c Ho Hi Hw) as [Ha|[Hst|[Hw' Hlt]]].
    + left. exact (run_answered _ _ _ _ _ Hrun Ha).
    + right. exact (proj1 (run_stopped _ _ _ _ Hrun Hst)).
    + apply IH; [exact Hi'|done|]. cbn in *. lia.
  - destruct (step_refines _ _ _ _ Hs Hi) as [Hi' _].
    destruct (client_progress _ _ _ _ _ Hs Hp Hi Hw) as [Ha|[Hst|Hw']].
    + left. exact (run_answered _ _ _ _ _ Hrun Ha).
    + right. exact (proj1 (run_stopped _ _ _ _ Hrun Hst)).
    + apply IH; [exact Hi'|done|]. by rewrite Hp.
Qed.

Lemma owner_enabled once pc (s : service E) ws :
  inv (ss_queue s) (state_register s) pc ws -> (forall r, pc <> Stopped r) ->
  is_Some (owner_step once pc s).
Proof.
  intros Hi Hst. pose proof (inv_claim _ _ _ _ Hi) as Hc.
  destruct pc as [| |d|d r|d|claimed|operator claimed t|refresh status|r]; cbn [owner_step].
  - destruct (_lifecycle_exit_ready s) as [ready|x]; [|by eexists]. destruct (ready || _); by eexists.
  - destruct (_claim_owner_work true s) as [[[c|] claimed] s']; by eexists.
  - destruct (admit_locked d s). destruct Hc as (_ & _ & _ & c & _ & [cmd Hl] & [?|[= ->]]); [done|].
    rewrite Hl. by eexists.
  - destruct r as [|x]; [by eexists|]. destruct (settled _ _ _ _ _). by eexists.
  - destruct Hc as (_ & _ & _ & c & _ & [cmd Hl] & [?|[= ->]]); [done|]. rewrite Hl.
    destruct (in_engine _ s). destruct (settled _ _ _ _ _). by eexists.
  - destruct (in_engine _ s). destruct (settled _ _ _ _ _). by eexists.
  - destruct t; by eexists.
  - destruct (rest _ _ _ _). by eexists.
  - by destruct (Hst r).
Qed.
End Answers.

(** C25: no client waits on a live owner for ever.  In every reachable
    configuration the owner either has returned from its loop or can take a
    step; and from any configuration in which a command is in the slot or under
    admission, every execution in which the owner takes seven steps, interleaved
    in any way with any number of steps of clients and host, ends with that
    command answered, or with the owner's loop left. *)
Theorem command_is_answered {E : Type} `{OwnerEngineLaws E} once (k0 k k' : config E) ls c n :
  started k0 -> steps once k0 ls k ->
  (stopped k \/ is_Some (owner_step once (cf_owner k) (cf_service k))) /\
  (waits_for_owner k c -> run_with once k n k' -> 7 <= n -> answered k' c \/ stopped k').
Proof.
  intros Hk Hs. destruct (steps_refine _ _ _ _ Hs (started_inv k0 Hk)) as [Hi _]. split.
  - destruct k as [s pc ws]. destruct pc eqn:Hpc; try (by left; eexists);
      right; exact (owner_enabled once _ _ ws Hi ltac:(done)).
  - intros Hw Hr Hn. apply (run_progress _ _ _ _ _ Hr Hi Hw). destruct (cf_owner k); cbn; lia.
Qed.
