(* ===== verification/OperatorReplay.v ===== *)
(** Replay, cancellation and failure of operator commands: what a client that
    repeats, abandons or times out a request can rely on, and where the answer
    it gets is wrong. *)

From S2P Require Export OperatorProtocol.

(** * Digests are text *)

Lemma sha256_hex_text s : sha256_hex s <> "".
Proof. intros E. pose proof (proj2 (sha256_hex_spec s)) as Hl. by rewrite E in Hl. Qed.

(** * Submissions as the service's methods make them *)

Inductive submitted : submission -> Prop :=
  | SubmittedRetry k force id : k <> "" -> submitted (submit_retry k force id)
  | SubmittedDrop k x id : k <> "" -> x <> "" -> submitted (submit_drop k x id)
  | SubmittedRecover k x h id : k <> "" -> x <> "" -> submitted (submit_recover k x h id)
  | SubmittedUpdate k onto rewrite id :
      k <> "" -> submitted (submit_reconcile_update_base k onto rewrite id)
  | SubmittedResume k id : k <> "" -> submitted (submit_reconcile_resume k id)
  | SubmittedAuto k onto id : k <> "" -> submitted (submit_reconcile_auto k onto id)
  | SubmittedControl a b id : a <> "" -> submitted (submit_reconcile_control a b id).

Lemma submitted_fingerprint u : submitted u -> su_fingerprint u <> "".
Proof.
  destruct 1; cbn; try apply sha256_hex_text.
  unfold _retry_request_fingerprint. destruct force; apply sha256_hex_text.
Qed.

(** What admission fills in. *)
Lemma validate_resolves {E : Type} `{OwnerEngineLaws E} c e c' e' :
  _validate_operator_admission c e = (Ok c', e') ->
  exists onto cls, c' = resolve_target onto cls c /\
    if (oc_method c =? "reconcile-update-base")%string then cls = oc_resolution_class c /\ exists h, onto = Some h /\ h <> ""
    else if (oc_method c =? "reconcile-auto")%string then
      onto <> Some "" /\ (onto = None -> oc_onto c = None) /\ exists k, cls = Some k /\ k <> ""
    else onto = oc_onto c /\ cls = oc_resolution_class c.
Proof.
  assert (Hid : c = resolve_target (oc_onto c) (oc_resolution_class c) c) by by destruct c.
  unfold _validate_operator_admission.
  destruct (oc_method c =? "retry")%string eqn:M1.
  { intros (? & ? & _ & [= <- <-])%py_bind_ok. apply String.eqb_eq in M1. rewrite M1. eexists _, _. by split. }
  destruct (oc_method c =? "drop")%string eqn:M2.
  { intros (? & ? & _ & [= <- <-])%py_bind_ok. apply String.eqb_eq in M2. rewrite M2. eexists _, _. by split. }
  destruct (oc_method c =? "recover")%string eqn:M3.
  { destruct (oc_execution_id c); [|discriminate].
    destruct (oc_onto c) as [h|] eqn:Eo; [|discriminate].
    intros (? & ? & _ & [= <- <-])%py_bind_ok. apply String.eqb_eq in M3. rewrite M3. exists (Some h), (oc_resolution_class c). by split. }
  destruct (oc_method c =? "reconcile-update-base")%string eqn:M4.
  { intros (h & ? & Hv & [= <- <-])%py_bind_ok. apply reconcile_target in Hv. eexists _, _. split; [done|]. eauto. }
  destruct (oc_method c =? "reconcile-auto")%string eqn:M5.
  { intros ([onto cls] & ? & Hv & [= <- <-])%py_bind_ok. apply auto_target in Hv as (? & ? & ?).
    eexists _, _. split; [done|]. eauto. }
  destruct (oc_method c =? "reconcile-resume")%string eqn:M6.
  { intros (? & ? & _ & [= <- <-])%py_bind_ok. eexists _, _. by split. }
  destruct (oc_method c =? "reconcile-control")%string eqn:M7; [|discriminate].
  destruct (oc_onto c) as [h|] eqn:Eo; [|discriminate].
  intros (? & ? & _ & [= <- <-])%py_bind_ok. exists (Some h), (oc_resolution_class c).
  by split.
Qed.

(** A successful admission leaves the receipt of the resolved command. *)
Lemma record_receipt {E : Type} `{OwnerEngineLaws E} c e e' :
  _record_operator_admission c e = (Ok tt, e') ->
  exists receipt receipts, receipt_of c = Ok receipt /\
    dget (eng_state e') "mutable_receipts" = Some (PDict (dset receipts (oc_request_id c) (PDict receipt))).
Proof.
  unfold _record_operator_admission. intros ([] & e1 & _ & H1)%py_bind_ok.
  revert H1. run. run. destruct (receipts_of (eng_state e1)) as [receipts|x] eqn:Er; [|discriminate].
  run. destruct (receipt_of c) as [receipt|x] eqn:Ec; [|discriminate].
  destruct (_ && _).
  { intros Ht. exists receipt, receipts. split; [done|]. exact (force_effect _ _ _ _ _ _ Ht). }
  run. destruct (resolved_reconciliation _ c) as [reconciliation|x]; [|discriminate].
  run. destruct (getitem _ "phase") as [phase|x]; [|discriminate].
  intros Hs. exists receipt, receipts. split; [done|].
  rewrite (save_effect _ _ _ _ Hs). rewrite next_state_field; [done|exact receipts_not_cleared|done|].
  cbn [so_fields]. unfold record_fields.
  destruct (clears_manual_retry _ c), (_ =? _)%string, reconciliation;
    apply (bool_decide_unpack _); vm_compute; exact I.
Qed.

Lemma admit_records {E : Type} `{OwnerEngineLaws E} draining c e c' ack e' :
  admit_body draining c e = (Ok (c', ack), e') ->
  (exists e1, _validate_operator_admission c e = (Ok c', e1) /\
     exists e2, _record_operator_admission c' e1 = (Ok tt, e2) /\ e' = e2) /\ ack_of c' = Ok ack.
Proof.
  unfold admit_body. run. destruct (negb _); [|discriminate]. run. destruct (negb _); [|discriminate]. run.
  destruct (_validate_operator_admission c e) as [[d|x] e1]; [|discriminate].
  run. destruct (negb _); [|discriminate]. run.
  destruct (_record_operator_admission d e1) as [[[]|x] e2] eqn:Hr; [|discriminate].
  run. destruct (_operator_ack _ _ _ _ _) as [a|] eqn:Ha; [|discriminate]. intros [= <- <- <-].
  split; [|done]. eauto.
Qed.

(** ** Reading a receipt back *)

Definition valid_receipt (receipt : dict) : bool :=
  keys_subset receipt (receipt_fields ++ ["execution_id"; "onto"; "resolution_class"]) &&
  existsb (keys_eq receipt) receipt_shapes &&
  all_text receipt ["method"; "fingerprint"; "ticket_id"] && is_bool (get receipt "accepted") &&
  none_or_text (get receipt "execution_id") && none_or_text (get receipt "onto") &&
  none_or_text (get receipt "resolution_class").

Lemma mutable_receipt_valid state id receipts receipt :
  receipts_of state = Ok receipts -> get receipts id = PDict receipt -> valid_receipt receipt = true ->
  _mutable_receipt state id = Ok (Some receipt).
Proof.
  intros Hr Hg Hv. unfold _mutable_receipt. rewrite Hr. cbn [mbind res_bind]. rewrite Hg.
  unfold valid_receipt in Hv. bsplit.
  repeat match goal with H : _ = true |- _ => rewrite H; clear H end. done.
Qed.

(** The answer of a repeated submission is the answer of the first. *)
Lemma receipt_replays u onto cls receipt ack :
  submitted u ->
  let c := resolve_target onto cls (new_command u) in
  receipt_of c = Ok receipt -> ack_of c = Ok ack ->
  (if (su_method u =? "reconcile-update-base")%string then cls = None /\ exists h, onto = Some h /\ h <> ""
   else if (su_method u =? "reconcile-auto")%string then
     onto <> Some "" /\ (onto = None -> su_onto u = None) /\ exists k, cls = Some k /\ k <> ""
   else onto = su_onto u /\ cls = None) ->
  valid_receipt receipt = true /\
  get receipt "method" = PStr (su_method u) /\ get receipt "fingerprint" = PStr (su_fingerprint u) /\
  get receipt "accepted" = PBool true /\
  _operator_ack (su_method u) (su_ticket_id u)
    (str_opt (get_or receipt "onto" (opt_str (su_onto u)))) (su_execution_id u)
    (str_opt (get receipt "resolution_class")) = Ok ack.
Proof.
  intros Hu. pose proof (submitted_fingerprint u Hu) as Hf. revert Hf.
  destruct Hu; cbn zeta; unfold ack_of, receipt_of;
    cbn [resolve_target new_command oc_request_id oc_method oc_fingerprint oc_ticket_id oc_onto
      oc_execution_id oc_resolution_class su_method su_ticket_id su_request_id su_fingerprint su_onto
      su_execution_id submit_retry submit_drop submit_recover submit_reconcile_update_base
      submit_reconcile_resume submit_reconcile_auto submit_reconcile_control];
    match goal with |- ?f <> _ -> _ => generalize f end; intros f Hf;
    repeat match goal with Hk : ?k <> "" |- _ => is_var k; destruct k; [by destruct Hk|]; clear Hk end.
  - intros [= <-] [= <-] _. by split_and!.
  - intros [= <-] [= <-] _. by split_and!.
  - intros [= <-] [= <-] [-> ->]. by split_and!.
  - destruct onto as [h|]; [|discriminate]. intros [= <-] [= <-] [-> (h' & [= ->] & Hh)].
    destruct h' as [|b h']; [done|]. by split_and!.
  - intros [= <-] [= <-] _. by split_and!.
  - destruct cls as [[|b cls]|]; [by intros _ _ (_ & _ & ? & [= <-] & ?)| |by intros _ _ (_ & _ & ? & ? & _)].
    destruct onto as [[|b' h]|]; intros [= <-] [= <-] (Hn & Ho & _); [done|by split_and!|].
    rewrite (Ho eq_refl). by split_and!.
  - intros [= <-] Ha [-> ->]. by split_and!.
Qed.

(** * Theorems *)

(** a repeated request gets the first answer, and runs nothing.  When the
    owner has admitted a submission, then in any later state that still holds
    its receipt, and while the service takes requests, submitting it again
    returns exactly the acknowledgement of the admission, with the target that
    was resolved then, and leaves the service untouched; and a submission with
    the same request id but another method or fingerprint is refused as a
    collision. *)
Theorem resubmission_replays {E : Type} `{OwnerEngineLaws E} u draining e cmd ack e'
    (s : service E) receipts :
  submitted u ->
  admit_body draining (new_command u) e = (Ok (cmd, ack), e') ->
  receipts_of (eng_state (ss_engine s)) = Ok receipts ->
  get receipts (su_request_id u) =
    get (dict_of (get (eng_state e') "mutable_receipts")) (su_request_id u) ->
  ss_shutdown s || stop_requested s = false -> _lifecycle_drain_pending s = false ->
  _submit_operator_command u s = (Ok (inl ack), s) /\
  (forall v, su_request_id v = su_request_id u ->
     su_method v <> su_method u \/ su_fingerprint v <> su_fingerprint u ->
     _submit_operator_command v s =
       (Raise (Exn DevlegateError (collision_message (su_method v))), s)).
Proof.
  intros Hu Ha Hrs Hsame Hup Hdr.
  destruct (admit_records _ _ _ _ _ _ Ha) as [(e1 & Hv & e2 & Hrec & ->) Hack].
  destruct (validate_resolves _ _ _ _ Hv) as (onto & cls & -> & Hres).
  destruct (record_receipt _ _ _ Hrec) as (receipt & others & Hr & Hst).
  destruct (receipt_replays u onto cls receipt ack Hu Hr Hack Hres) as (Hval & Hm & Hf & Hacc & Hagain).
  assert (Hget : get receipts (su_request_id u) = PDict receipt).
  { rewrite Hsame. unfold get at 2, get_or. rewrite Hst. cbn [default from_option Datatypes.id dict_of].
    unfold get, get_or. by rewrite dget_dset_eq. }
  pose proof (mutable_receipt_valid _ _ _ _ Hrs Hget Hval) as Hfound.
  split.
  - unfold _submit_operator_command. run. run. rewrite Hup. cbn [negb]. run. rewrite Hdr. cbn [negb].
    run. rewrite Hfound. run. rewrite Hm, Hf, Hacc. cbn [eq_str is_true]. rewrite !String.eqb_refl.
    cbn [andb]. run. by rewrite Hagain.
  - intros v Hid Hne. unfold _submit_operator_command. run. run. rewrite Hup. cbn [negb]. run.
    rewrite Hdr. cbn [negb]. run. rewrite Hid, Hfound. run. rewrite Hm, Hf, Hacc. cbn [eq_str is_true].
    destruct (String.eqb_spec (su_method u) (su_method v)) as [E1|]; [|done].
    destruct (String.eqb_spec (su_fingerprint u) (su_fingerprint v)) as [E2|]; [|done].
    destruct Hne; congruence.
Qed.

Lemma step_cancelled {E : Type} `{OwnerEngineLaws E} once (k k' : config E) ls c cmd :
  steps once k ls k' -> heap (cf_service k) !! c = Some cmd -> oc_cancelled cmd = true ->
  exists cmd', heap (cf_service k') !! c = Some cmd' /\ oc_cancelled cmd' = true /\
    oc_admission_result cmd' = oc_admission_result cmd.
Proof.
  intros Hs. revert cmd. induction Hs as [k|k l k1 ls k2 Hs _ IH]; intros cmd Hl Hc; [by exists cmd|].
  destruct (step_heap _ _ _ _ Hs c cmd Hl) as (cmd1 & Hl1 & _ & Hcan).
  destruct (Hcan Hc) as [Hc1 Hr1]. destruct (IH cmd1 Hl1 Hc1) as (cmd2 & Hl2 & Hc2 & Hr2).
  exists cmd2. split_and!; congruence.
Qed.

(** Giving up before the admission is final.  When a client times out while
    its command has no result, that command is never admitted: in every
    continuation it has no result, so that every client still waiting on it is
    refused. *)
Theorem abandoned_is_never_admitted {E : Type} `{OwnerEngineLaws E} once (s : service E) pc ws
    (k' : config E) ls c cmd :
  heap s !! c = Some cmd -> oc_admission_result cmd = None ->
  steps once (mkConfig (abandon c s) pc ws) ls k' ->
  exists cmd', heap (cf_service k') !! c = Some cmd' /\ oc_admission_result cmd' = None /\
    exists x, _admission_result cmd' = Raise x.
Proof.
  intros Hl Hr Hs.
  assert (Hg : exists cmd1, heap (abandon c s) !! c = Some cmd1 /\ oc_cancelled cmd1 = true /\
                 oc_admission_result cmd1 = None).
  { unfold heap, abandon in *. destruct (bool_decide _); cbn; rewrite list_lookup_alter_eq, Hl; by eexists. }
  destruct Hg as (cmd1 & Hl1 & Hc1 & Hr1).
  destruct (step_cancelled _ _ _ _ _ _ Hs Hl1 Hc1) as (cmd' & Hl' & _ & Hr').
  exists cmd'. rewrite Hr1 in Hr'. split_and!; [done|done|].
  unfold _admission_result. rewrite Hr'. destruct (oc_admission_error cmd'); by eexists.
Qed.

(** ** A concrete engine *)

(** An engine that accepts every well-formed command and whose next saves fail
    where its list says so. *)
Record toy_engine : Type := mkToy { ty_state : dict; ty_failures : list bool }.

Definition toy_save (phase : string) (o : save_options) : py toy_engine unit := fun t =>
  match ty_failures t with
  | true :: fs => (raise DevlegateError "database is locked", mkToy (ty_state t) fs)
  | fs => (Ok tt, mkToy (next_state (ty_state t) phase o) (tail fs))
  end.

Definition toy_accept {A} (a : A) : py toy_engine A := mret a.

Definition toy_target (c : OperatorCommand) : py toy_engine string :=
  match oc_onto c with
  | Some (String a h) => mret (String a h)
  | _ => py_raise DevlegateError "requested reconciliation target is empty"
  end.

#[export] Instance toy_owner : OwnerEngine toy_engine := {
  eng_state := ty_state;
  eng_save := toy_save;
  active_workers := fun _ => 0%Z;
  workers_begin_drain := fun t => t;
  owned_execution := fun _ => None;
  foreground_abort_requested := fun _ => false;
  _validate_retry_admission := fun _ _ => mret tt;
  _validate_drop_admission := fun _ x => if x then mret tt else py_raise DevlegateError "";
  _validate_recover_admission := fun _ _ _ => mret tt;
  _validate_reconcile_admission := toy_target;
  _validate_reconcile_auto_admission := fun c => h ← toy_target c; mret (Some h, "update-base");
  _validate_reconcile_resume_admission := fun _ => mret tt;
  _validate_control_reconcile_admission := fun _ _ => mret tt;
  _drop_owned := fun _ _ => mret tt;
  _force_retry_transition := fun _ id receipt receipts t =>
    (Ok tt, mkToy (dset (ty_state t) "mutable_receipts" (PDict (dset receipts id (PDict receipt))))
              (ty_failures t));
  _retry_owned := fun _ _ => mret 0%Z;
  _recover_unsafe_bound_execution_workspace := fun _ _ _ => mret tt;
  _reconcile_resume_owned := fun _ => mret 0%Z;
  _reconcile_update_base_owned := fun _ _ _ => mret 0%Z;
  _reconcile_control_owned := fun _ _ => mret 0%Z;
  run_iteration := mret 0%Z;
  _has_operator_recovery_required := mret false;
  refresh_views := mret tt
}.

Lemma toy_target_keeps c e : snd (toy_target c e) = e.
Proof. unfold toy_target. by destruct (oc_onto c) as [[|a h]|]. Qed.

Lemma toy_target_text c e h e' : toy_target c e = (Ok h, e') -> h <> "" /\ oc_onto c <> None.
Proof. unfold toy_target. destruct (oc_onto c) as [[|a s]|]; try discriminate. by intros [= <- <-]. Qed.

#[export] Instance toy_owner_laws : OwnerEngineLaws toy_engine.
Proof.
  constructor; try (by intros); try (by intros ? ? ?).
  - intros phase o e e'. cbn. unfold toy_save. destruct (ty_failures e) as [|[] fs]; by intros [= <-].
  - intros phase o e x e'. cbn. unfold toy_save. destruct (ty_failures e) as [|[] fs]; by intros [= <- <-].
  - intros k x e. cbn. by destruct x.
  - intros c e. cbn. by rewrite toy_target_keeps.
  - intros c e. cbn. pose proof (toy_target_keeps c e) as Hk. cbn.
    unfold mbind, py_bind. destruct (toy_target c e) as [[h|x] e1]; cbn in *; by subst.
  - intros c e h e' Hv. by apply toy_target_text in Hv as [? _].
  - intros c e onto cls e' (h & e1 & Hv & [= <- <- <-])%py_bind_ok.
    apply toy_target_text in Hv as [Hh _]. split_and!; [done|congruence|done].
  - intros k id receipt receipts e e' [= <-]. cbn. by rewrite dget_dset_eq.
Qed.

Definition toy_config (state : dict) (failures : list bool) : config toy_engine :=
  mkConfig (mkServiceState (mkToy state failures) (mkQueue [] None false None false)
              (mkLifecycle None "running" None false true) false false
              (Some (mkShutdown false None None)))
    AtHead [].

(** ** Computed executions *)

(** The owner alone, for a number of steps. *)
Fixpoint own {E : Type} `{OwnerEngine E} (n : nat) (k : config E) : list label * config E :=
  match n with
  | 0 => ([], k)
  | S n' =>
      match owner_step false (cf_owner k) (cf_service k) with
      | Some (l, pc, s) => let '(ls, k') := own n' (mkConfig s pc (cf_waiting k)) in (l :: ls, k')
      | None => ([], k)
      end
  end.

Lemma own_steps {E : Type} `{OwnerEngine E} n (k : config E) :
  steps false k (fst (own n k)) (snd (own n k)).
Proof.
  revert k. induction n as [|n IH]; intros [s pc ws]; cbn; [constructor|].
  destruct (owner_step false pc s) as [[[l pc'] s']|] eqn:Ho; [|constructor].
  specialize (IH (mkConfig s' pc' ws)). destruct (own n (mkConfig s' pc' ws)) as [ls k'].
  econstructor; [by apply OwnerStep|exact IH].
Qed.

Lemma own_run {E : Type} `{OwnerEngine E} n (k : config E) :
  length (fst (own n k)) = n -> run_with false k n (snd (own n k)).
Proof.
  revert k. induction n as [|n IH]; intros [s pc ws]; cbn; [constructor|].
  destruct (owner_step false pc s) as [[[l pc'] s']|] eqn:Ho; [|discriminate].
  specialize (IH (mkConfig s' pc' ws)). destruct (own n (mkConfig s' pc' ws)) as [ls k'].
  cbn in *. intros [= Hn]. eapply RunOwner; [exact Ho|]. by apply IH.
Qed.

Lemma steps_app {E : Type} `{OwnerEngine E} once (k1 k2 k3 : config E) l1 l2 :
  steps once k1 l1 k2 -> steps once k2 l2 k3 -> steps once k1 (l1 ++ l2) k3.
Proof. induction 1; intros H2; [done|]. cbn. econstructor; eauto. Qed.

(** A submission that has to wait. *)
Definition enqueue {E : Type} `{OwnerEngine E} (u : submission) (k : config E) : config E :=
  match _submit_operator_command u (cf_service k) with
  | (Ok (inr (c, fresh)), s) =>
      mkConfig (if fresh then wake s else s) (cf_owner k) (cf_waiting k ++ [(u, c)])
  | (_, s) => k
  end.

Definition toy_retry : submission := submit_retry "t1" false "r1".

Definition toy_start : config toy_engine := toy_config [("phase", PStr "idle")] [].

Definition toy_waiting : config toy_engine := enqueue toy_retry toy_start.

Lemma enqueue_steps {E : Type} `{OwnerEngine E} once u (k : config E) :
  length (cf_waiting (enqueue u k)) <> length (cf_waiting k) -> steps once k [Silent] (enqueue u k).
Proof.
  unfold enqueue. destruct k as [s pc ws]. cbn [cf_service cf_owner cf_waiting].
  destruct (_submit_operator_command u s) as [[[ack|[c fresh]]|x] s'] eqn:Hs; [done| |done].
  intros _. eapply StepsMore; [|constructor]. exact (SubmitWaits once _ _ _ _ _ _ _ Hs).
Qed.

Lemma toy_enqueue : steps false toy_start [Silent] toy_waiting.
Proof. apply enqueue_steps. vm_compute. discriminate. Qed.

#[local] Opaque toy_retry _retry_request_fingerprint.

(** The trace of one admitted request: submission, three steps of the owner to
    the record, one to the answer, and the answer itself. *)
Definition toy_admitted : list label * config toy_engine := own 3 toy_waiting.

Lemma toy_admitted_steps :
  steps false toy_start ([Silent] ++ fst toy_admitted) (snd toy_admitted).
Proof. eapply steps_app; [exact toy_enqueue|exact (own_steps 3 toy_waiting)]. Qed.

Lemma toy_admitted_labels :
  fst toy_admitted =
    [Silent; Silent; AdmittedBy "r1" "retry" (_retry_request_fingerprint "t1" false)].
Proof. vm_compute. reflexivity. Qed.

Lemma toy_started : started toy_start.
Proof. by split_and!. Qed.

(** a client can be told that its request was not admitted although it was.
    There is an execution from an idle service, with one client, in which the
    owner records the admission durably while the client's wait times out: the
    locked part of the time-out finds the command claimed, can no longer prevent
    its admission, and the client still gets the answer that its request was not
    admitted. *)
Theorem timeout_hides_admission :
  exists (k k' : config toy_engine) ls u,
    started k /\ steps false k ls k' /\
    AdmittedBy (su_request_id u) (su_method u) (su_fingerprint u) ∈ ls /\
    Replied u (Raise (Exn DevlegateError timeout_message)) ∈ ls /\
    (forall ack, Replied u (Ok ack) ∉ ls) /\
    config_register k' !! su_request_id u = Some (su_method u, su_fingerprint u).
Proof.
  exists toy_start,
    (mkConfig (abandon 0 (cf_service (snd toy_admitted))) (cf_owner (snd toy_admitted)) []),
    (([Silent] ++ fst toy_admitted) ++ [Replied toy_retry (Raise (Exn DevlegateError timeout_message))]),
    toy_retry.
  split_and!.
  - exact toy_started.
  - eapply steps_app; [exact toy_admitted_steps|]. eapply StepsMore; [|constructor].
    assert (Hw : cf_waiting (snd toy_admitted) = [] ++ (toy_retry, 0) :: []) by (vm_compute; reflexivity).
    destruct (snd toy_admitted) as [s pc ws]. cbn [cf_waiting] in Hw. rewrite Hw.
    exact (WaitTimedOut false s pc [] [] toy_retry 0).
  - rewrite toy_admitted_labels. cbn. right; right; right. by left.
  - apply elem_of_app. right. by left.
  - intros ack. rewrite toy_admitted_labels. intros Hin.
    apply elem_of_app in Hin as [Hin|Hin%list_elem_of_singleton].
    + repeat (apply elem_of_cons in Hin as [Hin|Hin]; [discriminate Hin|]).
      by apply not_elem_of_nil in Hin.
    + assert (Hne : forall r r0 : res dict, Replied toy_retry r = Replied toy_retry r0 -> r = r0) by congruence.
      by apply Hne in Hin.
  - vm_compute. reflexivity.
Qed.

(** a forced stop whose barrier cannot be saved loses the barrier for good.
    When the save of the manual-retry barrier fails, the request is refused, but
    the service is draining from then on and no abort was requested; and the
    same request repeated is accepted and aborts the worker, while the state
    still has no barrier. *)
Theorem forced_stop_loses_barrier {E : Type} `{OwnerEngineLaws E} (s : service E) id id' x i e1 :
  lifecycle_intent s = None -> ss_stop_event s = Some i ->
  needs_manual_barrier "stop" true (eng_state (ss_engine s)) = true ->
  eng_save (py_str (get (eng_state (ss_engine s)) "phase"))
    (manual_barrier (eng_state (ss_engine s)) id) (workers_begin_drain (ss_engine s)) = (Raise x, e1) ->
  exists s1 s2 payload,
    request_lifecycle "stop" id true s = (Raise x, s1) /\
    _lifecycle_drain_pending s1 = true /\ ss_stop_event s1 = ss_stop_event s /\
    request_lifecycle "stop" id' true s1 = (Ok payload, s2) /\
    stop_requested s2 = true /\ eng_state (ss_engine s2) = eng_state (ss_engine s).
Proof.
  intros Hi Hse Hneed Hs.
  assert (He1 : eng_state e1 = eng_state (ss_engine s)).
  { rewrite (save_failure _ _ _ _ _ Hs). apply drain_state. }
  eexists _, _, _. split_and!.
  - unfold request_lifecycle. cbn [existsb negb orb String.eqb Ascii.eqb Bool.eqb]. run. rewrite Hi.
    rewrite py_bind_run. unfold begin_lifecycle. rewrite py_bind_run. unfold py_modify at 1.
    rewrite py_bind_run. unfold py_modify at 1. run.
    cbn [ss_engine with_lifecycle with_engine]. rewrite drain_state, Hneed, py_bind_run. unfold in_engine.
    cbn [ss_engine with_lifecycle with_engine]. rewrite Hs. reflexivity.
  - reflexivity.
  - reflexivity.
  - reflexivity.
  - unfold stop_requested, request_abort. cbn. by rewrite Hse.
  - unfold request_abort. cbn. by rewrite Hse.
Qed.

Definition toy_running : service toy_engine := cf_service (toy_config running_state [true]).

Lemma forced_stop_loses_barrier_witness :
  exists s1 s2 payload,
    request_lifecycle "stop" "q1" true toy_running =
      (Raise (Exn DevlegateError "database is locked"), s1) /\
    _lifecycle_drain_pending s1 = true /\
    ss_stop_event s1 = ss_stop_event toy_running /\
    request_lifecycle "stop" "q2" true s1 = (Ok payload, s2) /\
    stop_requested s2 = true /\ eng_state (ss_engine s2) = eng_state (ss_engine toy_running).
Proof.
  apply (forced_stop_loses_barrier toy_running "q1" "q2"
           (Exn DevlegateError "database is locked") (mkShutdown false None None)
           (mkToy running_state [])); reflexivity.
Defined.

(** * Two threads saving *)

(** [_save_state] as its thread executes it: the new state is built from the
    memory and checked, the store is replaced, the memory is assigned.  The
    owner's saves and the save of [request_lifecycle], on the thread of the IPC
    connection, share no lock. *)
Inductive save_point : Type :=
  | SaveStart (phase : string) (o : save_options)
  | SaveChecked (state : dict)
  | SaveStored (state : dict)
  | SaveDone
  | SaveFailed (e : exn).

Definition save_step {S : Type} `{RuntimeStore S} (f : db_failure) (p : save_point) (d : durable (S := S))
    : save_point * durable (S := S) :=
  match p with
  | SaveStart phase o =>
      let state := next_state (du_state d) phase o in
      match _validate_state_invariant state with
      | Ok _ => (SaveChecked state, d)
      | Raise e => (SaveFailed e, d)
      end
  | SaveChecked state =>
      match store_replace f state (du_store d) with
      | (Ok _, s') => (SaveStored state, mkDurable (du_state d) s')
      | (Raise e, s') =>
          (match as_devlegate (A := unit) (Raise e) with Raise e' => SaveFailed e' | Ok _ => SaveDone end,
           mkDurable (du_state d) s')
      end
  | SaveStored state => (SaveDone, mkDurable state (du_store d))
  | SaveDone | SaveFailed _ => (p, d)
  end.

(** The steps of one thread without the other are the save of the engine. *)
Lemma save_steps_alone {S : Type} `{RuntimeStore S} f phase o (d : durable (S := S)) d' :
  _save_state f phase o d = (Ok tt, d') ->
  let '(p1, d1) := save_step f (SaveStart phase o) d in
  let '(p2, d2) := save_step f p1 d1 in
  save_step f p2 d2 = (SaveDone, d').
Proof.
  unfold _save_state, save_step. destruct (_validate_state_invariant _); [|done].
  destruct (store_replace f _ (du_store d)) as [[u|e] s']; [by intros [= <-]|].
  unfold as_devlegate, catch. by destruct (is_class _ _).
Qed.

(** An interleaving of two saves: whose step is next. *)
Fixpoint interleave {S : Type} `{RuntimeStore S} (turns : list bool) (p q : save_point)
    (d : durable (S := S)) : save_point * save_point * durable (S := S) :=
  match turns with
  | [] => (p, q, d)
  | true :: ts => let '(p', d') := save_step None p d in interleave ts p' q d'
  | false :: ts => let '(q', d') := save_step None q d in interleave ts p q' d'
  end.

(** The owner's save when the worker has ended. *)
Definition worker_ended : save_options :=
  mkSave false false false false
    [("execution_stage", PStr "post-worker"); ("worker_identity", PNone)].

Definition running_engine : durable (S := SQLiteRuntimeStore) :=
  snd (_save_state (S := SQLiteRuntimeStore) None "agent_running" (mkSave false false false false [])
         (mkDurable running_state (mkStore "state.sqlite3" None))).

(** a forced stop can lose its barrier, or take back the owner's progress.
    Run one after the other, the owner's save at the end of a worker and the
    barrier's save of a forced stop leave both in the state.  But with no lock
    between the two threads there are interleavings in which both saves return
    normally and the state, in memory and in the store, lacks the barrier; and
    others in which it names again the worker that has ended. *)
Theorem concurrent_saves_lose_update :
  let owner := SaveStart "agent_running" worker_ended in
  let stop := SaveStart "agent_running" (manual_barrier running_state "q1") in
  let run turns := interleave turns owner stop running_engine in
  let has_barrier d := is_dict (get (du_state d) "manual_retry_required") in
  let ended d := eq_str (get (du_state d) "execution_stage") "post-worker" in
  let agrees (d : durable (S := SQLiteRuntimeStore)) :=
    _load_state "state.sqlite3" None (du_store d) = Ok (dict_of (canon (PDict (du_state d)))) in
  (exists d, run [true; true; true; false; false; false] = (SaveDone, SaveDone, d) /\
     agrees d /\ has_barrier d = true /\ ended d = true) /\
  (exists d, run [true; false; false; false; true; true] = (SaveDone, SaveDone, d) /\
     agrees d /\ has_barrier d = false /\ ended d = true) /\
  (exists d, run [false; true; true; true; false; false] = (SaveDone, SaveDone, d) /\
     agrees d /\ has_barrier d = true /\ ended d = false).
Proof.
  cbv zeta. split_and!; (eexists; split; [vm_compute; reflexivity|]); (split; [vm_compute|]);
    by split.
Qed.

(** * The protocol theorems at a concrete execution *)

Lemma service_refines_register_witness :
  started toy_start /\
  spec_steps ∅ [Silent; Silent; Silent; AdmittedBy "r1" "retry" (_retry_request_fingerprint "t1" false)]
    (config_register (snd toy_admitted)).
Proof.
  split; [exact toy_started|].
  change [Silent; Silent; Silent; AdmittedBy "r1" "retry" (_retry_request_fingerprint "t1" false)]
    with ([Silent] ++ [Silent; Silent; AdmittedBy "r1" "retry" (_retry_request_fingerprint "t1" false)]).
  rewrite <- toy_admitted_labels.
  exact (service_refines_register false toy_start (snd toy_admitted) _ toy_started toy_admitted_steps).
Defined.

Lemma admitted_at_most_once_witness :
  started toy_start /\ NoDup (accepted_ids ([Silent] ++ fst toy_admitted)) /\
  accepted_ids ([Silent] ++ fst toy_admitted) = ["r1"] /\ config_register toy_start !! "r1" = None.
Proof.
  destruct (admitted_at_most_once false toy_start (snd toy_admitted) _ toy_started toy_admitted_steps)
    as (Hnd & Hnew & _).
  split_and!; [exact toy_started|exact Hnd|vm_compute; reflexivity|].
  apply Hnew. apply (bool_decide_unpack _). vm_compute. exact I.
Defined.

Lemma owner_work_exclusive_witness :
  started toy_start /\ cf_owner (snd toy_admitted) = Answering 0 (Ok tt) /\
  q_operator_active_command (ss_queue (cf_service (snd toy_admitted))) = Some 0.
Proof.
  assert (Hp : cf_owner (snd toy_admitted) = Answering 0 (Ok tt)) by (vm_compute; reflexivity).
  split_and!; [exact toy_started|exact Hp|].
  destruct (owner_work_exclusive false toy_start (snd toy_admitted) _ toy_started toy_admitted_steps)
    as (_ & _ & Hactive & _).
  exact (proj1 (Hactive 0 (or_intror (or_introl (ex_intro _ (Ok tt) Hp))))).
Defined.

(** The waiting command meets a drain: the owner's eight steps refuse it. *)
Definition toy_draining : config toy_engine :=
  mkConfig (snd (request_lifecycle "restart" "q1" false (cf_service toy_waiting))) Claiming
    (cf_waiting toy_waiting).

Lemma drain_admits_nothing_witness :
  _lifecycle_drain_pending (cf_service toy_draining) = true /\
  q_operator_command (ss_queue (cf_service toy_draining)) = Some 0 /\
  accepted_ids (fst (own 2 toy_draining)) = [] /\ length (fst (own 2 toy_draining)) = 2.
Proof.
  split_and!; [reflexivity|vm_compute; reflexivity| |vm_compute; reflexivity].
  exact (proj1 (drain_admits_nothing false toy_draining (snd (own 2 toy_draining)) _ eq_refl
                  (own_steps 2 toy_draining))).
Defined.

Lemma command_is_answered_witness :
  started toy_start /\ waits_for_owner toy_waiting 0 /\
  (answered (snd (own 7 toy_waiting)) 0 \/ stopped (snd (own 7 toy_waiting))).
Proof.
  assert (Hw : waits_for_owner toy_waiting 0).
  { split; [vm_compute; by eexists|]. left. vm_compute. reflexivity. }
  split_and!; [exact toy_started|exact Hw|].
  apply (proj2 (command_is_answered false toy_start toy_waiting (snd (own 7 toy_waiting)) [Silent] 0 7
                  toy_started toy_enqueue) Hw); [|lia].
  apply own_run. vm_compute. reflexivity.
Defined.

Lemma abandoned_is_never_admitted_witness :
  exists cmd', heap (cf_service (snd (own 2 (mkConfig (abandon 0 (cf_service (snd (own 2 toy_waiting))))
                                            (Taken 0) [])))) !! 0 = Some cmd' /\
    oc_admission_result cmd' = None /\ exists x, _admission_result cmd' = Raise x.
Proof.
  refine (abandoned_is_never_admitted false (cf_service (snd (own 2 toy_waiting))) (Taken 0) [] _ _ 0
            (new_command toy_retry) _ _ (own_steps 2 _)); vm_compute; reflexivity.
Defined.

Definition toy_admission : res (OperatorCommand * dict) * toy_engine :=
  admit_body false (new_command toy_retry) (mkToy [("phase", PStr "idle")] []).

Definition toy_later : service toy_engine :=
  mkServiceState (snd toy_admission) (mkQueue [] None false None true)
    (mkLifecycle None "running" None false true) false false None.

#[local] Transparent toy_retry.

Lemma resubmission_replays_witness :
  _submit_operator_command toy_retry toy_later = (Ok (inl (accepted_for "t1")), toy_later).
Proof.
  destruct toy_admission as [[[cmd ack]|x] e] eqn:Ha; [|vm_compute in Ha; discriminate].
  assert (Hack : ack = accepted_for "t1").
  { assert (Hs : option_map snd (match fst toy_admission with Ok p => Some p | Raise _ => None end) =
                   Some (accepted_for "t1")) by (vm_compute; reflexivity).
    rewrite Ha in Hs. by injection Hs. }
  assert (He : toy_later = mkServiceState e (mkQueue [] None false None true)
                 (mkLifecycle None "running" None false true) false false None).
  { unfold toy_later. by rewrite Ha. }
  rewrite <- Hack.
  refine (proj1 (resubmission_replays toy_retry false (mkToy [("phase", PStr "idle")] []) cmd ack e toy_later
    (dict_of (get (eng_state e) "mutable_receipts")) _ Ha _ _ _ _)).
  - by apply SubmittedRetry.
  - rewrite He. assert (Hd : receipts_of (eng_state (snd toy_admission)) =
      Ok (dict_of (get (eng_state (snd toy_admission)) "mutable_receipts"))) by (vm_compute; reflexivity).
    by rewrite Ha in Hd.
  - reflexivity.
  - by rewrite He.
  - by rewrite He.
Defined.
