(* ===== verification/IpcProtocol.v ===== *)
(** The wire protocol of the service, [src/devlegate/ipc_protocol.py]: frames with
    a length prefix over byte streams that arrive and are accepted in pieces, and
    the JSON messages inside them.  Bytes are strings; text is their UTF-8 reading. *)

From S2P Require Export Json.

Definition PROTOCOL_VERSION : Z := 1.
Definition MAX_PAYLOAD_BYTES : Z := 1048576.

(** [raise IPCProtocolError(code, message, fatal=fatal)] *)
Definition protocol_error {A} (code message : string) (fatal : bool) : res A :=
  raise (IPCProtocolError code fatal) message.

Definition is_protocol_error (e : exn) : bool :=
  match exn_cls e with IPCProtocolError _ _ => true | _ => false end.

(** * Messages *)

Record IPCRequest : Type := mkRequest {
  rq_version : Z;
  rq_request_id : string;
  rq_method : string;
  rq_payload : dict
}.

Record IPCResponse : Type := mkResponse {
  rs_version : Z;
  rs_request_id : string;
  rs_ok : bool;
  rs_result : option dict;
  rs_error : option dict
}.

Definition response_dict (r : IPCResponse) : dict :=
  [("version", PInt (rs_version r)); ("id", PStr (rs_request_id r)); ("ok", PBool (rs_ok r))] ++
  (if rs_ok r then [("result", match rs_result r with Some d => PDict d | None => PNone end)]
   else [("error", match rs_error r with Some d => PDict d | None => PNone end)]).

(** * JSON *)

Definition _decode_json (payload : string) : res pyval :=
  if negb (valid_utf8 payload)
  then protocol_error "malformed_protocol" "payload is not valid UTF-8" false
  else match loads payload with
       | Some v => Ok v
       | None => protocol_error "malformed_protocol" "payload is not valid JSON" false
       end.

(** The text of a surrogate cannot be encoded. *)
Definition _encode_json (value : dict) : res string :=
  let text := dumps utf8_style (PDict value) in
  if valid_utf8 text then Ok text
  else protocol_error "invalid_request" "message is not JSON encodable" false.

Definition _require_text (value label : string) : res unit :=
  if (value =? "")%string
  then protocol_error "invalid_request" (label +:+ " must be non-empty text") false
  else Ok tt.

(** ** Requests *)

Definition request_fields : list string := ["version"; "id"; "method"; "payload"].

Definition invalid_request {A} (message : string) : res A := protocol_error "invalid_request" message false.
Definition malformed {A} (message : string) : res A := protocol_error "malformed_protocol" message false.

Definition parse_request (payload : string) : res IPCRequest :=
  value ← _decode_json payload;
  match value with
  | PDict value =>
      if negb (keys_eq value request_fields) then invalid_request "request fields are invalid" else
      match get value "version" with
      | PInt version =>
          if negb (version =? PROTOCOL_VERSION)%Z
          then protocol_error "unsupported_version" "request version is unsupported" false
          else if negb (nonempty_str (get value "id"))
          then invalid_request "request id must be non-empty text"
          else if negb (nonempty_str (get value "method"))
          then invalid_request "request method must be non-empty text"
          else match get value "payload" with
               | PDict request_payload =>
                   Ok (mkRequest version (str_of (get value "id")) (str_of (get value "method"))
                         request_payload)
               | _ => invalid_request "request payload must be an object"
               end
      | _ => invalid_request "request version must be an integer"
      end
  | _ => invalid_request "request must be a JSON object"
  end.

Definition encode_request (request_id method : string) (payload : dict) : res string :=
  _ ← _require_text request_id "request id";
  _ ← _require_text method "request method";
  _encode_json [("version", PInt PROTOCOL_VERSION); ("id", PStr request_id); ("method", PStr method);
                ("payload", PDict payload)].

(** ** Responses *)

Definition response_common : list string := ["version"; "id"; "ok"].

Definition parse_success (version : Z) (request_id : string) (value : dict) : res IPCResponse :=
  if negb (keys_eq value (response_common ++ ["result"])) then malformed "successful response is invalid"
  else match get value "result" with
       | PDict result => Ok (mkResponse version request_id true (Some result) None)
       | _ => malformed "successful response is invalid"
       end.

Definition parse_failure (version : Z) (request_id : string) (value : dict) : res IPCResponse :=
  if negb (keys_eq value (response_common ++ ["error"])) then malformed "error response is invalid"
  else match get value "error" with
       | PDict error =>
           if negb (keys_eq error ["code"; "message"] &&
                    forallb (fun key => nonempty_str (get error key)) ["code"; "message"])
           then malformed "error details are invalid"
           else Ok (mkResponse version request_id false None (Some error))
       | _ => malformed "error response is invalid"
       end.

Definition parse_response (payload : string) : res IPCResponse :=
  value ← _decode_json payload;
  match value with
  | PDict value =>
      if negb (has_keys value response_common) then malformed "response fields are invalid" else
      match get value "version" with
      | PInt version =>
          if negb (version =? PROTOCOL_VERSION)%Z
          then protocol_error "unsupported_version" "response version is unsupported" false
          else match get value "id", get value "ok" with
               | PStr request_id, PBool true => parse_success version request_id value
               | PStr request_id, PBool false => parse_failure version request_id value
               | PStr _, _ => malformed "response ok must be boolean"
               | _, _ => malformed "response id must be text"
               end
      | _ => malformed "response version must be an integer"
      end
  | _ => malformed "response must be a JSON object"
  end.

Definition encode_success_response (request_id : string) (result : dict) : res string :=
  _ ← _require_text request_id "response id";
  _encode_json (response_dict (mkResponse PROTOCOL_VERSION request_id true (Some result) None)).

Definition encode_error_response (request_id code message : string) : res string :=
  _ ← _require_text code "error code";
  _ ← _require_text message "error message";
  _encode_json (response_dict (mkResponse PROTOCOL_VERSION request_id false None
    (Some [("code", PStr code); ("message", PStr message)]))).

(** * Frames *)

(** [struct.Struct(">I")] *)
Definition pack_length (n : N) : string :=
  bytes_of [(n / 16777216) mod 256; (n / 65536) mod 256; (n / 256) mod 256; n mod 256]%N.

Definition unpack_length (s : string) : N :=
  foldl (fun n c => n * 256 + byte_val c)%N 0%N (String.list_ascii_of_string s).

Definition byte_length (s : string) : Z := Z.of_nat (String.length s).

Definition encode_frame (payload : string) : res string :=
  if (MAX_PAYLOAD_BYTES <? byte_length payload)%Z
  then protocol_error "oversized_frame" "payload exceeds the maximum size" false
  else Ok (pack_length (N.of_nat (String.length payload)) +:+ payload).

(** ** Reading: what arrives on a stream, piece by piece; nothing more is the end
    of the stream *)

Inductive arrival : Type :=
  | Arrives (bytes : string)
  | Breaks (e : exn).

Definition take_bytes (n : nat) (s : string) : string := String.substring 0 n s.
Definition drop_bytes (n : nat) (s : string) : string := String.substring n (String.length s - n) s.

(** The loop of [_read_exact]: [got] is what the earlier reads returned,
    [remaining] what is still missing.  A read returns the next piece, or as much
    of it as was asked for; an empty one is the end of the stream. *)
Fixpoint read_remaining (allow_clean_eof : bool) (got : string) (remaining : nat)
    (arrivals : list arrival) : res (option string) * list arrival :=
  let at_end :=
    if allow_clean_eof && (got =? "")%string then Ok None
    else protocol_error "malformed_protocol" "frame is truncated" true in
  match remaining with
  | O => (Ok (Some got), arrivals)
  | S _ =>
      match arrivals with
      | [] => (at_end, [])
      | Breaks e :: rest => (Raise e, rest)
      | Arrives chunk :: rest =>
          if (chunk =? "")%string then (at_end, rest)
          else if (String.length chunk <=? remaining)%nat
          then read_remaining allow_clean_eof (got +:+ chunk) (remaining - String.length chunk) rest
          else (Ok (Some (got +:+ take_bytes remaining chunk)), Arrives (drop_bytes remaining chunk) :: rest)
      end
  end.

Definition _read_exact (size : nat) (allow_clean_eof : bool) : py (list arrival) (option string) :=
  read_remaining allow_clean_eof "" size.

Definition receive_frame : py (list arrival) (option string) :=
  header ← _read_exact 4 true;
  match header with
  | None => mret None
  | Some header =>
      let length := unpack_length header in
      if (MAX_PAYLOAD_BYTES <? Z.of_N length)%Z
      then py_lift (protocol_error "oversized_frame" "advertised payload exceeds the maximum size" true)
      else _read_exact (N.to_nat length) false
  end.

(** ** Writing: how many bytes the stream takes of each write; without further
    notice it takes everything *)

Inductive acceptance : Type :=
  | Takes (n : nat)
  | Fails (e : exn).

Record sink : Type := mkSink { sk_sent : string; sk_answers : list acceptance }.

(** The loop of [send_frame]: [data] is [frame[offset:]]. *)
Fixpoint write_all (data : string) (sent : string) (answers : list acceptance) : res unit * sink :=
  if (data =? "")%string then (Ok tt, mkSink sent answers) else
  match answers with
  | [] => (Ok tt, mkSink (sent +:+ data) [])
  | Fails e :: rest => (Raise e, mkSink sent rest)
  | Takes n :: rest =>
      let written := Nat.min n (String.length data) in
      if (written =? 0)%nat
      then (protocol_error "malformed_protocol" "stream write made no progress" false, mkSink sent rest)
      else write_all (drop_bytes written data) (sent +:+ take_bytes written data) rest
  end.

(** [stream.flush()] *)
Definition flush : py sink unit := fun s =>
  match sk_answers s with
  | Fails e :: rest => (Raise e, mkSink (sk_sent s) rest)
  | _ => (Ok tt, s)
  end.

Definition send_frame (payload : string) : py sink unit :=
  frame ← py_lift (encode_frame payload);
  _ ← (fun s => write_all frame (sk_sent s) (sk_answers s));
  flush.

(** * Bytes *)

Lemma take_drop_bytes n s : (n <= String.length s)%nat -> take_bytes n s +:+ drop_bytes n s = s.
Proof.
  unfold take_bytes, drop_bytes. revert n. induction s as [|c s IH]; intros n Hn; cbn in Hn.
  - by destruct n; [|lia].
  - destruct n as [|n].
    + change (String c (String.substring 0 (String.length s) s) = String c s). by rewrite substring_full.
    + cbn [String.substring String.length Nat.sub]. rewrite str_app_cons, IH by lia. done.
Qed.

Lemma length_take_bytes n s : (n <= String.length s)%nat -> String.length (take_bytes n s) = n.
Proof.
  unfold take_bytes. revert n. induction s as [|c s IH]; intros n Hn; cbn in Hn.
  - by destruct n; [|lia].
  - destruct n as [|n]; [done|]. cbn. rewrite IH; lia.
Qed.

Lemma length_drop_bytes n s : (n <= String.length s)%nat -> String.length (drop_bytes n s) = String.length s - n.
Proof.
  intros Hn. pose proof (f_equal String.length (take_drop_bytes n s Hn)) as H.
  rewrite str_app_length, length_take_bytes in H by done. lia.
Qed.

Lemma take_bytes_app n s t : (n <= String.length s)%nat -> take_bytes n (s +:+ t) = take_bytes n s.
Proof.
  unfold take_bytes. revert n. induction s as [|c s IH]; intros n Hn; cbn in Hn.
  - destruct n; [by destruct t|lia].
  - rewrite str_app_cons. destruct n as [|n]; [done|]. cbn. rewrite IH by lia. done.
Qed.

Lemma take_bytes_past n s t : (String.length s <= n)%nat ->
  take_bytes n (s +:+ t) = s +:+ take_bytes (n - String.length s) t.
Proof.
  unfold take_bytes. revert n. induction s as [|c s IH]; intros n Hn; cbn in *.
  - by rewrite Nat.sub_0_r.
  - rewrite !str_app_cons. destruct n as [|n]; [lia|]. cbn. by rewrite IH by lia.
Qed.

Lemma drop_bytes_app n s t : (n <= String.length s)%nat ->
  drop_bytes n (s +:+ t) = drop_bytes n s +:+ t.
Proof.
  intros Hn. apply (str_app_inj_l (take_bytes n s)).
  rewrite <- str_app_assoc, take_drop_bytes, <- (take_bytes_app n s t) by done.
  apply take_drop_bytes. rewrite str_app_length. lia.
Qed.

Lemma drop_bytes_past n s t : (String.length s <= n <= String.length s + String.length t)%nat ->
  drop_bytes n (s +:+ t) = drop_bytes (n - String.length s) t.
Proof.
  intros Hn. apply (str_app_inj_l (s +:+ take_bytes (n - String.length s) t)).
  rewrite <- take_bytes_past at 1 by lia. rewrite take_drop_bytes by (rewrite ?str_app_length; lia).
  by rewrite str_app_assoc, take_drop_bytes by lia.
Qed.

Lemma take_bytes_all s t : take_bytes (String.length s) (s +:+ t) = s.
Proof. rewrite take_bytes_app by done. apply substring_full. Qed.

Lemma drop_bytes_all s t : drop_bytes (String.length s) (s +:+ t) = t.
Proof.
  apply (str_app_inj_l (take_bytes (String.length s) (s +:+ t))).
  rewrite take_drop_bytes by (rewrite str_app_length; lia). by rewrite take_bytes_all.
Qed.

(** * Reading does not depend on how the bytes arrive *)

(** A fault-free stream: its pieces are not empty. *)
Definition pieces (chunks : list string) : list arrival := map Arrives chunks.
Definition nonempty (chunks : list string) : Prop := Forall (fun chunk => chunk <> "") chunks.

(** Nothing is left of a stream, or pieces of the given bytes. *)
Definition leaves (bytes : string) (arrivals : list arrival) : Prop :=
  exists chunks, arrivals = pieces chunks /\ nonempty chunks /\ of_chars chunks = bytes.

Lemma length_pos s : s <> "" -> (0 < String.length s)%nat.
Proof. destruct s; [done|cbn; lia]. Qed.

Lemma read_piece clean got size c arrivals :
  c <> "" -> (0 < size)%nat ->
  read_remaining clean got size (Arrives c :: arrivals) =
  if (String.length c <=? size)%nat
  then read_remaining clean (got +:+ c) (size - String.length c) arrivals
  else (Ok (Some (got +:+ take_bytes size c)), Arrives (drop_bytes size c) :: arrivals).
Proof.
  intros Hc Hs. destruct size as [|n]; [lia|]. cbn [read_remaining].
  by rewrite (proj2 (String.eqb_neq _ _) Hc).
Qed.

Lemma read_enough clean got size chunks :
  nonempty chunks -> (size <= String.length (of_chars chunks))%nat ->
  exists rest, read_remaining clean got size (pieces chunks) =
      (Ok (Some (got +:+ take_bytes size (of_chars chunks))), rest) /\
    leaves (drop_bytes size (of_chars chunks)) rest.
Proof.
  intros Hne. revert got size. induction Hne as [|c chunks Hc Hne IH]; intros got size Hs.
  - cbn in Hs. assert (size = 0) as -> by lia. cbn. exists []. rewrite str_app_nil_r.
    split; [done|]. exists []. split_and!; [done|constructor|done].
  - rewrite of_chars_cons in *. rewrite str_app_length in Hs. destruct (Nat.eq_dec size 0) as [->|Hz].
    + exists (pieces (c :: chunks)). split.
      { cbn. unfold take_bytes. destruct (c +:+ _); cbn; by rewrite str_app_nil_r. }
      exists (c :: chunks). split_and!; [done|by constructor|].
      rewrite of_chars_cons. unfold drop_bytes. by rewrite Nat.sub_0_r, substring_full.
    + cbn [pieces map]. rewrite read_piece by (done || lia). pose proof (length_pos c Hc). destruct (Nat.leb_spec (String.length c) size) as [Hl|Hl].
      * destruct (IH (got +:+ c) (size - String.length c)) as (rest & Hr & Hleft); [lia|].
        exists rest. split.
        { unfold pieces in Hr. rewrite Hr. by rewrite take_bytes_past, str_app_assoc by lia. }
        by rewrite drop_bytes_past by lia.
      * exists (Arrives (drop_bytes size c) :: pieces chunks). split.
        { by rewrite take_bytes_app by lia. }
        exists (drop_bytes size c :: chunks). split_and!; [done| |].
        { constructor; [|done]. intros He. pose proof (length_drop_bytes size c ltac:(lia)) as Hd.
          rewrite He in Hd. cbn in Hd. lia. }
        by rewrite of_chars_cons, drop_bytes_app by lia.
Qed.

Lemma read_short clean got size chunks :
  nonempty chunks -> (String.length (of_chars chunks) < size)%nat ->
  read_remaining clean got size (pieces chunks) =
    (if clean && (got +:+ of_chars chunks =? "")%string then Ok None
     else protocol_error "malformed_protocol" "frame is truncated" true, []).
Proof.
  intros Hne. revert got size. induction Hne as [|c chunks Hc Hne IH]; intros got size Hs.
  - cbn in Hs. destruct size as [|n]; [lia|]. cbn. by rewrite str_app_nil_r.
  - rewrite of_chars_cons in *. rewrite str_app_length in Hs. pose proof (length_pos c Hc).
    cbn [pieces map]. rewrite read_piece by (done || lia).
    destruct (Nat.leb_spec (String.length c) size) as [Hl|Hl]; [|lia].
    unfold pieces in IH. rewrite IH by lia. by rewrite str_app_assoc.
Qed.

(** The first frame of a complete byte string. *)
Definition decode_frame (bytes : string) : res (option (string * string)) :=
  if (bytes =? "")%string then Ok None
  else if (String.length bytes <? 4)%nat
  then protocol_error "malformed_protocol" "frame is truncated" true
  else
  let length := unpack_length (take_bytes 4 bytes) in
  let body := drop_bytes 4 bytes in
  if (MAX_PAYLOAD_BYTES <? Z.of_N length)%Z
  then protocol_error "oversized_frame" "advertised payload exceeds the maximum size" true
  else if (String.length body <? N.to_nat length)%nat
  then protocol_error "malformed_protocol" "frame is truncated" true
  else Ok (Some (take_bytes (N.to_nat length) body, drop_bytes (N.to_nat length) body)).

(** Reading a frame does not depend on how its bytes are cut into pieces: it
    returns the payload of the first frame of all the bytes and leaves the bytes
    after it; a stream that ends before a header is a clean end, one that ends
    inside a frame is refused as truncated, and a longer payload than the bound is
    refused from its header alone. *)
Lemma receive_decodes chunks :
  nonempty chunks ->
  let '(r, rest) := receive_frame (pieces chunks) in
  r = match decode_frame (of_chars chunks) with
      | Ok (Some (payload, _)) => Ok (Some payload)
      | Ok None => Ok None
      | Raise e => Raise e
      end /\
  forall payload bytes, decode_frame (of_chars chunks) = Ok (Some (payload, bytes)) -> leaves bytes rest.
Proof.
  intros Hne. unfold receive_frame, _read_exact, decode_frame. rewrite py_bind_run.
  destruct (Nat.ltb_spec (String.length (of_chars chunks)) 4) as [Hs|Hs].
  - rewrite read_short by done. cbn [andb]. rewrite str_app_nil_l.
    destruct (of_chars chunks =? "")%string; done.
  - destruct (read_enough true "" 4 chunks Hne Hs) as (rest & -> & chunks' & -> & Hne' & Hb).
    rewrite str_app_nil_l. destruct (String.eqb_spec (of_chars chunks) "") as [He|_].
    { rewrite He in Hs. cbn in Hs. lia. }
    cbv zeta. rewrite <- Hb. destruct (_ <? _)%Z; [done|].
    destruct (Nat.ltb_spec (String.length (of_chars chunks')) (N.to_nat (unpack_length
      (take_bytes 4 (of_chars chunks))))) as [Ht|Ht].
    + by rewrite read_short by done.
    + destruct (read_enough false "" _ chunks' Hne' Ht) as (rest & -> & Hl).
      rewrite str_app_nil_l. split; [done|]. by intros payload bytes [= <- <-].
Qed.

(** ** How much is read *)

(** The bytes that have arrived and were not read. *)
Fixpoint waiting (arrivals : list arrival) : nat :=
  match arrivals with
  | [] => 0
  | Arrives chunk :: rest => String.length chunk + waiting rest
  | Breaks _ :: rest => waiting rest
  end.

Lemma read_bounded clean got size arrivals :
  let '(r, rest) := read_remaining clean got size arrivals in
  (waiting rest <= waiting arrivals <= waiting rest + size)%nat /\
  (forall bytes, r = Ok (Some bytes) ->
     String.length bytes = String.length got + size /\ waiting arrivals = waiting rest + size).
Proof.
  revert got size. induction arrivals as [|[chunk|e] arrivals IH]; intros got size;
    destruct size as [|n]; cbn [read_remaining]; try (cbn; split; [lia|intros ? [= <-]; lia]);
    try (by split; [cbn; lia|destruct clean, (got =? "")%string]).
  destruct (String.eqb_spec chunk "") as [->|Hc].
  { split; [cbn; lia|]. by destruct clean, (got =? "")%string. }
  destruct (Nat.leb_spec (String.length chunk) (S n)) as [Hl|Hl].
  - specialize (IH (got +:+ chunk) (S n - String.length chunk)).
    destruct (read_remaining _ _ _ _) as [r rest]. destruct IH as [Hw Hr].
    cbn [waiting]. split; [lia|]. intros bytes Hb. destruct (Hr bytes Hb) as [-> ?].
    rewrite str_app_length. lia.
  - cbn [waiting]. rewrite length_drop_bytes by lia. split; [lia|]. intros bytes [= <-].
    rewrite str_app_length, length_take_bytes by lia. lia.
Qed.

(** whatever arrives, and however the stream breaks, reading one frame takes at
    most a header and 1,048,576 bytes; when the header announces more, nothing is
    read after it; and a payload that is returned is within the bound. *)
Theorem receive_frame_is_bounded arrivals :
  let '(r, rest) := receive_frame arrivals in
  (waiting rest <= waiting arrivals)%nat /\
  (Z.of_nat (waiting arrivals) <= Z.of_nat (waiting rest) + 4 + MAX_PAYLOAD_BYTES)%Z /\
  (forall header after, _read_exact 4 true arrivals = (Ok (Some header), after) ->
     (MAX_PAYLOAD_BYTES < Z.of_N (unpack_length header))%Z ->
     rest = after /\ (waiting arrivals <= waiting after + 4)%nat) /\
  (forall payload, r = Ok (Some payload) -> (byte_length payload <= MAX_PAYLOAD_BYTES)%Z).
Proof.
  unfold receive_frame. rewrite py_bind_run. pose proof (read_bounded true "" 4 arrivals) as H1.
  unfold _read_exact in *.
  destruct (read_remaining true "" 4 arrivals) as [[[header|]|e] after]; destruct H1 as [H1 _];
    try (cbn; unfold MAX_PAYLOAD_BYTES; split_and!; [lia|lia|done|done]).
  cbv zeta. destruct (Z.ltb_spec MAX_PAYLOAD_BYTES (Z.of_N (unpack_length header))) as [Hl|Hl].
  - cbn. unfold MAX_PAYLOAD_BYTES. split_and!; [lia|lia| |done]. intros ? ? [= <- <-] _. split; [done|lia].
  - pose proof (read_bounded false "" (N.to_nat (unpack_length header)) after) as H2.
    destruct (read_remaining false "" _ after) as [r rest]. destruct H2 as [H2 Hr].
    split_and!; [lia|lia| |].
    + intros ? ? [= <- <-] ?. lia.
    + intros payload ->. unfold byte_length. destruct (Hr payload eq_refl) as [-> _]. cbn [String.length]. lia.
Qed.

(** * Frames survive the streams *)

(** A stream that takes at least a byte of each write. *)
Definition productive (a : acceptance) : Prop :=
  match a with Takes n => (0 < n)%nat | Fails _ => False end.

Lemma write_productive data sent answers :
  Forall productive answers ->
  exists answers', write_all data sent answers = (Ok tt, mkSink (sent +:+ data) answers') /\
    Forall productive answers'.
Proof.
  intros Ha. revert data sent. induction Ha as [|a answers Hp Ha IH]; intros data sent.
  - exists []. cbn. destruct (String.eqb_spec data "") as [->|_]; [by rewrite str_app_nil_r|done].
  - destruct (String.eqb_spec data "") as [->|Hd].
    { exists (a :: answers). cbn. rewrite str_app_nil_r. by repeat constructor. }
    destruct a as [n|]; [|done]. cbn [write_all productive] in *.
    rewrite (proj2 (String.eqb_neq _ _) Hd). pose proof (length_pos data Hd).
    destruct (Nat.eqb_spec (Nat.min n (String.length data)) 0); [lia|].
    destruct (IH (drop_bytes (Nat.min n (String.length data)) data)
                (sent +:+ take_bytes (Nat.min n (String.length data)) data)) as (rest & -> & Hr).
    exists rest. by rewrite str_app_assoc, take_drop_bytes by lia.
Qed.

Definition frame_of (payload : string) : string :=
  pack_length (N.of_nat (String.length payload)) +:+ payload.

Definition bounded (payload : string) : Prop := (byte_length payload <= MAX_PAYLOAD_BYTES)%Z.

Lemma send_productive payload s :
  bounded payload -> Forall productive (sk_answers s) ->
  exists answers, send_frame payload s = (Ok tt, mkSink (sk_sent s +:+ frame_of payload) answers) /\
    Forall productive answers.
Proof.
  intros Hb Ha. unfold send_frame, encode_frame, bounded in *.
  destruct (Z.ltb_spec MAX_PAYLOAD_BYTES (byte_length payload)) as [|_]; [lia|].
  rewrite !py_bind_run, py_lift_run. rewrite py_bind_run.
  destruct (write_productive (frame_of payload) (sk_sent s) (sk_answers s) Ha) as (rest & Hw & Hr).
  unfold frame_of in *. rewrite Hw. exists rest. unfold flush. cbn.
  destruct Hr as [|a rest Hp Hr]; [done|]. destruct a; [|done]. by repeat constructor.
Qed.

Lemma unpack_pack n : (n < 4294967296)%N -> unpack_length (pack_length n) = n.
Proof.
  intros Hn. unfold unpack_length, pack_length, bytes_of.
  rewrite String.list_ascii_of_string_of_list_ascii. cbn [map foldl].
  rewrite !byte_val_ascii by div_lia. div_lia.
Qed.

Lemma decode_frame_of payload rest :
  bounded payload -> decode_frame (frame_of payload +:+ rest) = Ok (Some (payload, rest)).
Proof.
  unfold bounded, byte_length, MAX_PAYLOAD_BYTES. intros Hb.
  assert (H4 : forall n, String.length (pack_length n) = 4) by done.
  set (n := N.of_nat (String.length payload)).
  assert (Hbytes : frame_of payload +:+ rest = pack_length n +:+ (payload +:+ rest)).
  { unfold frame_of. by rewrite str_app_assoc. }
  rewrite Hbytes. pose proof (take_bytes_all (pack_length n) (payload +:+ rest)) as Ht.
  pose proof (drop_bytes_all (pack_length n) (payload +:+ rest)) as Hd. rewrite H4 in Ht, Hd.
  pose proof (f_equal String.length (eq_refl (pack_length n +:+ (payload +:+ rest)))) as Hl.
  rewrite str_app_length in Hl at 1. rewrite H4 in Hl.
  unfold decode_frame. destruct (String.eqb_spec (pack_length n +:+ (payload +:+ rest)) "") as [He|_].
  { rewrite He in Hl. cbn in Hl. lia. }
  destruct (Nat.ltb_spec (String.length (pack_length n +:+ (payload +:+ rest))) 4) as [|_]; [lia|].
  rewrite Ht, Hd, unpack_pack by (subst n; lia). cbv zeta. unfold MAX_PAYLOAD_BYTES.
  destruct (Z.ltb_spec 1048576 (Z.of_N n)); [subst n; lia|].
  subst n. rewrite Nat2N.id. rewrite str_app_length.
  destruct (Nat.ltb_spec (String.length payload + String.length rest) (String.length payload)); [lia|].
  by rewrite take_bytes_all, drop_bytes_all.
Qed.

(** Send the payloads one after the other. *)
Fixpoint send_frames (payloads : list string) : py sink unit :=
  match payloads with
  | [] => mret tt
  | payload :: rest => _ ← send_frame payload; send_frames rest
  end.

(** Receive until the end of the stream, at most [n] frames. *)
Fixpoint receive_frames (n : nat) : py (list arrival) (list string) :=
  match n with
  | O => mret []
  | S n =>
      frame ← receive_frame;
      match frame with
      | None => mret []
      | Some payload => rest ← receive_frames n; mret (payload :: rest)
      end
  end.

Lemma sent_frames payloads s :
  Forall bounded payloads -> Forall productive (sk_answers s) ->
  exists answers, send_frames payloads s =
    (Ok tt, mkSink (sk_sent s +:+ of_chars (map frame_of payloads)) answers).
Proof.
  intros Hb. revert s. induction Hb as [|p payloads Hp Hb IH]; intros s Ha; cbn [send_frames map].
  - exists (sk_answers s). destruct s. cbn. by rewrite str_app_nil_r.
  - rewrite py_bind_run. destruct (send_productive p s Hp Ha) as (answers & -> & Ha').
    destruct (IH (mkSink (sk_sent s +:+ frame_of p) answers) Ha') as (rest & ->). exists rest.
    cbn [sk_sent]. by rewrite of_chars_cons, str_app_assoc.
Qed.

Lemma received_frames payloads chunks :
  Forall bounded payloads -> nonempty chunks -> of_chars chunks = of_chars (map frame_of payloads) ->
  exists rest, receive_frames (S (length payloads)) (pieces chunks) = (Ok payloads, rest) /\ waiting rest = 0.
Proof.
  intros Hb. revert chunks. induction Hb as [|p payloads Hp Hb IH]; intros chunks Hne Hc.
  - destruct Hne as [|c chunks Hcne Hne]; [by exists []|]. rewrite of_chars_cons in Hc.
    pose proof (length_pos c Hcne). apply (f_equal String.length) in Hc.
    rewrite str_app_length in Hc. cbn in Hc. lia.
  - cbn [length]. set (k := S (length payloads)) in *. cbn [receive_frames]. rewrite py_bind_run.
    pose proof (receive_decodes chunks Hne) as Hr. destruct (receive_frame (pieces chunks)) as [r rest].
    destruct Hr as [Hr Hl]. rewrite Hc in *. cbn [map] in *. rewrite of_chars_cons in *.
    rewrite decode_frame_of in * by done. subst r.
    destruct (Hl _ _ eq_refl) as (chunks' & -> & Hne' & Hc'). rewrite py_bind_run.
    destruct (IH chunks' Hne' Hc') as (rest' & -> & Hw). by exists rest'.
Qed.

(** C34: the payloads that are sent are the payloads that are received, whatever
    portions the sending stream takes and whatever pieces the bytes arrive in, as
    long as both streams go on: in the same order, none joined, split or left out,
    and after the last one the receiver sees the end of the stream. *)
Theorem frames_survive_streams payloads answers chunks s :
  Forall bounded payloads -> Forall productive answers ->
  snd (send_frames payloads (mkSink "" answers)) = s ->
  nonempty chunks -> of_chars chunks = sk_sent s ->
  fst (send_frames payloads (mkSink "" answers)) = Ok tt /\
  exists rest, receive_frames (S (length payloads)) (pieces chunks) = (Ok payloads, rest) /\ waiting rest = 0.
Proof.
  intros Hb Ha <- Hne Hc. destruct (sent_frames payloads (mkSink "" answers) Hb Ha) as (rest & Hs).
  rewrite Hs in *. split; [done|]. by apply received_frames.
Qed.

(** * Messages survive their encoding *)

Definition canon_dict (d : dict) : dict := sorted_by fst (map (fun kv => (fst kv, canon (snd kv))) d).

Lemma encode_ok d :
  json_ok (PDict d) -> exists text, _encode_json d = Ok text /\ _decode_json text = Ok (PDict (canon_dict d)).
Proof.
  intros Hd. unfold _encode_json, _decode_json.
  assert (Hu : valid_utf8 (dumps utf8_style (PDict d)) = true).
  { apply valid_utf8_spec, dump_utf8; [by apply ascii_utf8..|done]. }
  rewrite Hu. eexists. split; [reflexivity|]. rewrite Hu. cbn [negb].
  rewrite <- (str_app_nil_r (dumps _ _)).
  rewrite (loads_dumps utf8_style (PDict d) "") by (done || by exists "", "").
  reflexivity.
Qed.

(** Text that a message can carry. *)
Definition carried (s : string) : Prop := s <> "" /\ utf8_text s.

Lemma require_carried s label : carried s -> _require_text s label = Ok tt.
Proof. intros [Hs _]. unfold _require_text. by rewrite (proj2 (String.eqb_neq _ _) Hs). Qed.

Lemma nonempty_carried s : carried s -> nonempty_str (PStr s) = true.
Proof.
  intros [Hs _]. unfold nonempty_str. cbn. by rewrite (proj2 (String.eqb_neq _ _) Hs).
Qed.

Lemma request_canon id method payload :
  canon_dict [("version", PInt PROTOCOL_VERSION); ("id", PStr id); ("method", PStr method);
              ("payload", PDict payload)] =
  [("id", PStr id); ("method", PStr method); ("payload", PDict (canon_dict payload));
   ("version", PInt PROTOCOL_VERSION)].
Proof. by vm_compute. Qed.

Lemma success_canon id payload :
  canon_dict (response_dict (mkResponse PROTOCOL_VERSION id true (Some payload) None)) =
  [("id", PStr id); ("ok", PBool true); ("result", PDict (canon_dict payload));
   ("version", PInt PROTOCOL_VERSION)].
Proof. by vm_compute. Qed.

Lemma failure_canon id code message :
  canon_dict (response_dict (mkResponse PROTOCOL_VERSION id false None
    (Some [("code", PStr code); ("message", PStr message)]))) =
  [("error", PDict [("code", PStr code); ("message", PStr message)]); ("id", PStr id);
   ("ok", PBool false); ("version", PInt PROTOCOL_VERSION)].
Proof. by vm_compute. Qed.

Ltac message_ok :=
  split; [apply (bool_decide_unpack _); vm_compute; exact I|];
  repeat match goal with H : carried _ |- _ => destruct H end;
  cbn [response_dict rs_ok rs_version rs_request_id rs_result rs_error app foldr fst snd]; split_and!;
  first [exact I | assumption | apply ascii_utf8; reflexivity].

(** A request is read back as it was encoded, up to the order of the members of
    its payload, and so are the two kinds of response. *)
Lemma request_reads_back id method payload :
  carried id -> carried method -> json_ok (PDict payload) ->
  exists text, encode_request id method payload = Ok text /\
    parse_request text = Ok (mkRequest PROTOCOL_VERSION id method (canon_dict payload)).
Proof.
  intros Hi Hm Hp. unfold encode_request. rewrite !require_carried by done. cbn [mbind res_bind].
  destruct (encode_ok [("version", PInt PROTOCOL_VERSION); ("id", PStr id); ("method", PStr method);
                       ("payload", PDict payload)]) as (text & -> & Hd); [message_ok|].
  exists text. split; [done|]. unfold parse_request. rewrite Hd. cbn [mbind res_bind].
  rewrite request_canon. cbn -[nonempty_str canon_dict]. by rewrite !nonempty_carried.
Qed.

Lemma success_reads_back id payload :
  carried id -> json_ok (PDict payload) ->
  exists text, encode_success_response id payload = Ok text /\
    parse_response text = Ok (mkResponse PROTOCOL_VERSION id true (Some (canon_dict payload)) None).
Proof.
  intros Hi Hp. unfold encode_success_response. rewrite !require_carried by done. cbn [mbind res_bind].
  destruct (encode_ok (response_dict (mkResponse PROTOCOL_VERSION id true (Some payload) None)))
    as (text & -> & Hd); [message_ok|].
  exists text. split; [done|]. unfold parse_response. rewrite Hd. cbn [mbind res_bind].
  by rewrite success_canon.
Qed.

Lemma failure_reads_back id code message :
  utf8_text id -> carried code -> carried message ->
  exists text, encode_error_response id code message = Ok text /\
    parse_response text = Ok (mkResponse PROTOCOL_VERSION id false None
      (Some [("code", PStr code); ("message", PStr message)])).
Proof.
  intros Hi Hc Hg. unfold encode_error_response. rewrite !require_carried by done. cbn [mbind res_bind].
  assert (Hdetails : json_ok (PDict [("code", PStr code); ("message", PStr message)])) by message_ok.
  destruct (encode_ok (response_dict (mkResponse PROTOCOL_VERSION id false None
      (Some [("code", PStr code); ("message", PStr message)])))) as (text & -> & Hd); [message_ok|].
  exists text. split; [done|]. unfold parse_response. rewrite Hd. cbn [mbind res_bind].
  rewrite failure_canon. cbn -[nonempty_str]. by rewrite !nonempty_carried.
Qed.

Lemma frames_survive_streams_witness :
  let payloads := ["ab"; ""; "c"] in
  let s := snd (send_frames payloads (mkSink "" [Takes 3; Takes 1])) in
  fst (send_frames payloads (mkSink "" [Takes 3; Takes 1])) = Ok tt /\
  exists chunks rest, receive_frames 4 (pieces chunks) = (Ok payloads, rest) /\ length chunks = 15.
Proof.
  intros payloads s. split; [vm_compute; reflexivity|].
  pose (chunks := map (fun c => String c "") (String.list_ascii_of_string (sk_sent s))).
  destruct (frames_survive_streams payloads [Takes 3; Takes 1] chunks s) as (_ & rest & Hr & _).
  - repeat constructor; vm_compute; discriminate.
  - repeat constructor.
  - reflexivity.
  - vm_compute. repeat constructor; discriminate.
  - vm_compute. reflexivity.
  - exists chunks, rest. split; [exact Hr|vm_compute; reflexivity].
Defined.
