(* ===== verification/IpcServer.v ===== *)
(** The service's side of the socket, [src/devlegate/ipc_server.py]: which engine
    operation each request stands for, and the loop that reads the requests of one
    connection and answers them.  The engine enters through the interface
    [IpcEngine]; the stop event, that another thread sets, and the streams are part
    of the connection's state.  The listening socket, its directory and the peer's
    credentials are not modelled. *)

From S2P Require Export IpcProtocol Operator Drop.

(** * The engine behind the socket *)

Class IpcEngine (E : Type) : Type := {
  (** What the owner published for the readers. *)
  published_status : E -> option StatusSnapshot;
  published_live_execution : E -> option dict;
  published_retry_candidates : E -> list dict;
  ipc_state : E -> dict;
  ipc_lifecycle_status : E -> dict;
  (** [_submit_operator_command]: submit and wait for the admission. *)
  ipc_submit : submission -> py E dict;
  (** The host's [request_lifecycle], when there is a host. *)
  ipc_lifecycle : option (string -> string -> bool -> py E dict)
}.

(** [__version__], the process and the identity of this instance. *)
Record instance : Type := mkInstance { in_version : string; in_pid : Z; in_id : string }.

(** ** Views *)

Section Dispatch.
Context {E : Type} `{IpcEngine E}.
Variable self : instance.

Definition published_status_payload : py E dict := fun e =>
  match published_status e with
  | None => (raise DevlegateError "service status view is not ready", e)
  | Some snapshot =>
      (Ok (match published_live_execution e with
           | Some live => dset (dict_of (status_dict snapshot)) "live_execution" (PDict live)
           | None => dict_of (status_dict snapshot)
           end), e)
  end.

Definition published_plan_view : py E ExecutionPlan := fun e =>
  match published_status e with
  | None => (raise DevlegateError "service plan view is not ready", e)
  | Some snapshot => (Ok (ss_plan snapshot), e)
  end.

Definition published_retry_candidates_view : py E (list dict) := fun e =>
  match published_status e with
  | None => (raise DevlegateError "service retry candidates are not ready", e)
  | Some _ => (Ok (published_retry_candidates e), e)
  end.

Definition _service_identity (e : E) : dict :=
  [("service", PStr "devlegate"); ("version", PStr (in_version self)); ("protocol_version", PInt 1);
   ("pid", PInt (in_pid self)); ("instance_id", PStr (in_id self));
   ("lifecycle", PDict (ipc_lifecycle_status e));
   ("ready", PBool (is_true (get (ipc_lifecycle_status e) "ready")))].

(** * Dispatch *)

Definition unsupported {A} (method : string) : res A :=
  protocol_error "unknown_method" ("unsupported method: " +:+ method) false.

Definition dispatch_read_only (request : IPCRequest) : py E dict :=
  let method := rq_method request in
  if (method =? "ping")%string then e ← py_get; mret (_service_identity e)
  else if (method =? "status")%string then
    result ← published_status_payload; e ← py_get;
    mret (dset result "service" (PDict (_service_identity e)))
  else if (method =? "plan")%string then plan ← published_plan_view; mret (dict_of (plan_dict plan))
  else if (method =? "retry-candidates")%string then
    candidates ← published_retry_candidates_view;
    mret [("candidates", PList (map PDict candidates))]
  else if (method =? "drop-candidates")%string then
    e ← py_get; candidates ← py_lift (_drop_candidate_from_state (ipc_state e));
    mret [("candidates", PList (map PDict candidates))]
  else py_lift (unsupported method).

(** What a mutating request asks of the engine. *)
Inductive mutation : Type :=
  | Submit (u : submission)
  | Lifecycle (intent request_id : string) (force : bool).

(** The value is non-empty text. *)
Definition text_field (value : pyval) (message : string) : res string :=
  if nonempty_str value then Ok (str_of value) else invalid_request message.

(** The value is a boolean. *)
Definition bool_field (value : pyval) (message : string) : res bool :=
  match value with PBool b => Ok b | _ => invalid_request message end.

(** [onto is not None and (not isinstance(onto, str) or not onto)] *)
Definition onto_field (value : pyval) : res (option string) :=
  if is_none value then Ok None
  else Some <$> text_field value "reconciliation onto must be non-empty text".

(** The dictionary has exactly the keys of one of the sets. *)
Definition shaped (payload : dict) (shapes : list (list string)) (message : string) : res unit :=
  if existsb (keys_eq payload) shapes then Ok tt else invalid_request message.

Definition lifecycle_mutation (has_lifecycle : bool) (request : IPCRequest) : res mutation :=
  let method := rq_method request in
  if negb (keys_subset (rq_payload request) ["force"])
  then invalid_request (method +:+ " payload fields are invalid")
  else if negb has_lifecycle then unsupported method
  else
    force ← bool_field (get_or (rq_payload request) "force" (PBool false))
              (method +:+ " force must be boolean");
    mret (Lifecycle method (rq_request_id request) force).

Definition retry_mutation (request : IPCRequest) : res mutation :=
  let payload := rq_payload request in
  if negb (keys_subset payload ["ticket_id"; "force"] && has_key payload "ticket_id")
  then invalid_request "retry payload fields are invalid"
  else
    ticket_id ← text_field (get payload "ticket_id") "retry ticket_id must be non-empty text";
    force ← bool_field (get_or payload "force" (PBool false)) "retry force must be boolean";
    mret (Submit (submit_retry ticket_id force (rq_request_id request))).

Definition drop_mutation (request : IPCRequest) : res mutation :=
  let payload := rq_payload request in
  _ ← shaped payload [["ticket_id"; "execution_id"]] "drop payload fields are invalid";
  ticket_id ← text_field (get payload "ticket_id") "drop ticket_id must be non-empty text";
  execution_id ← text_field (get payload "execution_id") "drop execution_id must be non-empty text";
  mret (Submit (submit_drop ticket_id execution_id (rq_request_id request))).

Definition recover_mutation (request : IPCRequest) : res mutation :=
  let payload := rq_payload request in
  let message := "recover identity fields must be non-empty text" in
  _ ← shaped payload [["ticket_id"; "execution_id"; "observed_head"]] "recover payload fields are invalid";
  ticket_id ← text_field (get payload "ticket_id") message;
  execution_id ← text_field (get payload "execution_id") message;
  observed_head ← text_field (get payload "observed_head") message;
  mret (Submit (submit_recover ticket_id execution_id observed_head (rq_request_id request))).

Definition update_base_mutation (request : IPCRequest) : res mutation :=
  let payload := rq_payload request in
  _ ← shaped payload [["ticket_id"]; ["ticket_id"; "onto"]; ["ticket_id"; "rewrite_published"];
                      ["ticket_id"; "onto"; "rewrite_published"]]
        "reconciliation payload fields are invalid";
  ticket_id ← text_field (get payload "ticket_id") "reconciliation ticket_id must be non-empty text";
  onto ← onto_field (get payload "onto");
  rewrite_published ← bool_field (get_or payload "rewrite_published" (PBool false))
                        "reconciliation rewrite_published must be boolean";
  mret (Submit (submit_reconcile_update_base ticket_id onto rewrite_published (rq_request_id request))).

Definition resume_mutation (request : IPCRequest) : res mutation :=
  let payload := rq_payload request in
  _ ← shaped payload [["ticket_id"]] "reconciliation resume payload fields are invalid";
  ticket_id ← text_field (get payload "ticket_id") "reconciliation ticket_id must be non-empty text";
  mret (Submit (submit_reconcile_resume ticket_id (rq_request_id request))).

Definition auto_mutation (request : IPCRequest) : res mutation :=
  let payload := rq_payload request in
  _ ← shaped payload [["ticket_id"]; ["ticket_id"; "onto"]]
        "automatic reconciliation payload fields are invalid";
  ticket_id ← text_field (get payload "ticket_id") "reconciliation ticket_id must be non-empty text";
  onto ← onto_field (get payload "onto");
  mret (Submit (submit_reconcile_auto ticket_id onto (rq_request_id request))).

Definition control_mutation (request : IPCRequest) : res mutation :=
  let payload := rq_payload request in
  _ ← shaped payload [["from"; "to"]] "control reconciliation payload fields are invalid";
  from_head ← text_field (get payload "from") "control reconciliation from must be non-empty text";
  to_head ← text_field (get payload "to") "control reconciliation to must be non-empty text";
  mret (Submit (submit_reconcile_control from_head to_head (rq_request_id request))).

(** The validation of [dispatch_mutation], up to the call it ends with. *)
Definition mutation_of (has_lifecycle : bool) (request : IPCRequest) : res mutation :=
  let method := rq_method request in
  if existsb (String.eqb method) ["stop"; "restart"] then lifecycle_mutation has_lifecycle request
  else if (method =? "retry")%string then retry_mutation request
  else if (method =? "drop")%string then drop_mutation request
  else if (method =? "recover")%string then recover_mutation request
  else if (method =? "reconcile-update-base")%string then update_base_mutation request
  else if (method =? "reconcile-resume")%string then resume_mutation request
  else if (method =? "reconcile-auto")%string then auto_mutation request
  else if (method =? "reconcile-control")%string then control_mutation request
  else unsupported method.

Definition dispatch_mutation (request : IPCRequest) : py E dict :=
  mutation ← py_lift (mutation_of (bool_decide (is_Some ipc_lifecycle)) request);
  match mutation with
  | Submit u => ipc_submit u
  | Lifecycle intent request_id force =>
      match ipc_lifecycle with
      | Some lifecycle =>
          lifecycle_result ← lifecycle intent request_id force;
          mret (dmerge [("accepted", PBool true); ("instance_id", PStr (in_id self))] lifecycle_result)
      | None => py_lift (unsupported intent)
      end
  end.

Definition is_unknown_method (e : exn) : bool :=
  match exn_cls e with IPCProtocolError code _ => (code =? "unknown_method")%string | _ => false end.

Definition dispatch_request (request : IPCRequest) : py E dict :=
  py_catch (dispatch_mutation request) is_unknown_method (fun _ => dispatch_read_only request).

(** * A connection *)

(** The engine, the two directions of the stream, what the checks of the server's
    stop event find (and that it is not set, after them), and the number of
    admitted requests whose response is not settled. *)
Record connection : Type := mkConnection {
  cn_engine : E;
  cn_arrivals : list arrival;
  cn_sink : sink;
  cn_stops : list bool;
  cn_unsettled : nat
}.

Definition on_engine {A} (m : py E A) : py connection A := fun s =>
  let '(r, e) := m (cn_engine s) in
  (r, mkConnection e (cn_arrivals s) (cn_sink s) (cn_stops s) (cn_unsettled s)).

Definition on_arrivals {A} (m : py (list arrival) A) : py connection A := fun s =>
  let '(r, arrivals) := m (cn_arrivals s) in
  (r, mkConnection (cn_engine s) arrivals (cn_sink s) (cn_stops s) (cn_unsettled s)).

Definition on_sink {A} (m : py sink A) : py connection A := fun s =>
  let '(r, k) := m (cn_sink s) in
  (r, mkConnection (cn_engine s) (cn_arrivals s) k (cn_stops s) (cn_unsettled s)).

(** [self._stop.is_set()] *)
Definition stop_is_set : py connection bool := fun s =>
  (Ok (hd false (cn_stops s)),
   mkConnection (cn_engine s) (cn_arrivals s) (cn_sink s) (tl (cn_stops s)) (cn_unsettled s)).

Definition set_unsettled (f : nat -> nat) (s : connection) : connection :=
  mkConnection (cn_engine s) (cn_arrivals s) (cn_sink s) (cn_stops s) (f (cn_unsettled s)).

(** The connection is in the server's table as long as its handler runs. *)
Definition _admit_request : py connection bool :=
  stopping ← stop_is_set;
  if (stopping : bool) then mret false
  else _ ← py_modify (set_unsettled S); mret true.

Definition _settle_response : connection -> connection := set_unsettled Nat.pred.

(** The [except] clauses: the response and whether the connection ends after it,
    or nothing when the server stops.  They may raise themselves. *)
Definition answer_failure (request_id : string) (admitted : bool) (e : exn)
    : py connection (option (string * bool)) :=
  match exn_cls e with
  | IPCProtocolError code fatal =>
      response ← py_lift (encode_error_response request_id code (exn_msg e));
      mret (Some (response, fatal))
  | _ =>
      if is_devlegate_error e || is_os_error e then
        stopping ← stop_is_set;
        if (stopping : bool)
        then _ ← (if admitted then py_modify _settle_response else mret tt); mret None
        else
          response ← py_lift (encode_error_response request_id "application_error" (exn_msg e));
          mret (Some (response, true))
      else py_lift (Raise e)
  end.

Definition always (e : exn) : bool := true.

(** An admitted request: parsed, dispatched and its result encoded. *)
Definition answer_request (payload : string) : py connection (option (string * bool)) :=
  match parse_request payload with
  | Raise e => answer_failure "" true e
  | Ok request =>
      py_catch (result ← on_engine (dispatch_request request);
                response ← py_lift (encode_success_response (rq_request_id request) result);
                mret (Some (response, false)))
        always (answer_failure (rq_request_id request) true)
  end.

(** Send the response; the result is whether the connection goes on. *)
Definition respond (admitted : bool) (response : string) (fatal : bool) : py connection bool :=
  py_finally
    (sent ← py_catch (_ ← on_sink (send_frame response); mret true)
              (fun e => is_protocol_error e || is_os_error e) (fun _ => mret false);
     mret (sent && negb fatal))
    (fun s => if admitted then _settle_response s else s).

Definition respond_with (admitted : bool) (answer : option (string * bool)) : py connection bool :=
  match answer with
  | None => mret false
  | Some (response, fatal) => respond admitted response fatal
  end.

(** One pass of the loop of [_serve_connection]: does the loop go on? *)
Definition serve_once : py connection bool :=
  stopping ← stop_is_set;
  if (stopping : bool) then mret false else
  received ← py_catch (payload ← on_arrivals receive_frame; mret (inl payload)) always
               (fun e => answer ← answer_failure "" false e; mret (inr answer));
  match received with
  | inr answer => respond_with false answer
  | inl None => mret false
  | inl (Some payload) =>
      admitted ← _admit_request;
      if negb admitted then mret false
      else answer ← answer_request payload; respond_with true answer
  end.

(** The loop, at most [n] passes: [None] is that they were not enough. *)
Fixpoint _serve_connection (n : nat) : py connection (option unit) :=
  match n with
  | O => mret None
  | S n =>
      continues ← serve_once;
      if (continues : bool) then _serve_connection n else mret (Some tt)
  end.
End Dispatch.
