(* ===== verification/IpcClient.v ===== *)
(** The client's side of the socket, [src/devlegate/ipc_client.py]: one request
    over one connection, the replay of an uncertain mutation, and the decoders of
    the answers.  A connection is what the operating system and the service make
    of it: whether it is established, how its stream takes what is written and
    what arrives on it. *)

From S2P Require Export IpcServer.

(** [raise IPCClientError(message, application=..., uncertain=..., code=...)] *)
Definition client_error {A} (message : string) (application uncertain : bool) (code : option string) : res A :=
  raise (IPCClientError application uncertain code) message.

Definition unavailable {A} (message : string) : res A := client_error message false false None.

Definition _uncertain_message (method : string) : string :=
  method +:+ " request outcome is uncertain; inspect status before retrying".

Definition uncertain {A} (method : string) : res A :=
  client_error (_uncertain_message method) false true None.

(** * Connections *)

Record channel : Type := mkChannel {
  ch_connect : option exn;             (** the error of [connect] *)
  ch_answers : list acceptance;
  ch_arrivals : list arrival
}.

(** The connections that the next attempts get, and the bytes that were sent on
    each earlier one. *)
Record transport : Type := mkTransport {
  tr_channels : list channel;
  tr_sent : list string
}.

Definition refused_channel : channel :=
  mkChannel (Some (Exn PyOSError "connection refused")) [] [].

(** Send the request and receive the response; and what was sent. *)
Definition exchange (request_id method : string) (payload : dict) (c : channel)
    : res (option string) * string :=
  let '(r, k) := (text ← py_lift (encode_request request_id method payload); send_frame text)
                   (mkSink "" (ch_answers c)) in
  match r with
  | Raise e => (Raise e, sk_sent k)
  | Ok _ => (fst (receive_frame (ch_arrivals c)), sk_sent k)
  end.

(** The first half of [_request_once], to the end of its outer [try]. *)
Definition connect_and_exchange (request_id method : string) (payload : dict) (mutable : bool)
    : py transport (option string) := fun s =>
  let c := hd refused_channel (tr_channels s) in
  match ch_connect c with
  | Some e =>
      (if is_os_error e then unavailable ("service IPC unavailable: " +:+ exn_msg e) else Raise e,
       mkTransport (tl (tr_channels s)) (tr_sent s))
  | None =>
      let '(r, sent) := exchange request_id method payload c in
      (match r with
       | Raise e =>
           if is_os_error e || is_protocol_error e
           then if mutable then uncertain method
                else unavailable ("service IPC unavailable: " +:+ exn_msg e)
           else Raise e
       | Ok _ => r
       end, mkTransport (tl (tr_channels s)) (tr_sent s ++ [sent]))
  end.

(** The second half: what the response means. *)
Definition interpret (request_id method : string) (mutable : bool) (payload : option string) : res dict :=
  let or_uncertain (message : string) : res dict :=
    if mutable then uncertain method else unavailable message in
  match payload with
  | None => or_uncertain "service IPC returned no response"
  | Some payload =>
      match parse_response payload with
      | Raise e =>
          if is_protocol_error e then or_uncertain ("service IPC protocol error: " +:+ exn_msg e)
          else Raise e
      | Ok response =>
          if negb (rs_request_id response =? request_id)%string
          then or_uncertain "service IPC response id does not match request"
          else if negb (rs_ok response)
          then
            let error := default [] (rs_error response) in
            client_error ("service error: " +:+
                          py_str (get_or error "message" (PStr "unknown application error")))
              true false (str_opt (get error "code"))
          else match rs_result response with
               | None => or_uncertain "service IPC response has no result"
               | Some result => Ok result
               end
      end
  end.

Definition _request_once (request_id method : string) (payload : dict) (mutable : bool)
    : py transport dict :=
  response ← connect_and_exchange request_id method payload mutable;
  py_lift (interpret request_id method mutable response).

(** The loop of [request] with [remaining] attempts left; it falls through to
    Python's [None] only when it runs out of attempts. *)
Fixpoint request_attempts (remaining attempt : nat) (request_id method : string) (payload : dict)
    (mutable : bool) : py transport (option dict) :=
  match remaining with
  | O => mret None
  | S remaining =>
      py_catch (result ← _request_once request_id method payload mutable; mret (Some result))
        (fun e => match exn_cls e with IPCClientError _ _ _ => true | _ => false end)
        (fun e =>
           match exn_cls e with
           | IPCClientError application is_uncertain _ =>
               if mutable && (0 <? attempt)%nat && negb application
               then py_lift (uncertain method)
               else if negb mutable || negb is_uncertain || (remaining =? 0)%nat
               then py_lift (Raise e)
               else request_attempts remaining (S attempt) request_id method payload mutable
           | _ => py_lift (Raise e)
           end)
  end.

Definition ipc_request (request_id method : string) (payload : dict) (mutable : bool)
    : py transport (option dict) :=
  request_attempts (if mutable then 2 else 1) 0 request_id method payload mutable.

(** * Decoders *)

Definition value_error {A} (message : string) : res A := raise PyValueError message.

Definition _mapping (value : pyval) (label : string) : res dict :=
  match value with PDict d => Ok d | _ => value_error (label +:+ " must be an object") end.

(** [None if value is None else f(value, label)] *)
Definition optional {A} (f : pyval -> string -> res A) (value : pyval) (label : string) : res (option A) :=
  if is_none value then Ok None else Some <$> f value label.

Definition _optional_mapping : pyval -> string -> res (option dict) := optional _mapping.

Definition _text (value : pyval) (label : string) : res string :=
  match value with PStr s => Ok s | _ => value_error (label +:+ " must be text") end.

Definition _optional_text : pyval -> string -> res (option string) := optional _text.

Definition _bool (value : pyval) (label : string) : res bool :=
  match value with PBool b => Ok b | _ => value_error (label +:+ " must be boolean") end.

Definition _list (value : pyval) (message : string) : res (list pyval) :=
  match value with PList l => Ok l | _ => value_error message end.

Definition _observation (value : pyval) (label : string) : res GitObservation :=
  mapping ← _mapping value label;
  branch ← (v ← getitem mapping "branch"; _optional_text v (label +:+ " branch"));
  detached ← (v ← getitem mapping "detached"; _bool v (label +:+ " detached"));
  local_head ← (v ← getitem mapping "local_head"; _text v (label +:+ " local head"));
  remote_ref ← (v ← getitem mapping "remote_ref"; _text v (label +:+ " remote ref"));
  remote_head ← (v ← getitem mapping "remote_head"; _optional_text v (label +:+ " remote head"));
  clean ← (v ← getitem mapping "working_tree_clean"; _bool v (label +:+ " working tree"));
  fingerprint ← (v ← getitem mapping "working_tree_fingerprint"; _text v (label +:+ " fingerprint"));
  Ok (mkGitObs branch detached local_head remote_ref remote_head clean fingerprint).

Definition _optional_observation : pyval -> string -> res (option GitObservation) := optional _observation.

Definition count_keys : list string := ["backlog"; "todo"; "review"; "accepted"; "done"].

Definition _counts (value : pyval) : res (list (string * Z)) :=
  mapping ← _mapping value "ticket counts";
  if negb (keys_eq mapping count_keys)
  then value_error "ticket counts must contain exactly the expected states"
  else res_map (fun key =>
         number ← getitem mapping key;
         match number with
         | PInt n => Ok (key, n)
         | _ => value_error "ticket counts must contain integer values"
         end) count_keys.

(** Two text members of a mapping. *)
Definition text_pair (value : pyval) (label first first_label second second_label : string)
    : res (string * string) :=
  mapping ← _mapping value label;
  a ← (v ← getitem mapping first; _text v first_label);
  b ← (v ← getitem mapping second; _text v second_label);
  Ok (a, b).

Definition _ticket_pairs (value : pyval) (label : string) : res (list (string * string)) :=
  items ← _list value (label +:+ " must be a list");
  res_map (fun item => text_pair item label "id" (label +:+ " id") "title" (label +:+ " title")) items.

Definition _dependency_pairs (value : pyval) : res (list (string * string)) :=
  items ← _list value "blocked dependencies must be a list";
  res_map (fun item => text_pair item "blocked dependency" "id" "dependency id" "state" "dependency state")
    items.

Definition _optional_pair : pyval -> string -> res (option (string * string)) :=
  optional (fun value label => pairs ← _ticket_pairs (PList [value]) label;
                               match pairs with p :: _ => Ok p | [] => raise PyIndexError "" end).

Definition blocked_reason (reason : dict) : res BlockedReason :=
  kind ← (v ← getitem reason "kind"; _text v "blocked reason kind");
  if (kind =? "dependencies")%string
  then tickets ← (v ← getitem reason "tickets"; _dependency_pairs v); Ok (mkBlocked kind None tickets)
  else ticket_id ← _optional_text (get reason "ticket_id") "blocked reason ticket";
       Ok (mkBlocked kind ticket_id []).

Definition _blocked (value : pyval) : res (list (string * string * BlockedReason)) :=
  items ← _list value "blocked must be a list";
  res_map (fun item =>
    mapping ← _mapping item "blocked ticket";
    reason_mapping ← (v ← getitem mapping "reason"; _mapping v "blocked reason");
    reason ← blocked_reason reason_mapping;
    id ← (v ← getitem mapping "id"; _text v "blocked id");
    title ← (v ← getitem mapping "title"; _text v "blocked title");
    Ok (id, title, reason)) items.

Definition _lifecycle_integration (value : pyval) : res (option (string * string)) :=
  if is_none value then Ok None else
  lifecycle ← _mapping value "lifecycle";
  let integration := get lifecycle "integration" in
  if is_none integration then Ok None else
  mapping ← _mapping integration "lifecycle integration";
  state ← (v ← getitem mapping "state"; _text v "lifecycle integration state");
  if negb (state =? "in-progress")%string then value_error "invalid lifecycle integration state" else
  ticket_id ← (v ← getitem mapping "ticket_id"; _text v "lifecycle integration ticket");
  Ok (Some (ticket_id, state)).

Definition _failures (value : pyval) : res (list FailedExecution) :=
  items ← _list value "failed executions must be a list";
  res_map (fun item =>
    mapping ← _mapping item "failed execution";
    id ← (v ← getitem mapping "id"; _text v "failed id");
    title ← (v ← getitem mapping "title"; _text v "failed title");
    reason ← (v ← getitem mapping "reason"; _text v "failed reason");
    retryable ← (v ← getitem mapping "retryable"; _bool v "failed retryable");
    nonretryable ← (v ← getitem mapping "nonretryable_reason"; _optional_text v "nonretryable reason");
    interruption ← (v ← getitem mapping "interruption_kind"; _optional_text v "interruption kind");
    manual ← _bool (get_or mapping "manual_retry_required" (PBool false)) "manual retry required";
    Ok (mkFailed id title reason retryable nonretryable interruption manual)) items.

Definition _optional_dict : pyval -> string -> res (option dict) := optional _mapping.

(** [except (KeyError, TypeError, ValueError)] of a decoder *)
Definition decoding {A} (what : string) (m : res A) : res A :=
  catch m (fun e => match exn_cls e with PyKeyError | PyTypeError | PyValueError => true | _ => false end)
    (fun e => unavailable ("service IPC returned invalid " +:+ what +:+ ": " +:+ exn_msg e)).

(** A field of an optional mapping: [f(ticket.get(key), label) if ticket is not None else None] *)
Definition ticket_text (ticket : option dict) (key label : string) : res (option string) :=
  match ticket with
  | Some ticket => _optional_text (get ticket key) label
  | None => Ok None
  end.

Definition decode_plan (value : dict) : res ExecutionPlan :=
  decoding "plan" (
    ticket ← (v ← getitem value "ticket"; _optional_mapping v "plan ticket");
    observation ← (v ← getitem value "observation"; _mapping v "plan observation");
    action ← (v ← getitem value "action"; _text v "plan action");
    reason ← (v ← getitem value "reason"; _text v "plan reason");
    ticket_id ← ticket_text ticket "id" "ticket id";
    ticket_title ← ticket_text ticket "title" "ticket title";
    ticket_state ← ticket_text ticket "state" "ticket state";
    bound ← (v ← getitem value "bound"; _bool v "plan bound");
    code ← _optional_observation (get observation "code") "plan code";
    control ← _optional_observation (get observation "control") "plan control";
    Ok (mkPlan action reason ticket_id ticket_title ticket_state bound code control)).

Definition decode_status (value : dict) : res StatusSnapshot :=
  decoding "status" (
    execution ← (v ← getitem value "execution"; _mapping v "execution");
    observation ← (v ← getitem value "observation"; _mapping v "observation");
    tickets ← (v ← getitem value "tickets"; _mapping v "tickets");
    blocked ← (v ← getitem tickets "blocked"; _blocked v);
    phase ← (v ← getitem execution "phase"; _text v "execution phase");
    bound ← (v ← getitem execution "bound_ticket"; _optional_text v "bound ticket");
    body ← (v ← getitem execution "persisted_body"; _bool v "persisted body");
    code ← (v ← getitem observation "code"; _observation v "code observation");
    control ← _optional_observation (get observation "control") "control observation";
    counts ← (v ← getitem tickets "counts"; _counts v);
    eligible ← (v ← getitem tickets "eligible"; _ticket_pairs v "eligible");
    review ← (v ← getitem tickets "review"; _ticket_pairs v "review");
    accepted ← (v ← getitem tickets "accepted"; _ticket_pairs v "accepted");
    next ← (v ← getitem tickets "next"; _optional_pair v "next ticket");
    plan ← (v ← getitem value "plan"; decode_plan (dict_of v));
    failed ← (v ← getitem value "failed_executions"; _failures v);
    reconciliation ← _optional_dict (get value "reconciliation") "reconciliation";
    stage ← _optional_text (get execution "stage") "execution stage";
    execution_id ← _optional_text (get execution "execution_id") "execution id";
    title ← _optional_text (get execution "ticket_title") "bound ticket title";
    lifecycle ← _lifecycle_integration (get value "lifecycle");
    Ok (mkStatus phase bound body code control counts [] blocked review accepted next plan failed
          reconciliation stage execution_id title lifecycle eligible)).

(** A candidate has exactly the fields, all non-empty text. *)
Definition decode_candidate (label : string) (fields : list string) (item : pyval) : res dict :=
  match item with
  | PDict d =>
      if negb (keys_eq d fields) then value_error (label +:+ " candidate shape is invalid")
      else if negb (forallb (fun kv => nonempty_str (snd kv)) d)
      then value_error (label +:+ " candidate fields must be non-empty text")
      else Ok d
  | _ => value_error (label +:+ " candidate shape is invalid")
  end.

Definition _decode_candidates (value : dict) (label : string) (extra_fields : list string) : res (list dict) :=
  decoding (label +:+ " candidates") (
    candidates ← (v ← getitem value "candidates"; _list v "candidates must be a list");
    result ← res_map (decode_candidate label (["id"; "title"; "reason"; "kind"] ++ extra_fields)) candidates;
    if negb (keys_eq value ["candidates"])
    then value_error (label +:+ " candidate response fields are invalid")
    else Ok result).

Definition decode_retry_candidates (value : dict) : res (list dict) := _decode_candidates value "retry" [].
Definition decode_drop_candidates (value : dict) : res (list dict) :=
  _decode_candidates value "drop" ["execution_id"; "stage"].


(** The acknowledgement has exactly the keys, is accepted ([is True]), and names
    what was asked for. *)
Definition acknowledged (value : dict) (names : list (string * string)) (message : string) : res unit :=
  if keys_eq value ("accepted" :: map fst names) &&
     (is_true (get value "accepted") && forallb (fun kv => eq_str (get value (fst kv)) (snd kv)) names)
  then Ok tt else unavailable message.

Definition decode_retry_ack (value : dict) (ticket_id : string) : res unit :=
  acknowledged value [("ticket_id", ticket_id)] "service IPC returned invalid retry acknowledgement".

Definition decode_drop_ack (value : dict) (ticket_id execution_id : string) : res unit :=
  acknowledged value [("ticket_id", ticket_id); ("execution_id", execution_id)]
    "service IPC returned invalid drop acknowledgement".

Definition decode_reconcile_ack (value : dict) (ticket_id onto : string) : res unit :=
  acknowledged value [("ticket_id", ticket_id); ("onto", onto)]
    "service IPC returned invalid reconciliation acknowledgement".

(** [value != {"accepted": True, ...}]: here [1] counts as [True]. *)
Definition decode_reconcile_resume_ack (value : dict) (ticket_id : string) : res unit :=
  if py_eq (PDict value) (PDict [("accepted", PBool true); ("ticket_id", PStr ticket_id)]) then Ok tt
  else unavailable "service IPC returned invalid reconciliation resume acknowledgement".

Definition decode_reconcile_control_ack (value : dict) (from_head to_head : string) : res unit :=
  if py_eq (PDict value) (PDict [("accepted", PBool true); ("from", PStr from_head); ("to", PStr to_head)])
  then Ok tt
  else unavailable "service IPC returned invalid control reconciliation acknowledgement".

(** * The mutating commands, [src/devlegate/cli.py] from [_retry_daemon] to
    [_reconcile_control]: the payload each sends, and the check of its answer *)

Definition retry_payload (ticket_id : string) (force : bool) : dict :=
  if force then [("ticket_id", PStr ticket_id); ("force", PBool force)] else [("ticket_id", PStr ticket_id)].

Definition update_base_payload (ticket_id : string) (onto : option string) (rewrite_published : bool) : dict :=
  ("ticket_id", PStr ticket_id) :: match onto with Some h => [("onto", PStr h)] | None => [] end ++
  (if rewrite_published then [("rewrite_published", PBool true)] else []).

Definition auto_payload (ticket_id : string) (onto : option string) : dict :=
  ("ticket_id", PStr ticket_id) :: match onto with Some h => [("onto", PStr h)] | None => [] end.

Definition recover_payload (ticket_id execution_id observed_head : string) : dict :=
  [("ticket_id", PStr ticket_id); ("execution_id", PStr execution_id); ("observed_head", PStr observed_head)].

Definition command_payload (r : request) : dict :=
  match r with
  | Retry t force => retry_payload t force
  | Drop t x => [("ticket_id", PStr t); ("execution_id", PStr x)]
  | Recover t x h => recover_payload t x h
  | UpdateBase t onto rewrite => update_base_payload t onto rewrite
  | ReconcileResume t => [("ticket_id", PStr t)]
  | ReconcileAuto t onto => auto_payload t onto
  | ControlReconcile a b => [("from", PStr a); ("to", PStr b)]
  end.

Definition command_method (r : request) : string := fst (request_parts r).

Definition check_recovery (result : dict) (ticket_id execution_id observed_head : string) : res unit :=
  let identity := [("ticket_id", ticket_id); ("execution_id", execution_id); ("observed_head", observed_head)] in
  if negb (keys_eq result ("accepted" :: map fst identity) && is_true (get result "accepted"))
  then raise DevlegateError "service returned an invalid recovery acknowledgement"
  else if negb (forallb (fun kv => eq_str (get result (fst kv)) (snd kv)) identity)
  then raise DevlegateError "service returned an invalid recovery identity"
  else Ok tt.

Definition check_update_base (result : dict) (ticket_id : string) : res unit :=
  let effective_onto := get result "onto" in
  if negb (nonempty_str effective_onto)
  then raise DevlegateError "service returned an invalid reconciliation target"
  else decode_reconcile_ack result ticket_id (str_of effective_onto).

Definition check_auto (result : dict) (ticket_id : string) : res unit :=
  if negb (is_true (get result "accepted") && eq_str (get result "ticket_id") ticket_id)
  then raise DevlegateError "service returned an invalid reconciliation acknowledgement"
  else if negb (is_none (get result "onto")) && negb (nonempty_str (get result "onto"))
  then raise DevlegateError "service returned an invalid reconciliation target"
  else Ok tt.

Definition check_answer (r : request) (result : dict) : res unit :=
  match r with
  | Retry t _ => decode_retry_ack result t
  | Drop t x => decode_drop_ack result t x
  | Recover t x h => check_recovery result t x h
  | UpdateBase t _ _ => check_update_base result t
  | ReconcileResume t => decode_reconcile_resume_ack result t
  | ReconcileAuto t _ => check_auto result t
  | ControlReconcile a b => decode_reconcile_control_ack result a b
  end.

(** The submission the service makes of a command. *)
Definition command_submission (r : request) (request_id : string) : submission :=
  match r with
  | Retry t force => submit_retry t force request_id
  | Drop t x => submit_drop t x request_id
  | Recover t x h => submit_recover t x h request_id
  | UpdateBase t onto rewrite => submit_reconcile_update_base t onto rewrite request_id
  | ReconcileResume t => submit_reconcile_resume t request_id
  | ReconcileAuto t onto => submit_reconcile_auto t onto request_id
  | ControlReconcile a b => submit_reconcile_control a b request_id
  end.
