(* ===== verification/IpcSession.v ===== *)
(** Requests over the socket: a mutation arrives as the submission the client
    asked for and its acknowledgement is accepted, the server's loop answers the
    requests of a connection one by one and ends, and what it does with a request
    whose id no response can carry. *)

From S2P Require Export IpcClient.

(** * Dictionaries that JSON carries *)

Lemma canon_getitem d k :
  NoDup (keys d) -> getitem (canon_dict d) k = canon <$> getitem d k.
Proof.
  intros Hd. unfold getitem. pose proof (canon_dget d k Hd) as Hg. cbn [canon dict_of] in Hg.
  unfold canon_dict. rewrite Hg. by destruct (dget d k).
Qed.

Lemma canon_get d k : NoDup (keys d) -> get (canon_dict d) k = canon (get d k).
Proof.
  intros Hd. unfold get, get_or. pose proof (canon_dget d k Hd) as Hg. cbn [canon dict_of] in Hg.
  unfold canon_dict. rewrite Hg. by destruct (dget d k).
Qed.

Ltac no_dup := apply (bool_decide_unpack _); vm_compute; exact I.

(** * A command over the wire *)

(** The arguments of a command: text that is not empty. *)
Definition command_texts (r : request) : list string :=
  match r with
  | Retry t _ | ReconcileResume t => [t]
  | Drop t x => [t; x]
  | Recover t x h => [t; x; h]
  | UpdateBase t onto _ | ReconcileAuto t onto => t :: match onto with Some h => [h] | None => [] end
  | ControlReconcile a b => [a; b]
  end.

Lemma text_carried s m : carried s -> text_field (PStr s) m = Ok s.
Proof. intros Hs. unfold text_field. by rewrite nonempty_carried. Qed.

(** Compute the order of the members of a written-out dictionary. *)
Ltac sort_members :=
  match goal with
  | |- context [canon_dict ?d] =>
      let v := eval vm_compute in (canon_dict d) in
      replace (canon_dict d) with v by (by vm_compute)
  end.

(** The written-out payload of a command. *)
Ltac written_payload :=
  cbn [command_payload]; unfold retry_payload, recover_payload, update_base_payload, auto_payload; cbn [app].

Lemma mutation_of_command r id version payload lifecycle :
  Forall carried (command_texts r) ->
  payload = canon_dict (command_payload r) ->
  mutation_of lifecycle (mkRequest version id (command_method r) payload) =
    Ok (Submit (command_submission r id)).
Proof.
  intros Ht ->.
  assert (Honto : forall h, carried h -> onto_field (PStr h) = Ok (Some h)).
  { intros h Hh. unfold onto_field. cbn [is_none]. by rewrite text_carried. }
  destruct r as [t []|t x|t x h|t [h|] []|t|t [h|]|a b]; cbn [command_texts] in Ht;
    repeat (apply Forall_cons in Ht as [? Ht]); written_payload; sort_members;
    cbn -[text_field onto_field submit_retry submit_drop submit_recover submit_reconcile_update_base
          submit_reconcile_resume submit_reconcile_auto submit_reconcile_control];
    rewrite ?text_carried, ?Honto by done; cbn; rewrite ?text_carried, ?Honto by done; reflexivity.
Qed.

(** The target of the acknowledgement: the one that was asked for, or the one the
    owner resolved. *)
Definition resolved (r : request) (id : string) (onto : option string) : Prop :=
  match r with
  | UpdateBase _ _ _ => exists h, onto = Some h /\ carried h
  | ReconcileAuto _ _ => forall h, onto = Some h -> carried h
  | _ => onto = su_onto (command_submission r id)
  end.

Lemma payload_ok r : Forall carried (command_texts r) -> json_ok (PDict (command_payload r)).
Proof.
  intros Ht. destruct r as [t []|t x|t x h|t [h|] []|t|t [h|]|a b]; cbn [command_texts] in Ht;
    repeat (apply Forall_cons in Ht as [? Ht]); written_payload; message_ok.
Qed.

Lemma acknowledgement_accepted r id onto cls ack :
  Forall carried (command_texts r) -> resolved r id onto -> (forall k, cls = Some k -> carried k) ->
  (let u := command_submission r id in
   _operator_ack (su_method u) (su_ticket_id u) onto (su_execution_id u) cls) = Ok ack ->
  json_ok (PDict ack) /\ check_answer r (canon_dict ack) = Ok tt.
Proof.
  intros Ht Ho Hc. cbv zeta.
  destruct r as [t f|t x|t x h|t o f|t|t o|a b]; cbn [resolved command_submission] in Ho;
    cbn [command_texts] in Ht; repeat (apply Forall_cons in Ht as [? Ht]);
    unfold _operator_ack; cbn -[accepted_for]; unfold accepted_for; cbn [app];
    try (cbn in Ho; subst onto); try destruct Ho as (h & -> & Hh).
  all: try (destruct onto as [h|]; [pose proof (Ho h eq_refl)|]).
  all: try (destruct cls as [k|]; [pose proof (Hc k eq_refl)|]).
  all: cbn [app]; intros [= <-]; split; [message_ok|].
  all: sort_members; unfold decode_retry_ack, decode_drop_ack, check_recovery, check_update_base,
    decode_reconcile_resume_ack, check_auto, decode_reconcile_control_ack, decode_reconcile_ack, acknowledged.
  all: cbn -[nonempty_str]; rewrite ?nonempty_carried by done; cbn; by rewrite ?String.eqb_refl.
Qed.

(** C21: a mutating command survives the wire in both directions.  The request the
    client encodes is the one the service reads, and the service submits exactly
    the command with its arguments under the client's request id; and whatever
    the owner acknowledges for that submission, with the target and the
    classification it resolved, is encoded, read back under the same id and
    accepted by the client's check. *)
Theorem command_over_the_wire r id lifecycle :
  carried id -> Forall carried (command_texts r) ->
  (exists text received, encode_request id (command_method r) (command_payload r) = Ok text /\
     parse_request text = Ok received /\
     mutation_of lifecycle received = Ok (Submit (command_submission r id))) /\
  (forall onto cls ack, resolved r id onto -> (forall k, cls = Some k -> carried k) ->
     (let u := command_submission r id in
      _operator_ack (su_method u) (su_ticket_id u) onto (su_execution_id u) cls) = Ok ack ->
     exists text result, encode_success_response id ack = Ok text /\
       parse_response text = Ok (mkResponse PROTOCOL_VERSION id true (Some result) None) /\
       check_answer r result = Ok tt).
Proof.
  intros Hid Ht. split.
  - destruct (request_reads_back id (command_method r) (command_payload r)) as (text & He & Hp);
      [done| |by apply payload_ok|].
    { destruct r as [t []| | | | | |]; (split; [discriminate|by apply ascii_utf8]). }
    exists text. eexists. split_and!; [done|exact Hp|]. by apply mutation_of_command.
  - intros onto cls ack Ho Hc Ha.
    destruct (acknowledgement_accepted r id onto cls ack Ht Ho Hc Ha) as [Hok Hcheck].
    destruct (success_reads_back id ack Hid Hok) as (text & He & Hp). by exists text, (canon_dict ack).
Qed.

(** * A connection, message by message *)

Section Sessions.
Context {E : Type} `{IpcEngine E}.
Variable self : instance.

(** The error response to an exception, and whether it ends the connection. *)
Definition failure_reply (id : string) (e : exn) : res (string * bool) :=
  match exn_cls e with
  | IPCProtocolError code fatal =>
      response ← encode_error_response id code (exn_msg e); Ok (response, fatal)
  | _ =>
      if is_devlegate_error e || is_os_error e
      then response ← encode_error_response id "application_error" (exn_msg e); Ok (response, true)
      else Raise e
  end.

(** The reply to one payload. *)
Definition reply (payload : string) : py E (string * bool) :=
  match parse_request payload with
  | Raise e => py_lift (failure_reply "" e)
  | Ok request =>
      py_catch (result ← dispatch_request self request;
                response ← py_lift (encode_success_response (rq_request_id request) result);
                mret (response, false))
        always (fun e => py_lift (failure_reply (rq_request_id request) e))
  end.

(** The replies to the payloads of a connection, each computed in the state the
    earlier ones left, up to one that ends it or is too long to be sent; and the
    exception that escapes, when a failure has no reply. *)
Fixpoint session (payloads : list string) (e : E) : list string * option exn * E :=
  match payloads with
  | [] => ([], None, e)
  | payload :: rest =>
      match reply payload e with
      | (Raise x, e') => ([], Some x, e')
      | (Ok (response, fatal), e') =>
          if (MAX_PAYLOAD_BYTES <? byte_length response)%Z then ([], None, e')
          else if fatal then ([response], None, e')
          else let '(responses, x, e'') := session rest e' in (response :: responses, x, e'')
      end
  end.

(** A connection whose server does not stop. *)
Definition serving (e : E) (arrivals : list arrival) (k : sink) (n : nat) : connection :=
  mkConnection e arrivals k [] n.

Lemma failure_answered id admitted x e arrivals k n :
  answer_failure id admitted x (serving e arrivals k n) =
    (match failure_reply id x with Ok r => Ok (Some r) | Raise y => Raise y end, serving e arrivals k n).
Proof.
  unfold answer_failure, failure_reply, serving.
  destruct (exn_cls x); try (destruct (_ || _); [|done]);
    rewrite ?py_bind_run; cbn [stop_is_set cn_stops hd tl];
    by (destruct (encode_error_response _ _ _) eqn:Henc; cbn; unfold py_lift; cbn; rewrite ?Henc).
Qed.

Lemma request_answered payload e arrivals k n :
  answer_request self payload (serving e arrivals k n) =
    let '(r, e') := reply payload e in
    (match r with Ok r => Ok (Some r) | Raise y => Raise y end, serving e' arrivals k n).
Proof.
  unfold answer_request, reply. destruct (parse_request payload) as [request|x].
  2: { rewrite failure_answered. done. }
  unfold py_catch. rewrite !py_bind_run. unfold on_engine, serving. cbn [cn_engine].
  destruct (dispatch_request self request e) as [[result|x] e']; cbn [cn_arrivals cn_sink cn_stops cn_unsettled].
  - rewrite !py_bind_run, !py_lift_run.
    destruct (encode_success_response _ _) as [response|x]; [done|]. cbn [always]. exact (failure_answered _ _ _ _ _ _ _).
  - cbn [always]. exact (failure_answered _ _ _ _ _ _ _).
Qed.

(** A response on a stream that goes on. *)
Lemma response_sent response fatal e arrivals sent answers n :
  Forall productive answers ->
  exists answers', Forall productive answers' /\
    respond true response fatal (serving e arrivals (mkSink sent answers) (S n)) =
      if (MAX_PAYLOAD_BYTES <? byte_length response)%Z
      then (Ok false, serving e arrivals (mkSink sent answers') n)
      else (Ok (negb fatal), serving e arrivals (mkSink (sent +:+ frame_of response) answers') n).
Proof.
  intros Ha. unfold respond, py_finally, py_catch. rewrite !py_bind_run. unfold on_sink, serving.
  cbn [cn_sink]. destruct (Z.ltb_spec MAX_PAYLOAD_BYTES (byte_length response)) as [Hl|Hl].
  - exists answers. split; [done|]. unfold send_frame, encode_frame.
    rewrite (proj2 (Z.ltb_lt _ _) Hl). done.
  - destruct (send_productive response (mkSink sent answers) Hl Ha) as (answers' & Hs & Ha').
    exists answers'. split; [done|]. rewrite Hs. done.
Qed.

Lemma frame_served payload rest e chunks sent answers n :
  bounded payload -> nonempty chunks -> of_chars chunks = frame_of payload +:+ rest ->
  Forall productive answers ->
  exists chunks' answers', nonempty chunks' /\ of_chars chunks' = rest /\ Forall productive answers' /\
    serve_once self (serving e (pieces chunks) (mkSink sent answers) n) =
    match reply payload e with
    | (Raise x, e') => (Raise x, serving e' (pieces chunks') (mkSink sent answers) (S n))
    | (Ok (response, fatal), e') =>
        if (MAX_PAYLOAD_BYTES <? byte_length response)%Z
        then (Ok false, serving e' (pieces chunks') (mkSink sent answers') n)
        else (Ok (negb fatal), serving e' (pieces chunks') (mkSink (sent +:+ frame_of response) answers') n)
    end.
Proof.
  intros Hb Hne Hc Ha. pose proof (receive_decodes chunks Hne) as Hr.
  destruct (receive_frame (pieces chunks)) as [r left] eqn:Hrec. destruct Hr as [-> Hl].
  rewrite Hc, decode_frame_of in Hl by done. destruct (Hl _ _ eq_refl) as (chunks' & -> & Hne' & Hc').
  unfold serve_once. rewrite py_bind_run. cbn [stop_is_set serving cn_stops hd tl cn_engine cn_arrivals cn_sink cn_unsettled].
  rewrite py_bind_run. unfold py_catch. rewrite py_bind_run. unfold on_arrivals at 1.
  cbn [cn_arrivals cn_engine cn_sink cn_stops cn_unsettled]. rewrite Hrec, Hc, decode_frame_of by done.
  cbn [mret py_ret].
  unfold _admit_request. rewrite !py_bind_run. cbn [stop_is_set cn_stops hd tl cn_engine cn_arrivals cn_sink cn_unsettled].
  rewrite !py_bind_run. cbn [py_modify set_unsettled cn_stops cn_engine cn_arrivals cn_sink cn_unsettled mret py_ret negb].
  rewrite py_bind_run.
  match goal with |- context [answer_request self payload ?s] =>
    change s with (serving e (pieces chunks') (mkSink sent answers) (S n)) end.
  rewrite request_answered. destruct (reply payload e) as [[[response fatal]|x] e'].
  - destruct (response_sent response fatal e' (pieces chunks') sent answers n Ha) as (answers' & Ha' & Hs).
    exists chunks', answers'. split_and!; [done..|]. cbn [respond_with]. by rewrite Hs.
  - by exists chunks', answers.
Qed.

Lemma session_served payloads e chunks sent answers n :
  Forall bounded payloads -> nonempty chunks -> of_chars chunks = of_chars (map frame_of payloads) ->
  Forall productive answers ->
  let '(responses, x, e') := session payloads e in
  let '(r, s) := _serve_connection self (S (length payloads))
                   (serving e (pieces chunks) (mkSink sent answers) n) in
  r = match x with Some x => Raise x | None => Ok (Some tt) end /\
  cn_engine s = e' /\ sk_sent (cn_sink s) = sent +:+ of_chars (map frame_of responses) /\
  cn_unsettled s = match x with Some _ => S n | None => n end.
Proof.
  intros Hb. revert e chunks sent answers. induction Hb as [|p payloads Hp Hb IH];
    intros e chunks sent answers Hne Hc Ha.
  - cbn [session]. destruct Hne as [|c chunks Hcne Hne].
    + cbn. by rewrite str_app_nil_r.
    + rewrite of_chars_cons in Hc. pose proof (length_pos c Hcne). apply (f_equal String.length) in Hc.
      rewrite str_app_length in Hc. cbn in Hc. lia.
  - cbn [map] in Hc. rewrite of_chars_cons in Hc.
    destruct (frame_served p _ e chunks sent answers n Hp Hne Hc Ha)
      as (chunks' & answers' & Hne' & Hc' & Ha' & Hs).
    cbn [length]. set (k := S (length payloads)) in *. cbn [session _serve_connection].
    rewrite py_bind_run, Hs. destruct (reply p e) as [[[response fatal]|x] e'].
    + destruct (_ <? _)%Z; [cbn; by rewrite str_app_nil_r|]. destruct fatal; cbn [negb].
      * cbn. by rewrite ?str_app_nil_r.
      * specialize (IH e' chunks' (sent +:+ frame_of response) answers' Hne' Hc' Ha').
        destruct (session payloads e') as [[responses x] e'']. fold (serving e' (pieces chunks')
          (mkSink (sent +:+ frame_of response) answers') n).
        destruct (_serve_connection self k _) as [r s]. cbn [map]. rewrite of_chars_cons, <- str_app_assoc.
        exact IH.
    + cbn. by rewrite str_app_nil_r.
Qed.

(** C15: the server's loop over the bytes of a connection refines the exchange of
    messages: for any number of requests, cut into pieces in any way, the bytes it
    writes are exactly the frames of the replies, one per request and in order,
    each computed in the engine state the earlier ones left; the loop ends with
    the stream, after a reply that ends the connection, or when one is too long
    to be sent; and every admitted request is settled, unless an exception
    escapes the handler. *)
Theorem server_refines_session payloads e chunks answers :
  Forall bounded payloads -> Forall productive answers -> nonempty chunks ->
  of_chars chunks = of_chars (map frame_of payloads) ->
  let '(responses, x, e') := session payloads e in
  let '(r, s) := _serve_connection self (S (length payloads))
                   (mkConnection e (pieces chunks) (mkSink "" answers) [] 0) in
  r = match x with Some x => Raise x | None => Ok (Some tt) end /\
  cn_engine s = e' /\ sk_sent (cn_sink s) = of_chars (map frame_of responses) /\
  cn_unsettled s = match x with Some _ => 1 | None => 0 end.
Proof. intros Hb Ha Hne Hc. exact (session_served payloads e chunks "" answers 0 Hb Hne Hc Ha). Qed.
End Sessions.

(** * The loop ends *)

(** The reading part of the loop's measure: what may still be read. *)
Definition unread (arrivals : list arrival) : nat := waiting arrivals + length arrivals.

Lemma read_progress clean got size arrivals :
  let '(r, rest) := read_remaining clean got size arrivals in
  (length rest <= length arrivals)%nat /\
  (forall e, r = Raise e -> (length rest < length arrivals)%nat \/ exists k m, e = Exn (IPCProtocolError k true) m).
Proof.
  revert got size. induction arrivals as [|[chunk|e] arrivals IH]; intros got size;
    destruct size as [|n]; cbn [read_remaining]; try (by split; [cbn; lia|]).
  - split; [cbn; lia|]. intros e. destruct (_ && _); [done|]. intros [= <-]. right. eauto.
  - destruct (chunk =? "")%string.
    { split; [cbn; lia|]. intros e _. left. cbn. lia. }
    destruct (_ <=? _)%nat.
    + specialize (IH (got +:+ chunk) (S n - String.length chunk)).
      destruct (read_remaining _ _ _ _) as [r rest]. destruct IH as [Hl Hr]. cbn [length].
      split; [lia|]. intros e He. destruct (Hr e He); [left; lia|by right].
    + cbn [length]. split; [lia|done].
  - split; [cbn; lia|]. intros x _. left. cbn. lia.
Qed.

(** A read of a frame that fails without ending the connection, or succeeds, leaves
    less to read. *)
Lemma receive_progress arrivals r rest :
  receive_frame arrivals = (r, rest) ->
  match r with
  | Ok None => True
  | Ok (Some _) => (unread rest < unread arrivals)%nat
  | Raise e => (unread rest < unread arrivals)%nat \/ exists k m, e = Exn (IPCProtocolError k true) m
  end.
Proof.
  unfold receive_frame, _read_exact, unread. rewrite py_bind_run.
  pose proof (read_bounded true "" 4 arrivals) as Hb. pose proof (read_progress true "" 4 arrivals) as Hp.
  destruct (read_remaining true "" 4 arrivals) as [[[header|]|e] after]; destruct Hb as [Hb Hs], Hp as [Hl He].
  - destruct (Hs header eq_refl) as [_ Hw]. cbv zeta. destruct (_ <? _)%Z.
    { intros [= <- <-]. right. eauto. }
    pose proof (read_bounded false "" (N.to_nat (unpack_length header)) after) as Hb2.
    pose proof (read_progress false "" (N.to_nat (unpack_length header)) after) as Hp2.
    destruct (read_remaining false "" _ after) as [r2 rest2]. intros [= -> ->]. destruct Hb2 as [Hb2 _], Hp2 as [Hl2 _].
    destruct r as [[|]|]; [lia|done|left; lia].
  - by intros [= <- <-].
  - intros [= <- <-]. destruct (He e eq_refl); [left; lia|by right].
Qed.

Section Ends.
Context {E : Type} `{IpcEngine E}.
Variable self : instance.

(** A computation that does not touch what arrives. *)
Definition keeps_arrivals {A} (m : py (connection (E:=E)) A) : Prop :=
  forall s, cn_arrivals (snd (m s)) = cn_arrivals s.

Lemma kept_bind {A B} (m : py connection A) (f : A -> py connection B) :
  keeps_arrivals m -> (forall a, keeps_arrivals (f a)) -> keeps_arrivals (m ≫= f).
Proof.
  intros Hm Hf s. rewrite py_bind_run. specialize (Hm s). destruct (m s) as [[a|e] s1]; cbn in *; [|done].
  by rewrite Hf.
Qed.

Lemma kept_catch {A} (m : py connection A) p h :
  keeps_arrivals m -> (forall e, keeps_arrivals (h e)) -> keeps_arrivals (py_catch m p h).
Proof.
  intros Hm Hh s. unfold py_catch. specialize (Hm s). destruct (m s) as [[a|e] s1]; cbn in *; [done|].
  destruct (p e); cbn; [|done]. by rewrite Hh.
Qed.

Lemma kept_lift {A} (r : res A) : keeps_arrivals (py_lift r).
Proof. done. Qed.
Lemma kept_ret {A} (a : A) : keeps_arrivals (mret a).
Proof. done. Qed.
Lemma kept_stop : keeps_arrivals stop_is_set.
Proof. done. Qed.
Lemma kept_engine {A} (m : py E A) : keeps_arrivals (on_engine m).
Proof. intros s. unfold on_engine. by destruct (m _). Qed.
Lemma kept_sink {A} (m : py sink A) : keeps_arrivals (on_sink m).
Proof. intros s. unfold on_sink. by destruct (m _). Qed.
Lemma kept_unsettled f : keeps_arrivals (py_modify (set_unsettled f)).
Proof. done. Qed.

#[local] Hint Resolve kept_lift kept_ret kept_stop kept_engine kept_sink kept_unsettled : arrivals.
Ltac keeps_arrivals_tac :=
  repeat match goal with
  | |- keeps_arrivals (_ ≫= _) => apply kept_bind; [|intros ?]
  | |- keeps_arrivals (py_catch _ _ _) => apply kept_catch; [|intros ?]
  | |- keeps_arrivals (match ?x with _ => _ end) => destruct x
  | |- keeps_arrivals _ => solve [eauto with arrivals]
  end.

Lemma kept_failure id admitted e : keeps_arrivals (answer_failure id admitted e).
Proof. unfold answer_failure. keeps_arrivals_tac. Qed.
#[local] Hint Resolve kept_failure : arrivals.

Lemma kept_answer payload : keeps_arrivals (answer_request self payload).
Proof. unfold answer_request. keeps_arrivals_tac. Qed.

Lemma kept_respond admitted answer : keeps_arrivals (respond_with admitted answer).
Proof.
  destruct answer as [[response fatal]|]; [|done]. cbn [respond_with]. intros s. unfold respond, py_finally.
  assert (Hk : keeps_arrivals (sent ← py_catch (_ ← on_sink (send_frame response); mret true)
    (fun e => is_protocol_error e || is_os_error e) (fun _ => mret false); mret (sent && negb fatal)))
    by keeps_arrivals_tac.
  specialize (Hk s). match type of Hk with cn_arrivals (snd ?m) = _ => destruct m as [r s'] end.
  by destruct admitted.
Qed.

(** A pass after which the loop goes on has read something. *)
Lemma pass_progress s s' :
  serve_once self s = (Ok true, s') -> (unread (cn_arrivals s') < unread (cn_arrivals s))%nat.
Proof.
  unfold serve_once. rewrite py_bind_run.
  destruct (stop_is_set s) as [[stopping|] s0] eqn:E0; [|done].
  assert (Ha0 : cn_arrivals s0 = cn_arrivals s) by (by injection E0 as _ <-).
  destruct stopping; [done|]. rewrite <- Ha0. clear E0 Ha0. rewrite py_bind_run.
  unfold py_catch. rewrite py_bind_run. unfold on_arrivals.
  destruct (receive_frame (cn_arrivals s0)) as [r rest] eqn:Hr. apply receive_progress in Hr.
  destruct r as [[payload|]|e]; cbn [mret py_ret always].
  - rewrite py_bind_run. unfold _admit_request. rewrite py_bind_run.
    cbn [stop_is_set cn_stops cn_arrivals cn_engine cn_sink cn_unsettled].
    destruct (hd false (cn_stops s0)); [done|]. rewrite !py_bind_run.
    cbn [py_modify mret py_ret negb]. rewrite py_bind_run.
    match goal with |- context [answer_request self payload ?t] => pose proof (kept_answer payload t) as Hk;
      destruct (answer_request self payload t) as [[answer|] s1] end; [|done].
    intros Hs. pose proof (kept_respond true answer s1) as Hk'. rewrite Hs in Hk'.
    cbn in Hk, Hk'. by rewrite Hk', Hk.
  - done.
  - destruct Hr as [Hr|(k & m & ->)].
    + rewrite py_bind_run.
      match goal with |- context [answer_failure "" false e ?t] => pose proof (kept_failure "" false e t) as Hk;
        destruct (answer_failure "" false e t) as [[answer|] s1] end; [|done].
      cbn [mret py_ret]. intros Hs. pose proof (kept_respond false answer s1) as Hk'. rewrite Hs in Hk'.
      cbn in Hk, Hk'. by rewrite Hk', Hk.
    + rewrite py_bind_run. cbn [answer_failure exn_cls exn_msg]. rewrite py_bind_run. unfold py_lift.
      destruct (encode_error_response "" k m) as [response|]; [|done]. cbn [mret py_ret respond_with].
      unfold respond, py_finally. rewrite py_bind_run. destruct (py_catch _ _ _ _) as [[[]|] s1]; done.
Qed.

(** C33: the handler of a connection ends, whatever arrives, however the streams
    break, whatever the engine does and whenever the server stops: every pass
    after which its loop goes on has read at least a byte or met a fault. *)
Theorem server_loop_ends s n :
  (unread (cn_arrivals s) < n)%nat -> fst (_serve_connection self n s) <> Ok None.
Proof.
  revert s. induction n as [|n IH]; intros s Hn; [lia|]. cbn [_serve_connection]. rewrite py_bind_run.
  destruct (serve_once self s) as [[[]|e] s'] eqn:Hs; [|done|done].
  apply IH. apply pass_progress in Hs. lia.
Qed.
End Ends.

(** * Examples *)

(** An engine that acknowledges every submission and remembers it. *)
#[export] Instance recording_engine : IpcEngine (list submission) := {
  published_status := fun _ => None;
  published_live_execution := fun _ => None;
  published_retry_candidates := fun _ => [];
  ipc_state := fun _ => [];
  ipc_lifecycle_status := fun _ => [("ready", PBool true)];
  ipc_submit := fun u e =>
    (_operator_ack (su_method u) (su_ticket_id u) (su_onto u) (su_execution_id u) None, e ++ [u]);
  ipc_lifecycle := None
}.

Definition sample_instance : instance := mkInstance "1.0" 7 "i1".

Definition message (l : list (string * pyval)) : string := dumps utf8_style (PDict l).

Definition retry_message (id : string) : string :=
  message [("version", PInt 1); ("id", PStr id); ("method", PStr "retry");
           ("payload", PDict [("ticket_id", PStr "T1")])].

(** Every byte on its own. *)
Definition byte_pieces (s : string) : list string :=
  map (fun c => String c "") (String.list_ascii_of_string s).

Lemma command_over_the_wire_witness :
  exists text received,
    encode_request "r1" "reconcile-update-base" [("ticket_id", PStr "T1"); ("rewrite_published", PBool true)] =
      Ok text /\ parse_request text = Ok received /\
    mutation_of true received = Ok (Submit (submit_reconcile_update_base "T1" None true "r1")).
Proof.
  apply (command_over_the_wire (UpdateBase "T1" None true) "r1" true).
  - split; [discriminate | by apply ascii_utf8].
  - constructor; [split; [discriminate | by apply ascii_utf8] | constructor].
Defined.

Lemma server_refines_session_witness :
  let payloads := [retry_message "r1"; "nonsense"; retry_message "r2"] in
  let '(responses, x, e) := session sample_instance payloads [] in
  length responses = 3 /\ x = None /\ map su_request_id e = ["r1"; "r2"] /\
  let '(r, s) := _serve_connection sample_instance 4
     (mkConnection [] (pieces (byte_pieces (of_chars (map frame_of payloads)))) (mkSink "" [Takes 5]) [] 0) in
  sk_sent (cn_sink s) = of_chars (map frame_of responses).
Proof.
  intros payloads.
  pose proof (server_refines_session sample_instance payloads []
    (byte_pieces (of_chars (map frame_of payloads))) [Takes 5]) as Hs.
  destruct (session sample_instance payloads []) as [[responses x] e] eqn:Hsession.
  vm_compute in Hsession. injection Hsession as <- <- <-.
  split_and!; [reflexivity|reflexivity|reflexivity|].
  change (S (length payloads)) with 4 in Hs.
  destruct (_serve_connection sample_instance 4 _) as [r s]. apply Hs.
  - repeat constructor; vm_compute; discriminate.
  - repeat constructor.
  - vm_compute. repeat constructor; discriminate.
  - vm_compute. reflexivity.
Defined.

Lemma server_loop_ends_witness :
  let s := mkConnection ([] : list submission) [Arrives "abc"; Breaks (Exn PyOSError "reset")] (mkSink "" []) [] 0 in
  fst (_serve_connection sample_instance 6 s) <> Ok None.
Proof.
  intros s. apply (server_loop_ends sample_instance s 6). vm_compute. lia.
Defined.

Definition surrogate_request : string :=
  "{" +:+ dq "id" +:+ ":" +:+ dq (BSL +:+ "ud800") +:+ "," +:+ dq "method" +:+ ":" +:+ dq "retry" +:+ "," +:+
  dq "payload" +:+ ":{" +:+ dq "ticket_id" +:+ ":" +:+ dq "T1" +:+ "}," +:+ dq "version" +:+ ":1}".

(** a request whose id is an unpaired surrogate, which JSON can write and no
    response can carry, is submitted and never answered: encoding the response
    fails, encoding the error response fails too, and that exception leaves the
    handler, so that the connection's thread dies, later requests on it are not
    read, and the admitted response stays unsettled. *)
Theorem surrogate_id_is_never_answered :
  let bytes := of_chars (map frame_of [surrogate_request; retry_message "r2"]) in
  let '(r, s) := _serve_connection sample_instance 9
    (mkConnection [] (pieces (byte_pieces bytes)) (mkSink "" []) [] 0) in
  r = protocol_error "invalid_request" "message is not JSON encodable" false /\
  map su_ticket_id (cn_engine s) = ["T1"] /\ sk_sent (cn_sink s) = "" /\ cn_unsettled s = 1 /\
  waiting (cn_arrivals s) = String.length (frame_of (retry_message "r2")).
Proof. vm_compute. repeat split. Qed.
