(* ===== verification/IpcOutcome.v ===== *)
(** What a client of the service knows: whatever becomes of its connections, the
    outcome of a mutation says whether a response arrived and whether anything was
    sent. *)

From S2P Require Export IpcSession.

(** * What a client knows *)

Lemma written_prefix data sent answers :
  exists rest, sent +:+ data = sk_sent (snd (write_all data sent answers)) +:+ rest.
Proof.
  revert data sent. induction answers as [|[n|e] answers IH]; intros data sent; cbn [write_all];
    destruct (String.eqb_spec data "") as [->|Hd]; try (exists ""; reflexivity).
  - exists "". by rewrite str_app_nil_r.
  - cbv zeta. destruct (_ =? 0)%nat; [by exists data|].
    destruct (IH (drop_bytes (Nat.min n (String.length data)) data)
                (sent +:+ take_bytes (Nat.min n (String.length data)) data)) as (rest & Hr).
    exists rest. rewrite <- Hr, str_app_assoc, take_drop_bytes by lia. done.
  - by exists data.
Qed.

Lemma sent_prefix payload k :
  exists rest, sk_sent k +:+ frame_of payload = sk_sent (snd (send_frame payload k)) +:+ rest.
Proof.
  unfold send_frame, encode_frame. rewrite !py_bind_run. unfold py_lift.
  destruct (_ <? _)%Z; [by exists (frame_of payload)|]. rewrite py_bind_run.
  change (pack_length _ +:+ payload) with (frame_of payload).
  pose proof (written_prefix (frame_of payload) (sk_sent k) (sk_answers k)) as Hp.
  destruct (write_all _ _ _) as [[[]|e] k']; cbn in Hp; [|exact Hp]. unfold flush.
  by destruct (sk_answers k') as [|[|] ?].
Qed.

(** The operating system reports faults of streams as [OSError]. *)
Definition os_arrival (a : arrival) : Prop := match a with Breaks e => is_os_error e = true | Arrives _ => True end.
Definition os_acceptance (a : acceptance) : Prop := match a with Fails e => is_os_error e = true | Takes _ => True end.
Definition os_channel (c : channel) : Prop :=
  (forall e, ch_connect c = Some e -> is_os_error e = true) /\
  Forall os_acceptance (ch_answers c) /\ Forall os_arrival (ch_arrivals c).

(** The exceptions that [_request_once] catches. *)
Definition stream_error (e : exn) : bool := is_os_error e || is_protocol_error e.

Lemma read_faults clean got size arrivals :
  Forall os_arrival arrivals ->
  let '(r, rest) := read_remaining clean got size arrivals in
  Forall os_arrival rest /\ forall e, r = Raise e -> stream_error e = true.
Proof.
  intros Ha. revert got size. induction Ha as [|[chunk|e] arrivals Hc Ha IH]; intros got size;
    destruct size as [|n]; cbn [read_remaining]; try (by split; [constructor|]).
  - split; [constructor|]. intros e. destruct (_ && _); [done|]. by intros [= <-].
  - destruct (chunk =? "")%string.
    { split; [done|]. intros e. destruct (_ && _); [done|]. by intros [= <-]. }
    destruct (_ <=? _)%nat; [apply IH|]. split; [by constructor|done].
  - split; [done|]. intros x [= <-]. unfold stream_error. by rewrite Hc.
Qed.

Lemma receive_faults arrivals e :
  Forall os_arrival arrivals -> fst (receive_frame arrivals) = Raise e -> stream_error e = true.
Proof.
  intros Ha. unfold receive_frame, _read_exact. rewrite py_bind_run.
  pose proof (read_faults true "" 4 arrivals Ha) as H1.
  destruct (read_remaining true "" 4 arrivals) as [[[header|]|x] rest]; destruct H1 as [Hr He].
  - cbv zeta. destruct (_ <? _)%Z; [by intros [= <-]|].
    pose proof (read_faults false "" (N.to_nat (unpack_length header)) rest Hr) as H2.
    destruct (read_remaining false "" _ rest) as [r rest']. cbn [fst]. apply H2.
  - done.
  - cbn [fst]. exact (He e).
Qed.

Lemma write_faults data sent answers e :
  Forall os_acceptance answers -> let '(r, k) := write_all data sent answers in
  Forall os_acceptance (sk_answers k) /\ (r = Raise e -> stream_error e = true).
Proof.
  intros Ha. revert data sent. induction Ha as [|[n|x] answers Hc Ha IH]; intros data sent; cbn [write_all];
    destruct (data =? "")%string; try (by split; [constructor|]).
  - cbv zeta. destruct (_ =? 0)%nat; [|apply IH]. split; [done|]. by intros [= <-].
  - split; [done|]. intros [= <-]. unfold stream_error. by rewrite Hc.
Qed.

Lemma encode_faults d e : _encode_json d = Raise e -> stream_error e = true.
Proof. unfold _encode_json. destruct (valid_utf8 _); [done|]. by intros [= <-]. Qed.

Lemma request_faults id method payload e : encode_request id method payload = Raise e -> stream_error e = true.
Proof.
  unfold encode_request, _require_text. destruct (id =? "")%string; [by intros [= <-]|].
  destruct (method =? "")%string; [by intros [= <-]|]. apply encode_faults.
Qed.

Lemma send_faults payload k e :
  Forall os_acceptance (sk_answers k) -> fst (send_frame payload k) = Raise e -> stream_error e = true.
Proof.
  intros Ha. unfold send_frame, encode_frame. rewrite !py_bind_run. unfold py_lift.
  destruct (_ <? _)%Z; [by intros [= <-]|]. rewrite py_bind_run.
  pose proof (write_faults (pack_length (N.of_nat (String.length payload)) +:+ payload) (sk_sent k)
    (sk_answers k) e Ha) as Hw.
  destruct (write_all _ _ _) as [[[]|x] k']; destruct Hw as [Hk He]; [|exact He].
  unfold flush. destruct Hk as [|[n|x] answers Hc Hk]; [done|done|]. intros [= <-].
  unfold stream_error. by rewrite Hc.
Qed.

Lemma response_faults payload e : parse_response payload = Raise e -> is_protocol_error e = true.
Proof.
  unfold parse_response. destruct (_decode_json payload) as [v|x] eqn:Hd; cbn [mbind res_bind].
  - unfold parse_success, parse_failure, malformed, protocol_error, raise.
    repeat case_match; intros [= <-]; done.
  - intros [= ->]. revert Hd. unfold _decode_json. repeat case_match; intros [= <-]; done.
Qed.

Section Client.
Variables (id method : string) (payload : dict).
(** A mutation; otherwise a reading request. *)
Variable mutable : bool.

(** A beginning of the frame of the one request, possibly nothing. *)
Definition of_request (bytes : string) : Prop :=
  bytes = "" \/ exists text rest, encode_request id method payload = Ok text /\ frame_of text = bytes +:+ rest.

(** The connection brought a response to the request. *)
Definition responded (c : channel) (response : IPCResponse) : Prop :=
  exists text, fst (receive_frame (ch_arrivals c)) = Ok (Some text) /\
    parse_response text = Ok response /\ rs_request_id response = id.

(** What the outcome says about the connections it used and about what was sent on
    them. *)
Definition means {A} (channels : list channel) (new : list string) (value : A -> dict) (r : res A) : Prop :=
  match r with
  | Ok a => exists c response, c ∈ channels /\ responded c response /\ rs_ok response = true /\
              rs_result response = Some (value a)
  | Raise e =>
      match exn_cls e with
      | IPCClientError true _ _ => exists c response, c ∈ channels /\ responded c response /\ rs_ok response = false
      | IPCClientError false false _ => mutable = true -> new = []
      | IPCClientError false true _ => mutable = true
      | _ => True
      end
  end.

Lemma exchange_sends c : of_request (snd (exchange id method payload c)).
Proof.
  unfold exchange. rewrite py_bind_run. unfold py_lift.
  destruct (encode_request id method payload) as [text|e] eqn:He; [|by left].
  pose proof (sent_prefix text (mkSink "" (ch_answers c))) as Hp.
  destruct (send_frame text _) as [r k]. cbn [fst snd sk_sent] in Hp. destruct Hp as [rest Hp].
  right. exists text, rest. split; [done|]. rewrite str_app_nil_l in Hp. by destruct r.
Qed.

Lemma exchange_receives c text :
  fst (exchange id method payload c) = Ok text -> fst (receive_frame (ch_arrivals c)) = Ok text.
Proof.
  unfold exchange. match goal with |- context [let '(r, k) := ?m in _] => destruct m as [r k] end.
  by destruct r.
Qed.

Lemma exchange_faults c e :
  os_channel c -> fst (exchange id method payload c) = Raise e -> stream_error e = true.
Proof.
  intros (_ & Hw & Hr). unfold exchange. rewrite py_bind_run. unfold py_lift.
  destruct (encode_request id method payload) as [text|x] eqn:He.
  - destruct (send_frame text _) as [r k] eqn:Hs. destruct r as [u|x]; cbn [fst].
    + by apply receive_faults.
    + intros [= ->]. apply (send_faults text (mkSink "" (ch_answers c))); [done|]. by rewrite Hs.
  - intros [= <-]. by apply request_faults in He.
Qed.

(** The meaning of a response. *)
Lemma interpret_means c text new :
  fst (receive_frame (ch_arrivals c)) = Ok text ->
  (forall d, interpret id method mutable text = Ok d -> exists response, responded c response /\
     rs_ok response = true /\ rs_result response = Some d) /\
  (forall e, interpret id method mutable text = Raise e -> means (A:=dict) [c] new (fun d => d) (Raise e)).
Proof.
  intros Hr. unfold interpret.
  assert (Hun : forall message e, (if mutable then uncertain method else unavailable message) = Raise (A := dict) e ->
    means (A := dict) [c] new (fun d => d) (Raise e)).
  { intros message e. destruct mutable eqn:Em; intros [= <-]; cbn; [done|]. intros Hm. congruence. }
  assert (Hnot : forall message d, (if mutable then uncertain method else unavailable message) <> Ok (A := dict) d)
    by (by destruct mutable).
  destruct text as [text|]; [|split; [by intros d ?%Hnot|apply Hun] ].
  destruct (parse_response text) as [response|x] eqn:Hp.
  - destruct (String.eqb_spec (rs_request_id response) id) as [Hid|_]; cbn [negb];
      [|split; [by intros d ?%Hnot|apply Hun] ].
    assert (Hresp : responded c response) by (by exists text).
    destruct (rs_ok response) eqn:Hok; cbn [negb].
    + destruct (rs_result response) as [d|] eqn:Hres; [|split; [by intros d ?%Hnot|apply Hun] ].
      split; [|done]. intros ? [= <-]. by exists response.
    + split; [done|]. intros e [= <-]. cbn [means exn_cls]. exists c, response. split_and!; [by left|done|done].
  - rewrite (response_faults _ _ Hp). split; [by intros d ?%Hnot|apply Hun].
Qed.

Lemma interpret_raises text e :
  interpret id method mutable text = Raise e -> exists a b k, exn_cls e = IPCClientError a b k.
Proof.
  unfold interpret. destruct text as [text|]; [|destruct mutable; intros [= <-]; by do 3 eexists].
  destruct (parse_response text) as [response|x] eqn:Hp.
  - repeat case_match; intros [= <-]; by do 3 eexists.
  - rewrite (response_faults _ _ Hp). destruct mutable; intros [= <-]; by do 3 eexists.
Qed.

Lemma once_means s :
  os_channel (hd refused_channel (tr_channels s)) ->
  let c := hd refused_channel (tr_channels s) in
  let '(r, s') := _request_once id method payload mutable s in
  tr_channels s' = tl (tr_channels s) /\
  (exists new, tr_sent s' = tr_sent s ++ new /\ (length new <= 1)%nat /\ Forall of_request new /\
    means [c] new (fun d => d) r) /\
  match r with Raise e => exists a b k, exn_cls e = IPCClientError a b k | Ok _ => True end.
Proof.
  cbv zeta. set (c := hd refused_channel (tr_channels s)). intros Hos. unfold _request_once. rewrite py_bind_run.
  unfold connect_and_exchange. fold c. destruct (ch_connect c) as [e|] eqn:Hcon.
  - rewrite (proj1 Hos e Hcon). cbn. split_and!; [done| |by do 3 eexists].
    exists []. rewrite app_nil_r. split_and!; [done|cbn; lia|constructor|done].
  - pose proof (exchange_sends c) as Hsent. pose proof (exchange_receives c) as Hrec.
    pose proof (fun e => exchange_faults c e Hos) as Hf.
    destruct (exchange id method payload c) as [r sent]. cbn [fst snd] in *.
    destruct r as [text|e]; cbn [tr_channels tr_sent py_lift].
    + destruct (interpret_means c text [sent] (Hrec text eq_refl)) as [Hok Herr].
      split; [done|]. split.
      * exists [sent]. split_and!; [done|cbn; lia|by constructor|].
        destruct (interpret _ _ _ _) as [d|e] eqn:Hi; [|by apply Herr].
        destruct (Hok d eq_refl) as (response & ? & ? & ?). exists c, response. split_and!; [by left|done..].
      * destruct (interpret _ _ _ _) as [d|e] eqn:Hi; [done|]. by eapply interpret_raises.
    + specialize (Hf e eq_refl). unfold stream_error in Hf. rewrite Hf.
      destruct mutable eqn:Em; cbn; (split; [done|]); (split; [|by do 3 eexists]); exists [sent];
        (split_and!; [done|cbn; lia|by constructor|]); [done|intros Hm; congruence].
Qed.

(** A connection that answered was one of those it was given. *)
Lemma channel_of l l' c response :
  l ⊆ l' -> c ∈ [hd refused_channel l] -> responded c response -> c ∈ l'.
Proof.
  intros Hl Hc (text & Hr & _). apply list_elem_of_singleton in Hc as ->.
  destruct l as [|c l]; [|apply Hl; by left]. discriminate Hr.
Qed.

Lemma means_hd l l' new new' (r : res dict) :
  l ⊆ l' -> (forall e, r = Raise e -> new' = new) ->
  means [hd refused_channel l] new (fun d => d) r -> means l' new' (fun d => d) r.
Proof.
  intros Hl Hn. destruct r as [d|e]; cbn [means].
  - intros (c & response & Hc & Hr & H1 & H2). exists c, response.
    split_and!; [by apply (channel_of l l' c response)|done..].
  - rewrite (Hn e eq_refl). destruct (exn_cls e); try done. destruct application; [|by destruct uncertain].
    intros (c & response & Hc & Hr & H1). exists c, response.
    split_and!; [by apply (channel_of l l' c response)|done..].
Qed.

(** C16: what a client's outcome says, however the connections behave.  All that was
    ever sent are beginnings of the frame of this one request, with its one id, on
    at most one connection, or two for a mutation.  A result or an application
    error is the service's response to this request.  A definite failure of a
    mutation that is not an application error means that nothing was sent (a
    reading request may fail definitely after it was sent), and only a mutation is
    ever reported uncertain.  The client always ends with a result or one of its
    errors. *)
Theorem client_knows_what_was_sent s :
  Forall os_channel (tr_channels s) ->
  let '(r, s') := ipc_request id method payload mutable s in
  (exists new, tr_sent s' = tr_sent s ++ new /\ (length new <= if mutable then 2 else 1)%nat /\
     Forall of_request new /\
     match r with
     | Ok None => False
     | Ok (Some d) => means (tr_channels s) new (fun d => d) (Ok d)
     | Raise e => means (A:=dict) (tr_channels s) new (fun d => d) (Raise e) /\
         exists a b k, exn_cls e = IPCClientError a b k
     end).
Proof.
  intros Hos. unfold ipc_request.
  assert (Hhd : forall l, Forall os_channel l -> os_channel (hd refused_channel l)).
  { intros l []; [|done]. split; [by intros e [= <-]|by split; constructor]. }
  assert (Hone : exists n, (if mutable then 2 else 1) = S n /\ n = if mutable then 1 else 0)
    by (destruct mutable; by eexists). destruct Hone as (n & -> & Hn).
  cbn [request_attempts]. unfold py_catch at 1. rewrite py_bind_run.
  pose proof (once_means s (Hhd _ Hos)) as H1.
  destruct (_request_once id method payload mutable s) as [r s1].
  destruct H1 as (Hch & (new & Hs & Hl & Hf & Hm) & Hc).
  destruct r as [d|e]; cbn [mret py_ret].
  { exists new. split_and!; [done|lia|done|]. by apply (means_hd (tr_channels s) _ new). }
  destruct Hc as (a & b & k & Hc). rewrite Hc, andb_false_r. cbn [andb].
  destruct (negb mutable || negb b || _) eqn:Hend.
  { cbn [py_lift]. exists new. split_and!; [done|lia|done| |by do 3 eexists].
    by apply (means_hd (tr_channels s) _ new). }
  apply orb_false_iff in Hend as [[Emut Eb]%orb_false_iff _]. apply negb_false_iff in Emut, Eb. subst b.
  rewrite Emut in Hn. subst n. cbn [request_attempts].
  assert (Hos1 : Forall os_channel (tr_channels s1)) by (rewrite Hch; by destruct Hos).
  unfold py_catch. rewrite py_bind_run. pose proof (once_means s1 (Hhd _ Hos1)) as H2.
  destruct (_request_once id method payload mutable s1) as [r2 s2].
  destruct H2 as (_ & (new2 & Hs2 & Hl2 & Hf2 & Hm2) & Hc2).
  assert (Hsub : tr_channels s1 ⊆ tr_channels s).
  { rewrite Hch. destruct (tr_channels s); [done|]. cbn. set_solver. }
  assert (Hsent : tr_sent s2 = tr_sent s ++ new ++ new2) by (by rewrite Hs2, Hs, app_assoc).
  assert (Hlen : (length (new ++ new2) <= 2)%nat) by (rewrite List.length_app; lia).
  assert (Hall : Forall of_request (new ++ new2)) by (by apply Forall_app).
  destruct r2 as [d|e2]; cbn [mret py_ret].
  { exists (new ++ new2). split_and!; [done..|]. by apply (means_hd (tr_channels s1) _ new2). }
  destruct Hc2 as (a2 & b2 & k2 & Hc2). rewrite Hc2, orb_true_r, Emut.
  change (true && (0 <? 1)%nat && negb a2) with (negb a2).
  destruct a2; cbn [negb py_lift]; exists (new ++ new2); split_and!; try done; [|by do 3 eexists|].
  - cbn [means] in *. rewrite Hc2 in *.
    destruct Hm2 as (c & response & Hin & Hr & Hok). exists c, response. split_and!; [|done..].
    by apply (channel_of (tr_channels s1) _ _ response).
  - split; [done|by do 3 eexists].
Qed.
End Client.

(** The connection is cut after the request is sent, and the second one refused. *)
Definition cut_after_sending : transport :=
  mkTransport [mkChannel None [] [Breaks (Exn PyOSError "reset")]; refused_channel] [].

Definition retry_t1 : py transport (option dict) :=
  ipc_request "r1" "retry" [("ticket_id", PStr "T1")] true.

Lemma client_knows_what_was_sent_witness :
  fst (retry_t1 cut_after_sending) = Raise (Exn (IPCClientError false true None) (_uncertain_message "retry")) /\
  tr_sent (snd (retry_t1 cut_after_sending)) = [frame_of (retry_message "r1")] /\
  exists new, tr_sent (snd (retry_t1 cut_after_sending)) = new /\ (length new <= 2)%nat /\
    Forall (of_request "r1" "retry" [("ticket_id", PStr "T1")]) new.
Proof.
  split; [by vm_compute|]. split; [by vm_compute|].
  pose proof (client_knows_what_was_sent "r1" "retry" [("ticket_id", PStr "T1")] true cut_after_sending) as Hs.
  change (ipc_request _ _ _ _ cut_after_sending) with (retry_t1 cut_after_sending) in Hs.
  destruct (retry_t1 cut_after_sending) as [r s'].
  destruct Hs as (new & Hs & Hl & Hf & _); [|by exists new].
  constructor; [|constructor; [|constructor]]; (split; [by intros e [= <-]|]); split; repeat constructor.
Defined.
