(* ===== verification/WorkerPrompt.v ===== *)
(** The prompt of a worker, [src/devlegate/worker_prompt.py]: the sections of the
    prompt, and the fence that keeps the assignment, which the worker's operator
    does not control, from being read as a part of its structure. *)

From S2P Require Export PyStr.

Inductive WorkDirective : Type := FRESH | RESUME | REWORK.

Record WorkerPromptInput : Type := mkPromptInput {
  wp_assignment : string;
  wp_directive : WorkDirective
}.

(** The texts of the package's [default_templates/prompts]. *)
Record prompt_texts : Type := mkTexts {
  pt_core_contract : string;
  pt_directive : WorkDirective -> string
}.

Definition is_newline (a : Ascii.ascii) : bool :=
  (Ascii.N_of_ascii a =? 13)%N || (Ascii.N_of_ascii a =? 10)%N.

(** [value.strip("\r\n")] *)
Definition _content (value : string) : string :=
  String.string_of_list_ascii
    (rev (drop_while is_newline (rev (drop_while is_newline (String.list_ascii_of_string value))))).

Definition TILDE : Ascii.ascii := Ascii.ascii_of_N 126.

(** [max((len(run) for run in re.findall(r"~+", value)), default=0)], with the
    length of the run that ends here. *)
Fixpoint longest_run (run : nat) (value : list Ascii.ascii) : nat :=
  match value with
  | [] => run
  | a :: value =>
      if Ascii.eqb a TILDE then longest_run (S run) value
      else Nat.max run (longest_run 0 value)
  end.

Definition tildes (n : nat) : string := String.string_of_list_ascii (repeat TILDE n).

Definition fence_of (value : string) : string :=
  tildes (Nat.max 3 (longest_run 0 (String.list_ascii_of_string value) + 1)).

Definition _fenced_content (value : string) : string :=
  fence_of value +:+ "text" +:+ LF +:+ value +:+ LF +:+ fence_of value.

Section Prompt.
Variable texts : prompt_texts.

Definition prompt_sections (directive : WorkDirective) (assignment : string) : list (string * string) :=
  [("Core Worker Contract", pt_core_contract texts); ("Work Directive", pt_directive texts directive);
   ("Assigned Work", _fenced_content assignment)].

Definition build_worker_prompt (i : WorkerPromptInput) : res string :=
  let assignment := _content (wp_assignment i) in
  if (assignment =? "")%string then raise PyValueError "assigned work must not be empty"
  else Ok (String.concat (LF +:+ LF)
             (map (fun s => "## " +:+ fst s +:+ LF +:+ snd s)
                (prompt_sections (wp_directive i) assignment)) +:+ LF).
End Prompt.

(** * The fence *)

Lemma longest_run_mono n m value : (n <= m)%nat -> (longest_run n value <= longest_run m value)%nat.
Proof.
  revert n m. induction value as [|a value IH]; intros n m Hn; cbn [longest_run]; [done|].
  destruct (Ascii.eqb a TILDE); [apply IH; lia|lia].
Qed.

Lemma longest_run_repeat k n value : (n + k <= longest_run n (repeat TILDE k ++ value))%nat.
Proof.
  revert n. induction k as [|k IH]; intros n; cbn [repeat app].
  - rewrite Nat.add_0_r. revert n. induction value as [|a value IH]; intros n; cbn [longest_run]; [lia|].
    destruct (Ascii.eqb a TILDE); [etrans; [|apply IH]; lia|lia].
  - cbn [longest_run]. rewrite Ascii.eqb_refl. etrans; [|apply IH]. lia.
Qed.

Lemma longest_run_suffix n a value : (longest_run 0 value <= longest_run n (a ++ value))%nat.
Proof.
  revert n. induction a as [|x a IH]; intros n; cbn [app]; [apply longest_run_mono; lia|].
  cbn [longest_run]. destruct (Ascii.eqb x TILDE); [apply IH|]. etrans; [apply (IH 0%nat)|lia].
Qed.

Lemma longest_run_occurs k a b : (k <= longest_run 0 (a ++ repeat TILDE k ++ b))%nat.
Proof.
  etrans; [|apply longest_run_suffix]. etrans; [|apply longest_run_repeat]. lia.
Qed.

(** C38: the assignment cannot leave its section of the prompt: the fence around it
    occurs nowhere inside it, so that the first fence after the opening one is the
    closing one; and a prompt is refused only for an empty assignment. *)
Theorem assignment_stays_fenced texts i :
  let assignment := _content (wp_assignment i) in
  (forall before after, assignment <> before +:+ fence_of assignment +:+ after) /\
  (assignment <> "" -> exists structure, build_worker_prompt texts i =
     Ok (structure +:+ "## Assigned Work" +:+ LF +:+ fence_of assignment +:+ "text" +:+ LF +:+ assignment +:+
         LF +:+ fence_of assignment +:+ LF)) /\
  (assignment = "" -> exists e, build_worker_prompt texts i = Raise e).
Proof.
  intros assignment. split_and!.
  - intros before after Ha.
    set (k := Nat.max 3 (longest_run 0 (String.list_ascii_of_string assignment) + 1)).
    assert (Hk : (k <= longest_run 0 (String.list_ascii_of_string assignment))%nat).
    { rewrite Ha at 1. rewrite !list_ascii_app. unfold fence_of, tildes. fold k.
      rewrite String.list_ascii_of_string_of_list_ascii. apply longest_run_occurs. }
    subst k. lia.
  - intros Hne. unfold build_worker_prompt. fold assignment. apply String.eqb_neq in Hne. rewrite Hne.
    exists ("## Core Worker Contract" +:+ LF +:+ pt_core_contract texts +:+ LF +:+ LF +:+
            "## Work Directive" +:+ LF +:+ pt_directive texts (wp_directive i) +:+ LF +:+ LF).
    unfold prompt_sections, _fenced_content. cbn [map fst snd String.concat].
    f_equal. rewrite !str_app_assoc. reflexivity.
  - intros Ha. unfold build_worker_prompt. fold assignment. rewrite Ha. by eexists.
Qed.

Lemma assignment_stays_fenced_witness :
  let i := mkPromptInput ("a" +:+ LF +:+ "~~~~" +:+ LF +:+ "## Work Directive") FRESH in
  exists structure, build_worker_prompt (mkTexts "contract" (fun _ => "directive")) i =
    Ok (structure +:+ "## Assigned Work" +:+ LF +:+ tildes 5 +:+ "text" +:+ LF +:+ wp_assignment i +:+
        LF +:+ tildes 5 +:+ LF).
Proof.
  intros i. destruct (assignment_stays_fenced (mkTexts "contract" (fun _ => "directive")) i) as (_ & H & _).
  apply H. vm_compute. discriminate.
Defined.
