(* ===== verification/Engine.v ===== *)
(** The service engine as one machine, [src/devlegate/runtime.py]: its durable
    state, the repositories and the host it runs in, the attributes it keeps in
    memory, and everything it does outside of itself in the order it does it.
    Git commands of the other files are lifted into it; the views it publishes
    are collected and replaced here. *)

From S2P Require Export Lifecycle.

(** * The store and the host *)

(** [SQLiteRuntimeStore.observe]: the persisted value with its revision. *)
Class ObservableStore (S : Type) `{RuntimeStore S} : Type := {
  store_observe : db_failure -> S -> res (pyval * string)
}.

#[export] Instance sqlite_observable : ObservableStore SQLiteRuntimeStore := {
  store_observe := observe
}.

(** What a running worker calls back: its captured process identity, and the
    kind of the interruption that was sent to it. *)
Inductive worker_call : Type :=
  | Identified (identity : WorkerProcessIdentity)
  | Interrupted (kind : string).

(** The host: the project adapter of the product checkout, and the worker
    supervisor.  A worker that is started makes its calls, each of which may
    fail, and then ends with a result; supervision that drains starts none. *)
Class HostWorld (W : Type) : Type := {
  hw_project_context : W -> res unit;
  hw_observe_worker : W -> WorkerProcessIdentity -> string;
  hw_owns_worker : W -> string -> bool;
  hw_start : ExecutionWorkspace -> string -> string -> W -> option (list worker_call) * W;
  hw_finish : string -> list (option exn) -> W -> res WorkerRunResult * W
}.

(** * The machine *)

(** What the engine meets without having caused it: the successive answers of
    its stop event and of the lifecycle intent, fresh execution ids, and the
    failures of its database. *)
Record inputs : Type := mkInputs {
  in_stops : list bool;
  in_intents : list (option string);
  in_ids : list string;
  in_failures : list db_failure
}.

(** What the engine does: a command or a file operation, a durable state, the
    start of a worker. *)
Inductive effect : Type :=
  | Did (e : event)
  | Saved (state : dict)
  | Launched (workspace : ExecutionWorkspace) (prompt execution_id : string).

(** The attributes of [ServiceEngine] that are neither settings nor durable. *)
Record memory : Type := mkMemory {
  me_hosted : bool;                              (** [_stop_event is not None] *)
  me_owned_execution_id : option string;
  me_snapshot : ServiceSnapshot;
  me_status : option StatusSnapshot;
  me_live_execution : option dict;
  me_retry_candidates : list dict;
  me_drop_candidates : list dict;
  me_dirty_fingerprint : option string;
  me_iteration_diagnostic : option string;
  me_workflow_validation_succeeded : bool;
  me_automatic_drop_recovery : option string;
  me_foreground_abort : bool
}.

Definition set_owned (o : option string) (m : memory) : memory :=
  mkMemory (me_hosted m) o (me_snapshot m) (me_status m) (me_live_execution m) (me_retry_candidates m)
    (me_drop_candidates m) (me_dirty_fingerprint m) (me_iteration_diagnostic m)
    (me_workflow_validation_succeeded m) (me_automatic_drop_recovery m) (me_foreground_abort m).
Definition set_snapshot (v : ServiceSnapshot) (m : memory) : memory :=
  mkMemory (me_hosted m) (me_owned_execution_id m) v (me_status m) (me_live_execution m)
    (me_retry_candidates m) (me_drop_candidates m) (me_dirty_fingerprint m) (me_iteration_diagnostic m)
    (me_workflow_validation_succeeded m) (me_automatic_drop_recovery m) (me_foreground_abort m).
Definition set_views (status : StatusSnapshot) (live : option dict) (retry drop : list dict) (m : memory) : memory :=
  mkMemory (me_hosted m) (me_owned_execution_id m) (me_snapshot m) (Some status) live retry drop
    (me_dirty_fingerprint m) (me_iteration_diagnostic m) (me_workflow_validation_succeeded m)
    (me_automatic_drop_recovery m) (me_foreground_abort m).
Definition set_dirty (o : option string) (m : memory) : memory :=
  mkMemory (me_hosted m) (me_owned_execution_id m) (me_snapshot m) (me_status m) (me_live_execution m)
    (me_retry_candidates m) (me_drop_candidates m) o (me_iteration_diagnostic m)
    (me_workflow_validation_succeeded m) (me_automatic_drop_recovery m) (me_foreground_abort m).
Definition set_diagnostic (o : option string) (m : memory) : memory :=
  mkMemory (me_hosted m) (me_owned_execution_id m) (me_snapshot m) (me_status m) (me_live_execution m)
    (me_retry_candidates m) (me_drop_candidates m) (me_dirty_fingerprint m) o
    (me_workflow_validation_succeeded m) (me_automatic_drop_recovery m) (me_foreground_abort m).
Definition set_validated (b : bool) (m : memory) : memory :=
  mkMemory (me_hosted m) (me_owned_execution_id m) (me_snapshot m) (me_status m) (me_live_execution m)
    (me_retry_candidates m) (me_drop_candidates m) (me_dirty_fingerprint m) (me_iteration_diagnostic m)
    b (me_automatic_drop_recovery m) (me_foreground_abort m).
Definition set_drop_recovery (o : option string) (m : memory) : memory :=
  mkMemory (me_hosted m) (me_owned_execution_id m) (me_snapshot m) (me_status m) (me_live_execution m)
    (me_retry_candidates m) (me_drop_candidates m) (me_dirty_fingerprint m) (me_iteration_diagnostic m)
    (me_workflow_validation_succeeded m) o (me_foreground_abort m).
Definition set_foreground_abort (b : bool) (m : memory) : memory :=
  mkMemory (me_hosted m) (me_owned_execution_id m) (me_snapshot m) (me_status m) (me_live_execution m)
    (me_retry_candidates m) (me_drop_candidates m) (me_dirty_fingerprint m) (me_iteration_diagnostic m)
    (me_workflow_validation_succeeded m) (me_automatic_drop_recovery m) b.

Section Machine.
Context {W : Type} `{GitWorld W, !EngineWorld W, !HostWorld W}.
Context {St : Type} `{RuntimeStore St, !ObservableStore St}.

Record engine : Type := mkEngine {
  en_durable : durable (S := St);
  en_world : W;
  en_inputs : inputs;
  en_memory : memory;
  en_effects : list effect
}.

Definition en_state (s : engine) : dict := du_state (en_durable s).

Abbreviation E := (py engine).

Definition set_world (w : W) (new : list effect) (s : engine) : engine :=
  mkEngine (en_durable s) w (en_inputs s) (en_memory s) (en_effects s ++ new).

(** A computation on the repositories. *)
Definition on_git {A} (m : py (logged W) A) : E A := fun s =>
  let '(r, l) := m (mkLogged (en_world s) []) in (r, set_world (lg_world l) (map Did (lg_events l)) s).

Definition state_now : E dict := fun s => (Ok (en_state s), s).
Definition stored : E St := fun s => (Ok (du_store (en_durable s)), s).
Definition world : E W := fun s => (Ok (en_world s), s).
Definition remembered {A} (f : memory -> A) : E A := fun s => (Ok (f (en_memory s)), s).
Definition remember (f : memory -> memory) : E unit := fun s =>
  (Ok tt, mkEngine (en_durable s) (en_world s) (en_inputs s) (f (en_memory s)) (en_effects s)).

Definition set_inputs (i : inputs) (s : engine) : engine :=
  mkEngine (en_durable s) (en_world s) i (en_memory s) (en_effects s).

(** [self._stop_requested()] *)
Definition _stop_requested : E bool := fun s =>
  let i := en_inputs s in
  (Ok (hd false (in_stops i)),
   set_inputs (mkInputs (tl (in_stops i)) (in_intents i) (in_ids i) (in_failures i)) s).

(** [self.lifecycle_intent()] *)
Definition intent_now : E (option string) := fun s =>
  let i := en_inputs s in
  (Ok (hd None (in_intents i)),
   set_inputs (mkInputs (in_stops i) (tl (in_intents i)) (in_ids i) (in_failures i)) s).

(** [self._lifecycle_drain_pending()] *)
Definition drain_pending : E bool := intent ← intent_now; mret (negb (is_missing intent)).

Definition _stop_before_admission : E bool :=
  stopped ← _stop_requested;
  if (stopped : bool) then mret true else drain_pending.

(** [new_execution_id()] *)
Definition new_execution_id : E string := fun s =>
  let i := en_inputs s in
  (Ok (hd "" (in_ids i)),
   set_inputs (mkInputs (in_stops i) (in_intents i) (tl (in_ids i)) (in_failures i)) s).

(** The next failure of the database. *)
Definition next_failure : E db_failure := fun s =>
  let i := en_inputs s in
  (Ok (hd None (in_failures i)),
   set_inputs (mkInputs (in_stops i) (in_intents i) (in_ids i) (tl (in_failures i))) s).

Definition save_under (f : db_failure) (phase : string) (o : save_options) : E unit := fun s =>
  let '(r, d) := _save_state f phase o (en_durable s) in
  (r, mkEngine d (en_world s) (en_inputs s) (en_memory s)
        (en_effects s ++ match r with Ok _ => [Saved (du_state d)] | Raise _ => [] end)).

(** [self._save_state(phase, **options)] *)
Definition save (phase : string) (o : save_options) : E unit :=
  f ← next_failure; save_under f phase o.

(** [self._save_state(phase, **fields)] *)
Definition save_fields (phase : string) (fields : dict) : E unit :=
  save phase (mkSave false false false false fields).

(** The outcome of a computation as a value. *)
Definition attempt {S A} (m : py S A) : py S (res A) := fun s => let '(r, s') := m s in (Ok r, s').

(** [except p as error: raise k(f(error)) from error] *)
Definition recast {A} (p : exn -> bool) (k : exn_class) (f : string -> string) (m : E A) : E A :=
  py_catch m p (fun e => py_raise k (f (exn_msg e))).

Variable c : settings.
(** The path of the state file, in messages. *)
Variable state_file : string.
Variable loads_yaml : string -> string + dict.

(** * The service snapshot *)

(** The keyword arguments of [_publish_service_snapshot]: [None] is an argument
    that is not given. *)
Record snapshot_update : Type := mkUpdate {
  up_lifecycle : option string;
  up_worker_running : option bool;
  up_product : option (option GitObservation);
  up_control : option (option GitObservation);
  up_counts : option (list (string * Z));
  up_runnable : option (list (string * string));
  up_review : option (list (string * string));
  up_accepted : option (list (string * string));
  up_blocked_reason : option (option string)
}.

Definition no_update : snapshot_update := mkUpdate None None None None None None None None None.

Definition replaced_snapshot (state : dict) (current : ServiceSnapshot) (u : snapshot_update) : ServiceSnapshot :=
  let phase := py_str (get_or state "phase" (PStr "idle")) in
  let active := existsb (String.eqb phase) ["agent_pending"; "agent_running"] in
  let if_active (k : string) := if active then str_opt (get state k) else None in
  mkService (default (sv_lifecycle current) (up_lifecycle u)) phase (if_active "execution_stage")
    (default (sv_worker_running current) (up_worker_running u))
    (if_active "selected_ticket_id") (if_active "execution_id")
    (default (sv_product current) (up_product u)) (default (sv_control current) (up_control u))
    (default (sv_counts current) (up_counts u)) (default (sv_runnable current) (up_runnable u))
    (default (sv_review current) (up_review u)) (default (sv_accepted current) (up_accepted u))
    (default (sv_blocked_reason current) (up_blocked_reason u)).

Definition _publish_service_snapshot (u : snapshot_update) : E unit :=
  st ← state_now;
  remember (fun m => set_snapshot (replaced_snapshot st (me_snapshot m) u) m).

(** [self._publish_service_snapshot(lifecycle=..., worker_running=...)] and
    [(lifecycle="blocked", blocked_reason=...)] *)
Definition publish_worker (lifecycle : option string) (running : bool) : E unit :=
  _publish_service_snapshot (mkUpdate lifecycle (Some running) None None None None None None None).
Definition publish_blocked (reason : string) : E unit :=
  _publish_service_snapshot (mkUpdate (Some "blocked") None None None None None None None (Some (Some reason))).

Definition managed_states : list WorkflowState := _WORKFLOW_STATES.

Definition _publish_ticket_projection (store : TicketStore) (product control : option GitObservation)
    (blocked_reason : option string) : E unit :=
  _publish_service_snapshot
    (mkUpdate (Some (if negb (or_else blocked_reason "" =? "")%string then "blocked" else "processing")) None
       (Some product) (Some control) (Some (map (state_count store) managed_states))
       (Some (map id_and_title (ts_runnable store))) (Some (in_state store Review))
       (Some (in_state store Accepted)) (Some blocked_reason)).

(** * The status view *)

(** The persisted state and its revision, as a client of the store reads them. *)
Definition observed_state (f : db_failure) (store : St) : res (dict * string) :=
  '(v, fingerprint) ← as_devlegate (store_observe f store);
  if negb (is_dict v) || negb (is_str (get (dict_of v) "phase"))
  then invalid ("invalid state file: " +:+ state_file)
  else _ ← _validate_state_invariant (dict_of v); Ok (dict_of v, fingerprint).

Definition _status_state_observation : E (dict * string) :=
  _ ← on_git _assert_repository_owner;
  f ← next_failure;
  store ← stored;
  py_lift (observed_state f store).

Definition _status_git_observation : E git_observation :=
  st ← state_now;
  w ← world;
  control ← (if gw_is_dir w (st_control_worktree c)
             then
               usable ← py_catch (_ ← on_git (_validate_control_worktree c st); mret true)
                          (is_class WorkflowBlockedError) (fun _ => mret false);
               if (usable : bool)
               then
                 o ← on_git (_git_observation c st (st_control_worktree c) (st_control_branch c));
                 mret (Some o)
               else mret None
             else mret None);
  code ← on_git (_git_observation c st (st_repo c) (st_remote_branch c));
  mret (mkGit code control).

(** [_workflow_fingerprint(self.control_worktree, self._workflow_paths())] *)
Definition control_workflow_fingerprint : E string :=
  w ← world;
  mret (_workflow_fingerprint (fun s => fingerprint_directory (gw_files w) (below (st_paths c s)))).

Definition live_execution_evidence : E (option dict) :=
  _ ← on_git _assert_repository_owner;
  st ← state_now;
  w ← world;
  owned ← remembered me_owned_execution_id;
  if negb (is_bound_phase (get st "phase")) then mret None else
  match get st "execution_id", get st "execution_ticket_id" with
  | PStr execution_id, PStr ticket_id =>
      if negb (eq_str (get st "selected_ticket_id") ticket_id) || negb (bool_decide (owned = Some execution_id))
      then mret None else
      let evidence := [("ticket_id", PStr ticket_id); ("execution_id", PStr execution_id);
                       ("stage", get st "execution_stage"); ("ownership", PStr "current-service")] in
      if negb (eq_str (get st "execution_stage") "worker-running") then mret (Some evidence)
      else if negb (hw_owns_worker w execution_id) then mret None
      else
        identity ← py_lift (_worker_identity_from_value (get st "worker_identity") (Some (PStr execution_id)));
        match identity with
        | Some i =>
            if (hw_observe_worker w i =? "matching-live")%string
            then mret (Some (evidence ++ [("identity_state", PStr "matching-live")]))
            else mret None
        | None => mret None
        end
  | _, _ => mret None
  end.

(** The candidates a snapshot offers for a retry. *)
Definition candidate_dict (id title reason kind : string) : dict :=
  [("id", PStr id); ("title", PStr title); ("reason", PStr reason); ("kind", PStr kind)].

Definition published_candidates (snapshot : StatusSnapshot) (interrupted : option RetryCandidate) : list dict :=
  let failed := List.filter fe_retryable (ss_failed_executions snapshot) in
  map (fun f => candidate_dict (fe_ticket_id f) (fe_title f) (fe_reason f) "failed") failed ++
  match interrupted with
  | Some k =>
      if forallb (fun f => negb (fe_ticket_id f =? rc_ticket_id k)%string) failed
      then [candidate_dict (rc_ticket_id k) (rc_title k) (rc_reason k) (rc_kind k)] else []
  | None => []
  end.

Definition control_store : E TicketStore := st ← state_now; on_git (_ticket_store c loads_yaml st).

Definition _publish_status_snapshot (snapshot : StatusSnapshot) : E unit :=
  let plan := ss_plan snapshot in
  let reason := if (pl_action plan =? "blocked")%string || negb (is_missing (ss_lifecycle_integration snapshot))
                then Some (pl_reason plan) else None in
  running ← remembered (fun m => sv_worker_running (me_snapshot m));
  intent ← intent_now;
  let lifecycle :=
    if bool_decide (intent = Some "restart") then "restarting"
    else if bool_decide (intent = Some "stop") then "stopping"
    else if (running : bool) then "worker"
    else if negb (or_else reason "" =? "")%string then "blocked" else "ready" in
  st ← state_now;
  interrupted ← _interrupted_retry_candidate control_store st;
  live ← live_execution_evidence;
  _ ← _publish_service_snapshot
        (mkUpdate (Some lifecycle) None (Some (Some (ss_code snapshot))) (Some (ss_control snapshot))
           (Some (ss_counts snapshot)) (Some (ss_runnable snapshot)) (Some (ss_review snapshot))
           (Some (ss_accepted snapshot)) (Some (if running then None else reason)));
  _ ← remember (fun m => set_views snapshot live (published_candidates snapshot interrupted)
                           (me_drop_candidates m) m);
  drops ← py_lift (_drop_candidate_from_state st);
  remember (fun m => set_views snapshot live (me_retry_candidates m) drops m).

(** Does [_make_execution_plan] inspect the bound workspace? *)
Definition inspects (st : dict) (store : TicketStore) (dirty branch_ok : bool) (code : GitObservation) : bool :=
  match _admission_barrier st store dirty branch_ok code with
  | Ok None =>
      eq_str (get st "phase") "agent_pending" &&
      match ticket_of store (get st "selected_ticket_id") with
      | Some t => is_state (tk_state t) Todo || is_state (tk_state t) Review
      | None => false
      end
  | _ => false
  end.

(** Its result, run in the repositories when it is needed. *)
Definition inspection (st : dict) (store : TicketStore) (dirty branch_ok : bool) (code : GitObservation)
    : E (res WorkspaceInspection) :=
  if inspects st store dirty branch_ok code
  then
    w ← world;
    on_git (attempt (_inspect_bound_execution_workspace (st_recursion_limit c) (st_repo c)
                       (st_execution_worktree_root c) (gw_files w) st))
  else mret (Raise (Exn PyAssertionError "")).

Definition make_snapshot (st : dict) (git : git_observation) (store : option TicketStore)
    (workflow_error : option string) : E StatusSnapshot :=
  i ← match store with
      | Some store =>
          inspection st store (is_dirty git)
            (branches_ok (st_remote_branch c) (st_control_branch c) git) (gt_code git)
      | None => mret (Raise (Exn PyAssertionError ""))
      end;
  live ← live_execution_evidence;
  w ← world;
  py_lift (_make_status_snapshot (st_remote_branch c) (st_control_branch c) (hw_observe_worker w)
             (fun _ => i) (gw_files w) (fingerprint_directory (gw_files w) (below (st_paths c Todo)))
             live st git store workflow_error).

Definition _status_view : E StatusSnapshot :=
  status_view _status_state_observation _status_git_observation control_workflow_fingerprint control_store
    make_snapshot (fun s => me_status (en_memory s)) _publish_status_snapshot.

Definition _refresh_published_status : E unit :=
  py_catch (_ ← _status_view; mret tt)
    (fun e => is_devlegate_error e || is_os_error e || is_class PySubprocessError e) (fun _ => mret tt).
End Machine.
