(* ===== verification/Execution.v ===== *)
(** An execution after its worker, [src/devlegate/runtime.py]: the observation of
    the product generation it was admitted at, automatic retry when only the
    product moved, reconciliation when it moved under changes, the recovery of a
    checkpoint and its publication after an interruption, and the final state. *)

From S2P Require Export Engine.

(** [dataclasses.replace(report, workspace_head=head)] *)
Definition with_workspace_head (head : string) (r : ExecutionReport) : ExecutionReport :=
  mkReport (rep_execution_id r) (rep_ticket_id r) (rep_code_base_head r) (rep_control_head r)
    (rep_execution_branch r) (rep_execution_path r) (Some head) (rep_result r)
    (rep_report_artifact r) (rep_report_sha256 r).

(** [claim.summary if claim is not None else reason] *)
Definition summary_of (r : ExecutionReport) : string :=
  match er_claim (rep_result r) with Some claim => cl_summary claim | None => er_reason (rep_result r) end.

Definition failed_conclusion (r : ExecutionReport) : bool :=
  (er_conclusion (rep_result r) =? "failed")%string.

(** [_reconciliation_evidence_ref] *)
Definition _reconciliation_evidence_ref (ticket_id execution_id : string) : string :=
  "refs/devlegate/reconciliation/" +:+ ticket_id +:+ "/" +:+ execution_id.

(** The dictionary of [_observe_product_generation]. *)
Record product_generation : Type := mkProduct {
  pg_classification : string;
  pg_stable : bool;
  pg_branch : option string;
  pg_local_head : string;
  pg_remote_head : string;
  pg_dirty : bool;
  pg_target_eligible : bool;
  pg_reason : string
}.

(** Its fields from the observations. *)
Definition classify_product (branch_ok : bool) (branch : option string) (dirty fetched : bool)
    (local_head remote_head admitted_head : string) : product_generation :=
  let moved (head : string) := negb (head =? "")%string && negb (head =? admitted_head)%string in
  let remote_observable := fetched && negb (remote_head =? "")%string in
  let target_eligible :=
    branch_ok && negb dirty && negb (local_head =? "")%string && negb (remote_head =? "")%string in
  let stable := target_eligible && (local_head =? admitted_head)%string && (remote_head =? admitted_head)%string in
  let observation :=
    (if branch_ok then [] else ["wrong product branch or detached checkout"]) ++
    (if dirty then ["product checkout is dirty"] else []) ++
    (if remote_observable then [] else ["product remote could not be observed"]) ++
    (if moved local_head then ["local product HEAD advanced"] else []) ++
    (if moved remote_head then ["remote product HEAD advanced"] else []) in
  mkProduct
    (if negb branch_ok || dirty || moved local_head then "unsafe-local"
     else if (local_head =? "")%string || negb remote_observable then "unobservable"
     else if stable then "stable" else "changed")
    stable branch local_head remote_head dirty target_eligible
    (match observation with [] => "stable" | _ => String.concat "; " observation end).

Section Execution.
Context {W : Type} `{GitWorld W, !EngineWorld W, !HostWorld W}.
Context {St : Type} `{RuntimeStore St, !ObservableStore St}.
Variable c : settings.
Variable state_file : string.
Variable loads_yaml : string -> string + dict.
(** The random names of temporary files. *)
Variables (randoms_md randoms_json : list string).

Abbreviation M := (py (logged W)).
Abbreviation E := (py (engine (W := W) (St := St))).

Definition refresh : E unit := _refresh_published_status c state_file loads_yaml.

(** * The product generation *)

(** [result.stdout.strip() if result.returncode == 0 else alternative] *)
Definition text_or (p : CompletedProcess) (alternative : string) : string :=
  if failed p then alternative else strip (stdout p).

Definition _observe_product_generation (admitted_head : string) : M product_generation :=
  branch_result ← _git (st_repo c) ["symbolic-ref"; "--quiet"; "--short"; "HEAD"];
  head_result ← _git (st_repo c) ["rev-parse"; "HEAD"];
  status_result ← _git (st_repo c) ["status"; "--porcelain"];
  fetch ← _git (st_repo c) ["fetch"; "--prune"; st_remote_name c; st_remote_branch c];
  remote_result ← _git (st_repo c)
                    ["rev-parse"; "--verify"; st_remote_name c +:+ "/" +:+ st_remote_branch c];
  let branch := if failed branch_result then None else Some (strip (stdout branch_result)) in
  mret (classify_product (bool_decide (branch = st_current_branch c)) branch
          (failed status_result || negb (stdout status_result =? "")%string) (negb (failed fetch))
          (text_or head_result "") (if failed fetch then "" else text_or remote_result "") admitted_head).

Definition _is_zero_delta_stale_product_drift (state : dict) (admitted_base : string)
    (checkpoint_head : option string) (product : product_generation) : M bool :=
  let remote_head := pg_remote_head product in
  if negb (bool_decide (checkpoint_head = Some admitted_base)) || negb (pg_target_eligible product) ||
     (remote_head =? admitted_base)%string ||
     negb (existsb (String.eqb (pg_local_head product)) [admitted_base; remote_head])
  then mret false
  else if negb (is_none (get state "execution_remote_head")) then mret false
  else match get state "execution_branch" with
  | PStr branch =>
      if (branch =? "")%string then mret false else
      published ← _execution_remote_head (st_repo c) (st_remote_name c) branch;
      match published with
      | Some _ => mret false
      | None =>
          ancestor ← _git (st_repo c) ["merge-base"; "--is-ancestor"; admitted_base; remote_head];
          mret (negb (failed ancestor))
      end
  | _ => mret false
  end.

Definition _zero_delta_retry_payload (report : ExecutionReport) (product : product_generation) : res dict :=
  if (pg_remote_head product =? "")%string
  then raise WorkflowBlockedError "zero-delta retry lacks a product generation"
  else Ok [("status", PStr "pending"); ("reason", PStr "automatic retry after zero-delta product drift");
           ("ticket_id", PStr (rep_ticket_id report)); ("stale_execution_id", PStr (rep_execution_id report));
           ("original_base", PStr (rep_code_base_head report));
           ("worker_checkpoint", opt_str (rep_workspace_head report));
           ("product_head", PStr (pg_remote_head product)); ("control_head", PStr (rep_control_head report))].

(** The save that both the worker's turn and the recovery make of a drift. *)
Definition save_zero_delta (report : ExecutionReport) (product : product_generation) : E unit :=
  retry ← py_lift (_zero_delta_retry_payload report product);
  save_fields "agent_running"
    [("execution_stage", PStr "lifecycle"); ("pending_execution_report", as_dict report);
     ("automatic_retry", PDict retry)].

(** * Reconciliation *)

(** The evidence reference is made to hold the checkpoint, unless it holds
    another one. *)
Definition pin_reconciliation_evidence (k : exn_class) (evidence_ref : string)
    (checkpoint_head : option string) : M unit :=
  existing ← rev_parse (st_repo c) evidence_ref;
  if negb (failed existing) && negb (bool_decide (Some (strip (stdout existing)) = checkpoint_head))
  then py_raise k "reconciliation evidence ref is inconsistent"
  else
  pinned ← _git (st_repo c) ["update-ref"; evidence_ref; default "None" checkpoint_head];
  if failed pinned then py_raise k "cannot pin reconciliation worker checkpoint evidence" else mret tt.

(** The record that asks for a reconciliation. *)
Definition reconciliation_record (report : ExecutionReport) (product : product_generation)
    (observed_product evidence_ref : string) (execution_remote_head control_head : pyval) : dict :=
  [("status", PStr "pending"); ("reason", PStr (pg_reason product)); ("resolution", PNone);
   ("ticket_id", PStr (rep_ticket_id report)); ("execution_id", PStr (rep_execution_id report));
   ("original_base", PStr (rep_code_base_head report)); ("observed_product", PStr observed_product);
   ("worker_checkpoint", opt_str (rep_workspace_head report));
   ("execution_remote_head", execution_remote_head);
   ("product_remote_head", PStr (pg_remote_head product));
   ("control_head", PStr (py_str control_head));
   ("execution_branch", PStr (rep_execution_branch report));
   ("execution_path", PStr (rep_execution_path report)); ("evidence_ref", PStr evidence_ref);
   ("product_branch", PStr (or_else (pg_branch product) "")); ("product_local_head", PStr (pg_local_head product));
   ("product_dirty", PBool (pg_dirty product)); ("product_observation", PStr (pg_reason product));
   ("product_target_eligible", PBool (pg_target_eligible product));
   ("execution_report", as_dict report)].

Definition save_reconciliation (product : product_generation) (record : dict) : E unit :=
  st ← state_now;
  control_head ← py_lift (getitem st "control_head");
  save_fields "idle"
    [("handled_remote_head", PStr (pg_remote_head product));
     ("handled_control_head", PStr (py_str control_head)); ("reconciliation", PDict record)].

Definition _persist_product_reconciliation (report : ExecutionReport) (product : product_generation)
    (execution_remote_head : pyval) : E unit :=
  if (pg_remote_head product =? "")%string
  then py_raise WorkflowBlockedError "changed product lacks an observed remote identity"
  else
  let observed_product :=
    if negb (pg_local_head product =? rep_code_base_head report)%string then pg_local_head product
    else pg_remote_head product in
  if (observed_product =? "")%string
  then py_raise WorkflowBlockedError "changed product lacks an observed identity"
  else
  let evidence_ref := _reconciliation_evidence_ref (rep_ticket_id report) (rep_execution_id report) in
  _ ← on_git (pin_reconciliation_evidence WorkflowBlockedError evidence_ref
                (rep_workspace_head report));
  st ← state_now;
  control_head ← py_lift (getitem st "execution_control_head");
  save_reconciliation product
    (reconciliation_record report product observed_product evidence_ref execution_remote_head control_head).

(** * Recovery of an execution *)

Definition _assert_product_checkout_unchanged (expected_branch : option string) (expected_head : string) : M unit :=
  branch_result ← _git (st_repo c) ["symbolic-ref"; "--quiet"; "--short"; "HEAD"];
  head_result ← _git (st_repo c) ["rev-parse"; "HEAD"];
  status_result ← _git (st_repo c) ["status"; "--porcelain"];
  if failed status_result
  then engine_error ("cannot verify product checkout after worker execution; " +:+
                     "execution isolation cannot be proven")
  else
  let branch := if failed branch_result then None else Some (strip (stdout branch_result)) in
  let observed_head := if failed head_result then None else Some (strip (stdout head_result)) in
  if negb (bool_decide (branch = expected_branch)) || negb (bool_decide (observed_head = Some expected_head)) ||
     negb (stdout status_result =? "")%string
  then engine_error ("product checkout changed while worker execution was active; " +:+
                     "execution isolation cannot be proven")
  else mret tt.

Definition _prove_product_generation (state : dict) : M unit :=
  match get state "local_head", get state "remote_head" with
  | PStr local_head, PStr remote_head =>
      _ ← _assert_product_checkout_unchanged (st_current_branch c) local_head;
      fetch ← _git (st_repo c) ["fetch"; "--prune"; st_remote_name c; st_remote_branch c];
      observed ← rev_parse (st_repo c) (st_remote_name c +:+ "/" +:+ st_remote_branch c);
      if failed fetch || moved_from remote_head observed
      then blocked "product checkout or remote changed before execution recovery"
      else mret tt
  | _, _ => blocked "execution product binding is incomplete"
  end.

Definition _execution_workspace_for_recovery (state : dict) : M ExecutionWorkspace :=
  if negb (all_text state workspace_fields)
  then blocked "execution workspace recovery binding is incomplete"
  else
  let base_head := field state "execution_base_head" in
  manager ← new_manager (st_repo c) (st_execution_worktree_root c) (field state "execution_ticket_id");
  if negb (binding_matches state manager) then blocked "execution workspace binding is invalid" else
  py_catch
    (_ ← _validate_base manager base_head;
     _ ← _validate_branch manager base_head;
     registrations ← _registrations manager;
     expected ← ask (fun w => gw_resolve w (mg_path manager));
     workspace ← _validate_existing manager (registration_at expected registrations) base_head;
     _ ← verify_submodules (st_recursion_limit c) manager workspace;
     mret workspace)
    (fun e => is_workspace_error e || is_os_error e)
    (fun e => blocked ("cannot validate execution workspace recovery: " +:+ exn_msg e)).

(** The report of the execution that the state records. *)
Definition pending_report (state : dict) : res ExecutionReport :=
  report ← catch (from_dict (get state "pending_execution_report")) is_report_error
             (fun _ => raise WorkflowBlockedError "pending execution report is invalid; recovery is ambiguous");
  _ ← _report_matches_execution_binding state report;
  Ok report.

(** The title of the report's ticket in the control store. *)
Definition ticket_title (ticket_id : string) : E string :=
  store ← control_store c loads_yaml;
  match ts_by_id store !! ticket_id with
  | Some t => mret (tk_title t)
  | None => py_raise PyKeyError (repr_str ticket_id)
  end.

(** The checkpoint of a workspace that is still at its start. *)
Definition make_checkpoint (workspace : ExecutionWorkspace) (report : ExecutionReport) : E string :=
  recast (fun e => is_workspace_error e || is_os_error e) WorkflowBlockedError
    (fun m => "cannot recover execution checkpoint: " +:+ m)
    (manager ← on_git (new_manager (st_repo c) (st_execution_worktree_root c) (rep_ticket_id report));
     title ← ticket_title (rep_ticket_id report);
     made ← on_git (checkpoint manager workspace (rep_execution_id report) title (summary_of report));
     mret (ck_after_head made)).

(** The stage [checkpointing]: the report with its checkpoint and the workspace,
    or nothing when the execution turned out to be a drift without changes. *)
Definition recover_checkpoint (state : dict) (report : ExecutionReport) (workspace : ExecutionWorkspace)
    (start_head : string) : E (option (ExecutionReport * ExecutionWorkspace)) :=
  let untouched := (ew_head workspace =? start_head)%string in
  drift ← (if untouched && negb (ew_dirty workspace)
           then
             product ← on_git (_observe_product_generation (rep_code_base_head report));
             drifted ← on_git (_is_zero_delta_stale_product_drift state (rep_code_base_head report)
                                 (Some start_head) product);
             mret (if (drifted : bool) then Some product else None)
           else mret None);
  match drift with
  | Some product => _ ← save_zero_delta (with_workspace_head start_head report) product; mret None
  | None =>
      _ ← on_git (_prove_product_generation state);
      checkpoint_head ← (if untouched then make_checkpoint workspace report
                         else
                           exact ← on_git (_checkpoint_commit_is_exact workspace (ew_head workspace) start_head);
                           if (exact : bool) then mret (ew_head workspace)
                           else py_raise WorkflowBlockedError
                                  "execution worktree contains ambiguous checkpoint history");
      let report := with_workspace_head checkpoint_head report in
      workspace ← on_git (_execution_workspace_for_recovery state);
      if negb (ew_head workspace =? checkpoint_head)%string || ew_dirty workspace
      then py_raise WorkflowBlockedError "execution worktree changed or is dirty after checkpoint"
      else
      _ ← save_fields "agent_running"
            [("execution_stage", PStr "post-checkpoint"); ("pending_execution_report", as_dict report)];
      mret (Some (report, workspace))
  end.

(** The stages [post-checkpoint] and [publishing]: the execution branch is
    published, unless it already is. *)
Definition recover_publication (state : dict) (report : ExecutionReport) (workspace : ExecutionWorkspace) : E unit :=
  match rep_workspace_head report with
  | None => py_raise WorkflowBlockedError "execution worktree HEAD does not match the proven checkpoint"
  | Some checkpoint_head =>
      if negb (ew_head workspace =? checkpoint_head)%string
      then py_raise WorkflowBlockedError "execution worktree HEAD does not match the proven checkpoint"
      else if ew_dirty workspace
      then py_raise WorkflowBlockedError "execution worktree is dirty after the proven checkpoint"
      else
      let observe_remote := _execution_remote_head (st_repo c) (st_remote_name c) (rep_execution_branch report) in
      remote ← on_git observe_remote;
      let expected := get state "execution_remote_head" in
      if negb (is_none expected) && negb (is_str expected)
      then py_raise WorkflowBlockedError "execution remote identity is invalid"
      else
      remote ← (if bool_decide (remote = str_opt expected)
                then _ ← on_git (_publish_execution_branch c workspace checkpoint_head (str_opt expected));
                     on_git observe_remote
                else mret remote);
      if negb (bool_decide (remote = Some checkpoint_head))
      then py_raise WorkflowBlockedError "execution remote does not match the proven checkpoint"
      else
      save_fields "agent_running"
        [("execution_stage", PStr "post-publication"); ("pending_execution_report", as_dict report)]
  end.

(** The stage [post-publication]. *)
Definition confirm_publication (report : ExecutionReport) (workspace : ExecutionWorkspace) : E unit :=
  if negb (bool_decide (rep_workspace_head report = Some (ew_head workspace)))
  then py_raise WorkflowBlockedError "execution worktree HEAD changed after publication"
  else
  remote ← on_git (_execution_remote_head (st_repo c) (st_remote_name c) (rep_execution_branch report));
  if negb (bool_decide (remote = rep_workspace_head report))
  then py_raise WorkflowBlockedError "published execution checkpoint is no longer exact"
  else
  save_fields "agent_running"
    [("execution_stage", PStr "lifecycle"); ("pending_execution_report", as_dict report)].

(** From a checkpoint to the stage [lifecycle], by way of the observation of the
    product generation. *)
Definition publish_recovered (state : dict) (stage : string) (report : ExecutionReport)
    (workspace : ExecutionWorkspace) : E unit :=
  product ← on_git (_observe_product_generation (rep_code_base_head report));
  let classification := pg_classification product in
  if (classification =? "unobservable")%string
  then py_raise WorkflowBlockedError
         "product remote could not be observed; retrying when connectivity returns"
  else if (classification =? "unsafe-local")%string && (pg_remote_head product =? "")%string
  then py_raise WorkflowBlockedError ("product generation is unsafe-local; " +:+ pg_reason product)
  else
  st ← state_now;
  drifted ← on_git (_is_zero_delta_stale_product_drift st (rep_code_base_head report)
                      (rep_workspace_head report) product);
  if (drifted : bool) then save_zero_delta report product
  else if negb (classification =? "stable")%string
  then
    _ ← _persist_product_reconciliation report product (get st "execution_remote_head");
    py_raise WorkflowBlockedError "product generation changed; reconciliation required"
  else
  let publishes := existsb (String.eqb stage) ["post-checkpoint"; "publishing"] in
  _ ← (if publishes then recover_publication state report workspace else mret tt);
  if publishes || (stage =? "post-publication")%string then confirm_publication report workspace else mret tt.

Definition _recover_checkpoint_publication : E unit :=
  state ← state_now;
  let stage := str_of (get state "execution_stage") in
  report ← py_lift (pending_report state);
  workspace ← on_git (_execution_workspace_for_recovery state);
  match get state "execution_start_head" with
  | PStr start_head =>
      if (start_head =? "")%string
      then py_raise WorkflowBlockedError "execution start HEAD is unavailable"
      else if (stage =? "checkpointing")%string
      then
        recovered ← recover_checkpoint state report workspace start_head;
        match recovered with
        | Some (report, workspace) => publish_recovered state "post-checkpoint" report workspace
        | None => mret tt
        end
      else publish_recovered state stage report workspace
  | _ => py_raise WorkflowBlockedError "execution start HEAD is unavailable"
  end.

(** The pending report, or the one on the control branch. *)
Definition recovered_report (state : dict) (ticket_id execution_id : string) : E ExecutionReport :=
  match get state "pending_execution_report" with
  | PDict pending =>
      py_lift (catch (from_dict (PDict pending)) is_report_error
                 (fun e => raise WorkflowBlockedError ("pending lifecycle report is invalid: " +:+ exn_msg e)))
  | _ =>
      _ ← on_git (_validate_control_worktree c state);
      w ← world;
      py_lift (catch (ExecutionResult.read (gw_files w) ticket_id execution_id) is_report_error
                 (fun _ => raise WorkflowBlockedError
                             "lifecycle report evidence is unavailable; recovery is ambiguous"))
  end.

(** The persisted automatic retry is pending. *)
Definition retry_pending (state : dict) : bool :=
  match get state "automatic_retry" with PDict d => eq_str (get d "status") "pending" | _ => false end.

Definition _recover_lifecycle_report : E ExecutionReport :=
  state ← state_now;
  match get state "execution_ticket_id", get state "execution_id" with
  | PStr ticket_id, PStr execution_id =>
      report ← recovered_report state ticket_id execution_id;
      if negb (is_str (get state "local_head")) || negb (is_str (get state "remote_head"))
      then py_raise WorkflowBlockedError "lifecycle product binding is incomplete"
      else if retry_pending state && bool_decide (rep_workspace_head report = Some (rep_code_base_head report))
      then
        _ ← py_lift (_report_matches_execution_binding state report);
        published ← on_git (_execution_remote_head (st_repo c) (st_remote_name c) (rep_execution_branch report));
        match published with
        | Some _ => py_raise WorkflowBlockedError "zero-delta retry execution branch is already published"
        | None => mret report
        end
      else
        _ ← on_git (_prove_product_generation state);
        _ ← on_git (_report_matches_execution_state c state report);
        mret report
  | _, _ => py_raise WorkflowBlockedError "lifecycle recovery identity is incomplete"
  end.

(** * The end of an execution *)

(** [x or y] *)
Definition or_text (o : option string) (alternative : string) : string := or_else o alternative.

(** [marker.get("execution_id") == execution_id] of a persisted mapping. *)
Definition names_execution (v : pyval) (key execution_id : string) : bool :=
  match v with PDict d => eq_str (get d key) execution_id | _ => false end.

(** The entry of [failed_executions] for a failed report. *)
Definition failure_entry (state : dict) (report : ExecutionReport) (kind : option string)
    (product_head product_remote_head control_head todo_fingerprint : string) (prior : pyval) : dict :=
  let interrupted := match kind with
    | Some k => existsb (String.eqb k) ["operator_abort"; "service_shutdown"]
    | None => false
    end in
  let base := [("execution_id", PStr (rep_execution_id report)); ("generation", get state "execution_base_head");
    ("product_head", PStr product_head); ("remote_head", PStr product_remote_head);
    ("control_head", PStr control_head); ("todo_fingerprint", PStr todo_fingerprint);
    ("reason", PStr (er_reason (rep_result report)))] in
  let d := if interrupted
           then dset (dset (dset base "interrupted" (PBool true)) "interruption_kind" (opt_str kind))
                  "reason" (PStr ("interrupted: " +:+ replace_char "_" " " (default "" kind)))
           else base in
  let d := if names_execution (get state "manual_retry_required") "execution_id" (rep_execution_id report)
           then dset d "manual_retry_required" (PBool true) else d in
  match prior with
  | PDict p => if is_true (get p "interrupted")
               then dset d "interrupted_execution_id" (get p "execution_id") else d
  | _ => d
  end.

(** The failed executions after the report: replaced, removed, or kept when the
    conclusion is not applied. *)
Definition failures_after (state : dict) (report : ExecutionReport) (apply_conclusion : bool)
    (kind : option string) (product_head product_remote_head control_head todo_fingerprint : string) : dict :=
  let failures := dict_of (get_or state "failed_executions" (PDict [])) in
  if apply_conclusion && failed_conclusion report
  then dset failures (rep_ticket_id report)
         (PDict (failure_entry state report kind product_head product_remote_head control_head
                   todo_fingerprint (get failures (rep_ticket_id report))))
  else if apply_conclusion
  then List.filter (fun kv => negb (fst kv =? rep_ticket_id report)%string) failures
  else failures.

(** The fields about the automatic retry that the report completes. *)
Definition completed_retry (state : dict) (report : ExecutionReport) : dict :=
  match get state "automatic_retry" with
  | PDict current =>
      if eq_str (get current "fresh_execution_id") (rep_execution_id report)
      then [("automatic_retry", PNone);
            ("last_automatic_retry",
             PDict (dset (dset current "status" (PStr "completed")) "completed_conclusion"
                      (PStr (er_conclusion (rep_result report)))))]
      else []
  | _ => []
  end.

(** The keyword arguments; [None] is an argument that is not given. *)
Record finalization : Type := mkFinal {
  fi_product_head : option string;
  fi_product_remote_head : option string;
  fi_clear_execution : bool;
  fi_automatic_retry : option pyval;
  fi_last_automatic_retry : option pyval;
  fi_apply_conclusion : bool
}.

Definition final_fields (state : dict) (report : ExecutionReport) (control_head todo_fingerprint : string)
    (o : finalization) : dict :=
  let text k := py_str (get_or state k (PStr "")) in
  let product_head := or_text (fi_product_head o) (text "local_head") in
  let product_remote_head := or_text (fi_product_remote_head o) (text "remote_head") in
  let kind := str_opt (get state "execution_interruption_kind") in
  dmerge
    [("handled_remote_head", PStr product_remote_head); ("handled_control_head", PStr control_head);
     ("handled_todo_fingerprint", PStr todo_fingerprint); ("execution_control_head", PStr control_head);
     ("failed_executions",
      PDict (failures_after state report (fi_apply_conclusion o) kind product_head product_remote_head
               control_head todo_fingerprint))]
    (match fi_automatic_retry o with Some v => [("automatic_retry", v)] | None => completed_retry state report end ++
     match fi_last_automatic_retry o with Some v => [("last_automatic_retry", v)] | None => [] end ++
     (if names_execution (get state "manual_retry_required") "execution_id" (rep_execution_id report)
      then [("manual_retry_required", PNone)] else [])).

Definition _finalize_execution_lifecycle (report : ExecutionReport) (control_head : string)
    (o : finalization) : E unit :=
  todo_fingerprint ← on_git (control_todo_fingerprint c);
  state ← state_now;
  hosted ← remembered me_hosted;
  _ ← (if fi_apply_conclusion o && failed_conclusion report &&
          eq_str (get state "execution_interruption_kind") "operator_abort" && negb hosted
       then remember (set_foreground_abort true) else mret tt);
  _ ← save "idle" (mkSave (fi_clear_execution o) false false false
                     (final_fields state report control_head todo_fingerprint o));
  _ ← publish_worker (Some "ready") false;
  refresh.

Definition lifecycle_of_report (report : ExecutionReport) : E string :=
  state ← state_now;
  on_git (_apply_execution_lifecycle c loads_yaml randoms_md randoms_json state report false true).

Definition _resolve_zero_delta_retry (report : ExecutionReport) : E Z :=
  state ← state_now;
  match get state "automatic_retry" with
  | PDict retry =>
      if negb (eq_str (get retry "status") "pending")
      then py_raise WorkflowBlockedError "zero-delta retry state is missing"
      else if negb (eq_str (get retry "ticket_id") (rep_ticket_id report) &&
                    eq_str (get retry "stale_execution_id") (rep_execution_id report) &&
                    eq_str (get retry "original_base") (rep_code_base_head report) &&
                    py_eq (get retry "worker_checkpoint") (opt_str (rep_workspace_head report)))
      then py_raise WorkflowBlockedError "zero-delta retry identity is inconsistent"
      else
      product ← on_git (_observe_product_generation (rep_code_base_head report));
      drifted ← on_git (_is_zero_delta_stale_product_drift state (rep_code_base_head report)
                          (rep_workspace_head report) product);
      if negb drifted
      then py_raise WorkflowBlockedError "zero-delta product drift is no longer safely provable"
      else
      control_head ← on_git (_persist_historical_execution_report c loads_yaml randoms_md randoms_json state report);
      store ← control_store c loads_yaml;
      let executable := match ts_by_id store !! rep_ticket_id report with
        | Some t => is_state (tk_state t) Todo && is_runnable store t
        | None => false
        end in
      _ ← on_git (_retire_zero_delta_execution c report);
      let product_head := pg_remote_head product in
      if (executable : bool)
      then
        fresh ← (if nonempty_str (get retry "fresh_execution_id")
                 then mret (str_of (get retry "fresh_execution_id")) else new_execution_id);
        let next := dmerge retry [("status", PStr "pending_admission"); ("fresh_execution_id", PStr fresh);
                                  ("product_head", PStr product_head)] in
        _ ← _finalize_execution_lifecycle report control_head
              (mkFinal (Some product_head) (Some product_head) true (Some (PDict next)) None false);
        mret 0%Z
      else
        let completed := dmerge retry [("status", PStr "not_admitted"); ("product_head", PStr product_head)] in
        _ ← _finalize_execution_lifecycle report control_head
              (mkFinal (Some product_head) (Some product_head) true (Some PNone) (Some (PDict completed)) false);
        mret 0%Z
  | _ => py_raise WorkflowBlockedError "zero-delta retry state is missing"
  end.

Definition _complete_execution_lifecycle (report : ExecutionReport) : E Z :=
  state ← state_now;
  if retry_pending state then _resolve_zero_delta_retry report else
  product ← on_git (_observe_product_generation (rep_code_base_head report));
  drifted ← on_git (_is_zero_delta_stale_product_drift state (rep_code_base_head report)
                      (rep_workspace_head report) product);
  if (drifted : bool)
  then _ ← save_zero_delta report product; _resolve_zero_delta_retry report
  else
  control_head ← lifecycle_of_report report;
  _ ← _finalize_execution_lifecycle report control_head (mkFinal None None false None None true);
  mret (if failed_conclusion report then 1 else 0)%Z.

Definition _record_post_worker_failure (ticket_id execution_id local_head remote_head reason : string) : E unit :=
  todo_fingerprint ← on_git (control_todo_fingerprint c);
  state ← state_now;
  let control_head := match get state "execution_control_head" with
    | PStr h => if (h =? "")%string then py_str (get_or state "control_head" (PStr "")) else h
    | _ => py_str (get_or state "control_head" (PStr ""))
    end in
  let failure := [("execution_id", PStr execution_id); ("product_head", PStr local_head);
    ("remote_head", PStr remote_head); ("control_head", PStr control_head);
    ("todo_fingerprint", PStr todo_fingerprint);
    ("reason", PStr ("post-worker dependency integrity failure: " +:+ reason));
    ("report_unavailable", PBool true)] in
  _ ← save_fields "idle"
        [("handled_remote_head", PStr remote_head); ("handled_control_head", PStr control_head);
         ("handled_todo_fingerprint", PStr todo_fingerprint); ("execution_control_head", PStr control_head);
         ("failed_executions",
          PDict (dset (dict_of (get_or state "failed_executions" (PDict []))) ticket_id (PDict failure)))];
  _ ← publish_worker (Some "ready") false;
  refresh.
End Execution.
