(* ===== verification/Recovery.v ===== *)
(** The recoveries that an iteration enters for a state that something
    interrupted, [src/devlegate/runtime.py]: the normalization of an execution
    whose owner was lost, the operator's recovery of an unsafe workspace, the end
    of a drop, and the resumption of a reconciliation. *)

From S2P Require Export Execution.

Section Recovery.
Context {W : Type} `{GitWorld W, !EngineWorld W, !HostWorld W}.
Context {St : Type} `{RuntimeStore St, !ObservableStore St}.
Variable c : settings.
Variable state_file : string.
Variable loads_yaml : string -> string + dict.
Variables (randoms_md randoms_json : list string).

Abbreviation M := (py (logged W)).
Abbreviation E := (py (engine (W := W) (St := St))).
Abbreviation refresh_views := (refresh (W := W) (St := St) c state_file loads_yaml).

(** [observed.stdout.strip() == head], of a command that succeeded. *)
Definition names (observed : CompletedProcess) (head : string) : bool :=
  negb (failed observed) && (strip (stdout observed) =? head)%string.

(** * A lost owner *)

Definition stranded_fields : list string :=
  ["local_head"; "remote_head"; "selected_ticket_id"; "selected_ticket_body"; "execution_base_head";
   "execution_control_head"; "execution_branch"; "execution_path"; "execution_id"].

(** The product is what it was when the execution was admitted. *)
Definition same_product (state : dict) : M unit :=
  _ ← _assert_product_checkout_unchanged c (st_current_branch c) (field state "local_head");
  fetch ← _git (st_repo c) ["fetch"; "--prune"; st_remote_name c; st_remote_branch c];
  remote ← rev_parse (st_repo c) (st_remote_name c +:+ "/" +:+ st_remote_branch c);
  if failed fetch || moved_from (field state "remote_head") remote
  then engine_error "product generation changed before interrupted execution recovery"
  else mret tt.

(** The control checkout, brought to a descendant of the admission that still has
    the ticket; its head. *)
Definition compatible_control (state : dict) : M string :=
  let control := st_control_worktree c in
  let control_ref := st_remote_name c +:+ "/" +:+ st_control_branch c in
  _ ← _validate_control_worktree c state;
  status ← _git_check control ["status"; "--porcelain"];
  if negb (stdout status =? "")%string then engine_error "control working tree is dirty" else
  fetch ← _git control ["fetch"; "--prune"; st_remote_name c; st_control_branch c];
  remote ← _git control ["rev-parse"; "--verify"; control_ref];
  if failed fetch || failed remote then engine_error "cannot freshly observe control remote" else
  let control_head := strip (stdout remote) in
  local ← _git_check control ["rev-parse"; "HEAD"];
  let local_control := strip (stdout local) in
  ancestor ← _git control ["merge-base"; "--is-ancestor"; local_control; control_head];
  if failed ancestor then engine_error "local control history diverged during recovery" else
  _ ← _prove_bound_ticket_descendant c control_head (py_str (get state "execution_control_head"))
        (py_str (get state "execution_ticket_id")) (py_str (get state "selected_ticket_body"));
  if (local_control =? control_head)%string then mret control_head else
  merged ← _git control ["merge"; "--ff-only"; control_ref];
  if failed merged then engine_error "cannot fast-forward compatible control descendant"
  else mret control_head.

(** The ticket is still the one that was admitted. *)
Definition recoverable_ticket (state : dict) (store : TicketStore) : bool :=
  match ts_by_id store !! py_str (get state "execution_ticket_id") with
  | Some t => is_state (tk_state t) Todo && is_runnable store t &&
              eq_str (get state "selected_ticket_body") (tk_body t)
  | None => false
  end.

(** The workspace is where the execution started. *)
Definition untouched_workspace (state : dict) : M unit :=
  let base_head := field state "execution_base_head" in
  manager ← new_manager (st_repo c) (st_execution_worktree_root c) (py_str (get state "execution_ticket_id"));
  if negb (binding_matches state manager) then engine_error "persisted execution workspace binding is invalid" else
  py_catch
    (_ ← _validate_base manager base_head;
     _ ← _validate_branch manager base_head;
     registrations ← _registrations manager;
     expected ← ask (fun w => gw_resolve w (mg_path manager));
     workspace ← _validate_existing manager (registration_at expected registrations) base_head;
     if negb (nonempty_str (get state "execution_start_head"))
     then refuse "execution start HEAD is unavailable"
     else if negb (ew_head workspace =? field state "execution_start_head")%string
     then refuse "execution worktree HEAD does not match execution start HEAD"
     else verify_submodules (st_recursion_limit c) manager workspace)
    (fun e => is_workspace_error e || is_os_error e)
    (fun e => engine_error ("cannot safely normalize interrupted execution: " +:+ exn_msg e)).

(** The recorded failure of a stranded execution. *)
Definition stranded_failure (state : dict) (control_head todo_fingerprint kind : string) : dict :=
  [("execution_id", get state "execution_id"); ("generation", get state "execution_base_head");
   ("product_head", get state "local_head"); ("remote_head", get state "remote_head");
   ("control_head", PStr control_head); ("todo_fingerprint", PStr todo_fingerprint);
   ("reason", PStr ("interrupted: " +:+ replace_char "_" " " kind)); ("interrupted", PBool true);
   ("interruption_kind", PStr kind);
   ("manual_retry_required",
    PBool (names_execution (get state "manual_retry_required") "execution_id" (field state "execution_id")))].

Definition _normalize_stranded_execution (kind : string) : E unit :=
  state ← state_now;
  if negb (all_text state stranded_fields)
  then py_raise DevlegateError "persisted interrupted execution binding is incomplete"
  else
  _ ← on_git (same_product state);
  control_head ← on_git (compatible_control state);
  store ← control_store c loads_yaml;
  if negb (recoverable_ticket state store)
  then py_raise DevlegateError "persisted execution ticket is not safely recoverable"
  else
  _ ← on_git (untouched_workspace state);
  todo_fingerprint ← on_git (control_todo_fingerprint c);
  _ ← save_fields "idle"
        [("handled_remote_head", get state "remote_head"); ("handled_control_head", PStr control_head);
         ("handled_todo_fingerprint", PStr todo_fingerprint);
         ("execution_control_head", get state "execution_control_head");
         ("interrupted_execution_id", get state "execution_id");
         ("failed_executions",
          PDict (dset (dict_of (get_or state "failed_executions" (PDict [])))
                   (py_str (get state "execution_ticket_id"))
                   (PDict (stranded_failure state control_head todo_fingerprint kind))))];
  _ ← publish_worker (Some "ready") false;
  refresh_views.

(** Published, and raised. *)
Definition blocked_recovery {A} (reason : string) : E A :=
  _ ← publish_blocked reason; py_raise DevlegateError reason.

Definition _reconcile_stranded_execution : E (option string) :=
  state ← state_now;
  kind ← (match get state "execution_interruption_kind" with
          | PNone =>
              _ ← save_fields "agent_running" [("execution_interruption_kind", PStr "process_loss")];
              mret (PStr "process_loss")
          | kind => mret kind
          end);
  known ← py_lift (in_strs kind interruption_kinds);
  if negb known then py_raise DevlegateError "invalid execution interruption kind" else
  let stage := get state "execution_stage" in
  let normalize := _ ← _normalize_stranded_execution (str_of kind);
                   ticket_id ← py_lift (getitem state "execution_ticket_id");
                   mret (Some (py_str ticket_id)) in
  identity ← py_lift (_worker_identity_from_value (get state "worker_identity") (Some (get state "execution_id")));
  if eq_str stage "worker-running"
  then match identity with
  | None => py_raise PyAssertionError ""
  | Some identity =>
      w ← world;
      let observation := hw_observe_worker w identity in
      if (observation =? "matching-live")%string
      then blocked_recovery ("previous Devlegate owner was lost; execution worker is still alive; " +:+
                             "automatic reconciliation is blocked")
      else if (observation =? "indeterminate")%string
      then blocked_recovery ("previous Devlegate owner was lost; worker ownership is indeterminate; " +:+
                             "reconciliation is blocked")
      else normalize
  end
  else if eq_str stage "post-worker" then normalize
  else blocked_recovery ("previous Devlegate owner was lost during unsafe execution stage " +:+
                         (if truthy stage then py_str stage else "unknown") +:+ "; reconciliation is blocked").

(** * An unsafe workspace *)

Definition operator_evidence_ref (ticket_id execution_id : string) : string :=
  "refs/devlegate/recovery/operator/" +:+ ticket_id +:+ "/" +:+ execution_id.

(** The reference is made to hold a head, unless it exists. *)
Definition preserve_head (ref head error : string) : M unit :=
  pinned ← _git (st_repo c) ["update-ref"; ref; head; ""];
  if failed pinned then engine_error error else mret tt.

(** The report of another execution that ends at the remote head. *)
Definition earlier_reports (execution_id branch remote_head : string) (reports : list ExecutionReport)
    : list ExecutionReport :=
  List.filter (fun r => negb (rep_execution_id r =? execution_id)%string &&
                        (rep_execution_branch r =? branch)%string &&
                        bool_decide (rep_workspace_head r = Some remote_head)) reports.

(** Where the head of the remote branch is preserved. *)
Definition remote_evidence_ref (ticket_id execution_id branch remote_head evidence_ref : string) : M string :=
  t ← ask gw_files;
  reports ← py_lift (catch (list_reports t (Some ticket_id))
                       (fun e => is_report_error e || is_os_error e || is_class WorkflowBlockedError e)
                       (fun e => raise DevlegateError ("cannot prove prior remote branch ownership: " +:+ exn_msg e)));
  mret match earlier_reports execution_id branch remote_head reports with
       | [prior] => _workspace_recovery_ref ticket_id (rep_execution_id prior)
       | _ => evidence_ref
       end.

(** The remote branch is returned to the base, once its head is preserved here and
    on the remote. *)
Definition return_remote (ticket_id execution_id branch base_head remote_head evidence_ref : string) : M unit :=
  let changed := "execution remote branch changed before recovery CAS" in
  remote_evidence ← remote_evidence_ref ticket_id execution_id branch remote_head evidence_ref;
  existing ← rev_parse (st_repo c) remote_evidence;
  if negb (failed existing) && negb (names existing remote_head)
  then engine_error "operator recovery evidence has conflicting identity"
  else
  _ ← (if failed existing
       then
         _ ← preserve_head remote_evidence remote_head "cannot preserve the remote branch HEAD";
         published ← _git (st_repo c) ["push"; st_remote_name c; remote_head +:+ ":" +:+ remote_evidence];
         if failed published then engine_error "cannot publish remote recovery evidence" else mret tt
       else mret tt);
  remote_again ← _execution_remote_head (st_repo c) (st_remote_name c) branch;
  if negb (bool_decide (remote_again = Some remote_head)) then engine_error changed else
  retired ← _git (st_repo c)
              ["push"; "--force-with-lease=refs/heads/" +:+ branch +:+ ":" +:+ remote_head; st_remote_name c;
               base_head +:+ ":refs/heads/" +:+ branch];
  if failed retired then engine_error changed else mret tt.

(** The worktree of the workspace is removed, when it is where it is expected. *)
Definition remove_authorized (manager : ExecutionWorkspaceManager) (expected_head : string) : M unit :=
  registrations ← _registrations manager;
  expected_path ← ask (fun w => gw_resolve w (mg_path manager));
  let registration := registration_at expected_path registrations in
  let attached := branch_path (mg_branch manager) registrations in
  if negb (is_missing attached) && negb (bool_decide (attached = Some expected_path))
  then engine_error "execution branch is attached to an unexpected worktree"
  else
  present ← ask (fun w => gw_exists w (mg_path manager));
  if present && is_missing registration
  then engine_error "execution worktree path is not safely registered"
  else match registration with
  | None => mret tt
  | Some registration =>
      workspace ← _validate_existing manager (Some registration) expected_head;
      if negb (ew_head workspace =? expected_head)%string || ew_dirty workspace
      then engine_error "authorized execution worktree is not clean"
      else
      removed ← _git (st_repo c) ["worktree"; "remove"; "--force"; path_str (mg_path manager)];
      if failed removed then engine_error "cannot remove authorized execution worktree" else mret tt
  end.

(** The branch is moved from the observed head to the base. *)
Definition return_branch (branch_ref base_head observed_head : string) (authorized_replay : bool) : M unit :=
  current ← rev_parse (st_repo c) branch_ref;
  if failed current ||
     negb (names current observed_head) && negb (authorized_replay && names current base_head)
  then engine_error "execution branch changed during explicit recovery"
  else if names current observed_head
  then
    moved ← _git (st_repo c) ["update-ref"; branch_ref; base_head; observed_head];
    if failed moved then engine_error "execution branch changed before explicit recovery CAS" else mret tt
  else mret tt.

(** The repositories' part; the remote head at the end. *)
Definition recover_workspace (state : dict) (ticket_id execution_id observed_head : string) : M (option string) :=
  if negb (all_text state ["execution_base_head"; "execution_branch"; "execution_path"])
  then engine_error "persisted execution workspace identity is incomplete"
  else
  let base_head := field state "execution_base_head" in
  let branch := field state "execution_branch" in
  manager ← new_manager (st_repo c) (st_execution_worktree_root c) ticket_id;
  if negb (binding_matches state manager) then engine_error "persisted execution workspace binding is invalid" else
  let branch_ref := "refs/heads/" +:+ branch in
  let evidence_ref := operator_evidence_ref ticket_id execution_id in
  let observe_remote := _execution_remote_head (st_repo c) (st_remote_name c) branch in
  current ← rev_parse (st_repo c) branch_ref;
  existing ← rev_parse (st_repo c) evidence_ref;
  let authorized_replay := names existing observed_head && names current base_head in
  if failed current || negb (names current observed_head) && negb authorized_replay
  then engine_error "execution branch changed before explicit recovery"
  else if negb (failed existing) && negb (names existing observed_head)
  then engine_error "operator recovery evidence has conflicting identity"
  else
  _ ← (if failed existing
       then preserve_head evidence_ref observed_head "cannot preserve the authorized branch HEAD"
       else mret tt);
  remote ← observe_remote;
  _ ← (match remote with
       | Some remote_head =>
           if (remote_head =? base_head)%string then mret tt
           else return_remote ticket_id execution_id branch base_head remote_head evidence_ref
       | None => mret tt
       end);
  _ ← remove_authorized manager (if authorized_replay then base_head else observed_head);
  _ ← return_branch branch_ref base_head observed_head authorized_replay;
  repaired ← prepare (st_recursion_limit c) manager base_head;
  final ← inspect (st_recursion_limit c) manager base_head (Some (ew_head repaired));
  if negb (wi_classification final =? "REUSABLE")%string
  then engine_error ("recovered execution workspace is not reusable: " +:+ wi_reason final)
  else
  remote ← observe_remote;
  if negb (existsb (fun r => bool_decide (remote = r)) [None; Some base_head])
  then engine_error "execution remote branch changed during explicit recovery"
  else mret remote.

(** [clear_pre_worker_generation=True, clear_operator_recovery=True] *)
Definition _recover_unsafe_bound_execution_workspace (ticket_id execution_id observed_head : string) : E unit :=
  state ← state_now;
  remote ← on_git (recover_workspace state ticket_id execution_id observed_head);
  save "agent_pending"
    (mkSave false false true true [("execution_remote_head", opt_str remote); ("worker_identity", PNone)]).

(** * A drop *)

Definition _drop_owned (ticket_id : string) (execution_id : option string) : E unit :=
  state ← state_now;
  dropped ← on_git (drop_effects (st_recursion_limit c) (st_repo c) (st_execution_worktree_root c)
                      (st_remote_name c) state ticket_id execution_id);
  if (dropped : bool)
  then
    _ ← remember (set_owned None);
    save "idle" (mkSave true false false false [])
  else mret tt.

(** * The resumption of a reconciliation *)

(** [str(d[key])] *)
Definition text_item (d : dict) (key : string) : res string := v ← getitem d key; Ok (py_str v).

(** The product is still the generation of the original base. *)
Definition stable_product (original_base error : string) : M unit :=
  product ← _observe_product_generation c original_base;
  if pg_stable product then mret tt
  else if (pg_classification product =? "unobservable")%string
  then engine_error "product remote could not be observed; retry when connectivity returns"
  else engine_error error.

(** The control checkout has not moved since. *)
Definition same_control (state reconciliation : dict) : M string :=
  _ ← _validate_control_worktree c state;
  recorded_control ← py_lift (text_item reconciliation "control_head");
  head ← _git_check (st_control_worktree c) ["rev-parse"; "HEAD"];
  if negb (strip (stdout head) =? recorded_control)%string
  then engine_error "control revision changed during reconciliation" else mret recorded_control.

Definition reconciled_ticket (ticket_id : string) : E Ticket :=
  store ← control_store c loads_yaml;
  match ts_by_id store !! ticket_id with
  | Some t => if is_state (tk_state t) Todo || is_state (tk_state t) Review then mret t
              else py_raise DevlegateError "reconciliation ticket is no longer compatible"
  | None => py_raise DevlegateError "reconciliation ticket is no longer compatible"
  end.

(** The workspace and the evidence hold the checkpoint. *)
Definition checkpointed_workspace (state reconciliation : dict) (ticket_id checkpoint_head : string)
    : M ExecutionWorkspaceManager :=
  manager ← new_manager (st_repo c) (st_execution_worktree_root c) ticket_id;
  branch ← py_lift (getitem reconciliation "execution_branch");
  same ← (if eq_str branch (mg_branch manager)
          then path ← py_lift (text_item reconciliation "execution_path");
               mret (bool_decide (Path_of path = mg_path manager))
          else mret false);
  if negb same then engine_error "reconciliation workspace binding is invalid" else
  workspace ← _execution_workspace_for_recovery c state;
  if negb (ew_head workspace =? checkpoint_head)%string || ew_dirty workspace
  then engine_error "execution workspace changed before resume"
  else
  evidence_ref ← py_lift (text_item reconciliation "evidence_ref");
  evidence ← rev_parse (st_repo c) evidence_ref;
  if negb (names evidence checkpoint_head)
  then engine_error "preserved worker checkpoint evidence changed" else mret manager.

(** The remote head that the execution branch had before. *)
Definition expected_predecessor (state reconciliation : dict) : res pyval :=
  let key := "execution_remote_head" in
  if negb (has_key reconciliation key || has_key state key)
  then raise DevlegateError "legacy reconciliation lacks execution predecessor"
  else
  let expected := if has_key reconciliation key then get reconciliation key else get state key in
  if negb (is_none expected) && negb (_is_git_identity expected)
  then raise DevlegateError "execution predecessor identity is invalid"
  else Ok expected.

(** The remote branch is at the predecessor, or already at the checkpoint. *)
Definition same_lineage (branch checkpoint_head : string) (expected : pyval) (was_resolving : bool)
    : M (option string) :=
  remote ← _execution_remote_head (st_repo c) (st_remote_name c) branch;
  if negb (is_none expected && is_missing remote ||
           match expected with PStr s => bool_decide (remote = Some s) | _ => false end ||
           was_resolving && bool_decide (remote = Some checkpoint_head))
  then engine_error "execution remote changed or has divergent lineage"
  else match expected with
  | PStr s =>
      ancestor ← _git (st_repo c) ["merge-base"; "--is-ancestor"; s; checkpoint_head];
      if failed ancestor then engine_error "execution predecessor is not an ancestor of checkpoint"
      else mret remote
  | _ => mret remote
  end.

(** The persisted report goes through the stages that were left. *)
Definition resume_report (manager : ExecutionWorkspaceManager) (t : Ticket) (resolved : dict)
    (original_base recorded_control checkpoint_head : string) (expected : pyval) (pending : dict) : E Z :=
  report ← py_lift (from_dict (PDict pending));
  _ ← save_fields "agent_running"
        [("local_head", PStr original_base); ("remote_head", PStr original_base); ("changed_paths", PStr "");
         ("control_head", PStr recorded_control); ("selected_ticket_id", PStr (mg_ticket_id manager));
         ("selected_ticket_body", PStr (tk_body t)); ("execution_ticket_id", PStr (mg_ticket_id manager));
         ("execution_base_head", PStr original_base); ("execution_control_head", PStr recorded_control);
         ("execution_branch", PStr (mg_branch manager)); ("execution_path", PStr (path_str (mg_path manager)));
         ("execution_id", PStr (rep_execution_id report)); ("execution_remote_head", expected);
         ("execution_start_head", PStr original_base); ("execution_stage", PStr "post-checkpoint");
         ("pending_execution_report", as_dict report); ("worker_identity", PNone)];
  _ ← _recover_checkpoint_publication c loads_yaml;
  report ← _recover_lifecycle_report c;
  lifecycle_head ← lifecycle_of_report c loads_yaml randoms_md randoms_json report;
  _ ← _finalize_execution_lifecycle c state_file loads_yaml report lifecycle_head
        (mkFinal None None false None None true);
  _ ← save_fields "idle"
        [("reconciliation", PDict resolved); ("execution_remote_head", PStr checkpoint_head)];
  mret (if failed_conclusion report then 1 else 0)%Z.

(** Without a report, only the checkpoint is published. *)
Definition resume_publication (ticket_id branch : string) (resolved : dict)
    (original_base checkpoint_head : string) (expected : pyval) (observed : option string) : E Z :=
  _ ← (if bool_decide (observed = Some checkpoint_head) then mret tt
       else
         state ← state_now;
         workspace ← on_git (_execution_workspace_for_recovery c state);
         on_git (_publish_execution_branch c workspace checkpoint_head (str_opt expected)));
  remote ← on_git (_execution_remote_head (st_repo c) (st_remote_name c) branch);
  if negb (bool_decide (remote = Some checkpoint_head))
  then py_raise DevlegateError "execution checkpoint publication could not be proven"
  else
  _ ← save_fields "idle"
        [("execution_base_head", PStr original_base); ("execution_remote_head", PStr checkpoint_head);
         ("reconciliation", PDict resolved);
         ("resume_required", PDict [("ticket_id", PStr ticket_id); ("status", PStr "required")])];
  mret 0%Z.

(** After the durable intent: the product and the remote are observed again. *)
Definition resume_resolved (reconciliation : dict) (manager : ExecutionWorkspaceManager) (t : Ticket)
    (original_base recorded_control checkpoint_head : string) (expected : pyval) (remote : option string)
    (was_resolving : bool) : E Z :=
  let resolving := dmerge reconciliation [("status", PStr "resolving"); ("resolution", PStr "resume")] in
  let resolved := dmerge resolving [("status", PStr "resolved")] in
  _ ← save_fields "idle" [("reconciliation", PDict resolving)];
  _ ← on_git (stable_product original_base "product generation changed before publication");
  observed ← on_git (_execution_remote_head (st_repo c) (st_remote_name c) (mg_branch manager));
  if negb (bool_decide (observed = remote)) &&
     negb (was_resolving && bool_decide (observed = Some checkpoint_head))
  then py_raise DevlegateError "execution remote changed before publication"
  else match get reconciliation "execution_report" with
  | PDict pending =>
      resume_report manager t resolved original_base recorded_control checkpoint_head expected pending
  | _ =>
      resume_publication (mg_ticket_id manager) (mg_branch manager) resolved original_base checkpoint_head
        expected observed
  end.

Definition _reconcile_resume_owned (ticket_id : string) : E Z :=
  state ← state_now;
  match get state "reconciliation" with
  | PDict reconciliation =>
      if negb (existsb (eq_str (get reconciliation "status")) ["pending"; "resolving"])
      then py_raise DevlegateError ("ticket " +:+ ticket_id +:+ " has no resumable reconciliation")
      else if negb (eq_str (get reconciliation "ticket_id") ticket_id)
      then py_raise DevlegateError "requested ticket does not match reconciliation"
      else
      original_base ← py_lift (text_item reconciliation "original_base");
      checkpoint_head ← py_lift (text_item reconciliation "worker_checkpoint");
      _ ← on_git (_assert_product_checkout_unchanged c (st_current_branch c) original_base);
      _ ← on_git (stable_product original_base
                    "same-base reconciliation requires a clean unchanged product generation");
      recorded_control ← on_git (same_control state reconciliation);
      t ← reconciled_ticket ticket_id;
      manager ← on_git (checkpointed_workspace state reconciliation ticket_id checkpoint_head);
      expected ← py_lift (expected_predecessor state reconciliation);
      let was_resolving := eq_str (get reconciliation "status") "resolving" in
      remote ← on_git (same_lineage (mg_branch manager) checkpoint_head expected was_resolving);
      resume_resolved reconciliation manager t original_base recorded_control checkpoint_head expected
        remote was_resolving
  | _ => py_raise DevlegateError ("ticket " +:+ ticket_id +:+ " has no resumable reconciliation")
  end.
End Recovery.
