(* ===== verification/Synchronize.v ===== *)
(** Synchronization of the product checkout at the start of an iteration,
    [src/devlegate/runtime.py], [_run_iteration_body] from the observation of the
    working tree to the end of the fast-forward.  A statement [return n] of the
    method is the value [inl n]. *)

From S2P Require Export Execution.

(** [x ⇐ m; k]: [m] may have returned from the method. *)
Definition turn_bind {S A B} (m : py S (Z + A)) (k : A -> py S (Z + B)) : py S (Z + B) :=
  r ← m;
  match r with inl status => mret (inl status) | inr a => k a end.

Declare Scope turn_scope.
Delimit Scope turn_scope with turn.
Notation "x ⇐ m ; k" := (turn_bind m (fun x => k))
  (at level 20, m at level 100, k at level 200, right associativity) : turn_scope.
Notation "' x ⇐ m ; k" := (turn_bind m (fun y => match y with x => k end))
  (at level 20, x pattern, m at level 100, k at level 200, right associativity) : turn_scope.
Open Scope turn_scope.

Definition goes_on {S A} (a : A) : py S (Z + A) := mret (inr a).
Definition returns_with {S A} (status : Z) : py S (Z + A) := mret (inl status).

(** The product checkout after the synchronization. *)
Record synchronized : Type := mkSynced {
  sy_local_head : string;
  sy_remote_head : string;
  sy_changed_paths : string;
  sy_had_remote_change : bool;
  sy_local_ahead : bool
}.

Section Synchronize.
Context {W : Type} `{GitWorld W, !EngineWorld W, !HostWorld W}.
Context {St : Type} `{RuntimeStore St, !ObservableStore St}.
Variable c : settings.

Abbreviation M := (py (logged W)).
Abbreviation E := (py (engine (W := W) (St := St))).

(** [self._git_runtime(self.repo, *args, check=False)] and with the check. *)
Definition repo_git (args : list string) : E CompletedProcess :=
  st ← state_now; on_git (_git_runtime st (st_repo c) args).
Definition repo_git_check (args : list string) : E CompletedProcess :=
  st ← state_now; on_git (_git_runtime_check st (st_repo c) args).

Definition ancestor_of (older newer : string) : E bool :=
  r ← repo_git ["merge-base"; "--is-ancestor"; older; newer]; mret (negb (failed r)).

Definition changed_between (older newer : string) : E string :=
  r ← repo_git ["diff"; "--name-only"; older; newer]; mret (rstrip (stdout r)).

Definition remote_ref : string := st_remote_name c +:+ "/" +:+ st_remote_branch c.

(** The observations that [_log_sync_failure] makes for its messages. *)
Definition _log_sync_failure (local_head : string) : M unit :=
  remote_result ← _git (st_repo c) ["rev-parse"; remote_ref];
  let remote_head := or_else (Some (strip (stdout remote_result))) "<unknown>" in
  _ ← _git (st_repo c) ["merge-base"; local_head; remote_head];
  _ ← _git (st_repo c) ["rev-list"; "--left-right"; "--count"; local_head +:+ "..." +:+ remote_head];
  mret tt.

(** The failure is logged, and the iteration returns 1. *)
Definition cannot_synchronize {A} (local_head : string) : E (Z + A) :=
  _ ← on_git (_log_sync_failure local_head); returns_with 1.

(** [_observe_worktree]: has the observation changed? *)
Definition _observe_worktree (status : string) : E bool :=
  known ← remembered me_dirty_fingerprint;
  if negb (status =? "")%string
  then
    let fingerprint := _status_fingerprint status in
    if bool_decide (known = Some fingerprint) then mret false
    else _ ← remember (set_dirty (Some fingerprint)); mret true
  else match known with
  | Some _ => _ ← remember (set_dirty None); mret true
  | None => mret false
  end.

(** Stop before a new mutable operation, unless a merge is pending. *)
Definition stop_unless_merging (initial_phase : pyval) : E (Z + unit) :=
  stopped ← _stop_before_admission;
  if stopped && negb (eq_str initial_phase "merge_pending") then returns_with 0 else goes_on tt.

Definition stop_here : E (Z + unit) :=
  stopped ← _stop_before_admission;
  if (stopped : bool) then returns_with 0 else goes_on tt.

Definition short (head : string) : string := String.substring 0 12 head.

(** * A pending synchronization *)

(** The local head is where the pending synchronization left it. *)
Definition check_pending_local (merging : bool) (local_head persisted_local target_head : string) : E unit :=
  if merging
  then
    if negb (existsb (String.eqb local_head) [persisted_local; target_head])
    then py_raise DevlegateError "persisted merge revision does not match the local HEAD" else mret tt
  else if (local_head =? persisted_local)%string then mret tt
  else
    persisted_is_ancestor ← ancestor_of persisted_local local_head;
    current_is_ancestor ← ancestor_of local_head persisted_local;
    let identities := "(persisted " +:+ short persisted_local +:+ ", current " +:+ short local_head +:+
                      ", remote " +:+ short target_head +:+ ")" in
    if (current_is_ancestor : bool)
    then py_raise DevlegateError ("current local HEAD is behind the persisted execution HEAD; " +:+
                                  "refusing rollback " +:+ identities)
    else if negb persisted_is_ancestor
    then py_raise DevlegateError ("current local HEAD diverged from the persisted execution history " +:+ identities)
    else mret tt.

(** The pending target, moved forward to the observed remote head. *)
Definition pending_target (persisted_head remote_head : string) : E string :=
  is_ancestor ← ancestor_of persisted_head remote_head;
  if negb (persisted_head =? remote_head)%string && negb is_ancestor
  then py_raise DevlegateError "new remote revision is not a descendant of the pending revision"
  else mret (if (is_ancestor : bool) then remote_head else persisted_head).

(** Is the local head of a pending execution ahead of the target? *)
Definition pending_ahead (executing : bool) (local_head target_head : string) : E (Z + bool) :=
  if negb executing || (local_head =? target_head)%string then goes_on false else
  local_is_ancestor ← ancestor_of local_head target_head;
  remote_is_ancestor ← ancestor_of target_head local_head;
  if negb local_is_ancestor && negb remote_is_ancestor then cannot_synchronize local_head
  else goes_on (remote_is_ancestor : bool).

(** The fast-forward, announced by the durable phase [merge_pending]. *)
Definition merge_remote (local_head target_head changed_paths control_head : string) : E (Z + string) :=
  _ ← save_fields "merge_pending"
        [("local_head", PStr local_head); ("remote_head", PStr target_head);
         ("changed_paths", PStr changed_paths); ("control_head", PStr control_head)];
  merge ← repo_git ["merge"; "--ff-only"; remote_ref];
  if failed merge then cannot_synchronize local_head else
  updated ← repo_git_check ["rev-parse"; "HEAD"];
  goes_on (strip (stdout updated)).

(** [str(self._state.get(key, ""))] *)
Definition state_text (key : string) : E string :=
  st ← state_now; mret (py_str (get_or st key (PStr ""))).

Definition reach_pending_target (initial_phase : pyval) (local_head target_head control_head : string)
    (ahead : bool) : E (Z + (string * string)) :=
  if (local_head =? target_head)%string || ahead
  then changed_paths ← state_text "changed_paths"; goes_on (local_head, changed_paths)
  else
  changed_paths ← changed_between local_head target_head;
  _ ⇐ stop_unless_merging initial_phase;
  reached ⇐ merge_remote local_head target_head changed_paths control_head;
  if negb (reached =? target_head)%string
  then py_raise DevlegateError "fast-forward completed without reaching the target revision"
  else goes_on (reached, changed_paths).

Definition synchronize_pending (initial_phase : pyval) (merging : bool)
    (local_head remote_head control_head : string) : E (Z + synchronized) :=
  persisted_head ← state_text "remote_head";
  persisted_local ← state_text "local_head";
  _ ← check_pending_local merging local_head persisted_local persisted_head;
  target_head ← pending_target persisted_head remote_head;
  ahead ⇐ pending_ahead (negb merging) local_head target_head;
  '(local_head, changed_paths) ⇐ reach_pending_target initial_phase local_head target_head control_head ahead;
  _ ← save_fields (if merging then "idle" else "agent_pending")
        [("local_head", PStr local_head); ("remote_head", PStr target_head);
         ("changed_paths", PStr changed_paths); ("control_head", PStr control_head)];
  goes_on (mkSynced local_head target_head changed_paths (negb (target_head =? persisted_head)%string) false).

(** * A new synchronization *)

Definition fast_forward_product (local_head remote_head control_head : string) : E (Z + synchronized) :=
  changed_paths ← changed_between local_head remote_head;
  _ ⇐ stop_here;
  actual_head ⇐ merge_remote local_head remote_head changed_paths control_head;
  if negb (actual_head =? remote_head)%string
  then py_raise DevlegateError "fast-forward completed without reaching the remote revision"
  else
  _ ← save_fields "idle"
        [("local_head", PStr actual_head); ("remote_head", PStr remote_head);
         ("changed_paths", PStr changed_paths)];
  goes_on (mkSynced actual_head remote_head changed_paths true false).

Definition synchronize_fresh (local_head remote_head control_head : string) : E (Z + synchronized) :=
  if (local_head =? remote_head)%string then goes_on (mkSynced local_head remote_head "" false false) else
  behind ← ancestor_of local_head remote_head;
  if (behind : bool) then fast_forward_product local_head remote_head control_head else
  ahead ← ancestor_of remote_head local_head;
  if (ahead : bool)
  then
    changed_paths ← changed_between remote_head local_head;
    goes_on (mkSynced local_head remote_head changed_paths false true)
  else cannot_synchronize local_head.

(** Fetch, observe and fast-forward the product checkout.  The control heads come
    with the result. *)
Definition fetch_product : E (Z + string) :=
  fetch ← repo_git ["fetch"; "--prune"; st_remote_name c; st_remote_branch c];
  if failed fetch then returns_with 1 else
  remote_result ← repo_git ["rev-parse"; "--verify"; remote_ref];
  if failed remote_result then returns_with 1 else
  remote_head ← repo_git_check ["rev-parse"; remote_ref];
  goes_on (strip (stdout remote_head)).

Definition synchronize : E (Z + (synchronized * (string * string))) :=
  status ← repo_git_check ["status"; "--porcelain"];
  _ ← _observe_worktree (stdout status);
  if negb (stdout status =? "")%string then returns_with 1 else
  st ← state_now;
  let initial_phase := get st "phase" in
  _ ⇐ stop_unless_merging initial_phase;
  heads ← on_git (_sync_control c st);
  _ ⇐ stop_unless_merging initial_phase;
  local ← repo_git_check ["rev-parse"; "HEAD"];
  let local_head := strip (stdout local) in
  remote_head ⇐ fetch_product;
  synced ⇐ (if existsb (eq_str initial_phase) ["agent_pending"; "merge_pending"]
            then synchronize_pending initial_phase (eq_str initial_phase "merge_pending")
                   local_head remote_head (fst heads)
            else synchronize_fresh local_head remote_head (fst heads));
  goes_on (synced, heads).
End Synchronize.
