(* ===== verification/IterationPlan.v ===== *)
(** The parts of a scheduler iteration before an execution is admitted,
    [src/devlegate/runtime.py], [_run_iteration_body]: what a persisted state
    resumes, the plan, and the integration of accepted work. *)

From S2P Require Export Recovery Synchronize WorkerPrompt.

Section Planning.
Context {W : Type} `{GitWorld W, !EngineWorld W, !HostWorld W}.
Context {St : Type} `{RuntimeStore St, !ObservableStore St}.
Variable c : settings.
Variable state_file : string.
Variable loads_yaml : string -> string + dict.
Variables (randoms_md randoms_json : list string).
Variable texts : prompt_texts.

Abbreviation M := (py (logged W)).
Abbreviation E := (py (engine (W := W) (St := St))).
Abbreviation refresh_views := (refresh (W := W) (St := St) c state_file loads_yaml).
Abbreviation lifecycle_head := (lifecycle_of_report (W := W) (St := St) c loads_yaml randoms_md randoms_json).
Abbreviation complete := (_complete_execution_lifecycle (W := W) (St := St) c state_file loads_yaml randoms_md randoms_json).
Abbreviation status_view_now := (_status_view (W := W) (St := St) c state_file loads_yaml).

(** * What a persisted state resumes *)

(** The authorization that a persisted forced retry gives. *)
Definition forced_authorization (state : dict) (authorization : option ExecutionAuthorization)
    : option ExecutionAuthorization :=
  match authorization, get state "force_retry_authorization" with
  | None, PDict force =>
      match eq_str (get force "status") "admitted", get force "ticket_id" with
      | true, PStr ticket_id => Some (mkAuth ticket_id "forced_retry")
      | _, _ => None
      end
  | _, _ => authorization
  end.

(** An operator's recovery of an unsafe workspace that was interrupted. *)
Definition resume_operator_recovery (state : dict) : E (Z + unit) :=
  match eq_str (get state "phase") "agent_pending", get state "operator_recovery" with
  | true, PDict recovery =>
      if negb (all_text recovery ["ticket_id"; "execution_id"; "observed_head"])
      then py_raise DevlegateError "persisted operator recovery identity is incomplete"
      else
      _ ← _recover_unsafe_bound_execution_workspace c (field recovery "ticket_id") (field recovery "execution_id")
            (field recovery "observed_head");
      returns_with 0
  | _, _ => goes_on tt
  end.

Definition check_current_branch : E unit :=
  branch ← repo_git c ["symbolic-ref"; "--quiet"; "--short"; "HEAD"];
  let expected := default "None" (st_current_branch c) in
  if failed branch
  then py_raise WorkflowBlockedError ("current checkout is detached; expected branch '" +:+ expected +:+ "'")
  else if negb (bool_decide (st_current_branch c = Some (strip (stdout branch))))
  then py_raise WorkflowBlockedError ("current checkout branch '" +:+ strip (stdout branch) +:+
         "' does not match expected branch '" +:+ expected +:+ "'")
  else mret tt.

(** The end of an integration: the generation is handled. *)
Definition integration_done (remote_head control_head : string) : E unit :=
  todo_fingerprint ← on_git (control_todo_fingerprint c);
  _ ← save_fields "idle"
        [("handled_remote_head", PStr remote_head); ("handled_control_head", PStr control_head);
         ("handled_todo_fingerprint", PStr todo_fingerprint); ("accepted_integration", PNone)];
  _ ← publish_worker (Some "ready") false;
  refresh_views.

Definition _recover_accepted_integration : E Z :=
  state ← state_now;
  match get state "accepted_integration" with
  | PDict pending =>
      if negb (nonempty_str (get pending "ticket_id"))
      then py_raise DevlegateError "invalid accepted integration ticket identity"
      else
      heads ← on_git (_sync_control c state);
      fetch ← repo_git c ["fetch"; "--prune"; st_remote_name c; st_remote_branch c];
      if failed fetch
      then py_raise WorkflowBlockedError "cannot freshly observe product remote for accepted integration"
      else
      code ← on_git (_git_observation c state (st_repo c) (st_remote_branch c));
      control ← on_git (_git_observation c state (st_control_worktree c) (st_control_branch c));
      _ ← on_git (_integrate_accepted c loads_yaml state (field pending "ticket_id") (Some code) (Some control));
      _ ← integration_done (or_else (go_remote_head code) "") (fst heads);
      mret 0%Z
  | _ => py_raise DevlegateError "invalid accepted integration state"
  end.

Definition resume_integration (state : dict) : E (Z + unit) :=
  if eq_str (get state "phase") "idle" && negb (is_none (get state "accepted_integration"))
  then _ ← status_view_now; status ← _recover_accepted_integration; returns_with status
  else goes_on tt.

Definition resume_resolving (state : dict) : E (Z + unit) :=
  match eq_str (get state "phase") "idle", get state "reconciliation" with
  | true, PDict reconciliation =>
      if eq_str (get reconciliation "status") "resolving"
      then status ← _reconcile_resume_owned c state_file loads_yaml randoms_md randoms_json
             (py_str (get_or reconciliation "ticket_id" (PStr "")));
           returns_with status
      else goes_on tt
  | _, _ => goes_on tt
  end.

(** The stage [lifecycle] without a worker: a dropped execution is cleaned up, any
    other one is published. *)
Definition resume_lifecycle (state : dict) : E Z :=
  dropped ← match get state "execution_ticket_id", get state "execution_id" with
            | PStr ticket_id, PStr execution_id =>
                payload ← on_git (_read_drop_disposition (st_repo c) ticket_id execution_id);
                mret (if is_missing payload then None else Some (ticket_id, execution_id))
            | _, _ => mret None
            end;
  match dropped with
  | Some (ticket_id, execution_id) =>
      _ ← remember (set_drop_recovery (Some (ticket_id +:+ ":" +:+ execution_id)));
      _ ← _drop_owned c ticket_id (Some execution_id);
      _ ← remember (set_drop_recovery None);
      mret 0%Z
  | None => report ← _recover_lifecycle_report c; complete report
  end.

(** A running execution that is found at the start of an iteration. *)
Definition resume_running (state : dict) (authorization : option ExecutionAuthorization)
    : E (Z + option ExecutionAuthorization) :=
  if negb (eq_str (get state "phase") "agent_running") then goes_on authorization else
  stopped ← _stop_requested;
  if (stopped : bool) then returns_with 0 else
  let stage := get state "execution_stage" in
  if existsb (eq_str stage) ["checkpointing"; "post-checkpoint"; "publishing"; "post-publication"]
  then
    _ ← _recover_checkpoint_publication c loads_yaml;
    report ← _recover_lifecycle_report c;
    status ← complete report;
    returns_with status
  else if eq_str stage "lifecycle" && is_none (get state "worker_identity")
  then status ← resume_lifecycle state; returns_with status
  else
  automatic ← _reconcile_stranded_execution c state_file loads_yaml;
  match automatic with
  | None => returns_with 0
  | Some ticket_id =>
      stopped ← _stop_requested;
      if (stopped : bool) then returns_with 0
      else match authorization with
      | Some _ => py_raise DevlegateError "explicit retry cannot also authorize automatic resume"
      | None => goes_on (Some (mkAuth ticket_id "automatic_resume"))
      end
  end.

(** Everything before the observation of the working tree. *)
Definition resume_persisted (authorization : option ExecutionAuthorization)
    : E (Z + option ExecutionAuthorization) :=
  _ ← _publish_service_snapshot (mkUpdate (Some "processing") None None None None None None None None);
  state ← state_now;
  let authorization := forced_authorization state authorization in
  stopped ← _stop_requested;
  if stopped && negb (eq_str (get state "phase") "merge_pending") then returns_with 0 else
  _ ← remember (set_validated false);
  _ ⇐ resume_operator_recovery state;
  _ ← check_current_branch;
  _ ⇐ resume_integration state;
  _ ⇐ resume_resolving state;
  resume_running state authorization.

(** * The plan *)

Definition zero_delta_identity {A} : E A :=
  py_raise WorkflowBlockedError "automatic zero-delta retry identity is invalid".

(** [ticket is not None and ticket.state == "todo" and ticket in runnable] *)
Definition runnable_todo (store : TicketStore) (ticket_id : string) : bool :=
  match ts_by_id store !! ticket_id with
  | Some t => is_state (tk_state t) Todo && is_runnable store t
  | None => false
  end.

Definition give_up_retry (retry : dict) : E unit :=
  save_fields "idle"
    [("automatic_retry", PNone);
     ("last_automatic_retry", PDict (dmerge retry [("status", PStr "not_admitted")]))].

Definition _discard_ineligible_zero_delta_retry (store : TicketStore) : E unit :=
  state ← state_now;
  match get state "automatic_retry" with
  | PDict retry =>
      if negb (eq_str (get retry "status") "pending_admission") then mret tt else
      match get retry "ticket_id" with
      | PStr ticket_id => if runnable_todo store ticket_id then mret tt else give_up_retry retry
      | _ => zero_delta_identity
      end
  | _ => mret tt
  end.

Definition _automatic_zero_delta_authorization (store : TicketStore) (plan : ExecutionPlan)
    (local_head remote_head : string) : E (option ExecutionAuthorization) :=
  state ← state_now;
  match get state "automatic_retry" with
  | PDict retry =>
      if negb (existsb (eq_str (get retry "status")) ["pending_admission"; "admitted"]) then mret None else
      match get retry "ticket_id", get retry "original_base" with
      | PStr ticket_id, PStr original_base =>
          if negb (runnable_todo store ticket_id) then _ ← give_up_retry retry; mret None
          else if negb (bool_decide (pl_ticket_id plan = Some ticket_id)) ||
                  negb (pl_action plan =? "run-worker")%string || pl_bound plan
          then mret None
          else if negb (local_head =? remote_head)%string || (local_head =? original_base)%string
          then py_raise WorkflowBlockedError "automatic zero-delta retry requires one current product generation"
          else
          ancestor ← on_git (_git (st_repo c) ["merge-base"; "--is-ancestor"; original_base; local_head]);
          if failed ancestor
          then py_raise WorkflowBlockedError "automatic zero-delta retry product history is not a descendant"
          else
          _ ← (if eq_str (get retry "product_head") local_head then mret tt
               else save_fields "idle"
                      [("automatic_retry", PDict (dset retry "product_head" (PStr local_head)))]);
          mret (Some (mkAuth ticket_id "zero_delta_product_drift"))
      | _, _ => zero_delta_identity
      end
  | _ => mret None
  end.

(** The two observations that the synchronization proved. *)
Definition proven_observation (synced : synchronized) (heads : string * string) : git_observation :=
  mkGit (mkGitObs (st_current_branch c) false (sy_local_head synced) (remote_ref c)
           (Some (sy_remote_head synced)) true (_status_fingerprint ""))
        (Some (mkGitObs (Some (st_control_branch c)) false (fst heads)
                 (st_remote_name c +:+ "/" +:+ st_control_branch c) (Some (snd heads)) true
                 (_status_fingerprint ""))).

(** [self._make_execution_plan(self._state, ticket_store, False, observation=...)] *)
Definition plan_now (store : TicketStore) (git : git_observation) : E ExecutionPlan :=
  state ← state_now;
  i ← inspection c state store false true (gt_code git);
  w ← world;
  py_lift (_make_execution_plan (hw_observe_worker w) (fun _ => i) state store false true git).

Definition repair_bound : E unit :=
  state ← state_now;
  w ← world;
  on_git (_repair_bound_execution_workspace (st_recursion_limit c) (st_repo c) (st_execution_worktree_root c)
            (gw_files w) state).

(** The plan, after the repair of a recoverable workspace. *)
Definition repaired_plan (pending : bool) (store : TicketStore) (git : git_observation) : E ExecutionPlan :=
  plan ← plan_now store git;
  if pending && (pl_action plan =? "blocked")%string &&
     starts_with "bound execution workspace is recoverable:" (pl_reason plan)
  then _ ← repair_bound; plan_now store git
  else mret plan.

(** The plan that an authorization asks for, when it is still eligible. *)
Definition authorized_plan (store : TicketStore) (plan : ExecutionPlan)
    (authorization : option ExecutionAuthorization) : E ExecutionPlan :=
  match authorization with
  | None => mret plan
  | Some a =>
      if negb (pl_action plan =? "run-worker")%string || pl_bound plan
      then py_raise DevlegateError (pl_reason plan)
      else match ts_by_id store !! au_ticket_id a with
      | Some t =>
          if negb (runnable_todo store (au_ticket_id a))
          then py_raise DevlegateError ("ticket " +:+ au_ticket_id a +:+ " is no longer eligible for retry")
          else mret (mkPlan "run-worker"
                 (if is_automatic_resume a then "automatic resume of safely interrupted execution"
                  else if is_zero_delta_retry a then "automatic retry after zero-delta product drift"
                  else "explicit retry of current failed execution")
                 (Some (tk_id t)) (Some (tk_title t)) (Some (state_name (tk_state t))) false
                 (pl_code plan) (pl_control plan))
      | None => py_raise DevlegateError ("ticket " +:+ au_ticket_id a +:+ " is no longer eligible for retry")
      end
  end.

(** [load_project_context(self.repo)] *)
Definition check_project_context : E unit :=
  recast (is_class ProjectContextError) WorkflowBlockedError (fun m => m)
    (w ← world; py_lift (hw_project_context w)).

(** From the synchronized checkout to the plan that is carried out. *)
Definition make_plan_now (pending : bool) (synced : synchronized) (heads : string * string)
    (authorization : option ExecutionAuthorization)
    : E (Z + (TicketStore * ExecutionPlan * option ExecutionAuthorization)) :=
  _ ⇐ stop_here;
  store ← control_store c loads_yaml;
  _ ← check_project_context;
  _ ← _discard_ineligible_zero_delta_retry store;
  plan ← repaired_plan pending store (proven_observation synced heads);
  _ ← _publish_ticket_projection store (pl_code plan) (pl_control plan)
        (if (pl_action plan =? "blocked")%string then Some (pl_reason plan) else None);
  _ ← refresh_views;
  automatic ← _automatic_zero_delta_authorization store plan (sy_local_head synced) (sy_remote_head synced);
  let authorization := match automatic with Some a => Some a | None => authorization end in
  _ ⇐ stop_here;
  plan ← authorized_plan store plan authorization;
  if (pl_action plan =? "blocked")%string then py_raise DevlegateError (pl_reason plan)
  else goes_on (store, plan, authorization).

(** * Accepted work *)

(** An integration that is already recorded. *)
Definition continue_integration (plan : ExecutionPlan) (synced : synchronized) (pending : dict) : E Z :=
  store ← control_store c loads_yaml;
  let ticket_id := py_str (get pending "ticket_id") in
  let known := match get pending "ticket_id" with
    | PStr k => bool_decide (is_Some (ts_by_id store !! k))
    | _ => false
    end in
  if negb known
  then py_raise WorkflowBlockedError "accepted integration ticket is no longer observable"
  else if negb (is_str (get pending "control_head"))
  then py_raise DevlegateError "invalid accepted integration control identity"
  else
  checkpoint_head ← on_git (_accepted_checkpoint c ticket_id);
  if negb (eq_str (get pending "checkpoint") checkpoint_head)
  then py_raise WorkflowBlockedError "accepted integration checkpoint changed during recovery"
  else match pl_code plan, pl_control plan with
  | Some code, Some control =>
      _ ← status_view_now;
      state ← state_now;
      control_head ← on_git (_integrate_accepted c loads_yaml state ticket_id (Some code) (Some control));
      _ ← integration_done (sy_remote_head synced) control_head;
      mret 0%Z
  | _, _ => py_raise WorkflowBlockedError "accepted integration lacks fresh Git observations"
  end.

(** A new integration, recorded before it starts. *)
Definition start_integration (plan : ExecutionPlan) (synced : synchronized) : E Z :=
  match pl_ticket_id plan, pl_control plan with
  | Some ticket_id, Some control =>
      checkpoint_head ← on_git (_accepted_checkpoint c ticket_id);
      _ ← save_fields "idle"
            [("accepted_integration",
              PDict [("ticket_id", PStr ticket_id); ("checkpoint", PStr checkpoint_head);
                     ("control_head", PStr (go_local_head control))])];
      _ ← status_view_now;
      state ← state_now;
      control_head ← recast (fun e => is_devlegate_error e || is_os_error e || is_report_error e) DevlegateError
        (fun m => "accepted integration failed: " +:+ m)
        (on_git (_integrate_accepted c loads_yaml state ticket_id (pl_code plan) (Some control)));
      _ ← integration_done (sy_remote_head synced) control_head;
      mret 0%Z
  | _, _ => py_raise PyAssertionError ""
  end.
End Planning.
