(* ===== verification/Iteration.v ===== *)
(** One scheduler iteration, [src/devlegate/runtime.py], [run_iteration]: the
    admission of an execution, the run of its worker, the checkpoint and the
    publication of what the worker did, and the body that puts the parts of an
    iteration together. *)

From S2P Require Export IterationPlan.

Section Iteration.
Context {W : Type} `{GitWorld W, !EngineWorld W, !HostWorld W}.
Context {St : Type} `{RuntimeStore St, !ObservableStore St}.
Variable c : settings.
Variable state_file : string.
Variable loads_yaml : string -> string + dict.
Variables (randoms_md randoms_json : list string).
Variable texts : prompt_texts.

Abbreviation M := (py (logged W)).
Abbreviation E := (py (engine (W := W) (St := St))).
Abbreviation refresh_views := (refresh (W := W) (St := St) c state_file loads_yaml).
Abbreviation lifecycle_head := (lifecycle_of_report (W := W) (St := St) c loads_yaml randoms_md randoms_json).
Abbreviation complete := (_complete_execution_lifecycle (W := W) (St := St) c state_file loads_yaml randoms_md randoms_json).

(** * Admission *)

(** [dataclasses.replace(ticket, body=body)] *)
Definition with_body (body : string) (t : Ticket) : Ticket :=
  mkTicket (tk_id t) (tk_state t) (tk_title t) (tk_depends_on t) body (tk_path t).

(** The ticket of the plan, with the body it was admitted with. *)
Definition selected_ticket (pending : bool) (store : TicketStore) (plan : ExecutionPlan) : E (option Ticket) :=
  if (pl_action plan =? "none")%string then mret None else
  match pl_ticket_id plan with
  | None => py_raise PyAssertionError ""
  | Some k =>
      match ts_by_id store !! k with
      | None => py_raise PyKeyError (repr_str k)
      | Some t =>
          if negb pending then mret (Some t) else
          state ← state_now;
          match get state "selected_ticket_body" with
          | PStr body => mret (Some (with_body body t))
          | _ => py_raise DevlegateError "invalid execution state: selected ticket binding is incomplete"
          end
      end
  end.

(** The revisions that identify a generation of work. *)
Record generation : Type := mkGeneration {
  gn_local_head : string;
  gn_remote_head : string;
  gn_control_head : string;
  gn_todo_fingerprint : string
}.

Definition handled_same (state : dict) (g : generation) : bool :=
  let text k := py_str (get_or state k (PStr "")) in
  (text "handled_remote_head" =? gn_remote_head g)%string &&
  (text "handled_control_head" =? gn_control_head g)%string &&
  (text "handled_todo_fingerprint" =? gn_todo_fingerprint g)%string.

(** The recorded failure of a ticket. *)
Definition failure_of (state : dict) (ticket_id : string) : option dict :=
  match get_or state "failed_executions" (PDict []) with
  | PDict failures => match get failures ticket_id with PDict d => Some d | _ => None end
  | _ => None
  end.

(** The failure happened at exactly this generation. *)
Definition failed_at (failure : dict) (g : generation) : bool :=
  eq_str (get failure "product_head") (gn_local_head g) && eq_str (get failure "remote_head") (gn_remote_head g) &&
  eq_str (get failure "control_head") (gn_control_head g) &&
  eq_str (get failure "todo_fingerprint") (gn_todo_fingerprint g).

Definition is_interrupted (failure : option dict) : bool :=
  match failure with Some d => is_true (get d "interrupted") | None => false end.

Definition resumable_kind (failure : option dict) : bool :=
  match failure with
  | Some d => existsb (eq_str (get d "interruption_kind")) ["operator_abort"; "service_shutdown"; "process_loss"]
  | None => false
  end.

(** The manual retry barrier does not belong to the recorded failure of the
    ticket. *)
Definition stale_barrier (manual : dict) (ticket_id : string) (failure : option dict) : bool :=
  negb (eq_str (get manual "ticket_id") ticket_id) ||
  match failure with
  | None => true
  | Some d => negb (py_eq (get d "execution_id") (get manual "execution_id")) ||
              negb (py_eq (get d "generation") (get manual "generation"))
  end.

(** [self._state["resume_required"]] asks for this ticket. *)
Definition resume_required_for (state : dict) (ticket_id : string) : bool :=
  match get state "resume_required" with
  | PDict d => eq_str (get d "status") "required" && eq_str (get d "ticket_id") ticket_id
  | _ => false
  end.

Definition holds_auth (p : ExecutionAuthorization -> bool) (a : option ExecutionAuthorization) : bool :=
  match a with Some a => p a | None => false end.

(** An interrupted execution of a fresh plan: resumed automatically, or left to an
    explicit retry ([None]). *)
Definition automatic_resume (failure : option dict) (same_generation barrier : bool) (plan : ExecutionPlan)
    (ticket_id : string) (authorization : option ExecutionAuthorization) : option (option ExecutionAuthorization) :=
  if is_missing authorization && (pl_action plan =? "run-worker")%string && negb (pl_bound plan) &&
     is_interrupted failure
  then if resumable_kind failure && same_generation && negb barrier
       then Some (Some (mkAuth ticket_id "automatic_resume")) else None
  else Some authorization.

(** An authorization that repeats an execution is still about the recorded
    failure. *)
Definition check_authorization (failure : option dict) (g : generation) (ticket_id : string)
    (authorization : option ExecutionAuthorization) : res unit :=
  match authorization with
  | None => Ok tt
  | Some a =>
      _ ← (if is_zero_delta_retry a || is_forced_retry a then Ok tt else
           match failure with
           | Some d =>
               if negb (failed_at d g)
               then raise DevlegateError ("ticket " +:+ au_ticket_id a +:+ " failed execution is stale; current " +:+
                                          "project state must be reviewed before retry")
               else if is_automatic_resume a && negb (is_interrupted failure && resumable_kind failure)
               then raise DevlegateError "automatic resume requires a safely interrupted execution"
               else Ok tt
           | None => raise DevlegateError ("ticket " +:+ au_ticket_id a +:+ " failed execution is stale; current " +:+
                                           "project state must be reviewed before retry")
           end);
      if is_explicit_retry a && negb (ticket_id =? au_ticket_id a)%string
      then raise DevlegateError ("ticket " +:+ au_ticket_id a +:+ " is no longer the current runnable ticket")
      else if is_automatic_resume a && negb (ticket_id =? au_ticket_id a)%string
      then raise DevlegateError "automatic resume ticket is no longer the current runnable ticket"
      else Ok tt
  end.

(** An execution that failed on the handled generation is not repeated by itself. *)
Definition retry_suppressed (failure : option dict) (pending same_generation : bool)
    (authorization : option ExecutionAuthorization) : bool :=
  is_missing authorization && negb pending && same_generation &&
  match failure with Some d => truthy (get d "execution_id") | None => false end.

Definition already_handled (state : dict) (ticket_id : string) (pending same_generation resume_required : bool)
    (authorization : option ExecutionAuthorization) : bool :=
  same_generation && negb pending && is_missing authorization && negb resume_required &&
  eq_str (get state "execution_ticket_id") ticket_id.

(** May the ticket be started in this generation?  The authorization it is started
    under, or nothing when the iteration ends quietly. *)
Definition authorize (state : dict) (manual : bool) (g : generation) (pending : bool) (plan : ExecutionPlan)
    (ticket_id : string) (authorization : option ExecutionAuthorization)
    : res (option (option ExecutionAuthorization)) :=
  let failure := failure_of state ticket_id in
  let same := handled_same state g in
  match automatic_resume failure same manual plan ticket_id authorization with
  | None => Ok None
  | Some authorization =>
      _ ← check_authorization failure g ticket_id authorization;
      if retry_suppressed failure pending same authorization then Ok None
      else if already_handled state ticket_id pending same (resume_required_for state ticket_id) authorization
      then Ok None
      else Ok (Some authorization)
  end.

(** The barrier of an earlier ticket or generation is cleared; the result is
    whether one stands. *)
Definition clear_stale_barrier (ticket_id : string) : E bool :=
  state ← state_now;
  match get state "manual_retry_required" with
  | PDict manual =>
      if stale_barrier manual ticket_id (failure_of state ticket_id)
      then _ ← save_fields "idle" [("manual_retry_required", PNone)]; mret false
      else mret true
  | v => mret (negb (is_none v))
  end.

(** [self._state.get("force_retry_authorization", {}).get(key, default)] *)
Definition forced_field (state : dict) (key : string) (alternative : pyval) : E pyval :=
  match get_or state "force_retry_authorization" (PDict []) with
  | PDict d => mret (get_or d key alternative)
  | _ => py_raise PyAttributeError "get"
  end.

(** The persisted execution already belongs to the ticket. *)
Definition existing_lineage (state : dict) (ticket_id : string) : bool :=
  eq_str (get state "execution_ticket_id") ticket_id && is_str (get state "execution_base_head") &&
  is_str (get state "execution_control_head").

Definition work_branch (ticket_id : string) : string := "devlegate/work/" +:+ ticket_id.

Definition admitted_base (state : dict) (ticket_id local_head : string) (forced : bool) : E pyval :=
  if existing_lineage state ticket_id then mret (get state "execution_base_head")
  else if forced then forced_field state "execution_base_head" (PStr local_head)
  else mret (PStr local_head).

Definition admitted_remote (state : dict) (ticket_id : string) (pending forced : bool) : E pyval :=
  value ← (if pending then mret (get state "execution_remote_head")
           else if forced then forced_field state "execution_remote_head" PNone
           else
             remote ← on_git (_execution_remote_head (st_repo c) (st_remote_name c) (work_branch ticket_id));
             mret (opt_str remote));
  if negb (is_none value) && negb (is_str value)
  then py_raise DevlegateError "invalid persisted execution remote identity"
  else mret value.

Definition admitted_id (state : dict) (pending zero_delta : bool) : E string :=
  let fresh := match zero_delta, get state "automatic_retry" with
    | true, PDict retry => get retry "fresh_execution_id"
    | _, _ => PNone
    end in
  value ← (if pending then mret (get state "execution_id")
           else if truthy fresh then mret fresh
           else new ← new_execution_id; mret (PStr new));
  if nonempty_str value then mret (str_of value)
  else py_raise DevlegateError "invalid persisted execution identity".

(** [self.execution_worktree_root / "work" / ticket_id] *)
Definition execution_path (ticket_id : string) : string :=
  path_str (path_child (path_child (st_execution_worktree_root c) "work") ticket_id).

(** The durable admission: from here on the execution is bound. *)
Definition admit_execution (g : generation) (changed_paths : string) (pending : bool) (t : Ticket)
    (authorization : option ExecutionAuthorization) : E string :=
  state ← state_now;
  let forced := holds_auth is_forced_retry authorization in
  let zero_delta := holds_auth is_zero_delta_retry authorization in
  let control_head := if pending && existing_lineage state (tk_id t)
                      then get state "execution_control_head" else PStr (gn_control_head g) in
  base ← admitted_base state (tk_id t) (gn_local_head g) forced;
  remote ← admitted_remote state (tk_id t) pending forced;
  execution_id ← admitted_id state pending zero_delta;
  let retry := get state "automatic_retry" in
  let retry := match zero_delta, retry with
    | true, PDict d => PDict (dmerge d [("status", PStr "admitted"); ("fresh_execution_id", PStr execution_id)])
    | _, _ => retry
    end in
  _ ← save_fields "agent_pending"
        [("local_head", PStr (gn_local_head g)); ("remote_head", PStr (gn_remote_head g));
         ("changed_paths", PStr changed_paths); ("handled_remote_head", PStr (gn_remote_head g));
         ("handled_control_head", PStr (gn_control_head g)); ("control_head", PStr (gn_control_head g));
         ("handled_todo_fingerprint", PStr (gn_todo_fingerprint g));
         ("selected_ticket_id", PStr (tk_id t)); ("selected_ticket_body", PStr (tk_body t));
         ("selected_ticket_title", PStr (tk_title t)); ("execution_ticket_id", PStr (tk_id t));
         ("execution_base_head", base); ("execution_control_head", control_head);
         ("execution_branch", PStr (work_branch (tk_id t))); ("execution_path", PStr (execution_path (tk_id t)));
         ("execution_id", PStr execution_id); ("execution_remote_head", remote); ("worker_identity", PNone);
         ("resume_required", PNone); ("force_retry_authorization", PNone); ("automatic_retry", retry)];
  mret execution_id.

(** What is admitted: the ticket, whether its resumption was required, the
    authorization, and the execution id when it was set here. *)
Record admission : Type := mkAdmission {
  ad_ticket : option Ticket;
  ad_resume_required : bool;
  ad_authorization : option ExecutionAuthorization;
  ad_execution_id : option string
}.

(** The branch of the body for the phases that synchronize. *)
Definition admit_ticket (g : generation) (changed_paths : string) (pending : bool) (store : TicketStore)
    (plan : ExecutionPlan) (ticket : option Ticket) (authorization : option ExecutionAuthorization)
    : E (Z + admission) :=
  match ticket with
  | None =>
      if pending then py_raise PyAttributeError "'NoneType' object has no attribute 'id'" else
      _ ← save_fields "idle"
            [("handled_remote_head", PStr (gn_remote_head g)); ("handled_control_head", PStr (gn_control_head g));
             ("handled_todo_fingerprint", PStr (gn_todo_fingerprint g))];
      _ ← py_lift (_dependency_blocked_tickets store);
      returns_with 0
  | Some t =>
      before ← state_now;
      manual ← clear_stale_barrier (tk_id t);
      state ← state_now;
      decision ← py_lift (authorize (dset state "failed_executions" (get_or before "failed_executions" (PDict [])))
                            manual g pending plan (tk_id t) authorization);
      match decision with
      | None => returns_with 0
      | Some authorization =>
          let resume_required := resume_required_for state (tk_id t) in
          execution_id ← admit_execution g changed_paths pending t authorization;
          _ ⇐ stop_here;
          _ ← remember (set_owned (Some execution_id));
          _ ← publish_worker None false;
          goes_on (mkAdmission (Some t) resume_required authorization (Some execution_id))
      end
  end.

(** * The worker *)

(** [_prepare_execution_workspace], with the revisions of the plan. *)
Definition prepare_workspace (state : dict) (ticket_id : string) (code control : GitObservation)
    : M ExecutionWorkspace :=
  let same_ticket := eq_str (get state "execution_ticket_id") ticket_id in
  let bound (k : string) := if same_ticket then str_opt (get state k) else None in
  let bound_control :=
    if existsb (String.eqb (py_str (get state "phase"))) ["agent_pending"; "agent_running"]
    then bound "execution_control_head" else None in
  let differs (o : option string) (expected : string) :=
    match o with Some s => negb (s =? expected)%string | None => false end in
  if differs bound_control (go_local_head control)
  then refuse "control revision changed after execution was planned; refusing stale execution"
  else
  manager ← new_manager (st_repo c) (st_execution_worktree_root c) ticket_id;
  if differs (bound "execution_branch") (mg_branch manager)
  then refuse ("persisted execution branch " +:+ default "" (bound "execution_branch") +:+
               " does not match expected branch " +:+ mg_branch manager)
  else if match bound "execution_path" with
          | Some s => negb (bool_decide (Path_of s = mg_path manager))
          | None => false
          end
  then refuse ("persisted execution path " +:+ default "" (bound "execution_path") +:+
               " does not match expected path " +:+ path_str (mg_path manager))
  else
  workspace ← prepare (st_recursion_limit c) manager
                (default (go_local_head code) (bound "execution_base_head"));
  current_control ← _git_check (st_control_worktree c) ["rev-parse"; "HEAD"];
  if negb (strip (stdout current_control) =? go_local_head control)%string
  then refuse "control revision changed during workspace preparation; refusing stale execution"
  else mret workspace.

Definition _prepare_execution_workspace (plan : ExecutionPlan) : E ExecutionWorkspace :=
  match pl_ticket_id plan, pl_code plan, pl_control plan with
  | Some ticket_id, Some code, Some control =>
      state ← state_now; on_git (prepare_workspace state ticket_id code control)
  | _, _, _ => py_raise ExecutionWorkspaceError "execution plan has no complete revision binding"
  end.

(** Is the work resumed, or new? *)
Definition work_directive (state : dict) (bound : bool) (ad : admission) (ticket_id : string)
    (workspace : ExecutionWorkspace) : WorkDirective :=
  let authorized p := holds_auth p (ad_authorization ad) in
  if bound || ad_resume_required ad || authorized is_automatic_resume ||
     (authorized is_explicit_retry &&
      (negb (ew_head workspace =? ew_base_head workspace)%string ||
       is_interrupted (failure_of state ticket_id))) ||
     authorized is_forced_retry
  then RESUME else FRESH.

(** The id of the execution: the admitted one, the persisted one, a new one. *)
Definition execution_id_of (state : dict) (ad : admission) : E string :=
  let value := match ad_execution_id ad with Some i => PStr i | None => get state "execution_id" end in
  if nonempty_str value then mret (str_of value) else new_execution_id.

Definition execution_remote_of (state : dict) (workspace : ExecutionWorkspace) : E pyval :=
  if has_key state "execution_remote_head" then mret (get state "execution_remote_head")
  else
    remote ← on_git (_execution_remote_head (st_repo c) (st_remote_name c) (ew_branch workspace));
    mret (opt_str remote).

(** The durable state under which a worker is started. *)
Definition save_worker_launch (ticket_id : string) (workspace : ExecutionWorkspace) (execution_id : string) (remote : pyval) : E unit :=
  state ← state_now;
  control_head ← py_lift (getitem state "control_head");
  save_fields "agent_running"
    [("execution_stage", PStr "worker-launch"); ("execution_start_head", PStr (ew_head workspace));
     ("execution_ticket_id", PStr ticket_id);
     ("execution_base_head", PStr (ew_base_head workspace));
     ("execution_control_head", PStr (py_str control_head)); ("execution_branch", PStr (ew_branch workspace));
     ("execution_path", PStr (path_str (ew_path workspace))); ("execution_id", PStr execution_id);
     ("execution_remote_head", remote); ("worker_identity", PNone)].

(** [_record_worker_identity] *)
Definition _record_worker_identity (identity : WorkerProcessIdentity) : E unit :=
  _ ← save_fields "agent_running"
        [("execution_stage", PStr "worker-running"); ("worker_identity", PDict (identity_dict identity))];
  refresh_views.

(** [identity_handler] and [interruption_handler] *)
Definition handle_call (call : worker_call) : E unit :=
  match call with
  | Identified identity => _record_worker_identity identity
  | Interrupted kind => save_fields "agent_running" [("execution_interruption_kind", PStr kind)]
  end.

Definition start_worker (workspace : ExecutionWorkspace) (prompt execution_id : string) : E (list worker_call) :=
  fun s => match hw_start workspace prompt execution_id (en_world s) with
  | (Some calls, w) => (Ok calls, set_world w [Launched workspace prompt execution_id] s)
  | (None, w) => (Raise (Exn WorkerAdmissionClosed "worker admission is closed"), set_world w [] s)
  end.

Definition finish_worker (execution_id : string) (outcomes : list (option exn)) : E WorkerRunResult :=
  fun s => let '(r, w) := hw_finish execution_id outcomes (en_world s) in (r, set_world w [] s).

(** What the worker learns of a call: the error that it raised. *)
Definition raised {A} (r : res A) : option exn := match r with Raise e => Some e | Ok _ => None end.

Fixpoint handle_calls (calls : list worker_call) : E (list (option exn)) :=
  match calls with
  | [] => mret []
  | call :: rest =>
      outcome ← attempt (handle_call call);
      outcomes ← handle_calls rest;
      mret (raised outcome :: outcomes)
  end.

(** [self._workers.run(...)] *)
Definition run_worker (workspace : ExecutionWorkspace) (prompt execution_id : string) : E WorkerRunResult :=
  calls ← start_worker workspace prompt execution_id;
  outcomes ← handle_calls calls;
  finish_worker execution_id outcomes.

(** The worker ran, or it was not admitted; the [finally] clause. *)
Definition leave_worker (run : res (Z + WorkerRunResult)) : E unit :=
  _ ← (match run with
       | Ok (inr run) =>
           if run_worker_group_retired run
           then save_fields "agent_running" [("execution_stage", PStr "post-worker"); ("worker_identity", PNone)]
           else mret tt
       | _ => mret tt
       end);
  _ ← publish_worker (Some "processing") false;
  refresh_views.

Definition work (workspace : ExecutionWorkspace) (prompt execution_id : string) : E (Z + WorkerRunResult) :=
  outcome ← attempt
    (py_catch (run ← run_worker workspace prompt execution_id; goes_on run) (is_class WorkerAdmissionClosed)
       (fun _ =>
          _ ← save_fields "idle"
                [("execution_stage", PNone); ("pending_execution_report", PNone); ("worker_identity", PNone)];
          returns_with 0));
  _ ← leave_worker outcome;
  py_lift outcome.

(** The dependencies of the workspace are what they were; the manager of the
    checkpoint. *)
Definition verify_dependencies (ticket_id execution_id local_head remote_head : string)
    (workspace : ExecutionWorkspace) : E ExecutionWorkspaceManager :=
  let record (e : exn) :=
    _record_post_worker_failure c state_file loads_yaml ticket_id execution_id local_head remote_head (exn_msg e) in
  py_catch
    (on_git (manager ← new_manager (st_repo c) (st_execution_worktree_root c) ticket_id;
             _ ← verify_submodules (st_recursion_limit c) manager workspace;
             mret manager))
    (fun e => is_workspace_error e || is_os_error e || is_devlegate_error e)
    (fun e =>
       _ ← record e;
       if is_workspace_error e || is_os_error e
       then py_raise DevlegateError
              ("post-worker execution integrity failed; execution dependency integrity cannot be proven: " +:+
               exn_msg e)
       else py_lift (Raise e)).

(** The report of the run, and its checkpoint. *)
Definition report_run (ticket_id execution_id : string) (workspace : ExecutionWorkspace) (run : WorkerRunResult)
    : E ExecutionReport :=
  state ← state_now;
  control_head ← py_lift (getitem state "execution_control_head");
  report ← py_lift (build_execution_report execution_id ticket_id (ew_base_head workspace) (py_str control_head)
                      (ew_branch workspace) (path_str (ew_path workspace)) None run);
  _ ← (if failed_conclusion report
       then remember (set_diagnostic (Some ("worker failed: " +:+ er_reason (rep_result report))))
       else mret tt);
  _ ← save_fields "agent_running"
        [("execution_stage", PStr "checkpointing"); ("pending_execution_report", as_dict report)];
  _ ← refresh_views;
  mret report.

Definition checkpoint_run (manager : ExecutionWorkspaceManager) (t : Ticket) (workspace : ExecutionWorkspace)
    (report : ExecutionReport) : E ExecutionReport :=
  made ← recast (fun e => is_workspace_error e || is_os_error e) DevlegateError
           (fun m => "execution checkpoint failed: " +:+ m)
           (on_git (checkpoint manager workspace (rep_execution_id report) (tk_title t) (summary_of report)));
  let report := with_workspace_head (ck_after_head made) report in
  _ ← save_fields "agent_running"
        [("execution_stage", PStr "post-checkpoint"); ("pending_execution_report", as_dict report)];
  _ ← refresh_views;
  mret report.

(** A drain that came while the worker ran ends the iteration. *)
Definition drained_here : E (Z + unit) :=
  drain ← drain_pending;
  if negb drain then goes_on tt else
  intent ← intent_now;
  _ ← publish_worker (Some (if bool_decide (intent = Some "restart") then "restarting" else "stopping")) false;
  _ ← refresh_views;
  returns_with 0.

Definition blocked_turn {A} (reason : string) : E (Z + A) := _ ← publish_blocked reason; returns_with 1.

(** The product moved under a worker that changed something. *)
Definition ask_reconciliation (report : ExecutionReport) (product : product_generation)
    (execution_remote_head : pyval) : E Z :=
  let moved := if negb (pg_local_head product =? rep_code_base_head report)%string
               then pg_local_head product else pg_remote_head product in
  let observed_product := if (moved =? "")%string then rep_code_base_head report else moved in
  let evidence_ref := _reconciliation_evidence_ref (rep_ticket_id report) (rep_execution_id report) in
  _ ← on_git (pin_reconciliation_evidence c DevlegateError evidence_ref (rep_workspace_head report));
  state ← state_now;
  control_head ← py_lift (getitem state "execution_control_head");
  _ ← save_reconciliation product
        (reconciliation_record report product observed_product evidence_ref execution_remote_head control_head);
  _ ← refresh_views;
  _ ← publish_blocked ("reconciliation required: ticket " +:+ rep_ticket_id report +:+ "; original base " +:+
        rep_code_base_head report +:+ "; observed product " +:+ observed_product +:+ "; product state " +:+
        pg_reason product +:+ "; worker checkpoint " +:+ default "None" (rep_workspace_head report));
  mret 1%Z.

(** The product generation decides how a checkpointed execution goes on: only a
    stable one is published. *)
Definition prove_stable (report : ExecutionReport) (execution_remote_head : pyval) : E (Z + unit) :=
  product ← on_git (_observe_product_generation c (rep_code_base_head report));
  if (pg_classification product =? "unobservable")%string
  then blocked_turn "product remote could not be observed; retrying when connectivity returns"
  else if (pg_classification product =? "unsafe-local")%string && (pg_remote_head product =? "")%string
  then blocked_turn ("product generation is unsafe-local; " +:+ pg_reason product)
  else if pg_stable product then goes_on tt
  else
  state ← state_now;
  drifted ← on_git (_is_zero_delta_stale_product_drift c state (rep_code_base_head report)
                      (rep_workspace_head report) product);
  status ← (if (drifted : bool)
            then _ ← save_zero_delta report product; _ ← refresh_views; complete report
            else ask_reconciliation report product execution_remote_head);
  returns_with status.

(** Publication of the execution branch. *)
Definition publish_run (workspace : ExecutionWorkspace) (report : ExecutionReport) : E unit :=
  _ ← save_fields "agent_running" [("execution_stage", PStr "publishing")];
  _ ← refresh_views;
  state ← state_now;
  _ ← recast (fun e => is_devlegate_error e || is_os_error e) DevlegateError
        (fun m => "execution branch publication failed: " +:+ m)
        (on_git (_publish_execution_branch c workspace (default "" (rep_workspace_head report))
                   (str_opt (get state "execution_remote_head"))));
  _ ← save_fields "agent_running" [("execution_stage", PStr "post-publication")];
  refresh_views.

(** The lifecycle of a published report. *)
Definition conclude_run (local_head remote_head : string) (report : ExecutionReport) (run : WorkerRunResult) : E Z :=
  _ ← save_fields "agent_running"
        [("execution_stage", PStr "lifecycle"); ("pending_execution_report", as_dict report);
         ("execution_interruption_kind", opt_str (run_interruption_kind run))];
  _ ← refresh_views;
  control_head ← recast (fun e => is_devlegate_error e || is_os_error e || is_report_error e) DevlegateError
                   (fun m => "control-plane lifecycle failed: " +:+ m) (lifecycle_head report);
  _ ← _finalize_execution_lifecycle c state_file loads_yaml report control_head
        (mkFinal (Some local_head) (Some remote_head) false None None true);
  mret (if is_missing (run_interruption_kind run) && failed_conclusion report then 1 else 0)%Z.

(** Everything after the worker. *)
Definition after_worker (synced : synchronized) (t : Ticket) (execution_id : string) (remote : pyval)
    (workspace : ExecutionWorkspace) (run : WorkerRunResult) : E (Z + Z) :=
  if negb (run_worker_group_retired run)
  then py_raise DevlegateError "execution cgroup remains populated; worker retirement is unproven"
  else
  manager ← verify_dependencies (tk_id t) execution_id (sy_local_head synced) (sy_remote_head synced) workspace;
  report ← report_run (tk_id t) execution_id workspace run;
  report ← checkpoint_run manager t workspace report;
  _ ⇐ drained_here;
  _ ⇐ prove_stable report remote;
  _ ← publish_run workspace report;
  status ← conclude_run (sy_local_head synced) (sy_remote_head synced) report run;
  goes_on status.

(** From the admitted ticket to the end of its execution. *)
Definition execute (synced : synchronized) (bound : bool) (plan : ExecutionPlan) (ad : admission) : E (Z + Z) :=
  workspace ← recast (is_class ExecutionWorkspaceConflict) WorkspacePreparationBlockedError (fun m => m)
                (_prepare_execution_workspace plan);
  match ad_ticket ad with
  | None => py_raise PyAttributeError "'NoneType' object has no attribute 'id'"
  | Some t =>
      state ← state_now;
      execution_id ← execution_id_of state ad;
      remote ← execution_remote_of state workspace;
      prompt ← py_lift (build_worker_prompt texts
                          (mkPromptInput (tk_body t) (work_directive state bound ad (tk_id t) workspace)));
      _ ⇐ stop_here;
      _ ← save_worker_launch (tk_id t) workspace execution_id remote;
      _ ← remember (set_owned (Some execution_id));
      _ ← publish_worker (Some "worker") true;
      _ ← refresh_views;
      run ⇐ work workspace prompt execution_id;
      after_worker synced t execution_id remote workspace run
  end.

(** * The iteration *)

(** The phases that are admitted; in any other one the ticket is executed as the
    plan names it. *)
Definition admit_in (phase : pyval) (heads : string * string) (synced : synchronized) (store : TicketStore)
    (plan : ExecutionPlan) (ticket : option Ticket) (authorization : option ExecutionAuthorization)
    : E (Z + admission) :=
  if existsb (eq_str phase) ["idle"; "agent_pending"; "merge_pending"]
  then
    todo_fingerprint ← on_git (control_todo_fingerprint c);
    admit_ticket (mkGeneration (sy_local_head synced) (sy_remote_head synced) (fst heads) todo_fingerprint)
      (sy_changed_paths synced) (eq_str phase "agent_pending") store plan ticket authorization
  else goes_on (mkAdmission ticket false authorization None).

(** Accepted work goes before new work. *)
Definition integrate_first (plan : ExecutionPlan) (synced : synchronized) : E (Z + unit) :=
  state ← state_now;
  match get state "accepted_integration" with
  | PDict pending =>
      status ← continue_integration c state_file loads_yaml plan synced pending; returns_with status
  | PNone =>
      if (pl_action plan =? "integrate")%string
      then status ← start_integration c state_file loads_yaml plan synced; returns_with status
      else goes_on tt
  | _ => py_raise DevlegateError "invalid accepted integration state"
  end.

Definition _run_iteration_body (authorization : option ExecutionAuthorization) : E (Z + Z) :=
  authorization ⇐ resume_persisted c state_file loads_yaml randoms_md randoms_json authorization;
  state ← state_now;
  let phase := get state "phase" in
  '(synced, heads) ⇐ synchronize c;
  let bound := eq_str phase "agent_pending" in
  '(store, plan, authorization) ⇐ make_plan_now c state_file loads_yaml bound synced heads authorization;
  _ ⇐ integrate_first plan synced;
  ticket ← selected_ticket bound store plan;
  ad ⇐ admit_in phase heads synced store plan ticket authorization;
  execute synced bound plan ad.

Definition iteration_authorization (intent : option IterationIntent) : option ExecutionAuthorization :=
  match intent with
  | Some i =>
      option_map (fun t => mkAuth t (if in_force_retry i then "forced_retry" else "explicit_retry"))
        (in_retry_ticket_id i)
  | None => None
  end.

(** [run_iteration] *)
Definition run_iteration (intent : option IterationIntent) : E Z :=
  _ ← remember (set_owned None);
  outcome ← attempt (_run_iteration_body (iteration_authorization intent));
  _ ← remember (set_owned None);
  status ← py_lift outcome;
  mret (match status with inl n | inr n => n end).
End Iteration.
