(* ===== verification/Announced.v ===== *)
(** What the engine does and what its durable state says at that moment: the
    license that a state gives to a command, the effects of a turn as a sequence
    that the successive durable states announce, and the triples in which the
    parts of an iteration are proved to keep to it. *)

From S2P Require Export Iteration IntegrationSafety.

(** * The license of a durable state *)

Definition at_phase (d : dict) (phase : string) : Prop := get d "phase" = PStr phase.

(** The execution is running, at one of the stages. *)
Definition at_stage (d : dict) (stages : list string) : Prop :=
  at_phase d "agent_running" /\ exists s, get d "execution_stage" = PStr s /\ s ∈ stages.

(** Subcommands that change neither a branch nor a worktree nor the remote. *)
Definition reading (args : list string) : bool :=
  observation args ||
  match args with
  | cmd :: _ => existsb (String.eqb cmd)
      ["ls-remote"; "cat-file"; "log"; "show"; "diff-tree"; "rev-list"; "fetch"; "diff"]
  | [] => false
  end.

Section License.
Variable c : settings.

Definition reads_only (e : event) : Prop :=
  match e with Run _ args => reading args = true | _ => False end.

(** The control checkout follows its remote, and the product checkout its own. *)
Definition follows (e : event) : Prop :=
  e = Run (st_control_worktree c) ["merge"; "--ff-only"; st_remote_name c +:+ "/" +:+ st_control_branch c].
Definition forwards (e : event) : Prop :=
  e = Run (st_repo c) ["merge"; "--ff-only"; st_remote_name c +:+ "/" +:+ st_remote_branch c].

(** The workspace of the bound execution is prepared or repaired. *)
Definition arranges (d : dict) (e : event) : Prop :=
  exists m, mg_branch m = field d "execution_branch" /\ mg_path m = Path_of (field d "execution_path") /\
    repairs (st_repo c) d m e.

(** The push of the bound branch, leased on a head of its remote. *)
Definition branch_push (d : dict) (expected head : string) : list string :=
  ["push"; "--force-with-lease=refs/heads/" +:+ field d "execution_branch" +:+ ":" +:+ expected;
   st_remote_name c; head +:+ ":refs/heads/" +:+ field d "execution_branch"].

(** An operator's recovery preserves a head and returns the branch to the base. *)
Definition recovers (d : dict) (e : event) : Prop :=
  is_dict (get d "operator_recovery") = true /\
  ((exists ref head, starts_with "refs/devlegate/recovery/" ref = true /\
      (e = Run (st_repo c) ["update-ref"; ref; head; ""] \/
       e = Run (st_repo c) ["push"; st_remote_name c; head +:+ ":" +:+ ref])) \/
   exists head, e = Run (st_repo c) (branch_push d head (field d "execution_base_head"))).

(** The bound execution is committed. *)
Definition commits (d : dict) (e : event) : Prop :=
  exists m title summary, mg_ticket_id m = field d "execution_ticket_id" /\
    checkpoints m (field d "execution_id") title summary e.

(** Its checkpoint is kept as evidence for a reconciliation. *)
Definition pins (d : dict) (e : event) : Prop :=
  exists head, e = Run (st_repo c)
    ["update-ref"; _reconciliation_evidence_ref (field d "execution_ticket_id") (field d "execution_id"); head].

(** The head of the pending report is pushed, over the remote head that the
    execution was bound to. *)
Definition publishes (d : dict) (e : event) : Prop :=
  exists dir report head, from_dict (get d "pending_execution_report") = Ok report /\
    rep_workspace_head report = Some head /\
    e = Run dir (branch_push d (default "" (str_opt (get d "execution_remote_head"))) head).

(** A reconciliation that is being resolved pushes its checkpoint. *)
Definition resolving (d : dict) (e : event) : Prop :=
  exists r dir expected, get d "reconciliation" = PDict r /\ get r "status" = PStr "resolving" /\
    e = Run dir (branch_push d expected (py_str (get r "worker_checkpoint"))).

(** A result is recorded on the control branch, accepted work is delivered, and
    what an execution left behind is removed. *)
Definition records (args : list string) : Prop :=
  args = ["add"; "-A"] \/ (exists message, args = ["commit"; "-m"; message]) \/
  (exists head, args = ["reset"; "--hard"; head]) \/
  exists head, args = ["push"; st_remote_name c; head +:+ ":refs/heads/" +:+ st_control_branch c].

Definition delivers (args : list string) : Prop :=
  (exists head, args = ["push"; st_remote_name c; head +:+ ":refs/heads/" +:+ st_remote_branch c]) \/
  args = ["merge"; "--ff-only"; st_remote_name c +:+ "/" +:+ st_remote_branch c] \/
  exists ref head, starts_with "refs/devlegate/" ref = true /\ args = ["update-ref"; ref; head].

Definition settles (e : event) : Prop :=
  match e with
  | Edit _ => True
  | Run dir args => dir = st_control_worktree c /\ records args \/ dir = st_repo c /\ delivers args \/
                    retiring c args
  | RunInput dir args _ => dir = st_repo c /\ args = ["hash-object"; "-w"; "--stdin"]
  | Mkdir _ => False
  end.

(** The state says that a result is being settled. *)
Definition settling (d : dict) : Prop :=
  at_stage d ["lifecycle"] \/ exists r, get d "accepted_integration" = PDict r.

Definition licensed (d : dict) (e : event) : Prop :=
  reads_only e \/ follows e \/
  at_phase d "merge_pending" /\ forwards e \/
  at_phase d "agent_pending" /\ (arranges d e \/ recovers d e) \/
  at_stage d ["checkpointing"] /\ commits d e \/
  at_stage d ["post-checkpoint"; "publishing"; "post-publication"] /\ pins d e \/
  at_stage d ["post-checkpoint"; "publishing"] /\ publishes d e \/
  at_phase d "idle" /\ resolving d e \/
  settling d /\ settles e.

(** A worker is started for the execution that the state binds, at its workspace
    and from its head, and no other worker is recorded. *)
Definition starts (d : dict) (workspace : ExecutionWorkspace) (execution_id : string) : Prop :=
  at_stage d ["worker-launch"] /\ get d "worker_identity" = PNone /\
  get d "execution_id" = PStr execution_id /\
  get d "execution_branch" = PStr (ew_branch workspace) /\
  get d "execution_path" = PStr (path_str (ew_path workspace)) /\
  get d "execution_start_head" = PStr (ew_head workspace).

(** * Sequences of effects *)

(** The durable state after the effects. *)
Definition last_saved (d : dict) (l : list effect) : dict :=
  foldl (fun d x => match x with Saved d' => d' | _ => d end) d l.

(** Every effect is announced by the durable state it happens in. *)
Fixpoint announced (d : dict) (l : list effect) : Prop :=
  match l with
  | [] => True
  | x :: l =>
      match x with
      | Did e => licensed d e
      | Saved d' => _validate_state_invariant d' = Ok tt
      | Launched workspace _ execution_id => starts d workspace execution_id
      end /\ announced (last_saved d [x]) l
  end.

Definition launches (l : list effect) : nat :=
  length (List.filter (fun x => match x with Launched _ _ _ => true | _ => false end) l).

Lemma last_saved_app d l l' : last_saved d (l ++ l') = last_saved (last_saved d l) l'.
Proof. apply foldl_app. Qed.

Lemma announced_app d l l' :
  announced d (l ++ l') <-> announced d l /\ announced (last_saved d l) l'.
Proof.
  revert d. induction l as [|x l IH]; intros d; cbn [announced app]; [by split; [|intros []]|].
  rewrite IH. change (last_saved d (x :: l)) with (last_saved (last_saved d [x]) l). tauto.
Qed.

Lemma launches_app l l' : launches (l ++ l') = launches l + launches l'.
Proof. unfold launches. by rewrite List.filter_app, length_app. Qed.

Lemma announced_did d l : announced d (map Did l) <-> Forall (licensed d) l.
Proof.
  induction l as [|e l IH]; cbn [announced map]; [by split|].
  change (last_saved d [Did e]) with d. rewrite IH. by rewrite Forall_cons.
Qed.

Lemma last_saved_did d l : last_saved d (map Did l) = d.
Proof. induction l as [|e l IH]; [done|]. exact IH. Qed.

Lemma launches_did l : launches (map Did l) = 0.
Proof. by induction l. Qed.
End License.

(** * Triples *)

Section Triples.
Context {W : Type} `{GitWorld W, !EngineWorld W, !HostWorld W}.
Context {St : Type} `{RuntimeStore St, !ObservableStore St}.
Variable c : settings.

Abbreviation E := (py (engine (W := W) (St := St))).

(** [m], from a durable state in [P], starts at most [k] workers, announces what it
    does, and ends in [Q] with a result, in [X] with an exception. *)
Definition turn {A} (k : nat) (P : dict -> Prop) (m : E A) (Q : A -> dict -> Prop) (X : dict -> Prop) : Prop :=
  forall s, P (en_state s) ->
    exists new, en_effects (snd (m s)) = en_effects s ++ new /\
      announced c (en_state s) new /\ launches new <= k /\
      en_state (snd (m s)) = last_saved (en_state s) new /\
      match fst (m s) with
      | Ok a => Q a (en_state (snd (m s)))
      | Raise _ => X (en_state (snd (m s)))
      end.

(** [m] does nothing that the state would have to announce, and leaves it. *)
Definition views {A} (m : E A) : Prop := forall P, turn 0 P m (fun _ => P) P.

Lemma turn_weaken {A} k k' (P P' : dict -> Prop) (m : E A) (Q Q' : A -> dict -> Prop) (X X' : dict -> Prop) :
  turn k P m Q X -> k <= k' -> (forall d, P' d -> P d) -> (forall a d, Q a d -> Q' a d) ->
  (forall d, X d -> X' d) -> turn k' P' m Q' X'.
Proof.
  intros Hm Hk HP HQ HX s Hs. destruct (Hm s (HP _ Hs)) as (new & He & Ha & Hl & Hd & Hr).
  exists new. split_and!; try done; [lia|]. destruct (fst (m s)); auto.
Qed.

(** A step without effects. *)
Lemma turn_silent {A} P (m : E A) (Q : A -> dict -> Prop) (X : dict -> Prop) :
  (forall s, en_effects (snd (m s)) = en_effects s /\ en_state (snd (m s)) = en_state s) ->
  (forall s, P (en_state s) ->
     match fst (m s) with Ok a => Q a (en_state s) | Raise _ => X (en_state s) end) ->
  turn 0 P m Q X.
Proof.
  intros Hm HQ s Hs. destruct (Hm s) as [He Hd]. exists []. rewrite He, Hd, app_nil_r.
  split_and!; try done. by apply HQ.
Qed.

Lemma turn_ret {A} P (a : A) (Q : A -> dict -> Prop) X : (forall d, P d -> Q a d) -> turn 0 P (mret a) Q X.
Proof. intros HQ. apply turn_silent; [done|]. intros s. apply HQ. Qed.

Lemma turn_lift {A} (P : dict -> Prop) (r : res A) (Q : A -> dict -> Prop) (X : dict -> Prop) :
  (forall a d, r = Ok a -> P d -> Q a d) -> (forall d, P d -> X d) -> turn 0 P (py_lift r) Q X.
Proof.
  intros HQ HX. apply turn_silent; [done|]. intros s Hs. cbn. destruct r; [by apply HQ | by apply HX].
Qed.

Lemma turn_raise {A} (P : dict -> Prop) k msg (Q : A -> dict -> Prop) (X : dict -> Prop) :
  (forall d, P d -> X d) -> turn 0 P (py_raise k msg) Q X.
Proof. intros HX. by apply (turn_lift P (Raise (Exn k msg))). Qed.

Lemma turn_seq {A B} k1 k2 P (m : E A) (f : A -> E B) (R : A -> dict -> Prop) (Q : B -> dict -> Prop) X :
  turn k1 P m R X -> (forall a, turn k2 (R a) (f a) Q X) -> turn (k1 + k2) P (m ≫= f) Q X.
Proof.
  intros Hm Hf s Hs. destruct (Hm s Hs) as (new & He & Ha & Hl & Hd & Hr).
  unfold mbind, py_bind. destruct (m s) as [[a|e] s1] eqn:Em; cbn in *.
  - destruct (Hf a s1 Hr) as (new' & He' & Ha' & Hl' & Hd' & Hr'). exists (new ++ new').
    rewrite He', He, app_assoc, announced_app, launches_app, last_saved_app, <- Hd.
    split_and!; try done. lia.
  - exists new. split_and!; try done. lia.
Qed.

Lemma turn_catch {A} k1 k2 P (m : E A) p h (Q : A -> dict -> Prop) (X X' : dict -> Prop) :
  turn k1 P m Q X -> (forall e, turn k2 X (h e) Q X') -> (forall d, X d -> X' d) ->
  turn (k1 + k2) P (py_catch m p h) Q X'.
Proof.
  intros Hm Hh HX s Hs. destruct (Hm s Hs) as (new & He & Ha & Hl & Hd & Hr).
  unfold py_catch. destruct (m s) as [[a|e] s1] eqn:Em; cbn in *.
  - exists new. split_and!; try done. lia.
  - destruct (p e); cbn; [|exists new; split_and!; try done; [lia | by apply HX]].
    destruct (Hh e s1 Hr) as (new' & He' & Ha' & Hl' & Hd' & Hr'). exists (new ++ new').
    rewrite He', He, app_assoc, announced_app, launches_app, last_saved_app, <- Hd.
    split_and!; try done. lia.
Qed.

Lemma turn_attempt {A} k P (m : E A) (Q : A -> dict -> Prop) (X X' : dict -> Prop) :
  turn k P m Q X ->
  turn k P (attempt m) (fun r d => match r with Ok a => Q a d | Raise _ => X d end) X'.
Proof.
  intros Hm s Hs. destruct (Hm s Hs) as (new & He & Ha & Hl & Hd & Hr). unfold attempt.
  destruct (m s) as [r s1]. cbn in *. exists new. by destruct r.
Qed.

Lemma turn_recast {A} k P p e f (m : E A) (Q : A -> dict -> Prop) (X : dict -> Prop) :
  turn k P m Q X -> turn k P (recast p e f m) Q X.
Proof.
  intros Hm. rewrite <- (Nat.add_0_r k). eapply turn_catch; [exact Hm| |done].
  intros x. by apply turn_raise.
Qed.

(** An early return. *)
Lemma turn_return {A B} k1 k2 P (m : E (Z + A)) (f : A -> E (Z + B)) (R : A -> dict -> Prop)
    (Q : Z + B -> dict -> Prop) X :
  turn k1 P m (fun r d => match r with inl z => Q (inl z) d | inr a => R a d end) X ->
  (forall a, turn k2 (R a) (f a) Q X) -> turn (k1 + k2) P (turn_bind m f) Q X.
Proof.
  intros Hm Hf. eapply turn_seq; [exact Hm|]. intros [z|a]; [|apply Hf].
  eapply turn_weaken; [by apply (turn_ret (Q (inl z)))|lia|done..].
Qed.

(** A command of the repositories. *)
Lemma turn_git_returns {A} (R : A -> Prop) P (m : py (logged W) A) :
  (forall d, P d -> only (licensed c d) m) -> returns R m ->
  turn 0 P (on_git m : E A) (fun a d => R a /\ P d) P.
Proof.
  intros Hm HR s Hs. destruct (Hm _ Hs (mkLogged (en_world s) [])) as [(new & Hnew & Hf) _].
  specialize (HR (mkLogged (en_world s) [])). unfold on_git.
  destruct (m _) as [r l]. cbn in *. exists (map Did new).
  rewrite announced_did, last_saved_did, launches_did, Hnew.
  split_and!; try done. destruct r; [by split; [apply HR|]|done].
Qed.

Lemma turn_git {A} P (m : py (logged W) A) :
  (forall d, P d -> only (licensed c d) m) -> turn 0 P (on_git m : E A) (fun _ => P) P.
Proof.
  intros Hm. eapply turn_weaken; [by apply (turn_git_returns (fun _ => True))|done..|by intros ? ? []|done].
Qed.

(** A save: the state it writes is valid. *)
Lemma turn_save P phase o (Q : unit -> dict -> Prop) (X : dict -> Prop) :
  (forall d, P d -> _validate_state_invariant (next_state d phase o) = Ok tt -> Q tt (next_state d phase o)) ->
  (forall d, P d -> X d) -> turn 0 P (save phase o) Q X.
Proof.
  intros HQ HX s Hs. unfold save, save_under, mbind, py_bind, next_failure. cbn.
  unfold _save_state. change (du_state (en_durable s)) with (en_state s).
  destruct (_validate_state_invariant (next_state (en_state s) phase o)) as [[]|e] eqn:Hv;
    [destruct (store_replace _ _ _) as [[[]|e] st]|]; cbn.
  - exists [Saved (next_state (en_state s) phase o)]. cbn. split_and!; try done. by apply HQ.
  - exists []. unfold as_devlegate, catch. rewrite app_nil_r.
    destruct (is_class _ e); cbn; rewrite app_nil_r; split_and!; try done; by apply HX.
  - exists []. split_and!; try done. by apply HX.
Qed.

(** ** Views *)

Lemma views_turn {A} (P : dict -> Prop) (m : E A) : views m -> turn 0 P m (fun _ => P) P.
Proof. intros Hm. apply Hm. Qed.

Lemma views_silent {A} (m : E A) :
  (forall s, en_effects (snd (m s)) = en_effects s /\ en_state (snd (m s)) = en_state s) -> views m.
Proof. intros Hm P. apply turn_silent; [done|]. intros s Hs. by destruct (fst (m s)). Qed.

Lemma views_ret {A} (a : A) : views (mret a).
Proof. by apply views_silent. Qed.
Lemma views_lift {A} (r : res A) : views (py_lift r).
Proof. by apply views_silent. Qed.
Lemma views_raise {A} k msg : views (py_raise (A := A) k msg).
Proof. by apply views_silent. Qed.
Lemma views_state : views state_now.
Proof. by apply views_silent. Qed.
Lemma views_stored : views stored.
Proof. by apply views_silent. Qed.
Lemma views_world : views world.
Proof. by apply views_silent. Qed.
Lemma views_remembered {A} (f : memory -> A) : views (remembered f).
Proof. by apply views_silent. Qed.
Lemma views_remember f : views (remember f).
Proof. by apply views_silent. Qed.
Lemma views_stop : views _stop_requested.
Proof. by apply views_silent. Qed.
Lemma views_intent : views intent_now.
Proof. by apply views_silent. Qed.
Lemma views_id : views new_execution_id.
Proof. by apply views_silent. Qed.
Lemma views_failure : views next_failure.
Proof. by apply views_silent. Qed.

Lemma views_bind {A B} (m : E A) (f : A -> E B) : views m -> (forall a, views (f a)) -> views (m ≫= f).
Proof. intros Hm Hf P. eapply (turn_seq 0 0); [apply Hm|]. intros a. apply Hf. Qed.

Lemma views_catch {A} (m : E A) p h : views m -> (forall e, views (h e)) -> views (py_catch m p h).
Proof. intros Hm Hh P. eapply (turn_catch 0 0); [apply Hm| |done]. intros e. apply Hh. Qed.

Lemma views_attempt {A} (m : E A) : views m -> views (attempt m).
Proof.
  intros Hm P. eapply turn_weaken; [apply turn_attempt, (Hm P)|done..| |done]. by intros [a|e] d.
Qed.

Lemma views_git {A} (m : py (logged W) A) : (forall d, only (licensed c d) m) -> views (on_git m : E A).
Proof. intros Hm P. apply turn_git. auto. Qed.
End Triples.
