(* ===== verification/Licenses.v ===== *)
(** What each operation on the repositories runs, as the license of a durable
    state: the operations that only read, the synchronization of the control
    checkout, the preparation and the repair of a workspace, the checkpoint, the
    publication, the recording of a result and the recoveries. *)

From S2P Require Export Announced LifecycleSafety.

(** * Operations that only read *)

Section Readers.
Context {W : Type} `{GitWorld W, !EngineWorld W, !HostWorld W}.
Variable c : settings.
Variable loads_yaml : string -> string + dict.

Lemma observes_reads e : observes e -> reads_only e.
Proof. destruct e as [dir args| | |]; try done. cbn. intros Ho. unfold reading. by rewrite Ho. Qed.

#[local] Hint Extern 1 (reads_only (Run _ _)) => reflexivity : commands.
#[local] Hint Resolve observes_reads only_new_manager : commands.
#[local] Hint Extern 1 (forall e, observes e -> reads_only e) => exact observes_reads : commands.

Lemma only_attempt {A} P (m : py (logged W) A) : only P m -> only P (attempt m).
Proof. intros Hm s. specialize (Hm s). unfold attempt. by destruct (m s) as [r s']. Qed.

Lemma reads_remote repo remote branch : only reads_only (_execution_remote_head (W := W) repo remote branch).
Proof. unfold _execution_remote_head, engine_error. only_auto. Qed.

Lemma reads_disposition repo k x : only reads_only (_read_drop_disposition (W := W) repo k x).
Proof. unfold _read_drop_disposition, rev_parse, engine_error. only_auto. Qed.

Lemma reads_product head : only reads_only (_observe_product_generation (W := W) c head).
Proof. unfold _observe_product_generation, rev_parse. only_auto. Qed.
#[local] Hint Resolve reads_remote reads_disposition reads_product : commands.

Lemma reads_drift state base checkpoint product :
  only reads_only (_is_zero_delta_stale_product_drift (W := W) c state base checkpoint product).
Proof. unfold _is_zero_delta_stale_product_drift. only_auto. Qed.

Lemma reads_unchanged branch head : only reads_only (_assert_product_checkout_unchanged (W := W) c branch head).
Proof. unfold _assert_product_checkout_unchanged, engine_error. only_auto. Qed.
#[local] Hint Resolve reads_unchanged : commands.

Lemma reads_prove state : only reads_only (_prove_product_generation (W := W) c state).
Proof. unfold _prove_product_generation, blocked, rev_parse. only_auto. Qed.

Lemma reads_verify m ws : only reads_only (verify_submodules (W := W) (st_recursion_limit c) m ws).
Proof. unfold verify_submodules. only_auto. Qed.
#[local] Hint Resolve reads_verify : commands.

Lemma reads_workspace state : only reads_only (_execution_workspace_for_recovery (W := W) c state).
Proof. unfold _execution_workspace_for_recovery, blocked. only_auto. Qed.

Lemma reads_exact ws a b : only reads_only (_checkpoint_commit_is_exact (W := W) ws a b).
Proof. unfold _checkpoint_commit_is_exact. only_auto. Qed.

Lemma reads_matches state report : only reads_only (_report_matches_execution_state (W := W) c state report).
Proof. unfold _report_matches_execution_state, blocked. only_auto. Qed.

Lemma reads_accepted k : only reads_only (_accepted_execution_report (W := W) c k).
Proof.
  unfold _accepted_execution_report, completed_reports, accepted_revision, last_change, blocked.
  assert (Hf : forall parent x l, only reads_only (py_filter (admitted_by (W := W) c k parent x) l)).
  { intros parent x l. induction l; cbn [py_filter]; unfold admitted_by, last_change; only_auto. }
  repeat (apply Hf || only_step).
Qed.
#[local] Hint Resolve reads_accepted : commands.

Lemma reads_checkpoint k : only reads_only (_accepted_checkpoint (W := W) c k).
Proof. unfold _accepted_checkpoint. only_auto. Qed.

Lemma reads_log head : only reads_only (_log_sync_failure (W := W) c head).
Proof. unfold _log_sync_failure. only_auto. Qed.

Lemma reads_inspection state files :
  only reads_only (_inspect_bound_execution_workspace (W := W) (st_recursion_limit c) (st_repo c)
                     (st_execution_worktree_root c) files state).
Proof.
  unfold _inspect_bound_execution_workspace, inspect_conflict.
  assert (Hi : forall m b h, only reads_only (inspect (W := W) (st_recursion_limit c) m b h))
    by (intros; eapply only_weaken; [apply observes_reads | apply only_inspect]).
  repeat (apply Hi || only_step).
Qed.

Lemma reads_ticket k selected candidate body :
  only reads_only (_prove_bound_ticket_descendant (W := W) c candidate k selected body).
Proof. unfold _prove_bound_ticket_descendant, show_file, blocked. only_auto. Qed.

Lemma reads_same_product state : only reads_only (same_product (W := W) c state).
Proof. unfold same_product, rev_parse, engine_error. only_auto. Qed.

Lemma reads_untouched state : only reads_only (untouched_workspace (W := W) c state).
Proof. unfold untouched_workspace, refuse, engine_error. only_auto. Qed.

Lemma reads_stable base error : only reads_only (stable_product (W := W) c base error).
Proof. unfold stable_product, engine_error. only_auto. Qed.

Lemma reads_same_control state r : only reads_only (same_control (W := W) c state r).
Proof. unfold same_control, engine_error. only_auto. Qed.
#[local] Hint Resolve reads_workspace : commands.

Lemma reads_checkpointed state r k head : only reads_only (checkpointed_workspace (W := W) c state r k head).
Proof. unfold checkpointed_workspace, rev_parse, engine_error. only_auto. Qed.

Lemma reads_lineage branch head expected b : only reads_only (same_lineage (W := W) c branch head expected b).
Proof. unfold same_lineage, engine_error. only_auto. Qed.

Lemma reads_store state : only reads_only (_ticket_store (W := W) c loads_yaml state).
Proof. apply only_ticket_store, observes_reads. Qed.

Lemma reads_control state : only reads_only (_validate_control_worktree (W := W) c state).
Proof. apply only_validate_control, observes_reads. Qed.

Lemma reads_observation state dir branch : only reads_only (_git_observation (W := W) c state dir branch).
Proof. apply only_git_observation, observes_reads. Qed.
End Readers.
#[export] Hint Resolve reads_ticket reads_same_product reads_untouched reads_stable reads_same_control
  reads_checkpointed reads_lineage reads_store reads_control reads_observation only_owner only_todo_fingerprint
  only_new_manager only_attempt : reads.
#[export] Hint Resolve reads_remote reads_disposition reads_product reads_drift reads_unchanged reads_prove
  reads_verify reads_workspace reads_exact reads_matches reads_accepted reads_checkpoint reads_log
  reads_inspection : reads.

(** * Licensed operations *)

Section Licensed.
Context {W : Type} `{GitWorld W, !EngineWorld W, !HostWorld W}.
Variable c : settings.
Variable loads_yaml : string -> string + dict.
Variables (randoms_md randoms_json : list string).
Variable d : dict.

Abbreviation permitted := (only (W := W) (licensed c d)).

Lemma reads_permitted {A} (m : py (logged W) A) : only reads_only m -> permitted m.
Proof. apply only_weaken. by left. Qed.

Lemma observes_licensed e : observes e -> licensed c d e.
Proof. intros He. left. by apply observes_reads. Qed.

#[local] Hint Extern 1 (licensed _ _ (Run _ _)) => left; reflexivity : commands.
#[local] Hint Resolve observes_licensed only_new_manager : commands.
#[local] Hint Extern 1 (forall e, observes e -> licensed _ _ e) => exact observes_licensed : commands.
#[local] Hint Extern 2 (permitted _) => solve [apply reads_permitted; eauto with reads] : commands.
#[local] Hint Extern 2 (only (licensed _ _) _) => solve [apply reads_permitted; eauto with reads] : commands.

(** The synchronization of the control checkout. *)
Lemma permitted_sync state : permitted (_sync_control c state).
Proof.
  unfold _sync_control, _observe_accepted_control_integration, control_remote_tip,
    _accepted_integration_commit_is_exact, blocked.
  assert (Hf : licensed c d (Run (st_control_worktree c)
    ["merge"; "--ff-only"; st_remote_name c +:+ "/" +:+ st_control_branch c])) by (right; by left).
  repeat (apply only_git_runtime, Hf || only_step).
Qed.

Lemma permitted_compatible state : permitted (compatible_control c state).
Proof.
  unfold compatible_control, engine_error.
  assert (Hf : licensed c d (Run (st_control_worktree c)
    ["merge"; "--ff-only"; st_remote_name c +:+ "/" +:+ st_control_branch c])) by (right; by left).
  repeat first [apply only_git, Hf | only_step].
Qed.

(** ** The workspace *)

(** The managers of the bound workspace. *)
Definition manages (m : ExecutionWorkspaceManager) : Prop :=
  mg_branch m = field d "execution_branch" /\ mg_path m = Path_of (field d "execution_path").

Lemma arranges_licensed m e : at_phase d "agent_pending" -> manages m -> repairs (st_repo c) d m e -> licensed c d e.
Proof. intros Hp [Hb Hm] He. do 3 right. left. split; [done|]. left. by exists m. Qed.

Lemma permitted_prepare m : at_phase d "agent_pending" -> manages m ->
  permitted (prepare (st_recursion_limit c) m (field d "execution_base_head")).
Proof.
  intros Hp Hm. eapply only_weaken; [|apply only_prepare]. intros e He.
  eapply arranges_licensed; [done..|]. by left.
Qed.

Lemma binding_manages m : binding_matches d m = true -> manages m.
Proof. unfold binding_matches, manages. intros Hb. bsplit. done. Qed.

Lemma permitted_repair files :
  permitted (_repair_bound_execution_workspace (st_recursion_limit c) (st_repo c)
               (st_execution_worktree_root c) files d).
Proof.
  unfold _repair_bound_execution_workspace, rev_parse, engine_error.
  destruct (negb (eq_str _ _) || _) eqn:Hp; [only_auto|]. apply orb_false_iff in Hp as [Hp _].
  assert (Hph : at_phase d "agent_pending").
  { unfold at_phase. destruct (get d "phase"); cbn in Hp; try done. apply negb_false_iff in Hp.
    by apply String.eqb_eq in Hp as ->. }
  destruct (negb (all_text _ _)); [only_auto|]. destruct (negb (is_none _)); [only_auto|].
  apply only_bind; [apply only_new_manager|]. intros m.
  destruct (negb (binding_matches d m)) eqn:Hb; [only_auto|]. apply negb_false_iff, binding_manages in Hb.
  repeat (apply (permitted_prepare _ Hph Hb) || only_step).
  eapply only_weaken; [|apply only_repair_conflict]. intros ev Hev. by eapply arranges_licensed.
Qed.

(** The control revision and the plan are arguments of the preparation. *)
Lemma permitted_workspace ticket_id code control :
  at_phase d "agent_pending" -> get d "execution_ticket_id" = PStr ticket_id ->
  all_text d execution_fields = true -> permitted (prepare_workspace c d ticket_id code control).
Proof.
  intros Hp Hk Hf. unfold prepare_workspace, refuse. rewrite Hk. cbn [eq_str]. rewrite String.eqb_refl.
  unfold all_text, execution_fields in Hf. cbn [forallb] in Hf. bsplit.
  assert (Hs : forall k, nonempty_str (get d k) = true -> get d k = PStr (field d k))
    by (intros k; unfold field; by destruct (get d k)).
  cbv zeta beta. rewrite (Hs "execution_base_head"), (Hs "execution_branch"), (Hs "execution_path") by done.
  cbn [str_opt default].
  match goal with |- only _ (if ?b then _ else _) => destruct b; [only_auto|] end.
  apply only_bind; [apply only_new_manager|]. intros m.
  destruct (negb _) eqn:Hb; [only_auto|]. destruct (negb (bool_decide _)) eqn:Hpath; [only_auto|]. bsplit.
  assert (Hm : manages m) by done. repeat first [exact (permitted_prepare m Hp Hm) | only_step].
Qed.

(** ** An operator's recovery *)

Lemma recovers_licensed e : at_phase d "agent_pending" -> recovers c d e -> licensed c d e.
Proof. intros Hp He. do 3 right. left. split; [done|]. by right. Qed.

Lemma recovery_ref_prefix k x : starts_with "refs/devlegate/recovery/" (_workspace_recovery_ref k x) = true.
Proof. apply prefix_spec. by eexists. Qed.
Lemma operator_ref_prefix k x : starts_with "refs/devlegate/recovery/" (operator_evidence_ref k x) = true.
Proof. apply prefix_spec. by eexists. Qed.

Lemma permitted_preserve ref head error : at_phase d "agent_pending" -> is_dict (get d "operator_recovery") = true ->
  starts_with "refs/devlegate/recovery/" ref = true -> permitted (preserve_head c ref head error).
Proof.
  intros Hp Ho Hr. unfold preserve_head, engine_error.
  assert (He : licensed c d (Run (st_repo c) ["update-ref"; ref; head; ""])).
  { apply recovers_licensed; [done|]. split; [done|]. left. exists ref, head. auto. }
  repeat first [apply only_git, He | only_step].
Qed.

Lemma evidence_ref_prefix k x branch head :
  returns (W := W) (fun ref => starts_with "refs/devlegate/recovery/" ref = true)
    (remote_evidence_ref k x branch head (operator_evidence_ref k x)).
Proof.
  unfold remote_evidence_ref. apply returns_bind. intros t. apply returns_bind. intros reports.
  apply returns_ret. destruct (earlier_reports _ _ _ _) as [|prior [|]];
    first [apply operator_ref_prefix | apply recovery_ref_prefix].
Qed.

Lemma permitted_return k x head : at_phase d "agent_pending" -> is_dict (get d "operator_recovery") = true ->
  permitted (return_remote c k x (field d "execution_branch") (field d "execution_base_head") head
               (operator_evidence_ref k x)).
Proof.
  intros Hp Ho. unfold return_remote.
  eapply only_bind_returns; [unfold remote_evidence_ref; only_auto | apply evidence_ref_prefix |].
  intros ref Hr. unfold rev_parse, engine_error.
  assert (Hpush : licensed c d (Run (st_repo c) ["push"; st_remote_name c; head +:+ ":" +:+ ref])).
  { apply recovers_licensed; [done|]. split; [done|]. left. exists ref, head. auto. }
  assert (Hlease : licensed c d (Run (st_repo c) (branch_push c d head (field d "execution_base_head")))).
  { apply recovers_licensed; [done|]. split; [done|]. right. by exists head. }
  unfold branch_push in Hlease.
  repeat first [apply permitted_preserve; done | apply only_git; first [exact Hpush | exact Hlease] | only_step].
Qed.

Lemma permitted_remove m head : at_phase d "agent_pending" -> manages m -> permitted (remove_authorized c m head).
Proof.
  intros Hp Hm. unfold remove_authorized, engine_error.
  assert (Hr : licensed c d (Run (st_repo c) ["worktree"; "remove"; "--force"; path_str (mg_path m)])).
  { eapply arranges_licensed; [done..|]. right. right. by left. }
  repeat first [apply only_git, Hr | only_step].
Qed.

Lemma permitted_move m head replay : at_phase d "agent_pending" -> manages m ->
  permitted (return_branch c ("refs/heads/" +:+ field d "execution_branch") (field d "execution_base_head")
               head replay).
Proof.
  intros Hp Hm. unfold return_branch, rev_parse, engine_error.
  assert (Hr : licensed c d (Run (st_repo c) ["update-ref"; "refs/heads/" +:+ field d "execution_branch";
                                              field d "execution_base_head"; head])).
  { eapply arranges_licensed; [done..|]. right. right. right. exists head. by rewrite (proj1 Hm). }
  repeat first [apply only_git, Hr | only_step].
Qed.

Lemma permitted_recover ticket_id execution_id head :
  at_phase d "agent_pending" -> is_dict (get d "operator_recovery") = true ->
  permitted (recover_workspace c d ticket_id execution_id head).
Proof.
  intros Hp Ho. unfold recover_workspace, rev_parse, engine_error.
  destruct (negb (all_text _ _)); [only_auto|].
  apply only_bind; [apply only_new_manager|]. intros m.
  destruct (negb (binding_matches d m)) eqn:Hb; [only_auto|]. apply negb_false_iff, binding_manages in Hb.
  assert (Hi : forall b h, permitted (inspect (st_recursion_limit c) m b h))
    by (intros; eapply only_weaken; [apply observes_licensed | apply only_inspect]).
  cbv zeta.
  repeat first [apply Hi | exact (permitted_prepare m Hp Hb) | by apply permitted_return |
                by apply permitted_remove | by apply (permitted_move m) |
                by apply permitted_preserve, operator_ref_prefix | only_step].
Qed.

(** ** The checkpoint and its publication *)

Lemma permitted_checkpoint m ws title summary :
  at_stage d ["checkpointing"] -> mg_ticket_id m = field d "execution_ticket_id" ->
  permitted (checkpoint m ws (field d "execution_id") title summary).
Proof.
  intros Hs Hm. unfold checkpoint.
  eapply (only_bind_returns (fun _ => bound_to m ws)); [apply only_validate_workspace, observes_licensed| |].
  { unfold _validate_workspace, refuse. destruct (_ || _ || negb _) eqn:E; [apply returns_raise|].
    bsplit. intros s a _. done. }
  intros _ (Hp & _). rewrite Hp.
  assert (Hc : forall e, checkpoints m (field d "execution_id") title summary e -> licensed c d e).
  { intros e He. do 4 right. left. split; [done|]. by exists m, title, summary. }
  unfold refuse.
  repeat first [apply only_check, Hc; right; by left | apply only_git, Hc; right; by right | only_step].
Qed.

Lemma permitted_pin k head : at_stage d ["post-checkpoint"; "publishing"; "post-publication"] ->
  permitted (pin_reconciliation_evidence c k
    (_reconciliation_evidence_ref (field d "execution_ticket_id") (field d "execution_id")) head).
Proof.
  intros Hs. unfold pin_reconciliation_evidence, rev_parse.
  assert (Hu : forall h, licensed c d (Run (st_repo c) ["update-ref";
    _reconciliation_evidence_ref (field d "execution_ticket_id") (field d "execution_id"); h])).
  { intros h. do 5 right. left. split; [done|]. by exists h. }
  repeat first [apply only_git, Hu | only_step].
Qed.

(** A push of the execution branch, under what licenses it. *)
Lemma permitted_branch ws head expected :
  (forall dir, licensed c d (Run dir
     ["push"; "--force-with-lease=refs/heads/" +:+ ew_branch ws +:+ ":" +:+ default "" expected;
      st_remote_name c; head +:+ ":refs/heads/" +:+ ew_branch ws])) ->
  permitted (_publish_execution_branch c ws head expected).
Proof.
  intros Hp. unfold _publish_execution_branch, engine_error.
  repeat first [apply only_git, Hp | only_step].
Qed.

Lemma permitted_publish ws report head :
  at_stage d ["post-checkpoint"; "publishing"] -> get d "execution_branch" = PStr (ew_branch ws) ->
  from_dict (get d "pending_execution_report") = Ok report -> rep_workspace_head report = Some head ->
  permitted (_publish_execution_branch c ws head (str_opt (get d "execution_remote_head"))).
Proof.
  intros Hs Hb Hr Hh. apply permitted_branch. intros dir. do 6 right. left. split; [done|].
  exists dir, report, head. unfold branch_push, field. by rewrite Hb.
Qed.

Lemma permitted_resolution ws head expected r :
  at_phase d "idle" -> get d "reconciliation" = PDict r -> get r "status" = PStr "resolving" ->
  field d "execution_branch" = ew_branch ws -> py_str (get r "worker_checkpoint") = head ->
  permitted (_publish_execution_branch c ws head expected).
Proof.
  intros Hi Hr Hs Hb <-. apply permitted_branch. intros dir. do 7 right. left. split; [done|].
  exists r, dir, (default "" expected). unfold branch_push. by rewrite Hb.
Qed.
End Licensed.

(** * Settling *)

Section Settling.
Context {W : Type} `{GitWorld W, !EngineWorld W, !HostWorld W}.
Variable c : settings.
Variable loads_yaml : string -> string + dict.
Variables (randoms_md randoms_json : list string).

(** What settling may run besides reading. *)
Definition settlement (e : event) : Prop := reads_only e \/ follows c e \/ settles c e.

Lemma settlement_licensed d e : settling d -> settlement e -> licensed c d e.
Proof.
  intros Hd [He|[He|He]]; [by left | by right; left |]. do 8 right. done.
Qed.

Lemma reads_settlement {A} (m : py (logged W) A) : only reads_only m -> only settlement m.
Proof. apply only_weaken. by left. Qed.

Lemma observes_settlement e : observes e -> settlement e.
Proof. intros He. left. by apply observes_reads. Qed.

Lemma edit_settlement t : settlement (Edit t).
Proof. by right; right. Qed.

#[local] Hint Extern 1 (settlement (Run _ _)) => left; reflexivity : commands.
#[local] Hint Extern 2 (settlement (Run _ _)) =>
  right; first [left; reflexivity | right; cbn; unfold records, delivers, retiring; eauto 8] : commands.
#[local] Hint Resolve observes_settlement edit_settlement only_new_manager : commands.
#[local] Hint Extern 1 (forall e, observes e -> settlement e) => exact observes_settlement : commands.
#[local] Hint Extern 1 (forall t, settlement (Edit t)) => exact edit_settlement : commands.
#[local] Hint Resolve only_edit : commands.
#[local] Hint Extern 3 (only settlement _) => solve [apply reads_settlement; eauto with reads] : commands.

Lemma settlement_retires m e : Workspace.retires m e -> settlement e.
Proof. intros [He| ->]; [by apply observes_settlement|]. right. right. right. right. right. left. eauto. Qed.

Lemma settlement_retire m ws h : only settlement (retire (W := W) (st_recursion_limit c) m ws h).
Proof. eapply only_weaken; [apply settlement_retires | apply only_retire]. Qed.
#[local] Hint Resolve settlement_retire : commands.

Lemma settlement_zero_delta report : only settlement (_retire_zero_delta_execution (W := W) c report).
Proof.
  unfold _retire_zero_delta_execution, retire_zero_delta_remote, retire_zero_delta_worktree,
    retire_zero_delta_branch, rev_parse, blocked.
  only_auto.
Qed.
#[local] Hint Resolve settlement_zero_delta : commands.

Lemma settlement_integrate state k code control :
  only settlement (_integrate_accepted (W := W) c loads_yaml state k code control).
Proof.
  unfold _integrate_accepted, _complete_accepted, resume_transition, make_transition, push_control,
    _observe_accepted_control_integration, control_remote_tip, _accepted_integration_commit_is_exact,
    observe_product_branch, publish_product, synchronize_product, contains_checkpoint, is_ancestor,
    engine_error, blocked.
  only_auto.
Qed.

Lemma settlement_exact x report apply : only settlement (_lifecycle_commit_is_exact (W := W) c x report apply).
Proof.
  unfold _lifecycle_commit_is_exact, single_lineage, _control_report_at, artifact_is_exact,
    ticket_is_moved, show_file.
  only_auto.
Qed.

Lemma settlement_first commits report apply : only settlement (first_exact (W := W) c commits report apply).
Proof. induction commits; cbn [first_exact]; repeat first [apply settlement_exact | only_step]. Qed.

Lemma settlement_descendant state x report : only settlement (_prove_control_descendant (W := W) c state x report).
Proof. unfold _prove_control_descendant, _prove_bound_ticket_descendant, show_file, blocked. only_auto. Qed.
#[local] Hint Resolve settlement_exact settlement_first settlement_descendant : commands.

Lemma settlement_once state report apply :
  only settlement (_apply_lifecycle_once (W := W) c loads_yaml randoms_md randoms_json state report apply).
Proof. unfold _apply_lifecycle_once, move_to_review, blocked, engine_error. only_auto. Qed.
#[local] Hint Resolve settlement_once : commands.

Lemma settlement_push :
  settlement (Run (st_control_worktree c)
    ["push"; st_remote_name c; "HEAD:refs/heads/" +:+ st_control_branch c]).
Proof. right. right. left. split; [done|]. right. right. right. by exists "HEAD". Qed.
#[local] Hint Resolve settlement_push : commands.

Lemma settlement_attempts n state report apply :
  only settlement (lifecycle_attempts (W := W) c loads_yaml randoms_md randoms_json n state report apply).
Proof.
  induction n as [|n IH]; cbn [lifecycle_attempts]; unfold blocked; [only_auto|].
  unfold lifecycle_attempt, fetch_control, _remote_lifecycle_commit, adopt_published, reach_descendant,
    _prove_unpublished_lifecycle_lineage, single_lineage, fast_forward, blocked.
  repeat first [exact IH | only_step].
Qed.
#[local] Hint Resolve settlement_attempts : commands.

Lemma settlement_lifecycle state report allow apply :
  only settlement (_apply_execution_lifecycle (W := W) c loads_yaml randoms_md randoms_json state report allow apply).
Proof. unfold _apply_execution_lifecycle, blocked. only_auto. Qed.

Lemma settlement_ref ref head : starts_with "refs/devlegate/" ref = true ->
  settlement (Run (st_repo c) ["update-ref"; ref; head]).
Proof. intros Hr. right. right. right. left. split; [done|]. right. right. eauto. Qed.

Lemma settlement_disposition k x head :
  settlement (Run (st_repo c) ["update-ref"; _drop_disposition_ref k x; head]).
Proof. apply settlement_ref, prefix_spec. by eexists. Qed.

Lemma settlement_evidence k x head : settlement (Run (st_repo c) ["update-ref"; _drop_evidence_ref k x; head]).
Proof. apply settlement_ref, prefix_spec. by eexists. Qed.

Lemma settlement_blob text : settlement (RunInput (st_repo c) ["hash-object"; "-w"; "--stdin"] text).
Proof. by right; right. Qed.
#[local] Hint Resolve settlement_disposition settlement_evidence settlement_blob : commands.

Lemma settlement_drop state k x :
  only settlement (drop_effects (W := W) (st_recursion_limit c) (st_repo c) (st_execution_worktree_root c)
                     (st_remote_name c) state k x).
Proof.
  unfold drop_effects, _drop_already_completed, _validate_drop_evidence, _drop_workspace_from_state,
    _persist_drop_intent, _pin_drop_evidence, drop_checkpoint, pin_checkpoint, publish_disposition,
    _retire_drop_workspace, retire_remote, retire_local, rev_parse, engine_error.
  only_auto.
Qed.
End Settling.
