(* ===== verification/Turns.v ===== *)
(** Forward reasoning about a turn of the engine: the views that it refreshes only
    read, and a step from a known durable state leads to a known one. *)

From S2P Require Export Licenses.

Section Iterations.
Context {W : Type} `{GitWorld W, !EngineWorld W, !HostWorld W}.
Context {St : Type} `{RuntimeStore St, !ObservableStore St}.
Variable c : settings.
Variable state_file : string.
Variable loads_yaml : string -> string + dict.
Variables (randoms_md randoms_json : list string).
Variable texts : prompt_texts.

Abbreviation E := (py (engine (W := W) (St := St))).
Abbreviation looks := (views (W := W) (St := St) c).

(** * Views *)

Lemma looks_reads {A} (m : py (logged W) A) : only reads_only m -> looks (on_git m).
Proof. intros Hm. apply views_git. intros d. by apply reads_permitted. Qed.
Lemma looks_returns {A} n : looks (returns_with (A := A) n).
Proof. by apply views_silent. Qed.
Lemma looks_goes_on {A} (a : A) : looks (goes_on a).
Proof. by apply views_silent. Qed.
Lemma looks_turn_bind {A B} (m : py (engine (W := W) (St := St)) (Z + A)) (f : A -> py engine (Z + B)) :
  looks m -> (forall a, looks (f a)) -> looks (turn_bind m f).
Proof. intros Hm Hf. apply views_bind; [done|]. intros [z|a]; [apply looks_returns | apply Hf]. Qed.

End Iterations.

Create HintDb views.
#[export] Hint Resolve views_ret views_lift views_raise views_state views_stored views_world views_remembered
  views_remember views_stop views_intent views_id views_failure : views.
#[export] Hint Extern 1 (views _ (on_git _)) => solve [apply looks_reads; eauto with reads] : views.

(** One syntactic step through a computation of the engine. *)
Ltac looks_step :=
  match goal with
  | |- views _ (_ ≫= _) => apply views_bind; [|intros ?]
  | |- views _ (turn_bind _ _) => apply looks_turn_bind; [|intros ?]
  | |- views _ (match ?x with _ => _ end) => destruct x
  | |- views _ (py_catch _ _ _) => apply views_catch; [|intros ?]
  | |- views _ (let x := _ in _) => cbv zeta
  | |- views _ _ => solve [eauto 4 with views]
  end.
Ltac looks_auto := repeat looks_step.

Section Views.
Context {W : Type} `{GitWorld W, !EngineWorld W, !HostWorld W}.
Context {St : Type} `{RuntimeStore St, !ObservableStore St}.
Variable c : settings.
Variable state_file : string.
Variable loads_yaml : string -> string + dict.

Abbreviation looks := (views (W := W) (St := St) c).

Lemma looks_publish u : looks (_publish_service_snapshot u).
Proof. unfold _publish_service_snapshot. looks_auto. Qed.
#[local] Hint Resolve looks_publish : views.

Lemma looks_worker l b : looks (publish_worker l b).
Proof. apply looks_publish. Qed.

Lemma looks_control_store : looks (control_store c loads_yaml).
Proof. unfold control_store. looks_auto. Qed.
#[local] Hint Resolve looks_control_store : views.

Lemma looks_evidence : looks live_execution_evidence.
Proof. unfold live_execution_evidence. looks_auto. Qed.
#[local] Hint Resolve looks_evidence : views.

Lemma looks_state_observation : looks (_status_state_observation state_file).
Proof. unfold _status_state_observation. looks_auto. Qed.

Lemma looks_git_observation : looks (_status_git_observation c).
Proof. unfold _status_git_observation. looks_auto. Qed.

Lemma looks_inspection st store dirty ok code : looks (inspection c st store dirty ok code).
Proof. unfold inspection. looks_auto. Qed.
#[local] Hint Resolve looks_state_observation looks_git_observation looks_inspection : views.

Lemma looks_snapshot st git store e : looks (make_snapshot c st git store e).
Proof. unfold make_snapshot. looks_auto. Qed.

Lemma looks_fingerprint : looks (control_workflow_fingerprint c).
Proof. unfold control_workflow_fingerprint. looks_auto. Qed.

Lemma looks_interrupted st : looks (_interrupted_retry_candidate (control_store c loads_yaml) st).
Proof. unfold _interrupted_retry_candidate. looks_auto. Qed.
#[local] Hint Resolve looks_snapshot looks_fingerprint looks_interrupted : views.

Lemma looks_publish_status snapshot : looks (_publish_status_snapshot c loads_yaml snapshot).
Proof. unfold _publish_status_snapshot. looks_auto. Qed.
#[local] Hint Resolve looks_publish_status : views.

Lemma looks_status : looks (_status_view c state_file loads_yaml).
Proof.
  unfold _status_view, status_view.
  assert (Hc : forall b, looks (_collect_status_attempt (_status_state_observation state_file)
    (_status_git_observation c) (control_workflow_fingerprint c) (control_store c loads_yaml)
    (make_snapshot c) b)).
  { intros b. unfold _collect_status_attempt, observed_workflow, observed_tickets, snapshot_changed.
    looks_auto. }
  assert (Ha : forall n b, looks (attempts (_status_state_observation state_file) (_status_git_observation c)
    (control_workflow_fingerprint c) (control_store c loads_yaml) (make_snapshot c) n b)).
  { intros n b. induction n as [|n IH]; cbn [attempts]; [looks_auto|].
    apply views_catch; [|intros _; exact IH].
    apply views_bind; [apply Hc|]. intros a. apply views_ret. }
  apply views_bind; [apply Ha|]. intros [s|]; [looks_auto|].
  apply views_bind; [by apply views_silent|]. intros fallback. looks_auto.
Qed.
#[local] Hint Resolve looks_status : views.

Lemma looks_refresh : looks (refresh c state_file loads_yaml).
Proof. unfold refresh, _refresh_published_status. looks_auto. Qed.
End Views.
#[export] Hint Resolve looks_returns looks_goes_on looks_publish looks_worker looks_control_store looks_inspection looks_status looks_refresh : views.

(** Reading Git commands, run directly. *)
#[export] Hint Extern 1 (only reads_only (_git_runtime _ _ _)) => apply only_git_runtime; reflexivity : reads.
#[export] Hint Extern 1 (only reads_only (_git_runtime_check _ _ _)) =>
  apply only_git_runtime_check; reflexivity : reads.
#[export] Hint Extern 1 (only reads_only (_git _ _)) => apply only_git; reflexivity : reads.
#[export] Hint Extern 1 (only reads_only (_git_check _ _)) => apply only_check; reflexivity : reads.

(** * Forward steps from a known durable state *)

Section Steps.
Context {W : Type} `{GitWorld W, !EngineWorld W, !HostWorld W}.
Context {St : Type} `{RuntimeStore St, !ObservableStore St}.
Variable c : settings.

Abbreviation E := (py (engine (W := W) (St := St))).
Abbreviation turn := (turn (W := W) (St := St) c).

Lemma turn_from {A} k (P : dict -> Prop) (m : E A) (Q : A -> dict -> Prop) X :
  (forall d, P d -> turn k (eq d) m Q X) -> turn k P m Q X.
Proof. intros Hm s Hs. by apply (Hm (en_state s) Hs s). Qed.

Context {A B : Type} (k : nat) (d : dict) (f : A -> E B) (Q : B -> dict -> Prop) (X : dict -> Prop).

Lemma seq_views (m : E A) :
  views c m -> X d -> (forall a, turn k (eq d) (f a) Q X) -> turn k (eq d) (m ≫= f) Q X.
Proof.
  intros Hm HX Hf. eapply (turn_seq c 0 k); [|exact Hf].
  eapply turn_weaken; [apply (Hm (eq d))|done..|]. by intros ? <-.
Qed.

Lemma seq_git (m : py (logged W) A) :
  only (licensed c d) m -> X d -> (forall a, turn k (eq d) (f a) Q X) -> turn k (eq d) (on_git m ≫= f) Q X.
Proof.
  intros Hm HX Hf. eapply (turn_seq c 0 k); [|exact Hf].
  eapply turn_weaken; [apply (turn_git c (eq d)); by intros ? <- |done..|]. by intros ? <-.
Qed.

Lemma seq_git_returns (R : A -> Prop) (m : py (logged W) A) :
  only (licensed c d) m -> returns R m -> X d -> (forall a, R a -> turn k (eq d) (f a) Q X) ->
  turn k (eq d) (on_git m ≫= f) Q X.
Proof.
  intros Hm HR HX Hf.
  eapply (turn_seq c 0 k _ _ _ (fun a d' => R a /\ d = d')).
  - eapply turn_weaken; [apply (turn_git_returns c R (eq d)); [by intros ? <- | done] |done..|]. by intros ? <-.
  - intros a. apply turn_from. intros d' [Ha <-]. by apply Hf.
Qed.

Lemma seq_lift (r : res A) :
  X d -> (forall a, r = Ok a -> turn k (eq d) (f a) Q X) -> turn k (eq d) (py_lift r ≫= f) Q X.
Proof.
  intros HX Hf. eapply (turn_seq c 0 k _ _ _ (fun a d' => r = Ok a /\ d = d')).
  - apply turn_lift; [by intros a ? -> <- | by intros ? <-].
  - intros a. apply turn_from. intros d' [Ha <-]. by apply Hf.
Qed.

Lemma seq_call (R : A -> dict -> Prop) k' (m : E A) :
  turn k' (eq d) m R X -> (forall a d', R a d' -> turn k (eq d') (f a) Q X) ->
  turn (k' + k) (eq d) (m ≫= f) Q X.
Proof. intros Hm Hf. eapply turn_seq; [exact Hm|]. intros a. apply turn_from. auto. Qed.
End Steps.

Section Saves.
Context {W : Type} `{GitWorld W, !EngineWorld W, !HostWorld W}.
Context {St : Type} `{RuntimeStore St, !ObservableStore St}.
Variable c : settings.

Abbreviation E := (py (engine (W := W) (St := St))).
Abbreviation turn := (turn (W := W) (St := St) c).

Lemma seq_state {B} k d (f : dict -> E B) Q X :
  turn k (eq d) (f d) Q X -> turn k (eq d) (state_now ≫= f) Q X.
Proof.
  intros Hf. eapply (turn_seq c 0 k _ _ _ (fun a d' => a = d /\ d = d')).
  - apply turn_silent; [done|]. intros s ->. done.
  - intros a. apply turn_from. by intros d' [-> <-].
Qed.

Lemma seq_save {B} k d phase o (f : unit -> E B) Q (X : dict -> Prop) :
  X d ->
  (let d' := next_state d phase o in
   _validate_state_invariant d' = Ok tt -> turn k (eq d') (f tt) Q X) ->
  turn k (eq d) (save phase o ≫= f) Q X.
Proof.
  intros HX Hf. eapply (turn_seq c 0 k _ _ _
    (fun _ d' => d' = next_state d phase o /\ _validate_state_invariant d' = Ok tt)).
  - apply turn_save; [by intros d' <- | by intros d' <-].
  - intros []. apply turn_from. intros d' [-> Hv]. by apply Hf.
Qed.

Lemma end_save d phase o (Q : unit -> dict -> Prop) (X : dict -> Prop) :
  X d ->
  (let d' := next_state d phase o in _validate_state_invariant d' = Ok tt -> Q tt d') ->
  turn 0 (eq d) (save phase o) Q X.
Proof. intros HX HQ. apply turn_save; [by intros d' <- | by intros d' <-]. Qed.

Lemma end_views {A} d (m : E A) (Q : A -> dict -> Prop) (X : dict -> Prop) :
  views c m -> X d -> (forall a, Q a d) -> turn 0 (eq d) m Q X.
Proof. intros Hm HX HQ. eapply turn_weaken; [apply (Hm (eq d))|done|done| by intros a ? <- | by intros ? <-]. Qed.

(** Nothing is asked of where it ends. *)
Lemma turn_any {A} k d (m : E A) Q X :
  turn k (eq d) m Q X -> turn k (eq d) m (fun _ _ => True) (fun _ => True).
Proof. intros Hm. by eapply turn_weaken. Qed.
End Saves.

(** ** The fields of a saved state *)

Definition plain (fields : dict) : save_options := mkSave false false false false fields.

Lemma get_saved d phase fields k : NoDup (keys fields) -> phase <> "idle" \/ k ∉ "worker_identity" :: idle_cleared ->
  get (next_state d phase (plain fields)) k =
  match dget fields k with Some v => v | None => if ("phase" =? k)%string then PStr phase else get d k end.
Proof.
  intros Hnd Hk. assert (Hb : get (dmerge (dmerge d [("phase", PStr phase)]) fields) k =
    match dget fields k with Some v => v | None => if ("phase" =? k)%string then PStr phase else get d k end).
  { unfold get at 1, get_or. rewrite dget_dmerge by done. destruct (dget fields k); [done|].
    change (dmerge d [("phase", PStr phase)]) with (dset d "phase" (PStr phase)). rewrite dget_dset.
    by destruct (_ =? _)%string. }
  unfold next_state, plain. cbn [so_clear_execution so_clear_pre_worker_generation so_clear_operator_recovery so_fields].
  destruct (String.eqb_spec phase "idle") as [->|Hne]; [|exact Hb]. destruct Hk as [Hk|Hk]; [done|].
  apply not_elem_of_cons in Hk as [Hw Hi]. rewrite <- Hb. unfold get, get_or.
  rewrite dget_dset_ne by congruence. by rewrite dget_dpops_ne.
Qed.

(** Rewrite the lookups in a state that a plain save wrote. *)
Ltac saved := repeat
  (rewrite get_saved;
   [ cbn [dget String.eqb Ascii.eqb Bool.eqb]
   | apply (bool_decide_unpack _); vm_compute; exact I
   | first [left; discriminate | right; apply (bool_decide_unpack _); vm_compute; exact I] ]).

Lemma eq_str_true v s : eq_str v s = true -> v = PStr s.
Proof. destruct v; try done. cbn. by intros ->%String.eqb_eq. Qed.

Lemma at_phase_saved d phase fields : has_key fields "phase" = false -> NoDup (keys fields) ->
  at_phase (next_state d phase (plain fields)) phase.
Proof.
  intros Hp Hnd. unfold at_phase. rewrite get_saved; [|done|right; apply (bool_decide_unpack _); vm_compute; exact I].
  unfold has_key in Hp. by destruct (dget fields "phase").
Qed.

(** The state in which a drift is recorded settles it. *)
Lemma lifecycle_saved d fields : dget fields "phase" = None -> dget fields "execution_stage" = Some (PStr "lifecycle") ->
  NoDup (keys fields) -> settling (next_state d "agent_running" (plain fields)).
Proof.
  intros Hp Hs Hnd. left. split.
  - apply at_phase_saved; [|done]. unfold has_key. by rewrite Hp.
  - exists "lifecycle". rewrite get_saved; [|done|by left]. rewrite Hs. set_solver.
Qed.

Lemma at_stage_in d stage stages : at_stage d [stage] -> stage ∈ stages -> at_stage d stages.
Proof. intros [Hp (s & Hs & Hin)] H'. split; [done|]. apply list_elem_of_singleton in Hin as ->. eauto. Qed.

Lemma elem_of_eqb s l : existsb (String.eqb s) l = true -> s ∈ l.
Proof. intros (x & Hx & ->%String.eqb_eq)%existsb_exists. by apply list_elem_of_In. Qed.

(** The report that was just saved is read back. *)
Lemma saved_report d stage report :
  _validate_state_invariant d = Ok tt -> at_stage d [stage] -> stage ∈ report_stages ->
  get d "pending_execution_report" = as_dict report -> from_dict (get d "pending_execution_report") = Ok report.
Proof.
  intros Hv [Hp (s & Hs & ->%list_elem_of_singleton)] Hin Hr.
  destruct (sf_agent _ (invariant_facts _ Hv) _ Hp) as (i & _ & F); [set_solver|].
  destruct (af_report _ _ _ F stage eq_refl Hs Hin) as (r & Hr' & _). rewrite Hr in Hr' |- *.
  rewrite Hr'. f_equal. by apply from_dict_as_dict_inv.
Qed.

(** The save of a report at a stage. *)
Lemma stage_saved d stage fields :
  dget fields "phase" = None -> dget fields "execution_stage" = Some (PStr stage) -> NoDup (keys fields) ->
  at_stage (next_state d "agent_running" (plain fields)) [stage].
Proof.
  intros Hp Hs Hnd. split; [apply at_phase_saved; [unfold has_key; by rewrite Hp|done]|].
  exists stage. rewrite get_saved; [|done|by left]. rewrite Hs. set_solver.
Qed.

Lemma get_dmerge d e k : NoDup (keys e) ->
  get (dmerge d e) k = match dget e k with Some v => v | None => get d k end.
Proof. intros Hnd. unfold get, get_or. rewrite dget_dmerge by done. by destruct (dget e k). Qed.

(** ** Automation *)

Create HintDb permits.
#[export] Hint Extern 1 (only (licensed _ _) _) => solve [apply reads_permitted; eauto with reads] : permits.
#[export] Hint Resolve permitted_sync permitted_repair permitted_compatible : permits.

(** One step of a turn from a known state. *)
Ltac turn_step :=
  lazymatch goal with
  | |- turn _ _ (eq _) (state_now ≫= _) _ _ => apply seq_state
  | |- turn _ _ (eq _) (py_lift _ ≫= _) _ _ => apply seq_lift; [done|intros ? ?]
  | |- turn _ _ (eq _) (on_git _ ≫= _) _ _ => apply seq_git; [solve [eauto with permits]|done|intros ?]
  | |- turn _ _ (eq _) (_ ≫= _) _ _ => apply seq_views; [solve [looks_auto]|done|intros ?]
  | |- turn _ _ (eq _) (py_raise _ _) _ _ => apply turn_raise; done
  | |- turn _ _ (eq _) (mret _) _ _ => apply turn_ret; intros ? <-
  | |- turn _ _ (eq _) (returns_with _) _ _ => apply turn_ret; intros ? <-
  | |- turn _ _ (eq _) (goes_on _) _ _ => apply turn_ret; intros ? <-
  | |- turn _ _ (eq _) (let x := _ in _) _ _ => cbv zeta
  | |- turn _ _ (eq _) (if ?b then _ else _) _ _ => let H := fresh "Hb" in destruct b eqn:H
  | |- turn _ _ (eq _) (match ?x with _ => _ end) _ _ => let H := fresh "Hm" in destruct x eqn:H
  end.

