(* ===== verification/RecoverySafety.v ===== *)
(** The recoveries announce what they do: the completion of a lifecycle, the
    recovery of a checkpoint and its publication, the normalization of a stranded
    execution, the recoveries an operator asked for. *)

From S2P Require Export Turns.

Section RecoverySafety.
Context {W : Type} `{GitWorld W, !EngineWorld W, !HostWorld W}.
Context {St : Type} `{RuntimeStore St, !ObservableStore St}.
Variable c : settings.
Variable state_file : string.
Variable loads_yaml : string -> string + dict.
Variables (randoms_md randoms_json : list string).

Abbreviation E := (py (engine (W := W) (St := St))).
(** From the state [d], whatever happens. *)
Abbreviation acts k d m := (turn (W := W) (St := St) c k (eq d) m (fun _ _ => True) (fun _ => True)).
(** From the state [d] to a state in [Q], unless it raises. *)
Abbreviation reaches d m Q := (turn (W := W) (St := St) c 0 (eq d) m Q (fun _ => True)).

(** What may run while a result is settled. *)
Lemma settles_only {A} d (m : py (logged W) A) : settling d -> only (settlement c) m -> only (licensed c d) m.
Proof. intros Hd. apply only_weaken. intros e. by apply settlement_licensed. Qed.

Lemma historical_settles state report :
  only (settlement c) (_persist_historical_execution_report (W := W) c loads_yaml randoms_md randoms_json state report).
Proof. apply settlement_lifecycle. Qed.

#[local] Hint Resolve settlement_lifecycle historical_settles settlement_zero_delta settlement_drop
  settlement_integrate : settlements.
#[local] Hint Extern 2 (only (licensed _ _) _) =>
  apply settles_only; [assumption | solve [eauto with settlements]] : permits.

Lemma returns_catch {A} (Q : A -> Prop) (m : py (logged W) A) p h :
  returns Q m -> (forall e, returns Q (h e)) -> returns Q (py_catch m p h).
Proof.
  intros Hm Hh s a. specialize (Hm s). unfold py_catch. destruct (m s) as [[x|e] s1]; cbn in *; [apply Hm|].
  destruct (p e); [apply Hh | done].
Qed.

Lemma returns_bind_from {A B} (R : A -> Prop) (Q : B -> Prop) (m : py (logged W) A) (f : A -> py (logged W) B) :
  returns R m -> (forall a, R a -> returns Q (f a)) -> returns Q (m ≫= f).
Proof.
  intros Hm Hf s b. specialize (Hm s). unfold mbind, py_bind. destruct (m s) as [[a|e] s1]; cbn in *; [|done].
  by apply Hf, Hm.
Qed.

(** * The end of an execution *)

Lemma finalize_acts d report control_head o :
  acts 0 d (_finalize_execution_lifecycle c state_file loads_yaml report control_head o).
Proof.
  unfold _finalize_execution_lifecycle. repeat turn_step.
  apply seq_save; [done|]. intros d' Hv. turn_step. apply end_views; [looks_auto|done..].
Qed.

(** The last step of a computation whose end nobody asks about. *)
Lemma acts_then {A B} d (m : E A) (f : A -> E B) :
  acts 0 d m -> (forall a d', acts 0 d' (f a)) -> acts 0 d (m ≫= f).
Proof. intros Hm Hf. apply (seq_call c 0 d f _ _ _ 0 m Hm). auto. Qed.

Lemma zero_delta_acts d report : settling d ->
  acts 0 d (_resolve_zero_delta_retry c state_file loads_yaml randoms_md randoms_json report).
Proof.
  intros Hd. unfold _resolve_zero_delta_retry. repeat turn_step.
  all: try done.
  all: apply acts_then; [apply finalize_acts|]; intros; by apply turn_ret.
Qed.

Lemma drift_reaches d report product : reaches d (save_zero_delta report product) (fun _ d' => settling d').
Proof.
  unfold save_zero_delta. turn_step. apply end_save; [done|]. intros d' _.
  apply lifecycle_saved; [done..|]. apply (bool_decide_unpack _); vm_compute; exact I.
Qed.

Lemma complete_acts d report : settling d ->
  acts 0 d (_complete_execution_lifecycle c state_file loads_yaml randoms_md randoms_json report).
Proof.
  intros Hd. unfold _complete_execution_lifecycle, lifecycle_of_report. repeat turn_step.
  all: try by apply zero_delta_acts.
  - apply (seq_call c 0 d _ _ _ _ 0 _ (drift_reaches d report a)). intros _ d' Hd'. by apply zero_delta_acts.
  - apply (seq_call c 0 d _ _ _ (fun _ d' => settling d') 0); [|intros head d' Hd'].
    + repeat turn_step. eapply turn_weaken; [apply (turn_git c (eq d)); intros ? <-; eauto with permits|done|done| |done].
      by intros a1 ? <-.
    + apply acts_then; [apply finalize_acts|]. intros. by apply turn_ret.
Qed.

(** * A checkpoint and its publication *)

(** The state [d] is at the stage, with the report and its workspace. *)
Record recovering (d : dict) (stage : string) (report : ExecutionReport) (ws : ExecutionWorkspace) : Prop := {
  rv_stage : at_stage d [stage];
  rv_report : from_dict (get d "pending_execution_report") = Ok report;
  rv_ticket : field d "execution_ticket_id" = rep_ticket_id report;
  rv_execution : field d "execution_id" = rep_execution_id report;
  rv_branch : get d "execution_branch" = PStr (ew_branch ws)
}.

Definition checkpointed_stages : list string := ["post-checkpoint"; "publishing"; "post-publication"].

Lemma reconciliation_acts d stage report ws product remote :
  recovering d stage report ws -> stage ∈ checkpointed_stages ->
  acts 0 d (_persist_product_reconciliation c report product remote).
Proof.
  intros Hd Hs. unfold _persist_product_reconciliation, save_reconciliation. repeat turn_step.
  apply seq_git; [|done|].
  - rewrite <- (rv_ticket _ _ _ _ Hd), <- (rv_execution _ _ _ _ Hd). apply permitted_pin.
    eapply at_stage_in; [apply Hd|done].
  - intros _. repeat turn_step. apply end_save; done.
Qed.

Lemma publication_reaches state d stage report ws :
  recovering d stage report ws -> stage ∈ ["post-checkpoint"; "publishing"] ->
  get state "execution_remote_head" = get d "execution_remote_head" ->
  reaches d (recover_publication c state report ws) (fun _ _ => True).
Proof.
  intros Hd Hs Hr. unfold recover_publication. rewrite Hr.
  destruct (rep_workspace_head report) as [head|] eqn:Hh; [|by apply turn_raise].
  repeat turn_step.
  apply (seq_call c 0 d _ _ _ (fun _ d' => d = d') 0); [|intros a' d' <-; repeat turn_step; by apply end_save].
  repeat turn_step; [|done]. apply seq_git; [|done|intros _; apply end_views; [looks_auto|done..]].
  eapply permitted_publish; [eapply at_stage_in; [apply Hd|done] | apply Hd | apply Hd | done].
Qed.

Lemma confirm_reaches d report ws : reaches d (confirm_publication c report ws) (fun _ d' => settling d').
Proof.
  unfold confirm_publication. repeat turn_step. apply end_save; [done|]. intros d' _.
  apply lifecycle_saved; [done..|]. apply (bool_decide_unpack _); vm_compute; exact I.
Qed.

(** From a checkpoint to the stage [lifecycle]. *)
Lemma publish_reaches state d stage report ws :
  recovering d stage report ws -> stage ∈ checkpointed_stages ->
  get state "execution_remote_head" = get d "execution_remote_head" ->
  reaches d (publish_recovered c state stage report ws) (fun _ d' => settling d').
Proof.
  intros Hd Hs Hr. unfold publish_recovered. repeat turn_step.
  - apply drift_reaches.
  - apply (seq_call c 0 d _ _ _ _ 0 _ (reconciliation_acts d stage report ws _ _ Hd Hs)). intros. by apply turn_raise.
  - apply (seq_call c 0 d _ _ _ (fun _ _ => True) 0).
    + destruct (existsb _ _) eqn:He; [|by apply turn_ret].
      eapply publication_reaches; [done| |done]. by apply elem_of_eqb.
    + intros _ d' _. destruct (_ || _) eqn:He; [apply confirm_reaches|].
      exfalso. apply orb_false_iff in He as [He1 He2]. revert He1 He2.
      unfold checkpointed_stages in Hs. rewrite !elem_of_cons, elem_of_nil in Hs.
      by destruct Hs as [->|[->|[->|[]]]].
Qed.

(** The workspace of a recovery is on the bound branch. *)
Lemma recovered_branch state :
  returns (W := W) (fun ws => get state "execution_branch" = PStr (ew_branch ws))
    (_execution_workspace_for_recovery c state).
Proof.
  unfold _execution_workspace_for_recovery, blocked.
  destruct (negb (all_text _ _)) eqn:Ht; [apply returns_raise|]. apply negb_false_iff in Ht.
  unfold all_text, workspace_fields in Ht. cbn [forallb] in Ht. bsplit.
  apply returns_bind. intros m. destruct (negb (binding_matches _ _)) eqn:Hb; [apply returns_raise|].
  apply negb_false_iff, binding_manages in Hb as [Hb _].
  apply returns_catch; [|intros e; apply returns_raise].
  do 4 (apply returns_bind; intros ?). eapply returns_bind_from; [apply validate_existing_bound|].
  intros ws (_ & Hws & _). apply returns_bind. intros _. apply returns_ret.
  unfold field in Hb. unfold self_branch in Hws. rewrite Hws, Hb.
  by destruct (get state "execution_branch").
Qed.

Lemma manager_ticket repo root k :
  returns (W := W) (fun m => mg_ticket_id m = k) (new_manager repo root k).
Proof.
  unfold new_manager, refuse. destruct (negb _); [apply returns_raise|].
  apply returns_bind. intros r. apply returns_bind. intros a. by apply returns_ret.
Qed.

(** The ids of the report are those of the state. *)
Definition bound_report (d : dict) (report : ExecutionReport) : Prop :=
  field d "execution_ticket_id" = rep_ticket_id report /\ field d "execution_id" = rep_execution_id report.

Lemma make_reaches d ws report : at_stage d ["checkpointing"] -> bound_report d report ->
  reaches d (make_checkpoint c loads_yaml ws report) (fun _ d' => d = d').
Proof.
  intros Hs [Hk Hx]. unfold make_checkpoint. apply turn_recast.
  eapply seq_git_returns; [apply only_new_manager | apply manager_ticket | done |]. intros m Hm.
  apply seq_views; [unfold ticket_title; looks_auto|done|]. intros title.
  apply seq_git; [|done|intros ck; by apply turn_ret].
  rewrite <- Hx. apply permitted_checkpoint; [done|]. by rewrite Hm.
Qed.

Lemma checkpoint_reaches d report ws start :
  at_stage d ["checkpointing"] -> bound_report d report ->
  reaches d (recover_checkpoint c loads_yaml d report ws start)
    (fun r d' => match r with
     | None => settling d'
     | Some (report', ws') => recovering d' "post-checkpoint" report' ws' /\
                              get d "execution_remote_head" = get d' "execution_remote_head"
     end).
Proof.
  intros Hs Hb. unfold recover_checkpoint. cbv zeta.
  apply seq_views; [looks_auto|done|]. intros [product|].
  { apply (seq_call c 0 d _ _ _ _ 0 _ (drift_reaches d _ product)). intros _ d' Hd'. by apply turn_ret; intros ? <-. }
  turn_step.
  apply (seq_call c 0 d _ _ _ (fun _ d' => d = d') 0); [|intros head d' <-].
  { destruct (_ =? _)%string; [by apply make_reaches|]. repeat turn_step. done. }
  eapply seq_git_returns; [eauto with permits | apply recovered_branch | done |]. intros ws' Hws.
  turn_step; [by apply turn_raise|].
  apply seq_save; [done|]. intros d' Hv. apply turn_ret. intros ? <-.
  assert (Hst : at_stage d' ["post-checkpoint"])
    by (apply stage_saved; [done..|]; apply (bool_decide_unpack _); vm_compute; exact I).
  subst d'. split; [split|]; [done| | | | |].
  - eapply saved_report; [exact Hv|exact Hst|set_solver|]. by saved.
  - unfold field. saved. exact (proj1 Hb).
  - unfold field. saved. exact (proj2 Hb).
  - by saved.
  - by saved.
Qed.

(** ** The recovery as a whole *)

Lemma binding_ids d report : _report_matches_execution_binding d report = Ok tt -> bound_report d report.
Proof.
  unfold _report_matches_execution_binding. intros H1. apply res_bind_ok in H1 as ([] & _ & H1).
  unfold ensure in H1. destruct (forallb _ _) eqn:Hf; [|done]. cbn [forallb binding_pairs fst snd] in Hf. bsplit.
  unfold bound_report, field.
  repeat match goal with Hx : eq_str _ _ = true |- _ => apply eq_str_true in Hx; rewrite ?Hx; clear Hx end.
  done.
Qed.

Lemma pending_report_ok d report : pending_report d = Ok report ->
  from_dict (get d "pending_execution_report") = Ok report /\ bound_report d report.
Proof.
  unfold pending_report. intros H1. apply res_bind_ok in H1 as (r & Hr & H1).
  apply res_bind_ok in H1 as ([] & Hb & [= ->]). split; [|by apply binding_ids].
  unfold catch in Hr. destruct (from_dict _) as [r|e]; [done|]. by destruct (is_report_error e).
Qed.

Lemma recovery_reaches d stage : at_stage d [stage] -> stage ∈ "checkpointing" :: checkpointed_stages ->
  reaches d (_recover_checkpoint_publication c loads_yaml) (fun _ d' => settling d').
Proof.
  intros Hs Hin. unfold _recover_checkpoint_publication. do 2 turn_step.
  match goal with Hr : pending_report _ = _ |- _ => apply pending_report_ok in Hr as [Hr Hb] end.
  eapply seq_git_returns; [eauto with permits | apply recovered_branch | done |]. intros ws Hws.
  pose proof Hs as [_ (s & Hst & ->%list_elem_of_singleton)]. rewrite Hst. cbn [str_of].
  destruct (get d "execution_start_head"); try by apply turn_raise.
  turn_step; [by apply turn_raise|].
  apply elem_of_cons in Hin as [->|Hin].
  - apply (seq_call c 0 d _ _ _ _ 0 _ (checkpoint_reaches d _ _ _ Hs Hb)). intros [[report' ws']|] d' Hd'.
    + destruct Hd' as [Hd' Hr']. apply (publish_reaches d d' "post-checkpoint" report' ws'); [done|by left|done].
    + by apply turn_ret; intros ? <-.
  - assert (Hn : (stage =? "checkpointing")%string = false).
    { apply String.eqb_neq. intros ->. unfold checkpointed_stages in Hin. set_solver. }
    rewrite Hn. apply (publish_reaches d d stage _ _); [|done|done]. by split; try apply Hb.
Qed.

Lemma looks_lifecycle_report : views (W := W) (St := St) c (_recover_lifecycle_report c).
Proof. unfold _recover_lifecycle_report, recovered_report. looks_auto. Qed.

(** * Recoveries of lost owners and workspaces *)

Definition idle_now (d : dict) : Prop := at_phase d "idle" /\ _validate_state_invariant d = Ok tt.

Lemma normalize_reaches d kind :
  reaches d (_normalize_stranded_execution c state_file loads_yaml kind) (fun _ d' => idle_now d').
Proof.
  unfold _normalize_stranded_execution. repeat turn_step.
  apply seq_save; [done|]. intros d' Hv.
  turn_step. apply end_views; [looks_auto|done|]. intros _. split; [|done].
  apply at_phase_saved; [done|]. apply (bool_decide_unpack _); vm_compute; exact I.
Qed.

Lemma stranded_reaches d :
  reaches d (_reconcile_stranded_execution c state_file loads_yaml)
    (fun r d' => match r with Some _ => idle_now d' | None => True end).
Proof.
  unfold _reconcile_stranded_execution, blocked_recovery. turn_step.
  apply (seq_call c 0 d _ _ _ (fun _ _ => True) 0).
  { destruct (get d "execution_interruption_kind"); try by apply turn_ret.
    apply seq_save; [done|]. intros d' _. by apply turn_ret. }
  intros kind d1 _. turn_step. turn_step; [by apply turn_raise|]. cbv zeta. turn_step.
  assert (Hn : reaches d1 (_ ← _normalize_stranded_execution c state_file loads_yaml (str_of kind);
    ticket_id ← py_lift (getitem d "execution_ticket_id"); mret (Some (py_str ticket_id)))
    (fun r d' => match r with Some _ => idle_now d' | None => True end)).
  { apply (seq_call c 0 d1 _ _ _ _ 0 _ (normalize_reaches d1 _)). intros [] d2 Hd2. repeat turn_step. done. }
  repeat turn_step; first [exact Hn | idtac].
Qed.

Lemma drop_acts d k x : settling d -> acts 0 d (_drop_owned c k x).
Proof. intros Hd. unfold _drop_owned. repeat turn_step; [|done]. by apply end_save. Qed.

Lemma unsafe_acts d k x head : at_phase d "agent_pending" -> is_dict (get d "operator_recovery") = true ->
  acts 0 d (_recover_unsafe_bound_execution_workspace c k x head).
Proof.
  intros Hp Ho. unfold _recover_unsafe_bound_execution_workspace. turn_step.
  apply seq_git; [by apply permitted_recover|done|]. intros remote. by apply end_save.
Qed.

(** * The resumption of a reconciliation *)

Lemma lifecycle_reaches d report : settling d ->
  reaches d (lifecycle_of_report c loads_yaml randoms_md randoms_json report) (fun _ d' => d = d').
Proof.
  intros Hd. unfold lifecycle_of_report. turn_step.
  eapply turn_weaken; [apply (turn_git c (eq d)); intros ? <-; eauto with permits|done..].
Qed.

Lemma resume_report_acts d m t resolved base control head expected pending :
  acts 0 d (resume_report c state_file loads_yaml randoms_md randoms_json m t resolved base control head
              expected pending).
Proof.
  unfold resume_report. turn_step. apply seq_save; [done|]. intros d1 _.
  assert (Hs : at_stage d1 ["post-checkpoint"])
    by (apply stage_saved; [done..|]; apply (bool_decide_unpack _); vm_compute; exact I).
  clearbody d1.
  apply (seq_call c 0 d1 _ _ _ (fun _ => settling) 0); [apply (recovery_reaches d1 "post-checkpoint"); [done|]|].
  { right. by left. }
  intros _ d2 Hd2. apply seq_views; [apply looks_lifecycle_report|done|]. intros report.
  apply (seq_call c 0 d2 _ _ _ _ 0 _ (lifecycle_reaches d2 report Hd2)). intros lifecycle_head _ <-.
  apply acts_then; [apply finalize_acts|]. intros _ d3.
  apply seq_save; [done|]. intros d4 _. by apply turn_ret.
Qed.

(** The reconciliation that the state is resolving, with its checkpoint. *)
Definition resolves (d : dict) (head : string) : Prop :=
  at_phase d "idle" /\ exists r, get d "reconciliation" = PDict r /\ get r "status" = PStr "resolving" /\
    py_str (get r "worker_checkpoint") = head.

Lemma resume_publication_acts d k branch resolved base head expected observed : resolves d head ->
  acts 0 d (resume_publication c k branch resolved base head expected observed).
Proof.
  intros (Hi & r & Hr & Hs & Hh). unfold resume_publication.
  apply (seq_call c 0 d _ _ _ (fun _ d' => d = d') 0).
  - turn_step; [by apply turn_ret|]. turn_step.
    eapply seq_git_returns; [eauto with permits | apply recovered_branch | done |]. intros ws Hws.
    eapply turn_weaken; [apply (turn_git c (eq d)); intros ? <-|done..].
    eapply permitted_resolution; [done..| |done]. unfold field. by rewrite Hws.
  - intros _ d' <-. repeat turn_step. apply seq_save; [done|]. intros d1 _. by apply turn_ret.
Qed.

Lemma resume_resolved_acts d reconciliation m t base control head expected remote was_resolving :
  py_str (get reconciliation "worker_checkpoint") = head ->
  acts 0 d (resume_resolved c state_file loads_yaml randoms_md randoms_json reconciliation m t base control head
              expected remote was_resolving).
Proof.
  intros Hh. unfold resume_resolved. cbv zeta. apply seq_save; [done|]. intros d1 _.
  assert (Hr : resolves d1 head).
  { split; [apply at_phase_saved; [done|]; apply (bool_decide_unpack _); vm_compute; exact I|].
    eexists. split; [by unfold d1; saved|].
    rewrite !get_dmerge by (apply (bool_decide_unpack _); vm_compute; exact I). done. }
  clearbody d1. repeat turn_step; first [apply resume_report_acts | by apply resume_publication_acts | done].
Qed.

Lemma resume_acts d k :
  acts 0 d (_reconcile_resume_owned c state_file loads_yaml randoms_md randoms_json k).
Proof.
  unfold _reconcile_resume_owned, reconciled_ticket. repeat turn_step; try done.
  apply resume_resolved_acts.
  match goal with Hx : text_item _ "worker_checkpoint" = Ok _ |- _ =>
    unfold text_item in Hx; apply res_bind_ok in Hx as (v & Hv & [= <-]) end.
  by apply getitem_get in Hv as [-> _].
Qed.
End RecoverySafety.
