(* ===== verification/IterationSafety.v ===== *)
(** An iteration announces what it does: every part of
    [src/devlegate/runtime.py], [run_iteration], acts on the repositories only as
    the durable state of that moment licenses, and starts at most one worker, for
    the execution that the state binds. *)

From S2P Require Export RecoverySafety.

Section IterationSafety.
Context {W : Type} `{GitWorld W, !EngineWorld W, !HostWorld W}.
Context {St : Type} `{RuntimeStore St, !ObservableStore St}.
Variable c : settings.
Variable state_file : string.
Variable loads_yaml : string -> string + dict.
Variables (randoms_md randoms_json : list string).
Variable texts : prompt_texts.

Abbreviation E := (py (engine (W := W) (St := St))).
Abbreviation acts k d m := (turn (W := W) (St := St) c k (eq d) m (fun _ _ => True) (fun _ => True)).
Abbreviation reaches d m Q := (turn (W := W) (St := St) c 0 (eq d) m Q (fun _ => True)).

(** A part that may have returned from the method, and otherwise goes on in [R]. *)
Abbreviation goes d m R :=
  (turn (W := W) (St := St) c 0 (eq d) m (fun r d' => match r with inl _ => True | inr a => R a d' end)
     (fun _ => True)).

Lemma seq_return {A B} k d (m : E (Z + A)) (f : A -> E (Z + B)) (R : A -> dict -> Prop) :
  goes d m R -> (forall a d', R a d' -> acts k d' (f a)) -> acts k d (turn_bind m f).
Proof.
  intros Hm Hf. apply (turn_return c 0 k _ _ _ R); [|intros a; apply turn_from; intros d'; apply Hf].
  eapply turn_weaken; [exact Hm|done|done|by intros []|done].
Qed.

Lemma goes_return {A B} d (m : E (Z + A)) (f : A -> E (Z + B)) (R : A -> dict -> Prop) (R' : B -> dict -> Prop) :
  goes d m R -> (forall a d', R a d' -> goes d' (f a) R') -> goes d (turn_bind m f) R'.
Proof.
  intros Hm Hf. apply (turn_return c 0 0 _ _ _ R); [|intros a; apply turn_from; intros d'; apply Hf].
  eapply turn_weaken; [exact Hm|done|done|by intros []|done].
Qed.

(** Nothing but early returns and views. *)
Lemma looks_goes {A} d (m : E (Z + A)) : views c m -> goes d m (fun _ d' => d = d').
Proof. intros Hm. apply end_views; [done|done|]. by intros []. Qed.

(** * What a persisted state resumes *)

(** The phases from which an execution may be admitted. *)
Definition ready_phases : list string := ["idle"; "agent_pending"; "merge_pending"].
Definition ready (d : dict) : Prop := exists p, at_phase d p /\ p ∈ ready_phases.

Lemma idle_ready d : idle_now d -> ready d.
Proof. intros [Hi _]. exists "idle". split; [done|by left]. Qed.

Lemma looks_repo_git args : reading args = true -> views (W := W) (St := St) c (repo_git c args).
Proof.
  intros Hr. unfold repo_git. apply views_bind; [apply views_state|]. intros st. apply looks_reads.
  by apply only_git_runtime.
Qed.

Lemma looks_repo_check args : reading args = true -> views (W := W) (St := St) c (repo_git_check c args).
Proof.
  intros Hr. unfold repo_git_check. apply views_bind; [apply views_state|]. intros st. apply looks_reads.
  by apply only_git_runtime_check.
Qed.

Lemma looks_stopped : views (W := W) (St := St) c _stop_before_admission.
Proof. unfold _stop_before_admission, drain_pending. looks_auto. Qed.

#[local] Hint Extern 1 (views _ (repo_git _ _)) => apply looks_repo_git; reflexivity : views.
#[local] Hint Extern 1 (views _ (repo_git_check _ _)) => apply looks_repo_check; reflexivity : views.
#[local] Hint Resolve looks_stopped looks_lifecycle_report : views.
#[local] Hint Resolve settlement_lifecycle historical_settles settlement_zero_delta settlement_drop
  settlement_integrate : settlements.
#[local] Hint Extern 2 (only (licensed _ _) _) =>
  apply settles_only; [assumption | solve [eauto with settlements]] : permits.

Lemma integration_done_acts d remote control : acts 0 d (integration_done c state_file loads_yaml remote control).
Proof.
  unfold integration_done. repeat turn_step. apply seq_save; [done|]. intros d' _. turn_step.
  apply end_views; [looks_auto|done..].
Qed.

Lemma accepted_settling d r : get d "accepted_integration" = PDict r -> settling d.
Proof. intros Hr. right. by exists r. Qed.

Lemma integration_acts d :
  acts 0 d (_recover_accepted_integration c state_file loads_yaml).
Proof.
  unfold _recover_accepted_integration. repeat turn_step.
  all: try (pose proof (accepted_settling _ _ Hm) as Hset); repeat turn_step.
  apply acts_then; [apply integration_done_acts|]. intros. by apply turn_ret.
Qed.

(** [status ← m; returns_with status] *)
Lemma returns_goes {A} d (m : E Z) (R : A -> dict -> Prop) :
  acts 0 d m -> goes d (status ← m; returns_with status) R.
Proof. intros Hm. apply (seq_call c 0 d _ _ _ _ 0 m Hm). intros z d' _. by apply turn_ret. Qed.

Lemma operator_goes d : goes d (resume_operator_recovery c d) (fun _ d' => d = d').
Proof.
  unfold resume_operator_recovery. destruct (eq_str (get d "phase") "agent_pending") eqn:Hp; [|by apply turn_ret].
  destruct (get d "operator_recovery") eqn:Ho; try by apply turn_ret.
  turn_step; [by apply turn_raise|].
  apply (seq_call c 0 d _ _ _ (fun _ _ => True) 0); [|intros; by apply turn_ret].
  apply unsafe_acts; [by apply eq_str_true|by rewrite Ho].
Qed.

Lemma integration_goes d : goes d (resume_integration c state_file loads_yaml d) (fun _ d' => d = d').
Proof.
  unfold resume_integration. turn_step; [|by apply turn_ret]. turn_step. apply returns_goes, integration_acts.
Qed.

Lemma resolving_goes d :
  goes d (resume_resolving c state_file loads_yaml randoms_md randoms_json d) (fun _ d' => d = d').
Proof.
  unfold resume_resolving. destruct (eq_str _ _); [|by apply turn_ret].
  destruct (get d "reconciliation"); try by apply turn_ret.
  turn_step; [|by apply turn_ret]. apply returns_goes, resume_acts.
Qed.

Lemma lifecycle_acts d : settling d -> acts 0 d (resume_lifecycle c state_file loads_yaml randoms_md randoms_json d).
Proof.
  intros Hd. unfold resume_lifecycle.
  apply seq_views; [looks_auto|done|]. intros [[k x]|].
  - turn_step. apply acts_then; [by apply drop_acts|]. intros _ d'. turn_step. by apply turn_ret.
  - turn_step. by apply complete_acts.
Qed.

Lemma running_goes d authorization : _validate_state_invariant d = Ok tt ->
  goes d (resume_running c state_file loads_yaml randoms_md randoms_json d authorization) (fun _ => ready).
Proof.
  intros Hv. unfold resume_running. turn_step.
  { apply turn_ret. intros ? <-. destruct (invariant_facts _ Hv) as [(p & Hp & Hin) _ _ _ _].
    exists p. unfold at_phase, get, get_or. rewrite Hp. split; [done|]. cbn.
    unfold get, get_or in Hb. rewrite Hp in Hb. cbn in Hb. apply negb_true_iff, String.eqb_neq in Hb.
    unfold valid_phases, ready_phases in *. set_solver. }
  apply negb_false_iff, eq_str_true in Hb.
  turn_step. turn_step; [by apply turn_ret|]. cbv zeta. turn_step.
  { apply existsb_eq_str in Hb1 as (stage & Hs & Hin).
    apply (seq_call c 0 d _ _ _ (fun _ => settling) 0).
    - apply (recovery_reaches c loads_yaml d stage); [|exact Hin]. split; [done|]. exists stage. split; [done|by left].
    - intros _ d' Hd'. turn_step. apply returns_goes. by apply complete_acts. }
  turn_step.
  { bsplit. apply returns_goes, lifecycle_acts. left. split; [done|].
    exists "lifecycle". split; [by apply eq_str_true|by left]. }
  apply (seq_call c 0 d _ _ _ _ 0 _ (stranded_reaches c state_file loads_yaml d)).
  intros [k|] d' Hd'; [|by apply turn_ret]. repeat turn_step; try done. by apply idle_ready.
Qed.

Lemma persisted_goes d authorization : _validate_state_invariant d = Ok tt ->
  goes d (resume_persisted c state_file loads_yaml randoms_md randoms_json authorization) (fun _ => ready).
Proof.
  intros Hv. unfold resume_persisted. repeat turn_step; [done|].
  eapply goes_return; [apply operator_goes|]. intros _ d' <-.
  apply seq_views; [unfold check_current_branch; looks_auto|done|]. intros _.
  eapply goes_return; [apply integration_goes|]. intros _ d' <-.
  eapply goes_return; [apply resolving_goes|]. intros _ d' <-.
  by apply running_goes.
Qed.

(** * The synchronization *)

(** It goes on, wherever that is. *)
Abbreviation proceeds d m := (goes d m (fun _ _ => True)).

Lemma proceeds_return {A B} d (m : E (Z + A)) (f : A -> E (Z + B)) :
  proceeds d m -> (forall a d', proceeds d' (f a)) -> proceeds d (turn_bind m f).
Proof. intros Hm Hf. eapply goes_return; [exact Hm|]. intros a d' _. apply Hf. Qed.

Lemma looks_proceeds {A} d (m : E (Z + A)) : views c m -> proceeds d m.
Proof. intros Hm. apply end_views; [done|done|]. by intros []. Qed.

Lemma looks_state_text key : views (W := W) (St := St) c (state_text key).
Proof. unfold state_text. looks_auto. Qed.

Lemma looks_ancestor older newer : views (W := W) (St := St) c (ancestor_of c older newer).
Proof. unfold ancestor_of. looks_auto. Qed.

Lemma looks_changed older newer : views (W := W) (St := St) c (changed_between c older newer).
Proof. unfold changed_between. looks_auto. Qed.

Lemma looks_cannot {A} head : views (W := W) (St := St) c (cannot_synchronize (A := A) c head).
Proof. unfold cannot_synchronize. looks_auto. Qed.

Lemma looks_unless phase : views (W := W) (St := St) c (stop_unless_merging phase).
Proof. unfold stop_unless_merging. looks_auto. Qed.

Lemma looks_here : views (W := W) (St := St) c stop_here.
Proof. unfold stop_here. looks_auto. Qed.
#[local] Hint Resolve looks_state_text looks_ancestor looks_changed looks_cannot looks_unless looks_here : views.

(** The fast-forward happens under the phase that announces it. *)
Lemma merge_proceeds d local target changed control : proceeds d (merge_remote c local target changed control).
Proof.
  unfold merge_remote. apply seq_save; [done|]. intros d' _.
  assert (Hp : at_phase d' "merge_pending")
    by (apply at_phase_saved; [done|]; apply (bool_decide_unpack _); vm_compute; exact I).
  clearbody d'. apply (seq_call c 0 d' _ _ _ (fun _ d1 => d' = d1) 0); [|intros r d1 <-].
  - unfold repo_git. turn_step.
    eapply turn_weaken; [apply (turn_git c (eq d')); intros ? <-|done..].
    apply only_git_runtime. right. right. left. split; [done|]. reflexivity.
  - apply looks_proceeds. looks_auto.
Qed.

Lemma reach_proceeds phase d local target control ahead :
  proceeds d (reach_pending_target c phase local target control ahead).
Proof.
  unfold reach_pending_target. turn_step.
  - apply looks_proceeds. looks_auto.
  - turn_step. apply proceeds_return; [apply looks_proceeds; looks_auto|]. intros _ d'.
    apply proceeds_return; [apply merge_proceeds|]. intros reached d1. apply looks_proceeds. looks_auto.
Qed.

Lemma pending_proceeds phase merging d local remote control :
  proceeds d (synchronize_pending c phase merging local remote control).
Proof.
  unfold synchronize_pending. do 2 turn_step.
  apply seq_views; [unfold check_pending_local; looks_auto|done|]. intros _.
  apply seq_views; [unfold pending_target; looks_auto|done|]. intros target.
  apply proceeds_return; [apply looks_proceeds; unfold pending_ahead; looks_auto|]. intros ahead d1.
  apply proceeds_return; [apply reach_proceeds|]. intros [reached changed] d2.
  apply seq_save; [done|]. intros d3 _. by apply turn_ret.
Qed.

Lemma fresh_proceeds d local remote control : proceeds d (synchronize_fresh c local remote control).
Proof.
  unfold synchronize_fresh. repeat turn_step; [done| |done|].
  - unfold fast_forward_product. turn_step. apply proceeds_return; [apply looks_proceeds; looks_auto|]. intros _ d1.
    apply proceeds_return; [apply merge_proceeds|]. intros actual d2.
    turn_step; [by apply turn_raise|]. apply seq_save; [done|]. intros d3 _. by apply turn_ret.
  - apply looks_proceeds. looks_auto.
Qed.

Lemma synchronize_proceeds d : proceeds d (synchronize c).
Proof.
  unfold synchronize. turn_step.
  apply seq_views; [unfold _observe_worktree; looks_auto|done|]. intros _.
  turn_step; [by apply turn_ret|]. turn_step. cbv zeta.
  eapply goes_return; [apply looks_goes; looks_auto|]. intros _ d' <-. turn_step.
  apply proceeds_return; [apply looks_proceeds; looks_auto|]. intros _ d1. turn_step.
  apply proceeds_return; [apply looks_proceeds; unfold fetch_product; looks_auto|]. intros remote d2.
  apply proceeds_return; [|intros synced d3; by apply turn_ret].
  turn_step; [apply pending_proceeds | apply fresh_proceeds].
Qed.

(** * The plan *)

(** The index of the store has every ticket under its id. *)
Definition keyed (store : TicketStore) : Prop := forall k t, ts_by_id store !! k = Some t -> tk_id t = k.

Lemma ticket_store_keyed state : returns (W := W) keyed (_ticket_store c loads_yaml state).
Proof.
  assert (Hl : returns (W := W) keyed (load_control_store c loads_yaml)).
  { unfold load_control_store. apply returns_bind. intros t s store Hs.
    change (load_ticket_store loads_yaml (checkout_of c t) = Ok store) in Hs.
    apply load_stages in Hs as (ps & _ & _ & _ & Hw). intros k u Hu. exact (proj2 (proj1 (wf_index _ Hw k u) Hu)). }
  unfold _ticket_store, blocked. apply returns_bind. intros _. apply returns_bind. intros b.
  destruct b; [apply returns_raise|]. apply returns_bind. intros _. apply returns_bind. intros t.
  apply returns_bind. intros _. apply returns_catch; [|intros; apply returns_raise].
  apply returns_catch; [exact Hl|intros; apply returns_raise].
Qed.

(** The rest of a computation, when nobody asks where a part of it ends. *)
Lemma acts_proceeds {A B} d (m : E A) (f : A -> E (Z + B)) (R : B -> dict -> Prop) :
  acts 0 d m -> (forall a d', goes d' (f a) R) -> goes d (m ≫= f) R.
Proof. intros Hm Hf. apply (seq_call c 0 d f _ _ _ 0 m Hm). auto. Qed.

Lemma give_up_acts d retry : acts 0 d (give_up_retry retry).
Proof. by apply end_save. Qed.

Lemma discard_acts d store : acts 0 d (_discard_ineligible_zero_delta_retry store).
Proof.
  unfold _discard_ineligible_zero_delta_retry, zero_delta_identity.
  repeat turn_step; first [apply give_up_acts | done].
Qed.

Lemma repair_acts d : acts 0 d (repair_bound c).
Proof.
  unfold repair_bound. repeat turn_step.
  eapply turn_weaken; [apply (turn_git c (eq d)); intros ? <-; apply permitted_repair|done..].
Qed.

Lemma looks_plan store git : views (W := W) (St := St) c (plan_now c store git).
Proof. unfold plan_now. looks_auto. Qed.
#[local] Hint Resolve looks_plan : views.

Lemma repaired_acts d pending store git : acts 0 d (repaired_plan c pending store git).
Proof.
  unfold repaired_plan. repeat turn_step; [|done].
  apply acts_then; [apply repair_acts|]. intros _ d'. apply end_views; [looks_auto|done..].
Qed.

Lemma zero_delta_authorization_acts d store plan local remote :
  acts 0 d (_automatic_zero_delta_authorization c store plan local remote).
Proof.
  unfold _automatic_zero_delta_authorization, zero_delta_identity. repeat turn_step; try done.
  - apply acts_then; [apply give_up_acts|]. intros _ d'. by apply turn_ret.
  - apply (seq_call c 0 d _ _ _ (fun _ _ => True) 0); [|intros; by apply turn_ret].
    turn_step; [by apply turn_ret|]. by apply end_save.
Qed.

Lemma plan_goes pending d synced heads authorization :
  goes d (make_plan_now c state_file loads_yaml pending synced heads authorization) (fun r _ => keyed (fst (fst r))).
Proof.
  unfold make_plan_now. eapply goes_return; [apply looks_goes; looks_auto|]. intros _ d' <-.
  apply (seq_call c 0 d _ _ _ (fun store d' => keyed store /\ d = d') 0).
  { unfold control_store. turn_step.
    eapply turn_weaken; [apply (turn_git_returns c keyed (eq d)); [intros ? <-|apply ticket_store_keyed]|done..].
    eauto with permits. }
  intros store d' [Hk <-].
  apply seq_views; [unfold check_project_context, recast; looks_auto|done|]. intros _.
  apply acts_proceeds; [apply discard_acts|]. intros _ d1.
  apply acts_proceeds; [apply repaired_acts|]. intros plan d2.
  apply seq_views; [unfold _publish_ticket_projection; looks_auto|done|]. intros _. turn_step.
  apply acts_proceeds; [apply zero_delta_authorization_acts|]. intros automatic d3. cbv zeta.
  eapply goes_return; [apply looks_goes; looks_auto|]. intros _ d4 <-.
  apply seq_views; [unfold authorized_plan; looks_auto|done|]. intros plan'.
  repeat turn_step; done.
Qed.

(** * Accepted work *)

Lemma continue_acts d plan synced pending : get d "accepted_integration" = PDict pending ->
  acts 0 d (continue_integration c state_file loads_yaml plan synced pending).
Proof.
  intros Hp. pose proof (accepted_settling _ _ Hp) as Hset. unfold continue_integration. repeat turn_step.
  all: apply acts_then; [apply integration_done_acts|]; intros; by apply turn_ret.
Qed.

Lemma start_acts d plan synced : acts 0 d (start_integration c state_file loads_yaml plan synced).
Proof.
  unfold start_integration. destruct (pl_ticket_id plan) as [k|]; [|by apply turn_raise].
  destruct (pl_control plan) as [control|]; [|by apply turn_raise]. turn_step.
  apply seq_save; [done|]. intros d' _.
  assert (Hset : settling d') by (right; unfold d'; saved; eauto).
  clearbody d'. do 2 turn_step.
  apply (seq_call c 0 d' _ _ _ (fun _ _ => True) 0).
  - apply turn_recast. eapply turn_weaken; [apply (turn_git c (eq d')); intros ? <-; eauto with permits|done..].
  - intros head d1 _. apply acts_then; [apply integration_done_acts|]. intros. by apply turn_ret.
Qed.

Lemma integrate_goes d plan synced :
  goes d (integrate_first c state_file loads_yaml plan synced) (fun _ d' => d = d').
Proof.
  unfold integrate_first. turn_step. destruct (get d "accepted_integration") eqn:Hg; try by apply turn_raise.
  - turn_step; [apply returns_goes, start_acts | by apply turn_ret].
  - by apply returns_goes, continue_acts.
Qed.

(** * Admission *)

Lemma selected_reaches d pending store plan : keyed store ->
  reaches d (selected_ticket pending store plan)
    (fun r d' => d = d' /\ forall t, r = Some t -> pl_ticket_id plan = Some (tk_id t)).
Proof.
  intros Hk. unfold selected_ticket. turn_step; [by apply turn_ret|].
  destruct (pl_ticket_id plan) as [k|] eqn:Hpk; [|by apply turn_raise].
  destruct (ts_by_id store !! k) as [t|] eqn:Ht; [|by apply turn_raise]. apply Hk in Ht as <-.
  repeat turn_step; try done; split; [done| |done|]; by intros ? [= <-].
Qed.

(** The execution of the ticket is admitted. *)
Definition admitted (d : dict) (t : Ticket) : Prop :=
  at_phase d "agent_pending" /\ get d "execution_ticket_id" = PStr (tk_id t) /\
  all_text d execution_fields = true.

Lemma pending_fields d : at_phase d "agent_pending" -> _validate_state_invariant d = Ok tt ->
  all_text d execution_fields = true.
Proof.
  intros Hp Hv. destruct (sf_agent _ (invariant_facts _ Hv) _ Hp) as (i & _ & F); [set_solver|].
  destruct (af_bound _ _ _ F) as (Ht & _). unfold all_text in *. cbn [forallb] in Ht. by bsplit.
Qed.

Lemma admit_execution_reaches d g changed pending t authorization :
  reaches d (admit_execution c g changed pending t authorization) (fun _ d' => admitted d' t).
Proof.
  unfold admit_execution. turn_step. cbv zeta.
  apply seq_views; [unfold admitted_base, forced_field; looks_auto|done|]. intros base.
  apply seq_views; [unfold admitted_remote, forced_field; looks_auto|done|]. intros remote.
  apply seq_views; [unfold admitted_id; looks_auto|done|]. intros execution_id.
  apply seq_save; [done|]. intros d' Hv. apply turn_ret. intros ? <-.
  assert (Hp : at_phase d' "agent_pending")
    by (apply at_phase_saved; [done|]; apply (bool_decide_unpack _); vm_compute; exact I).
  split; [done|]. split; [by unfold d'; saved|]. by apply pending_fields.
Qed.

Lemma barrier_acts d k : acts 0 d (clear_stale_barrier k).
Proof.
  unfold clear_stale_barrier. turn_step. destruct (get d "manual_retry_required"); try by apply turn_ret.
  turn_step; [|by apply turn_ret]. apply seq_save; [done|]. intros d' _. by apply turn_ret.
Qed.

Lemma admit_goes d g changed pending store plan ticket authorization :
  goes d (admit_ticket c g changed pending store plan ticket authorization)
    (fun ad d' => exists t, ticket = Some t /\ ad_ticket ad = Some t /\ admitted d' t).
Proof.
  unfold admit_ticket. destruct ticket as [t|].
  - turn_step. apply acts_proceeds; [apply barrier_acts|]. intros manual d1. do 2 turn_step.
    match goal with |- turn _ _ _ (match ?x with _ => _ end) _ _ => destruct x; [|by apply turn_ret] end.
    apply (seq_call c 0 d1 _ _ _ _ 0 _ (admit_execution_reaches d1 _ _ _ _ _)). intros execution_id d2 Hd2.
    eapply goes_return; [apply looks_goes; looks_auto|]. intros _ d' <-. repeat turn_step. by exists t.
  - turn_step; [by apply turn_raise|]. apply seq_save; [done|]. intros d' _. turn_step. by apply turn_ret.
Qed.

Lemma admit_in_goes d phase heads synced store plan ticket authorization : phase ∈ ready_phases ->
  goes d (admit_in c (PStr phase) heads synced store plan ticket authorization)
    (fun ad d' => exists t, ticket = Some t /\ ad_ticket ad = Some t /\ admitted d' t).
Proof.
  intros Hp. unfold admit_in.
  assert (He : existsb (eq_str (PStr phase)) ["idle"; "agent_pending"; "merge_pending"] = true)
    by (apply existsb_eq_str; eauto).
  rewrite He. turn_step. apply admit_goes.
Qed.

Lemma prepare_reaches d plan t : admitted d t -> pl_ticket_id plan = Some (tk_id t) ->
  reaches d (_prepare_execution_workspace c plan) (fun _ d' => d = d').
Proof.
  intros (Hp & Hk & Hf) Hpl. unfold _prepare_execution_workspace. rewrite Hpl.
  destruct (pl_code plan) as [code|]; [|by apply turn_raise].
  destruct (pl_control plan) as [control|]; [|by apply turn_raise]. turn_step.
  eapply turn_weaken; [apply (turn_git c (eq d)); intros ? <-; by apply permitted_workspace|done..].
Qed.

(** * The worker *)

(** The execution [x] of the ticket [k] is running on the branch of the workspace. *)
Record held (ws : ExecutionWorkspace) (k x : string) (d : dict) : Prop := {
  he_phase : at_phase d "agent_running";
  he_ticket : get d "execution_ticket_id" = PStr k;
  he_execution : get d "execution_id" = PStr x;
  he_branch : get d "execution_branch" = PStr (ew_branch ws)
}.

(** A save of the running execution that leaves its binding. *)
Lemma held_saved ws k x d fields : held ws k x d -> NoDup (keys fields) ->
  forallb (fun f => negb (has_key fields f)) ["phase"; "execution_ticket_id"; "execution_id"; "execution_branch"] = true ->
  held ws k x (next_state d "agent_running" (plain fields)).
Proof.
  intros Hd Hnd Hf. cbn [forallb] in Hf. bsplit. unfold has_key in *.
  split; unfold at_phase; (rewrite get_saved; [|done|by left]);
    repeat match goal with Hx : match dget fields ?f with _ => _ end = false |- context [dget fields ?f] =>
      destruct (dget fields f); [done|] end; cbn [String.eqb Ascii.eqb Bool.eqb]; [done|apply Hd..].
Qed.

(** Saves of the running execution keep the binding, whether they succeed. *)
Lemma held_save ws k x d fields (Q : unit -> dict -> Prop) : held ws k x d -> NoDup (keys fields) ->
  forallb (fun f => negb (has_key fields f)) ["phase"; "execution_ticket_id"; "execution_id"; "execution_branch"] = true ->
  (forall d', held ws k x d' -> Q tt d') ->
  turn (W := W) (St := St) c 0 (eq d) (save_fields "agent_running" fields) Q (held ws k x).
Proof. intros Hd Hnd Hf HQ. apply end_save; [done|]. intros d' _. by apply HQ, held_saved. Qed.

Lemma call_holds ws k x d call : held ws k x d ->
  turn (W := W) (St := St) c 0 (eq d) (handle_call c state_file loads_yaml call) (fun _ => held ws k x) (held ws k x).
Proof.
  intros Hd. destruct call as [identity|kind]; cbn [handle_call].
  - unfold _record_worker_identity. apply seq_save; [done|]. intros d' _.
    assert (Hd' : held ws k x d') by (apply held_saved; [done| |done]; apply (bool_decide_unpack _); vm_compute; exact I).
    apply end_views; [looks_auto|done|done].
  - apply held_save; [done| |done|done]. apply (bool_decide_unpack _); vm_compute; exact I.
Qed.

Lemma calls_hold ws k x calls d : held ws k x d ->
  turn (W := W) (St := St) c 0 (eq d) (handle_calls c state_file loads_yaml calls) (fun _ => held ws k x) (held ws k x).
Proof.
  revert d. induction calls as [|call calls IH]; intros d Hd; cbn [handle_calls].
  - apply turn_ret. by intros ? <-.
  - apply (seq_call c 0 d _ _ _ (fun _ => held ws k x) 0).
    { eapply turn_weaken; [eapply (turn_attempt c 0 (eq d)), call_holds; exact Hd|done|done| |].
      - by intros [] d'.
      - intros d' Hx. exact Hx. }
    intros outcome d1 Hd1. apply (seq_call c 0 d1 _ _ _ (fun _ => held ws k x) 0); [by apply IH|].
    intros outcomes d2 Hd2. apply turn_ret. by intros ? <-.
Qed.

(** The start of the worker is the one launch of an iteration. *)
Lemma start_holds ws k x prompt d : held ws k x d -> starts d ws x ->
  turn (W := W) (St := St) c 1 (eq d) (start_worker ws prompt x) (fun _ => held ws k x) (held ws k x).
Proof.
  intros Hd Hs s ->. unfold start_worker. destruct (hw_start ws prompt x (en_world s)) as [[calls|] w].
  - exists [Launched ws prompt x]. split_and!; [done|by split|exact (Nat.le_refl 1)|done|exact Hd].
  - exists []. split_and!; [done|done|exact (Nat.le_0_l 1)|done|exact Hd].
Qed.

Lemma run_holds ws k x prompt d : held ws k x d -> starts d ws x ->
  turn (W := W) (St := St) c 1 (eq d) (run_worker c state_file loads_yaml ws prompt x) (fun _ => held ws k x) (held ws k x).
Proof.
  intros Hd Hs. unfold run_worker.
  apply (seq_call c 0 d _ _ _ (fun _ => held ws k x) 1); [by apply start_holds|]. intros calls d1 Hd1.
  apply (seq_call c 0 d1 _ _ _ (fun _ => held ws k x) 0); [by apply calls_hold|]. intros outcomes d2 Hd2.
  apply end_views; [|done..]. apply views_silent. intros s. unfold finish_worker.
  destruct (hw_finish _ _ _). cbn. by rewrite app_nil_r.
Qed.

Lemma leave_holds ws k x run d : held ws k x d ->
  reaches d (leave_worker c state_file loads_yaml (Ok (inr run))) (fun _ => held ws k x).
Proof.
  intros Hd. unfold leave_worker. apply (seq_call c 0 d _ _ _ (fun _ => held ws k x) 0).
  - turn_step; [|by apply turn_ret; intros ? <-]. eapply turn_weaken; [|done|done| |done].
    + apply (held_save ws k x d _ (fun _ => held ws k x)); [done| |done|done].
      apply (bool_decide_unpack _); vm_compute; exact I.
    + done.
  - intros _ d' Hd'. apply end_views; [looks_auto|done|done].
Qed.

Lemma leave_acts run d : acts 0 d (leave_worker c state_file loads_yaml run).
Proof.
  unfold leave_worker. apply acts_then; [|intros _ d'; apply end_views; [looks_auto|done..]].
  destruct run as [[z|run]|e]; try by apply turn_ret. turn_step; [by apply end_save|by apply turn_ret].
Qed.

Lemma work_holds ws k x prompt d : held ws k x d -> starts d ws x ->
  turn (W := W) (St := St) c 1 (eq d) (work c state_file loads_yaml ws prompt x)
    (fun r d' => match r with inl _ => True | inr _ => held ws k x d' end) (fun _ => True).
Proof.
  intros Hd Hs. unfold work.
  apply (seq_call c 0 d _ _ _ (fun r d' => match r with Ok (inr _) => held ws k x d' | _ => True end) 1).
  { eapply turn_weaken; [apply (turn_attempt c 1 (eq d) _
      (fun r d' => match r with inl _ => True | inr _ => held ws k x d' end) (fun _ => True) (fun _ => True))
      |done|done|by intros [[]|]|done].
    apply (turn_catch c 1 0 _ _ _ _ _ (held ws k x)); [| |done].
    - apply (seq_call c 0 d _ _ _ (fun _ => held ws k x) 1); [by apply run_holds|].
      intros run d1 Hd1. by turn_step.
    - intros e. apply turn_from. intros d1 _. apply seq_save; [done|]. intros d2 _. by turn_step. }
  intros outcome d1 Hd1.
  apply (seq_call c 0 d1 _ _ _ (fun _ d' => match outcome with Ok (inr _) => held ws k x d' | _ => True end) 0).
  - destruct outcome as [[z|run]|e]; [apply leave_acts|by apply leave_holds|apply leave_acts].
  - intros _ d2 Hd2. apply turn_lift; [|done]. intros [z|run] d3 -> <-; done.
Qed.

(** * After the worker *)

Lemma failure_acts d k x local remote reason :
  acts 0 d (_record_post_worker_failure c state_file loads_yaml k x local remote reason).
Proof.
  unfold _record_post_worker_failure. repeat turn_step. apply seq_save; [done|]. intros d' _. turn_step.
  apply end_views; [looks_auto|done..].
Qed.

Lemma verify_reaches d k x local remote ws :
  reaches d (verify_dependencies c state_file loads_yaml k x local remote ws) (fun m d' => d = d' /\ mg_ticket_id m = k).
Proof.
  unfold verify_dependencies. cbv zeta. apply (turn_catch c 0 0 _ _ _ _ _ (eq d)); [| |done].
  - eapply turn_weaken; [apply (turn_git_returns c (fun m => mg_ticket_id m = k) (eq d))| | | |].
    + intros ? <-. eapply only_bind; [apply only_new_manager|]. intros m.
      apply only_bind; [|intros _; apply only_ret]. apply reads_permitted, reads_verify.
    + eapply returns_bind_from; [apply manager_ticket|]. intros m Hm. apply returns_bind. intros _. by apply returns_ret.
    + done.
    + done.
    + by intros m d' [Hm <-].
    + done.
  - intros e. apply turn_from. intros d' <-.
    apply (seq_call c 0 d _ _ _ (fun _ _ => True) 0); [apply failure_acts|]. intros _ d1 _.
    turn_step; [by turn_step | by apply turn_lift].
Qed.

(** The execution is held at a stage, with its report. *)
Record reported (ws : ExecutionWorkspace) (k x stage : string) (report : ExecutionReport) (d : dict) : Prop := {
  rd_held : held ws k x d;
  rd_stage : at_stage d [stage];
  rd_report : from_dict (get d "pending_execution_report") = Ok report;
  rd_ids : rep_ticket_id report = k /\ rep_execution_id report = x
}.

Lemma reported_saved ws k x stage report d fields : held ws k x d -> stage ∈ report_stages ->
  dget fields "execution_stage" = Some (PStr stage) -> dget fields "pending_execution_report" = Some (as_dict report) ->
  NoDup (keys fields) ->
  forallb (fun f => negb (has_key fields f)) ["phase"; "execution_ticket_id"; "execution_id"; "execution_branch"] = true ->
  rep_ticket_id report = k /\ rep_execution_id report = x ->
  let d' := next_state d "agent_running" (plain fields) in
  _validate_state_invariant d' = Ok tt -> reported ws k x stage report d'.
Proof.
  intros Hd Hin Hs Hr Hnd Hf Hi d' Hv. pose proof (held_saved ws k x d fields Hd Hnd Hf) as Hh.
  assert (Hst : at_stage d' [stage]).
  { split; [apply Hh|]. exists stage. unfold d'. rewrite get_saved; [|done|by left]. rewrite Hs. split; [done|by left]. }
  split; [done..| |done]. eapply saved_report; [done|exact Hst|done|].
  unfold d'. rewrite get_saved; [|done|by left]. by rewrite Hr.
Qed.

Lemma report_reaches d ws k x run : held ws k x d ->
  reaches d (report_run c state_file loads_yaml k x ws run)
    (fun report d' => reported ws k x "checkpointing" report d').
Proof.
  intros Hd. unfold report_run. do 3 turn_step.
  match goal with Hx : build_execution_report _ _ _ _ _ _ _ _ = Ok ?r |- _ =>
    assert (Hi : rep_ticket_id r = k /\ rep_execution_id r = x)
      by (unfold build_execution_report in Hx; apply res_bind_ok in Hx as (res & _ & [= <-]); done);
    clear Hx; rename r into report end.
  apply seq_views; [looks_auto|done|]. intros _. apply seq_save; [done|]. intros d' Hv. turn_step. turn_step.
  apply (reported_saved ws k x "checkpointing" report d); [done|by left|done|done| |done|done|exact Hv].
  apply (bool_decide_unpack _); vm_compute; exact I.
Qed.

Lemma checkpoint_run_reaches d ws m t x report :
  reported ws (tk_id t) x "checkpointing" report d -> mg_ticket_id m = tk_id t ->
  reaches d (checkpoint_run c state_file loads_yaml m t ws report)
    (fun report' d' => reported ws (tk_id t) x "post-checkpoint" report' d' /\
                       exists head, rep_workspace_head report' = Some head).
Proof.
  intros Hd Hm. unfold checkpoint_run.
  apply (seq_call c 0 d _ _ _ (fun _ d' => d = d') 0).
  { apply turn_recast. eapply turn_weaken; [apply (turn_git c (eq d)); intros ? <-|done..].
    pose proof (rd_held _ _ _ _ _ _ Hd) as Hh. destruct (rd_ids _ _ _ _ _ _ Hd) as [_ ->].
    assert (Hx : x = field d "execution_id") by (unfold field; by rewrite (he_execution _ _ _ _ Hh)).
    rewrite Hx. apply permitted_checkpoint; [apply Hd|]. unfold field. by rewrite (he_ticket _ _ _ _ Hh). }
  intros made d' <-. apply seq_save; [done|]. intros d' Hv. turn_step. turn_step. split; [|by eexists].
  apply (reported_saved ws (tk_id t) x "post-checkpoint" _ d); try done.
  - apply Hd.
  - by right; left.
  - apply (bool_decide_unpack _); vm_compute; exact I.
  - apply (rd_ids _ _ _ _ _ _ Hd).
Qed.

(** The ids of the report are those of the state that holds it. *)
Lemma reported_ids d ws k x stage report : reported ws k x stage report d ->
  field d "execution_ticket_id" = rep_ticket_id report /\ field d "execution_id" = rep_execution_id report.
Proof.
  intros Hd. pose proof (rd_held _ _ _ _ _ _ Hd) as Hh. destruct (rd_ids _ _ _ _ _ _ Hd) as [-> ->].
  unfold field. by rewrite (he_ticket _ _ _ _ Hh), (he_execution _ _ _ _ Hh).
Qed.

Lemma ask_acts d ws k x report product remote : reported ws k x "post-checkpoint" report d ->
  acts 0 d (ask_reconciliation c state_file loads_yaml report product remote).
Proof.
  intros Hd. destruct (reported_ids _ _ _ _ _ _ Hd) as [Hk Hx].
  unfold ask_reconciliation, save_reconciliation. cbv zeta.
  apply seq_git; [|done|].
  - rewrite <- Hk, <- Hx. apply permitted_pin. eapply at_stage_in; [apply Hd|by left].
  - intros _. do 2 turn_step. apply acts_then.
    + do 2 turn_step. by apply end_save.
    + intros _ d'. repeat turn_step. done.
Qed.

Lemma stable_goes d ws k x report remote : reported ws k x "post-checkpoint" report d ->
  goes d (prove_stable c state_file loads_yaml randoms_md randoms_json report remote) (fun _ d' => d = d').
Proof.
  intros Hd. unfold prove_stable, blocked_turn. repeat turn_step; try done.
  all: try solve [apply looks_goes; looks_auto].
  apply returns_goes. turn_step.
  - apply (seq_call c 0 d _ _ _ (fun _ => settling) 0); [eapply drift_reaches; done|]. intros _ d1 Hd1. turn_step.
    by apply complete_acts.
  - by eapply ask_acts.
Qed.

Lemma publish_run_acts d ws k x report : reported ws k x "post-checkpoint" report d ->
  (exists head, rep_workspace_head report = Some head) ->
  acts 0 d (publish_run c state_file loads_yaml ws report).
Proof.
  intros Hd [head Hhead]. unfold publish_run. apply seq_save; [done|]. intros d' Hv.
  pose proof (rd_held _ _ _ _ _ _ Hd) as Hh.
  assert (Hh' : held ws k x d') by (apply held_saved; [done| |done]; apply (bool_decide_unpack _); vm_compute; exact I).
  assert (Hs' : at_stage d' ["publishing"]).
  { split; [apply Hh'|]. exists "publishing". unfold d'. saved. split; [done|by left]. }
  assert (Hr' : from_dict (get d' "pending_execution_report") = Ok report)
    by (unfold d'; saved; exact (rd_report _ _ _ _ _ _ Hd)).
  clearbody d'. do 2 turn_step. rewrite Hhead. cbn [default].
  apply (seq_call c 0 d' _ _ _ (fun _ _ => True) 0).
  - apply turn_recast. eapply turn_weaken; [apply (turn_git c (eq d')); intros ? <-|done..].
    eapply permitted_publish; [eapply at_stage_in; [exact Hs'|by right; left]|apply Hh'|exact Hr'|exact Hhead].
  - intros _ d1 _. apply seq_save; [done|]. intros d2 _. apply end_views; [looks_auto|done..].
Qed.

Lemma conclude_acts d local remote report run :
  acts 0 d (conclude_run c state_file loads_yaml randoms_md randoms_json local remote report run).
Proof.
  unfold conclude_run. apply seq_save; [done|]. intros d' _.
  assert (Hset : settling d')
    by (apply lifecycle_saved; [done..|]; apply (bool_decide_unpack _); vm_compute; exact I).
  clearbody d'. turn_step. apply (seq_call c 0 d' _ _ _ (fun _ _ => True) 0).
  - apply turn_recast. eapply turn_any. by apply lifecycle_reaches.
  - intros head d1 _. apply acts_then; [apply finalize_acts|]. intros. by apply turn_ret.
Qed.

Lemma after_acts d synced t x remote ws run : held ws (tk_id t) x d ->
  acts 0 d (after_worker c state_file loads_yaml randoms_md randoms_json synced t x remote ws run).
Proof.
  intros Hd. unfold after_worker. turn_step; [by apply turn_raise|].
  apply (seq_call c 0 d _ _ _ _ 0 _ (verify_reaches d _ _ _ _ _)). intros m d' [<- Hm].
  apply (seq_call c 0 d _ _ _ _ 0 _ (report_reaches d ws (tk_id t) x run Hd)). intros report d1 Hd1.
  apply (seq_call c 0 d1 _ _ _ _ 0 _ (checkpoint_run_reaches d1 ws m t x report Hd1 Hm)).
  intros report' d2 [Hd2 Hhead].
  apply (seq_return 0 d2 _ _ (fun _ d' => d2 = d')); [apply looks_goes; unfold drained_here, drain_pending; looks_auto|].
  intros _ d' <-. apply (seq_return 0 d2 _ _ (fun _ d' => d2 = d')); [by eapply stable_goes|]. intros _ d' <-.
  apply acts_then; [by eapply publish_run_acts|]. intros _ d3.
  apply acts_then; [apply conclude_acts|]. intros status d4. by turn_step.
Qed.

(** The state under which a worker is started licenses its start. *)
Lemma launch_reaches d k ws x remote :
  reaches d (save_worker_launch k ws x remote) (fun _ d' => held ws k x d' /\ starts d' ws x).
Proof.
  unfold save_worker_launch. do 2 turn_step. apply end_save; [done|]. intros d' _.
  assert (Hp : at_phase d' "agent_running")
    by (apply at_phase_saved; [done|]; apply (bool_decide_unpack _); vm_compute; exact I).
  split; [split; [done|..]; by unfold d'; saved|].
  split; [split; [done|]; exists "worker-launch"; split; [by unfold d'; saved|by left]|].
  split_and!; by unfold d'; saved.
Qed.

Lemma execute_acts d synced bound plan ad t : admitted d t -> ad_ticket ad = Some t ->
  pl_ticket_id plan = Some (tk_id t) ->
  acts 1 d (execute c state_file loads_yaml randoms_md randoms_json texts synced bound plan ad).
Proof.
  intros Hd Ht Hpl. unfold execute. rewrite Ht.
  apply (seq_call c 1 d _ _ _ (fun _ d' => d = d') 0); [by apply turn_recast, (prepare_reaches d plan t)|].
  intros ws d' <-. turn_step.
  apply seq_views; [unfold execution_id_of; looks_auto|done|]. intros x.
  apply seq_views; [unfold execution_remote_of; looks_auto|done|]. intros remote. turn_step.
  apply (seq_return 1 d _ _ (fun _ d' => d = d')); [apply looks_goes; looks_auto|]. intros _ d' <-.
  apply (seq_call c 1 d _ _ _ _ 0 _ (launch_reaches d (tk_id t) ws x remote)). intros _ d1 [Hh Hs].
  do 3 turn_step.
  apply (turn_return c 1 0 _ _ _ (fun _ => held ws (tk_id t) x)).
  - eapply turn_weaken; [by apply (work_holds ws (tk_id t) x)|done|done|by intros []|done].
  - intros run. apply turn_from. intros d2 Hd2. by apply after_acts.
Qed.

(** * The iteration *)

Lemma body_acts d authorization : _validate_state_invariant d = Ok tt ->
  acts 1 d (_run_iteration_body c state_file loads_yaml randoms_md randoms_json texts authorization).
Proof.
  intros Hv. unfold _run_iteration_body.
  apply (seq_return 1 d _ _ (fun _ => ready)); [by apply persisted_goes|]. intros authorization1 d1 (p & Hp & Hin).
  turn_step. cbv zeta. rewrite Hp.
  apply (seq_return 1 d1 _ _ (fun _ _ => True)); [apply synchronize_proceeds|]. intros [synced heads] d2 _.
  apply (seq_return 1 d2 _ _ (fun r _ => keyed (fst (fst r)))); [apply plan_goes|].
  intros [[store plan] authorization2] d3 Hk.
  apply (seq_return 1 d3 _ _ (fun _ d' => d3 = d')); [apply integrate_goes|]. intros _ d' <-.
  apply (seq_call c 1 d3 _ _ _ _ 0 _ (selected_reaches d3 _ store plan Hk)). intros ticket d' [<- Ht].
  apply (seq_return 1 d3 _ _ (fun ad d' => exists t, ticket = Some t /\ ad_ticket ad = Some t /\ admitted d' t));
    [by apply admit_in_goes|].
  intros ad d4 (t & -> & Had & Hd4). eapply execute_acts; [exact Hd4|exact Had|by apply Ht].
Qed.

Lemma iteration_acts d intent : _validate_state_invariant d = Ok tt ->
  acts 1 d (run_iteration c state_file loads_yaml randoms_md randoms_json texts intent).
Proof.
  intros Hv. unfold run_iteration. turn_step.
  apply (seq_call c 0 d _ _ _ (fun _ _ => True) 1).
  - eapply turn_weaken; [apply (turn_attempt c 1 (eq d) _ (fun _ _ => True) (fun _ => True) (fun _ => True)), (body_acts d _ Hv)|done|done|done|done].
  - intros outcome d1 _. repeat turn_step. done.
Qed.
End IterationSafety.

(** C1: from a valid durable state, one iteration of the engine announces
    everything it does, whatever Git, the control files, the worker, the database
    and the operator answer, and whether it returns or raises: the product checkout
    is fast-forwarded only under the durable phase [merge_pending] (or while
    accepted work is being integrated), a workspace is prepared, repaired or
    returned to its base only under [agent_pending] and only for the bound branch,
    path and base, a checkpoint is committed only at the stage [checkpointing] of
    the execution and the ticket that its message names, the execution branch is
    pushed only at the stages [post-checkpoint] and [publishing], with the head of
    the pending report over a lease on the recorded remote head, results are
    recorded on the control branch and what an execution left is removed only at
    the stage [lifecycle] or under a recorded integration, a worker is started only
    at the stage [worker-launch], without another worker recorded, for the recorded
    execution at the recorded workspace; at most one worker is started; every state
    it saves is valid, and the engine's state is the last one it saved. *)
Theorem iteration_is_announced {W St : Type} `{GitWorld W, !EngineWorld W, !HostWorld W}
    `{RuntimeStore St, !ObservableStore St} c state_file loads_yaml randoms_md randoms_json texts intent
    (s : engine (W := W) (St := St)) :
  _validate_state_invariant (en_state s) = Ok tt ->
  let s' := snd (run_iteration c state_file loads_yaml randoms_md randoms_json texts intent s) in
  exists new, en_effects s' = en_effects s ++ new /\ announced c (en_state s) new /\ launches new <= 1 /\
    en_state s' = last_saved (en_state s) new.
Proof.
  intros Hv. destruct (iteration_acts c state_file loads_yaml randoms_md randoms_json texts _ intent Hv s eq_refl)
    as (new & He & Ha & Hl & Hd & _). eauto.
Qed.
