(* ===== verification/Admission.v ===== *)
(** When an iteration may start a ticket: the authority it needs for a ticket that
    already failed in the same generation of the product, the control branch and
    the todo directory. *)

From S2P Require Export IterationSafety.

(** * The authority of a start *)

(** The authorization was given for this ticket and this failure. *)
Definition repeats (k : string) (failure : dict) (g : generation) (a : ExecutionAuthorization) : Prop :=
  au_ticket_id a = k /\ failed_at failure g = true.

(** What an authorization allows for a recorded failure: an operator's forced
    retry and the engine's retry after a drift of the product are not bound to it,
    an explicit retry is, and a resumption needs an interruption that is safe to
    resume, and no manual barrier when the iteration made it up itself. *)
Inductive authority (k : string) (failure : dict) (g : generation) (manual : bool)
    (given : option ExecutionAuthorization) : ExecutionAuthorization -> Prop :=
  | Forced a : is_forced_retry a = true -> given = Some a -> authority k failure g manual given a
  | Drifted a : is_zero_delta_retry a = true -> given = Some a -> authority k failure g manual given a
  | Explicit a : is_explicit_retry a = true -> given = Some a -> repeats k failure g a ->
      authority k failure g manual given a
  | Resumed a : is_automatic_resume a = true -> repeats k failure g a ->
      is_true (get failure "interrupted") = true -> resumable_kind (Some failure) = true ->
      given = Some a \/ given = None /\ manual = false -> authority k failure g manual given a.

(** A manual barrier stands for the failure. *)
Definition barrier_stands (state : dict) (k : string) (failure : dict) : bool :=
  match get state "manual_retry_required" with
  | PDict manual => negb (stale_barrier manual k (Some failure))
  | v => negb (is_none v)
  end.

Definition authorization_kinds : list string :=
  ["automatic_resume"; "explicit_retry"; "zero_delta_product_drift"; "forced_retry"].

(** The authorization is one of the four that the engine makes. *)
Definition known_kind (given : option ExecutionAuthorization) : Prop :=
  match given with Some a => au_kind a ∈ authorization_kinds | None => True end.

Lemma check_authorizes failure g k a :
  check_authorization (Some failure) g k (Some a) = Ok tt -> au_kind a ∈ authorization_kinds ->
  is_forced_retry a = true \/ is_zero_delta_retry a = true \/
  (is_explicit_retry a = true /\ repeats k failure g a) \/
  (is_automatic_resume a = true /\ repeats k failure g a /\ is_true (get failure "interrupted") = true /\
   resumable_kind (Some failure) = true).
Proof.
  unfold check_authorization, repeats. intros Hc Hk. destruct a as [x kind]. cbn [au_kind au_ticket_id] in *.
  repeat (apply elem_of_cons in Hk as [->|Hk]); [..|by apply not_elem_of_nil in Hk].
  - right. right. right. change (is_zero_delta_retry _ || is_forced_retry _) with false in Hc.
    change (is_automatic_resume (mkAuth x "automatic_resume")) with true in *.
    change (is_explicit_retry (mkAuth x "automatic_resume")) with false in Hc.
    destruct (failed_at failure g); [|done]. cbn [negb andb is_interrupted] in Hc.
    destruct (is_true _) eqn:Hi; [|done]. destruct (resumable_kind _) eqn:Hr; [|done].
    cbn in Hc. destruct (String.eqb_spec k x) as [->|]; [done|done].
  - right. right. left. change (is_zero_delta_retry _ || is_forced_retry _) with false in Hc.
    change (is_explicit_retry (mkAuth x "explicit_retry")) with true in *.
    destruct (failed_at failure g); [|done]. cbn in Hc.
    destruct (String.eqb_spec k x) as [->|]; [done|done].
  - by right; left.
  - by left.
Qed.

Lemma authorize_needs_authority state manual g plan k given started failure :
  authorize state manual g false plan k given = Ok (Some started) ->
  failure_of state k = Some failure -> handled_same state g = true ->
  truthy (get failure "execution_id") = true -> known_kind given ->
  exists a, started = Some a /\ authority k failure g manual given a.
Proof.
  unfold authorize. intros Ha Hf Hs Hx Hk. rewrite Hf, Hs in Ha.
  destruct (automatic_resume _ _ _ _ _ _) as [auth|] eqn:Hr; [|done].
  destruct (check_authorization _ _ _ _) as [[]|] eqn:Hc; [|done]. cbn [mbind res_bind] in Ha.
  unfold retry_suppressed in Ha. rewrite Hx in Ha.
  destruct auth as [a|]; [|done]. cbn [is_missing andb] in Ha.
  destruct (already_handled _ _ _ _ _ _); [done|]. injection Ha as <-. exists a. split; [done|].
  unfold automatic_resume in Hr.
  assert (Hgiven : given = Some a /\ au_kind a ∈ authorization_kinds \/
                   given = None /\ manual = false /\ a = mkAuth k "automatic_resume").
  { destruct given as [b|]; [injection Hr as ->; by left|]. cbn [is_missing] in Hr.
    destruct (_ && _ && is_interrupted _); [|done]. destruct (resumable_kind _ && _ && _) eqn:Hn; [|done].
    injection Hr as <-. right. apply andb_true_iff in Hn as [_ Hn]. by destruct manual. }
  assert (Hkind : au_kind a ∈ authorization_kinds)
    by (destruct Hgiven as [[_ H]|(_ & _ & ->)]; [exact H|by left]).
  destruct (check_authorizes _ _ _ _ Hc Hkind) as [H|[H|[[H Hrep]|(H & Hrep & Hi & Hrk)]]].
  - apply Forced; [done|]. destruct Hgiven as [[]|(_ & _ & ->)]; done.
  - apply Drifted; [done|]. destruct Hgiven as [[]|(_ & _ & ->)]; done.
  - apply Explicit; [done| |done]. destruct Hgiven as [[]|(_ & _ & ->)]; done.
  - apply Resumed; try done. destruct Hgiven as [[]|(? & ? & _)]; auto.
Qed.

(** * The handler *)

Section Admission.
Context {W : Type} `{GitWorld W, !EngineWorld W, !HostWorld W}.
Context {St : Type} `{RuntimeStore St, !ObservableStore St}.
Variable c : settings.

Abbreviation reaches d m Q := (turn (W := W) (St := St) c 0 (eq d) m Q (fun _ => True)).

(** What the admission reads after the barrier is cleared. *)
Definition recorded : list string :=
  ["handled_remote_head"; "handled_control_head"; "handled_todo_fingerprint"; "resume_required";
   "execution_ticket_id"].
Definition same_record (d d' : dict) : Prop := forall k, k ∈ recorded -> dget d' k = dget d k.

Lemma cleared_record d : same_record d (next_state d "idle" (plain [("manual_retry_required", PNone)])).
Proof.
  intros k Hk.
  assert (Hout : k ∉ "worker_identity" :: "phase" :: "manual_retry_required" :: idle_cleared).
  { revert k Hk. apply (Forall_forall (fun k => k ∉ _)). apply (bool_decide_unpack _). vm_compute. exact I. }
  apply not_elem_of_cons in Hout as [Hw Hout]. apply not_elem_of_cons in Hout as [Hp Hout].
  apply not_elem_of_cons in Hout as [Hm Hc].
  change (next_state d _ _) with
    (dset (dpops (dset (dset d "phase" (PStr "idle")) "manual_retry_required" PNone) idle_cleared)
       "worker_identity" PNone).
  rewrite dget_dset_ne by congruence. rewrite dget_dpops_ne by done. by rewrite !dget_dset_ne by congruence.
Qed.

Lemma handled_record d d' g : same_record d d' -> handled_same d' g = handled_same d g.
Proof.
  intros Hs. unfold handled_same, get_or.
  by rewrite (Hs "handled_remote_head"), (Hs "handled_control_head"), (Hs "handled_todo_fingerprint")
    by (apply (bool_decide_unpack _); vm_compute; exact I).
Qed.

Lemma barrier_reaches d k failure : failure_of d k = Some failure ->
  turn (W := W) (St := St) c 0 (eq d) (clear_stale_barrier k)
    (fun manual d' => manual = barrier_stands d k failure /\ same_record d d' /\
                      (at_phase d' "agent_pending" -> at_phase d "agent_pending"))
    (fun d' => d' = d).
Proof.
  intros Hf. unfold clear_stale_barrier, barrier_stands. turn_step. rewrite Hf.
  destruct (get d "manual_retry_required") eqn:Hm; try (apply turn_ret; by intros ? <-).
  destruct (stale_barrier _ _ _); [|apply turn_ret; by intros ? <-].
  apply seq_save; [done|]. intros d' _. apply turn_ret. intros ? <-. split; [done|].
  split; [apply cleared_record|]. intros Hp. exfalso. revert Hp. unfold at_phase, d', save_fields.
  rewrite get_saved; [done|apply (bool_decide_unpack _); vm_compute; exact I|].
  right. apply (bool_decide_unpack _). vm_compute. exact I.
Qed.

(** An admitted execution had the authority. *)
Lemma admit_needs_authority d g changed store plan t given failure :
  failure_of d (tk_id t) = Some failure -> handled_same d g = true ->
  truthy (get failure "execution_id") = true -> known_kind given -> ~ at_phase d "agent_pending" ->
  let allowed d' := at_phase d' "agent_pending" ->
    exists a, authority (tk_id t) failure g (barrier_stands d (tk_id t) failure) given a in
  turn (W := W) (St := St) c 0 (eq d) (admit_ticket c g changed false store plan (Some t) given)
    (fun _ => allowed) allowed.
Proof.
  intros Hf Hs Hx Hk Hp allowed. unfold admit_ticket. turn_step.
  apply (seq_call c 0 d _ _ _ (fun manual d' => manual = barrier_stands d (tk_id t) failure /\ same_record d d' /\
           ~ at_phase d' "agent_pending") 0).
  { eapply turn_weaken; [by apply (barrier_reaches d _ failure)|done|done| |].
    - intros m d' (-> & Hr & Hq). split_and!; auto.
    - by intros ? -> ?. }
  intros manual d1 (-> & Hd1 & Hp1). turn_step.
  apply seq_lift; [by intros ?|intros [started|] Ha]; [|apply turn_ret; by intros ? <- ?].
  destruct (authorize_needs_authority _ _ _ _ _ _ _ failure Ha) as (a & _ & Hau); auto.
  { unfold failure_of, get_or. by rewrite dget_dset. }
  { rewrite <- Hs. unfold handled_same, get_or. rewrite !dget_dset_ne by done. by apply handled_record. }
  assert (Hall : forall d', allowed d') by (intros d' _; by exists a).
  cbv zeta. eapply turn_weaken; [|done|done|by intros ? ? _|by intros ? _].
  apply (seq_call c 0 d1 _ _ _ _ 0 _ (admit_execution_reaches c "" (fun _ => inl "") d1 _ _ _ _ _)). intros execution_id d2 _.
  apply (turn_return c 0 0 _ _ _ (fun _ _ => True) (fun _ _ => True)).
  - eapply turn_weaken; [apply (looks_goes c d2)|done|done|by intros []|done].
    unfold stop_here, _stop_before_admission, drain_pending. looks_auto.
  - intros []. apply turn_from. intros d3 _. do 2 turn_step. by apply turn_ret.
Qed.
End Admission.

(** C9: an iteration that admits a ticket whose execution is recorded as failed in
    exactly this generation of the product, the control branch and the todo
    directory has the authority for it, also when the admission ends with an error
    or a stop: an operator's forced retry, the retry after a drift of the product,
    an explicit retry of this ticket and this generation, or a resumption of an
    interruption that is safe to resume, which the iteration gives itself only when
    no manual barrier stands for the failure. *)
Theorem repeated_admission_is_authorized {W St : Type} `{GitWorld W, !EngineWorld W, !HostWorld W}
    `{RuntimeStore St, !ObservableStore St} c g changed store plan t given failure
    (s : engine (W := W) (St := St)) :
  failure_of (en_state s) (tk_id t) = Some failure ->
  handled_same (en_state s) g = true -> truthy (get failure "execution_id") = true ->
  known_kind given -> ~ at_phase (en_state s) "agent_pending" ->
  at_phase (en_state (snd (admit_ticket c g changed false store plan (Some t) given s))) "agent_pending" ->
  exists a, authority (tk_id t) failure g (barrier_stands (en_state s) (tk_id t) failure) given a.
Proof.
  intros Hf Hs Hx Hk Hp Hend.
  destruct (admit_needs_authority c _ g changed store plan t given failure Hf Hs Hx Hk Hp s eq_refl)
    as (new & _ & _ & _ & _ & Hr).
  destruct (fst (admit_ticket _ _ _ _ _ _ _ _ _)); by apply Hr.
Qed.
