(* ===== verification/IterationReplay.v ===== *)
(** A whole iteration in a concrete host: the repository of the examples with an
    execution workspace and a worker.  The theorems of [IterationSafety] at a run
    that starts a worker and publishes what it did. *)

From S2P Require Export Admission LifecycleReplay.

(** * The host *)

(** The repository with the workspace of [T1]: the head of its branch, whether its
    worktree exists, whether the worker left changes in it, and whether one runs;
    and whether workers commit what they do. *)
Record host : Type := mkHost {
  ho_repository : repository;
  ho_branch : option string;
  ho_worktree : bool;
  ho_dirty : bool;
  ho_running : bool;
  ho_commits : bool
}.

Definition workspace_path : Path := Path_of "/x/work/T1".
Definition workspace_branch : string := "devlegate/work/T1".
Definition workspace_head (h : host) : string := default "" (ho_branch h).

Definition with_repository (w : repository) (h : host) : host :=
  mkHost w (ho_branch h) (ho_worktree h) (ho_dirty h) (ho_running h) (ho_commits h).
Definition with_worktree (b : bool) (h : host) : host :=
  mkHost (ho_repository h) (ho_branch h) b (ho_dirty h) (ho_running h) (ho_commits h).

(** The commands of the workspace. *)
Definition workspace_answer (args : list string) (h : host) : CompletedProcess * host :=
  let last := List.last args "" in
  match args with
  | ["rev-parse"; "--verify"; _] => (said (object_name 1000), h)
  | ["rev-list"; "--parents"; _; _; _] => (said (workspace_head h +:+ " " +:+ object_name 1000), h)
  | ["rev-list"; "--reverse"; _] => (said (workspace_head h), h)
  | "rev-parse" :: _ =>
      (said (if (last =? "--git-common-dir")%string then "/repo/.git"
             else if (last =? "--show-toplevel")%string then "/x/work/T1" else workspace_head h), h)
  | "symbolic-ref" :: _ => (said workspace_branch, h)
  | "status" :: _ => (said (if ho_dirty h then " M a.txt" else ""), h)
  | "diff" :: _ => (if ho_dirty h then refused else said "", h)
  | "commit" :: _ => (said "", mkHost (ho_repository h) (Some (object_name 1001)) (ho_worktree h) false
                              (ho_running h) (ho_commits h))
  | "push" :: _ => (said "", with_repository (push_product (ho_repository h) last) h)
  | _ => (said "", h)
  end.

(** The commands of the product checkout that concern the workspace. *)
Definition product_answer (args : list string) (h : host) : option (CompletedProcess * host) :=
  match args with
  | ["worktree"; "list"; _] =>
      Some (said (render ([mkWorktree "/repo" "b0" (Some "main") None None;
                           mkWorktree "/control" (rp_head (ho_repository h)) (Some "control") None None] ++
                          (if ho_worktree h
                           then [mkWorktree "/x/work/T1" (workspace_head h) (Some workspace_branch) None None]
                           else []))), h)
  | "worktree" :: "add" :: _ => Some (said "", with_worktree true h)
  | "worktree" :: "remove" :: _ => Some (said "", with_worktree false h)
  | "show-ref" :: _ => Some (answer (ho_branch h), h)
  | ["branch"; _; base] => Some (said "", mkHost (ho_repository h) (Some base) (ho_worktree h) false (ho_running h) (ho_commits h))
  | ["rev-parse"; "--git-common-dir"] => Some (said "/repo/.git", h)
  | ["rev-parse"; "--verify"; name] =>
      if (name =? "refs/heads/" +:+ workspace_branch)%string then Some (answer (ho_branch h), h)
      else match partition CARET name with
      | (x, Some _) => Some (said x, h)
      | _ => None
      end
  | ["merge-base"; "--is-ancestor"; a; b] =>
      let head := if (b =? workspace_branch)%string then workspace_head h else b in
      Some (if product_before a head then said "" else refused, h)
  | _ => None
  end.

Definition host_run (dir : Path) (args : list string) (h : host) : res CompletedProcess * host :=
  if bool_decide (dir = workspace_path) then let '(p, h') := workspace_answer args h in (Ok p, h')
  else
  match (if bool_decide (dir = st_repo sample_settings) then product_answer args h else None) with
  | Some (p, h') => (Ok p, h')
  | None => let '(r, w) := repository_run dir args (ho_repository h) in (r, with_repository w h)
  end.

#[export] Instance host_git : GitWorld host := {
  gw_run := host_run;
  gw_run_input := fun _ _ _ h => (Ok (said ""), h);
  gw_mkdir := fun _ h => (Ok tt, h);
  gw_files := fun h => rp_files (ho_repository h);
  gw_edit := fun t h => with_repository (gw_edit t (ho_repository h)) h;
  gw_cwd := fun _ => Path_of "/";
  gw_resolve := fun _ p => p;
  gw_is_symlink := fun _ _ => false;
  gw_is_dir := fun h p => if bool_decide (p = workspace_path) then ho_worktree h else true;
  gw_exists := fun h p => bool_decide (p = workspace_path) && ho_worktree h;
  gw_has_entries := fun _ _ => true
}.

#[export] Instance host_engine : EngineWorld host := {
  ew_owner := fun _ => true;
  ew_abort_requested := fun _ => false
}.

(** A worker that changes the workspace and claims to have completed. *)
Definition sample_identity (execution_id : string) : WorkerProcessIdentity :=
  mkWorkerIdentity execution_id 7 7 7 "boot" 1 None.

Definition finished_run : WorkerRunResult :=
  mkRun 0 None (Some (mkClaim "completed" "did it" [] [] None)) None None true true.

#[export] Instance host_worker : HostWorld host := {
  hw_project_context := fun _ => Ok tt;
  hw_observe_worker := fun h _ => if ho_running h then "matching-live" else "absent";
  hw_owns_worker := fun h _ => ho_running h;
  hw_start := fun _ _ execution_id h =>
    (Some [Identified (sample_identity execution_id)],
     mkHost (ho_repository h) (ho_branch h) (ho_worktree h) (ho_dirty h) true (ho_commits h));
  hw_finish := fun _ _ h =>
    (Ok finished_run,
     mkHost (ho_repository h) (if ho_commits h then Some (object_name 1001) else ho_branch h) (ho_worktree h)
       (negb (ho_commits h)) false (ho_commits h))
}.

(** * The engine *)

Definition sample_texts : prompt_texts := mkTexts "contract" (fun _ => "directive").

(** [T1] is in todo, and nothing was executed yet. *)
Definition sample_host (commits : bool) : host :=
  mkHost
    (mkRepository (rp_commits admitted_repository) (object_name 0) (object_name 0) (object_name 1000)
       (object_name 1000) [] (rp_files admitted_repository) true)
    None false false false commits.

Definition sample_memory : memory :=
  mkMemory true None
    (mkService "ready" "idle" None false None None None None [] [] [] [] None)
    None None [] [] None None false None false.

(** A process of the engine on the durable state and the host that it finds. *)
Definition started (failures : list db_failure) (d : durable (S := SQLiteRuntimeStore)) (h : host) : engine :=
  mkEngine d h (mkInputs [] [] ["E1"; "E2"] failures) sample_memory [].

Definition iterate (s : engine (W := host) (St := SQLiteRuntimeStore)) :
    res Z * engine (W := host) (St := SQLiteRuntimeStore) :=
  run_iteration sample_settings "state.sqlite3" sample_yaml ["a"] ["b"] sample_texts None s.

Definition fresh_host_engine : engine := started [] fresh_engine (sample_host false).

(** Phase and stage of the states that are saved. *)
Definition stages_of (l : list effect) : list (string * string) :=
  cat_options (map (fun x => match x with
                             | Saved d => Some (py_str (get d "phase"), py_str (get d "execution_stage"))
                             | _ => None
                             end) l).

(** The next iterations, each in a new process. *)
Fixpoint go_on (n : nat) (s : engine (W := host) (St := SQLiteRuntimeStore)) : engine :=
  match n with
  | O => s
  | S n => go_on n (snd (iterate (started [] (en_durable s) (en_world s))))
  end.

(** The iteration in which the [k]-th access to the database fails. *)
Definition failing_at (k : nat) : engine (W := host) (St := SQLiteRuntimeStore) :=
  started (repeat None k ++ [Some (AtBegin, "disk full")]) fresh_engine (sample_host false).

(** [T1] is in review with one report, its checkpoint is on the remote branch,
    and the engine is idle. *)
Definition published (s : engine (W := host) (St := SQLiteRuntimeStore)) : bool :=
  let w := ho_repository (en_world s) in
  eq_str (get (en_state s) "phase") "idle" &&
  bool_decide (map fst (snapshot_of (rp_files w)) = [report_file; "review/T1.md"]) &&
  bool_decide (rp_tip w = object_name 1) &&
  bool_decide (rp_branches w = [("refs/heads/" +:+ workspace_branch, object_name 1001)]).

(** * Witnesses *)

Lemma iteration_is_announced_witness :
  let s' := snd (iterate fresh_host_engine) in
  announced sample_settings idle_state (en_effects s') /\ launches (en_effects s') = 1 /\
  at_phase (last_saved idle_state (en_effects s')) "idle" /\ en_state s' = last_saved idle_state (en_effects s').
Proof.
  unfold iterate.
  destruct (iteration_is_announced sample_settings "state.sqlite3" sample_yaml ["a"] ["b"] sample_texts None
              fresh_host_engine) as (new & He & Ha & _ & Hs); [vm_compute; reflexivity|].
  replace (en_effects fresh_host_engine) with (@nil effect) in He by reflexivity.
  cbn [app] in He. rewrite He.
  assert (launches new = 1 /\ at_phase (last_saved idle_state new) "idle") as []
    by (rewrite <- He; vm_compute; split; reflexivity).
  split_and!; [exact Ha|assumption..|exact Hs].
Defined.

(** [T1] was interrupted by a loss of its process, in this generation. *)
Definition lost_generation : generation :=
  mkGeneration (object_name 1000) (object_name 1000) (object_name 0) "todo".
Definition lost_failure : dict :=
  [("execution_id", PStr "E0"); ("generation", PStr (object_name 1000));
   ("product_head", PStr (object_name 1000)); ("remote_head", PStr (object_name 1000));
   ("control_head", PStr (object_name 0)); ("todo_fingerprint", PStr "todo"); ("reason", PStr "interrupted");
   ("interrupted", PBool true); ("interruption_kind", PStr "process_loss")].
Definition lost_state : dict :=
  [("phase", PStr "idle"); ("handled_remote_head", PStr (object_name 1000));
   ("handled_control_head", PStr (object_name 0)); ("handled_todo_fingerprint", PStr "todo");
   ("failed_executions", PDict [("T1", PDict lost_failure)])].
Definition sample_todo : Ticket := mkTicket "T1" Todo "T" [] "body" "todo/T1.md".
Definition sample_plan : ExecutionPlan :=
  mkPlan "run-worker" "ready" (Some "T1") (Some "T") (Some "todo") false None None.
Definition lost_engine : engine :=
  started [] (mkDurable lost_state (mkStore "state.sqlite3" None)) (sample_host false).

Lemma repeated_admission_is_authorized_witness :
  at_phase (en_state (snd (admit_ticket sample_settings lost_generation "" false
                             (mkTicketStore [] ∅ []) sample_plan (Some sample_todo) None lost_engine)))
    "agent_pending" /\
  exists a, authority "T1" lost_failure lost_generation false None a.
Proof.
  split; [vm_compute; reflexivity|].
  apply (repeated_admission_is_authorized sample_settings lost_generation "" (mkTicketStore [] ∅ []) sample_plan
           sample_todo None lost_failure lost_engine); [reflexivity|vm_compute; reflexivity|reflexivity|done| |].
  - vm_compute. discriminate.
  - vm_compute. reflexivity.
Defined.

(** * Repeated and interrupted iterations *)

(** One iteration takes the ticket from todo to review; a second one finds nothing
    to do. *)
Example iteration_publishes :
  (let '(r, s) := iterate fresh_host_engine in
   let again := go_on 1 s in
   (r, published s, stages_of (en_effects s), stages_of (en_effects again), launches (en_effects again))) =
  (Ok 0%Z, true,
   [("agent_pending", "None")] ++
   map (fun stage => ("agent_running", stage))
     ["worker-launch"; "worker-running"; "post-worker"; "checkpointing"; "post-checkpoint"; "publishing";
      "post-publication"; "lifecycle"] ++ [("idle", "lifecycle")],
   [("idle", "lifecycle")], 0).
Proof. vm_compute. reflexivity. Qed.

(** a worker that commits is refused, with the stage [checkpointing] on record;
    the next iteration takes the worker's commit for the checkpoint of the engine,
    and publishes it. *)
Theorem worker_commit_is_published :
  (let '(r, s) := iterate (started [] fresh_engine (sample_host true)) in
   (r, get (en_state s) "execution_stage", published s, published (go_on 1 s))) =
  (Raise (Exn DevlegateError
            "execution checkpoint failed: execution Git history changed while worker was running"),
   PStr "checkpointing", false, true).
Proof. vm_compute. reflexivity. Qed.
