(* ===== verification/UpdateBase.v ===== *)
(** Reconciliation with a new base, [src/devlegate/runtime.py],
    [_reconcile_update_base_owned]: the preserved line of worker commits is moved
    onto the current product revision, with a durable record before every step
    that a crash could leave half done.  The method also assigns to one key of the
    state in memory, ahead of the save that would persist it. *)

From S2P Require Export Recovery Synchronize.

Section UpdateBase.
Context {W : Type} `{GitWorld W, !EngineWorld W, !HostWorld W}.
Context {St : Type} `{RuntimeStore St, !ObservableStore St}.
Variable c : settings.

Abbreviation M := (py (logged W)).
Abbreviation E := (py (engine (W := W) (St := St))).

(** [self._state["execution_base_head"] = value], without a save. *)
Definition assign_base (value : pyval) : E unit := fun s =>
  (Ok tt, mkEngine (mkDurable (dset (en_state s) "execution_base_head" value) (du_store (en_durable s)))
            (en_world s) (en_inputs s) (en_memory s) (en_effects s)).

(** * Chains of commits *)

Definition parents_of (dir : Path) (commit : string) : M CompletedProcess :=
  _git dir ["rev-list"; "--parents"; "-n"; "1"; commit].
Definition parents_checked (dir : Path) (commit : string) : M CompletedProcess :=
  _git_check dir ["rev-list"; "--parents"; "-n"; "1"; commit].

(** [fields = parents.stdout.split()] has two entries, and the second one is
    [previous]. *)
Definition follows_on (parents : CompletedProcess) (previous : string) : bool :=
  negb (failed parents) &&
  match words (stdout parents) with [_; parent] => (parent =? previous)%string | _ => false end.

(** The commits are followed one after the other; the last one. *)
Fixpoint follow (parents : string -> M CompletedProcess) (error : string) (previous : string)
    (commits : list string) : M string :=
  match commits with
  | [] => mret previous
  | commit :: rest =>
      p ← parents commit;
      if follows_on p previous then follow parents error commit rest else engine_error error
  end.

(** [_is_linear_chain] *)
Fixpoint chained (dir : Path) (previous : string) (commits : list string) : M bool :=
  match commits with
  | [] => mret true
  | commit :: rest =>
      p ← parents_of dir commit;
      if follows_on p previous then chained dir commit rest else mret false
  end.
Definition linear_chain (dir : Path) (root : string) (commits : list string) : M bool :=
  linear ← chained dir root commits; mret (linear && negb (bool_decide (commits = []))).

(** [_is_same_parent_replacement] *)
Definition same_parent_replacement (original target : string) : M bool :=
  if (original =? target)%string then mret false else
  a ← parents_of (st_repo c) original;
  b ← parents_of (st_repo c) target;
  mret match words (stdout a), words (stdout b) with
       | [_; x], [_; y] => negb (failed a) && negb (failed b) && (x =? y)%string
       | _, _ => false
       end.

Definition commits_between (dir : Path) (older newer : string) : M CompletedProcess :=
  _git dir ["rev-list"; "--reverse"; older +:+ ".." +:+ newer].

(** * The request *)

(** The pending reconciliation of the ticket. *)
Definition pending_reconciliation (state : dict) (ticket_id : string) : res dict :=
  match get state "reconciliation" with
  | PDict r =>
      if negb (eq_str (get r "status") "pending")
      then raise DevlegateError ("ticket " +:+ ticket_id +:+ " has no pending reconciliation")
      else if negb (eq_str (get r "ticket_id") ticket_id)
      then raise DevlegateError "requested ticket does not match pending reconciliation"
      else Ok r
  | _ => raise DevlegateError ("ticket " +:+ ticket_id +:+ " has no pending reconciliation")
  end.

Definition requested_target (onto : string) : M string :=
  r ← rev_parse (st_repo c) (onto +:+ "^{commit}");
  if failed r then engine_error "requested reconciliation target is not a commit" else
  let target := strip (stdout r) in
  if (target =? "")%string then engine_error "requested reconciliation target is empty" else mret target.

(** The target is the product of this moment, and a descendant of the original
    base or its replacement. *)
Definition eligible_target (original_base target : string) : M unit :=
  product ← _observe_product_generation c original_base;
  if negb (bool_decide (pg_branch product = st_current_branch c))
  then engine_error "product checkout is on the wrong branch"
  else if pg_dirty product then engine_error "product checkout is dirty"
  else if negb (pg_local_head product =? target)%string
  then engine_error "requested reconciliation target is not the current product HEAD"
  else if negb (pg_remote_head product =? target)%string
  then engine_error "requested reconciliation target is not the fresh product remote HEAD"
  else
  ancestor ← _git (st_repo c) ["merge-base"; "--is-ancestor"; original_base; target];
  if negb (failed ancestor) then mret tt else
  replacement ← same_parent_replacement original_base target;
  if (replacement : bool) then mret tt
  else engine_error ("requested reconciliation target is not a descendant of the original base or a " +:+
                     "proven same-parent replacement").

(** The evidence reference still holds the checkpoint. *)
Definition preserved_checkpoint (reconciliation : dict) : M unit :=
  evidence ← py_lift (text_item reconciliation "evidence_ref");
  preserved ← rev_parse (st_repo c) evidence;
  let changed := engine_error "preserved worker checkpoint evidence changed" in
  if failed preserved then changed else
  checkpoint_head ← py_lift (getitem reconciliation "worker_checkpoint");
  if eq_str checkpoint_head (strip (stdout preserved)) then mret tt else changed.

Definition bound_manager (reconciliation : dict) (ticket_id : string) : M ExecutionWorkspaceManager :=
  manager ← new_manager (st_repo c) (st_execution_worktree_root c) ticket_id;
  branch ← py_lift (getitem reconciliation "execution_branch");
  same ← (if eq_str branch (mg_branch manager)
          then path ← py_lift (text_item reconciliation "execution_path");
               mret (bool_decide (Path_of path = mg_path manager))
          else mret false);
  if (same : bool) then mret manager else engine_error "reconciliation workspace binding is invalid".

(** * The workspace of an interrupted rewrite *)

(** [_execution_workspace_for_rewrite_recovery] *)
Definition _execution_workspace_for_rewrite_recovery (state : dict) (manager : ExecutionWorkspaceManager)
    : M ExecutionWorkspace :=
  let path := mg_path manager in
  expected_path ← ask (fun w => gw_resolve w path);
  registrations ← _registrations manager;
  let unbound := blocked "cannot validate staged execution rewrite worktree binding" in
  match registration_at expected_path registrations with
  | None => unbound
  | Some registration =>
      if negb (bool_decide (dget registration "branch" = Some (mg_branch manager))) then unbound else
      common ← _git path ["rev-parse"; "--git-common-dir"];
      root ← _git path ["rev-parse"; "--show-toplevel"];
      expected_common ← _git (st_repo c) ["rev-parse"; "--git-common-dir"];
      branch_name ← _git path ["symbolic-ref"; "--quiet"; "--short"; "HEAD"];
      same_root ← (if failed common || failed root || failed expected_common then mret false
                   else ask (fun w => bool_decide (gw_resolve w (Path_of (strip (stdout root))) = gw_resolve w path)));
      if negb same_root || failed branch_name || negb (strip (stdout branch_name) =? mg_branch manager)%string
      then blocked "staged execution rewrite worktree binding is invalid"
      else
      head ← _git path ["rev-parse"; "HEAD"];
      status ← _git path ["status"; "--porcelain"];
      if failed head || failed status || negb (bool_decide (dget registration "head" = Some (strip (stdout head))))
      then blocked "cannot observe staged execution rewrite worktree"
      else mret (mkWorkspace (mg_ticket_id manager) (mg_branch manager) path (strip (stdout head))
                   (py_str (get_or state "execution_base_head" (PStr ""))) (negb (stdout status =? "")%string))
  end.

Definition rewrite_stage_of (reconciliation : dict) : res bool :=
  in_strs (get reconciliation "rewrite_stage") ["local-pending"; "remote-pending"].

Definition rewrite_workspace (state reconciliation : dict) (manager : ExecutionWorkspaceManager)
    : M ExecutionWorkspace :=
  staged ← py_lift (rewrite_stage_of reconciliation);
  if (staged : bool) then _execution_workspace_for_rewrite_recovery state manager
  else _execution_workspace_for_recovery c state.

(** An interrupted rewrite is resumed for its own target, and under the
    authorization that it was started with. *)
Definition rewrite_authority (reconciliation : dict) (target : string) (rewrite_published : bool) : res bool :=
  staged ← rewrite_stage_of reconciliation;
  if negb staged then Ok rewrite_published
  else if negb (eq_str (get reconciliation "rewrite_target") target)
  then raise DevlegateError "interrupted execution rewrite target does not match the requested target"
  else Ok (rewrite_published || is_true (get reconciliation "rewrite_authorized")).

(** [git reset --hard checkpoint] in the workspace. *)
Definition restore (workspace : ExecutionWorkspace) (checkpoint_head error : string) : M unit :=
  restored ← _git (ew_path workspace) ["reset"; "--hard"; checkpoint_head];
  if failed restored then engine_error error else mret tt.

Definition not_aborted : string := "interrupted execution rewrite could not be safely aborted".

(** The rewrite is given up: the record is what it was before, and the base is the
    original one. *)
Definition give_up_rewrite (keys : list string) (reconciliation : dict) (original_base : string)
    : E (dict * ExecutionWorkspace) :=
  let reconciliation := dpops reconciliation keys in
  _ ← save_fields "idle"
        [("execution_base_head", PStr original_base); ("execution_start_head", PStr original_base);
         ("reconciliation", PDict reconciliation)];
  state ← state_now;
  workspace ← on_git (_execution_workspace_for_recovery c state);
  mret (reconciliation, workspace).

(** What is left of a finished rewrite that was published. *)
Definition check_rewritten (reconciliation : dict) (workspace : ExecutionWorkspace)
    (checkpoint_head rewrite_checkpoint target : string) : M unit :=
  displaced ← rev_parse (st_repo c) (py_str (get reconciliation "displaced_evidence_ref"));
  if negb (names displaced checkpoint_head)
  then engine_error "interrupted execution rewrite evidence is invalid"
  else
  rewritten ← rev_parse (st_repo c) (py_str (get reconciliation "rewritten_evidence_ref"));
  if negb (names rewritten rewrite_checkpoint)
  then engine_error "interrupted execution rewritten evidence is invalid"
  else
  commits ← commits_between (ew_path workspace) target rewrite_checkpoint;
  if failed commits || bool_decide (splitlines (stdout commits) = [])
  then engine_error "interrupted execution rewrite result is invalid"
  else
  last ← follow (parents_checked (ew_path workspace)) "interrupted execution rewrite is not linear" target
           (splitlines (stdout commits));
  if (last =? rewrite_checkpoint)%string then mret tt
  else engine_error "interrupted execution rewrite does not reach HEAD".

(** The end of a reconciliation with a new base. *)
Definition save_resolved (ticket_id target : string) (reconciliation resolved : dict)
    (execution_remote : pyval) : E unit :=
  todo_fingerprint ← on_git (control_todo_fingerprint c);
  control_head ← py_lift (text_item reconciliation "control_head");
  save_fields "idle"
    [("execution_base_head", PStr target); ("execution_start_head", PStr target);
     ("execution_remote_head", execution_remote); ("handled_remote_head", PStr target);
     ("handled_control_head", PStr control_head); ("handled_todo_fingerprint", PStr todo_fingerprint);
     ("reconciliation", PDict resolved);
     ("resume_required", PDict [("ticket_id", PStr ticket_id); ("status", PStr "required")])].

Definition published_rewrite : string := "update-base with published-lineage rewrite".

Definition finish_published (ticket_id target rewrite_checkpoint : string) (reconciliation : dict) : E Z :=
  evidence ← py_lift (getitem reconciliation "evidence_ref");
  let resolved := dpop
    (dmerge reconciliation
       [("status", PStr "resolved"); ("resolution", PStr "update-base");
        ("resolution_class", PStr published_rewrite); ("effective_base", PStr target);
        ("worker_checkpoint", PStr rewrite_checkpoint); ("execution_remote_head", PStr rewrite_checkpoint);
        ("evidence_ref", get_or reconciliation "rewritten_evidence_ref" evidence)]) "execution_report" in
  _ ← save_resolved ticket_id target reconciliation resolved (PStr rewrite_checkpoint);
  mret 0%Z.

(** The stage [remote-pending]: the rewrite is given up when the remote branch was
    not moved yet, and finished when it was. *)
Definition resume_remote_pending (ticket_id original_base checkpoint_head target : string)
    (reconciliation : dict) (branch rewrite_checkpoint : string) (workspace : ExecutionWorkspace)
    : E (Z + (dict * ExecutionWorkspace)) :=
  if ew_dirty workspace
  then py_raise DevlegateError "interrupted execution rewrite workspace is dirty"
  else
  observed ← on_git (_execution_remote_head (st_repo c) (st_remote_name c) branch);
  if py_eq (opt_str observed) (get reconciliation "rewrite_expected_remote")
  then
    _ ← on_git (restore workspace checkpoint_head not_aborted);
    r ← give_up_rewrite ["rewrite_stage"; "rewrite_checkpoint"; "rewrite_expected_remote"; "rewrite_target"]
          reconciliation original_base;
    goes_on r
  else if bool_decide (observed = Some rewrite_checkpoint) && (ew_head workspace =? rewrite_checkpoint)%string
  then
    _ ← on_git (check_rewritten reconciliation workspace checkpoint_head rewrite_checkpoint target);
    status ← finish_published ticket_id target rewrite_checkpoint reconciliation;
    returns_with status
  else py_raise DevlegateError "execution branch remote changed during interrupted rewrite".

(** The stage [local-pending]: a rebase that was interrupted is aborted, one that
    was completed is taken back. *)
Definition abort_rebase (state : dict) (manager : ExecutionWorkspaceManager) (workspace : ExecutionWorkspace)
    : M ExecutionWorkspace :=
  if negb (ew_dirty workspace) then mret workspace else
  aborted ← _git (ew_path workspace) ["rebase"; "--abort"];
  if failed aborted then engine_error "interrupted execution rewrite workspace is dirty"
  else _execution_workspace_for_rewrite_recovery state manager.

Definition take_back (reconciliation : dict) (checkpoint_head target : string) (workspace : ExecutionWorkspace)
    : M unit :=
  if (ew_head workspace =? checkpoint_head)%string then mret tt else
  rewritten ← commits_between (ew_path workspace) target (ew_head workspace);
  let commits := splitlines (stdout rewritten) in
  exact ← (if failed rewritten ||
              negb (py_eq (PInt (Z.of_nat (length commits))) (get reconciliation "rewrite_count"))
           then mret false else linear_chain (ew_path workspace) target commits);
  if negb exact then engine_error "interrupted execution rewrite cannot be safely aborted"
  else restore workspace checkpoint_head not_aborted.

Definition resume_local_pending (original_base checkpoint_head target : string) (reconciliation : dict)
    (manager : ExecutionWorkspaceManager) (workspace : ExecutionWorkspace) : E (dict * ExecutionWorkspace) :=
  state ← state_now;
  workspace ← on_git (abort_rebase state manager workspace);
  _ ← on_git (take_back reconciliation checkpoint_head target workspace);
  give_up_rewrite ["rewrite_stage"; "rewrite_target"; "rewrite_count"] reconciliation original_base.

(** What an interrupted rewrite left, and the record and the workspace from which a
    rewrite may start. *)
Definition resume_rewrite (ticket_id original_base checkpoint_head target : string) (reconciliation : dict)
    (manager : ExecutionWorkspaceManager) (workspace : ExecutionWorkspace)
    : E (Z + (dict * ExecutionWorkspace)) :=
  let stage := get reconciliation "rewrite_stage" in
  match eq_str stage "remote-pending", get reconciliation "rewrite_checkpoint" with
  | true, PStr rewrite_checkpoint =>
      resume_remote_pending ticket_id original_base checkpoint_head target reconciliation
        (mg_branch manager) rewrite_checkpoint workspace
  | _, _ =>
      if eq_str stage "local-pending"
      then r ← resume_local_pending original_base checkpoint_head target reconciliation manager workspace;
           goes_on r
      else goes_on (reconciliation, workspace)
  end.

(** * The rewrite *)

(** The worker's commits, from the original base to the checkpoint. *)
Definition worker_lineage (workspace : ExecutionWorkspace) (original_base checkpoint_head : string)
    : M (list string) :=
  r ← commits_between (ew_path workspace) original_base checkpoint_head;
  let lineage := splitlines (stdout r) in
  if failed r || bool_decide (lineage = [])
  then engine_error "execution lineage is not a non-empty linear checkpoint chain"
  else
  last ← follow (parents_of (ew_path workspace))
           "execution lineage contains a merge, side branch, or unrelated commit" original_base lineage;
  if (last =? checkpoint_head)%string then mret lineage
  else engine_error "execution lineage does not reach the preserved checkpoint".

(** The remote branch is where it was observed; a published one is only rewritten
    with an authorization, and from a commit of the lineage. *)
Definition rewritable_remote (reconciliation : dict) (branch : string) (lineage : list string)
    (rewrite_published : bool) : M (option string) :=
  remote ← _execution_remote_head (st_repo c) (st_remote_name c) branch;
  if negb (py_eq (opt_str remote) (get reconciliation "execution_remote_head"))
  then engine_error "execution branch remote changed since reconciliation observation"
  else match remote with
  | None => mret None
  | Some head =>
      if negb rewrite_published
      then engine_error ("published execution ref refs/heads/" +:+ branch +:+
                         " requires --rewrite-published authorization")
      else if negb (existsb (String.eqb head) lineage)
      then engine_error "published execution ref is outside the proven execution lineage"
      else mret (Some head)
  end.

(** The record that a rewrite is in progress. *)
Definition rewrite_operation (reconciliation : dict) (evidence rewritten_evidence target : string)
    (remote : option string) (lineage : list string) (rewrite_published : bool) : dict :=
  dmerge reconciliation
    [("rewrite_authorized", PBool rewrite_published); ("rewrite_expected_remote", opt_str remote);
     ("displaced_evidence_ref", PStr evidence); ("rewritten_evidence_ref", PStr rewritten_evidence);
     ("rewrite_target", PStr target); ("rewrite_count", PInt (Z.of_nat (length lineage)));
     ("rewrite_stage", PStr "local-pending")].

(** A rebase that stopped is aborted; the workspace must be what it was. *)
Definition abandon_rebase {A} (reconciliation : dict) (workspace : ExecutionWorkspace) (previous_base : pyval) : E A :=
  let path := ew_path workspace in
  _ ← on_git (_git path ["rebase"; "--abort"]);
  _ ← assign_base previous_base;
  head ← on_git (_git path ["rev-parse"; "HEAD"]);
  status ← on_git (_git path ["status"; "--porcelain"]);
  checkpoint_head ← py_lift (getitem reconciliation "worker_checkpoint");
  if negb (eq_str checkpoint_head (strip (stdout head))) || negb (stdout status =? "")%string
  then py_raise DevlegateError "reconciliation conflict could not be safely aborted"
  else py_raise DevlegateError "reconciliation conflict; manual/advanced reconciliation is required".

Definition rebase_lineage (reconciliation : dict) (workspace : ExecutionWorkspace)
    (original_base target : string) (previous_base : pyval) : E unit :=
  _ ← assign_base (PStr target);
  py_catch
    (rebased ← on_git (_git (ew_path workspace) ["rebase"; "--onto"; target; original_base]);
     if failed rebased then abandon_rebase reconciliation workspace previous_base else mret tt)
    is_os_error
    (fun e => _ ← assign_base previous_base; py_raise DevlegateError ("reconciliation failed: " +:+ exn_msg e)).

(** The rewritten commits are as many as before, one after the other on the target. *)
Definition discard_rewrite {A} (reconciliation : dict) (workspace : ExecutionWorkspace)
    (original_base checkpoint_head : string) (previous_base : pyval) : E A :=
  restored ← on_git (_git (ew_path workspace) ["reset"; "--hard"; checkpoint_head]);
  _ ← assign_base previous_base;
  if failed restored then py_raise DevlegateError "reconciled execution lineage is invalid" else
  _ ← save_fields "idle"
        [("execution_base_head", PStr original_base); ("execution_start_head", PStr original_base);
         ("reconciliation", PDict reconciliation)];
  py_raise DevlegateError "reconciled execution lineage is invalid".

Definition prove_rewritten (reconciliation : dict) (workspace : ExecutionWorkspace) (lineage : list string)
    (original_base checkpoint_head target : string) (previous_base : pyval) : E ExecutionWorkspace :=
  state ← state_now;
  updated ← on_git (_execution_workspace_for_recovery c state);
  r ← on_git (commits_between (ew_path updated) target "HEAD");
  let rewritten := splitlines (stdout r) in
  if ew_dirty updated || failed r || negb (length rewritten =? length lineage)%nat ||
     (ew_head updated =? target)%string
  then discard_rewrite reconciliation workspace original_base checkpoint_head previous_base
  else
  last ← on_git (follow (parents_checked (ew_path updated))
                   "reconciled execution lineage is not ordered and linear" target rewritten);
  if (last =? ew_head updated)%string then mret updated
  else py_raise DevlegateError "reconciled execution lineage does not reach HEAD".

Definition NO_OBJECT : string := String.concat "" (repeat "0" 40).
Definition not_pinned : string := "rewritten execution evidence could not be pinned".

(** The rewritten branch is pushed over the observed one, once its head is pinned
    and the stage [remote-pending] is on record. *)
Definition publish_rewrite (operation : dict) (updated : ExecutionWorkspace)
    (branch rewritten_evidence head : string) : E unit :=
  let operation := dmerge operation
    [("rewrite_stage", PStr "remote-pending"); ("rewrite_checkpoint", PStr (ew_head updated))] in
  pinned ← on_git (_git (st_repo c) ["update-ref"; rewritten_evidence; ew_head updated; NO_OBJECT]);
  if failed pinned then py_raise DevlegateError not_pinned else
  _ ← save_fields "idle" [("reconciliation", PDict operation)];
  pushed ← on_git (_git (ew_path updated)
             ["push"; "--force-with-lease=refs/heads/" +:+ branch +:+ ":" +:+ head; st_remote_name c;
              ew_head updated +:+ ":refs/heads/" +:+ branch]);
  observed ← on_git (_execution_remote_head (st_repo c) (st_remote_name c) branch);
  if bool_decide (observed = Some (ew_head updated)) then mret tt
  else if failed pushed
  then py_raise DevlegateError (or_else (Some (strip (stderr pushed))) "published execution rewrite failed")
  else py_raise DevlegateError "execution branch remote changed during publication".

(** The rewritten head is pinned, unless it already is. *)
Definition pin_rewritten (rewritten_evidence head : string) : M unit :=
  pinned ← _git (st_repo c) ["update-ref"; rewritten_evidence; head; NO_OBJECT];
  if negb (failed pinned) then mret tt else
  existing ← rev_parse (st_repo c) rewritten_evidence;
  if names existing head then mret tt else engine_error not_pinned.

Definition finish_rewrite (ticket_id target evidence rewritten_evidence : string) (reconciliation : dict)
    (updated : ExecutionWorkspace) (remote : option string) : E Z :=
  let published := negb (is_missing remote) in
  let remote_head := if published then PStr (ew_head updated) else PNone in
  let resolved := dpop
    (dmerge reconciliation
       [("status", PStr "resolved"); ("resolution", PStr "update-base");
        ("resolution_class", PStr (if published then published_rewrite else "update-base"));
        ("effective_base", PStr target); ("worker_checkpoint", PStr (ew_head updated));
        ("execution_remote_head", remote_head); ("displaced_evidence_ref", PStr evidence);
        ("evidence_ref", PStr rewritten_evidence)]) "execution_report" in
  _ ← save_resolved ticket_id target reconciliation resolved remote_head;
  mret 0%Z.

(** From a workspace at the checkpoint to the resolved reconciliation. *)
Definition rewrite_lineage (ticket_id original_base checkpoint_head target evidence : string)
    (reconciliation : dict) (manager : ExecutionWorkspaceManager) (workspace : ExecutionWorkspace)
    (rewrite_published : bool) : E Z :=
  recorded ← py_lift (getitem reconciliation "worker_checkpoint");
  if negb (eq_str recorded (ew_head workspace)) || ew_dirty workspace
  then py_raise DevlegateError "execution workspace changed before reconciliation"
  else
  lineage ← on_git (worker_lineage workspace original_base checkpoint_head);
  remote ← on_git (rewritable_remote reconciliation (mg_branch manager) lineage rewrite_published);
  state ← state_now;
  previous_base ← py_lift (getitem state "execution_base_head");
  execution_id ← py_lift (text_item reconciliation "execution_id");
  let rewritten_evidence := _reconciliation_evidence_ref ticket_id (execution_id +:+ "-rewritten") in
  let operation := rewrite_operation reconciliation evidence rewritten_evidence target remote lineage
                     rewrite_published in
  _ ← save_fields "idle" [("reconciliation", PDict operation)];
  _ ← rebase_lineage reconciliation workspace original_base target previous_base;
  updated ← prove_rewritten reconciliation workspace lineage original_base checkpoint_head target previous_base;
  _ ← (match remote with
       | Some head => publish_rewrite operation updated (mg_branch manager) rewritten_evidence head
       | None => mret tt
       end);
  _ ← on_git (pin_rewritten rewritten_evidence (ew_head updated));
  finish_rewrite ticket_id target evidence rewritten_evidence reconciliation updated remote.

Definition _reconcile_update_base_owned (ticket_id onto : string) (rewrite_published : bool) : E Z :=
  state ← state_now;
  reconciliation ← py_lift (pending_reconciliation state ticket_id);
  target ← on_git (requested_target onto);
  original_base ← py_lift (text_item reconciliation "original_base");
  _ ← on_git (eligible_target original_base target);
  evidence ← py_lift (text_item reconciliation "evidence_ref");
  _ ← on_git (preserved_checkpoint reconciliation);
  manager ← on_git (bound_manager reconciliation ticket_id);
  checkpoint_head ← py_lift (text_item reconciliation "worker_checkpoint");
  workspace ← on_git (rewrite_workspace state reconciliation manager);
  rewrite_published ← py_lift (rewrite_authority reconciliation target rewrite_published);
  ready ← resume_rewrite ticket_id original_base checkpoint_head target reconciliation manager workspace;
  match ready with
  | inl status => mret status
  | inr (reconciliation, workspace) =>
      rewrite_lineage ticket_id original_base checkpoint_head target evidence reconciliation manager workspace
        rewrite_published
  end.
End UpdateBase.
