(* ===== verification/OwnerOperations.v ===== *)
(** What the owner thread does for an operator's command, [src/devlegate/runtime.py]:
    the checks that admit a command ([_validate_..._admission]), the forced retry,
    the recovery of an interrupted execution, the retry itself, and the adoption of
    a rewritten control history. *)

From S2P Require Export Iteration UpdateBase.
From S2P Require Import Operator.

Section Operations.
Context {W : Type} `{GitWorld W, !EngineWorld W, !HostWorld W}.
Context {St : Type} `{RuntimeStore St, !ObservableStore St}.
Variable c : settings.
Variable state_file : string.
Variable loads_yaml : string -> string + dict.
Variables (randoms_md randoms_json : list string).
Variable texts : prompt_texts.

Abbreviation M := (py (logged W)).
Abbreviation E := (py (engine (W := W) (St := St))).

Definition service_error {A} (msg : string) : E A := py_raise DevlegateError msg.

(** [if condition: raise DevlegateError(msg)] *)
Definition deny (condition : bool) (msg : string) : E unit :=
  if condition then service_error msg else mret tt.

(** * Admission of a retry *)

Definition retry_candidates : E (list (string * string * string)) :=
  _retry_candidates (_status_state_observation state_file) (_status_git_observation c)
    (control_workflow_fingerprint c) (control_store c loads_yaml) (make_snapshot c).

Definition interactive_candidates : E (list RetryCandidate) :=
  state ← state_now;
  _interactive_retry_candidates (_status_state_observation state_file) (_status_git_observation c)
    (control_workflow_fingerprint c) (control_store c loads_yaml) (make_snapshot c) state.

Definition worker_running : E bool := remembered (fun m => sv_worker_running (me_snapshot m)).

(** The persisted execution of the ticket may be retried: its worker is gone, and it
    has not reached its checkpoint. *)
Definition validate_persisted_retry (state : dict) (ticket_id : string) : E unit :=
  _ ← deny (negb (eq_str (get state "execution_ticket_id") ticket_id))
        ("ticket " +:+ ticket_id +:+ " does not match the persisted interrupted execution");
  identity ← py_lift (_worker_identity_from_value (get state "worker_identity") (Some (get state "execution_id")));
  w ← world;
  _ ← deny (match identity with Some i => negb (hw_observe_worker w i =? "absent")%string | None => false end)
        "service worker is already running";
  early ← py_lift (in_none_strs (get state "execution_stage") ["pre-checkpoint"; "worker-running"; "post-worker"]);
  deny (negb early) "persisted execution is not currently retryable".

(** The workspace that a forced retry retains. *)
Definition retained_workspace (state : dict) (ticket_id : string) : M unit :=
  if negb (all_text state ["execution_branch"; "execution_path"; "execution_base_head"])
  then engine_error "persisted execution workspace identity is incomplete"
  else
  let base := field state "execution_base_head" in
  manager ← new_manager (st_repo c) (st_execution_worktree_root c) ticket_id;
  if negb (binding_matches state manager) then engine_error "retained execution workspace topology is invalid" else
  inspection ← inspect (st_recursion_limit c) manager base None;
  if negb (wi_classification inspection =? "REUSABLE")%string &&
     negb (wi_reason inspection =? "execution worktree is dirty")%string
  then engine_error ("retained execution workspace is not reusable: " +:+ wi_reason inspection)
  else
  registrations ← _registrations manager;
  expected ← ask (fun w => gw_resolve w (mg_path manager));
  let registration := registration_at expected registrations in
  directory ← (if is_missing registration then mret false else ask (fun w => gw_is_dir w (mg_path manager)));
  if negb directory then engine_error "retained execution workspace is not registered" else
  py_catch
    (workspace ← _validate_existing manager registration base;
     verify_submodules (st_recursion_limit c) manager workspace)
    (fun e => is_workspace_error e || is_os_error e)
    (fun e => engine_error ("retained execution workspace integrity could not be proven: " +:+ exn_msg e)).

(** The product has not moved since the execution was admitted. *)
Definition unmoved_product (state : dict) : E unit :=
  match get state "local_head" with
  | PStr admitted_product =>
      if (admitted_product =? "")%string
      then service_error "forced retry product admission identity is incomplete" else
      product ← on_git (_observe_product_generation c admitted_product);
      if pg_stable product then mret tt
      else if (pg_classification product =? "unobservable")%string
      then service_error "product remote could not be observed; retry when connectivity returns"
      else service_error "product generation changed; use normal product reconciliation"
  | _ => service_error "forced retry product admission identity is incomplete"
  end.

(** The control history descends from the one of the admission. *)
Definition descendant_control (state : dict) : E unit :=
  match get state "execution_control_head" with
  | PStr admitted_control =>
      if (admitted_control =? "")%string
      then service_error "forced retry control admission identity is incomplete" else
      heads ← on_git (_sync_control c state);
      descendant ← on_git (_git (st_control_worktree c)
                             ["merge-base"; "--is-ancestor"; admitted_control; fst heads]);
      deny (failed descendant) "control history diverged; use explicit control reconciliation"
  | _ => service_error "forced retry control admission identity is incomplete"
  end.

(** The ticket is runnable, with another body than the one that was admitted. *)
Definition changed_ticket (state : dict) (ticket_id : string) : E unit :=
  store ← control_store c loads_yaml;
  match ts_by_id store !! ticket_id with
  | Some t =>
      if negb (runnable_todo store ticket_id)
      then service_error ("ticket " +:+ ticket_id +:+ " is not currently runnable")
      else deny (negb (is_str (get state "selected_ticket_body")) || eq_str (get state "selected_ticket_body") (tk_body t))
             "current ticket body is unchanged; use ordinary retry/recovery"
  | None => service_error ("ticket " +:+ ticket_id +:+ " is not currently runnable")
  end.

(** The worker of the execution is proven absent. *)
Definition absent_worker (state : dict) : E unit :=
  _ ← deny (negb (nonempty_str (get state "execution_id"))) "forced retry requires an exact execution identity";
  identity ← py_lift (_worker_identity_from_value (get state "worker_identity") (Some (get state "execution_id")));
  match identity with
  | None => service_error "worker ownership is not proven absent"
  | Some identity =>
      w ← world;
      let observation := hw_observe_worker w identity in
      deny (negb (observation =? "absent")%string)
        ("worker ownership is " +:+ observation +:+ "; forced retry requires absent")
  end.

Definition _validate_force_retry_admission (ticket_id : string) : E unit :=
  state ← state_now;
  launched ← py_lift (stage_in state ["worker-launch"; "worker-running"]);
  _ ← deny (negb launched) "forced retry requires a stranded worker-running execution";
  _ ← deny (negb (eq_str (get state "execution_ticket_id") ticket_id))
        "requested ticket does not match the active execution";
  _ ← absent_worker state;
  _ ← unmoved_product state;
  _ ← descendant_control state;
  _ ← changed_ticket state ticket_id;
  on_git (retained_workspace state ticket_id).

Definition _validate_retry_admission (ticket_id : string) (force : bool) : E unit :=
  if force then _validate_force_retry_admission ticket_id else
  running ← worker_running;
  _ ← deny running "service worker is already running";
  state ← state_now;
  if eq_str (get state "phase") "agent_running" then validate_persisted_retry state ticket_id else
  candidates ← interactive_candidates;
  deny (negb (existsb (fun k => (rc_ticket_id k =? ticket_id)%string) candidates))
    ("ticket " +:+ ticket_id +:+ " is not currently retryable").

(** * The forced retry *)

(** The retained progress is committed. *)
Definition forced_checkpoint (state : dict) (ticket_id execution_id : string) : M ExecutionCheckpoint :=
  manager ← new_manager (st_repo c) (st_execution_worktree_root c) ticket_id;
  registrations ← _registrations manager;
  expected ← ask (fun w => gw_resolve w (mg_path manager));
  match registration_at expected registrations with
  | None => engine_error "retained execution workspace is not registered"
  | Some registration =>
      py_catch
        (base ← py_lift (text_item state "execution_base_head");
         workspace ← _validate_existing manager (Some registration) base;
         _ ← verify_submodules (st_recursion_limit c) manager workspace;
         checkpoint manager workspace execution_id "forced retry recovery"
           "preserve stranded worker progress before retrying changed ticket generation")
        (fun e => is_workspace_error e || is_os_error e)
        (fun e => engine_error ("forced retry workspace checkpoint failed: " +:+ exn_msg e))
  end.

Definition force_retry_ref (ticket_id execution_id : string) : string :=
  "refs/devlegate/recovery/force-retry/" +:+ ticket_id +:+ "/" +:+ execution_id.

Definition preserve_forced (evidence_ref after_head : string) : M unit :=
  existing ← rev_parse (st_repo c) evidence_ref;
  if failed existing then preserve_head c evidence_ref after_head "cannot preserve forced retry evidence"
  else if names existing after_head then mret tt
  else engine_error "forced retry evidence ref has conflicting identity".

Definition forced_reason : string :=
  "forced retry after lost worker and changed descendant ticket generation".

(** The fields of the transition. *)
Definition forced_fields (state : dict) (ticket_id request_id execution_id old_control current_control
    after_head evidence_ref todo_fingerprint : string) (local_head remote_head base : pyval)
    (receipt receipts : dict) : dict :=
  let remote := get state "execution_remote_head" in
  let failure := [("execution_id", PStr execution_id); ("product_head", local_head); ("remote_head", remote_head);
    ("control_head", PStr old_control); ("current_control_head", PStr current_control);
    ("todo_fingerprint", PStr todo_fingerprint); ("interrupted", PBool true);
    ("interruption_kind", PStr "forced_retry"); ("reason", PStr forced_reason);
    ("checkpoint", PStr after_head); ("evidence_ref", PStr evidence_ref)] in
  [("execution_stage", PNone);
   ("failed_executions",
    PDict (dset (dict_of (get_or state "failed_executions" (PDict []))) ticket_id (PDict failure)));
   ("resume_required",
    PDict [("status", PStr "required"); ("ticket_id", PStr ticket_id); ("checkpoint", PStr after_head);
           ("execution_id", PStr execution_id); ("evidence_ref", PStr evidence_ref);
           ("force_retry", PBool true); ("execution_base_head", base); ("execution_remote_head", remote)]);
   ("force_retry_authorization",
    PDict [("status", PStr "admitted"); ("request_id", PStr request_id); ("ticket_id", PStr ticket_id);
           ("old_execution_id", PStr execution_id); ("control_head", PStr current_control);
           ("todo_fingerprint", PStr todo_fingerprint); ("checkpoint", PStr after_head);
           ("execution_base_head", base); ("execution_remote_head", remote)]);
   ("mutable_receipts", PDict (dset receipts request_id (PDict receipt)));
   ("force_retry_provenance",
    PDict [("old_execution_id", PStr execution_id); ("ticket_id", PStr ticket_id);
           ("admitted_control_head", PStr old_control); ("current_control_head", PStr current_control);
           ("product_head", local_head); ("checkpoint", PStr after_head);
           ("evidence_ref", PStr evidence_ref); ("reason", PStr forced_reason)]);
   ("handled_control_head", PStr current_control); ("handled_todo_fingerprint", PStr "")].

Definition _force_retry_transition (ticket_id request_id : string) (receipt receipts : dict) : E unit :=
  state ← state_now;
  execution_id ← py_lift (text_item state "execution_id");
  old_control ← py_lift (text_item state "execution_control_head");
  heads ← on_git (_sync_control c state);
  made ← on_git (forced_checkpoint state ticket_id execution_id);
  let evidence_ref := force_retry_ref ticket_id execution_id in
  _ ← on_git (preserve_forced evidence_ref (ck_after_head made));
  todo_fingerprint ← on_git (control_todo_fingerprint c);
  local_head ← py_lift (getitem state "local_head");
  remote_head ← py_lift (getitem state "remote_head");
  base ← py_lift (getitem state "execution_base_head");
  save "idle"
    (mkSave true true false false
       (forced_fields state ticket_id request_id execution_id old_control (fst heads) (ck_after_head made)
          evidence_ref todo_fingerprint local_head remote_head base receipt receipts)).

(** * Admission of a drop and of a recovery *)

Definition _validate_drop_admission (ticket_id : string) (execution_id : option string) : E unit :=
  match execution_id with
  | None => service_error "drop requires an exact execution identity"
  | Some x =>
      _ ← deny (x =? "")%string "drop requires an exact execution identity";
      state ← state_now;
      completed ← on_git (_drop_already_completed (st_repo c) state ticket_id x);
      if (completed : bool) then mret tt else
      _ ← deny (negb (eq_str (get state "phase") "agent_running")) "execution is not currently droppable";
      _ ← deny (negb (eq_str (get state "execution_ticket_id") ticket_id))
            "requested ticket does not match the active execution";
      _ ← deny (negb (eq_str (get state "execution_id") x)) "requested execution is no longer active";
      _ ← deny (negb (eq_str (get state "execution_stage") "lifecycle"))
            "drop is currently limited to blocked lifecycle executions";
      _ ← deny (negb (is_none (get state "worker_identity"))) "cannot drop an execution with worker ownership";
      _ ← deny (_has_pending_reconciliation state || _has_pending_accepted_integration state)
            "drop is unsafe while reconciliation or accepted integration is pending";
      disposition ← on_git (_read_drop_disposition (st_repo c) ticket_id x);
      _ ← on_git (_validate_drop_evidence (st_repo c) (st_execution_worktree_root c) (st_remote_name c) state
                    ticket_id x (negb (is_missing disposition)));
      mret tt
  end.

Definition inspect_bound (state : dict) : E WorkspaceInspection :=
  w ← world;
  on_git (_inspect_bound_execution_workspace (st_recursion_limit c) (st_repo c) (st_execution_worktree_root c)
            (gw_files w) state).

Definition _validate_recover_admission (ticket_id execution_id observed_head : string) : E unit :=
  state ← state_now;
  _ ← deny (negb (eq_str (get state "phase") "agent_pending")) "workspace recovery requires pre-worker state";
  _ ← deny (negb (eq_str (get state "execution_ticket_id") ticket_id))
        "requested ticket does not match the active execution";
  _ ← deny (negb (eq_str (get state "execution_id") execution_id)) "requested execution is no longer active";
  _ ← deny (negb (is_none (get state "worker_identity"))) "cannot recover an execution with worker ownership";
  _ ← deny (negb (is_none (get state "pending_execution_report")))
        "cannot recover an execution with a durable result";
  _ ← deny (negb (_is_git_identity (PStr observed_head))) "observed branch HEAD is not a Git identity";
  inspection ← inspect_bound state;
  _ ← deny (negb (wi_classification inspection =? "UNSAFE")%string)
        "explicit recovery is allowed only for an UNSAFE workspace binding";
  _ ← deny (negb (nonempty_str (get state "execution_branch"))) "persisted execution branch identity is incomplete";
  current ← on_git (rev_parse (st_repo c) ("refs/heads/" +:+ field state "execution_branch"));
  evidence ← on_git (rev_parse (st_repo c) (operator_evidence_ref ticket_id execution_id));
  let replay := names evidence observed_head && negb (failed current) &&
                eq_str (get state "execution_base_head") (strip (stdout current)) in
  deny (failed current || negb (names current observed_head) && negb replay)
    "execution branch does not match the authorized HEAD".

(** * Admission of a reconciliation *)

Definition is_hex (c : Ascii.ascii) : bool :=
  let n := Ascii.N_of_ascii c in
  ((48 <=? n) && (n <=? 57) || (65 <=? n) && (n <=? 70) || (97 <=? n) && (n <=? 102))%N.

(** [re.fullmatch(r"[0-9a-fA-F]+", value) and len(value) < 4], of a nonempty text. *)
Definition short_prefix (value : string) : bool :=
  all_bytes is_hex value && (String.length value <? 4)%nat.

Definition _canonical_reconcile_assertion (value current_head : string) : M string :=
  if (value =? "")%string then engine_error "requested reconciliation target is empty"
  else if short_prefix value
  then engine_error ("requested reconciliation target is a hexadecimal commit prefix; " +:+
                     "use at least 4 characters")
  else
  resolved ← rev_parse (st_repo c) (value +:+ "^{commit}");
  if failed resolved
  then engine_error ("requested reconciliation target is not a valid commit; use a full SHA or a unique " +:+
                     "hexadecimal prefix of at least 4 characters")
  else if names resolved current_head then mret current_head
  else engine_error "requested reconciliation target is not the current product HEAD".

(** The product generation that a pending reconciliation of the ticket would be
    moved onto. *)
Definition pending_product (ticket_id : string) : E (dict * product_generation) :=
  state ← state_now;
  reconciliation ← py_lift (pending_reconciliation state ticket_id);
  original_base ← py_lift (text_item reconciliation "original_base");
  product ← on_git (_observe_product_generation c original_base);
  mret (reconciliation, product).

Definition heads_disagree (product : product_generation) : bool :=
  (pg_local_head product =? "")%string || negb (pg_local_head product =? pg_remote_head product)%string.

Definition disagreement : string := "current product local and remote HEADs do not agree".
Definition ineligible : string := "current product generation is not eligible for reconciliation".

(** The target that the command is given. *)
Definition _validate_reconcile_admission (command : OperatorCommand) : E string :=
  '(_, product) ← pending_product (oc_ticket_id command);
  _ ← deny (heads_disagree product) disagreement;
  _ ← deny (negb (pg_target_eligible product)) ineligible;
  match oc_onto command with
  | None => mret (pg_local_head product)
  | Some onto => on_git (_canonical_reconcile_assertion onto (pg_local_head product))
  end.

(** The target and the class of the resolution. *)
Definition _validate_reconcile_auto_admission (command : OperatorCommand) : E (option string * string) :=
  '(reconciliation, product) ← pending_product (oc_ticket_id command);
  _ ← deny (negb (pg_target_eligible product)) ineligible;
  _ ← deny (heads_disagree product) disagreement;
  onto ← (match oc_onto command with
          | Some onto =>
              head ← on_git (_canonical_reconcile_assertion onto (pg_local_head product)); mret (Some head)
          | None => mret (if pg_stable product then None else Some (pg_local_head product))
          end);
  mret (onto,
        if pg_stable product then "resume"
        else if negb (is_none (get reconciliation "execution_remote_head")) then published_rewrite
        else "update-base").

Definition _validate_reconcile_resume_admission (ticket_id : string) : E unit :=
  state ← state_now;
  match get state "reconciliation" with
  | PDict reconciliation =>
      resumable ← py_lift (in_strs (get reconciliation "status") ["pending"; "resolving"]);
      _ ← deny (negb resumable) ("ticket " +:+ ticket_id +:+ " has no resumable reconciliation");
      deny (negb (eq_str (get reconciliation "ticket_id") ticket_id))
        "requested ticket does not match pending reconciliation"
  | _ => service_error ("ticket " +:+ ticket_id +:+ " has no resumable reconciliation")
  end.

(** * A rewritten control history *)

(** The heads are what the operator was shown, and neither is an ancestor of the
    other. *)
Definition divergent_control (state : dict) (from_head to_head : string) : M unit :=
  let control := st_control_worktree c in
  let remote_ref := st_remote_name c +:+ "/" +:+ st_control_branch c in
  _ ← _validate_control_worktree c state;
  observation ← _git_observation c state control (st_control_branch c);
  if negb (go_working_tree_clean observation) then engine_error "control working tree is dirty" else
  local ← _git_check control ["rev-parse"; "--verify"; "HEAD^{commit}"];
  let local_head := strip (stdout local) in
  if negb (local_head =? from_head)%string
  then engine_error ("control local HEAD changed; expected " +:+ from_head +:+ ", found " +:+ local_head)
  else
  fetch ← _git control ["fetch"; "--prune"; st_remote_name c; st_control_branch c];
  if failed fetch then engine_error ("cannot freshly fetch control branch: " +:+ strip (stderr fetch)) else
  remote ← rev_parse control (remote_ref +:+ "^{commit}");
  if failed remote then engine_error ("control remote branch not found: " +:+ remote_ref)
  else if negb (strip (stdout remote) =? to_head)%string
  then engine_error ("control remote HEAD changed; expected " +:+ to_head +:+ ", found " +:+ strip (stdout remote))
  else
  local_ancestor ← _git control ["merge-base"; "--is-ancestor"; from_head; to_head];
  remote_ancestor ← _git control ["merge-base"; "--is-ancestor"; to_head; from_head];
  if negb (failed local_ancestor) || negb (failed remote_ancestor)
  then engine_error "control reconciliation is unnecessary; histories are not divergent"
  else mret tt.

Definition _validate_control_reconcile_admission (from_head to_head : string) : E unit :=
  running ← worker_running;
  state ← state_now;
  _ ← deny (running || negb (eq_str (get state "phase") "idle"))
        "control reconciliation requires an idle service with no live execution";
  _ ← deny (negb (is_none (get state "accepted_integration")))
        "control reconciliation is unsafe while accepted integration is pending";
  _ ← deny (_has_pending_reconciliation state)
        "control reconciliation is unsafe while product-base reconciliation is pending";
  on_git (divergent_control state from_head to_head).

(** The displaced head is preserved, and the control worktree moved. *)
Definition adopt_control (state : dict) (from_head to_head : string) : M unit :=
  let evidence := "refs/devlegate/recovery/control/" +:+ from_head +:+ "-" +:+ to_head in
  existing ← rev_parse (st_repo c) evidence;
  _ ← (if negb (failed existing)
       then if names existing from_head then mret tt
            else engine_error "control recovery evidence ref already points to another commit"
       else
         created ← _git (st_repo c) ["update-ref"; evidence; from_head; NO_OBJECT];
         if failed created then engine_error "control recovery evidence ref could not be created" else mret tt);
  moved ← _git (st_control_worktree c) ["reset"; "--hard"; to_head];
  if failed moved then engine_error ("control lineage adoption failed: " +:+ strip (stderr moved))
  else _validate_control_worktree c state.

Definition _reconcile_control_owned (from_head to_head : string) : E Z :=
  _ ← _validate_control_reconcile_admission from_head to_head;
  _ ← _validate_control_reconcile_admission from_head to_head;
  state ← state_now;
  _ ← on_git (adopt_control state from_head to_head);
  _ ← control_store c loads_yaml;
  mret 0%Z.

(** * The retry *)

(** The state that a recovery returns to is complete, and the stage is one at which
    the worker had not started. *)
Definition interrupted_fields : list string :=
  ["local_head"; "remote_head"; "control_head"; "selected_ticket_id"; "selected_ticket_body";
   "execution_base_head"; "execution_control_head"; "execution_branch"; "execution_path"; "execution_id"].

Definition interrupted_binding (state : dict) (ticket_id : string) : E unit :=
  _ ← deny (negb (eq_str (get state "execution_ticket_id") ticket_id))
        ("ticket " +:+ ticket_id +:+ " does not match the persisted interrupted execution");
  _ ← deny (negb (all_text state interrupted_fields)) "persisted interrupted execution binding is incomplete";
  early ← py_lift (in_none_strs (get state "execution_stage") ["pre-checkpoint"]);
  _ ← deny (negb early) ("persisted execution reached an ambiguous post-worker stage; " +:+
                         "manual operator handling is required");
  if eq_str (get state "execution_stage") "pre-checkpoint" then mret tt
  else w ← world; py_lift (_assert_previous_worker_is_safe (hw_observe_worker w) state).

(** The ticket is the one that was admitted. *)
Definition same_todo (state : dict) (ticket_id : string) : E unit :=
  store ← control_store c loads_yaml;
  deny (negb match ts_by_id store !! ticket_id with
             | Some t => is_state (tk_state t) Todo && is_runnable store t &&
                         eq_str (get state "selected_ticket_id") ticket_id &&
                         eq_str (get state "selected_ticket_body") (tk_body t)
             | None => false
             end)
    ("ticket " +:+ ticket_id +:+ " is not the same managed todo execution").

(** The product and the control branch are where they were, here and remotely. *)
Definition same_generations (state : dict) : M unit :=
  let control := st_control_worktree c in
  let fetch_error (r : CompletedProcess) := or_else (Some (strip (stderr r))) "unknown git error" in
  local ← _git_check (st_repo c) ["rev-parse"; "HEAD"];
  if negb (strip (stdout local) =? field state "local_head")%string
  then engine_error "product checkout changed since interrupted execution" else
  product_fetch ← _git (st_repo c) ["fetch"; "--prune"; st_remote_name c; st_remote_branch c];
  if failed product_fetch
  then engine_error ("cannot freshly observe product remote before interrupted recovery: " +:+
                     fetch_error product_fetch) else
  remote ← rev_parse (st_repo c) (st_remote_name c +:+ "/" +:+ st_remote_branch c);
  if negb (names remote (field state "remote_head"))
  then engine_error "product remote generation changed since interrupted execution" else
  _ ← _validate_control_worktree c state;
  control_fetch ← _git control ["fetch"; "--prune"; st_remote_name c; st_control_branch c];
  if failed control_fetch
  then engine_error ("cannot freshly observe control remote before interrupted recovery: " +:+
                     fetch_error control_fetch) else
  control_remote ← rev_parse control (st_remote_name c +:+ "/" +:+ st_control_branch c);
  if negb (names control_remote (field state "control_head"))
  then engine_error "control remote generation changed since interrupted execution" else
  control_local ← _git_check control ["rev-parse"; "HEAD"];
  let current := strip (stdout control_local) in
  if negb (current =? field state "control_head")%string ||
     negb (current =? field state "execution_control_head")%string
  then engine_error "control generation changed since interrupted execution" else mret tt.

(** Where the execution started. *)
Definition expected_start (state : dict) (branch : string) : M string :=
  match get state "execution_start_head" with
  | PStr start_head =>
      if (start_head =? "")%string then refuse "persisted execution start HEAD is invalid" else mret start_head
  | PNone =>
      match get state "execution_remote_head" with
      | PStr remote_head =>
          if (remote_head =? "")%string then refuse "persisted execution remote HEAD is invalid" else
          observed ← _execution_remote_head (st_repo c) (st_remote_name c) branch;
          if bool_decide (observed = Some remote_head) then mret remote_head
          else refuse "execution worktree remote HEAD changed before recovery"
      | PNone => mret (field state "execution_base_head")
      | _ => refuse "persisted execution remote HEAD is invalid"
      end
  | _ => refuse "persisted execution start HEAD is invalid"
  end.

(** The workspace has not left that head. *)
Definition workspace_at_start (state : dict) (ticket_id : string) : M unit :=
  let base_head := field state "execution_base_head" in
  manager ← new_manager (st_repo c) (st_execution_worktree_root c) ticket_id;
  if negb (binding_matches state manager) then engine_error "persisted execution workspace binding is invalid" else
  py_catch
    (_ ← _validate_base manager base_head;
     _ ← _validate_branch manager base_head;
     registrations ← _registrations manager;
     expected ← ask (fun w => gw_resolve w (mg_path manager));
     workspace ← _validate_existing manager (registration_at expected registrations) base_head;
     start_head ← expected_start state (mg_branch manager);
     if negb (ew_head workspace =? start_head)%string
     then refuse "execution worktree HEAD does not match the execution start HEAD"
     else verify_submodules (st_recursion_limit c) manager workspace)
    (fun e => is_workspace_error e || is_os_error e)
    (fun e => engine_error ("cannot safely recover interrupted execution: " +:+ exn_msg e)).

(** The recorded failure of the execution. *)
Definition interrupted_failure (state : dict) (todo_fingerprint kind : string) : dict :=
  [("execution_id", get state "execution_id"); ("product_head", get state "local_head");
   ("remote_head", get state "remote_head"); ("control_head", get state "control_head");
   ("todo_fingerprint", PStr todo_fingerprint);
   ("reason", PStr ("interrupted: " +:+ replace_char "_" " " kind)); ("interrupted", PBool true);
   ("interruption_kind", PStr kind)].

Definition _recover_interrupted_execution (ticket_id : string) : E unit :=
  state ← state_now;
  _ ← interrupted_binding state ticket_id;
  _ ← same_todo state ticket_id;
  _ ← on_git (same_generations state);
  todo_fingerprint ← on_git (control_todo_fingerprint c);
  let handled := get state "handled_todo_fingerprint" in
  _ ← deny (nonempty_str handled && negb (eq_str handled todo_fingerprint))
        "todo workflow changed since interrupted execution";
  _ ← on_git (workspace_at_start state ticket_id);
  let kind := get state "execution_interruption_kind" in
  known ← py_lift (in_strs kind interruption_kinds);
  let kind := if (known : bool) then str_of kind else "process_loss" in
  save_fields "idle"
    [("handled_remote_head", get state "remote_head"); ("handled_control_head", get state "control_head");
     ("handled_todo_fingerprint", PStr todo_fingerprint);
     ("execution_control_head", get state "execution_control_head");
     ("interrupted_execution_id", get state "execution_id");
     ("failed_executions",
      PDict (dset (dict_of (get_or state "failed_executions" (PDict []))) ticket_id
               (PDict (interrupted_failure state todo_fingerprint kind))))].

(** A workspace error of the iteration is an engine error of the retry. *)
Definition _retry_locked (ticket_id : string) (force : bool) : E Z :=
  state ← state_now;
  _ ← check_retryable (_status_state_observation state_file) (_status_git_observation c)
        (control_workflow_fingerprint c) (control_store c loads_yaml) (make_snapshot c) state ticket_id force;
  recast is_workspace_error DevlegateError (fun msg => msg)
    (Iteration.run_iteration c state_file loads_yaml randoms_md randoms_json texts (Some (mkIntent (Some ticket_id) force))).

Definition _retry_owned (ticket_id : string) (force : bool) : E Z :=
  stopped ← _stop_requested;
  if (stopped : bool) then mret 0%Z else
  state ← state_now;
  _ ← (if eq_str (get state "phase") "agent_running" && negb force
       then
         lost ← py_lift (in_strs (get state "execution_stage") ["worker-launch"; "worker-running"; "post-worker"]);
         if (lost : bool)
         then _ ← _reconcile_stranded_execution c state_file loads_yaml; mret tt
         else _recover_interrupted_execution ticket_id
       else mret tt);
  _retry_locked ticket_id force.

(** [_has_operator_recovery_required] *)
Definition _has_operator_recovery_required : E bool :=
  state ← state_now;
  if negb (eq_str (get state "phase") "agent_pending") then mret false else
  py_catch (inspection ← inspect_bound state; mret (wi_classification inspection =? "UNSAFE")%string)
    (fun e => is_devlegate_error e || is_os_error e || is_workspace_error e) (fun _ => mret true).
End Operations.
