(* ===== verification/Grounded.v ===== *)
(** What the operations of the engine leave alone: no operation but the forced
    retry changes the receipts of accepted requests, every one only appends to the
    record of effects, and all keep the database in agreement with the receipts in
    memory. *)

From S2P Require Import OperatorProtocol.
From S2P Require Export OwnerOperations.

Section Guards.
Context {W : Type} `{GitWorld W, !EngineWorld W, !HostWorld W}.
Context {St : Type} `{RuntimeStoreLaws St, !ObservableStore St}.
Variable state_file : string.

Abbreviation E := (py (engine (W := W) (St := St))).
Abbreviation engine := (engine (W := W) (St := St)).

(** Every state that was saved can be written as JSON. *)
Definition json_saved (l : list effect) : Prop := forall d, Saved d ∈ l -> json_ok (PDict d).

(** A service that starts on the database knows the same accepted requests. *)
Definition durable_receipts (s : engine) : Prop :=
  store_ok (du_store (en_durable s)) /\
  exists loaded, _load_state state_file None (du_store (en_durable s)) = Ok loaded /\
    register loaded = register (en_state s).

Lemma saved_ascii l : forallb (fun e => match e with Saved d => ascii_value (PDict d) | _ => true end) l = true ->
  json_saved l.
Proof. intros Hl d Hd. rewrite forallb_forall in Hl. by apply ascii_json_ok, (Hl (Saved d)), list_elem_of_In. Qed.

(** The engine has gone on from [s] to [s']. *)
Definition goes_to (s s' : engine) : Prop :=
  exists l, en_effects s' = en_effects s ++ l /\ (json_saved l -> durable_receipts s -> durable_receipts s').

Definition same_receipts (s s' : engine) : Prop :=
  dget (en_state s') "mutable_receipts" = dget (en_state s) "mutable_receipts".

Definition goes {A} (m : E A) : Prop := forall s, goes_to s (snd (m s)).
Definition guards {A} (m : E A) : Prop := forall s, goes_to s (snd (m s)) /\ same_receipts s (snd (m s)).

Lemma json_saved_app l l' : json_saved (l ++ l') -> json_saved l /\ json_saved l'.
Proof. intros Hl. split; intros d Hd; apply Hl, elem_of_app; auto. Qed.

Lemma goes_to_refl s : goes_to s s.
Proof. exists []. by rewrite app_nil_r. Qed.

Lemma goes_to_trans s1 s2 s3 : goes_to s1 s2 -> goes_to s2 s3 -> goes_to s1 s3.
Proof.
  intros (l & Hl & ?) (l' & Hl' & ?). exists (l ++ l'). split; [by rewrite Hl', Hl, app_assoc|].
  intros [? ?]%json_saved_app ?. auto.
Qed.

(** Nothing durable happens. *)
Lemma goes_to_quiet s s' l :
  en_durable s' = en_durable s -> en_effects s' = en_effects s ++ l -> goes_to s s'.
Proof.
  intros Hd Hl. exists l. split; [done|]. intros _ Hs. unfold durable_receipts, en_state in *. by rewrite Hd.
Qed.

Lemma guards_quiet {A} (m : E A) :
  (forall s, en_durable (snd (m s)) = en_durable s /\ exists l, en_effects (snd (m s)) = en_effects s ++ l) ->
  guards m.
Proof.
  intros Hm s. destruct (Hm s) as [Hd [l Hl]]. split; [by eapply goes_to_quiet|].
  unfold same_receipts, en_state. by rewrite Hd.
Qed.

Lemma guards_goes {A} (m : E A) : guards m -> goes m.
Proof. intros Hm s. apply Hm. Qed.

Lemma goes_bind {A B} (m : E A) (f : A -> E B) : goes m -> (forall a, goes (f a)) -> goes (m ≫= f).
Proof.
  intros Hm Hf s. specialize (Hm s). unfold mbind, py_bind.
  destruct (m s) as [[a|e] s1]; cbn in *; [|done]. eapply goes_to_trans; [done|apply Hf].
Qed.

Lemma guards_bind {A B} (m : E A) (f : A -> E B) : guards m -> (forall a, guards (f a)) -> guards (m ≫= f).
Proof.
  intros Hm Hf s. destruct (Hm s) as [Hg Hs]. unfold mbind, py_bind, same_receipts in *.
  destruct (m s) as [[a|e] s1]; cbn in *; [|done]. destruct (Hf a s1) as [Hg' Hs'].
  split; [by eapply goes_to_trans|]. unfold same_receipts in Hs'. by rewrite Hs'.
Qed.

Lemma guards_catch {A} (m : E A) p h : guards m -> (forall e, guards (h e)) -> guards (py_catch m p h).
Proof.
  intros Hm Hh s. destruct (Hm s) as [Hg Hs]. unfold py_catch, same_receipts in *.
  destruct (m s) as [[a|e] s1]; cbn in *; [done|]. destruct (p e); [|done].
  destruct (Hh e s1) as [Hg' Hs']. split; [by eapply goes_to_trans|]. unfold same_receipts in Hs'. by rewrite Hs'.
Qed.

Lemma guards_attempt {A} (m : E A) : guards m -> guards (attempt m).
Proof. intros Hm s. specialize (Hm s). unfold attempt. by destruct (m s). Qed.

Lemma guards_recast {A} p k f (m : E A) : guards m -> guards (recast p k f m).
Proof. intros Hm. apply guards_catch; [done|]. intros e s. split; [apply goes_to_refl|done]. Qed.

Ltac quiet := apply guards_quiet; intros s; split; [reflexivity | exists []; cbn; by rewrite app_nil_r].

Lemma guards_ret {A} (a : A) : guards (mret a). Proof. quiet. Qed.
Lemma guards_lift {A} (r : res A) : guards (py_lift r). Proof. quiet. Qed.
Lemma guards_raise {A} k msg : guards (A := A) (py_raise k msg). Proof. quiet. Qed.
Lemma guards_state : guards state_now. Proof. quiet. Qed.
Lemma guards_stored : guards stored. Proof. quiet. Qed.
Lemma guards_world : guards world. Proof. quiet. Qed.
Lemma guards_remembered {A} (f : memory -> A) : guards (remembered f). Proof. quiet. Qed.
Lemma guards_remember f : guards (remember f). Proof. quiet. Qed.
Lemma guards_stop : guards _stop_requested. Proof. quiet. Qed.
Lemma guards_intent : guards intent_now. Proof. quiet. Qed.
Lemma guards_id : guards new_execution_id. Proof. quiet. Qed.
Lemma guards_failure : guards next_failure. Proof. quiet. Qed.

Lemma guards_pure {A} (f : engine -> res A) : guards (fun s => (f s, s)). Proof. quiet. Qed.

Lemma guards_git {A} (m : py (logged W) A) : guards (on_git m).
Proof.
  apply guards_quiet. intros s. unfold on_git. destruct (m _) as [r l]. split; [done|]. by eexists.
Qed.

(** ** The database *)

Lemma canon_receipt_entry v : json_ok v -> receipt_entry (canon v) = receipt_entry v.
Proof.
  destruct v; try done. intros Hv. change (receipt_entry (canon (PDict d))) with
    (receipt_entry (PDict (dict_of (canon (PDict d))))). cbn [receipt_entry].
  pose proof (canon_read_back d (proj1 Hv)) as R. by rewrite !(rb_get _ _ R), !canon_str_of.
Qed.

Lemma json_ok_dget d k v : json_ok (PDict d) -> dget d k = Some v -> json_ok v.
Proof.
  intros [_ Hd]. induction d as [|[j w] d IH]; cbn in *; [done|]. destruct Hd as (_ & Hw & Hd).
  destruct (j =? k)%string; [by intros [= <-]|by apply IH].
Qed.

Lemma register_canon d : json_ok (PDict d) -> register (dict_of (canon (PDict d))) = register d.
Proof.
  intros Hd. pose proof (canon_read_back d (proj1 Hd)) as R. unfold register.
  rewrite (rb_get_or _ _ R) by done. unfold get_or.
  destruct (dget d "mutable_receipts") as [v|] eqn:Hv; [|done]. cbn [default from_option Datatypes.id].
  pose proof (json_ok_dget _ _ _ Hd Hv) as Hok. destruct v as [| | | | | |r]; try done.
  change (omap receipt_entry (list_to_map (dict_of (canon (PDict r))) : gmap string pyval) =
          omap receipt_entry (list_to_map r)).
  apply map_eq. intros k. rewrite !lookup_omap, !list_to_map_dget, canon_dget by apply Hok.
  destruct (dget r k) as [w|] eqn:Hw; [|done]. cbn. apply canon_receipt_entry. by eapply json_ok_dget.
Qed.

(** An engine whose memory is what its database holds. *)
Lemma consistent_durable s : consistent state_file (en_durable s) -> json_ok (PDict (en_state s)) ->
  durable_receipts s.
Proof. intros (_ & Hs & Hl) Hok. split; [done|]. eexists. split; [exact Hl|]. by apply register_canon. Qed.

Lemma goes_save phase o : goes (save phase o).
Proof.
  intros s. unfold save, next_failure, save_under, mbind, py_bind. cbn.
  set (f := hd None _). unfold _save_state. set (state := next_state _ _ _).
  destruct (_validate_state_invariant state) as [[]|e] eqn:Hv; cbn.
  2: { by eapply (goes_to_quiet _ _ []). }
  destruct (store_replace f state (du_store (en_durable s))) as [[[]|e] s'] eqn:Hr; cbn.
  - exists [Saved state]. split; [done|]. intros Hj [Hs _].
    assert (Hok : json_ok (PDict state)) by (apply Hj; by left).
    pose proof (replace_keeps_ok f state _ Hs) as Hs'. rewrite Hr in Hs'. split; [done|].
    eexists. split; [apply load_saved; [done|done|exact (load_after_replace _ _ _ _ Hs Hok Hr)]|].
    by apply register_canon.
  - exists []. split; [by unfold as_devlegate, catch; destruct (is_class _ _)|].
    intros _ (Hs & loaded & Hl & Hreg). pose proof (replace_keeps_ok f state _ Hs) as Hs'. rewrite Hr in Hs'.
    split; [done|]. exists loaded. split; [|done].
    destruct (load_state_reads _ _ _ Hl) as (v & Hv' & Hall). apply Hall.
    exact (load_after_failure _ _ _ _ _ _ Hr Hv').
Qed.

Lemma dget_dmerge_none (d fields : dict) k : dget fields k = None -> dget (dmerge d fields) k = dget d k.
Proof.
  unfold dmerge. revert d. induction fields as [|[j v] fields IH]; cbn; intros d Hk; [done|].
  destruct (j =? k)%string eqn:Hj; [done|]. rewrite IH by done. rewrite dget_dset_ne; [done|].
  by apply String.eqb_neq.
Qed.

Lemma dget_app_none (d e : dict) k : dget d k = None -> dget e k = None -> dget (d ++ e) k = None.
Proof. induction d as [|[j v] d IH]; cbn; [done|]. by destruct (j =? k)%string. Qed.

Lemma next_state_receipts current phase o : dget (so_fields o) "mutable_receipts" = None ->
  dget (next_state current phase o) "mutable_receipts" = dget current "mutable_receipts".
Proof.
  intros Hf. pose proof receipts_not_cleared as Hk. unfold cleared_names in Hk. rewrite !not_elem_of_app in Hk.
  destruct Hk as (Hi & Hw & He & Hg & Ho).
  assert (He' : forall b, "mutable_receipts" ∉ execution_cleared b).
  { intros []; [|done]. intros Hin. apply He. unfold execution_cleared in *.
    rewrite app_nil_r in Hin. apply elem_of_app. by left. }
  unfold next_state.
  repeat match goal with |- context [if ?b then _ else _] => destruct b end;
    rewrite ?dget_dpops_ne by auto; rewrite ?dget_dset_ne by done;
    rewrite ?dget_dpops_ne by auto; rewrite dget_dmerge_none by done; by apply dget_dmerge_none.
Qed.

Lemma guards_save phase o : dget (so_fields o) "mutable_receipts" = None -> guards (save phase o).
Proof.
  intros Ho s. split; [apply goes_save|].
  unfold save, next_failure, save_under, mbind, py_bind, same_receipts. cbn.
  unfold _save_state. destruct (_validate_state_invariant _) as [[]|e]; [|done].
  destruct (store_replace _ _ _) as [[[]|e] s']; cbn; [|done]. by apply next_state_receipts.
Qed.

Lemma guards_fields phase fields : dget fields "mutable_receipts" = None -> guards (save_fields phase fields).
Proof. intros Hf. by apply guards_save. Qed.

Lemma guards_assign v : guards (assign_base v).
Proof.
  intros s. assert (Hr : same_receipts s (snd (assign_base v s)))
    by (unfold same_receipts, en_state; cbn; by rewrite dget_dset_ne).
  split; [|exact Hr]. exists []. cbn. rewrite app_nil_r. split; [done|].
  intros _ (Hs & loaded & Hl & Hreg). split; [done|]. exists loaded. split; [done|].
  rewrite Hreg. symmetry. by apply register_cong.
Qed.
End Guards.

Create HintDb guards.
#[export] Hint Resolve guards_ret guards_lift guards_raise guards_state guards_stored guards_world
  guards_remembered guards_remember guards_stop guards_intent guards_id guards_failure guards_git
  guards_assign : guards.

(** One syntactic step through a computation of the engine; a definition without a
    lemma is unfolded. *)
Ltac head_of t := lazymatch t with ?f _ => head_of f | _ => t end.
Ltac guards_step :=
  lazymatch goal with
  | |- guards _ (_ ≫= _) => apply guards_bind; [|intros ?]
  | |- guards _ (turn_bind _ _) => apply guards_bind; [|intros [?|?]]
  | |- guards _ (match ?x with _ => _ end) => destruct x
  | |- guards _ (py_catch _ _ _) => apply guards_catch; [|intros ?]
  | |- guards _ (attempt _) => apply guards_attempt
  | |- guards _ (recast _ _ _ _) => apply guards_recast
  | |- guards _ (save_fields _ _) => apply guards_fields; try reflexivity
  | |- guards _ (save _ _) => apply guards_save; try reflexivity
  | |- guards _ (fun _ => (_, _)) => apply guards_pure
  | |- guards _ (let x := _ in _) => cbv zeta
  | |- guards _ ?m => first [solve [trivial with guards] | let h := head_of m in unfold h; cbv beta iota]
  end.
Ltac guards_auto := repeat guards_step.

Section Operations.
Context {W : Type} `{GitWorld W, !EngineWorld W, !HostWorld W}.
Context {St : Type} `{RuntimeStoreLaws St, !ObservableStore St}.
Variable c : settings.
Variable state_file : string.
Variable loads_yaml : string -> string + dict.
Variables (randoms_md randoms_json : list string).
Variable texts : prompt_texts.

Abbreviation guarded := (guards (W := W) (St := St) state_file).

(** ** Views *)

Lemma guards_snapshot u : guarded (_publish_service_snapshot u).
Proof. guards_auto. Qed.
#[local] Hint Resolve guards_snapshot : guards.

Lemma guards_store : guarded (control_store c loads_yaml).
Proof. guards_auto. Qed.
#[local] Hint Resolve guards_store : guards.

Lemma guards_evidence : guarded live_execution_evidence.
Proof. guards_auto. Qed.
#[local] Hint Resolve guards_evidence : guards.

Lemma guards_observation : guarded (_status_state_observation state_file).
Proof. guards_auto. Qed.

Lemma guards_git_observation : guarded (_status_git_observation c).
Proof. guards_auto. Qed.

Lemma guards_view state git store error : guarded (make_snapshot c state git store error).
Proof. guards_auto. Qed.
#[local] Hint Resolve guards_observation guards_git_observation guards_view : guards.

Lemma guards_publish snapshot : guarded (_publish_status_snapshot c loads_yaml snapshot).
Proof. guards_auto. Qed.
#[local] Hint Resolve guards_publish : guards.

Lemma guards_attempts n allow :
  guarded (attempts (_status_state_observation state_file) (_status_git_observation c)
             (control_workflow_fingerprint c) (control_store c loads_yaml) (make_snapshot c) n allow).
Proof. induction n as [|n IH]; cbn [attempts]; guards_auto. Qed.
#[local] Hint Resolve guards_attempts : guards.

Lemma guards_status : guarded (_status_view c state_file loads_yaml).
Proof. guards_auto. Qed.
#[local] Hint Resolve guards_status : guards.

Lemma guards_refresh : guarded (refresh c state_file loads_yaml).
Proof. guards_auto. Qed.
#[local] Hint Resolve guards_refresh : guards.

(** ** Ends and recoveries *)

Lemma final_fields_free state report control_head todo_fingerprint o :
  dget (final_fields state report control_head todo_fingerprint o) "mutable_receipts" = None.
Proof.
  unfold final_fields, completed_retry. cbv zeta. rewrite dget_dmerge_none; [reflexivity|].
  repeat apply dget_app_none; repeat case_match; reflexivity.
Qed.

Lemma guards_finalize report head o :
  guarded (_finalize_execution_lifecycle c state_file loads_yaml report head o).
Proof. guards_auto. apply final_fields_free. Qed.
#[local] Hint Resolve guards_finalize : guards.

Lemma guards_complete report :
  guarded (_complete_execution_lifecycle c state_file loads_yaml randoms_md randoms_json report).
Proof. guards_auto. Qed.
#[local] Hint Resolve guards_complete : guards.

Lemma guards_reconciliation report product remote :
  guarded (_persist_product_reconciliation c report product remote).
Proof. guards_auto. Qed.
#[local] Hint Resolve guards_reconciliation : guards.

Lemma guards_checkpoint_publication : guarded (_recover_checkpoint_publication c loads_yaml).
Proof. guards_auto. Qed.
#[local] Hint Resolve guards_checkpoint_publication : guards.

Lemma guards_lifecycle_report : guarded (_recover_lifecycle_report c).
Proof. guards_auto. Qed.
#[local] Hint Resolve guards_lifecycle_report : guards.

Lemma guards_normalize kind : guarded (_normalize_stranded_execution c state_file loads_yaml kind).
Proof. guards_auto. Qed.
#[local] Hint Resolve guards_normalize : guards.

Lemma guards_stranded : guarded (_reconcile_stranded_execution c state_file loads_yaml).
Proof. guards_auto. Qed.
#[local] Hint Resolve guards_stranded : guards.

Lemma guards_unsafe k x head : guarded (_recover_unsafe_bound_execution_workspace c k x head).
Proof. guards_auto. Qed.
#[local] Hint Resolve guards_unsafe : guards.

Lemma guards_drop k x : guarded (_drop_owned c k x).
Proof. guards_auto. Qed.
#[local] Hint Resolve guards_drop : guards.

Lemma guards_resume k : guarded (_reconcile_resume_owned c state_file loads_yaml randoms_md randoms_json k).
Proof. guards_auto. Qed.
#[local] Hint Resolve guards_resume : guards.

(** ** The iteration *)

Lemma guards_synchronize : guarded (synchronize c).
Proof. guards_auto. Qed.
#[local] Hint Resolve guards_synchronize : guards.

Lemma guards_persisted authorization :
  guarded (resume_persisted c state_file loads_yaml randoms_md randoms_json authorization).
Proof. guards_auto. Qed.
#[local] Hint Resolve guards_persisted : guards.

Lemma guards_plan pending synced heads authorization :
  guarded (make_plan_now c state_file loads_yaml pending synced heads authorization).
Proof. guards_auto. Qed.
#[local] Hint Resolve guards_plan : guards.

Lemma guards_integrate plan synced : guarded (integrate_first c state_file loads_yaml plan synced).
Proof. guards_auto. Qed.
#[local] Hint Resolve guards_integrate : guards.

Lemma guards_admit phase heads synced store plan ticket authorization :
  guarded (admit_in c phase heads synced store plan ticket authorization).
Proof. guards_auto. Qed.
#[local] Hint Resolve guards_admit : guards.

Lemma guards_calls calls : guarded (handle_calls c state_file loads_yaml calls).
Proof. induction calls; guards_auto. Qed.
#[local] Hint Resolve guards_calls : guards.

Lemma guards_start workspace prompt execution_id : guarded (start_worker workspace prompt execution_id).
Proof.
  apply guards_quiet. intros s. unfold start_worker. destruct (hw_start _ _ _ _) as [[calls|] w]; cbn; eauto.
Qed.

Lemma guards_finish execution_id outcomes : guarded (finish_worker execution_id outcomes).
Proof.
  apply guards_quiet. intros s. unfold finish_worker. destruct (hw_finish _ _ _) as [r w]. cbn. eauto.
Qed.
#[local] Hint Resolve guards_start guards_finish : guards.

Lemma guards_work workspace prompt execution_id :
  guarded (work c state_file loads_yaml workspace prompt execution_id).
Proof. guards_auto. Qed.
#[local] Hint Resolve guards_work : guards.

Lemma guards_after synced t execution_id remote workspace run :
  guarded (after_worker c state_file loads_yaml randoms_md randoms_json synced t execution_id remote workspace run).
Proof. guards_auto. Qed.
#[local] Hint Resolve guards_after : guards.

Lemma guards_execute synced bound plan ad :
  guarded (execute c state_file loads_yaml randoms_md randoms_json texts synced bound plan ad).
Proof. guards_auto. Qed.
#[local] Hint Resolve guards_execute : guards.

Lemma guards_iteration intent :
  guarded (Iteration.run_iteration c state_file loads_yaml randoms_md randoms_json texts intent).
Proof. guards_auto. Qed.
#[local] Hint Resolve guards_iteration : guards.

(** ** The operator's commands *)

Lemma guards_update_base k onto authorized : guarded (_reconcile_update_base_owned c k onto authorized).
Proof. guards_auto. Qed.

Lemma guards_control from_head to_head : guarded (_reconcile_control_owned c loads_yaml from_head to_head).
Proof. guards_auto. Qed.

Lemma guards_retry k force : guarded (_retry_owned c state_file loads_yaml randoms_md randoms_json texts k force).
Proof. guards_auto. Qed.

Lemma guards_recovery_required : guarded (_has_operator_recovery_required c).
Proof. guards_auto. Qed.

Lemma guards_retry_admission k force : guarded (_validate_retry_admission c state_file loads_yaml k force).
Proof. guards_auto. Qed.

Lemma guards_drop_admission k x : guarded (_validate_drop_admission c k x).
Proof. guards_auto. Qed.

Lemma guards_recover_admission k x head : guarded (_validate_recover_admission c k x head).
Proof. guards_auto. Qed.

Lemma guards_reconcile_admission command : guarded (_validate_reconcile_admission c command).
Proof. guards_auto. Qed.

Lemma guards_auto_admission command : guarded (_validate_reconcile_auto_admission c command).
Proof. guards_auto. Qed.

Lemma guards_resume_admission k : guarded (_validate_reconcile_resume_admission k).
Proof. guards_auto. Qed.

Lemma guards_control_admission from_head to_head :
  guarded (_validate_control_reconcile_admission c from_head to_head).
Proof. guards_auto. Qed.

(** ** The forced retry *)

(** When the computation raises, the receipts are what they were. *)
Definition fails_safely {A} (m : py (engine (W := W) (St := St)) A) : Prop :=
  forall s e s', m s = (Raise e, s') -> same_receipts s s'.

Lemma fails_bind {A B} (m : py engine A) (f : A -> py engine B) :
  guarded m -> (forall a, fails_safely (f a)) -> fails_safely (m ≫= f).
Proof.
  intros Hm Hf s e s'. destruct (Hm s) as [_ Hs]. unfold mbind, py_bind, same_receipts in *.
  destruct (m s) as [[a|x] s1]; cbn in *.
  - intros Hr. specialize (Hf a s1 e s' Hr). unfold same_receipts in Hf. by rewrite Hf.
  - by intros [= <- <-].
Qed.

Lemma save_outcome phase o (s s' : engine (W := W) (St := St)) r : save phase o s = (r, s') ->
  match r with
  | Ok _ => en_state s' = next_state (en_state s) phase o
  | Raise _ => en_state s' = en_state s
  end.
Proof.
  unfold save, next_failure, save_under, mbind, py_bind. cbn. unfold _save_state, en_state.
  destruct (_validate_state_invariant _) as [[]|e]; cbn; [|by intros [= <- <-]].
  destruct (store_replace _ _ _) as [[[]|e] d]; cbn; [by intros [= <- <-]|].
  unfold as_devlegate, catch. destruct (is_class _ _); by intros [= <- <-].
Qed.

Lemma fails_save phase o : fails_safely (save phase o).
Proof. intros s e s' Hs. apply save_outcome in Hs. unfold same_receipts. by rewrite Hs. Qed.

Lemma forced_goes k id receipt receipts :
  goes state_file (_force_retry_transition (W := W) (St := St) c k id receipt receipts).
Proof.
  unfold _force_retry_transition.
  repeat match goal with
  | |- goes _ (_ ≫= _) => apply goes_bind; [apply guards_goes; guards_auto | intros ?]
  end. apply goes_save.
Qed.

Lemma forced_fails k id receipt receipts :
  fails_safely (_force_retry_transition (W := W) (St := St) c k id receipt receipts).
Proof.
  unfold _force_retry_transition.
  repeat match goal with
  | |- fails_safely (_ ≫= _) => apply fails_bind; [guards_auto | intros ?]
  end. apply fails_save.
Qed.

Lemma forced_effect k id receipt receipts s s' :
  _force_retry_transition (W := W) (St := St) c k id receipt receipts s = (Ok tt, s') ->
  dget (en_state s') "mutable_receipts" = Some (PDict (dset receipts id (PDict receipt))).
Proof.
  unfold _force_retry_transition. intros Hs.
  repeat match type of Hs with (_ ≫= _) _ = _ => apply py_bind_ok in Hs as (? & ? & _ & Hs) end.
  apply save_outcome in Hs. rewrite Hs, next_state_field; [reflexivity|apply receipts_not_cleared|done|].
  apply (bool_decide_unpack _). vm_compute. exact I.
Qed.
End Operations.
