(* ===== verification/OwnerSteps.v ===== *)
(** The service with its engine: the operations of the engine are what the command
    protocol of Operator.v was proved against, and what the owner thread does from
    step to step is what those operations do. *)

From S2P Require Export OperatorProtocol.

(** * A relation that the engine's operations keep *)

Section Steps.
Context {E : Type} `{OwnerEngine E}.
Variable R : E -> E -> Prop.
Hypothesis R_refl : forall e, R e e.
Hypothesis R_trans : forall e1 e2 e3, R e1 e2 -> R e2 e3 -> R e1 e3.

Definition moves {A} (m : py E A) : Prop := forall e, R e (snd (m e)).

(** Every operation that the protocol calls moves the engine along the relation. *)
Record engine_moves : Prop := {
  mv_save : forall phase o, moves (eng_save phase o);
  mv_drain : forall e, R e (workers_begin_drain e);
  mv_retry : forall k force, moves (_validate_retry_admission k force);
  mv_drop : forall k x, moves (_validate_drop_admission k x);
  mv_recover : forall k x h, moves (_validate_recover_admission k x h);
  mv_reconcile : forall c, moves (_validate_reconcile_admission c);
  mv_auto : forall c, moves (_validate_reconcile_auto_admission c);
  mv_resume : forall k, moves (_validate_reconcile_resume_admission k);
  mv_control : forall a b, moves (_validate_control_reconcile_admission a b);
  mv_drop_owned : forall k x, moves (_drop_owned k x);
  mv_forced : forall k id receipt receipts, moves (_force_retry_transition k id receipt receipts);
  mv_retry_owned : forall k force, moves (_retry_owned k force);
  mv_recover_owned : forall k x h, moves (_recover_unsafe_bound_execution_workspace k x h);
  mv_resume_owned : forall k, moves (_reconcile_resume_owned k);
  mv_update_owned : forall k h b, moves (_reconcile_update_base_owned k h b);
  mv_control_owned : forall a b, moves (_reconcile_control_owned a b);
  mv_iteration : moves run_iteration;
  mv_required : moves _has_operator_recovery_required;
  mv_refresh : moves refresh_views
}.
Hypothesis HM : engine_moves.

Lemma moves_ret {A} (a : A) : moves (mret a). Proof. by intros e. Qed.
Lemma moves_raise {A} k msg : moves (A := A) (py_raise k msg). Proof. by intros e. Qed.
Lemma moves_lift {A} (r : res A) : moves (py_lift r). Proof. by intros e. Qed.
Lemma moves_get : moves py_get. Proof. by intros e. Qed.
Lemma moves_ensure b k msg : moves (py_ensure b k msg). Proof. by destruct b. Qed.

Lemma moves_bind {A B} (m : py E A) (f : A -> py E B) : moves m -> (forall a, moves (f a)) -> moves (m ≫= f).
Proof.
  intros Hm Hf e. specialize (Hm e). unfold mbind, py_bind. destruct (m e) as [[a|x] e1]; cbn in *; [|done].
  eapply R_trans; [done|apply Hf].
Qed.

Lemma moves_catch {A} (m : py E A) p h : moves m -> (forall x, moves (h x)) -> moves (py_catch m p h).
Proof.
  intros Hm Hh e. specialize (Hm e). unfold py_catch. destruct (m e) as [[a|x] e1]; cbn in *; [done|].
  destruct (p x); [|done]. eapply R_trans; [done|apply Hh].
Qed.

Ltac moves_auto := repeat first
  [ apply moves_bind; [|intros ?] | apply moves_ret | apply moves_raise | apply moves_lift | apply moves_get
  | apply moves_ensure | solve [apply HM]
  | match goal with |- moves (match ?x with _ => _ end) => destruct x end ].

Lemma validate_moves c : moves (_validate_operator_admission c).
Proof. unfold _validate_operator_admission. moves_auto. Qed.

Lemma record_moves c : moves (_record_operator_admission c).
Proof. unfold _record_operator_admission. moves_auto. Qed.

Lemma admit_moves draining c : moves (admit_body draining c).
Proof. unfold admit_body. moves_auto. apply validate_moves. Qed.

Lemma dispatch_moves c : moves (_dispatch_operator_command c).
Proof. unfold _dispatch_operator_command. moves_auto. Qed.

Lemma tolerated_moves once : moves (tolerated once).
Proof. unfold tolerated. moves_auto. Qed.

Lemma turn_moves once operator r e : R e (snd (turn_of once operator r e)).
Proof.
  unfold turn_of, settle. destruct r as [z|x]; [done|]. pose proof (tolerated_moves once e) as Ht.
  repeat case_match; subst; cbn in *; try done; simplify_eq; done.
Qed.

Lemma settled_moves once operator claimed r s : R (ss_engine s) (ss_engine (snd (settled once operator claimed r s))).
Proof.
  unfold settled. pose proof (turn_moves once operator r (ss_engine s)) as Ht.
  destruct (turn_of _ _ _ _) as [t e]. cbn in *. destruct r as [z|x]; [done|]. by destruct (is_class _ _).
Qed.

Lemma engine_settled (m : py E Z) once operator claimed (s : service E) r s1 : moves m ->
  in_engine m s = (r, s1) -> R (ss_engine s) (ss_engine (snd (settled once operator claimed r s1))).
Proof.
  intros Hm. unfold in_engine. specialize (Hm (ss_engine s)). destruct (m (ss_engine s)) as [r1 e].
  intros [= <- <-]. eapply R_trans; [exact Hm|]. apply (settled_moves once operator claimed r1 (with_engine e s)).
Qed.

Lemma rest_moves once refresh status s : R (ss_engine s) (ss_engine (snd (rest once refresh status s))).
Proof.
  unfold rest.
  assert (Hr : moves (if refresh then py_catch refresh_views is_devlegate_error (fun _ => mret tt) else mret tt)).
  { destruct refresh; [|apply moves_ret]. apply moves_catch; [apply HM|intros x; apply moves_ret]. }
  specialize (Hr (ss_engine s)). destruct (_ (ss_engine s)) as [r e]. cbn in Hr.
  unfold leave_loop, _reject_pending_operator_command_on_shutdown.
  repeat case_match; done.
Qed.

Lemma admit_locked_moves c s : R (ss_engine s) (ss_engine (snd (admit_locked c s))).
Proof.
  unfold admit_locked. destruct (q_commands _ !! c) as [cmd|]; [|done].
  pose proof (admit_moves (_lifecycle_drain_pending s) cmd (ss_engine s)) as Hm.
  destruct (admit_body _ _ _) as [[[cmd' ack]|x] e]; exact Hm.
Qed.

Lemma owner_moves once pc s l pc' s' : owner_step once pc s = Some (l, pc', s') ->
  R (ss_engine s) (ss_engine s').
Proof.
  destruct pc as [| |c|c r|c|claimed|operator claimed t|refresh status|r]; cbn; intros Ho.
  - destruct (_lifecycle_exit_ready s) as [ready|x]; [|by injection Ho as <- <- <-].
    destruct (_ || _); injection Ho as <- <- <-; [|done].
    unfold leave_loop, _reject_pending_operator_command_on_shutdown. cbn. by case_match.
  - destruct (_claim_owner_work true s) as [[[c|] claimed] s1] eqn:Hc; injection Ho as <- <- <-;
      unfold _claim_owner_work in Hc; repeat case_match; by simplify_eq.
  - pose proof (admit_locked_moves c s) as Ha. destruct (admit_locked c s) as [r s1].
    destruct (q_commands _ !! c); [|done]. by injection Ho as <- <- <-.
  - destruct r as [[]|x]; [by injection Ho as <- <- <-|].
    pose proof (settled_moves once true false (Raise x) (publish_admission c (Raise x) s)) as Hs.
    destruct (settled _ _ _ _ _) as [pc1 s1]. by injection Ho as <- <- <-.
  - destruct (q_commands _ !! c) as [cmd|]; [|done].
    destruct (in_engine _ s) as [r s1] eqn:Hi.
    pose proof (engine_settled _ once true false s r s1 (dispatch_moves cmd) Hi) as Hs.
    destruct (settled _ _ _ _ _) as [pc1 s2]. by injection Ho as <- <- <-.
  - destruct (in_engine _ s) as [r s1] eqn:Hi.
    pose proof (engine_settled _ once false claimed s r s1 (mv_iteration HM) Hi) as Hs.
    destruct (settled _ _ _ _ _) as [pc1 s2]. by injection Ho as <- <- <-.
  - destruct t as [status|r]; injection Ho as <- <- <-; by repeat case_match.
  - pose proof (rest_moves once refresh status s) as Hr. destruct (rest _ _ _ _) as [pc1 s1].
    by injection Ho as <- <- <-.
  - done.
Qed.

(** The same, of a computation of the service. *)
Definition passes {A} (m : py (service E) A) : Prop := forall s, R (ss_engine s) (ss_engine (snd (m s))).

Lemma passes_bind {A B} (m : py (service E) A) (f : A -> py (service E) B) :
  passes m -> (forall a, passes (f a)) -> passes (m ≫= f).
Proof.
  intros Hm Hf s. specialize (Hm s). unfold mbind, py_bind. destruct (m s) as [[a|x] s1]; cbn in *; [|done].
  eapply R_trans; [done|apply Hf].
Qed.

Lemma passes_quiet {A} (m : py (service E) A) : (forall s, ss_engine (snd (m s)) = ss_engine s) -> passes m.
Proof. intros Hm s. by rewrite Hm. Qed.

Lemma passes_engine {A} (m : py E A) : moves m -> passes (in_engine m).
Proof. intros Hm s. specialize (Hm (ss_engine s)). unfold in_engine. by destruct (m _). Qed.

Lemma request_abort_engine (s : service E) : ss_engine (request_abort s) = ss_engine s.
Proof. unfold request_abort. by case_match. Qed.

Lemma passes_modify (f : service E -> service E) : (forall s, R (ss_engine s) (ss_engine (f s))) -> passes (py_modify f).
Proof. intros Hf s. apply Hf. Qed.

Ltac passes_auto := repeat first
  [ apply passes_bind; [|intros ?]
  | match goal with |- passes (match ?x with _ => _ end) => destruct x end
  | solve [by apply passes_quiet]
  | match goal with |- passes (py_modify _) => apply passes_modify; intros s' end ].

Lemma lifecycle_moves intent id force : passes (request_lifecycle intent id force).
Proof.
  unfold request_lifecycle, begin_lifecycle. passes_auto; cbn; try done; try apply HM.
  - destruct force; [|done]. by rewrite request_abort_engine.
  - apply passes_engine, HM.
  - destruct force; [|done]. by rewrite request_abort_engine.
Qed.

Lemma submit_moves u : passes (_submit_operator_command u).
Proof. unfold _submit_operator_command. passes_auto. all: by apply passes_quiet; intros ?; case_match. Qed.

Lemma step_moves once k l k' : step once k l k' -> R (ss_engine (cf_service k)) (ss_engine (cf_service k')).
Proof.
  destruct 1 as [s pc ws l pc' s' Ho|s pc ws u ack s' Hs|s pc ws u x s' Hs|s pc ws u c fresh s' Hs
    |s pc ws1 ws2 u c cmd Hc He|s pc ws1 ws2 u c|s pc ws intent id force r s' Hl|s pc ws i Hi|s pc ws]; cbn.
  - by eapply owner_moves.
  - pose proof (submit_moves u s) as Hm. by rewrite Hs in Hm.
  - pose proof (submit_moves u s) as Hm. by rewrite Hs in Hm.
  - pose proof (submit_moves u s) as Hm. rewrite Hs in Hm. by destruct fresh.
  - done.
  - unfold abandon. by case_match.
  - pose proof (lifecycle_moves intent id force s) as Hm. by rewrite Hl in Hm.
  - unfold request_abort. by case_match.
  - done.
Qed.

Lemma steps_move once k ls k' : steps once k ls k' -> R (ss_engine (cf_service k)) (ss_engine (cf_service k')).
Proof.
  induction 1 as [k|k l k1 ls k2 Hs _ IH]; [done|]. eapply R_trans; [by eapply step_moves|done].
Qed.
End Steps.
