(* ===== verification/Owner.v ===== *)
(** The service with its engine.  The operations of the engine are what the command
    protocol of Operator.v was proved against: the interface [OwnerEngine] is
    instantiated with them and its laws are proved.  What the protocol promises a
    client then holds of the engine's database. *)

From S2P Require Import OwnerSteps.
From S2P Require Export Grounded.

(** The supervision of workers: how many are active, and the end of launches. *)
Class WorkerDrain (W : Type) : Type := {
  hw_active : W -> Z;
  hw_begin_drain : W -> W
}.

Section Owner.
Context {W : Type} `{GitWorld W, !EngineWorld W, !HostWorld W, !WorkerDrain W}.
Context {St : Type} `{RuntimeStoreLaws St, !ObservableStore St}.
Variable c : settings.
Variable state_file : string.
Variable loads_yaml : string -> string + dict.
Variables (randoms_md randoms_json : list string).
Variable texts : prompt_texts.

Abbreviation engine := (engine (W := W) (St := St)).

(** [self.status_view()] at the end of a turn. *)
Definition view_status : py engine unit := _ ← _status_view c state_file loads_yaml; mret tt.

Definition drain_workers (s : engine) : engine := set_world (hw_begin_drain (en_world s)) [] s.

#[local] Instance service_engine : OwnerEngine engine := {|
  Operator.eng_state := en_state;
  Operator.eng_save := save;
  Operator.active_workers := fun s => hw_active (en_world s);
  Operator.workers_begin_drain := drain_workers;
  Operator.owned_execution := fun s => me_owned_execution_id (en_memory s);
  Operator.foreground_abort_requested := fun s => me_foreground_abort (en_memory s);
  Operator._validate_retry_admission := _validate_retry_admission c state_file loads_yaml;
  Operator._validate_drop_admission := _validate_drop_admission c;
  Operator._validate_recover_admission := _validate_recover_admission c;
  Operator._validate_reconcile_admission := _validate_reconcile_admission c;
  Operator._validate_reconcile_auto_admission := _validate_reconcile_auto_admission c;
  Operator._validate_reconcile_resume_admission := _validate_reconcile_resume_admission;
  Operator._validate_control_reconcile_admission := _validate_control_reconcile_admission c;
  Operator._drop_owned := _drop_owned c;
  Operator._force_retry_transition := _force_retry_transition c;
  Operator._retry_owned := _retry_owned c state_file loads_yaml randoms_md randoms_json texts;
  Operator._recover_unsafe_bound_execution_workspace := _recover_unsafe_bound_execution_workspace c;
  Operator._reconcile_resume_owned :=
    _reconcile_resume_owned c state_file loads_yaml randoms_md randoms_json;
  Operator._reconcile_update_base_owned := _reconcile_update_base_owned c;
  Operator._reconcile_control_owned := _reconcile_control_owned c loads_yaml;
  Operator.run_iteration :=
    Iteration.run_iteration c state_file loads_yaml randoms_md randoms_json texts None;
  Operator._has_operator_recovery_required := _has_operator_recovery_required c;
  Operator.refresh_views := view_status
|}.

(** * The laws of the interface *)

Lemma guards_keeps {A} (m : py engine A) : guards state_file m -> keeps_receipts m.
Proof. intros Hm s. apply Hm. Qed.

Lemma canonical_is_head value head (s s' : logged W) h :
  _canonical_reconcile_assertion c value head s = (Ok h, s') -> h = head.
Proof.
  unfold _canonical_reconcile_assertion, engine_error. destruct (_ =? _)%string; [done|].
  destruct (short_prefix value); [done|]. intros (r & s1 & _ & Hs)%py_bind_ok.
  destruct (failed r); [done|]. destruct (names r head); [|done]. by injection Hs.
Qed.

Lemma deny_ok b msg (s : engine) u s' : deny b msg s = (Ok u, s') -> b = false.
Proof. by destruct b. Qed.

Lemma agreed_heads product : heads_disagree product = false -> pg_local_head product <> "".
Proof. unfold heads_disagree. intros [Hp _]%orb_false_iff. by apply String.eqb_neq. Qed.

Lemma on_git_ok {A} (m : py (logged W) A) (s : engine) a s' : on_git m s = (Ok a, s') ->
  exists l, m (mkLogged (en_world s) []) = (Ok a, l).
Proof. unfold on_git. destruct (m _) as [[b|x] l]; [|done]. intros [= -> _]. by exists l. Qed.

Lemma reconcile_has_target command (s : engine) h s' :
  _validate_reconcile_admission c command s = (Ok h, s') -> h <> "".
Proof.
  unfold _validate_reconcile_admission. intros ([d product] & s1 & _ & Hs)%py_bind_ok.
  apply py_bind_ok in Hs as (? & s2 & Hd%deny_ok%agreed_heads & Hs).
  apply py_bind_ok in Hs as (? & s3 & _ & Hs). destruct (oc_onto command) as [onto|].
  - apply on_git_ok in Hs as [l ->%canonical_is_head]. done.
  - by injection Hs as <- _.
Qed.

Lemma auto_has_target command (s : engine) onto cls s' :
  _validate_reconcile_auto_admission c command s = (Ok (onto, cls), s') ->
  cls <> "" /\ onto <> Some "" /\ (onto = None -> oc_onto command = None).
Proof.
  unfold _validate_reconcile_auto_admission. intros ([d product] & s1 & _ & Hs)%py_bind_ok.
  apply py_bind_ok in Hs as (? & s2 & _ & Hs).
  apply py_bind_ok in Hs as (? & s3 & Hd%deny_ok%agreed_heads & Hs).
  apply py_bind_ok in Hs as (onto' & s4 & Ho & Hs). injection Hs as -> <- _.
  split; [by repeat case_match|]. destruct (oc_onto command) as [o|].
  - apply py_bind_ok in Ho as (h & s5 & [l ->%canonical_is_head]%on_git_ok & Ho).
    injection Ho as <- _. split; [|done]. intros [= Hh]. by apply Hd.
  - injection Ho as <- _. destruct (pg_stable product); split; try done. intros [= Hh]. by apply Hd.
Qed.

Lemma guards_view_status : guards state_file view_status.
Proof. apply guards_bind; [apply guards_status|intros a; apply guards_ret]. Qed.

#[local] Hint Resolve guards_retry_admission guards_drop_admission guards_recover_admission
  guards_reconcile_admission guards_auto_admission guards_resume_admission guards_control_admission guards_drop
  guards_retry guards_unsafe guards_resume guards_update_base guards_control guards_iteration
  guards_recovery_required guards_view_status : owned.

Lemma engine_laws_hold : OwnerEngineLaws engine.
Proof.
  split; try (intros; apply guards_keeps; cbn; auto with owned; fail); cbn.
  - intros phase o s s' Hs. exact (save_outcome _ _ _ _ _ Hs).
  - intros phase o s x s' Hs. exact (save_outcome _ _ _ _ _ Hs).
  - done.
  - done.
  - intros command s h s'. apply reconcile_has_target.
  - intros command s onto cls s'. apply auto_has_target.
  - intros k id receipt receipts s s'. apply forced_effect.
  - intros k id receipt receipts s x s' Hs. exact (forced_fails c state_file k id receipt receipts _ _ _ Hs).
Qed.
#[local] Instance engine_laws : OwnerEngineLaws engine := engine_laws_hold.

(** C11: the engine implements the interface.  What the protocol of operators'
    commands relies on holds of the engine that the service runs: a save takes
    effect completely or changes nothing; the validators, the operations that a
    command is dispatched to, an iteration with its recoveries and its worker, and
    the refreshed views leave the receipts of accepted requests alone, whatever they
    raise; only the forced retry writes one, exactly when it succeeds; a drop is
    validated only with an execution identity; the target that a validator resolves
    is never empty, and automatic resolution drops no target that was asked for. *)
Theorem engine_fulfils_owner_laws : OwnerEngineLaws engine.
Proof. exact engine_laws_hold. Qed.

(** * What a client was told is in the database *)

Lemma engine_goes : engine_moves (goes_to (W := W) (St := St) state_file).
Proof.
  split; try (intros; apply guards_goes; cbn; auto with owned; fail); cbn.
  - intros phase o. apply goes_save.
  - intros s. by eapply (goes_to_quiet _ _ _ []).
  - intros k id receipt receipts. apply forced_goes.
Qed.

Lemma service_goes once (k k' : config engine) ls : steps once k ls k' ->
  goes_to state_file (ss_engine (cf_service k)) (ss_engine (cf_service k')).
Proof.
  apply (steps_move (goes_to state_file)); [apply goes_to_refl|apply goes_to_trans|apply engine_goes].
Qed.

(** C7: what a client was told is in the database.  In the service with its engine,
    after any run of clients and owner in which every saved state is JSON text:
    when a request was acknowledged, a service that is started on the database as it
    is then knows the request under its id, with its method and its fingerprint. *)
Theorem acknowledged_is_durable once (k k' : config engine) ls u ack :
  started k -> durable_receipts state_file (ss_engine (cf_service k)) ->
  steps once k ls k' -> json_saved (en_effects (ss_engine (cf_service k'))) -> Replied u (Ok ack) ∈ ls ->
  exists loaded,
    _load_state state_file None (du_store (en_durable (ss_engine (cf_service k')))) = Ok loaded /\
    register loaded !! su_request_id u = Some (su_method u, su_fingerprint u).
Proof.
  intros Hk Hd Hs Hj Hu. destruct (service_goes _ _ _ _ Hs) as (l & Hl & Hgo).
  rewrite Hl in Hj. apply json_saved_app in Hj as [_ Hj].
  destruct (Hgo Hj Hd) as (_ & loaded & Hload & Hreg). exists loaded. split; [exact Hload|].
  rewrite Hreg. pose proof (proj2 (steps_refine _ _ _ _ Hs (started_inv k Hk))) as Hr.
  exact (acknowledged_is_registered _ _ _ _ _ Hr Hu).
Qed.
End Owner.
