(* ===== verification/OwnerReplay.v ===== *)
(** The service with its engine, run in the concrete host of the examples: an
    operator's request is accepted, answered, and found in the database. *)

From S2P Require Import OperatorReplay IterationReplay.
From S2P Require Export Owner.

#[export] Instance host_drain : WorkerDrain host := {
  hw_active := fun h => if ho_running h then 1%Z else 0%Z;
  hw_begin_drain := fun h => h
}.

Abbreviation host_engine_state := (Engine.engine (W := host) (St := SQLiteRuntimeStore)).

#[export] Instance host_service : OwnerEngine host_engine_state :=
  service_engine sample_settings "state.sqlite3" sample_yaml ["a"] ["b"] sample_texts.

(** The worker's commit could not be published onto a product that had moved. *)
Definition pending_record : dict :=
  [("status", PStr "pending"); ("ticket_id", PStr "T1"); ("execution_id", PStr "E1");
   ("original_base", PStr (object_name 1000)); ("observed_product", PStr (object_name 1002));
   ("worker_checkpoint", PStr (object_name 1001)); ("product_remote_head", PStr (object_name 1002));
   ("control_head", PStr (object_name 0)); ("execution_branch", PStr workspace_branch);
   ("execution_path", PStr "/x/work/T1");
   ("evidence_ref", PStr (_reconciliation_evidence_ref "T1" "E1"))].

Definition pending_save : save_options :=
  mkSave false false false false [("reconciliation", PDict pending_record)].

Definition pending_durable : durable (S := SQLiteRuntimeStore) :=
  snd (_save_state None "idle" pending_save fresh_engine).

Definition service_of (s : host_engine_state) : service host_engine_state :=
  mkServiceState s (mkQueue [] None false None false) (mkLifecycle None "running" None false true) false false
    (Some (mkShutdown false None None)).

Definition resume_start : config host_engine_state :=
  mkConfig (service_of (IterationReplay.started [] pending_durable (sample_host false))) AtHead [].

Definition resume_request : submission := submit_reconcile_resume "T1" "r1".

(** The request is submitted, and the owner goes on to the answer. *)
Definition resume_accepted : list label * config host_engine_state := own 4 (enqueue resume_request resume_start).

Lemma pending_consistent : consistent "state.sqlite3" pending_durable.
Proof.
  refine (proj1 (save_state_consistent "state.sqlite3" None "idle" pending_save fresh_engine fresh_consistent _)).
  apply ascii_json_ok. vm_compute. reflexivity.
Qed.

(** What the client is told. *)
Definition resume_ack : dict := [("accepted", PBool true); ("ticket_id", PStr "T1")].

Definition resume_answered : config host_engine_state :=
  mkConfig (cf_service (snd resume_accepted)) (cf_owner (snd resume_accepted)) [].

Lemma resume_steps :
  steps false resume_start ([Silent] ++ fst resume_accepted ++ [Replied resume_request (Ok resume_ack)]) resume_answered.
Proof.
  eapply steps_app; [apply enqueue_steps; vm_compute; discriminate|].
  eapply steps_app; [apply own_steps|].
  destruct (q_commands (ss_queue (cf_service (snd resume_accepted))) !! 0) as [cmd|] eqn:Hc.
  2: { exfalso. revert Hc. vm_compute. discriminate. }
  assert (Hr : oc_admission_event cmd = true /\ _admission_result cmd = Ok resume_ack).
  { revert Hc. vm_compute. intros [= <-]. split; reflexivity. }
  destruct Hr as [He Hr]. rewrite <- Hr. eapply StepsMore; [|constructor].
  assert (Hk : snd resume_accepted = mkConfig (cf_service (snd resume_accepted)) (cf_owner (snd resume_accepted))
                                       ([] ++ (resume_request, 0) :: [])) by (vm_compute; reflexivity).
  unfold resume_answered. rewrite Hk at 1. exact (AnswerSeen false _ _ [] [] resume_request 0 cmd Hc He).
Qed.

Lemma acknowledged_is_durable_witness :
  Replied resume_request (Ok resume_ack) ∈ fst resume_accepted ++ [Replied resume_request (Ok resume_ack)] /\
  exists loaded,
    _load_state "state.sqlite3" None (du_store (en_durable (ss_engine (cf_service resume_answered)))) = Ok loaded /\
    register loaded !! "r1" = Some ("reconcile-resume", su_fingerprint resume_request).
Proof.
  assert (Hin : forall l, Replied resume_request (Ok resume_ack) ∈ l ++ [Replied resume_request (Ok resume_ack)])
    by (intros l; apply elem_of_app; right; by left).
  split; [apply Hin|].
  refine (acknowledged_is_durable sample_settings "state.sqlite3" sample_yaml ["a"] ["b"] sample_texts
            false resume_start resume_answered _ resume_request resume_ack _ _ resume_steps _ _).
  - split_and!; reflexivity.
  - apply consistent_durable; [apply pending_consistent|]. apply ascii_json_ok. vm_compute. reflexivity.
  - apply saved_ascii. vm_compute. reflexivity.
  - rewrite app_assoc. apply Hin.
Defined.
