(* ===== verification/RewriteSafety.v ===== *)
(** The reconciliation with a new base announces what it does: every command that
    changes the execution branch, here or on the remote, is preceded by a durable
    record of the step that it belongs to, from which an interrupted rewrite is
    recognized and taken back. *)

From S2P Require Export RecoverySafety UpdateBase.

(** * The license of a record *)

Section License.
Variable c : settings.
(** The published branch may be rewritten. *)
Variable allowed : bool.
(** The worktree that the state of the engine binds. *)
Variable home : string.

Definition staged (r : dict) (stages : list string) : Prop :=
  exists s, get r "rewrite_stage" = PStr s /\ s ∈ stages.

Definition record_text (r : dict) (key : string) : string := py_str (get r key).

(** An interrupted step is undone: the branch returns to the worker's checkpoint. *)
Definition takes_back (r : dict) (args : list string) : Prop :=
  args = ["rebase"; "--abort"] \/ args = ["reset"; "--hard"; record_text r "worker_checkpoint"].

(** The worker's commits are moved onto the recorded target. *)
Definition moves_lineage (r : dict) (args : list string) : Prop :=
  staged r ["local-pending"] /\
  args = ["rebase"; "--onto"; record_text r "rewrite_target"; record_text r "original_base"].

(** The rewritten head is kept under a reference that is only ever created. *)
Definition keeps_evidence (r : dict) (args : list string) : Prop :=
  staged r ["local-pending"; "remote-pending"] /\
  exists head, args = ["update-ref"; record_text r "rewritten_evidence_ref"; head; NO_OBJECT].

(** The published branch is replaced, on the condition that it is where it was
    recorded, by the recorded head. *)
Definition replaces_branch (r : dict) (args : list string) : Prop :=
  allowed = true /\ staged r ["remote-pending"] /\ get r "rewrite_authorized" = PBool true /\
  args = ["push"; "--force-with-lease=refs/heads/" +:+ record_text r "execution_branch" +:+ ":" +:+
                  record_text r "rewrite_expected_remote";
          st_remote_name c;
          record_text r "rewrite_checkpoint" +:+ ":refs/heads/" +:+ record_text r "execution_branch"].

(** The worktree of the execution: the one on record, or the one that the state binds. *)
Definition its_worktree (r : dict) (dir : Path) : Prop :=
  dir = Path_of (record_text r "execution_path") \/ dir = Path_of home.

Definition rewrites (v : pyval) (e : event) : Prop :=
  reads_only e \/
  exists r dir args, v = PDict r /\ e = Run dir args /\
    (its_worktree r dir /\ (takes_back r args \/ moves_lineage r args \/ replaces_branch r args) \/
     dir = st_repo c /\ keeps_evidence r args).

(** Every command is licensed by the record that was saved last; no worker starts. *)
Fixpoint recorded (v : pyval) (l : list effect) : Prop :=
  match l with
  | [] => True
  | Did e :: l => rewrites v e /\ recorded v l
  | Saved d :: l => recorded (get d "reconciliation") l
  | Launched _ _ _ :: _ => False
  end.

Fixpoint last_record (v : pyval) (l : list effect) : pyval :=
  match l with
  | [] => v
  | Saved d :: l => last_record (get d "reconciliation") l
  | _ :: l => last_record v l
  end.

Lemma recorded_app v l l' : recorded v (l ++ l') <-> recorded v l /\ recorded (last_record v l) l'.
Proof. revert v. induction l as [|[e|d|w p x] l IH]; intros v; cbn; rewrite ?IH; tauto. Qed.

Lemma last_record_app v l l' : last_record v (l ++ l') = last_record (last_record v l) l'.
Proof. revert v. induction l as [|[e|d|w p x] l IH]; intros v; cbn; auto. Qed.

Lemma recorded_did v l : Forall (rewrites v) l -> recorded v (map Did l) /\ last_record v (map Did l) = v.
Proof. induction 1 as [|e l He _ [IH1 IH2]]; cbn; auto. Qed.

Lemma reads_rewrites v e : reads_only e -> rewrites v e.
Proof. by left. Qed.
End License.

(** * Triples *)

Section Triples.
Context {W : Type} `{GitWorld W, !EngineWorld W, !HostWorld W}.
Context {St : Type} `{RuntimeStore St, !ObservableStore St}.
Variable c : settings.
Variable allowed : bool.
Variable home : string.

Abbreviation E := (py (engine (W := W) (St := St))).

(** The record is [v], and the state binds the worktree [home]. *)
Definition stands (v : pyval) (d : dict) : Prop :=
  get d "reconciliation" = v /\ field d "execution_path" = home.

(** A run from [s], with the record [v]: its effects are recorded, and a result
    satisfies [Q] with the state that it leaves. *)
Definition wal_at {A} (v : pyval) (s : engine (W := W) (St := St)) (r : res A)
    (s' : engine (W := W) (St := St)) (Q : A -> dict -> Prop) : Prop :=
  exists new, en_effects s' = en_effects s ++ new /\ recorded c allowed home v new /\
    stands (last_record v new) (en_state s') /\
    match r with Ok a => Q a (en_state s') | Raise _ => True end.

Definition wal {A} (v : pyval) (m : E A) (Q : A -> dict -> Prop) : Prop :=
  forall s, stands v (en_state s) -> wal_at v s (fst (m s)) (snd (m s)) Q.

Abbreviation record_is v := (fun _ d => stands v d).

Lemma wal_weaken {A} v (m : E A) (Q Q' : A -> dict -> Prop) :
  wal v m Q -> (forall a d, Q a d -> Q' a d) -> wal v m Q'.
Proof.
  intros Hm HQ s Hs. destruct (Hm s Hs) as (new & H1' & H2' & H3' & H4'). exists new. split_and!; try done.
  destruct (fst (m s)); auto.
Qed.

Lemma wal_at_bind {A B} v s (a : A) s1 (r : res B) s2 R Q : wal_at v s (Ok a) s1 R ->
  (forall v', stands v' (en_state s1) -> wal_at v' s1 r s2 Q) -> wal_at v s r s2 Q.
Proof.
  intros (n1 & He1 & Hr1 & Hl1 & _) Hf. destruct (Hf _ Hl1) as (n2 & He2 & Hr2 & Hl2 & HQ). exists (n1 ++ n2).
  rewrite recorded_app, last_record_app. split_and!; try done. by rewrite He2, He1, app_assoc.
Qed.

Lemma wal_at_raise {A B} v s e s1 (R : A -> dict -> Prop) (Q : B -> dict -> Prop) :
  wal_at v s (Raise e) s1 R -> wal_at v s (Raise e) s1 Q.
Proof. intros (n1 & ? & ? & ? & _). by exists n1. Qed.

Lemma wal_bind {A B} v (m : E A) (f : A -> E B) (R : A -> dict -> Prop) (Q : B -> dict -> Prop) :
  wal v m R -> (forall a d, R a d -> wal (get d "reconciliation") (f a) Q) -> wal v (m ≫= f) Q.
Proof.
  intros Hm Hf s Hs. pose proof (Hm s Hs) as H1. unfold mbind, py_bind.
  destruct (m s) as [[a|e] s1]; cbn in *; [|by eapply wal_at_raise].
  pose proof H1 as (n1 & _ & _ & _ & HR). eapply wal_at_bind; [exact H1|].
  intros v' Hv. pose proof Hv as [<- _]. by apply (Hf a _ HR).
Qed.

(** Nothing is done, and the record stays. *)
Lemma wal_silent {A} v (m : E A) (Q : A -> dict -> Prop) :
  (forall s, stands v (en_state s) ->
     en_effects (snd (m s)) = en_effects s /\ stands v (en_state (snd (m s))) /\
     match fst (m s) with Ok a => Q a (en_state (snd (m s))) | Raise _ => True end) -> wal v m Q.
Proof. intros Hm s Hs. destruct (Hm s Hs) as (He & Hr & HQ). exists []. by rewrite app_nil_r. Qed.

Lemma wal_ret {A} v (a : A) (Q : A -> dict -> Prop) :
  (forall d, stands v d -> Q a d) -> wal v (mret a) Q.
Proof. intros HQ. apply wal_silent. intros s Hs. split_and!; [done|done|exact (HQ _ Hs)]. Qed.

Lemma wal_raise {A} v k msg (Q : A -> dict -> Prop) : wal v (py_raise k msg) Q.
Proof. by apply wal_silent. Qed.

(** A value is returned after the last step. *)
Lemma wal_return {A B} v (m : E A) (b : B) (Q : B -> dict -> Prop) :
  wal v m (fun _ => Q b) -> wal v (_ ← m; mret b) Q.
Proof.
  intros Hm s Hs. destruct (Hm s Hs) as (new & He & Hr & Hl & HQ). unfold mbind, py_bind.
  destruct (m s) as [[a|e] s1]; by exists new.
Qed.

(** The first part may be the last one. *)
Lemma wal_bind_or {A B} v (m : E A) (f : A -> E B) (R : A -> dict -> Prop) (Q : B -> dict -> Prop) :
  wal v m R ->
  (forall a d, R a d -> wal (get d "reconciliation") (f a) Q \/ exists b, f a = mret b /\ Q b d) ->
  wal v (m ≫= f) Q.
Proof.
  intros Hm Hf s Hs. pose proof (Hm s Hs) as H1. unfold mbind, py_bind.
  destruct (m s) as [[a|e] s1]; cbn in *; [|by eapply wal_at_raise].
  pose proof H1 as (n1 & He1 & Hr1 & Hl1 & HR).
  destruct (Hf a _ HR) as [Hw|(b & -> & Hb)]; [|by exists n1].
  eapply wal_at_bind; [exact H1|]. intros v' Hv. pose proof Hv as [<- _]. by apply Hw.
Qed.

Lemma wal_lift {A} v (r : res A) : wal v (py_lift r) (fun a d => r = Ok a /\ stands v d).
Proof. apply wal_silent. intros s Hs. split_and!; try done. by destruct r. Qed.

Lemma wal_state v : wal v state_now (fun a d => a = d /\ stands v d).
Proof. by apply wal_silent. Qed.

Lemma wal_assign v x : wal v (assign_base x) (record_is v).
Proof.
  apply wal_silent. intros s [Hs Hp]. split; [done|].
  assert (Hr : stands v (en_state (snd (assign_base x s)))).
  { unfold stands, field, en_state in *. cbn. unfold get, get_or in *. by rewrite !dget_dset_ne. }
  by split.
Qed.

Lemma wal_git {A} (R : A -> Prop) v (m : py (logged W) A) :
  only (rewrites c allowed home v) m -> returns R m -> wal v (on_git m) (fun a d => R a /\ stands v d).
Proof.
  intros Hm HR s Hs. destruct (Hm (mkLogged (en_world s) [])) as [(new & Hn & Hf) _].
  specialize (HR (mkLogged (en_world s) [])). unfold on_git.
  destruct (m (mkLogged (en_world s) [])) as [r l]. cbn in *.
  destruct (recorded_did c allowed home _ new Hf) as [Hr Hl].
  exists (map Did new). rewrite Hl, Hn. split_and!; try done. destruct r; auto.
Qed.

Lemma wal_catch {A} v (m : E A) p h (Q : A -> dict -> Prop) :
  wal v m Q -> (forall e v', wal v' (h e) Q) -> wal v (py_catch m p h) Q.
Proof.
  intros Hm Hh s Hs. pose proof (Hm s Hs) as H1. unfold py_catch.
  destruct (m s) as [[a|e] s1]; cbn in *; [done|]. destruct (p e); [|done].
  destruct H1 as (n1 & He1 & Hr1 & Hl1 & _). destruct (Hh e _ s1 Hl1) as (n2 & He2 & Hr2 & Hl2 & HQ).
  exists (n1 ++ n2). rewrite recorded_app, last_record_app. split_and!; try done. by rewrite He2, He1, app_assoc.
Qed.

Lemma wal_save v phase fields record (Q : unit -> dict -> Prop) :
  NoDup (keys fields) -> dget fields "reconciliation" = Some record -> dget fields "execution_path" = None ->
  (forall d, let d' := next_state d phase (plain fields) in stands record d' -> Q tt d') ->
  wal v (save_fields phase fields) Q.
Proof.
  intros Hnd Hf Hp HQ s Hs. unfold save_fields, save, next_failure, save_under, mbind, py_bind. cbn.
  assert (Hrec : forall d, field d "execution_path" = home -> stands record (next_state d phase (plain fields))).
  { intros d Hd. unfold stands, field in *. rewrite !get_saved; [by rewrite Hf, Hp|done| |done|];
      right; apply (bool_decide_unpack _); vm_compute; exact I. }
  unfold _save_state, en_state in *. destruct (_validate_state_invariant _) as [[]|e]; cbn.
  2: { exists []. by rewrite app_nil_r. }
  destruct Hs as [Hs1 Hs2]. destruct (store_replace _ _ _) as [[[]|e] st]; cbn.
  - eexists [Saved _]. split_and!; [done|done| |by apply HQ, Hrec]. cbn [last_record].
    destruct (Hrec _ Hs2) as [? ?]. by split.
  - exists []. unfold as_devlegate, catch. destruct (is_class _ _); cbn; by rewrite app_nil_r.
Qed.
End Triples.

(** ** From one step to the next *)

Section Steps.
Context {W : Type} `{GitWorld W, !EngineWorld W, !HostWorld W}.
Context {St : Type} `{RuntimeStore St, !ObservableStore St}.
Variable c : settings.
Variable allowed : bool.
Variable home : string.

Abbreviation E := (py (engine (W := W) (St := St))).
Abbreviation wal := (wal (W := W) (St := St) c allowed home).
Context {A B : Type} (v : pyval).

Lemma next_lift (r : res A) (f : A -> E B) Q : (forall a, r = Ok a -> wal v (f a) Q) -> wal v (py_lift r ≫= f) Q.
Proof. intros Hf. eapply wal_bind; [apply wal_lift|]. intros a d [Ha [-> _]]. auto. Qed.

Lemma next_state_now (f : dict -> E B) Q :
  (forall d, stands home v d -> wal v (f d) Q) -> wal v (state_now ≫= f) Q.
Proof. intros Hf. eapply wal_bind; [apply wal_state|]. intros a d [-> Hd]. pose proof Hd as [-> _]. auto. Qed.

Lemma next_git (R : A -> Prop) (m : py (logged W) A) (f : A -> E B) Q :
  only (rewrites c allowed home v) m -> returns R m -> (forall a, R a -> wal v (f a) Q) -> wal v (on_git m ≫= f) Q.
Proof. intros Hm HR Hf. eapply wal_bind; [by apply wal_git|]. intros a d [Ha [-> _]]. auto. Qed.

Lemma next_reads (m : py (logged W) A) (f : A -> E B) Q :
  only reads_only m -> (forall a, wal v (f a) Q) -> wal v (on_git m ≫= f) Q.
Proof.
  intros Hm Hf. apply (next_git (fun _ => True)); [|done|auto]. revert Hm. apply only_weaken, reads_rewrites.
Qed.

(** The first read of a run, and what it answers. *)
Lemma reads_first (m : py (logged W) A) (f : A -> E B) s Q : only reads_only m -> stands home v (en_state s) ->
  (forall a s1, on_git m s = (Ok a, s1) -> stands home v (en_state s1) ->
     wal_at c allowed home v s1 (fst (f a s1)) (snd (f a s1)) Q) ->
  wal_at c allowed home v s (fst ((on_git m ≫= f) s)) (snd ((on_git m ≫= f) s)) Q.
Proof.
  intros Hm Hs Hf. assert (Hw : wal v (on_git m) (fun _ => stands home v)).
  { eapply wal_weaken; [apply (wal_git _ _ _ (fun _ => True)); [|done]|by intros ? ? [_ ?]].
    revert Hm. apply only_weaken, reads_rewrites. }
  specialize (Hw s Hs). rewrite py_bind_run. destruct (on_git m s) as [[a|e] s1] eqn:Em; cbn [fst snd] in *.
  - pose proof Hw as (n & _ & _ & _ & Hs1). eapply wal_at_bind; [exact Hw|]. intros v' [<- _].
    pose proof Hs1 as [-> _]. by apply Hf.
  - by eapply wal_at_raise.
Qed.

Lemma lift_first (r : res A) (f : A -> E B) s Q : stands home v (en_state s) ->
  (forall a, r = Ok a -> wal_at c allowed home v s (fst (f a s)) (snd (f a s)) Q) ->
  wal_at c allowed home v s (fst ((py_lift r ≫= f) s)) (snd ((py_lift r ≫= f) s)) Q.
Proof.
  intros Hs Hf. rewrite py_bind_run. unfold py_lift. destruct r as [a|e]; [by apply Hf|].
  exists []. by rewrite app_nil_r.
Qed.

Lemma next_assign x (f : unit -> E B) Q : wal v (f tt) Q -> wal v (assign_base x ≫= f) Q.
Proof. intros Hf. eapply wal_bind; [apply wal_assign|]. by intros [] d [-> _]. Qed.
End Steps.

(** * The operations *)

Section Operations.
Context {W : Type} `{GitWorld W, !EngineWorld W, !HostWorld W}.
Context {St : Type} `{RuntimeStore St, !ObservableStore St}.
Variable c : settings.
Variable allowed : bool.
Variable home : string.

Abbreviation E := (py (engine (W := W) (St := St))).
Abbreviation wal := (wal (W := W) (St := St) c allowed home).
Abbreviation reads m := (only (W := W) reads_only m).
Abbreviation licensed_by r m := (only (W := W) (rewrites c allowed home (PDict r)) m).

#[local] Hint Extern 1 (reads_only (Run _ _)) => reflexivity : commands.
#[local] Hint Extern 1 (forall e, observes e -> reads_only e) => exact observes_reads : commands.
#[local] Hint Extern 2 (only reads_only _) => solve [eauto 3 with reads] : commands.

(** ** What only reads *)

Lemma reads_follow parents error previous l :
  (forall x, reads (parents x)) -> reads (follow parents error previous l).
Proof. intros Hp. revert previous. induction l; intros; cbn [follow]; unfold engine_error; only_auto. Qed.

Lemma reads_chained dir previous l : reads (chained dir previous l).
Proof. revert previous. induction l; intros; cbn [chained]; unfold parents_of; only_auto. Qed.
#[local] Hint Resolve reads_chained : commands.

Lemma reads_target onto : reads (requested_target c onto).
Proof. unfold requested_target, rev_parse, engine_error. only_auto. Qed.

Lemma reads_eligible base target : reads (eligible_target c base target).
Proof. unfold eligible_target, same_parent_replacement, parents_of, engine_error. only_auto. Qed.

Lemma reads_preserved r : reads (preserved_checkpoint c r).
Proof. unfold preserved_checkpoint, rev_parse, engine_error. only_auto. Qed.

Lemma reads_manager r k : reads (bound_manager c r k).
Proof. unfold bound_manager, engine_error. only_auto. Qed.

Lemma reads_rewrite_recovery state m : reads (_execution_workspace_for_rewrite_recovery c state m).
Proof. unfold _execution_workspace_for_rewrite_recovery, blocked. only_auto. Qed.
#[local] Hint Resolve reads_rewrite_recovery : commands.

Lemma reads_rewrite_workspace state r m : reads (rewrite_workspace c state r m).
Proof. unfold rewrite_workspace. only_auto. Qed.

Lemma reads_rewritten r ws checkpoint_head rewritten target : reads (check_rewritten c r ws checkpoint_head rewritten target).
Proof.
  unfold check_rewritten, rev_parse, commits_between, engine_error. repeat only_step.
  apply reads_follow. intros x. unfold parents_checked. only_auto.
Qed.

Lemma reads_worker_lineage ws base checkpoint_head : reads (worker_lineage ws base checkpoint_head).
Proof.
  unfold worker_lineage, commits_between, engine_error. repeat only_step.
  apply reads_follow. intros x. unfold parents_of. only_auto.
Qed.

Lemma reads_rewritable r branch lineage b : reads (rewritable_remote c r branch lineage b).
Proof. unfold rewritable_remote, engine_error. only_auto. Qed.

Lemma reads_prove_rewritten dir target l error : reads (follow (parents_checked dir) error target l).
Proof. apply reads_follow. intros x. unfold parents_checked. only_auto. Qed.

(** ** Where *)

(** The worktree of the manager. *)
Variable place : Path.

Definition located (ws : ExecutionWorkspace) : Prop := ew_path ws = place \/ ew_path ws = Path_of home.

Lemma recovered_located state : field state "execution_path" = home ->
  returns (W := W) located (_execution_workspace_for_recovery c state).
Proof.
  intros Hh. unfold _execution_workspace_for_recovery, blocked.
  destruct (negb (all_text _ _)); [apply returns_raise|]. apply returns_bind. intros m.
  destruct (negb (binding_matches _ _)) eqn:Hb; [apply returns_raise|]. apply negb_false_iff, binding_manages in Hb as [_ Hb].
  apply returns_catch; [|intros e; apply returns_raise].
  do 4 (apply returns_bind; intros ?). eapply returns_bind_from; [apply validate_existing_bound|].
  intros ws (Hws & _). apply returns_bind. intros _. apply returns_ret. right. by rewrite Hws, <- Hh.
Qed.

Lemma rewrite_recovered_located state m : mg_path m = place ->
  returns (W := W) located (_execution_workspace_for_rewrite_recovery c state m).
Proof.
  intros Hm. unfold _execution_workspace_for_rewrite_recovery, blocked. cbv zeta. apply returns_bind. intros e.
  apply returns_bind. intros rs. destruct (registration_at e rs); [|apply returns_raise].
  destruct (negb _); [apply returns_raise|]. do 5 (apply returns_bind; intros ?).
  destruct (_ || _); [apply returns_raise|]. do 2 (apply returns_bind; intros ?).
  destruct (_ || _); [apply returns_raise|]. apply returns_ret. by left.
Qed.

Lemma rewrite_workspace_located state r m : field state "execution_path" = home -> mg_path m = place ->
  returns (W := W) located (rewrite_workspace c state r m).
Proof.
  intros Hh Hm. unfold rewrite_workspace. apply returns_bind. intros [].
  - by apply rewrite_recovered_located.
  - by apply recovered_located.
Qed.

(** ** What writes *)

(** The facts of a record that stay the same. *)
Record describes (r : dict) (branch original_base checkpoint_head : string) : Prop := {
  ds_branch : record_text r "execution_branch" = branch;
  ds_place : Path_of (record_text r "execution_path") = place;
  ds_base : record_text r "original_base" = original_base;
  ds_checkpoint : record_text r "worker_checkpoint" = checkpoint_head
}.

Definition constant_keys : list string := ["execution_branch"; "execution_path"; "original_base"; "worker_checkpoint"].

Lemma describes_dpops r ks branch base head : Forall (fun k => k ∉ ks) constant_keys ->
  describes r branch base head -> describes (dpops r ks) branch base head.
Proof.
  intros Hk [Hb Hp Ho Hc]. repeat (apply Forall_cons in Hk as [? Hk]).
  by split; unfold record_text, get, get_or in *; rewrite dget_dpops_ne.
Qed.

Lemma describes_dmerge r fields branch base head : Forall (fun k => dget fields k = None) constant_keys ->
  NoDup (keys fields) -> describes r branch base head -> describes (dmerge r fields) branch base head.
Proof.
  intros Hk Hnd [Hb Hp Ho Hc]. repeat (apply Forall_cons in Hk as [Hk1 Hk]; revert Hk1). intros Hk1 Hk2 Hk3 Hk4.
  by split; unfold record_text in *; rewrite get_dmerge, ?Hk1, ?Hk2, ?Hk3, ?Hk4.
Qed.

Ltac no_keys := apply (bool_decide_unpack _); vm_compute; exact I.

Lemma licensed_run r branch base head ws args : describes r branch base head -> located ws ->
  takes_back r args \/ moves_lineage r args \/ replaces_branch c allowed r args ->
  rewrites c allowed home (PDict r) (Run (ew_path ws) args).
Proof.
  intros Hr Hw Ha. right. exists r, (ew_path ws), args. split_and!; [done|done|]. left. split; [|done].
  unfold its_worktree. rewrite (ds_place _ _ _ _ Hr). exact Hw.
Qed.

Lemma licensed_evidence r args : keeps_evidence r args -> rewrites c allowed home (PDict r) (Run (st_repo c) args).
Proof. intros Ha. right. exists r, (st_repo c), args. split_and!; [done|done|]. by right. Qed.

Section Record.
Variables (r : dict) (branch original_base checkpoint_head : string).
Hypothesis Hr : describes r branch original_base checkpoint_head.

Lemma restore_licensed ws error : located ws -> licensed_by r (restore ws checkpoint_head error).
Proof.
  intros Hw. unfold restore, engine_error. apply only_bind; [|intros p; destruct (failed p); [apply only_raise|apply only_ret]].
  apply only_git. eapply licensed_run; [exact Hr|done|]. left. right. by rewrite (ds_checkpoint _ _ _ _ Hr).
Qed.

Lemma abort_licensed state m ws : located ws -> licensed_by r (abort_rebase c state m ws).
Proof.
  intros Hw. unfold abort_rebase, engine_error. destruct (negb (ew_dirty ws)); [apply only_ret|].
  apply only_bind; [apply only_git; eapply licensed_run; [exact Hr|done|]; left; by left|].
  intros p. destruct (failed p); [apply only_raise|].
  eapply only_weaken; [apply reads_rewrites|apply reads_rewrite_recovery].
Qed.

Lemma abort_located state m ws : mg_path m = place -> located ws ->
  returns (W := W) located (abort_rebase c state m ws).
Proof.
  intros Hm Hw. unfold abort_rebase, engine_error. destruct (negb (ew_dirty ws)); [by apply returns_ret|].
  apply returns_bind. intros p. destruct (failed p); [apply returns_raise|by apply rewrite_recovered_located].
Qed.

Lemma take_back_licensed reconciliation target ws : located ws ->
  licensed_by r (take_back reconciliation checkpoint_head target ws).
Proof.
  intros Hw. unfold take_back, commits_between, linear_chain. destruct (_ =? _)%string; [apply only_ret|].
  apply only_bind; [eapply only_weaken; [apply reads_rewrites|]; only_auto|]. intros p. cbv zeta.
  apply only_bind.
  - eapply only_weaken; [apply reads_rewrites|]. only_auto.
  - intros exact. unfold engine_error. destruct (negb exact); [apply only_raise|by apply restore_licensed].
Qed.

Lemma pin_licensed ref head : staged r ["local-pending"; "remote-pending"] ->
  record_text r "rewritten_evidence_ref" = ref -> licensed_by r (pin_rewritten c ref head).
Proof.
  intros Hs Hf. unfold pin_rewritten, rev_parse, engine_error. apply only_bind.
  - apply only_git, licensed_evidence. split; [done|]. exists head. by rewrite Hf.
  - intros p. eapply only_weaken; [apply reads_rewrites|]. only_auto.
Qed.
End Record.

(** ** The parts of a reconciliation *)

(** What a reconciliation that succeeds leaves. *)
Definition resolved_onto (ticket_id target : string) (status : Z) (d : dict) : Prop :=
  status = 0%Z /\ get d "execution_base_head" = PStr target /\
  get d "resume_required" = PDict [("ticket_id", PStr ticket_id); ("status", PStr "required")] /\
  exists r, get d "reconciliation" = PDict r /\ get r "status" = PStr "resolved" /\
    get r "resolution" = PStr "update-base" /\ get r "effective_base" = PStr target.

(** A record from which a rewrite may start, or the end. *)
Definition ready_or_done (ticket_id target branch base head : string)
    (x : Z + (dict * ExecutionWorkspace)) (d : dict) : Prop :=
  match x with
  | inl status => resolved_onto ticket_id target status d
  | inr (r, ws) => stands home (PDict r) d /\ describes r branch base head /\ located ws
  end.

Lemma give_up_wal v ks r branch base head : describes r branch base head ->
  Forall (fun k => k ∉ ks) constant_keys ->
  wal v (give_up_rewrite c ks r base)
    (fun x d => stands home (PDict (fst x)) d /\ describes (fst x) branch base head /\ located (snd x)).
Proof.
  intros Hr Hk. unfold give_up_rewrite. cbv zeta. eapply wal_bind.
  - apply (wal_save _ _ _ _ _ _ (PDict (dpops r ks)) (fun _ d => stands home (PDict (dpops r ks)) d));
      [no_keys|done|done|auto].
  - intros [] d [-> _]. apply next_state_now. intros d' [_ Hd'].
    eapply next_git; [eapply only_weaken; [apply reads_rewrites|apply reads_workspace]|by apply recovered_located|].
    intros ws Hw. apply wal_ret. intros d2 Hd2. split; [done|]. split; [by apply describes_dpops|done].
Qed.

Lemma save_resolved_wal v k target r resolved remote :
  get resolved "status" = PStr "resolved" -> get resolved "resolution" = PStr "update-base" ->
  get resolved "effective_base" = PStr target ->
  wal v (save_resolved c k target r resolved remote) (fun _ d => resolved_onto k target 0 d).
Proof.
  intros Hs Ho He. unfold save_resolved. apply next_reads; [eauto with reads|]. intros fp.
  apply next_lift. intros control Hc. apply (wal_save _ _ _ _ _ _ (PDict resolved)); [no_keys|done|done|].
  intros d d' Hd'. split; [done|]. unfold d'. split; [by saved|]. split; [by saved|]. exists resolved. by destruct Hd'.
Qed.

Ltac resolved_field := unfold get, get_or; rewrite dget_dpop_ne by done; rewrite dget_dmerge by no_keys; reflexivity.

Lemma finish_published_wal v k target head r :
  wal v (finish_published c k target head r) (resolved_onto k target).
Proof.
  unfold finish_published. apply next_lift. intros evidence _. cbv zeta.
  apply wal_return, save_resolved_wal; resolved_field.
Qed.

Lemma finish_rewrite_wal v k target evidence rewritten r updated remote :
  wal v (finish_rewrite c k target evidence rewritten r updated remote) (resolved_onto k target).
Proof. unfold finish_rewrite. cbv zeta. apply wal_return, save_resolved_wal; resolved_field. Qed.

Lemma goes_on_wal {A} v (m : E A) (Q : Z + A -> dict -> Prop) :
  wal v m (fun a => Q (inr a)) -> wal v (a ← m; goes_on a) Q.
Proof.
  intros Hm s Hs. destruct (Hm s Hs) as (new & He & Hr & Hl & HQ). unfold mbind, py_bind.
  destruct (m s) as [[a|e] s1]; by exists new.
Qed.

Lemma returns_with_wal {A} v (m : E Z) (Q : Z + A -> dict -> Prop) :
  wal v m (fun z => Q (inl z)) -> wal v (z ← m; returns_with z) Q.
Proof.
  intros Hm s Hs. destruct (Hm s Hs) as (new & He & Hr & Hl & HQ). unfold mbind, py_bind.
  destruct (m s) as [[a|e] s1]; by exists new.
Qed.

Section Resume.
Variables (k target branch base head : string) (r : dict).
Hypothesis Hr : describes r branch base head.

Lemma remote_pending_wal rewritten ws : located ws ->
  wal (PDict r) (resume_remote_pending c k base head target r branch rewritten ws)
    (ready_or_done k target branch base head).
Proof.
  intros Hw. unfold resume_remote_pending. destruct (ew_dirty ws); [apply wal_raise|].
  apply next_reads; [apply reads_remote|]. intros observed. destruct (py_eq _ _).
  - apply (next_git _ _ _ _ (fun _ => True)); [by eapply restore_licensed|done|]. intros _ _.
    apply goes_on_wal. eapply wal_weaken; [apply (give_up_wal _ _ _ branch base head Hr); no_keys|].
    by intros [r' ws'] d.
  - destruct (_ && _); [|apply wal_raise].
    apply next_reads; [apply reads_rewritten|]. intros _. apply returns_with_wal, finish_published_wal.
Qed.

Lemma local_pending_wal m ws : mg_path m = place -> located ws ->
  wal (PDict r) (resume_local_pending c base head target r m ws)
    (fun x d => stands home (PDict (fst x)) d /\ describes (fst x) branch base head /\ located (snd x)).
Proof.
  intros Hm Hw. unfold resume_local_pending. apply next_state_now. intros d Hd.
  eapply next_git; [by eapply abort_licensed|by apply abort_located|]. intros ws' Hw'.
  apply (next_git _ _ _ _ (fun _ => True)); [by eapply take_back_licensed|done|]. intros _ _.
  apply give_up_wal; [done|no_keys].
Qed.

Lemma resume_rewrite_wal m ws : mg_branch m = branch -> mg_path m = place -> located ws ->
  wal (PDict r) (resume_rewrite c k base head target r m ws) (ready_or_done k target branch base head).
Proof.
  intros Hm Hmp Hw. unfold resume_rewrite. cbv zeta.
  assert (Hl : wal (PDict r)
    (if eq_str (get r "rewrite_stage") "local-pending"
     then x ← resume_local_pending c base head target r m ws; goes_on x else goes_on (r, ws))
    (ready_or_done k target branch base head)).
  { destruct (eq_str _ _).
    - apply goes_on_wal. eapply wal_weaken; [by apply local_pending_wal|]. by intros [r' ws'] d.
    - apply wal_ret. intros d Hd. by split_and!. }
  destruct (eq_str (get r "rewrite_stage") "remote-pending"); [|exact Hl].
  destruct (get r "rewrite_checkpoint"); try exact Hl. rewrite Hm. by apply remote_pending_wal.
Qed.
End Resume.

(** ** The rewrite *)

(** The record of a rewrite in progress. *)
Record in_progress (op : dict) (stage branch base head target ref : string) : Prop := {
  ip_describes : describes op branch base head;
  ip_stage : get op "rewrite_stage" = PStr stage;
  ip_target : record_text op "rewrite_target" = target;
  ip_ref : record_text op "rewritten_evidence_ref" = ref
}.

Lemma operation_in_progress r evidence ref target remote lineage b branch base head : describes r branch base head ->
  in_progress (rewrite_operation r evidence ref target remote lineage b) "local-pending" branch base head target ref.
Proof.
  intros Hr. unfold rewrite_operation. split.
  - apply describes_dmerge; [repeat constructor|no_keys|done].
  - by rewrite get_dmerge by no_keys.
  - unfold record_text. by rewrite get_dmerge by no_keys.
  - unfold record_text. by rewrite get_dmerge by no_keys.
Qed.

Section Rewrite.
Variables (op : dict) (branch base head target ref : string).
Hypothesis Hop : in_progress op "local-pending" branch base head target ref.

Lemma op_staged stages : "local-pending" ∈ stages -> staged op stages.
Proof. intros Hs. exists "local-pending". split; [apply Hop|done]. Qed.

Lemma abandon_wal {A} r ws previous (Q : A -> dict -> Prop) : located ws -> wal (PDict op) (abandon_rebase r ws previous) Q.
Proof.
  intros Hw. unfold abandon_rebase. cbv zeta.
  apply (next_git _ _ _ _ (fun _ => True)); [|done|intros _ _].
  { apply only_git. eapply licensed_run; [apply Hop|done|]. left. by left. }
  apply next_assign. apply next_reads; [eauto with reads|]. intros h. apply next_reads; [eauto with reads|].
  intros st. apply next_lift. intros x _. destruct (_ || _); apply wal_raise.
Qed.

Lemma rebase_wal r ws previous : located ws ->
  wal (PDict op) (rebase_lineage r ws base target previous) (fun _ d => stands home (PDict op) d).
Proof.
  intros Hw. unfold rebase_lineage. apply next_assign. apply wal_catch.
  - apply (next_git _ _ _ _ (fun _ => True)); [|done|].
    + apply only_git. eapply licensed_run; [apply Hop|done|]. right. left. split; [apply op_staged; by left|].
      by rewrite (ip_target _ _ _ _ _ _ _ Hop), (ds_base _ _ _ _ (ip_describes _ _ _ _ _ _ _ Hop)).
    + intros p _. destruct (failed p); [by apply abandon_wal|by apply wal_ret].
  - intros e v'. eapply wal_bind; [apply wal_assign|]. intros [] d _. apply wal_raise.
Qed.

Lemma discard_wal {A} r ws previous (Q : A -> dict -> Prop) : located ws ->
  wal (PDict op) (discard_rewrite r ws base head previous) Q.
Proof.
  intros Hw. unfold discard_rewrite. apply (next_git _ _ _ _ (fun _ => True)); [|done|].
  - apply only_git. eapply licensed_run; [apply Hop|done|]. left. right. by rewrite (ds_checkpoint _ _ _ _ (ip_describes _ _ _ _ _ _ _ Hop)).
  - intros p _. apply next_assign. destruct (failed p); [apply wal_raise|].
    eapply wal_bind; [apply (wal_save _ _ _ _ _ _ (PDict r) (fun _ _ => True)); [no_keys|done|done|done]|].
    intros [] d _. apply wal_raise.
Qed.

Lemma prove_wal r ws lineage previous : located ws ->
  wal (PDict op) (prove_rewritten c r ws lineage base head target previous)
    (fun updated d => stands home (PDict op) d /\ located updated).
Proof.
  intros Hw. unfold prove_rewritten. apply next_state_now. intros state [_ Hst].
  eapply next_git; [eapply only_weaken; [apply reads_rewrites|apply reads_workspace]|by apply recovered_located|].
  intros updated Hu. apply next_reads; [unfold commits_between; eauto with reads|]. intros p. cbv zeta.
  destruct (_ || _); [by apply discard_wal|]. apply next_reads; [apply reads_prove_rewritten|]. intros last.
  destruct (_ =? _)%string; [|apply wal_raise]. apply wal_ret. intros d Hd. by split.
Qed.

(** The head is pinned, the record goes to the stage [remote-pending], and only then
    the branch is replaced. *)
Lemma publish_wal updated old : located updated -> allowed = true -> get op "rewrite_authorized" = PBool true ->
  get op "rewrite_expected_remote" = PStr old ->
  wal (PDict op) (publish_rewrite c op updated branch ref old)
    (fun _ d => exists op', stands home (PDict op') d /\ in_progress op' "remote-pending" branch base head target ref).
Proof.
  intros Hu Ha Hb Ho. unfold publish_rewrite. cbv zeta.
  set (op' := dmerge op _).
  assert (Hop' : in_progress op' "remote-pending" branch base head target ref).
  { destruct Hop as [Hd Hs Ht Hf]. unfold op'. split.
    - apply describes_dmerge; [repeat constructor|no_keys|done].
    - by rewrite get_dmerge by no_keys.
    - unfold record_text. by rewrite get_dmerge by no_keys.
    - unfold record_text. by rewrite get_dmerge by no_keys. }
  apply (next_git _ _ _ _ (fun _ => True)); [|done|].
  { apply only_git, licensed_evidence. split; [apply op_staged; by left|].
    exists (ew_head updated). by rewrite (ip_ref _ _ _ _ _ _ _ Hop). }
  intros p _. destruct (failed p); [apply wal_raise|]. eapply wal_bind.
  { apply (wal_save _ _ _ _ _ _ (PDict op') (fun _ d => stands home (PDict op') d)); [no_keys|done|done|auto]. }
  intros [] d [-> _]. apply (next_git _ _ _ _ (fun _ => True)); [|done|].
  { apply only_git. eapply licensed_run; [apply Hop'|done|]. right. right. split; [done|].
    split; [exists "remote-pending"; split; [apply Hop'|by left]|].
    split; [unfold op'; by rewrite get_dmerge by no_keys|].
    assert (He : record_text op' "rewrite_expected_remote" = old)
      by (unfold record_text, op'; rewrite get_dmerge by no_keys; cbn [dget String.eqb Ascii.eqb Bool.eqb]; by rewrite Ho).
    assert (Hc : record_text op' "rewrite_checkpoint" = ew_head updated)
      by (unfold record_text, op'; by rewrite get_dmerge by no_keys).
    by rewrite (ds_branch _ _ _ _ (ip_describes _ _ _ _ _ _ _ Hop')), He, Hc. }
  intros q _. apply next_reads; [apply reads_remote|]. intros observed.
  destruct (bool_decide _); [|destruct (failed q); apply wal_raise]. apply wal_ret. intros d' Hd'. by exists op'.
Qed.
End Rewrite.

(** The remote branch is rewritten only with an authorization. *)
Lemma rewritable_authorized r branch lineage b :
  returns (W := W) (fun remote => is_Some remote -> b = true) (rewritable_remote c r branch lineage b).
Proof.
  unfold rewritable_remote, engine_error. apply returns_bind. intros remote.
  destruct (negb _); [apply returns_raise|]. destruct remote as [h|]; [|apply returns_ret; by intros []].
  destruct b; [|apply returns_raise]. cbn [negb]. destruct (negb _); [apply returns_raise|by apply returns_ret].
Qed.

Lemma rewrite_wal k base head target evidence r m ws b : describes r (mg_branch m) base head -> located ws ->
  (b = true -> allowed = true) ->
  wal (PDict r) (rewrite_lineage c k base head target evidence r m ws b) (resolved_onto k target).
Proof.
  intros Hr Hw Ha. unfold rewrite_lineage. apply next_lift. intros x _. destruct (_ || _); [apply wal_raise|].
  apply next_reads; [apply reads_worker_lineage|]. intros lineage.
  eapply next_git; [eapply only_weaken; [apply reads_rewrites|apply reads_rewritable]|apply rewritable_authorized|].
  intros remote Hb. apply next_state_now. intros state _. apply next_lift. intros previous _.
  apply next_lift. intros execution_id _. cbv zeta.
  set (ref := _reconciliation_evidence_ref k _). set (op := rewrite_operation _ _ _ _ _ _ _).
  pose proof (operation_in_progress r evidence ref target remote lineage b _ _ _ Hr) as Hop. fold op in Hop.
  eapply wal_bind.
  { apply (wal_save _ _ _ _ _ _ (PDict op) (fun _ d => stands home (PDict op) d)); [no_keys|done|done|auto]. }
  intros [] d [-> _]. eapply wal_bind; [by eapply rebase_wal|]. intros [] d1 [-> _].
  eapply wal_bind; [by eapply prove_wal|]. intros updated d2 [[-> _] Hu].
  apply (wal_bind _ _ _ _ _ _ (fun _ d => exists op' stage, stands home (PDict op') d /\
           stage ∈ ["local-pending"; "remote-pending"] /\ in_progress op' stage (mg_branch m) base head target ref)).
  - destruct remote as [old|].
    + eapply wal_weaken.
      * eapply publish_wal; [exact Hop|done|by apply Ha, Hb| |].
        -- unfold op, rewrite_operation. rewrite get_dmerge by no_keys. cbn. by rewrite Hb.
        -- unfold op, rewrite_operation. by rewrite get_dmerge by no_keys.
      * intros [] d3 (op' & Hd & Hp). exists op', "remote-pending". split_and!; [done|right; by left|done].
    + apply wal_ret. intros d3 Hd. exists op, "local-pending". split_and!; [done|by left|done].
  - intros [] d3 (op' & stage & [-> _] & Hst & Hp).
    apply (next_git _ _ _ _ (fun _ => True)); [|done|intros _ _; apply finish_rewrite_wal].
    apply pin_licensed; [|apply Hp]. exists stage. split; [apply Hp|done].
Qed.

(** ** From the request to the end *)

Lemma text_item_record r key x : text_item r key = Ok x -> record_text r key = x.
Proof.
  unfold text_item. intros Hx. apply res_bind_ok in Hx as (v & [Hv _]%getitem_get & [= <-]).
  unfold record_text. by rewrite Hv.
Qed.

Lemma manager_branch r k :
  returns (W := W) (fun m => record_text r "execution_branch" = mg_branch m) (bound_manager c r k).
Proof.
  unfold bound_manager, engine_error. apply returns_bind. intros m.
  apply (returns_bind_from (fun v => getitem r "execution_branch" = Ok v)).
  { intros s v. cbn. by destruct (getitem r "execution_branch"). }
  intros v Hv. apply getitem_get in Hv as [Hv _].
  destruct (eq_str v (mg_branch m)) eqn:He.
  - apply returns_bind. intros []; [|apply returns_raise]. apply returns_ret. apply eq_str_true in He.
    unfold record_text. by rewrite Hv, He.
  - apply returns_bind_from with (R := fun b => b = false); [by apply returns_ret|].
    intros b ->. apply returns_raise.
Qed.

(** The worktree of the manager is the one on record. *)
Lemma manager_place r k :
  returns (W := W) (fun m => Path_of (record_text r "execution_path") = mg_path m) (bound_manager c r k).
Proof.
  unfold bound_manager, engine_error. apply returns_bind. intros m. apply returns_bind. intros v.
  apply (returns_bind_from (fun b : bool => b = true -> Path_of (record_text r "execution_path") = mg_path m)).
  - destruct (eq_str v (mg_branch m)); [|by apply returns_ret].
    apply (returns_bind_from (fun path => text_item r "execution_path" = Ok path)).
    { intros s path. cbn. by destruct (text_item r "execution_path"). }
    intros path Hp%text_item_record. apply returns_ret. rewrite Hp. apply bool_decide_eq_true.
  - intros [] Hb; [|apply returns_raise]. by apply returns_ret, Hb.
Qed.

(** What is observed of the product from a state on: its branch is the configured
    one, clean, and [target] here and on the remote. *)
Definition product_is (s : engine (W := W) (St := St)) (base target : string) : Prop :=
  exists product, fst (on_git (_observe_product_generation c base) s) = Ok product /\
    pg_local_head product = target /\ pg_remote_head product = target /\ pg_dirty product = false /\
    pg_branch product = st_current_branch c.

Lemma eligible_product base target s s' : on_git (eligible_target c base target) s = (Ok tt, s') ->
  product_is s base target.
Proof.
  unfold product_is, on_git. destruct (eligible_target c base target (mkLogged (en_world s) [])) as [r l] eqn:He.
  intros [= -> _]. unfold eligible_target in He. rewrite py_bind_run in He.
  destruct (_observe_product_generation c base (mkLogged (en_world s) [])) as [[product|e] l1]; [|done].
  exists product. unfold engine_error in He.
  destruct (bool_decide (pg_branch product = _)) eqn:Hb; [|done]. apply bool_decide_eq_true in Hb.
  destruct (pg_dirty product) eqn:Hd; [done|]. cbn [negb] in He.
  destruct (String.eqb_spec (pg_local_head product) target); [|done]. cbn [negb] in He.
  by destruct (String.eqb_spec (pg_remote_head product) target).
Qed.
End Operations.

(** An interrupted rewrite whose authorization is on record. *)
Definition resumes_authorized (v : pyval) : bool :=
  match v with
  | PDict r => existsb (eq_str (get r "rewrite_stage")) ["local-pending"; "remote-pending"] &&
               is_true (get r "rewrite_authorized")
  | _ => false
  end.

Lemma pending_record_dict state k r : pending_reconciliation state k = Ok r -> get state "reconciliation" = PDict r.
Proof.
  unfold pending_reconciliation. destruct (get state "reconciliation"); try done.
  destruct (negb _); [done|]. destruct (negb _); [done|]. by intros [= ->].
Qed.

Lemma authority_allows r target b b' : rewrite_authority r target b = Ok b' ->
  b' = true -> b || resumes_authorized (PDict r) = true.
Proof.
  unfold rewrite_authority. intros (staged & Hs%in_strs_ok & Ha)%res_bind_ok Hb. cbn [resumes_authorized].
  rewrite <- Hs. destruct staged; cbn [negb andb] in *; [|injection Ha as ->; by rewrite Hb].
  destruct (negb _); [done|]. injection Ha as ->. exact Hb.
Qed.

(** An interrupted rewrite goes on to the target that it was started for. *)
Definition continues_to (v : pyval) (target : string) : Prop :=
  forall r, v = PDict r -> staged r ["local-pending"; "remote-pending"] -> get r "rewrite_target" = PStr target.

Lemma authority_continues r target b b' : rewrite_authority r target b = Ok b' -> continues_to (PDict r) target.
Proof.
  unfold rewrite_authority. intros (staged & Hs & Ha)%res_bind_ok r' [= <-] (stage & Hst & Hin).
  unfold rewrite_stage_of in Hs. rewrite Hst, in_strs_str, bool_decide_eq_true_2 in Hs by done. injection Hs as <-.
  cbn [negb] in Ha. destruct (eq_str _ target) eqn:He; [|done]. by apply eq_str_true.
Qed.

(** C4: a reconciliation with a new base announces what it does.  In every world,
    from every state, and wherever it fails: each command that changes the execution
    branch is licensed by the reconciliation record that was saved last.  The
    worker's commits are moved, in the worktree on record or the one that the state
    binds, only at the recorded stage, from the recorded base onto the recorded
    target; there the branch only ever returns to the recorded checkpoint; evidence
    is only created, in the product repository; the published branch is replaced from
    there only by the recorded head, leased on the recorded old one, and only when
    this request or the record of the rewrite that it resumes authorizes it.  When it
    succeeds, the reconciliation is resolved onto the commit that the request names,
    which is what this run observes of the product, here and on its remote, right
    after it read the request, and the recorded target when a rewrite was
    interrupted; the execution waits to be resumed on that base. *)
Theorem rewrite_is_announced {W St : Type} `{GitWorld W, !EngineWorld W, !HostWorld W}
    `{RuntimeStore St, !ObservableStore St} c k onto published (s : engine (W := W) (St := St)) :
  let record := get (en_state s) "reconciliation" in
  let '(result, s') := _reconcile_update_base_owned c k onto published s in
  exists new, en_effects s' = en_effects s ++ new /\
    recorded c (published || resumes_authorized record) (field (en_state s) "execution_path") record new /\
    match result with
    | Ok status => exists r target, record = PDict r /\ resolved_onto k target status (en_state s') /\
        fst (on_git (requested_target c onto) s) = Ok target /\
        product_is c (snd (on_git (requested_target c onto) s)) (record_text r "original_base") target /\
        continues_to record target
    | Raise _ => True
    end.
Proof.
  intros record. set (allowed := _ || _). set (home := field _ _).
  assert (Hs : stands home record (en_state s)) by done.
  set (Q := fun status d => exists r target, record = PDict r /\ resolved_onto k target status d /\
        fst (on_git (requested_target c onto) s) = Ok target /\
        product_is c (snd (on_git (requested_target c onto) s)) (record_text r "original_base") target /\
        continues_to record target).
  enough (wal_at c allowed home record s (fst (_reconcile_update_base_owned c k onto published s))
            (snd (_reconcile_update_base_owned c k onto published s)) Q) as Hw.
  { destruct (_reconcile_update_base_owned c k onto published s) as [result s'].
    destruct Hw as (new & He & Hn & _ & HQ). by exists new. }
  unfold _reconcile_update_base_owned. rewrite py_bind_run. cbn [state_now].
  apply lift_first; [done|]. intros r Hr%pending_record_dict. fold record in Hr.
  apply reads_first; [apply reads_target|done|]. intros target s1 Et Hs1.
  apply lift_first; [done|]. intros base Hb%text_item_record.
  apply reads_first; [apply reads_eligible|done|]. intros [] s2 Ee%eligible_product Hs2.
  eassert (wal c allowed home record _ Q) as Hrest; [|exact (Hrest s2 Hs2)].
  apply next_lift. intros evidence _. apply next_reads; [apply reads_preserved|]. intros _.
  eapply next_git; [eapply only_weaken; [apply reads_rewrites|apply reads_manager]| |].
  { intros l m Hm. exact (conj (manager_branch _ _ _ _ _ Hm) (manager_place _ _ _ _ _ Hm)). }
  intros m [Hm Hp]. apply next_lift. intros head Hh%text_item_record.
  eapply next_git; [eapply only_weaken; [apply reads_rewrites|apply reads_rewrite_workspace]| |].
  { apply (rewrite_workspace_located c home (mg_path m)); done. }
  intros ws Hws. apply next_lift. intros b Ha.
  assert (Hd : describes (mg_path m) r (mg_branch m) base head) by done.
  assert (Hal : b = true -> allowed = true).
  { intros Hbt. unfold allowed. rewrite Hr. by eapply authority_allows. }
  apply authority_continues in Ha as Hc.
  assert (HQ : forall status d, resolved_onto k target status d -> Q status d).
  { intros status d Hd'. exists r, target. rewrite Et, Hr, Hb. by split_and!. }
  rewrite Hr. eapply wal_bind_or; [by apply (resume_rewrite_wal _ _ _ (mg_path m) k target)|].
  intros [status|[r' ws']] d Hx; cbn in Hx; [right; exists status; split; [done|by apply HQ]|].
  destruct Hx as ([-> _] & Hd' & Hw'). left. eapply wal_weaken; [by eapply rewrite_wal|]. intros status d' Hq. by apply HQ.
Qed.
