(* ===== verification/RewriteReplay.v ===== *)
(** Reconciliations with a new base in a concrete repository: one that is completed
    and one that is resumed, and two that cannot be completed any more. *)

From S2P Require Import IterationReplay.
From S2P Require Export RewriteSafety.

(** * The repository *)

(** The product, and the execution branch with one worker commit: where the branch
    is, whether its worktree is left in a conflict, where it is on the remote, the
    references under refs/devlegate, whether a rebase conflicts, and whether the next
    pushes are refused. *)
Record lineage : Type := mkLineage {
  li_product : string;
  li_head : string;
  li_dirty : bool;
  li_remote : option string;
  li_refs : list (string * string);
  li_conflicts : bool;
  li_refused : list bool
}.

(** The original base, two later products, the worker's commit, and the commit that
    a rebase makes of it. *)
Definition base0 : string := object_name 1000.
Definition product1 : string := object_name 1002.
Definition product2 : string := object_name 1003.
Definition worker0 : string := object_name 1001.
Definition rewritten (target : string) : string := object_name (if (target =? product1)%string then 2002 else 2003).
Definition parent_of (commit : string) : string :=
  if (commit =? worker0)%string then base0
  else if (commit =? rewritten product1)%string then product1 else product2.

Definition in_lineage (head : string) (dirty : bool) (w : lineage) : lineage :=
  mkLineage (li_product w) head dirty (li_remote w) (li_refs w) (li_conflicts w) (li_refused w).

Definition host_of (w : lineage) : host := mkHost (ho_repository (sample_host false)) (Some (li_head w)) true (li_dirty w) false false.

Definition lineage_workspace (args : list string) (w : lineage) : option (CompletedProcess * lineage) :=
  match args with
  | ["rev-list"; "--parents"; _; _; commit] => Some (said (commit +:+ " " +:+ parent_of commit), w)
  | ["rev-list"; "--reverse"; _] => Some (said (li_head w), w)
  | ["rebase"; "--onto"; target; _] =>
      Some (if li_conflicts w then (refused, in_lineage (li_head w) true w)
            else (said "", in_lineage (rewritten target) false w))
  | ["rebase"; "--abort"] => Some (said "", in_lineage worker0 false w)
  | ["reset"; "--hard"; head] => Some (said "", in_lineage head false w)
  | "push" :: _ =>
      Some (if List.hd false (li_refused w)
            then (refused, mkLineage (li_product w) (li_head w) (li_dirty w) (li_remote w) (li_refs w) (li_conflicts w)
                             (tl (li_refused w)))
            else (said "", mkLineage (li_product w) (li_head w) (li_dirty w) (Some (li_head w)) (li_refs w)
                             (li_conflicts w) (tl (li_refused w))))
  | _ => None
  end.

Definition lineage_product (args : list string) (w : lineage) : option (CompletedProcess * lineage) :=
  match args with
  | ["symbolic-ref"; _; _; _] => Some (said "main", w)
  | ["rev-parse"; "HEAD"] => Some (said (li_product w), w)
  | ["rev-parse"; "--verify"; name] =>
      if starts_with "refs/devlegate/" name then Some (answer (dget (li_refs w) name), w)
      else if (name =? "origin/main")%string then Some (said (li_product w), w) else None
  | ["update-ref"; ref; head; _] =>
      Some (if has_key (li_refs w) ref then (refused, w)
            else (said "", mkLineage (li_product w) (li_head w) (li_dirty w) (li_remote w)
                             (li_refs w ++ [(ref, head)]) (li_conflicts w) (li_refused w)))
  | "ls-remote" :: _ => Some (said (default "" (li_remote w)), w)
  | "merge-base" :: _ => Some (said "", w)
  | _ => None
  end.

Definition lineage_run (dir : Path) (args : list string) (w : lineage) : res CompletedProcess * lineage :=
  match (if bool_decide (dir = workspace_path) then lineage_workspace args w
         else if bool_decide (dir = st_repo sample_settings) then lineage_product args w else None) with
  | Some (p, w') => (Ok p, w')
  | None => (fst (host_run dir args (host_of w)), w)
  end.

#[export] Instance lineage_git : GitWorld lineage := {
  gw_run := lineage_run;
  gw_run_input := fun _ _ _ w => (Ok (said ""), w);
  gw_mkdir := fun _ w => (Ok tt, w);
  gw_files := fun w => gw_files (host_of w);
  gw_edit := fun _ w => w;
  gw_cwd := fun _ => Path_of "/";
  gw_resolve := fun _ p => p;
  gw_is_symlink := fun _ _ => false;
  gw_is_dir := fun w p => gw_is_dir (host_of w) p;
  gw_exists := fun w p => gw_exists (host_of w) p;
  gw_has_entries := fun _ _ => true
}.

#[export] Instance lineage_engine : EngineWorld lineage := {
  ew_owner := fun _ => true;
  ew_abort_requested := fun _ => false
}.

#[export] Instance lineage_worker : HostWorld lineage := {
  hw_project_context := fun _ => Ok tt;
  hw_observe_worker := fun _ _ => "absent";
  hw_owns_worker := fun _ _ => false;
  hw_start := fun _ _ _ w => (None, w);
  hw_finish := fun _ _ w => (Raise (Exn PyAssertionError ""), w)
}.

(** A store that keeps the last state. *)
Record kept : Type := mkKept { kept_state : dict }.

#[export] Instance kept_store : RuntimeStore kept := {
  store_load := fun _ s => Ok (PDict (kept_state s));
  store_replace := fun _ d _ => (Ok tt, mkKept d)
}.

#[export] Instance kept_observable : ObservableStore kept := {
  store_observe := fun _ s => Ok (PDict (kept_state s), "")
}.

(** * The engine *)

Definition evidence0 : string := _reconciliation_evidence_ref "T1" "E1".

(** The worker's commit is preserved, and its branch is on the remote or not. *)
Definition lineage_record (remote : option string) : dict :=
  [("status", PStr "pending"); ("ticket_id", PStr "T1"); ("execution_id", PStr "E1");
   ("original_base", PStr base0); ("observed_product", PStr product1);
   ("worker_checkpoint", PStr worker0); ("product_remote_head", PStr product1);
   ("control_head", PStr (object_name 0)); ("execution_branch", PStr workspace_branch);
   ("execution_path", PStr "/x/work/T1"); ("evidence_ref", PStr evidence0);
   ("execution_remote_head", opt_str remote)].

Definition lineage_state (remote : option string) : dict :=
  [("phase", PStr "idle"); ("execution_ticket_id", PStr "T1"); ("execution_base_head", PStr base0);
   ("execution_branch", PStr workspace_branch); ("execution_path", PStr "/x/work/T1");
   ("execution_id", PStr "E1"); ("reconciliation", PDict (lineage_record remote))].

Abbreviation lineage_machine := (Engine.engine (W := lineage) (St := kept)).

Definition lineage_start (remote : option string) (conflicts : bool) (refused : list bool) : lineage_machine :=
  mkEngine (mkDurable (lineage_state remote) (mkKept (lineage_state remote)))
    (mkLineage product1 worker0 false remote [(evidence0, worker0)] conflicts refused)
    (mkInputs [] [] [] []) sample_memory [].

(** An operator's request, and what it left. *)
Definition request (onto : string) (published : bool) (s : lineage_machine) : res Z * lineage_machine :=
  _reconcile_update_base_owned sample_settings "T1" onto published s.

(** What the reconciliation record and the branch are. *)
Definition progress (s : lineage_machine) : string * string * (string * option string) :=
  let r := dict_of (get (en_state s) "reconciliation") in
  (py_str (get r "status"), py_str (get r "rewrite_stage"), (li_head (en_world s), li_remote (en_world s))).

(** A service that is started again on the database. *)
Definition restarted (s : lineage_machine) : lineage_machine :=
  let store := du_store (en_durable s) in
  let state := match _load_state "state.sqlite3" None store with Ok d => d | Raise _ => [] end in
  mkEngine (mkDurable state store) (en_world s) (mkInputs [] [] [] []) sample_memory [].

(** The product moves on, and rebases conflict no more. *)
Definition product_moves (s : lineage_machine) : lineage_machine :=
  let w := en_world s in
  set_world (mkLineage product2 (li_head w) (li_dirty w) (li_remote w) (li_refs w) false (li_refused w)) [] s.

(** ** Reconciliations that are completed *)

(** An unpublished branch is moved; a published one is replaced, with its
    authorization. *)
Example lineage_is_moved :
  (let '(r, s) := request product1 false (lineage_start None false []) in (r, progress s)) =
    (Ok 0%Z, ("resolved", "None", (rewritten product1, None))) /\
  (let '(r, s) := request product1 true (lineage_start (Some worker0) false []) in (r, progress s)) =
    (Ok 0%Z, ("resolved", "None", (rewritten product1, Some (rewritten product1)))) /\
  fst (request product1 false (lineage_start (Some worker0) false [])) =
    Raise (Exn DevlegateError ("published execution ref refs/heads/" +:+ workspace_branch +:+
                               " requires --rewrite-published authorization")).
Proof. vm_compute. split; [reflexivity|]. split; reflexivity. Qed.

(** ** Reconciliations that cannot be completed any more *)

(** The push of the rewritten branch is refused once. *)
Definition push_refused : lineage_machine := snd (request product1 true (lineage_start (Some worker0) false [true])).

(** The same request in a later process, the [n]-th after that. *)
Fixpoint later (n : nat) : lineage_machine :=
  match n with
  | O => restarted push_refused
  | S n => restarted (snd (request product1 true (later n)))
  end.

Lemma later_stays : later 3 = later 2.
Proof. vm_compute. reflexivity. Qed.

Lemma later_repeats n : later (S (S n)) = later 2.
Proof.
  induction n as [|n IH]; [reflexivity|].
  change (restarted (snd (request product1 true (later (S (S n))))) = later 2). rewrite IH. exact later_stays.
Qed.

(** In this repository a push that is refused once is final.  A published branch is rewritten, the
    rewritten head is pinned, and the push is refused, as it is when the connection
    breaks.  From then on every repetition of the request, in whatever later process
    and although pushes would succeed, takes the interrupted rewrite back, makes it
    again, and fails: the reference of the pinned head exists, and pinning only
    creates it.  The reconciliation stays pending, and the published branch is never
    replaced. *)
Theorem refused_push_is_final :
  fst (request product1 true (lineage_start (Some worker0) false [true])) = Raise (Exn DevlegateError "refused") /\
  forall n, li_refused (en_world (later n)) = [] /\
    fst (request product1 true (later n)) = Raise (Exn DevlegateError not_pinned) /\
    fst (fst (progress (later n))) = "pending" /\ li_remote (en_world (later n)) = Some worker0.
Proof.
  split; [vm_compute; reflexivity|].
  assert (H0 : forall s : lineage_machine, s = later 0 \/ s = later 1 \/ s = later 2 ->
    li_refused (en_world s) = [] /\ fst (request product1 true s) = Raise (Exn DevlegateError not_pinned) /\
    fst (fst (progress s)) = "pending" /\ li_remote (en_world s) = Some worker0).
  { intros s [->|[->| ->]]; (split; [|split; [|split]]); vm_compute; reflexivity. }
  intros [|[|n]]; apply H0; [by left|right; by left|]. right. right. apply later_repeats.
Qed.

(** A rebase that conflicted, and the product after it. *)
Definition conflicted : lineage_machine := snd (request product1 false (lineage_start None true [])).
Definition overtaken : lineage_machine := product_moves (restarted conflicted).

(** A conflict ties the execution to the product that it conflicted with.  After it
    the record stays at the stage of the interrupted rewrite.  Once the product
    moves on, no request is accepted: the old target is not the product any more,
    the new one is not the recorded one, and a resumption needs the original base.
    Without the attempt that conflicted, the new target would have been accepted. *)
Theorem conflict_is_final :
  fst (request product1 false (lineage_start None true [])) =
    Raise (Exn DevlegateError "reconciliation conflict; manual/advanced reconciliation is required") /\
  fst (request product1 true overtaken) =
    Raise (Exn DevlegateError "requested reconciliation target is not the current product HEAD") /\
  fst (request product2 true overtaken) =
    Raise (Exn DevlegateError "interrupted execution rewrite target does not match the requested target") /\
  (exists e, fst (_reconcile_resume_owned sample_settings "state.sqlite3" sample_yaml ["a"] ["b"] "T1" overtaken) =
    Raise e) /\
  fst (request product2 false (product_moves (lineage_start None false []))) = Ok 0%Z.
Proof. vm_compute. repeat (split; [first [reflexivity | eexists; reflexivity]|]). reflexivity. Qed.
