(* ===== verification/Containment.v ===== *)
(** The boundary of one execution, [src/devlegate/execution_containment.py]: what
    the supervisor asks of a boundary, the control group that provides it, and
    the classification of a recorded one.  The kernel's files, the clock and the
    start of a process are operations of a world; every observation and every
    change is recorded. *)

From S2P Require Export Workspace RuntimeData.

(** * Parsing what the kernel writes *)

(** The mount point in the first record of a cgroup2 hierarchy. *)
Fixpoint cgroup2_mount_of (lines : list string) : option Path :=
  match lines with
  | [] => None
  | line :: lines =>
      match partition_text " - " line with
      | Some (before, after) =>
          if bool_decide (take 1 (words after) = ["cgroup2"]) then
            let fields := words before in
            if (4 <? length fields)%nat then Some (Path_of (nth 4 fields ""))
            else cgroup2_mount_of lines
          else cgroup2_mount_of lines
      | None => cgroup2_mount_of lines
      end
  end.

Fixpoint current_cgroup_of (mount : Path) (lines : list string) : option Path :=
  match lines with
  | [] => None
  | line :: lines =>
      if starts_with "0::" line
      then Some (path_child mount (lstrip_char SLASH (String.substring 3 (String.length line) line)))
      else current_cgroup_of mount lines
  end.

(** The record of [cgroup.events] that says whether processes are left. *)
Definition populated_record (text : string) : option string :=
  List.find (starts_with "populated ") (splitlines text).

Definition parse_populated (text : string) : res bool :=
  match populated_record text with
  | Some state =>
      if (state =? "populated 0")%string || (state =? "populated 1")%string
      then Ok (ends_with "1" state)
      else raise ContainmentError "malformed cgroup.events"
  | None => raise ContainmentError "malformed cgroup.events"
  end.

Record ContainmentCapability : Type := mkCapability {
  cap_status : string;
  cap_root : option Path;
  cap_recursive_kill : bool;
  cap_detail : string
}.

Definition usable (c : ContainmentCapability) : bool := (cap_status c =? "available")%string.

(** * The world *)

(** [SIG0] only asks whether there is a process. *)
Inductive signal : Type := SIG0 | SIGINT | SIGTERM | SIGKILL.

#[global] Instance signal_eq_dec : EqDecision signal.
Proof. solve_decision. Defined.

(** What is started: the arguments, the directory and the environment. *)
Record launch : Type := mkLaunch {
  la_command : list string;
  la_cwd : Path;
  la_env : list (string * string)
}.

(** What a supervisor does to processes and boundaries, and what it sees of them. *)
Inductive action : Type :=
  | Spawned (started : launch)
  | ReadEvents (path : Path) (text : option string)
  | KilledGroup (path : Path)
  | RemovedGroup (path : Path)
  | CreatedGroup (path : Path)
  | Signalled (pid : Z) (sig : signal)
  | SignalledGroup (pgid : Z) (sig : signal)
  | Polled (running : bool)
  | Waited (finished : bool)
  | Persisted (identity : WorkerProcessIdentity)
  | Interrupted (kind : string)
  | MadeTree (path : Path)
  | RemovedTree (path : Path).

Class CgroupWorld (W : Type) : Type := {
  cw_read_text : Path -> py W string;
  cw_write_text : Path -> string -> py W unit;
  cw_mkdir : Path -> py W unit;
  cw_rmdir : Path -> py W unit;
  cw_kill : Z -> signal -> py W unit;
  cw_popen : launch -> py W Z;
  (** [subprocess.run]: the return code and the standard error *)
  cw_run : list string -> py W (Z * string);
  cw_is_dir : Path -> py W bool;
  cw_is_file : Path -> py W bool;
  (** [tempfile.mkstemp(prefix=...)], its descriptor closed *)
  cw_mkstemp : string -> py W Path;
  cw_unlink : Path -> bool -> py W unit;      (** [missing_ok] *)
  cw_monotonic : py W Z;      (** in milliseconds *)
  cw_sleep : Z -> py W unit;
  cw_launcher_interpreter : string;
  cw_executable : string;
  (** the platform is a Linux *)
  cw_linux : bool;
  (** [DEVLEGATE_CGROUP_ROOT] *)
  cw_configured : option string;
  cw_resolve : Path -> Path
}.

Record process_log (W : Type) : Type := mkLog { pl_world : W; pl_actions : list action }.
Arguments mkLog {W}.
Arguments pl_world {W}.
Arguments pl_actions {W}.

(** A call of the world, recorded with what came back. *)
Definition recorded {W A} (m : py W A) (what : res A -> list action) : py (process_log W) A := fun s =>
  let '(r, w) := m (pl_world s) in
  (r, mkLog w (pl_actions s ++ what r)).

Definition silently {W A} (m : py W A) : py (process_log W) A := recorded m (fun _ => []).

(** * A boundary *)

(** [ContainmentBoundary] *)
Record Boundary (W : Type) : Type := mkBoundary {
  bd_identity : option string;
  bd_spawn : launch -> py (process_log W) Z;
  bd_request_graceful : option Z -> py (process_log W) unit;
  bd_force_terminate : py (process_log W) unit;
  bd_wait_empty : Z -> py (process_log W) bool;
  bd_destroy : py (process_log W) unit;
  bd_diagnostics : py (process_log W) string
}.
Arguments mkBoundary {W}.
Arguments bd_identity {W}.
Arguments bd_spawn {W}.
Arguments bd_request_graceful {W}.
Arguments bd_force_terminate {W}.
Arguments bd_wait_empty {W}.
Arguments bd_destroy {W}.
Arguments bd_diagnostics {W}.

(** ** The control group *)

Definition _TRUSTED_JOINER : string :=
  "import os,sys;a=sys.argv[1:];i=a.index('--');c=a[a.index('--cgroup')+1];" +:+
  "f=os.open(os.path.join(c,'cgroup.procs'),os.O_WRONLY);" +:+
  "os.write(f,(str(os.getpid())+'\n').encode('ascii'));os.close(f);" +:+
  "os.execvpe(a[i+1],a[i+1:],os.environ)".

Record ExecutionContainment : Type := mkContainment {
  ec_path : Path;
  ec_recursive_kill : bool
}.

Section Cgroup.
Context {W : Type} `{CgroupWorld W}.

Abbreviation M := (py (process_log W)).

Definition _launcher_command (cgroup : Path) (command : list string) : list string :=
  [cw_launcher_interpreter (W := W); "-I"; "-S"; "-c"; _TRUSTED_JOINER; "execution-launcher"; "--cgroup";
   path_str cgroup; "--"] ++ command.

(** ** Capability *)

Definition _cgroup2_mount : M (option Path) :=
  py_catch (text ← silently (cw_read_text (Path_of "/proc/self/mountinfo"));
            mret (cgroup2_mount_of (splitlines text)))
    is_os_error (fun _ => mret None).

Definition _current_cgroup (mount : Path) : M (option Path) :=
  py_catch (text ← silently (cw_read_text (Path_of "/proc/self/cgroup"));
            mret (current_cgroup_of mount (splitlines text)))
    is_os_error (fun _ => mret None).

Definition _configured_root (mount : Path) : M (option Path) :=
  match cw_configured (W := W) with
  | Some configured =>
      if (configured =? "")%string then _current_cgroup mount
      else mret (Some (cw_resolve (W := W) (Path_of configured)))
  | None => _current_cgroup mount
  end.

(** [path.relative_to(other)] *)
Definition relative_to (path other : Path) : res Path :=
  if (p_root path =? p_root other)%string &&
     bool_decide (take (length (p_names other)) (p_names path) = p_names other)
  then Ok (mkPath "" (drop (length (p_names other)) (p_names path)))
  else raise PyValueError (repr_str (path_str path) +:+ " is not in the subpath of " +:+
                           repr_str (path_str other)).

Definition probe_program : string :=
  "import pathlib; pathlib.Path(__import__('sys').argv[1]).write_text(" +:+
  "pathlib.Path('/proc/self/cgroup').read_text())".

Definition no_subtree (root : option Path) (detail : string) : ContainmentCapability :=
  mkCapability "no-delegated-subtree" root false detail.

Definition remove_probe (probe : Path) : M unit :=
  recorded (cw_rmdir probe) (fun r => match r with Ok _ => [RemovedGroup probe] | _ => [] end).

(** Up to the creation of the marker: the answer, or the marker to go on with. *)
Definition probe_kill (root probe : Path) : M (ContainmentCapability + Path) :=
  _ ← recorded (cw_mkdir probe) (fun r => match r with Ok _ => [CreatedGroup probe] | _ => [] end);
  recursive_kill ← silently (cw_is_file (path_child probe "cgroup.kill"));
  if negb recursive_kill then
    _ ← remove_probe probe;
    mret (inl (mkCapability "no-recursive-kill" (Some root) false
                 "cgroup.kill is required for recursive termination"))
  else marker ← silently (cw_mkstemp "devlegate-cgroup-"); mret (inr marker).

Definition probe_join (mount root probe marker : Path) : M ContainmentCapability :=
  _ ← silently (cw_unlink marker false);
  child ← silently (cw_run (_launcher_command probe
    [cw_executable (W := W); "-c"; probe_program; path_str marker]));
  expected ← py_lift (relative_to probe mount);
  written ← silently (cw_is_file marker);
  observed ← (if (written : bool) then text ← silently (cw_read_text marker); mret (splitlines text)
              else mret []);
  let capability :=
    if negb (child.1 =? 0)%Z || negb (bool_decide ("0::/" +:+ path_str expected ∈ observed))
    then no_subtree (Some root)
           (let detail := strip child.2 in
            if (detail =? "")%string then "disposable child joined but membership was not observed"
            else detail)
    else mkCapability "available" (Some root) true "" in
  _ ← silently (cw_unlink marker true);
  _ ← remove_probe probe;
  mret capability.

Definition attempt {A} (m : M A) : M (res A) := fun s => let '(r, s') := m s in (Ok r, s').

(** The [except] clause. *)
Definition probe_failed (root probe : Path) (marker : option Path) (error : exn) : M ContainmentCapability :=
  if is_os_error error || is_class PyValueError error then
    _ ← (match marker with Some marker => silently (cw_unlink marker true) | None => mret tt end);
    _ ← py_catch (remove_probe probe) is_os_error (fun _ => mret tt);
    mret (no_subtree (Some root) (exn_msg error))
  else fun s => (Raise error, s).

Definition probe_containment : M ContainmentCapability :=
  if negb (cw_linux (W := W)) then mret (mkCapability "unsupported" None false "Linux is required") else
  found ← _cgroup2_mount;
  match found with
  | None => mret (mkCapability "no-unified-hierarchy" None false "cgroup v2 is not mounted")
  | Some mount =>
      configured ← _configured_root mount;
      match configured with
      | None => mret (no_subtree None "no delegated cgroup root")
      | Some root =>
          delegated ← silently (cw_is_dir root);
          if negb delegated then mret (no_subtree None "no delegated cgroup root") else
          let probe := path_child root ".devlegate-capability-probe" in
          first ← attempt (probe_kill root probe);
          match first with
          | Raise error => probe_failed root probe None error
          | Ok (inl capability) => mret capability
          | Ok (inr marker) =>
              second ← attempt (probe_join mount root probe marker);
              match second with
              | Ok capability => mret capability
              | Raise error => probe_failed root probe (Some marker) error
              end
          end
      end
  end.

(** ** One execution *)

(** [character.isalnum()] of one character *)
Variable isalnum : string -> bool.

Definition safe_character (character : string) : string :=
  if isalnum character || bool_decide (character ∈ ["-"; "_"]) then character else "_".

Definition safe_id (execution_id : string) : string :=
  of_chars (map safe_character (utf8_chars execution_id)).

(** [ExecutionContainment.create] *)
Definition create (execution_id : string) : M ExecutionContainment :=
  capability ← probe_containment;
  match usable capability, cap_root capability with
  | true, Some root =>
      let path := path_child root ("execution-" +:+ safe_id execution_id) in
      _ ← py_catch (recorded (cw_mkdir path) (fun r => match r with Ok _ => [CreatedGroup path] | _ => [] end))
            is_os_error
            (fun error => py_raise ContainmentError
               ("cannot create execution cgroup " +:+ path_str path +:+ ": " +:+ exn_msg error));
      mret (mkContainment path (cap_recursive_kill capability))
  | _, _ =>
      py_raise ContainmentError
        ("execution containment unavailable: " +:+ cap_status capability +:+ ": " +:+ cap_detail capability)
  end.

Section Methods.
Variable self : ExecutionContainment.

Definition events_file : Path := path_child (ec_path self) "cgroup.events".

Definition read_events : M string :=
  recorded (cw_read_text events_file)
    (fun r => [ReadEvents (ec_path self) (match r with Ok text => Some text | Raise _ => None end)]).

Definition populated : M bool :=
  text ← read_events;
  py_lift (parse_populated text).

Definition spawn (started : launch) : M Z :=
  match la_command started with
  | [] => py_raise ContainmentError "execution command must be a non-empty argv"
  | command =>
      let launcher := mkLaunch (_launcher_command (ec_path self) command) (la_cwd started) (la_env started) in
      recorded (cw_popen launcher) (fun r => match r with Ok _ => [Spawned launcher] | _ => [] end)
  end.

Definition request_graceful (pid : option Z) : M unit :=
  match pid with
  | Some pid => py_catch (recorded (cw_kill pid SIGTERM) (fun _ => [Signalled pid SIGTERM])) is_os_error
                  (fun _ => mret tt)
  | None => mret tt
  end.

Definition force_terminate : M unit :=
  if negb (ec_recursive_kill self)
  then py_raise ContainmentError "recursive cgroup termination is unavailable"
  else py_catch (recorded (cw_write_text (path_child (ec_path self) "cgroup.kill") ("1" +:+ LF))
                   (fun r => match r with Ok _ => [KilledGroup (ec_path self)] | _ => [] end))
         is_os_error
         (fun error => py_raise ContainmentError
            ("cannot recursively terminate execution cgroup: " +:+ exn_msg error)).

(** The loop of [wait_empty]; each turn sleeps for 50 ms. *)
Fixpoint wait_until (fuel : nat) (deadline : Z) : M bool :=
  match fuel with
  | O => mret false
  | S fuel =>
      busy ← populated;
      if negb busy then mret true
      else time ← silently cw_monotonic;
           if (deadline <=? time)%Z then mret false
           else _ ← silently (cw_sleep 50); wait_until fuel deadline
  end.

(** Turns enough for a wait of [timeout] milliseconds. *)
Definition wait_turns (timeout : Z) : nat := Z.to_nat (timeout / 50 + 2).

Definition wait_empty (timeout : Z) : M bool :=
  time ← silently cw_monotonic;
  wait_until (wait_turns timeout) (time + timeout)%Z.

Definition destroy : M unit :=
  busy ← populated;
  if (busy : bool) then py_raise ContainmentError "cannot destroy populated execution cgroup"
  else py_catch
         (py_catch (recorded (cw_rmdir (ec_path self))
                      (fun r => match r with Ok _ => [RemovedGroup (ec_path self)] | _ => [] end))
            (is_class PyFileNotFoundError) (fun _ => mret tt))
         is_os_error
         (fun error => py_raise ContainmentError
            ("cannot destroy execution cgroup " +:+ path_str (ec_path self) +:+ ": " +:+ exn_msg error)).

Definition boundary : Boundary W :=
  mkBoundary (Some ("cgroup:" +:+ path_str (ec_path self))) spawn request_graceful force_terminate
    wait_empty destroy (mret "").
End Methods.

(** [LinuxCgroupContainmentProvider.observe] *)
Definition classify_events (text : res string) : res string :=
  match text with
  | Ok text =>
      match populated_record text with
      | Some record =>
          if (record =? "populated 1")%string then Ok "matching-live"
          else if (record =? "populated 0")%string then Ok "absent"
          else Ok "indeterminate"
      | None => Ok "indeterminate"
      end
  | Raise e =>
      if is_class PyFileNotFoundError e then Ok "absent"
      else if is_os_error e then Ok "indeterminate" else Raise e
  end.

Definition observe_boundary (identity : string) : M string :=
  if negb (starts_with "cgroup:" identity) then mret "indeterminate" else
  let path := Path_of (String.substring 7 (String.length identity) identity) in
  fun s =>
    let '(text, s') := recorded (cw_read_text (path_child path "cgroup.events"))
      (fun r => [ReadEvents path (match r with Ok text => Some text | Raise _ => None end)]) s in
    (classify_events text, s').
End Cgroup.

(** * Laws *)

Lemma recorded_run {W A} (m : py W A) what (s : process_log W) :
  recorded m what s =
    ((m (pl_world s)).1, mkLog (m (pl_world s)).2 (pl_actions s ++ what (m (pl_world s)).1)).
Proof. unfold recorded. by destruct (m (pl_world s)). Qed.

(** [m] only adds actions, and each of them satisfies [P]. *)
Definition adds {W A} (P : action -> Prop) (m : py (process_log W) A) : Prop := forall s, exists acts,
  pl_actions (m s).2 = pl_actions s ++ acts /\ Forall P acts.

Section Adds.
Context {W : Type} (P : action -> Prop).

Lemma adds_recorded {A} (m : py W A) what : (forall r, Forall P (what r)) -> adds P (recorded m what).
Proof. intros Hw s. rewrite recorded_run. eexists. by split. Qed.

Lemma adds_silently {A} (m : py W A) : adds P (silently m).
Proof. apply adds_recorded. by constructor. Qed.

Lemma adds_ret {A} (a : A) : adds (W := W) P (mret a).
Proof. intros s. exists []. by rewrite app_nil_r. Qed.

Lemma adds_lift {A} (r : res A) : adds (W := W) P (py_lift r).
Proof. intros s. exists []. by rewrite app_nil_r. Qed.

Lemma adds_raise {A} k msg : adds (W := W) P (py_raise (A := A) k msg).
Proof. intros s. exists []. by rewrite app_nil_r. Qed.

Lemma adds_bind {A B} (m : py (process_log W) A) (k : A -> py (process_log W) B) :
  adds P m -> (forall a, adds P (k a)) -> adds P (m ≫= k).
Proof.
  intros Hm Hk s. run. destruct (Hm s) as (acts & E & Ha). destruct (m s) as [[a|e] s']; cbn in *; [|eauto].
  destruct (Hk a s') as (acts' & E' & Ha'). exists (acts ++ acts').
  by rewrite E', E, <- app_assoc, Forall_app.
Qed.

Lemma adds_catch {A} (m : py (process_log W) A) p h :
  adds P m -> (forall e, adds P (h e)) -> adds P (py_catch m p h).
Proof.
  intros Hm Hh s. unfold py_catch. destruct (Hm s) as (acts & E & Ha).
  destruct (m s) as [[a|e] s']; cbn in *; [eauto|]. destruct (p e); [|eauto].
  destruct (Hh e s') as (acts' & E' & Ha'). exists (acts ++ acts').
  by rewrite E', E, <- app_assoc, Forall_app.
Qed.

Lemma adds_if {A} (b : bool) (m k : py (process_log W) A) : adds P m -> adds P k -> adds P (if b then m else k).
Proof. by destruct b. Qed.
End Adds.

#[export] Hint Resolve adds_silently adds_ret adds_lift adds_raise adds_bind adds_catch adds_if : adds.

(** The observation that no process is left in a group. *)
Definition empty_seen (path : Path) (a : action) : Prop :=
  exists text, a = ReadEvents path (Some text) /\ parse_populated text = Ok false.

Section CgroupLaws.
Context {W : Type} `{CgroupWorld W} (self : ExecutionContainment).

Definition reads_events (a : action) : Prop := exists text, a = ReadEvents (ec_path self) text.

Lemma populated_reads : adds (W := W) reads_events (populated self).
Proof.
  apply adds_bind; [|eauto with adds]. apply adds_recorded. intros r. repeat constructor. by eexists.
Qed.

(** Whether processes are left is what the last reading of the events says. *)
Lemma populated_ok (s : process_log W) b s' : populated self s = (Ok b, s') ->
  exists text, pl_actions s' = pl_actions s ++ [ReadEvents (ec_path self) (Some text)] /\
    parse_populated text = Ok b.
Proof.
  unfold populated, read_events. run. rewrite recorded_run.
  destruct (cw_read_text _ (pl_world s)) as [[text|e] w]; cbn; [|done].
  intros [= Hp <-]. by exists text.
Qed.

Lemma wait_until_empty fuel deadline (s : process_log W) s' : wait_until self fuel deadline s = (Ok true, s') ->
  exists acts a, pl_actions s' = pl_actions s ++ acts ++ [a] /\ Forall reads_events acts /\
    empty_seen (ec_path self) a.
Proof.
  revert s. induction fuel as [|fuel IH]; intros s; [done|]. cbn [wait_until]. run.
  destruct (populated self s) as [[busy|e] s1] eqn:E; [|done].
  apply populated_ok in E as (text & E & Hp). destruct busy; cbn [negb].
  - unfold silently. run. rewrite recorded_run. destruct (cw_monotonic _) as [[time|e] w]; cbn [fst snd]; [|done].
    destruct (_ <=? _)%Z; [done|]. run. rewrite recorded_run.
    destruct (cw_sleep 50 _) as [[u|e] w2]; cbn [fst snd]; [|done].
    intros Hw. apply IH in Hw as (acts & a & Hw & Ha & Hs). cbn [pl_actions] in Hw.
    rewrite !app_nil_r, E in Hw. exists (ReadEvents (ec_path self) (Some text) :: acts), a.
    rewrite Hw, <- !app_assoc. split_and!; [done| |done]. constructor; [by eexists|done].
  - intros [= <-]. exists [], (ReadEvents (ec_path self) (Some text)).
    split_and!; [by rewrite E|constructor|]. by exists text.
Qed.

Lemma wait_empty_true timeout (s : process_log W) s' : wait_empty self timeout s = (Ok true, s') ->
  exists acts a, pl_actions s' = pl_actions s ++ acts ++ [a] /\ Forall reads_events acts /\
    empty_seen (ec_path self) a.
Proof.
  unfold wait_empty, silently. run. rewrite recorded_run.
  destruct (cw_monotonic _) as [[time|e] w]; cbn [fst snd]; [|done].
  intros Hw. apply wait_until_empty in Hw as (acts & a & Hw & ?). exists acts, a.
  cbn [pl_actions] in Hw. by rewrite app_nil_r in Hw.
Qed.

(** A group that is destroyed was seen empty, and nothing happened since. *)
Lemma destroy_ok (s : process_log W) s' : destroy self s = (Ok tt, s') ->
  exists a, empty_seen (ec_path self) a /\
    (pl_actions s' = pl_actions s ++ [a] \/
     pl_actions s' = pl_actions s ++ [a; RemovedGroup (ec_path self)]).
Proof.
  unfold destroy. run. destruct (populated self s) as [[busy|e] s1] eqn:E; [|done].
  apply populated_ok in E as (text & E & Hp). destruct busy; [done|].
  unfold py_catch. rewrite recorded_run. intros Hd.
  exists (ReadEvents (ec_path self) (Some text)). split; [by exists text|].
  destruct (cw_rmdir _ _) as [[u|e] w]; cbn in Hd.
  - injection Hd as _ <-. right. cbn. by rewrite E, <- app_assoc.
  - left. destruct (is_class PyFileNotFoundError e).
    + injection Hd as <-. cbn. by rewrite app_nil_r, E.
    + destruct (is_os_error e); [done|]. done.
Qed.

(** ** The wait ends *)

(** The clock does not run backwards, and sleeping takes the time asked for. *)
Record steady_clock (clock : W -> Z) : Prop := {
  sc_read : forall w, exists w', cw_monotonic w = (Ok (clock w'), w') /\ (clock w <= clock w')%Z;
  sc_sleep : forall d w, (clock w + d <= clock (cw_sleep d w).2)%Z;
  sc_text : forall p w, (clock w <= clock (cw_read_text p w).2)%Z
}.

Lemma wait_until_enough clock : steady_clock clock -> forall f g deadline (s : process_log W),
  (deadline - clock (pl_world s) < 50 * Z.of_nat f - 50)%Z -> (f <= g)%nat -> (0 < f)%nat ->
  wait_until self g deadline s = wait_until self f deadline s.
Proof.
  intros Hc f. induction f as [|f IH]; intros g deadline s Hd Hle Hpos; [lia|].
  destruct g as [|g]; [lia|]. cbn [wait_until]. rewrite !py_bind_run.
  assert (clock (pl_world s) <= clock (pl_world (populated self s).2))%Z as Hp.
  { unfold populated, read_events. run. rewrite recorded_run.
    pose proof (sc_text clock Hc (events_file self) (pl_world s)) as Ht.
    by destruct (cw_read_text _ _) as [[text|e] w]. }
  destruct (populated self s) as [[busy|e] s1]; [|done]. destruct busy; cbn [negb]; [|done].
  unfold silently. rewrite !py_bind_run, recorded_run.
  destruct (sc_read clock Hc (pl_world s1)) as (w & Em & Hw). rewrite Em. cbn [fst snd] in *.
  destruct (Z.leb_spec deadline (clock w)) as [Hlate|Hearly]; [done|].
  rewrite !py_bind_run, recorded_run. cbn [pl_world].
  pose proof (sc_sleep clock Hc 50 w) as Hsl. destruct (cw_sleep 50 w) as [[u|e] w2]; cbn [fst snd] in *; [|done].
  destruct f as [|f]; [lia|]. apply IH; cbn [pl_world]; lia.
Qed.
End CgroupLaws.

(** What a recorded boundary is taken for. *)
Lemma classified_absent text : classify_events text = Ok "absent" ->
  (exists e, text = Raise e /\ exn_cls e = PyFileNotFoundError) \/
  (exists t, text = Ok t /\ parse_populated t = Ok false).
Proof.
  unfold classify_events. destruct text as [t|e].
  - intros H. right. exists t. split; [done|]. unfold parse_populated.
    destruct (populated_record t) as [r|]; [|done].
    destruct (r =? "populated 1")%string; [done|].
    destruct (r =? "populated 0")%string eqn:E; [|done]. by apply String.eqb_eq in E as ->.
  - unfold is_class. case_bool_decide as E; [left; eauto|]. by destruct (is_os_error e).
Qed.

Lemma classified_live text : classify_events text = Ok "matching-live" <->
  exists t, text = Ok t /\ parse_populated t = Ok true.
Proof.
  unfold classify_events, parse_populated. destruct text as [t|e].
  - transitivity (match populated_record t with Some r => r = "populated 1" | None => False end).
    + destruct (populated_record t) as [r|]; [|done].
      destruct (r =? "populated 1")%string eqn:E; [by apply String.eqb_eq in E|].
      apply String.eqb_neq in E. by destruct (r =? "populated 0")%string.
    + transitivity (match populated_record t with
        | Some state => if (state =? "populated 0")%string || (state =? "populated 1")%string
                        then Ok (ends_with "1" state) else raise ContainmentError "malformed cgroup.events"
        | None => raise ContainmentError "malformed cgroup.events" end = Ok true);
        [|split; [by exists t|by intros (t' & [= <-] & Ht)]].
      destruct (populated_record t) as [r|]; [|done].
      destruct (r =? "populated 1")%string eqn:E1; [by apply String.eqb_eq in E1 as ->|].
      destruct (r =? "populated 0")%string eqn:E0; [by apply String.eqb_eq in E0 as ->|].
      apply String.eqb_neq in E1. done.
  - split; [|by intros (t & ? & _)]. destruct (is_class _ e); [done|]. by destruct (is_os_error e).
Qed.
