(* ===== verification/WorkerSupervisor.v ===== *)
(** The supervision of one worker process, [src/devlegate/worker_supervisor.py]: the
    identity of a process and its later classification, the run of a worker from
    its start to the retirement of its boundary, and the supervisor that admits
    runs until it drains.  Processes, signals and boundaries are operations of a
    world; what is done to them is recorded. *)

From S2P Require Export WorkerText Containment.

(** * Identity *)

(** [int(text)] of ASCII text without white space: a sign, digits, single
    underscores between digits. *)
Fixpoint int_digits (fuel : bool) (acc : Z) (s : string) : option Z :=
  match s with
  | EmptyString => if fuel then Some acc else None
  | String c s' =>
      if is_digit c then int_digits true (acc * 10 + Z.of_N (byte_val c - 48)) s'
      else if (byte_val c =? 95)%N && fuel then int_digits false acc s'
      else None
  end.

Definition parse_int (s : string) : option Z :=
  match s with
  | String c s' =>
      if (byte_val c =? 45)%N then option_map Z.opp (int_digits false 0 s')
      else if (byte_val c =? 43)%N then int_digits false 0 s'
      else int_digits false 0 s
  | EmptyString => None
  end.

(** The text after the last occurrence of a byte. *)
Fixpoint after_last (c : Ascii.ascii) (s : string) : option string :=
  match s with
  | EmptyString => None
  | String d s' =>
      match after_last c s' with
      | Some rest => Some rest
      | None => if Ascii.eqb d c then Some s' else None
      end
  end.

Definition CLOSING : Ascii.ascii := Ascii.ascii_of_N 41.

Definition malformed_identity {A} : res A :=
  raise WorkerSupervisionError "worker process identity is malformed".

(** [_linux_process_start_time], on the text of [/proc/<pid>/stat] *)
Definition start_time_of (stat : string) : res Z :=
  match after_last CLOSING stat with
  | None => malformed_identity
  | Some rest =>
      match words (of_chars (drop 1 (utf8_chars rest))) !! 19 with
      | Some field => match parse_int field with Some n => Ok n | None => malformed_identity end
      | None => malformed_identity
      end
  end.

(** * The world *)

Record streams : Type := mkStreams {
  sr_stdout : string;
  sr_stderr : string;
  (** which thread writes next, while both have something to write *)
  sr_order : list bool;
  sr_stdin : option stdin_pipe;
  (** the thread of the prompt has ended when it is joined, with a time limit *)
  sr_prompt_joined : bool
}.

Class ProcessWorld (W : Type) : Type := {
  pw_linux : bool;
  pw_popen : launch -> py W Z;
  pw_poll : py W (option Z);
  (** [process.wait(timeout)]; [None] is [TimeoutExpired] *)
  pw_wait : Z -> py W (option Z);
  pw_wait_exit : py W Z;
  pw_getpgid : Z -> py W Z;
  pw_getsid : Z -> py W Z;
  pw_killpg : Z -> signal -> py W unit;
  pw_boot_id : py W string;
  pw_stat : Z -> py W string;
  (** [getattr(stop_request, "kind", None)] *)
  pw_stop_kind : py W (option string);
  (** everything that goes through the pipes of the process *)
  pw_streams : py W streams;
  (** the message of [UnicodeEncodeError] *)
  pw_encode_error : string;
  pw_environ : list (string * string);
  pw_resolve : Path -> Path;
  (** [tempfile.mkdtemp(prefix=...)], [mkdir], [write_text] and
      [shutil.rmtree(..., ignore_errors=True)] *)
  pw_mkdtemp : string -> py W Path;
  pw_mkdir : Path -> py W unit;
  pw_write_text : Path -> string -> py W unit;
  pw_rmtree : Path -> W -> W;
  (** opening the execution log for appending *)
  pw_open_log : Path -> py W unit
}.

(** The calls of two threads, in the order that a schedule gives them. *)
Fixpoint merge {A} (order : list bool) (l1 l2 : list A) : list A :=
  match l1 with
  | [] => l2
  | x :: l1' =>
      (fix go (order : list bool) (l2 : list A) : list A :=
         match l2, order with
         | [], _ | _, [] => x :: merge [] l1' l2
         | y :: l2', false :: order' => y :: go order' l2'
         | _ :: _, true :: order' => x :: merge order' l1' l2
         end) order l2
  end.

Section Identity.
Context {W : Type} `{ProcessWorld W}.

Abbreviation M := (py (process_log W)).

Definition supervision_error {A} (message : string) : M A := py_raise WorkerSupervisionError message.

Definition poll : M bool :=
  returncode ← recorded pw_poll (fun r => match r with Ok c => [Polled (is_missing c)] | Raise _ => [] end);
  mret (is_missing returncode).

Definition _capture_worker_identity (pid : Z) (execution_id : string) (containment_id : option string)
    : M WorkerProcessIdentity :=
  if negb (pw_linux (W := W)) then supervision_error "strong worker process identity is unavailable" else
  running ← poll;
  if negb running then supervision_error "worker exited before identity capture" else
  pgid ← silently (pw_getpgid pid);
  sid ← silently (pw_getsid pid);
  if (pid <=? 0)%Z || (pgid <=? 0)%Z || (sid <=? 0)%Z || negb (pgid =? pid)%Z || negb (sid =? pid)%Z
  then supervision_error "worker process group/session identity is invalid" else
  text ← silently pw_boot_id;
  let boot_id := strip text in
  stat ← silently (pw_stat pid);
  start_time ← py_lift (start_time_of stat);
  if (boot_id =? "")%string || (start_time <? 0)%Z
  then supervision_error "worker process identity is incomplete"
  else mret (mkWorkerIdentity execution_id pid pgid sid boot_id start_time containment_id).

Definition _worker_group_exists (pgid : Z) : M bool :=
  py_catch (_ ← silently (pw_killpg pgid SIG0); mret true) is_os_error (fun _ => mret false).

(** [observe_worker_identity]: the first [try], then the rest. *)
Definition observe_start (identity : WorkerProcessIdentity) : M (string + Z) :=
  py_catch
    (py_catch
       (text ← silently pw_boot_id;
        if negb (strip text =? wi_boot_id identity)%string then mret (inl "absent")
        else stat ← silently (pw_stat (wi_pid identity));
             current_start ← py_lift (start_time_of stat);
             mret (inr current_start))
       (is_class WorkerSupervisionError) (fun _ => mret (inl "indeterminate")))
    is_os_error
    (fun _ => alive ← _worker_group_exists (wi_pgid identity);
              mret (inl (if (alive : bool) then "indeterminate" else "absent"))).

Definition observe_group (identity : WorkerProcessIdentity) : M string :=
  py_catch
    (pgid ← silently (pw_getpgid (wi_pid identity));
     if negb (pgid =? wi_pgid identity)%Z then mret "indeterminate"
     else sid ← silently (pw_getsid (wi_pid identity));
          mret (if negb (sid =? wi_sid identity)%Z then "indeterminate" else "matching-live"))
    is_os_error (fun _ => mret "indeterminate").

Definition observe_worker_identity (identity : WorkerProcessIdentity) : M string :=
  if negb (pw_linux (W := W)) then mret "indeterminate" else
  started ← observe_start identity;
  match started with
  | inl answer => mret answer
  | inr current_start =>
      if negb (current_start =? wi_start_time identity)%Z then mret "absent"
      else observe_group identity
  end.
End Identity.

(** * One run *)

Definition WORKER_TERMINATION_TIMEOUT : Z := 1000.
Definition WORKER_WAIT_INTERVAL : Z := 50.

(** [except (OSError, ContainmentError)]; a failing log is an [OSError] *)
Definition is_containment_error (e : exn) : bool :=
  is_os_error e || is_class OperationalLogError e || is_class ContainmentError e.

(** What the joined threads have left behind. *)
Record joined (H : Type) : Type := mkJoined {
  jn_transport_error : option string;
  jn_log_error : option string;
  jn_prompt_error : option string;
  jn_handler : H;
  jn_output : output
}.
Arguments mkJoined {H}.
Arguments jn_transport_error {H}.
Arguments jn_log_error {H}.
Arguments jn_prompt_error {H}.
Arguments jn_handler {H}.
Arguments jn_output {H}.

Definition join_threads {H} (event_handler : option (H -> pyval -> res H)) (h : H) (sk : sinks)
    (encode_error prompt : string) (io : streams) : joined H :=
  let r := (consume_stdout event_handler (sr_stdout io) (new_reader h)).2 in
  let o := write_all_calls sk (merge (sr_order io) (rd_writes r) (consume_stderr (sr_stderr io))) in
  mkJoined (rd_transport_error r) (out_log_error o)
    (if sr_prompt_joined io then (deliver_prompt (sr_stdin io) encode_error prompt).1 else None)
    (rd_handler r) o.

(** [first or second] *)
Definition or_else (first second : option string) : option string :=
  match first with
  | Some text => if (text =? "")%string then second else first
  | None => second
  end.

Section Run.
Context {W H : Type} `{ProcessWorld W}.
Variable containment : option (Boundary W).
Variable event_handler : option (H -> pyval -> res H).
Variable worker_identity_handler : option (WorkerProcessIdentity -> py W unit).
Variable interruption_handler : option (string -> py W unit).
Variable execution_id : option string.
Variable stop_request : bool.    (** not [None] *)
Variable sk : sinks.

Abbreviation M := (py (process_log W)).

Definition with_boundary {A} (a : A) (m : Boundary W -> M A) : M A :=
  match containment with Some b => m b | None => mret a end.

(** [os.killpg(group, sig)], and whether it got there *)
Definition kill_group (group : option Z) (sig : signal) : M bool :=
  match group with
  | None => mret false
  | Some pgid =>
      py_catch (_ ← recorded (pw_killpg pgid sig)
                  (fun r => match r with Ok _ => [SignalledGroup pgid sig] | Raise _ => [] end);
                mret true)
        is_os_error (fun _ => mret false)
  end.

Definition wait_for (timeout : Z) : M (option Z) :=
  recorded (pw_wait timeout) (fun r => match r with Ok c => [Waited (negb (is_missing c))] | Raise _ => [] end).

Definition wait_exit : M Z :=
  recorded pw_wait_exit (fun r => match r with Ok _ => [Waited true] | Raise _ => [] end).

(** [except Exception as error]: the text of the exception *)
Definition failure_of (m : M unit) : M (option string) :=
  py_catch (_ ← m; mret None) is_exception (fun error => mret (Some (exn_msg error))).

(** [interruption_kind] and [interruption_error] *)
Definition interruption : Type := option string * option string.

Definition interrupt (pid : Z) (group : option Z) (kind : string) : M interruption :=
  running ← poll;
  if negb running || is_missing group then mret (None, None) else
  _ ← with_boundary tt (fun b => bd_request_graceful b (Some pid));
  sent ← kill_group group (if (kind =? "operator_abort")%string then SIGINT else SIGTERM);
  if negb sent then mret (None, None) else
  match interruption_handler with
  | None => mret (Some kind, None)
  | Some handler =>
      error ← failure_of (recorded (handler kind) (fun _ => [Interrupted kind]));
      mret (Some kind, option_map (fun text => "interruption persistence failed: " +:+ text) error)
  end.

Definition finish_interrupted (group : option Z) : M Z :=
  finished ← wait_for WORKER_TERMINATION_TIMEOUT;
  returncode ←
    (match finished with
     | Some returncode => mret returncode
     | None =>
         _ ← with_boundary tt bd_force_terminate;
         _ ← kill_group group SIGKILL;
         wait_exit
     end);
  _ ← with_boundary tt bd_force_terminate;
  mret returncode.

Definition capture_identity (pid : Z) (group : option Z) : M (option string) :=
  match worker_identity_handler, execution_id with
  | Some handler, Some execution_id =>
      running ← poll;
      if negb running then mret None else
      error ← failure_of
        (identity ← _capture_worker_identity pid execution_id
                      (match containment with Some b => bd_identity b | None => None end);
         recorded (handler identity) (fun _ => [Persisted identity]));
      match error with
      | None => mret None
      | Some text =>
          running ← poll;
          if negb running then mret None else
          _ ← kill_group group SIGTERM;
          mret (Some ("worker identity persistence failed: " +:+ text))
      end
  | _, _ => mret None
  end.

(** The loop that watches for a stop request, [None] while it runs. *)
Fixpoint watch (fuel : nat) (pid : Z) (group : option Z) : M (option (Z * interruption)) :=
  match fuel with
  | O => mret None
  | S fuel =>
      finished ← wait_for WORKER_WAIT_INTERVAL;
      match finished with
      | Some returncode => mret (Some (returncode, (None, None)))
      | None =>
          kind ← silently pw_stop_kind;
          if bool_decide (kind = Some "operator_abort") then
            state ← interrupt pid group "operator_abort";
            returncode ← finish_interrupted group;
            mret (Some (returncode, state))
          else watch fuel pid group
      end
  end.

Definition supervise (fuel : nat) (pid : Z) (group : option Z) (identity_error : option string)
    : M (option (Z * interruption)) :=
  match identity_error with
  | Some _ => returncode ← finish_interrupted group; mret (Some (returncode, (None, None)))
  | None =>
      if negb stop_request then
        py_catch (returncode ← wait_exit; mret (Some (returncode, (None, None))))
          (is_class PyKeyboardInterrupt)
          (fun _ => state ← interrupt pid group "operator_abort";
                    returncode ← finish_interrupted group;
                    mret (Some (returncode, state)))
      else watch fuel pid group
  end.

Definition transport_after (j : joined H) (identity_error : option string) (state : interruption)
    : option string :=
  match identity_error, jn_log_error j, state.2 with
  | Some error, _, _ => Some error
  | None, Some error, _ => Some error
  | None, None, Some error => Some error
  | None, None, None =>
      match jn_prompt_error j, state.1 with
      | Some error, None => or_else (jn_transport_error j) (Some error)
      | _, _ => jn_transport_error j
      end
  end.

Definition is_boundary_error (e : exn) : bool := is_os_error e || is_class ContainmentError e.

Definition waits_empty (b : Boundary W) : M bool :=
  py_catch (bd_wait_empty b WORKER_TERMINATION_TIMEOUT) is_boundary_error (fun _ => mret false).

Definition observe_retired (kind : option string) : M bool :=
  match containment with
  | None => mret (is_missing worker_identity_handler)
  | Some b =>
      group_retired ← waits_empty b;
      if negb group_retired && negb (is_missing kind)
      then _ ← bd_force_terminate b; waits_empty b
      else mret group_retired
  end.

(** The last word on [transport_error] and [group_retired]. *)
Definition retire (transport_error : option string) (kind : option string) : M (option string * bool) :=
  group_retired ← observe_retired kind;
  if negb group_retired then
    detail ← with_boundary "" bd_diagnostics;
    let populated_error := "execution cgroup remains populated" in
    mret (or_else transport_error
            (Some (if (detail =? "")%string then populated_error
                   else populated_error +:+ ": " +:+ detail)), false)
  else
    with_boundary (transport_error, true) (fun b =>
      py_catch (_ ← bd_destroy b; mret (transport_error, true)) (is_class ContainmentError)
        (fun error => mret (or_else transport_error (Some (exn_msg error)), false))).

(** From the started process to its result; the state of the event handler comes
    back with it. *)
Definition run_started (fuel : nat) (h : H) (prompt : string) (pid : Z) : M (option (OpenCodeRunResult * H)) :=
  group ← py_catch (pgid ← silently (pw_getpgid pid); mret (Some pgid)) is_os_error (fun _ => mret None);
  identity_error ← capture_identity pid group;
  ended ← supervise fuel pid group identity_error;
  match ended with
  | None => mret None
  | Some (returncode, state) =>
      io ← silently pw_streams;
      let j := join_threads event_handler h sk (pw_encode_error (W := W)) prompt io in
      last ← retire (transport_after j identity_error state) state.1;
      mret (Some (mkOpenCodeRun returncode last.1 state.1 last.2 true, jn_handler j))
  end.

Definition _run_opencode (fuel : nat) (h : H) (prompt : string) (command : launch)
    : M (option (OpenCodeRunResult * H)) :=
  started ← attempt
    (match containment with
     | Some b => bd_spawn b command
     | None => recorded (pw_popen command) (fun r => match r with Ok _ => [Spawned command] | Raise _ => [] end)
     end);
  match started with
  | Ok pid => run_started fuel h prompt pid
  | Raise error =>
      if is_boundary_error error then
        _ ← with_boundary tt (fun b => py_catch (bd_destroy b) is_boundary_error (fun _ => mret tt));
        mret (Some (mkOpenCodeRun (-1) (Some ("execution containment failed: " +:+ exn_msg error)) None
                      false false, h))
      else fun s => (Raise error, s)
  end.
End Run.

(** * The supervisor *)

(** [operational_log.execution_log_path] *)
Definition execution_log_path (state_dir : Path) (state_key execution_id : string) : res Path :=
  if negb (is_identifier execution_id) then raise OperationalLogError "invalid execution log identity"
  else Ok (path_child (path_child (path_child (path_child state_dir "logs") state_key) "executions")
             (execution_id +:+ ".log")).

Record WorkerSupervisor : Type := mkWorkers {
  ws_opencode_bin : string;
  ws_model : string;
  ws_agent : string;
  (** [state_dir] and [state_key], when both are given *)
  ws_log_target : option (Path * string);
  ws_show_worker_output : bool
}.

(** [_draining], [_active] and what happens outside the lock *)
Record supervised (W : Type) : Type := mkSupervised {
  sv_draining : bool;
  sv_active : list string;
  sv_log : process_log W
}.
Arguments mkSupervised {W}.
Arguments sv_draining {W}.
Arguments sv_active {W}.
Arguments sv_log {W}.

Definition begin_drain {W} : py (supervised W) bool := fun s =>
  if sv_draining s then (Ok false, s) else (Ok true, mkSupervised true (sv_active s) (sv_log s)).

Definition draining {W} : py (supervised W) bool := fun s => (Ok (sv_draining s), s).
Definition active_count {W} : py (supervised W) nat := fun s => (Ok (length (sv_active s)), s).
Definition owns {W} (execution_id : string) : py (supervised W) bool := fun s =>
  (Ok (bool_decide (execution_id ∈ sv_active s)), s).

(** [self._active[execution_id] = object()] and [self._active.pop(execution_id, None)] *)
Definition activate (execution_id : string) (active : list string) : list string :=
  if bool_decide (execution_id ∈ active) then active else active ++ [execution_id].
Definition deactivate (execution_id : string) (active : list string) : list string :=
  List.filter (fun x => negb (x =? execution_id)%string) active.

(** The critical section at the start of [run]. *)
Definition enter {W} (execution_id : string) : py (supervised W) unit := fun s =>
  if sv_draining s then (raise WorkerAdmissionClosed "worker admission is closed", s)
  else (Ok tt, mkSupervised (sv_draining s) (activate execution_id (sv_active s)) (sv_log s)).

(** The one at its end. *)
Definition leave {W} (execution_id : string) (s : supervised W) : supervised W :=
  mkSupervised (sv_draining s) (deactivate execution_id (sv_active s)) (sv_log s).

Section Supervisor.
Context {W : Type} `{ProcessWorld W}.
Variable self : WorkerSupervisor.
(** [containment_provider] *)
Variable provide : string -> py (process_log W) (Boundary W).
Variable provider_observe : string -> py (process_log W) string.
Variable isprintable : string -> bool.
Variable log_write : output -> string -> option string.
Variable process_running : output -> bool.
(** the source of the reporting tool, a literal of the module *)
Variable devlegate_report : string.

Abbreviation M := (py (process_log W)).

Definition in_process {A} (m : M A) : py (supervised W) A := fun s =>
  let '(r, l) := m (sv_log s) in (r, mkSupervised (sv_draining s) (sv_active s) l).

Definition observe (identity : WorkerProcessIdentity) : M string :=
  match wi_containment_id identity with
  | Some containment_id =>
      if (containment_id =? "")%string then observe_worker_identity identity
      else provider_observe containment_id
  | None => observe_worker_identity identity
  end.

Definition opencode_command (execution_path : Path) : list string :=
  [ws_opencode_bin self; "run"; "--dir"; path_str execution_path; "--format"; "json"; "--model"; ws_model self]
  ++ (if (ws_agent self =? "")%string then [] else ["--agent"; ws_agent self]).

Definition opencode_config (execution_path : Path) : pyval :=
  PDict [("$schema", PStr "https://opencode.ai/config.json");
         ("permission", PDict [("external_directory",
            PDict [("*", PStr "deny"); (path_str execution_path +:+ "/**", PStr "allow")])])].

Definition opencode_environment (execution_path config_dir : Path) : list (string * string) :=
  dset (dset (dset (worker_environment (pw_environ (W := W))) "PWD" (path_str execution_path))
          "OPENCODE_CONFIG_DIR" (path_str config_dir))
    "OPENCODE_CONFIG_CONTENT" (dumps default_style (opencode_config execution_path)).

(** The private configuration of a run. *)
Definition make_config : M Path :=
  config_dir ← recorded (pw_mkdtemp "devlegate-opencode-")
    (fun r => match r with Ok path => [MadeTree path] | Raise _ => [] end);
  let tool_dir := path_child config_dir "tools" in
  _ ← silently (pw_mkdir tool_dir);
  _ ← silently (pw_write_text (path_child tool_dir "devlegate_report.ts") devlegate_report);
  mret config_dir.

Definition worker_sinks : sinks :=
  mkSinks isprintable (if is_missing (ws_log_target self) then None else Some log_write) process_running
    (ws_show_worker_output self).

Definition open_log (execution_id : string) : M unit :=
  match ws_log_target self with
  | Some (state_dir, state_key) =>
      path ← py_lift (execution_log_path state_dir state_key execution_id);
      silently (pw_open_log path)
  | None => mret tt
  end.

Definition run_result (ended : OpenCodeRunResult) (parser : WorkerEgressParser) : WorkerRunResult :=
  let '(claim, egress_error) := finish parser in
  mkRun (oc_process_returncode ended) (oc_transport_error ended) claim egress_error
    (oc_interruption_kind ended) (oc_worker_group_retired ended) (oc_process_started ended).

(** The result of an admitted run; [None] while the process is watched. *)
Definition run_admitted (fuel : nat) (started : launch) (prompt execution_id : string) (stop_request : bool)
    (identity_handler : option (WorkerProcessIdentity -> py W unit))
    (interruption_handler : option (string -> py W unit)) : M (option WorkerRunResult) :=
  py_catch
    (_ ← open_log execution_id;
     containment ← provide execution_id;
     ended ← _run_opencode (Some containment) (Some consume) identity_handler interruption_handler
               (Some execution_id) stop_request worker_sinks fuel new_parser prompt started;
     mret (match ended with
           | Some (result, parser) => Some (run_result result parser)
           | None => None
           end))
    is_containment_error
    (fun error => mret (Some (mkRun (-1) (Some (exn_msg error)) None None None true false))).

(** The [finally] clause. *)
Definition close_run (execution_id : string) (config_dir : Path) (s : supervised W) : supervised W :=
  let s := leave execution_id s in
  mkSupervised (sv_draining s) (sv_active s)
    (mkLog (pw_rmtree config_dir (pl_world (sv_log s))) (pl_actions (sv_log s) ++ [RemovedTree config_dir])).

Definition run (fuel : nat) (workspace : ExecutionWorkspace) (prompt execution_id : string)
    (stop_request : bool) (identity_handler : option (WorkerProcessIdentity -> py W unit))
    (interruption_handler : option (string -> py W unit)) : py (supervised W) (option WorkerRunResult) :=
  let execution_path := pw_resolve (W := W) (ew_path workspace) in
  config_dir ← in_process make_config;
  _ ← enter execution_id;
  py_finally
    (in_process (run_admitted fuel
       (mkLaunch (opencode_command execution_path) execution_path
          (opencode_environment execution_path config_dir))
       prompt execution_id stop_request identity_handler interruption_handler))
    (close_run execution_id config_dir).
End Supervisor.
