(* ===== verification/WorkerReader.v ===== *)
(** How far the reading thread of a worker's standard output gets: to the end of
    the stream, or to an event whose type or tool status is a list or an object,
    of which the thread dies. *)

From S2P Require Export WorkerStream.

(** An event of which the routing raises: a type, or the status of a tool, that
    cannot be looked up in a set. *)
Definition unroutable (event : pyval) : bool :=
  match event with
  | PDict d =>
      let part := dict_of (get d "part") in
      negb (hashable (get d "type")) ||
      eq_str (get d "type") "tool_use" && is_dict (get part "state") &&
      negb (hashable (get (dict_of (get part "state")) "status"))
  | _ => false
  end.

(** The events that were read of the lines: all of them, or those of the first
    lines and then one of which the thread died. *)
Inductive stream_read (lines : list string) : list pyval -> Prop :=
  | read_whole events : Forall2 event_line lines events -> stream_read lines events
  | read_to before line rest events last :
      lines = before ++ line :: rest -> Forall2 event_line before events ->
      (N.of_nat (String.length line) <= MAX_STDOUT_EVENT_BYTES)%N ->
      decode_line line = Some last -> unroutable last = true ->
      stream_read lines (events ++ [last]).

Lemma stream_read_next lines line event events :
  event_line line event -> stream_read lines events -> stream_read (line :: lines) (event :: events).
Proof.
  intros He [events' Hw|before l rest events' last -> Hb Hl Hd Hu].
  - by apply read_whole, Forall2_cons.
  - by eapply (read_to _ (line :: before) l rest (event :: events') last); [|apply Forall2_cons|..].
Qed.

Section Routing.
Context {H : Type}.

(** [m] changes nothing when it raises. *)
Definition raises_cleanly (bad : bool) (m : py (reader H) unit) : Prop := forall r,
  match m r with (Raise _, r') => r' = r /\ bad = true | (Ok _, _) => True end.

Lemma quiet_raises m bad : quiet m -> raises_cleanly bad m.
Proof. intros Hm r. by destruct (Hm r) as (r' & -> & _). Qed.

Lemma violation_raises bad message : raises_cleanly bad (protocol_violation message).
Proof. by intros r. Qed.

Lemma show_text_raises bad d : raises_cleanly bad (show_text d).
Proof.
  unfold show_text. destruct (get d "part") as [| | | | | |part]; try apply violation_raises.
  by destruct (get part "text").
Qed.

Lemma show_tool_raises d : raises_cleanly
  (is_dict (get (dict_of (get d "part")) "state") &&
   negb (hashable (get (dict_of (get (dict_of (get d "part")) "state")) "status"))) (show_tool d).
Proof.
  intros r. unfold show_tool, invalid_tool. run.
  destruct (get d "part") as [| | | | | |part]; cbn [is_dict negb andb dict_of]; try done.
  destruct (get part "tool") as [| | | |tool| |]; cbn [is_str negb andb]; try done.
  destruct (get part "state") as [| | | | | |st]; cbn [is_dict negb andb dict_of]; try done.
  unfold in_strs. destruct (hashable (get st "status")); [|done].
  cbn [mbind res_bind negb]. destruct (existsb _ _); [|done]. cbn [negb str_of].
  by destruct (quiet_tool_state tool st r) as (r' & -> & _).
Qed.

Lemma route_raises event : raises_cleanly (unroutable event) (route_event event).
Proof.
  intros r. unfold route_event. destruct event as [| | | | | |d]; try done.
  cbn [is_dict negb unroutable dict_of]. run. unfold in_strs.
  destruct (hashable (get d "type")) eqn:Eh; [|by cbn].
  destruct (existsb _ _); [|done]. cbn [negb orb].
  destruct (_ || _); [apply (show_text_raises _ d r)|].
  destruct (eq_str (get d "type") "tool_use"); [apply (show_tool_raises d r)|].
  destruct (eq_str (get d "type") "error"); [|done].
  by destruct (quiet_error d r) as (r' & -> & _).
Qed.
End Routing.

Section Reading.
Context {H : Type} (handler : H -> pyval -> res H).
Hypothesis total : forall h event, exists h', handler h event = Ok h'.

(** One event: the handler has seen it, however it is routed. *)
Lemma event_done event (r : reader H) :
  let out := consume_event (Some handler) event r in
  handler (rd_handler r) event = Ok (rd_handler out.2) /\
  match out.1 with
  | Ok _ => if valid_event event then rd_transport_error out.2 = rd_transport_error r
            else is_Some (rd_transport_error out.2)
  | Raise _ => unroutable event = true /\ rd_transport_error out.2 = rd_transport_error r
  end.
Proof.
  cbn zeta. pose proof (event_outcome (Some handler) event r) as Ho. revert Ho.
  unfold consume_event, handler_step. run. unfold handle_event.
  destruct (total (rd_handler r) event) as [h' Eh]. rewrite Eh.
  set (r1 := mkReader _ h' _ _). pose proof (route_raises event r1) as Hr.
  destruct (route_event event r1) as [[u|x] r2]; cbn [fst snd].
  - by intros [<- ?].
  - destruct Hr as [-> Hu]. done.
Qed.

Lemma errors_stay fuel s r : is_Some (rd_transport_error r) ->
  is_Some (rd_transport_error (consume_lines (Some handler) fuel s r).2).
Proof.
  revert s r. induction fuel as [|fuel IH]; intros s r Hr; [done|]. cbn [consume_lines].
  destruct (readline _ s) as [raw_line rest]. destruct (raw_line =? "")%string; [done|].
  destruct (_ <? _)%N; run; [apply IH; by eexists|]. unfold consume_line.
  destruct (decode_line raw_line) as [event|]; [|apply IH; by eexists].
  pose proof (event_done event r) as [_ He].
  destruct (consume_event _ event r) as [[u|x] r1]; cbn [fst snd] in *; [|by destruct He as [_ ->]].
  apply IH. destruct (valid_event event); [by rewrite He|done].
Qed.

Lemma errors_lost fuel s r (P : Prop) : is_Some (rd_transport_error r) ->
  rd_transport_error (consume_lines (Some handler) fuel s r).2 = None -> P.
Proof. intros Hr He. destruct (errors_stay fuel s r Hr) as [e Hs]. by rewrite Hs in He. Qed.

(** A reader without an error has read the whole stream, or has died. *)
Lemma stream_is_read fuel s r : String.length s < fuel -> rd_transport_error r = None ->
  let out := consume_lines (Some handler) fuel s r in
  rd_transport_error out.2 = None ->
  exists seen, stream_read (lf_lines s) seen /\ res_fold handler (rd_handler r) seen = Ok (rd_handler out.2).
Proof.
  cbn zeta. revert s r. induction fuel as [|fuel IH]; intros s r Hf Hr; [lia|]. cbn [consume_lines].
  pose proof (readline_length (MAX_STDOUT_EVENT_BYTES + 1) s) as Hlen.
  pose proof (readline_empty (MAX_STDOUT_EVENT_BYTES + 1) s ltac:(done)) as Hempty.
  pose proof (readline_whole (MAX_STDOUT_EVENT_BYTES + 1) s) as Hwhole.
  destruct (readline _ s) as [raw_line rest]. cbn [fst snd] in *.
  destruct (String.eqb_spec raw_line "") as [->|Hne].
  { rewrite (Hempty eq_refl). intros _. exists []. split; [by apply read_whole|done]. }
  assert (s <> "") as Hs by (intros ->; cbn in Hlen; destruct raw_line; [done|cbn in Hlen; lia]).
  assert (Hrest : String.length rest < fuel) by (destruct raw_line; [done|cbn in Hlen; lia]).
  destruct (N.ltb_spec MAX_STDOUT_EVENT_BYTES (N.of_nat (String.length raw_line))) as [Hbig|Hsmall].
  { run. intros He. refine (errors_lost _ _ _ _ _ He). by eexists. }
  rewrite (Hwhole Hs) by lia. run. unfold consume_line. destruct (decode_line raw_line) as [event|] eqn:Ed.
  2: { intros He. refine (errors_lost _ _ _ _ _ He). by eexists. }
  pose proof (event_done event r) as [Hh He]. destruct (consume_event _ event r) as [[u|x] r1]; cbn [fst snd] in *.
  - intros Ht. destruct (valid_event event) eqn:Ev.
    + destruct (IH rest r1 Hrest ltac:(congruence) Ht) as (seen & Hseen & Hfold).
      exists (event :: seen). split; [by apply stream_read_next|]. cbn. by rewrite Hh.
    + exact (errors_lost _ _ _ _ He Ht).
  - intros _. destruct He as [Hu _]. exists [event]. split; [|cbn; by rewrite Hh].
    by eapply (read_to _ [] raw_line (lf_lines rest) [] event).
Qed.
End Reading.

(** The parser of the reporting tool never raises. *)
Lemma consume_total p event : exists p', consume p event = Ok p'.
Proof.
  destruct (consume_cases p event) as [[_ ->]|[_ [(c & _ & ->)|(_ & msg & ->)]]]; by eexists.
Qed.
