(* ===== verification/WorkerSafety.v ===== *)
(** What the supervision of a worker guarantees: a retired boundary was seen empty,
    an accepted run had a valid event stream with exactly one report, an operator
    sees inert text, an identity is recognised exactly, and a draining supervisor
    admits nothing. *)

From S2P Require Export WorkerReader WorkerSupervisor.

(** * Threads *)

Lemma merge_interleaves {A} (order : list bool) (l1 l2 : list A) : interleaving l1 l2 (merge order l1 l2).
Proof.
  revert order l2. induction l1 as [|x l1 IH]; intros order l2; cbn [merge].
  - induction l2; by constructor.
  - revert l2. induction order as [|[|] order IH2]; intros [|y l2]; try (constructor; apply IH).
    apply il_right, IH2.
Qed.

(** C17: Whatever bytes a worker process writes on its two streams, in whatever order
    its two reading threads get the lock, whether the reader of the events ends
    normally or dies: everything that reaches the operator's terminal and the
    execution log is valid UTF-8 without control characters other than line feeds
    and tabs. *)
Theorem operator_sees_inert_text {H} (event_handler : option (H -> pyval -> res H)) h sk encode_error prompt io :
  printable_table (sk_isprintable sk) ->
  shown_inert (jn_output (join_threads event_handler h sk encode_error prompt io)).
Proof.
  intros Htab. unfold join_threads. cbn [jn_output]. apply calls_inert; [done| |by split; constructor].
  eapply interleaving_forall; [apply merge_interleaves| |apply stderr_text].
  apply (wt_lines event_handler (S (String.length (sr_stdout io))) (sr_stdout io) (new_reader h)). constructor.
Qed.

(** ** The prompt *)

Lemma string_of_app l k :
  String.string_of_list_ascii (l ++ k) = String.string_of_list_ascii l +:+ String.string_of_list_ascii k.
Proof. induction l as [|c l IH]; [done|]. cbn. by rewrite IH. Qed.

Lemma bytes_split_whole n s : take_bytes n s +:+ drop_bytes n s = s.
Proof.
  unfold take_bytes, drop_bytes. by rewrite <- string_of_app, take_drop, String.string_of_list_ascii_of_string.
Qed.

Lemma string_of_length l : String.length (String.string_of_list_ascii l) = length l.
Proof. induction l as [|c l IH]; [done|]. cbn. by rewrite IH. Qed.

Lemma list_of_length s : length (String.list_ascii_of_string s) = String.length s.
Proof. induction s as [|c s IH]; [done|]. cbn. by rewrite IH. Qed.

Lemma drop_bytes_length n s : String.length (drop_bytes n s) = String.length s - n.
Proof. unfold drop_bytes. by rewrite string_of_length, length_drop, list_of_length. Qed.

Lemma deliver_whole pipe fuel delivered remaining : String.length remaining < fuel ->
  (deliver pipe fuel delivered remaining).1 = None ->
  (deliver pipe fuel delivered remaining).2 = delivered +:+ remaining.
Proof.
  revert delivered remaining. induction fuel as [|fuel IH]; intros delivered remaining Hf; [lia|].
  cbn [deliver]. destruct (String.eqb_spec remaining "") as [->|Hne]; [by rewrite str_app_nil_r|].
  destruct (pp_write pipe delivered remaining) as [[|n]|error]; [done| |done].
  intros Hd. rewrite IH; [|rewrite drop_bytes_length; destruct remaining; [done|cbn in *; lia]|done].
  by rewrite str_app_assoc, bytes_split_whole.
Qed.

(** No error of the prompt means that the worker was given all of it. *)
Lemma prompt_delivered pipe encode_error prompt :
  (deliver_prompt (Some pipe) encode_error prompt).1 = None ->
  (deliver_prompt (Some pipe) encode_error prompt).2 = prompt.
Proof.
  unfold deliver_prompt. destruct (valid_utf8 prompt); [|done].
  pose proof (deliver_whole pipe (S (String.length prompt)) "" prompt ltac:(lia)) as Hd.
  destruct (deliver pipe _ "" prompt) as [[error|] delivered]; [done|]. intros _. by apply Hd.
Qed.

(** * Actions *)

(** A boundary whose operations do only what [P] allows. *)
Record boundary_adds {W} (P : action -> Prop) (b : Boundary W) : Prop := {
  ba_spawn l : (forall l', la_cwd l' = la_cwd l -> la_env l' = la_env l -> P (Spawned l')) -> adds P (bd_spawn b l);
  ba_graceful pid : adds P (bd_request_graceful b pid);
  ba_force : adds P (bd_force_terminate b);
  ba_wait timeout : adds P (bd_wait_empty b timeout);
  ba_destroy : adds P (bd_destroy b);
  ba_diagnostics : adds P (bd_diagnostics b)
}.

(** What a boundary promises: a start is the only thing it does, and only of what it
    [launched]; a removal that succeeds rests on an observation [seen], and nothing
    but [gone] follows. *)
Record boundary_proves {W} (launched : launch -> launch) (seen : action -> Prop) (gone : action -> Prop)
    (b : Boundary W) : Prop := {
  bp_spawn l s pid s' : bd_spawn b l s = (Ok pid, s') -> pl_actions s' = pl_actions s ++ [Spawned (launched l)];
  bp_destroy s s' : bd_destroy b s = (Ok tt, s') -> exists a rest,
    pl_actions s' = pl_actions s ++ a :: rest /\ seen a /\ (rest = [] \/ exists g, rest = [g] /\ gone g)
}.

(** What a control group starts: the joining launcher with the command. *)
Definition joined_by {W} `{CgroupWorld W} (path : Path) (l : launch) : launch :=
  mkLaunch (_launcher_command (W := W) path (la_command l)) (la_cwd l) (la_env l).

Lemma cgroup_proves {W} `{CgroupWorld W} (self : ExecutionContainment) :
  boundary_proves (W := W) (joined_by (ec_path self)) (empty_seen (ec_path self))
    (fun a => a = RemovedGroup (ec_path self)) (boundary self).
Proof.
  constructor.
  - intros l s pid s'. cbn. unfold spawn. destruct (la_command l) as [|arg args] eqn:El; [done|].
    rewrite recorded_run. destruct (cw_popen _ _) as [[n|e] w]; cbn; [|done].
    intros [= <- <-]. unfold joined_by. by rewrite El.
  - intros s s' Hd. apply destroy_ok in Hd as (a & Ha & [E|E]); exists a; eexists; (split; [exact E|]);
      (split; [done|]); [by left|right; by eexists].
Qed.

(** The actions of a control group. *)
Definition group_action (self : ExecutionContainment) (a : action) : Prop :=
  match a with
  | ReadEvents p _ | KilledGroup p | RemovedGroup p => p = ec_path self
  | Signalled _ sig => sig = SIGTERM
  | _ => False
  end.

Section CgroupAdds.
Context {W : Type} `{CgroupWorld W} (P : action -> Prop) (self : ExecutionContainment).
Hypothesis allowed : forall a, group_action self a -> P a.

#[local] Ltac one :=
  apply adds_recorded; intros [?|?]; repeat constructor; try (apply allowed; done).

Lemma populated_adds : adds (W := W) P (populated self).
Proof. apply adds_bind; [one|auto with adds]. Qed.

Lemma wait_adds timeout : adds (W := W) P (wait_empty self timeout).
Proof.
  apply adds_bind; [apply adds_silently|]. intros time. generalize (wait_turns timeout) (time + timeout)%Z.
  intros fuel deadline. induction fuel as [|fuel IH]; [apply adds_ret|]. cbn [wait_until].
  apply adds_bind; [apply populated_adds|]. intros busy. apply adds_if; [apply adds_ret|].
  apply adds_bind; [apply adds_silently|]. intros now. apply adds_if; [apply adds_ret|].
  apply adds_bind; [apply adds_silently|]. auto.
Qed.

Lemma cgroup_adds : boundary_adds P (boundary (W := W) self).
Proof.
  constructor; cbn [boundary bd_spawn bd_request_graceful bd_force_terminate bd_wait_empty bd_destroy bd_diagnostics].
  - intros l Hl. unfold spawn. destruct (la_command l); [apply adds_raise|]. apply adds_recorded.
    intros [?|?]; constructor; [by apply Hl|constructor].
  - intros [pid|]; [|apply adds_ret]. apply adds_catch; [one|]. intros e. apply adds_ret.
  - apply adds_if; [apply adds_raise|]. apply adds_catch; [one|]. intros e. apply adds_raise.
  - intros timeout. apply wait_adds.
  - apply adds_bind; [apply populated_adds|]. intros busy. apply adds_if; [apply adds_raise|].
    apply adds_catch; [apply adds_catch; [one|]; intros e; apply adds_ret|]. intros e. apply adds_raise.
  - apply adds_ret.
Qed.
End CgroupAdds.

(** ** The actions of a run *)

(** What a run does, apart from its interruption and its boundary. *)
Definition run_action (a : action) : Prop :=
  match a with
  | Polled _ | Waited _ | Persisted _ => True
  | SignalledGroup _ sig => sig <> SIGINT
  | _ => False
  end.

Section RunAdds.
Context {W H : Type} `{ProcessWorld W} (P : action -> Prop).
Context (containment : option (Boundary W)) (event_handler : option (H -> pyval -> res H)).
Context (identity_handler : option (WorkerProcessIdentity -> py W unit)).
Context (interruption_handler : option (string -> py W unit)).
Context (execution_id : option string) (stop_request : bool) (sk : sinks).
Hypothesis allowed : forall a, run_action a -> P a.
Hypothesis announced : forall kind, P (Interrupted kind).
Hypothesis signalled : forall pgid, P (SignalledGroup pgid SIGINT).
Hypothesis within : forall b, containment = Some b -> boundary_adds P b.

#[local] Ltac one := apply adds_recorded; intros [?|?]; repeat constructor; try (apply allowed; done).

Lemma poll_adds : adds (W := W) P poll.
Proof. apply adds_bind; [one|auto with adds]. Qed.

Lemma kill_adds group sig : (forall pgid, P (SignalledGroup pgid sig)) ->
  adds (W := W) P (kill_group group sig).
Proof.
  clear allowed. intros Hs. destruct group; [|apply adds_ret]. apply adds_catch; [|auto with adds].
  apply adds_bind; [|auto with adds]. apply adds_recorded. intros [?|?]; repeat constructor. apply Hs.
Qed.

Lemma end_adds group sig : sig <> SIGINT -> adds (W := W) P (kill_group group sig).
Proof. intros Hs. apply kill_adds. intros pgid. by apply allowed. Qed.

Lemma wait_for_adds timeout : adds (W := W) P (wait_for timeout).
Proof. one. Qed.

Lemma wait_exit_adds : adds (W := W) P wait_exit.
Proof. one. Qed.

Lemma with_boundary_adds {A} (a : A) m : (forall b, containment = Some b -> adds P (m b)) ->
  adds P (with_boundary containment a m).
Proof. clear within. unfold with_boundary. destruct containment; [auto|intros _; apply adds_ret]. Qed.

Lemma failure_adds (m : py (process_log W) unit) : adds P m -> adds P (failure_of m).
Proof. intros Hm. apply adds_catch; [apply adds_bind; auto with adds|auto with adds]. Qed.

Lemma interrupt_adds pid group kind :
  adds P (interrupt containment interruption_handler pid group kind).
Proof.
  apply adds_bind; [apply poll_adds|]. intros running. apply adds_if; [apply adds_ret|].
  apply adds_bind; [apply with_boundary_adds; intros b Hb; apply (ba_graceful _ _ (within b Hb))|].
  intros _. apply adds_bind; [destruct (_ =? _)%string; [by apply kill_adds|by apply end_adds]|].
  intros sent. apply adds_if; [apply adds_ret|]. destruct interruption_handler; [|apply adds_ret]. apply adds_bind; [|auto with adds].
  apply failure_adds, adds_recorded. intros _. by repeat constructor.
Qed.

Lemma force_adds : adds P (with_boundary containment tt bd_force_terminate).
Proof. apply with_boundary_adds. intros b Hb. apply (ba_force _ _ (within b Hb)). Qed.

Lemma finish_adds group : adds P (finish_interrupted containment group).
Proof.
  apply adds_bind; [apply wait_for_adds|]. intros finished. apply adds_bind.
  - destruct finished; [apply adds_ret|]. apply adds_bind; [apply force_adds|]. intros _.
    apply adds_bind; [by apply end_adds|]. intros _. apply wait_exit_adds.
  - intros returncode. apply adds_bind; [apply force_adds|auto with adds].
Qed.

Lemma identity_adds pid x c : adds (W := W) P (_capture_worker_identity pid x c).
Proof.
  apply adds_if; [apply adds_raise|]. apply adds_bind; [apply poll_adds|]. intros running.
  apply adds_if; [apply adds_raise|]. apply adds_bind; [apply adds_silently|]. intros pgid.
  apply adds_bind; [apply adds_silently|]. intros sid. apply adds_if; [apply adds_raise|].
  apply adds_bind; [apply adds_silently|]. intros text. apply adds_bind; [apply adds_silently|]. intros stat.
  apply adds_bind; [apply adds_lift|]. intros start. apply adds_if; [apply adds_raise|apply adds_ret].
Qed.

Lemma capture_adds pid group : adds P (capture_identity containment identity_handler execution_id pid group).
Proof.
  unfold capture_identity. destruct identity_handler; [|apply adds_ret]. destruct execution_id; [|apply adds_ret].
  apply adds_bind; [apply poll_adds|]. intros running. apply adds_if; [apply adds_ret|].
  apply adds_bind.
  - apply failure_adds, adds_bind; [apply identity_adds|]. intros identity. one.
  - intros [text|]; [|apply adds_ret]. apply adds_bind; [apply poll_adds|]. intros again.
    apply adds_if; [apply adds_ret|]. apply adds_bind; [by apply end_adds|auto with adds].
Qed.

Lemma watch_adds fuel pid group : adds P (watch containment interruption_handler fuel pid group).
Proof.
  induction fuel as [|fuel IH]; [apply adds_ret|]. cbn [watch].
  apply adds_bind; [apply wait_for_adds|]. intros [returncode|]; [apply adds_ret|].
  apply adds_bind; [apply adds_silently|]. intros kind. apply adds_if; [|done].
  apply adds_bind; [apply interrupt_adds|]. intros state.
  apply adds_bind; [apply finish_adds|auto with adds].
Qed.

Lemma supervise_adds fuel pid group error :
  adds P (supervise containment interruption_handler stop_request fuel pid group error).
Proof.
  destruct error; [apply adds_bind; [apply finish_adds|auto with adds]|]. apply adds_if; [|apply watch_adds].
  apply adds_catch; [apply adds_bind; [apply wait_exit_adds|auto with adds]|]. intros e.
  apply adds_bind; [apply interrupt_adds|]. intros state. apply adds_bind; [apply finish_adds|auto with adds].
Qed.

Lemma observe_retired_adds kind : adds P (observe_retired containment identity_handler kind).
Proof.
  unfold observe_retired. destruct containment as [b|] eqn:E; [|apply adds_ret].
  pose proof (within b eq_refl) as Hb.
  assert (adds P (waits_empty b)) as Hw by (apply adds_catch; [apply (ba_wait _ _ Hb)|auto with adds]).
  apply adds_bind; [done|]. intros retired. apply adds_if; [|apply adds_ret].
  apply adds_bind; [apply (ba_force _ _ Hb)|done].
Qed.

Lemma retire_adds error kind : adds P (retire containment identity_handler error kind).
Proof.
  apply adds_bind; [apply observe_retired_adds|]. intros retired. apply adds_if.
  - apply adds_bind; [|auto with adds]. apply with_boundary_adds. intros b Hb.
    apply (ba_diagnostics _ _ (within b Hb)).
  - apply with_boundary_adds. intros b Hb. apply adds_catch; [|auto with adds].
    apply adds_bind; [apply (ba_destroy _ _ (within b Hb))|auto with adds].
Qed.

(** Everything before the retirement. *)
Lemma started_adds fuel pid : adds P
  (group ← py_catch (pgid ← silently (pw_getpgid pid); mret (Some pgid)) is_os_error (fun _ => mret None);
   identity_error ← capture_identity containment identity_handler execution_id pid group;
   supervise containment interruption_handler stop_request fuel pid group identity_error).
Proof.
  apply adds_bind; [apply adds_catch; [apply adds_bind; auto with adds|auto with adds]|].
  intros group. apply adds_bind; [apply capture_adds|]. intros error. apply supervise_adds.
Qed.

Lemma run_started_adds fuel h prompt pid : adds P
  (run_started containment event_handler identity_handler interruption_handler execution_id stop_request sk
     fuel h prompt pid).
Proof.
  apply adds_bind; [apply adds_catch; [apply adds_bind; auto with adds|auto with adds]|].
  intros group. apply adds_bind; [apply capture_adds|]. intros error. apply adds_bind; [apply supervise_adds|].
  intros [[returncode state]|]; [|apply adds_ret]. apply adds_bind; [apply adds_silently|]. intros io.
  apply adds_bind; [apply retire_adds|auto with adds].
Qed.

Lemma run_opencode_adds fuel h prompt l :
  (forall l', la_cwd l' = la_cwd l -> la_env l' = la_env l -> P (Spawned l')) -> adds P
  (_run_opencode containment event_handler identity_handler interruption_handler execution_id stop_request sk
     fuel h prompt l).
Proof.
  intros Hl. apply adds_bind.
  - intros s. unfold attempt.
    assert (adds P (match containment with
      | Some b => bd_spawn b l
      | None => recorded (pw_popen l) (fun r => match r with Ok _ => [Spawned l] | Raise _ => [] end)
      end)) as Hs.
    { destruct containment as [b|]; [by apply (ba_spawn _ _ (within b eq_refl))|].
      apply adds_recorded. intros [?|?]; repeat constructor. by apply Hl. }
    specialize (Hs s). by destruct (_ s) as [r s'].
  - intros [pid|error]; [apply run_started_adds|]. apply adds_if; [|intros s; exists []; by rewrite app_nil_r].
    apply adds_bind; [|auto with adds]. apply with_boundary_adds. intros b Hb. apply adds_catch; [|auto with adds].
    apply (ba_destroy _ _ (within b Hb)).
Qed.
End RunAdds.

(** * Retirement *)

Definition anything (a : action) : Prop := True.

Lemma adds_something {W A} (P : action -> Prop) (m : py (process_log W) A) s r s' :
  adds P m -> m s = (r, s') -> exists acts, pl_actions s' = pl_actions s ++ acts /\ Forall P acts.
Proof. intros Hm E. destruct (Hm s) as (acts & Ha & HP). rewrite E in Ha. by exists acts. Qed.

(** The actions of a run after its start: its own and those of its group. *)
Definition after_start (self : ExecutionContainment) (a : action) : Prop :=
  run_action a \/ (exists kind, a = Interrupted kind) \/ (exists pgid, a = SignalledGroup pgid SIGINT) \/
  group_action self a.

Section Retirement.
Context {W H : Type} `{ProcessWorld W} (P : action -> Prop).
Context (launched : launch -> launch) (seen gone : action -> Prop) (b : Boundary W).
Context (event_handler : option (H -> pyval -> res H)).
Context (identity_handler : option (WorkerProcessIdentity -> py W unit)).
Context (interruption_handler : option (string -> py W unit)).
Context (execution_id : option string) (stop_request : bool) (sk : sinks).
Hypothesis allowed : forall a, run_action a -> P a.
Hypothesis announced : forall kind, P (Interrupted kind).
Hypothesis signalled : forall pgid, P (SignalledGroup pgid SIGINT).
Hypothesis proves : boundary_proves launched seen gone b.
Hypothesis adding : boundary_adds P b.

Lemma within_boundary b' : Some b = Some b' -> boundary_adds P b'.
Proof. by intros [= <-]. Qed.

(** The run, between the two states, ends with an observation [seen]. *)
Definition proves_last (s s' : process_log W) : Prop := exists before a rest,
  pl_actions s' = pl_actions s ++ before ++ a :: rest /\ Forall P before /\ seen a /\
  (rest = [] \/ exists g, rest = [g] /\ gone g).

Lemma retire_proves error kind s t s' : retire (Some b) identity_handler error kind s = (Ok (t, true), s') ->
  proves_last s s'.
Proof.
  unfold retire. run. pose proof (observe_retired_adds P (Some b) identity_handler within_boundary kind s) as Ho.
  destruct (observe_retired _ _ kind s) as [[retired|e] s1]; [|done]. cbn [snd] in Ho.
  destruct Ho as (acts & Ho & HP). destruct retired; cbn [negb].
  - cbn [with_boundary]. unfold py_catch. run. destruct (bd_destroy b s1) as [[[]|e] s2] eqn:Ed.
    + intros [= _ <-]. destruct (bp_destroy _ _ _ _ proves _ _ Ed) as (a & rest & E & Ha & Hr).
      exists acts, a, rest. by rewrite E, Ho, <- app_assoc.
    + by destruct (is_class ContainmentError e).
  - run. by destruct (with_boundary _ _ _ s1) as [[detail|e] s2].
Qed.

Lemma run_opencode_proves fuel h prompt l s r h' s' :
  _run_opencode (Some b) event_handler identity_handler interruption_handler execution_id stop_request sk
    fuel h prompt l s = (Ok (Some (r, h')), s') ->
  oc_process_started r = true -> oc_worker_group_retired r = true ->
  exists s1, pl_actions s1 = pl_actions s ++ [Spawned (launched l)] /\ proves_last s1 s'.
Proof.
  unfold _run_opencode. run. unfold attempt.
  destruct (bd_spawn b l s) as [[pid|error] s1] eqn:Es.
  - apply (bp_spawn _ _ _ _ proves) in Es. unfold run_started. run.
    pose proof (started_adds P (Some b) identity_handler interruption_handler execution_id stop_request
      allowed announced signalled within_boundary fuel pid s1) as Hb. rewrite py_bind_run in Hb.
    destruct (py_catch _ _ _ s1) as [[group|e] s2]; [|done]. run. rewrite py_bind_run in Hb.
    destruct (capture_identity _ _ _ pid group s2) as [[error|e] s3]; [|done]. destruct Hb as (acts2 & Hb & HP).
    run. destruct (supervise _ _ _ fuel pid group error s3) as [[ended|e] s4]; [|done]. cbn [snd] in Hb.
    destruct ended as [[returncode state]|]; [|done]. run. unfold silently at 1. rewrite recorded_run.
    destruct (pw_streams _) as [[io|e] w]; cbn [fst snd]; [|done]. run.
    destruct (retire _ _ _ _ _) as [[last|e] s5] eqn:Er; [|done].
    intros [= <- <- <-] _ Hret. cbn in Hret. destruct last as [t retired]. cbn in Hret. subst retired.
    apply retire_proves in Er as (before & a & rest & Er & Hbefore & Ha & Hr). cbn in Er.
    rewrite Hb in Er. exists s1. split; [done|]. exists (acts2 ++ before), a, rest. split; [|split; [by apply Forall_app|done] ].
    rewrite Er. by rewrite app_nil_r, <- !app_assoc.
  - destruct (is_boundary_error error); [|done]. run.
    destruct (with_boundary _ _ _ s1) as [[u|e] s2]; [|done]. by intros [= <- <- <-].
Qed.
End Retirement.

(** ** Interruption *)

(** Neither the engine is told of an interruption nor is a group sent SIGINT. *)
Definition unannounced (a : action) : Prop :=
  (forall kind, a <> Interrupted kind) /\ (forall pgid, a <> SignalledGroup pgid SIGINT).

Section Interruption.
Context {W H : Type} `{ProcessWorld W} (b : Boundary W).
Context (event_handler : option (H -> pyval -> res H)).
Context (identity_handler : option (WorkerProcessIdentity -> py W unit)).
Context (interruption_handler : string -> py W unit).
Context (execution_id : option string) (stop_request : bool) (sk : sinks).
Hypothesis quiet_boundary : boundary_adds unannounced b.

Lemma quiet_within b' : Some b = Some b' -> boundary_adds unannounced b'.
Proof. by intros [= <-]. Qed.

Lemma quiet_action a : run_action a -> unannounced a.
Proof. destruct a; try done; intros Hs; split; intros ? [=]; done. Qed.

(** What an interruption adds: nothing is told unless the group was signalled. *)
Definition told (kind : option string) (acts : list action) : Prop :=
  (kind = None /\ Forall unannounced acts) \/
  (kind = Some "operator_abort" /\ exists before pgid after,
     acts = before ++ SignalledGroup pgid SIGINT :: Interrupted "operator_abort" :: after /\
     Forall unannounced before /\ Forall unannounced after).

Lemma told_before acts1 kind acts : Forall unannounced acts1 -> told kind acts -> told kind (acts1 ++ acts).
Proof.
  intros Ha [[-> Hq]|(-> & before & pgid & after & -> & Hb & Hc)]; [left; split; [done|by apply Forall_app]|].
  right. split; [done|]. exists (acts1 ++ before), pgid, after. rewrite <- app_assoc, Forall_app. done.
Qed.

Lemma told_after acts1 kind acts : Forall unannounced acts1 -> told kind acts -> told kind (acts ++ acts1).
Proof.
  intros Ha [[-> Hq]|(-> & before & pgid & after & -> & Hb & Hc)]; [left; split; [done|by apply Forall_app]|].
  right. split; [done|]. exists before, pgid, (after ++ acts1). rewrite <- app_assoc, Forall_app. done.
Qed.

(** However [m] ends, it interrupts at most once, and a result says whether. *)
Definition tells {A} (kind_of : A -> option string) (m : py (process_log W) A) : Prop := forall s,
  exists kind acts, pl_actions (m s).2 = pl_actions s ++ acts /\ told kind acts /\
    forall a, (m s).1 = Ok a -> kind_of a = kind.

Lemma tells_quiet {A} (m : py (process_log W) A) kind_of :
  adds unannounced m -> (forall s a s', m s = (Ok a, s') -> kind_of a = None) -> tells kind_of m.
Proof.
  intros Hm Hk s. destruct (Hm s) as (acts & Ea & Hq). exists None, acts. split; [done|]. split; [by left|].
  intros a Ha. apply (Hk s a (m s).2). destruct (m s). cbn in *. by subst.
Qed.

Lemma tells_after {A B} (m : py (process_log W) A) (k : A -> py (process_log W) B) kind_of :
  adds unannounced m -> (forall a, tells kind_of (k a)) -> tells kind_of (m ≫= k).
Proof.
  intros Hm Hk s. run. destruct (Hm s) as (acts & Ea & Hq). destruct (m s) as [[a|e] s1]; cbn in *.
  - destruct (Hk a s1) as (kind & acts' & Ea' & Ht & Hr). exists kind, (acts ++ acts').
    split; [by rewrite Ea', Ea, <- app_assoc|]. split; [by apply told_before|done].
  - exists None, acts. split; [done|]. split; [by left|done].
Qed.

Lemma tells_before {A B} (m : py (process_log W) A) (k : A -> py (process_log W) B) kind_of of_result :
  tells kind_of m -> (forall a, adds unannounced (k a)) ->
  (forall a s b' s', k a s = (Ok b', s') -> of_result b' = kind_of a) -> tells of_result (m ≫= k).
Proof.
  intros Hm Hk Hr s. run. destruct (Hm s) as (kind & acts & Ea & Ht & Ha). destruct (m s) as [[a|e] s1]; cbn in *.
  - destruct (Hk a s1) as (acts' & Ea' & Hq). exists kind, (acts ++ acts').
    split; [by rewrite Ea', Ea, <- app_assoc|]. split; [by apply told_after|].
    intros b' Hb. rewrite <- (Ha a eq_refl). apply (Hr a s1 b' (k a s1).2).
    destruct (k a s1). cbn in *. by subst.
  - by exists kind, acts.
Qed.

Lemma interrupt_tells pid group :
  tells fst (interrupt (Some b) (Some interruption_handler) pid group "operator_abort").
Proof.
  apply tells_after; [apply (poll_adds unannounced quiet_action)|]. intros running.
  destruct (negb running || is_missing group); [apply tells_quiet; [apply adds_ret|by intros s a s' [= <- _]]|].
  apply tells_after; [apply (with_boundary_adds unannounced (Some b)); intros b' Hb;
    apply (ba_graceful _ _ (quiet_within b' Hb))|]. intros _.
  intros s. match goal with |- context [pl_actions (?m s).2] => destruct (m s) as [r s'] eqn:E end.
  cbn [fst snd]. revert E. run. unfold kill_group. destruct group as [pgid|].
  2: { intros [= <- <-]. exists None, []. rewrite app_nil_r. split; [done|].
       split; [left; by split|by intros a [= <-]]. }
  unfold py_catch at 1. run. rewrite recorded_run. cbn [String.eqb Ascii.eqb Bool.eqb].
  destruct (pw_killpg pgid _ (pl_world s)) as [[u|e] w]; cbn [fst snd].
  - cbn [mret py_ret]. cbn [negb]. run. unfold failure_of, py_catch. run. rewrite recorded_run. cbn [pl_world].
    assert (told (Some "operator_abort") [SignalledGroup pgid SIGINT; Interrupted "operator_abort"]) as Ht
      by (right; split; [done|]; by exists [], pgid, []).
    destruct (interruption_handler "operator_abort" w) as [[u'|e] w']; cbn [fst snd];
      [|destruct (is_exception e)]; intros [= <- <-]; cbn; rewrite <- app_assoc; eexists _, _;
      (split; [done|]; split; [done|]); [by intros a [= <-]|by intros a [= <-]|done].
  - assert (told None []) as Ht by (left; by split).
    destruct (is_os_error e); intros [= <- <-]; exists None, []; (split; [done|]; split; [done|]);
      [by intros a [= <-]|done].
Qed.

Definition kind_of_end (ended : option (Z * interruption)) : option string :=
  match ended with Some (_, state) => state.1 | None => None end.

Lemma ended_tells pid group : tells kind_of_end
  (state ← interrupt (Some b) (Some interruption_handler) pid group "operator_abort";
   returncode ← finish_interrupted (Some b) group;
   mret (Some (returncode, state))).
Proof.
  eapply tells_before; [apply interrupt_tells| |].
  - intros state. apply adds_bind; [|auto with adds].
    apply (finish_adds unannounced (Some b) quiet_action quiet_within).
  - intros state s e s'. run. destruct (finish_interrupted _ _ s) as [[c|e'] s1]; [|done]. by intros [= <- _].
Qed.

Lemma finished_tells {A} (m : py (process_log W) A) (f : A -> Z) : adds unannounced m ->
  tells kind_of_end (c ← m; mret (Some (f c, (None, None)))).
Proof.
  intros Hm. apply tells_quiet; [apply adds_bind; auto with adds|].
  intros s e s'. run. destruct (m s) as [[c|x] s1]; [|done]. by intros [= <- _].
Qed.

Lemma watch_tells fuel pid group :
  tells kind_of_end (watch (Some b) (Some interruption_handler) fuel pid group).
Proof.
  induction fuel as [|fuel IH]; [apply tells_quiet; [apply adds_ret|by intros s e s' [= <- _]]|].
  cbn [watch]. apply tells_after; [apply (wait_for_adds unannounced quiet_action)|].
  intros [c|]; [apply tells_quiet; [apply adds_ret|by intros s e s' [= <- _]]|].
  apply tells_after; [apply adds_silently|]. intros kind. case_bool_decide; [apply ended_tells|done].
Qed.

Lemma supervise_tells fuel pid group error :
  tells kind_of_end (supervise (Some b) (Some interruption_handler) stop_request fuel pid group error).
Proof.
  destruct error; cbn [supervise].
  { apply (finished_tells _ id), (finish_adds unannounced (Some b) quiet_action quiet_within). }
  destruct (negb stop_request); [|apply watch_tells]. intros s. unfold py_catch. run.
  pose proof (wait_exit_adds unannounced quiet_action s) as (acts & Ea & Hq).
  destruct (wait_exit s) as [[c|x] s1]; cbn [fst snd] in Ea.
  { exists None, acts. split; [done|]. split; [by left|by intros e [= <-]]. }
  destruct (is_class _ x); [|exists None, acts; split; [done|]; split; [by left|done]].
  destruct (ended_tells pid group s1) as (kind & acts' & Hi & Ht & Hk).
  exists kind, (acts ++ acts'). split; [by rewrite Hi, Ea, <- app_assoc|]. split; [by apply told_before|done].
Qed.

Definition kind_of_run (result : option (OpenCodeRunResult * H)) : option string :=
  match result with Some (r, _) => oc_interruption_kind r | None => None end.

Lemma run_started_tells fuel h prompt pid : tells kind_of_run
  (run_started (Some b) event_handler identity_handler (Some interruption_handler) execution_id stop_request
     sk fuel h prompt pid).
Proof.
  apply tells_after; [apply adds_catch; [apply adds_bind; auto with adds|auto with adds]|]. intros group.
  apply tells_after; [apply (capture_adds unannounced (Some b) identity_handler execution_id quiet_action)|].
  intros error. eapply tells_before; [apply supervise_tells| |].
  - intros [[c state]|]; [|apply adds_ret]. apply adds_bind; [apply adds_silently|]. intros io.
    apply adds_bind; [apply (retire_adds unannounced (Some b) identity_handler quiet_within)|auto with adds].
  - intros [[c state]|] s e s'; [|by intros [= <- _]]. run.
    destruct (silently pw_streams s) as [[io|x] s1]; [|done]. run.
    destruct (retire _ _ _ _ s1) as [[last|x] s2]; [|done]. by intros [= <- _].
Qed.
End Interruption.

(** C18: However a run of a worker process ends, with a result or an exception: its
    group is sent SIGINT at most once, and the engine's interruption handler is
    called at most once, with [operator_abort] and directly after that signal;
    there is no such signal without the call and no call without the signal.  A
    run that returns a result had them exactly when the result carries that kind
    of interruption. *)
Theorem interruption_is_told_once {W H} `{ProcessWorld W} (b : Boundary W) event_handler identity_handler
    interruption_handler execution_id stop_request sk fuel (h : H) prompt l s :
  boundary_adds unannounced b ->
  let out := _run_opencode (Some b) event_handler identity_handler (Some interruption_handler) execution_id
    stop_request sk fuel h prompt l s in
  exists kind acts, pl_actions out.2 = pl_actions s ++ acts /\ told kind acts /\
    forall r h', out.1 = Ok (Some (r, h')) -> oc_interruption_kind r = kind.
Proof.
  intros Hb. cbn zeta.
  assert (tells (kind_of_run (H := H)) (_run_opencode (Some b) event_handler identity_handler
    (Some interruption_handler) execution_id stop_request sk fuel h prompt l)) as Ht.
  2: { destruct (Ht s) as (kind & acts & Ea & Hk & Hr). exists kind, acts. split; [done|]. split; [done|].
       intros r h' Ho. exact (Hr _ Ho). }
  unfold _run_opencode. apply tells_after.
  - intros s0. unfold attempt. assert (adds unannounced (bd_spawn b l)) as Hs by (by apply (ba_spawn _ _ Hb)).
    specialize (Hs s0). by destruct (bd_spawn b l s0).
  - intros [pid|error]; [by apply run_started_tells|]. destruct (is_boundary_error error).
    2: { intros s0. exists None, []. rewrite app_nil_r. split; [done|]. split; [left; by split|done]. }
    apply tells_quiet.
    + apply adds_bind; [|auto with adds]. apply (with_boundary_adds unannounced (Some b)).
      intros b' [= <-]. apply adds_catch; [apply (ba_destroy _ _ Hb)|auto with adds].
    + intros s0 e s1. run. destruct (with_boundary _ _ _ s0) as [[u|x] s2]; [|done]. by intros [= <- _].
Qed.

(** ** The production provider *)

(** [LinuxCgroupContainmentProvider] *)
Definition cgroup_provider {W} `{CgroupWorld W} (isalnum : string -> bool) (execution_id : string)
    : py (process_log W) (Boundary W) :=
  c ← create isalnum execution_id; mret (boundary c).

(** Before its start a run may observe and prepare, but starts nothing. *)
Definition not_started (a : action) : Prop := forall l, a <> Spawned l.

Section Provider.
Context {W : Type} `{CgroupWorld W}.

#[local] Ltac one := apply adds_recorded; intros [?|?]; repeat constructor; intros ? [=].

Lemma read_mount_starts : adds (W := W) not_started _cgroup2_mount.
Proof. apply adds_catch; [apply adds_bind|]; auto with adds. Qed.

Lemma read_group_starts mount : adds (W := W) not_started (_current_cgroup mount).
Proof. apply adds_catch; [apply adds_bind|]; auto with adds. Qed.

Lemma attempt_adds {A} P (m : py (process_log W) A) : adds P m -> adds P (attempt m).
Proof. intros Hm s. specialize (Hm s). unfold attempt. by destruct (m s). Qed.

Lemma remove_probe_starts probe : adds (W := W) not_started (remove_probe probe).
Proof. one. Qed.

#[local] Hint Resolve remove_probe_starts : adds.

Lemma probe_failed_starts root probe marker error :
  adds (W := W) not_started (probe_failed root probe marker error).
Proof.
  unfold probe_failed. apply adds_if; [|intros s; exists []; by rewrite app_nil_r].
  apply adds_bind; [destruct marker; auto with adds|]. intros _.
  apply adds_bind; [apply adds_catch; auto with adds|auto with adds].
Qed.

Lemma probe_starts : adds (W := W) not_started probe_containment.
Proof.
  apply adds_if; [auto with adds|]. apply adds_bind; [apply read_mount_starts|].
  intros [mount|]; [|auto with adds]. apply adds_bind.
  { unfold _configured_root. destruct cw_configured; [apply adds_if; [|auto with adds]|]; apply read_group_starts. }
  intros [root|]; [|auto with adds]. apply adds_bind; [auto with adds|]. intros delegated.
  apply adds_if; [auto with adds|]. apply adds_bind.
  { apply attempt_adds. apply adds_bind; [one|]. intros _. apply adds_bind; [auto with adds|].
    intros kill. apply adds_if; apply adds_bind; auto with adds. }
  intros [[capability|marker]|error]; [auto with adds| |apply probe_failed_starts].
  apply adds_bind; [|intros [capability|error]; [auto with adds|apply probe_failed_starts]].
  apply attempt_adds. apply adds_bind; [auto with adds|]. intros _. apply adds_bind; [auto with adds|].
  intros child. apply adds_bind; [auto with adds|]. intros expected. apply adds_bind; [auto with adds|].
  intros written. apply adds_bind; [apply adds_if; [apply adds_bind|]; auto with adds|]. intros observed.
  apply adds_bind; [auto with adds|]. intros _. apply adds_bind; auto with adds.
Qed.

(** The group of an execution, below the root that was found usable. *)
Definition execution_group (isalnum : string -> bool) (execution_id : string) (path : Path) : Prop :=
  exists root, path = path_child root ("execution-" +:+ safe_id isalnum execution_id).

(** A created boundary is a new group of its own; making it is the last action. *)
Lemma create_ok isalnum x s c s' : create (W := W) isalnum x s = (Ok c, s') -> exists acts,
  pl_actions s' = pl_actions s ++ acts ++ [CreatedGroup (ec_path c)] /\ Forall not_started acts /\
  execution_group isalnum x (ec_path c).
Proof.
  unfold create. run. destruct (probe_containment s) as [[capability|e] s1] eqn:Ep; [|done].
  apply (adds_something _ _ _ _ _ probe_starts) in Ep as (acts & Ep & Hn).
  destruct (usable capability), (cap_root capability) as [root|]; try done. run.
  unfold py_catch. rewrite recorded_run. destruct (cw_mkdir _ _) as [[u|e] w]; cbn [fst snd].
  2: { by destruct (is_os_error e). }
  intros [= <- <-]. exists acts. split; [cbn; by rewrite Ep, <- app_assoc|]. split; [done|]. by exists root.
Qed.
End Provider.

(** ** The supervisor *)

Lemma in_process_run {W A} (m : py (process_log W) A) (s : supervised W) :
  in_process m s = ((m (sv_log s)).1, mkSupervised (sv_draining s) (sv_active s) (m (sv_log s)).2).
Proof. unfold in_process. by destruct (m (sv_log s)). Qed.

Lemma make_config_ok {W} `{ProcessWorld W} report s config s' :
  make_config (W := W) report s = (Ok config, s') -> pl_actions s' = pl_actions s ++ [MadeTree config].
Proof.
  unfold make_config, silently. run. rewrite recorded_run. destruct (pw_mkdtemp _ _) as [[c|e] w]; cbn [fst snd]; [|done].
  run. rewrite recorded_run. destruct (pw_mkdir _ _) as [[u|e] w1]; cbn [fst snd]; [|done].
  run. rewrite recorded_run. destruct (pw_write_text _ _ _) as [[u1|e] w2]; cbn [fst snd]; [|done].
  intros [= <- <-]. cbn. by rewrite !app_nil_r.
Qed.

Lemma open_log_ok {W} `{ProcessWorld W} self x s r s' :
  open_log (W := W) self x s = (r, s') -> pl_actions s' = pl_actions s.
Proof.
  assert (adds (W := W) (fun _ => False) (open_log self x)) as Ho.
  { unfold open_log. destruct (ws_log_target self) as [[dir key]|]; [|auto with adds].
    apply adds_bind; [auto with adds|intros path; apply adds_silently]. }
  intros E. apply (adds_something _ _ _ _ _ Ho) in E as ([|a acts] & -> & HF); [apply app_nil_r|].
  by apply Forall_cons in HF as [? _].
Qed.

(** The actions of a run that left nothing: the private configuration is made, the
    probe of the boundary starts no worker, the new group is made and the command
    is started by the launcher that joins that group, and then only this group is
    touched, up to the reading of its events, with the [text] that is given. *)
Definition run_actions {W} `{CgroupWorld W} (group config : Path) (command : list string) (cwd : Path)
    (env : list (string * string)) (text : string) (acts : list action) : Prop := exists before between removed,
  acts = MadeTree config :: before ++
    CreatedGroup group :: Spawned (mkLaunch (_launcher_command (W := W) group command) cwd env) :: between ++
    ReadEvents group (Some text) :: removed ++ [RemovedTree config] /\
  Forall not_started before /\ Forall (after_start (mkContainment group true)) between /\
  (removed = [] \/ removed = [RemovedGroup group]).

(** C2: A finished run that reports its worker started and its boundary retired has
    started exactly one worker, the command in the given directory and
    environment, by the launcher that first joins the control group made for
    this execution just before; and it ends with a reading of the [cgroup.events]
    of that same group that says [populated 0], after which only that group and
    the private configuration are removed. *)
Theorem retired_worker_left_nothing {W} `{ProcessWorld W, CgroupWorld W} self isalnum isprintable log_write
    process_running report fuel workspace prompt execution_id stop identity_handler interruption_handler
    (s : supervised W) r s' :
  run self (cgroup_provider isalnum) isprintable log_write process_running report fuel workspace prompt
    execution_id stop identity_handler interruption_handler s = (Ok (Some r), s') ->
  run_process_started r = true -> run_worker_group_retired r = true ->
  exists group config text acts,
    let cwd := pw_resolve (W := W) (ew_path workspace) in
    pl_actions (sv_log s') = pl_actions (sv_log s) ++ acts /\
    run_actions (W := W) group config (opencode_command self cwd) cwd
      (opencode_environment (W := W) cwd config) text acts /\
    execution_group isalnum execution_id group /\ parse_populated text = Ok false.
Proof.
  unfold run. run. rewrite in_process_run.
  destruct (make_config report (sv_log s)) as [[config|e] l1] eqn:Ec; cbn [fst snd]; [|done].
  apply make_config_ok in Ec.
  run. unfold enter. cbn [sv_draining]. destruct (sv_draining s); [done|].
  unfold py_finally. rewrite in_process_run. cbn [sv_log]. unfold run_admitted, py_catch. run.
  destruct (open_log self execution_id l1) as [[u|e] l2] eqn:Eo; cbn [fst snd].
  2: { destruct (is_containment_error e); [|done]. by intros [= <- <-]. }
  apply open_log_ok in Eo. run. unfold cgroup_provider. run.
  destruct (create isalnum execution_id l2) as [[c|e] l3] eqn:Ecr.
  2: { destruct (is_containment_error e); [|done]. by intros [= <- <-]. }
  apply create_ok in Ecr as (before & Ecr & Hn & Hg). cbn [mret py_ret]. run.
  destruct (_run_opencode _ _ _ _ _ _ _ _ _ _ _ l3) as [[[[ended parser]|]|e] l4] eqn:Er; cbn [fst snd];
    [|done|destruct (is_containment_error e); [|done]; by intros [= <- <-] ].
  intros [= <- <-] Hst Hret.
  assert (oc_process_started ended = true /\ oc_worker_group_retired ended = true) as [Hst' Hret']
    by (unfold run_result in *; by destruct (finish parser)).
  edestruct (run_opencode_proves (H := WorkerEgressParser) (after_start c) (joined_by (ec_path c)) (empty_seen (ec_path c))
    (fun a => a = RemovedGroup (ec_path c)) (boundary c)) as (l5 & Es & Hlast);
    [..|exact Er|exact Hst'|exact Hret'|].
  - by left.
  - right. left. by eexists.
  - right. right. left. by eexists.
  - apply cgroup_proves.
  - apply cgroup_adds. intros a Ha. by do 3 right.
  - destruct Hlast as (between & a & removed & El & Hb & (text & -> & Ht) & Hr).
    exists (ec_path c), config, text. eexists. split_and!; [|exists before, between, removed; split_and!|..];
      [|reflexivity|..]; try done.
    + cbn. by rewrite El, Es, Ecr, Eo, Ec, <- !app_assoc.
    + destruct Hr as [->|(g & -> & ->)]; auto.
Qed.

(** * Accepted runs *)

#[local] Arguments consume_stdout : simpl never.

Lemma or_else_none first text : or_else first (Some text) <> None.
Proof. destruct first as [x|]; [|done]. cbn. by destruct (x =? "")%string. Qed.

Section Accepted.
Context {W H : Type} `{ProcessWorld W} (containment : option (Boundary W)).
Context (event_handler : option (H -> pyval -> res H)).
Context (identity_handler : option (WorkerProcessIdentity -> py W unit)).
Context (interruption_handler : option (string -> py W unit)).
Context (execution_id : option string) (stop_request : bool) (sk : sinks).

(** The process's pipes carry [io]. *)
Definition carries (io : streams) : Prop := forall w : W, (pw_streams w).1 = Ok io.

(** The retirement adds errors, it takes none away. *)
Lemma retire_keeps error kind s b s' :
  retire containment identity_handler error kind s = (Ok (None, b), s') -> error = None.
Proof.
  unfold retire. run. destruct (observe_retired _ _ kind s) as [[[]|e] s1]; cbn [negb]; [| |done].
  - unfold with_boundary. destruct containment as [bd|]; [|by intros [= -> _ _]].
    unfold py_catch. run. destruct (bd_destroy bd s1) as [[u|e] s2]; [by intros [= -> _ _]|].
    destruct (is_class _ e); [|done]. intros [= He _ _]. by apply or_else_none in He.
  - run. destruct (with_boundary _ _ _ s1) as [[detail|e] s2]; [|done].
    intros [= He _ _]. by apply or_else_none in He.
Qed.

Lemma transport_clear j error state : transport_after (H := H) j error state = None ->
  jn_transport_error j = None /\ jn_log_error j = None /\
  (state.1 = None -> jn_prompt_error j = None).
Proof.
  unfold transport_after. destruct error; [done|]. destruct (jn_log_error j); [done|].
  destruct state as [kind err]; cbn. destruct err; [done|].
  destruct (jn_prompt_error j) as [p|], kind; try done.
  intros He. by apply or_else_none in He.
Qed.

Lemma started_clear io fuel h prompt pid s r h' s' : carries io ->
  run_started containment event_handler identity_handler interruption_handler execution_id stop_request sk
    fuel h prompt pid s = (Ok (Some (r, h')), s') ->
  oc_transport_error r = None ->
  let j := join_threads event_handler h sk (pw_encode_error (W := W)) prompt io in
  h' = jn_handler j /\ jn_transport_error j = None /\ jn_log_error j = None /\
  (oc_interruption_kind r = None -> jn_prompt_error j = None).
Proof.
  intros Hio. unfold run_started. run.
  destruct (py_catch _ _ _ s) as [[group|e] s1]; [|done]. run.
  destruct (capture_identity _ _ _ _ _ s1) as [[error|e] s2]; [|done]. run.
  destruct (supervise _ _ _ _ _ _ _ s2) as [[ended|e] s3]; [|done].
  destruct ended as [[returncode state]|]; [|done]. run. unfold silently at 1. rewrite recorded_run.
  rewrite Hio. cbn [fst snd]. run.
  destruct (retire _ _ _ _ _) as [[[t b]|e] s4] eqn:Er; [|done].
  intros [= <- <- <-]. cbn [oc_transport_error oc_interruption_kind fst snd]. intros ->.
  apply retire_keeps, transport_clear in Er as (? & ? & ?). done.
Qed.
End Accepted.

