(* ===== verification/WorkerIdentity.v ===== *)
(** The identity of a worker process read from the kernel and recognised later, and
    the admission of runs: what is read of [/proc/<pid>/stat] whatever the name of
    the program, which process a recorded identity matches, and what a supervisor
    that drains still does. *)

From S2P Require Export WorkerSafety.

(** * The start time *)

Lemma after_last_tail c s t : after_last c t = None -> after_last c (s +:+ String c t) = Some t.
Proof.
  intros Ht. induction s as [|d s IH].
  - rewrite str_app_nil_l. cbn [after_last]. rewrite Ht. by rewrite (proj2 (Ascii.eqb_eq c c) eq_refl).
  - rewrite str_app_cons. cbn [after_last]. by rewrite IH.
Qed.

(** A field of the record: ASCII, not empty, without white space or a parenthesis. *)
Definition stat_field (f : string) : Prop :=
  f <> "" /\ ascii_text f = true /\ after_last CLOSING f = None /\
  Forall (fun c => is_space c = false) (utf8_chars f).

Lemma after_last_app c s t : after_last c s = None -> after_last c t = None -> after_last c (s +:+ t) = None.
Proof.
  intros Hs Ht. induction s as [|d s IH]; [done|]. rewrite str_app_cons. cbn [after_last] in *.
  destruct (after_last c s) eqn:E; [done|]. rewrite IH by done. by destruct (Ascii.eqb d c).
Qed.

Lemma split_words_field acc cs rest : Forall (fun c => is_space c = false) cs -> cs <> [] ->
  split_words acc (cs ++ " " :: rest) = of_chars (rev acc ++ cs) :: split_words [] rest.
Proof.
  intros Hcs Hne. revert acc Hne. induction Hcs as [|c cs Hc Hcs IH]; intros acc Hne; [done|].
  cbn [app split_words]. rewrite Hc. destruct cs as [|d cs].
  - cbn [app split_words]. change (is_space " ") with true. cbn. done.
  - rewrite IH by done. cbn [rev]. by rewrite <- app_assoc.
Qed.

Lemma ascii_starts s : ascii_text s = true -> starts_char s = true.
Proof. intros. by apply utf8_starts, ascii_utf8. Qed.

(** The fields of a record, each followed by a space. *)
Definition fields_text (fields : list string) : string := of_chars (map (fun f => f +:+ " ") fields).

Lemma fields_text_cons f fields : fields_text (f :: fields) = f +:+ " " +:+ fields_text fields.
Proof. unfold fields_text. cbn [map]. by rewrite of_chars_cons, str_app_assoc. Qed.

Lemma fields_ascii fields tail : Forall stat_field fields -> ascii_text tail = true ->
  ascii_text (fields_text fields +:+ tail) = true.
Proof.
  intros Hf Ht. induction Hf as [|f fields (_ & Ha & _) _ IH]; [done|].
  rewrite fields_text_cons, !str_app_assoc, (ascii_text_app f), (ascii_text_app " "), Ha. exact IH.
Qed.

Lemma fields_open fields : Forall stat_field fields -> after_last CLOSING (fields_text fields) = None.
Proof.
  induction 1 as [|f fields (_ & _ & Hl & _) _ IH]; [done|]. rewrite fields_text_cons.
  apply after_last_app; [done|]. by apply (after_last_app _ " ").
Qed.

Lemma words_of_fields fields : Forall stat_field fields -> words (fields_text fields +:+ LF) = fields.
Proof.
  unfold words. induction 1 as [|f fields (Hne & Ha & _ & Hsp) Hf IH]; [done|].
  rewrite fields_text_cons, !str_app_assoc.
  pose proof (ascii_starts _ (fields_ascii fields LF Hf eq_refl)) as Hst.
  rewrite (utf8_chars_app f) by done. rewrite (utf8_chars_app " ") by done.
  change (utf8_chars " ") with [" "]. cbn [app]. rewrite split_words_field; [|done|].
  - cbn [rev app]. by rewrite of_utf8_chars, IH.
  - intros E. apply Hne. by rewrite <- (of_utf8_chars f), E.
Qed.

(** ** The digits *)

Lemma int_digits_all ds acc b : all_bytes is_digit ds = true -> ds <> "" \/ b = true ->
  int_digits b acc ds = Some (foldl (fun acc c => acc * 10 + Z.of_N (byte_val c - 48))%Z acc (String.list_ascii_of_string ds)).
Proof.
  revert acc b. induction ds as [|c ds IH]; intros acc b Hd Hb; cbn.
  - destruct Hb as [Hb| ->]; done.
  - cbn in Hd. bsplit. rewrite H. apply IH; [done|by right].
Qed.

Lemma digits_value ds acc : foldl (fun acc c => acc * 10 + Z.of_N (byte_val c - 48))%Z (Z.of_N acc) (String.list_ascii_of_string ds) =
  Z.of_N (foldl (fun acc c => acc * 10 + (byte_val c - 48))%N acc (String.list_ascii_of_string ds)).
Proof.
  revert acc. induction ds as [|c ds IH]; intros acc; cbn; [done|]. rewrite <- IH. f_equal. lia.
Qed.

Lemma parse_int_pretty (n : N) : parse_int (str_of_Z (Z.of_N n)) = Some (Z.of_N n).
Proof.
  destruct (N.eq_dec n 0%N) as [->|Hn]; [reflexivity|].
  destruct (pretty_digits n "" ltac:(lia)) as (ds & Hgo & Hall & Hval & c & ds' & -> & Hc).
  rewrite str_app_nil_r in Hgo. destruct n as [|p]; [done|].
  assert (str_of_Z (Z.of_N (N.pos p)) = String c ds') as -> by exact Hgo.
  unfold parse_int. pose proof Hall as Hall'. cbn [all_bytes] in Hall'. bsplit.
  unfold is_digit, byte_in in H. bsplit. rewrite N.leb_le in *.
  destruct (N.eqb_spec (byte_val c) 45); [lia|]. destruct (N.eqb_spec (byte_val c) 43); [lia|].
  rewrite int_digits_all by (try done; by left). unfold digits_N in Hval.
  rewrite (digits_value _ 0%N). by rewrite Hval.
Qed.

(** The start time is read from its own field of [/proc/<pid>/stat] whatever the
    program calls itself, parentheses and spaces included. *)
Theorem start_time_survives_name prefix comm fields n :
  Forall stat_field fields -> fields !! 19 = Some (str_of_Z (Z.of_N n)) ->
  start_time_of (prefix +:+ "(" +:+ comm +:+ ") " +:+ fields_text fields +:+ LF) = Ok (Z.of_N n).
Proof.
  intros Hf Hn. unfold start_time_of. set (rest := fields_text fields +:+ LF).
  assert (after_last CLOSING rest = None) as Hrest by (apply after_last_app; [by apply fields_open|done]).
  assert (prefix +:+ "(" +:+ comm +:+ ") " +:+ rest = (prefix +:+ "(" +:+ comm) +:+ String CLOSING (" " +:+ rest)) as ->.
  { by rewrite !str_app_assoc. }
  rewrite after_last_tail by (by apply (after_last_app _ " ")).
  rewrite utf8_chars_app by (by apply ascii_starts, fields_ascii).
  change (drop 1 (utf8_chars " " ++ utf8_chars rest)) with (utf8_chars rest). rewrite of_utf8_chars.
  subst rest. by rewrite words_of_fields, Hn, parse_int_pretty.
Qed.

(** * Recognition *)

Section Recognition.
Context {W : Type} `{ProcessWorld W}.

(** The process [pid] as the kernel shows it while it lives. *)
Record shows (pid : Z) (boot stat : string) (pgid sid start : Z) : Prop := {
  sh_linux : pw_linux (W := W) = true;
  sh_boot : forall w : W, (pw_boot_id w).1 = Ok boot;
  sh_stat : forall w : W, (pw_stat pid w).1 = Ok stat;
  sh_pgid : forall w : W, (pw_getpgid pid w).1 = Ok pgid;
  sh_sid : forall w : W, (pw_getsid pid w).1 = Ok sid;
  sh_start : start_time_of stat = Ok start
}.

Lemma silently_ok {A B} (m : py W A) (k : A -> py (process_log W) B) a s :
  (m (pl_world s)).1 = Ok a ->
  (a' ← silently m; k a') s = k a (mkLog (m (pl_world s)).2 (pl_actions s ++ [])).
Proof. intros E. run. unfold silently. rewrite recorded_run. by rewrite E. Qed.

Lemma observed pid boot stat pgid sid start (j : WorkerProcessIdentity) s : shows pid boot stat pgid sid start ->
  wi_pid j = pid ->
  (observe_worker_identity (W := W) j s).1 = Ok
    (if negb (strip boot =? wi_boot_id j)%string then "absent"
     else if negb (start =? wi_start_time j)%Z then "absent"
     else if negb (pgid =? wi_pgid j)%Z || negb (sid =? wi_sid j)%Z then "indeterminate"
     else "matching-live").
Proof.
  intros Hs Hj. unfold observe_worker_identity. rewrite (sh_linux _ _ _ _ _ _ Hs). cbn [negb]. run.
  unfold observe_start, py_catch. rewrite (silently_ok _ _ boot) by apply (sh_boot _ _ _ _ _ _ Hs).
  destruct (strip boot =? wi_boot_id j)%string; cbn [negb]; [|done].
  rewrite (silently_ok _ _ stat) by (rewrite Hj; apply (sh_stat _ _ _ _ _ _ Hs)). run.
  rewrite (sh_start _ _ _ _ _ _ Hs). cbn [mret py_ret].
  destruct (start =? wi_start_time j)%Z; cbn [negb]; [|done].
  unfold observe_group, py_catch. rewrite (silently_ok _ _ pgid) by (rewrite Hj; apply (sh_pgid _ _ _ _ _ _ Hs)).
  destruct (pgid =? wi_pgid j)%Z; cbn [negb orb]; [|done].
  rewrite (silently_ok _ _ sid) by (rewrite Hj; apply (sh_sid _ _ _ _ _ _ Hs)).
  by destruct (sid =? wi_sid j)%Z.
Qed.

Lemma captured pid boot stat pgid sid start x c (s : process_log W) i s1 : shows pid boot stat pgid sid start ->
  _capture_worker_identity pid x c s = (Ok i, s1) ->
  i = mkWorkerIdentity x pid pgid sid (strip boot) start c /\ pgid = pid /\ sid = pid /\
  (0 < pid)%Z /\ strip boot <> "" /\ (0 <= start)%Z.
Proof.
  intros Hs. unfold _capture_worker_identity. rewrite (sh_linux _ _ _ _ _ _ Hs). cbn [negb]. run.
  destruct (poll s) as [[[|]|e] s0]; cbn [negb]; [|done|done].
  rewrite (silently_ok _ _ pgid) by apply (sh_pgid _ _ _ _ _ _ Hs).
  rewrite (silently_ok _ _ sid) by apply (sh_sid _ _ _ _ _ _ Hs).
  destruct (_ || _) eqn:E; [done|]. rewrite (silently_ok _ _ boot) by apply (sh_boot _ _ _ _ _ _ Hs).
  rewrite (silently_ok _ _ stat) by apply (sh_stat _ _ _ _ _ _ Hs). run. rewrite (sh_start _ _ _ _ _ _ Hs).
  destruct ((strip boot =? "")%string || (start <? 0)%Z) eqn:E2; [done|]. intros [= <- _]. bsplit.
  repeat match goal with
  | H : (_ <=? _)%Z = false |- _ => apply Z.leb_gt in H
  | H : (_ <? _)%Z = false |- _ => apply Z.ltb_ge in H
  | H : (_ =? _)%Z = true |- _ => apply Z.eqb_eq in H
  end. subst. done.
Qed.
End Recognition.

(** C19: An identity captured from a live process is recognised as that process for as
    long as it lives, and no other identity with its number is: one with another
    boot or start time is absent, one with another group or session is left
    undecided. *)
Theorem captured_identity_is_recognised {W} `{ProcessWorld W} pid boot stat pgid sid start x c
    (s : process_log W) i s1 :
  shows (W := W) pid boot stat pgid sid start ->
  _capture_worker_identity pid x c s = (Ok i, s1) ->
  forall j (s2 : process_log W), wi_pid j = wi_pid i ->
    ((observe_worker_identity j s2).1 = Ok "matching-live" <->
       wi_boot_id j = wi_boot_id i /\ wi_start_time j = wi_start_time i /\
       wi_pgid j = wi_pgid i /\ wi_sid j = wi_sid i) /\
    ((observe_worker_identity j s2).1 = Ok "absent" <->
       wi_boot_id j <> wi_boot_id i \/ wi_start_time j <> wi_start_time i).
Proof.
  intros Hs Hc j s2 Hj. destruct (captured _ _ _ _ _ _ _ _ _ _ _ Hs Hc) as (-> & _ & _ & _ & _ & _). cbn in *.
  rewrite (observed _ _ _ _ _ _ j s2 Hs Hj).
  destruct (String.eqb_spec (strip boot) (wi_boot_id j)) as [Eb|Eb]; cbn [negb].
  2: { split; split; try done; [by intros (? & _)|]. intros _. left. congruence. }
  destruct (Z.eqb_spec start (wi_start_time j)) as [Es|Es]; cbn [negb].
  2: { split; split; try done; [by intros (_ & ? & _)|]. intros _. right. congruence. }
  destruct (Z.eqb_spec pgid (wi_pgid j)) as [Ep|Ep], (Z.eqb_spec sid (wi_sid j)) as [Ei|Ei]; cbn [negb orb];
    (split; split; try done; naive_solver congruence).
Qed.
