(* ===== verification/WorkerDrain.v ===== *)
(** The supervisor around its runs: what it admits while threads drain it and start
    and finish runs in any order, what a rejected run leaves behind, what a worker
    inherits of the service's environment, and that watching a process ends. *)

From S2P Require Export WorkerSafety.

(** * Critical sections *)

(** One holding of the lock by some thread. *)
Inductive call : Type :=
  | Drain
  | Enter (execution_id : string)
  | Leave (execution_id : string).

(** What the call answers: whether it changed the admission, whether it was admitted. *)
Definition perform {W} (c : call) (s : supervised W) : bool * supervised W :=
  match c with
  | Drain => match begin_drain s with (Ok b, s') => (b, s') | (Raise _, s') => (false, s') end
  | Enter x => match enter x s with (Ok _, s') => (true, s') | (Raise _, s') => (false, s') end
  | Leave x => (true, leave x s)
  end.

Fixpoint perform_all {W} (calls : list call) (s : supervised W) : list (call * bool) * supervised W :=
  match calls with
  | [] => ([], s)
  | c :: calls =>
      let '(b, s1) := perform c s in
      let '(answers, s2) := perform_all calls s1 in
      ((c, b) :: answers, s2)
  end.

Definition admitted (answers : list (call * bool)) : list string :=
  flat_map (fun ca => match ca with (Enter x, true) => [x] | _ => [] end) answers.

Definition drained (answers : list (call * bool)) : nat :=
  length (List.filter (fun ca => match ca with (Drain, true) => true | _ => false end) answers).

Lemma perform_draining {W} c (s : supervised W) : sv_draining s = true ->
  sv_draining (perform c s).2 = true /\ admitted [(c, (perform c s).1)] = [] /\
  drained [(c, (perform c s).1)] = 0 /\ incl (sv_active (perform c s).2) (sv_active s).
Proof.
  intros Hd. destruct c; cbn; unfold begin_drain, enter; rewrite ?Hd; cbn;
    (split; [done|]; split; [done|]; split; [done|]); try apply incl_refl.
  apply incl_filter.
Qed.

(** Once it drains, nothing is admitted and the runs only get fewer. *)
Lemma draining_admits_nothing {W} calls (s : supervised W) : sv_draining s = true ->
  let '(answers, s') := perform_all calls s in
  sv_draining s' = true /\ admitted answers = [] /\ drained answers = 0 /\ incl (sv_active s') (sv_active s).
Proof.
  revert s. induction calls as [|c calls IH]; intros s Hd; cbn [perform_all];
    [split; [done|]; split; [done|]; split; [done|apply incl_refl]|].
  pose proof (perform_draining c s Hd) as (H1 & H2 & H3 & H4). destruct (perform c s) as [b s1]. cbn [fst snd] in *.
  specialize (IH s1 H1). destruct (perform_all calls s1) as [answers s2]. destruct IH as (Ha & Hb & Hc & Hi).
  split; [done|]. split; [|split].
  - unfold admitted in *. cbn [flat_map] in *. rewrite Hb. rewrite app_nil_r in *. exact H2.
  - unfold drained in *. cbn [List.filter] in *. destruct c; try done. by destruct b.
  - by eapply incl_tran.
Qed.

Lemma perform_all_app {W} calls calls' (s : supervised W) :
  perform_all (calls ++ calls') s =
    let '(answers, s1) := perform_all calls s in
    let '(answers', s2) := perform_all calls' s1 in (answers ++ answers', s2).
Proof.
  revert s. induction calls as [|c calls IH]; intros s; cbn [app perform_all].
  - by destruct (perform_all calls' s).
  - destruct (perform c s) as [b s1]. rewrite IH. destruct (perform_all calls s1) as [answers s2].
    by destruct (perform_all calls' s2).
Qed.

(** C20: Whatever the order in which threads drain the supervisor and start and finish
    runs: the first drain is the one that changes the admission and the only one,
    after it no run is admitted, and the runs under way only get fewer. *)
Theorem drained_supervisor_admits_nothing {W} before after (s : supervised W) :
  sv_draining s = false -> ~ In Drain before ->
  let '(answers, s1) := perform_all before s in
  let '(answers', s2) := perform_all (Drain :: after) s1 in
  sv_draining s1 = false /\ drained answers = 0 /\ drained answers' = 1 /\ sv_draining s2 = true /\
  admitted answers' = [] /\ incl (sv_active s2) (sv_active s1).
Proof.
  intros Hd Hb. assert (let '(answers, s1) := perform_all before s in sv_draining s1 = false /\ drained answers = 0) as Hs.
  { revert s Hd. induction before as [|c before IH]; intros s Hd; cbn [perform_all]; [done|].
    assert (sv_draining (perform c s).2 = false /\ c <> Drain) as [Hp Hc].
    { destruct c; [by destruct Hb; left| |]; cbn; unfold enter; by rewrite ?Hd. }
    destruct (perform c s) as [b s1]. specialize (IH (fun Hin => Hb (or_intror Hin)) s1 Hp).
    destruct (perform_all before s1) as [answers s2]. destruct IH as [? IH]. split; [done|]. by destruct c. }
  destruct (perform_all before s) as [answers s1]. destruct Hs as [Hs Hz]. cbn [perform_all perform].
  unfold begin_drain. rewrite Hs.
  pose proof (draining_admits_nothing after (mkSupervised true (sv_active s1) (sv_log s1)) eq_refl) as Hn.
  destruct (perform_all after _) as [answers' s2]. destruct Hn as (? & ? & Hdr & ?). unfold drained in *. cbn. by rewrite Hdr.
Qed.

(** ** Who owns what *)

Lemma active_leave x y (active : list string) : y ∈ deactivate x active <-> y ∈ active /\ y <> x.
Proof.
  unfold deactivate. rewrite !list_elem_of_In, filter_In, negb_true_iff, String.eqb_neq. tauto.
Qed.

Lemma active_enter x y (active : list string) : y ∈ activate x active <-> y ∈ active \/ y = x.
Proof.
  unfold activate. case_bool_decide as E; [|rewrite elem_of_app, list_elem_of_singleton; tauto].
  split; [tauto|]. by intros [?| ->].
Qed.

(** * A run and its traces *)

Section Runs.
Context {W : Type} `{ProcessWorld W} (self : WorkerSupervisor).
Context (provide : string -> py (process_log W) (Boundary W)).
Context (isprintable : string -> bool) (log_write : output -> string -> option string).
Context (process_running : output -> bool) (report : string).

#[local] Abbreviation run := (run self provide isprintable log_write process_running report).

(** Whatever becomes of a run, the supervisor ends as it was. *)
Lemma run_restores fuel workspace prompt x stop ih nh (s : supervised W) : x ∉ sv_active s ->
  sv_active (run fuel workspace prompt x stop ih nh s).2 = sv_active s /\
  sv_draining (run fuel workspace prompt x stop ih nh s).2 = sv_draining s.
Proof.
  intros Hx. unfold WorkerSupervisor.run. run. rewrite in_process_run.
  destruct (make_config report (sv_log s)) as [[config|e] l1]; cbn [fst snd]; [|done].
  run. unfold enter. cbn [sv_draining sv_active sv_log]. destruct (sv_draining s) eqn:Ed; [done|].
  unfold py_finally. rewrite in_process_run. cbn. split; [|done].
  unfold activate. rewrite bool_decide_false by done. unfold deactivate. rewrite List.filter_app. cbn.
  rewrite String.eqb_refl. cbn. rewrite app_nil_r. clear -Hx. induction (sv_active s) as [|y l IH]; [done|].
  apply not_elem_of_cons in Hx as [Hy Hl]. cbn. rewrite (proj2 (String.eqb_neq y x)) by done. cbn.
  by rewrite IH.
Qed.

(** What happens in the private configuration's making. *)
Lemma make_config_actions (s : process_log W) config s1 : make_config (W := W) report s = (Ok config, s1) ->
  pl_actions s1 = pl_actions s ++ [MadeTree config].
Proof.
  unfold make_config. run. rewrite recorded_run.
  destruct (pw_mkdtemp _ _) as [[path|e] w]; cbn [fst snd]; [|done]. run. unfold silently. rewrite recorded_run.
  destruct (pw_mkdir _ _) as [[u|e] w1]; cbn [fst snd]; [|done]. run. rewrite recorded_run.
  destruct (pw_write_text _ _ _) as [[u'|e] w2]; cbn [fst snd]; [|done].
  intros [= <- <-]. cbn. by rewrite !app_nil_r.
Qed.
End Runs.

(** A run asked of a draining supervisor is refused before anything is started,
    but the temporary configuration directory it made is never removed. *)
Theorem rejected_run_leaves_config {W} `{ProcessWorld W} self provide isprintable log_write process_running
    report fuel workspace prompt x stop ih nh (s : supervised W) config l :
  sv_draining s = true -> make_config report (sv_log s) = (Ok config, l) ->
  exists s', run self provide isprintable log_write process_running report fuel workspace prompt x stop ih nh s =
      (Raise (Exn WorkerAdmissionClosed "worker admission is closed"), s') /\
    sv_active s' = sv_active s /\ sv_draining s' = true /\
    pl_actions (sv_log s') = pl_actions (sv_log s) ++ [MadeTree config].
Proof.
  intros Hd Hc. unfold run. run. rewrite in_process_run, Hc. cbn [fst snd]. run. unfold enter.
  cbn [sv_draining]. rewrite Hd. eexists. split; [reflexivity|]. cbn. split; [done|]. split; [done|].
  by apply make_config_actions in Hc.
Qed.

(** * The environment *)

Lemma worker_environment_spec (env : list (string * string)) name : NoDup (keys env) ->
  dget (worker_environment env) name = if host_controlled name then None else dget env name.
Proof.
  intros Hn. unfold worker_environment.
  set (f := fun (worker_env : list (string * string)) name =>
    if host_controlled name then dpop worker_env name else worker_env).
  assert (forall ks (e : list (string * string)), NoDup (keys e) ->
    NoDup (keys (foldl f e ks)) /\
    (host_controlled name = false -> dget (foldl f e ks) name = dget e name) /\
    (host_controlled name = true -> dget e name = None \/ name ∈ ks -> dget (foldl f e ks) name = None)) as Hg.
  { induction ks as [|k ks IH]; intros e He; cbn [foldl].
    { split_and!; [done|done|]. intros _ [?|Hin]; [done|]. by apply not_elem_of_nil in Hin. }
    change (f e k) with (if host_controlled k then dpop e k else e).
    set (e' := if host_controlled k then dpop e k else e).
    assert (NoDup (keys e')) as He' by (subst e'; destruct (host_controlled k); [by apply NoDup_dpop|done]).
    destruct (IH e' He') as (Hnd & Hkeep & Hgone). split_and!; [done| |].
    - intros Hc. rewrite Hkeep by done. subst e'. destruct (host_controlled k) eqn:Ek; [|done].
      apply dget_dpop_ne. congruence.
    - intros Hc Hin. apply Hgone; [done|]. destruct (decide (k = name)) as [->|Hne].
      + left. subst e'. rewrite Hc. by apply dget_dpop_eq.
      + destruct Hin as [Hnone|Hin]; [left|right; by apply elem_of_cons in Hin as [?|?]].
        subst e'. destruct (host_controlled k); [by rewrite dget_dpop_ne|done]. }
  destruct (Hg (keys env) env Hn) as (_ & Hkeep & Hgone).
  destruct (host_controlled name) eqn:Ec; [|by apply Hkeep]. apply Hgone; [done|].
  destruct (dget env name) as [v|] eqn:E; [|by left]. right.
  destruct (decide (name ∈ keys env)) as [?|Hni]; [done|]. apply dget_None in Hni. congruence.
Qed.

(** A worker is started in its execution directory with the service's environment
    except what controls the host service and the standalone launcher, and with
    the three variables of its own run. *)
Theorem worker_inherits_no_authority {W} `{ProcessWorld W} execution_path config_dir name :
  NoDup (keys (pw_environ (W := W))) ->
  dget (opencode_environment (W := W) execution_path config_dir) name =
    if (name =? "OPENCODE_CONFIG_CONTENT")%string
    then Some (dumps default_style (opencode_config execution_path))
    else if (name =? "OPENCODE_CONFIG_DIR")%string then Some (path_str config_dir)
    else if (name =? "PWD")%string then Some (path_str execution_path)
    else if host_controlled name then None else dget (pw_environ (W := W)) name.
Proof.
  intros Hn. unfold opencode_environment.
  destruct (String.eqb_spec name "OPENCODE_CONFIG_CONTENT") as [->|H1]; [by rewrite dget_dset_eq|].
  rewrite dget_dset_ne by congruence.
  destruct (String.eqb_spec name "OPENCODE_CONFIG_DIR") as [->|H2]; [by rewrite dget_dset_eq|].
  rewrite dget_dset_ne by congruence.
  destruct (String.eqb_spec name "PWD") as [->|H3]; [by rewrite dget_dset_eq|].
  rewrite dget_dset_ne by congruence. by apply worker_environment_spec.
Qed.

(** * Watching ends *)

Section Watch.
Context {W : Type} `{ProcessWorld W} (containment : option (Boundary W)).
Context (interruption_handler : option (string -> py W unit)).

(** A process with [life] left: a wait that times out uses some of it, asking for
    a stop request uses none. *)
Record mortal (life : W -> nat) : Prop := {
  mo_wait w w' : pw_wait WORKER_WAIT_INTERVAL w = (Ok None, w') -> life w' < life w;
  mo_stop w : life (pw_stop_kind w).2 <= life w
}.

Lemma watch_ends life : mortal life -> forall fuel pid group (s : process_log W) s',
  life (pl_world s) < fuel ->
  watch containment interruption_handler fuel pid group s <> (Ok None, s').
Proof.
  intros Hm fuel. induction fuel as [|fuel IH]; intros pid group s s' Hl; [lia|]. cbn [watch].
  run. unfold wait_for. rewrite recorded_run.
  destruct (pw_wait WORKER_WAIT_INTERVAL (pl_world s)) as [[[c|]|e] w] eqn:Ew; cbn [fst snd]; [done| |done].
  apply (mo_wait _ Hm) in Ew. run. unfold silently. rewrite recorded_run. cbn [pl_world].
  pose proof (mo_stop _ Hm w) as Hs. destruct (pw_stop_kind w) as [[kind|e] w2]; cbn [fst snd] in *; [|done].
  case_bool_decide.
  - run. destruct (interrupt _ _ _ _ _ _) as [[state|e] s2]; [|done]. run.
    by destruct (finish_interrupted _ _ s2) as [[c|e] s3].
  - apply IH. cbn. lia.
Qed.
End Watch.
