(* ===== verification/WorkerReplay.v ===== *)
(** A concrete host for the supervisor: a process that lives for some ticks and
    writes given bytes, a control group that empties after some ticks or cannot be
    killed.  The theorems about workers are applied to it, and two runs show what
    the code does when the reader of the events dies and when a termination fails. *)

From S2P Require Import WorkerIdentity WorkerDrain.

(** * The host *)

Record host : Type := mkHost {
  ho_tick : nat;
  ho_exits : nat;
  ho_empties : nat;
  ho_stops : option nat;
  ho_kills : bool;
  ho_io : streams
}.

Definition tick (h : host) : host :=
  mkHost (S (ho_tick h)) (ho_exits h) (ho_empties h) (ho_stops h) (ho_kills h) (ho_io h).

Definition service_group : Path := Path_of "/sys/fs/cgroup/service".
Definition probe_path : Path := path_child service_group ".devlegate-capability-probe".
Definition marker_path : Path := Path_of "/tmp/marker".

Definition host_text (h : host) (p : Path) : res string :=
  if bool_decide (p = Path_of "/proc/self/mountinfo")
  then Ok ("30 24 0:26 / /sys/fs/cgroup rw shared:4 - cgroup2 cgroup2 rw" +:+ LF)
  else if bool_decide (p = Path_of "/proc/self/cgroup") then Ok ("0::/service" +:+ LF)
  else if bool_decide (p = marker_path)
  then Ok ("0::/service/.devlegate-capability-probe" +:+ LF)
  else Ok ("populated " +:+ (if (ho_empties h <=? ho_tick h)%nat then "0" else "1") +:+ LF +:+ "frozen 0" +:+ LF).

#[export] Instance cgroup_host : CgroupWorld host := {
  cw_read_text p h := (host_text h p, h);
  cw_write_text p text h := (if ho_kills h then Ok tt else raise PyOSError "Device or resource busy", h);
  cw_mkdir p h := (Ok tt, h);
  cw_rmdir p h := (Ok tt, h);
  cw_kill pid sig h := (Ok tt, h);
  cw_popen l h := (Ok 41%Z, h);
  cw_run command h := (Ok (0%Z, ""), h);
  cw_is_dir p h := (Ok true, h);
  cw_is_file p h := (Ok true, h);
  cw_mkstemp prefix h := (Ok marker_path, h);
  cw_unlink p missing h := (Ok tt, h);
  cw_monotonic h := (Ok (Z.of_nat (ho_tick h) * 50)%Z, h);
  cw_sleep d h := (Ok tt, tick h);
  cw_launcher_interpreter := "/usr/bin/python3";
  cw_executable := "/usr/bin/python3";
  cw_linux := true;
  cw_configured := None;
  cw_resolve p := p
}.

Definition stat_text : string :=
  "41 (devlegate) worker) " +:+
  fields_text ["S"; "1"; "41"; "41"; "0"; "-1"; "4194560"; "100"; "0"; "0"; "0"; "3"; "1"; "0"; "0"; "20"; "0"; "1"; "0"; "8812"; "99"]
  +:+ LF.

Definition process_with (io : host -> streams) : ProcessWorld host := {|
  pw_linux := true;
  pw_popen l h := (Ok 41%Z, h);
  pw_poll h := (Ok (if (ho_exits h <=? ho_tick h)%nat then Some 0%Z else None), h);
  pw_wait timeout h := (Ok (if (ho_exits h <=? ho_tick h)%nat then Some 0%Z else None), tick h);
  pw_wait_exit h := (Ok 0%Z, tick h);
  pw_getpgid pid h := (Ok 41%Z, h);
  pw_getsid pid h := (Ok 41%Z, h);
  pw_killpg pgid sig h := (Ok tt, h);
  pw_boot_id h := (Ok ("9f6a-boot" +:+ LF), h);
  pw_stat pid h := (Ok stat_text, h);
  pw_stop_kind h := (Ok (match ho_stops h with
                         | Some n => if (n <=? ho_tick h)%nat then Some "operator_abort" else None
                         | None => None
                         end), h);
  pw_streams h := (Ok (io h), h);
  pw_encode_error := "surrogates not allowed";
  pw_environ := [("PATH", "/usr/bin"); ("NOTIFY_SOCKET", "/run/notify"); ("PEX_ROOT", "/pex"); ("PWD", "/")];
  pw_resolve p := p;
  pw_mkdtemp prefix h := (Ok (Path_of "/tmp/devlegate-opencode-1"), h);
  pw_mkdir p h := (Ok tt, h);
  pw_write_text p text h := (Ok tt, h);
  pw_rmtree p h := h;
  pw_open_log p h := (Ok tt, h)
|}.

#[export] Instance process_host : ProcessWorld host := process_with ho_io.

(** ** Streams *)

Definition JSON (v : pyval) : string := dumps compact_style v +:+ LF.

Definition report_event : pyval :=
  PDict [("type", PStr "tool_use");
         ("part", PDict [("type", PStr "tool"); ("tool", PStr "devlegate_report");
            ("state", PDict [("status", PStr "completed");
               ("input", PDict [("outcome", PStr "completed"); ("summary", PStr "done");
                                ("remaining", PList []); ("questions", PList [])])])])].

Definition text_event (text : string) : pyval :=
  PDict [("type", PStr "text"); ("part", PDict [("text", PStr text)])].

Definition whole_pipe : stdin_pipe := mkPipe (fun _ remaining => Written (Nat.min 5 (String.length remaining))) (fun _ => None).

Definition good_io : streams :=
  mkStreams (JSON (text_event ("working" +:+ bytes_of [27%N] +:+ "[2J")) +:+ JSON report_event) ("warn" +:+ bytes_of [7; 195]%N)
    [false; true; true] (Some whole_pipe) true.

(** A report, an event whose type is a list, and something that is no JSON. *)
Definition dead_io : streams :=
  mkStreams (JSON report_event +:+ JSON (PDict [("type", PList [])]) +:+ "no event" +:+ LF) "" [] (Some whole_pipe) true.

Definition workers : WorkerSupervisor := mkWorkers "opencode" "model" "" None true.
Definition workspace : ExecutionWorkspace :=
  mkWorkspace "t-1" "devlegate/work/t-1" (Path_of "/work/t-1") "aa" "bb" false.

Definition printable_ascii (c : string) : bool := (32 <=? decode_char c)%N && (decode_char c <=? 126)%N.
Definition never_fails (o : output) (text : string) : option string := None.
Definition alnum (c : string) : bool := all_bytes is_alnum c.

Definition saved (w : WorkerProcessIdentity) : py host unit := fun h => (Ok tt, h).
Definition told_engine (kind : string) : py host unit := fun h => (Ok tt, h).

Definition fresh (h : host) : supervised host := mkSupervised false [] (mkLog h []).

Definition run_on (h : host) : res (option WorkerRunResult) * supervised host :=
  run workers (cgroup_provider alnum) printable_ascii never_fails (fun _ => true) "tool" 60 workspace "do it"
    "e1" true (Some saved) (Some told_engine) (fresh h).

Definition good_host : host := mkHost 0 3 5 None true good_io.
Definition aborted_host : host := mkHost 0 40 4 (Some 2) true good_io.
Definition stuck_host : host := mkHost 0 3 9999 (Some 1) false good_io.
Definition dead_host : host := mkHost 0 3 5 None true dead_io.

Definition result_of (h : host) : option WorkerRunResult :=
  match (run_on h).1 with Ok r => r | Raise _ => None end.
Definition actions_of (h : host) : list action := pl_actions (sv_log (run_on h).2).

Example good_run_accepted : exists r, (run_on good_host).1 = Ok (Some r) /\ transport_ok r = true /\
  egress_ok r = true /\ run_process_started r = true /\ run_worker_group_retired r = true.
Proof. eexists. split; [vm_compute; reflexivity|]. vm_compute. repeat split. Qed.

(** * What a dead reader and a failing termination make of a run *)

(** The reader of the events dies when the type of an event is not hashable. *)
Lemma dead_reader : (consume_stdout (Some consume) (sr_stdout dead_io) (new_reader new_parser)).1 =
  Raise (Exn PyTypeError "unhashable type").
Proof. vm_compute. reflexivity. Qed.

(** What an action list shows, as a computation. *)
Definition observes_nothing (a : action) : bool :=
  match a with ReadEvents _ _ | Waited true => false | _ => true end.
Definition is_spawn (a : action) : bool := match a with Spawned _ => true | _ => false end.
Definition is_abort (a : action) : bool :=
  match a with Interrupted kind => (kind =? "operator_abort")%string | _ => false end.

Lemma stuck_actions : forallb observes_nothing (actions_of stuck_host) &&
  existsb is_spawn (actions_of stuck_host) && existsb is_abort (actions_of stuck_host) = true.
Proof. vm_compute. reflexivity. Qed.

Lemma dead_lines : lf_lines (sr_stdout dead_io) !! 2 = Some ("no event" +:+ LF).
Proof. vm_compute. reflexivity. Qed.

Lemma no_event : decode_line ("no event" +:+ LF) = None.
Proof. vm_compute. reflexivity. Qed.

(** When the reading thread dies of an event whose type is a list, the rest of the
    stream is not read and the run is still accepted: the result has no transport
    error and an accepted report, though a later line is no event at all. *)
Theorem dead_reader_is_accepted : exists r, (run_on dead_host).1 = Ok (Some r) /\
  transport_ok r = true /\ egress_ok r = true /\
  ~ (exists events, Forall2 event_line (lf_lines (sr_stdout dead_io)) events).
Proof.
  eexists. split; [vm_compute; reflexivity|]. split; [vm_compute; reflexivity|].
  split; [vm_compute; reflexivity|]. pose proof dead_lines as E. revert E.
  generalize (lf_lines (sr_stdout dead_io)). intros lines E (events & He).
  destruct (Forall2_lookup_l _ _ _ _ _ He E) as (event & _ & (_ & Hl & _)). rewrite no_event in Hl. discriminate Hl.
Qed.

(** When the forced termination of an aborted worker fails, the run reports a
    worker that was never started and a boundary that is retired, although the
    worker was started and interrupted, was never seen to exit, and its boundary
    was never seen empty. *)
Theorem failed_termination_is_reported_retired : exists r, (run_on stuck_host).1 = Ok (Some r) /\
  run_process_started r = false /\ run_worker_group_retired r = true /\ run_interruption_kind r = None /\
  (exists l, Spawned l ∈ actions_of stuck_host) /\ Interrupted "operator_abort" ∈ actions_of stuck_host /\
  Waited true ∉ actions_of stuck_host /\
  forall path, Forall (fun a => ~ empty_seen path a) (actions_of stuck_host).
Proof.
  eexists. split; [vm_compute; reflexivity|]. do 3 (split; [vm_compute; reflexivity|]).
  pose proof stuck_actions as Hs. revert Hs. generalize (actions_of stuck_host). intros acts Hs.
  apply andb_true_iff in Hs as [Hs Hi]. apply andb_true_iff in Hs as [Ho Hp].
  apply existsb_exists in Hp as (sp & Hsp & Hp). apply existsb_exists in Hi as (ab & Hab & Hi).
  rewrite forallb_forall in Ho. split_and!.
  - destruct sp; try discriminate Hp. eexists. by apply list_elem_of_In.
  - destruct ab; try discriminate Hi. apply String.eqb_eq in Hi as ->. by apply list_elem_of_In.
  - intros Hw. apply list_elem_of_In, Ho in Hw. discriminate Hw.
  - intros path. apply Forall_forall. intros a Ha (text & -> & _). apply list_elem_of_In, Ho in Ha. discriminate Ha.
Qed.

(** * The theorems about workers apply *)

Lemma printable_ascii_table : printable_table printable_ascii.
Proof.
  intros n Hn. unfold printable_ascii. rewrite decode_encode_any by done. intros H. bsplit.
  rewrite N.leb_le in *. split; [left; lia|]. unfold is_control.
  apply orb_false_iff. rewrite andb_false_iff, !N.ltb_ge, N.leb_gt. split; [lia|left; lia].
Qed.

Lemma operator_sees_inert_text_witness : shown_inert
  (jn_output (join_threads (Some consume) new_parser
     (mkSinks printable_ascii (Some never_fails) (fun _ => true) true) "" "do it" good_io)).
Proof. apply (operator_sees_inert_text (Some consume) new_parser). exact printable_ascii_table. Defined.

Definition some_result (h : host) : WorkerRunResult :=
  default (mkRun 0 None None None None false false) (result_of h).

Lemma retired_worker_left_nothing_witness : exists group config text acts,
  let cwd := ew_path workspace in
  actions_of good_host = [] ++ acts /\
  run_actions (W := host) group config (opencode_command workers cwd) cwd
    (opencode_environment (W := host) cwd config) text acts /\
  execution_group alnum "e1" group /\ parse_populated text = Ok false.
Proof.
  edestruct (retired_worker_left_nothing workers alnum printable_ascii never_fails (fun _ => true) "tool" 60 workspace
    "do it" "e1" true (Some saved) (Some told_engine) (fresh good_host) (some_result good_host) (run_on good_host).2)
    as (group & config & text & acts & Ha & Hr & Hg & Ht); [vm_compute; reflexivity..|].
  exists group, config, text, acts. split; [exact Ha|]. split; [exact Hr|]. split; [exact Hg|exact Ht].
Defined.

(** An operator aborts: the group is signalled and the engine is told. *)
Lemma interruption_is_told_once_witness : exists kind acts,
  let out := _run_opencode (Some (boundary (mkContainment service_group true))) (Some consume) (Some saved)
    (Some told_engine) (Some "e1") true (worker_sinks workers printable_ascii never_fails (fun _ => true)) 60
    new_parser "do it" (mkLaunch ["opencode"] service_group []) (mkLog aborted_host []) in
  pl_actions out.2 = [] ++ acts /\ told kind acts /\
  forall r h', out.1 = Ok (Some (r, h')) -> oc_interruption_kind r = kind.
Proof.
  apply (interruption_is_told_once (boundary (mkContainment service_group true)) (Some consume) (Some saved)
    told_engine (Some "e1") true (worker_sinks workers printable_ascii never_fails (fun _ => true)) 60 new_parser
    "do it" (mkLaunch ["opencode"] service_group []) (mkLog aborted_host [])).
  apply cgroup_adds. intros a Ha. split; intros ? ->; exact Ha.
Defined.

Lemma start_time_survives_name_witness : start_time_of stat_text = Ok 8812%Z.
Proof.
  apply (start_time_survives_name "41 " "devlegate) worker"
    ["S"; "1"; "41"; "41"; "0"; "-1"; "4194560"; "100"; "0"; "0"; "0"; "3"; "1"; "0"; "0"; "20"; "0"; "1"; "0"; "8812"; "99"] 8812).
  - repeat (constructor; [split; [done|split; [reflexivity|split; [reflexivity|
      repeat (constructor; [reflexivity|]); constructor]]]|]). constructor.
  - reflexivity.
Defined.

Lemma host_shows : shows (W := host) 41 ("9f6a-boot" +:+ LF) stat_text 41 41 8812.
Proof. constructor; reflexivity. Qed.

Definition worker_41 (start : Z) : WorkerProcessIdentity :=
  mkWorkerIdentity "e1" 41 41 41 "9f6a-boot" start None.

Lemma captured_identity_is_recognised_witness :
  ((observe_worker_identity (worker_41 8812) (mkLog good_host [])).1 = Ok "matching-live" <->
     wi_boot_id (worker_41 8812) = wi_boot_id (worker_41 8812) /\
     wi_start_time (worker_41 8812) = wi_start_time (worker_41 8812) /\
     wi_pgid (worker_41 8812) = wi_pgid (worker_41 8812) /\ wi_sid (worker_41 8812) = wi_sid (worker_41 8812)) /\
  ((observe_worker_identity (worker_41 8812) (mkLog good_host [])).1 = Ok "absent" <->
     wi_boot_id (worker_41 8812) <> wi_boot_id (worker_41 8812) \/
     wi_start_time (worker_41 8812) <> wi_start_time (worker_41 8812)).
Proof.
  apply (captured_identity_is_recognised 41 ("9f6a-boot" +:+ LF) stat_text 41 41 8812 "e1" None
    (mkLog good_host []) (worker_41 8812) (mkLog good_host [Polled true])).
  - exact host_shows.
  - vm_compute. reflexivity.
  - reflexivity.
Defined.

Lemma drained_supervisor_admits_nothing_witness :
  let '(answers, s1) := perform_all [Enter "e1"; Enter "e2"; Leave "e1"] (fresh good_host) in
  let '(answers', s2) := perform_all [Drain; Enter "e3"; Leave "e2"] s1 in
  sv_draining s1 = false /\ drained answers = 0 /\ drained answers' = 1 /\ sv_draining s2 = true /\
  admitted answers' = [] /\ incl (sv_active s2) (sv_active s1).
Proof.
  apply (drained_supervisor_admits_nothing [Enter "e1"; Enter "e2"; Leave "e1"] [Enter "e3"; Leave "e2"] (fresh good_host)).
  - reflexivity.
  - intros Hin. repeat (destruct Hin as [Hin|Hin]; [discriminate Hin|]). exact Hin.
Defined.

Lemma rejected_run_leaves_config_witness : exists s',
  run workers (cgroup_provider alnum) printable_ascii never_fails (fun _ => true) "tool" 60 workspace "do it"
    "e1" true (Some saved) (Some told_engine) (mkSupervised true [] (mkLog good_host [])) =
    (Raise (Exn WorkerAdmissionClosed "worker admission is closed"), s') /\
  sv_active s' = [] /\ sv_draining s' = true /\
  pl_actions (sv_log s') = [] ++ [MadeTree (Path_of "/tmp/devlegate-opencode-1")].
Proof.
  apply (rejected_run_leaves_config workers (cgroup_provider alnum) printable_ascii never_fails (fun _ => true) "tool"
    60 workspace "do it" "e1" true (Some saved) (Some told_engine) (mkSupervised true [] (mkLog good_host []))
    (Path_of "/tmp/devlegate-opencode-1") (mkLog good_host [MadeTree (Path_of "/tmp/devlegate-opencode-1")]));
    vm_compute; reflexivity.
Defined.

Lemma worker_inherits_no_authority_witness :
  dget (opencode_environment (W := host) (Path_of "/work") (Path_of "/tmp/c")) "PEX_ROOT" = None.
Proof.
  rewrite (worker_inherits_no_authority (Path_of "/work") (Path_of "/tmp/c") "PEX_ROOT"); [reflexivity|].
  apply (bool_decide_unpack _). vm_compute. exact I.
Defined.

(** A host whose process always writes the good streams. *)
Definition good_process : ProcessWorld host := process_with (fun _ => good_io).

