(* ===== verification/ControlInit.v ===== *)
(** The creation of the control plane, [ServiceEngine.control_init_result] of
    [src/devlegate/runtime.py]: an existing control branch of the remote is attached
    in a worktree, a missing one is made with its workflow directories and
    published.  What it may run, when it publishes, and what it leaves behind when
    it is interrupted. *)

From S2P Require Export History.

Section ControlInit.
Context {W : Type} `{GitWorld W}.
Variable c : settings.

Abbreviation M := (py (logged W)).

Definition refuse_init {A} (msg : string) : M A := py_raise DevlegateError msg.

(** [{branch!r}] *)
Definition branch_repr : string := repr_str (st_control_branch c).
Definition control_ref : string := "refs/heads/" +:+ st_control_branch c.
Definition remote_control : string := st_remote_name c +:+ "/" +:+ st_control_branch c.

Definition _control_remote_exists : M bool :=
  observed ← _git (st_repo c) ["ls-remote"; "--heads"; st_remote_name c; control_ref];
  if failed observed
  then refuse_init ("cannot observe control branch " +:+ branch_repr +:+ " on remote " +:+
                    st_remote_name c +:+ ": " +:+ stderr_or observed "remote could not be observed")
  else mret (negb (strip (stdout observed) =? "")%string).

(** [self.control_worktree.exists() or self.control_worktree.is_symlink()] *)
Definition control_occupied : M bool :=
  ask (fun w => gw_exists w (st_control_worktree c) || gw_is_symlink w (st_control_worktree c)).

(** [local_head != remote_head and not ancestor(local_head, remote_head)] *)
Definition diverged (dir : Path) (local_head remote_head : string) : M bool :=
  if (local_head =? remote_head)%string then mret false
  else ancestor ← _git dir ["merge-base"; "--is-ancestor"; local_head; remote_head];
       mret (failed ancestor).

(** The head of the control branch as it was fetched. *)
Definition fetch_existing_control : M string :=
  fetch ← _git (st_repo c) ["fetch"; st_remote_name c; st_control_branch c];
  if failed fetch
  then refuse_init ("cannot fetch existing control branch " +:+ branch_repr +:+ ": " +:+ strip (stderr fetch))
  else
  remote ← _git (st_repo c) ["rev-parse"; "--verify"; remote_control];
  if failed remote
  then refuse_init ("configured control branch " +:+ branch_repr +:+ " is unavailable on remote " +:+
                    st_remote_name c)
  else mret (strip (stdout remote)).

Definition check_control_directories (t : tree) : res unit :=
  _ ← res_map (fun state =>
        ensure (path_is_dir t (below (st_paths c state))) DevlegateError
          ("managed workflow directory is unavailable: " +:+
           path_str (path_join (st_control_worktree c) (Path_of (st_paths c state))) +:+
           " (" +:+ state_name state +:+ ")")) _WORKFLOW_STATES;
  Ok tt.

Definition init_result (result : string) : dict :=
  [("result", PStr result); ("control_worktree", PStr (path_str (st_control_worktree c)))].

(** There is something at the control path: it must be the worktree wanted. *)
Definition accept_attached (remote_head : string) : M dict :=
  registered ← _git_check (st_repo c) ["worktree"; "list"; "--porcelain"];
  entries ← ask (fun w => catch (_parse_worktree_porcelain (gw_resolve w) (stdout registered))
                            is_workspace_error (fun e => raise DevlegateError (exn_msg e)));
  entries ← py_lift entries;
  expected ← ask (fun w => gw_resolve w (st_control_worktree c));
  if negb (existsb (fun e => bool_decide (fst e = expected)) entries)
  then refuse_init "existing control path is not a registered Git worktree"
  else
  root ← _git (st_control_worktree c) ["rev-parse"; "--git-common-dir"];
  branch ← _git (st_control_worktree c) ["symbolic-ref"; "--quiet"; "--short"; "HEAD"];
  expected_git ← _git_check (st_repo c) ["rev-parse"; "--git-common-dir"];
  same ← ask (fun w => bool_decide (gw_resolve w (Path_of (strip (stdout root))) =
                                    gw_resolve w (Path_of (strip (stdout expected_git)))));
  if failed root || negb same
  then refuse_init "existing control worktree belongs to another repository"
  else if failed branch || negb (strip (stdout branch) =? st_control_branch c)%string
  then refuse_init "existing control worktree is on the wrong branch"
  else
  t ← ask gw_files;
  _ ← py_lift (check_control_directories t);
  local_head ← _git_check (st_control_worktree c) ["rev-parse"; "HEAD"];
  apart ← diverged (st_control_worktree c) (strip (stdout local_head)) remote_head;
  if (apart : bool)
  then refuse_init "existing control worktree is not compatible with the remote control branch"
  else mret (init_result "already_attached").

(** [path.parent] *)
Definition control_parent : Path :=
  mkPath (p_root (st_control_worktree c)) (removelast (p_names (st_control_worktree c))).

Definition show_control_branch : M CompletedProcess :=
  _git (st_repo c) ["show-ref"; "--verify"; control_ref].

Definition attach_arguments (absent : bool) : list string :=
  ["worktree"; "add"] ++
  (if absent then ["--track"; "-b"; st_control_branch c; path_str (st_control_worktree c); remote_control]
   else [path_str (st_control_worktree c); st_control_branch c]).

(** There is nothing at the control path: the worktree is made. *)
Definition attach_worktree (remote_head : string) : M dict :=
  _ ← make_directory control_parent;
  local_branch ← show_control_branch;
  apart ← (if failed local_branch then mret false
           else local_head ← _git_check (st_repo c) ["rev-parse"; st_control_branch c];
                diverged (st_repo c) (strip (stdout local_head)) remote_head);
  if (apart : bool)
  then refuse_init "local control branch diverges from the remote control branch"
  else
  created ← _git (st_repo c) (attach_arguments (failed local_branch));
  if failed created
  then refuse_init ("cannot attach control worktree: " +:+ strip (stderr created))
  else mret (init_result "attached_existing_remote").

Definition _attach_existing_control : M dict :=
  remote_head ← fetch_existing_control;
  occupied ← control_occupied;
  if (occupied : bool) then accept_attached remote_head else attach_worktree remote_head.

(** [path.touch()]: a dangling link gets its target. *)
Definition touch (p : path) : io unit :=
  present ← io_tree (fun t => (path_exists t p, t !! p));
  match present with
  | (true, _) => mret tt
  | (false, Some _) => io_set p (Some (Link (Some (File ""))))
  | (false, None) => _ ← need_parent p; io_set p (Some (File ""))
  end.

Definition make_workflow_directory (state : WorkflowState) : io unit :=
  let directory := below (st_paths c state) in
  _ ← mkdir directory; touch (directory ++ [".gitkeep"]).

(** [result.returncode] or the message of the step *)
Definition step_of (dir : Path) (args : list string) (problem : string) : M unit :=
  p ← _git dir args;
  if failed p then refuse_init (problem +:+ ": " +:+ strip (stderr p)) else mret tt.

(** The first commit of the control branch, and its publication. *)
Definition publish_control : M unit :=
  _ ← py_each (fun state => in_control (make_workflow_directory state)) _WORKFLOW_STATES;
  _ ← step_of (st_control_worktree c) ["add"; "--all"] "cannot stage initial control state";
  _ ← step_of (st_control_worktree c) ["commit"; "-m"; "Initialize Devlegate control plane"]
        "cannot commit initial control state";
  _ ← step_of (st_control_worktree c) ["push"; st_remote_name c; "HEAD:" +:+ control_ref]
        "cannot publish initial control branch";
  step_of (st_repo c) ["fetch"; st_remote_name c; st_control_branch c]
    "cannot refresh published control branch".

Definition _bootstrap_control : M dict :=
  occupied ← control_occupied;
  if (occupied : bool)
  then refuse_init ("expected control worktree path already exists: " +:+ path_str (st_control_worktree c))
  else
  local_branch ← show_control_branch;
  if negb (failed local_branch)
  then refuse_init ("local control branch " +:+ branch_repr +:+ " exists while the remote branch is absent")
  else
  _ ← make_directory control_parent;
  _ ← step_of (st_repo c) ["worktree"; "add"; "--orphan"; "-b"; st_control_branch c;
                           path_str (st_control_worktree c)] "cannot create fresh control worktree";
  _ ← publish_control;
  mret (init_result "initialized_new_control_plane").

Definition control_init_result : M dict :=
  present ← _control_remote_exists;
  if (present : bool) then _attach_existing_control else _bootstrap_control.
End ControlInit.

(** * What an initialization may do *)

Section Commands.
Context {W : Type} `{GitWorld W}.
Variable c : settings.

(** To attach: nothing that changes a branch that exists, nothing that is
    published. *)
Definition attaches (e : event) : Prop :=
  observes e \/ e = Run (st_repo c) ["fetch"; st_remote_name c; st_control_branch c] \/
  e = Mkdir (control_parent c) \/
  exists absent, e = Run (st_repo c) (attach_arguments c absent).

(** To make a new one. *)
Definition bootstraps (e : event) : Prop :=
  observes e \/ e = Run (st_repo c) ["fetch"; st_remote_name c; st_control_branch c] \/
  e = Mkdir (control_parent c) \/ (exists t, e = Edit t) \/
  e = Run (st_repo c) ["worktree"; "add"; "--orphan"; "-b"; st_control_branch c; path_str (st_control_worktree c)] \/
  e = Run (st_control_worktree c) ["add"; "--all"] \/
  e = Run (st_control_worktree c) ["commit"; "-m"; "Initialize Devlegate control plane"] \/
  e = Run (st_control_worktree c) ["push"; st_remote_name c; "HEAD:" +:+ control_ref c].

Local Hint Extern 1 (observes (Run _ _)) => reflexivity : commands.
Local Hint Extern 1 (attaches _) => unfold attaches; cbn; tauto : commands.
Local Hint Extern 2 (attaches (Run _ (attach_arguments _ _))) => do 3 right; eexists; reflexivity : commands.
Local Hint Extern 2 (bootstraps (Edit _)) => do 3 right; left; eexists; reflexivity : commands.
Local Hint Extern 1 (bootstraps _) => unfold bootstraps; cbn; tauto : commands.

Lemma only_diverged (P : event -> Prop) dir a b : (forall e, observes e -> P e) -> only P (diverged (W := W) dir a b).
Proof. intros HP. unfold diverged. only_auto. Qed.

Lemma attach_commands : only attaches (_attach_existing_control (W := W) c).
Proof.
  assert (forall dir a b, only attaches (diverged (W := W) dir a b)) as Hd.
  { intros. apply only_diverged. intros e. by left. }
  unfold _attach_existing_control, fetch_existing_control, control_occupied, accept_attached, attach_worktree,
    show_control_branch, refuse_init.
  only_auto; apply Hd.
Qed.

Lemma bootstrap_commands : only bootstraps (_bootstrap_control (W := W) c).
Proof.
  assert (forall dir args problem, bootstraps (Run dir args) -> only bootstraps (step_of (W := W) dir args problem)) as Hs.
  { intros. unfold step_of, refuse_init. only_auto. }
  unfold _bootstrap_control, publish_control, control_occupied, show_control_branch, refuse_init.
  only_auto; first [apply Hs | apply only_edit; intros ?]; auto with commands.
Qed.
End Commands.

(** * What an initialization does *)

Section InitSafety.
Context {W : Type} `{GitWorld W}.
Variable c : settings.

Definition observe_arguments : list string := ["ls-remote"; "--heads"; st_remote_name c; control_ref c].

(** What may follow, given what the remote answers about the control branch. *)
Definition init_events (answer : res CompletedProcess) (events : list event) : Prop :=
  match answer with
  | Ok p =>
      if failed p then events = []
      else if (strip (stdout p) =? "")%string then Forall (bootstraps c) events
      else Forall (attaches c) events
  | Raise _ => events = []
  end.

(** Nothing happens before the remote was asked for the control branch, nothing
    at all when it cannot be observed; where it has the branch it is only attached,
    without a commit or a push and without changing a branch that exists; only where
    it has none a first commit is made and pushed, without force. *)
Theorem init_publishes_only_fresh (s : logged W) :
  exists events, lg_events (control_init_result c s).2 =
    lg_events s ++ Run (st_repo c) observe_arguments :: events /\
  init_events (gw_run (st_repo c) observe_arguments (lg_world s)).1 events.
Proof.
  unfold control_init_result, _control_remote_exists, refuse_init. rewrite !py_bind_run. unfold _git at 1. fold observe_arguments.
  destruct (gw_run (st_repo c) observe_arguments (lg_world s)) as [[p|e] w]; cbn [fst snd init_events].
  2: { exists []. done. }
  destruct (failed p); cbn [py_raise fst snd]; [by exists []|].
  cbn [mret py_ret]. destruct (String.eqb_spec (strip (stdout p)) "") as [E|E]; cbn [negb].
  - destruct (proj1 (bootstrap_commands c (mkLogged w (lg_events s ++ [Run (st_repo c) observe_arguments]))))
      as (new & Hl & Hf). exists new. split; [|done]. rewrite Hl. cbn. by rewrite <- app_assoc.
  - destruct (proj1 (attach_commands c (mkLogged w (lg_events s ++ [Run (st_repo c) observe_arguments]))))
      as (new & Hl & Hf). exists new. split; [|done]. rewrite Hl. cbn. by rewrite <- app_assoc.
Qed.

(** What is left of an interrupted creation blocks every later one. *)
Lemma leftover_blocks (s : logged W) p w :
  gw_run (st_repo c) observe_arguments (lg_world s) = (Ok p, w) -> failed p = false -> strip (stdout p) = "" ->
  gw_exists w (st_control_worktree c) = true ->
  control_init_result c s =
    (raise DevlegateError ("expected control worktree path already exists: " +:+ path_str (st_control_worktree c)),
     mkLogged w (lg_events s ++ [Run (st_repo c) observe_arguments])).
Proof.
  intros Hr Hf Hs He. unfold control_init_result, _control_remote_exists. rewrite !py_bind_run. unfold _git at 1.
  fold observe_arguments. rewrite Hr, Hf. cbn [mret py_ret]. rewrite Hs. cbn [String.eqb negb].
  unfold _bootstrap_control, control_occupied. run. unfold ask. cbn [lg_world fst]. by rewrite He.
Qed.
End InitSafety.

(** * A concrete host *)

Record plane : Type := mkPlane {
  pl_remote : bool;      (** the remote has the control branch *)
  pl_attached : bool;
  pl_local : bool;
  pl_pushes : bool;
  pl_directory : Path;      (** the working directory of the process *)
  pl_tree : tree
}.

Definition plane_head : string := "1111111111111111111111111111111111111111".

Definition listing : string :=
  "worktree /repo" +:+ LF +:+ "HEAD " +:+ plane_head +:+ LF +:+ "branch refs/heads/main" +:+ LF +:+ LF +:+
  "worktree /control" +:+ LF +:+ "HEAD " +:+ plane_head +:+ LF +:+ "branch refs/heads/control" +:+ LF +:+ LF.

Definition spoke (text : string) : CompletedProcess := mkProc 0 (text +:+ LF) "".
Definition silent : CompletedProcess := mkProc 0 "" "".
Definition denied : CompletedProcess := mkProc 1 "" "denied".

Definition plane_run (dir : Path) (args : list string) (h : plane) : CompletedProcess * plane :=
  let at_control := bool_decide (dir = Path_of "/control") in
  match args with
  | "ls-remote" :: _ => (if pl_remote h then spoke (plane_head +:+ " refs/heads/control") else silent, h)
  | "show-ref" :: _ => (if pl_local h then spoke plane_head else denied, h)
  | ["worktree"; "list"; _] => (mkProc 0 listing "", h)
  | "worktree" :: "add" :: _ =>
      (silent, mkPlane (pl_remote h) true (pl_local h) (pl_pushes h) (pl_directory h) (pl_tree h))
  | "commit" :: _ =>
      (silent, mkPlane (pl_remote h) (pl_attached h) true (pl_pushes h) (pl_directory h) (pl_tree h))
  | "push" :: _ =>
      if pl_pushes h
      then (silent, mkPlane true (pl_attached h) (pl_local h) true (pl_directory h) (pl_tree h))
      else (denied, h)
  | ["rev-parse"; "--git-common-dir"] => (spoke (if at_control then "/repo/.git" else ".git"), h)
  | "rev-parse" :: _ => (spoke plane_head, h)
  | "symbolic-ref" :: _ => (spoke (if at_control then "control" else "main"), h)
  | _ => (silent, h)
  end.

#[export] Instance plane_world : GitWorld plane := {
  gw_run dir args h := let '(p, h) := plane_run dir args h in (Ok p, h);
  gw_run_input dir args text h := (Ok silent, h);
  gw_mkdir p h := (Ok tt, h);
  gw_files := pl_tree;
  gw_edit t h := mkPlane (pl_remote h) (pl_attached h) (pl_local h) (pl_pushes h) (pl_directory h) t;
  gw_cwd := pl_directory;
  gw_resolve h p := path_join (pl_directory h) p;
  gw_is_symlink h p := false;
  gw_is_dir h p := true;
  gw_exists h p := bool_decide (p = Path_of "/control") && pl_attached h;
  gw_has_entries h p := true
}.

Definition plane_settings : settings :=
  mkSettings (Path_of "/repo") (Path_of "/control") (Path_of "/x") "origin" "main" "control"
    (Some "main") (fun state => "kanban/" +:+ state_name state) 5.

Definition init_on (h : plane) : res dict * plane :=
  let '(r, s) := control_init_result plane_settings (mkLogged h []) in (r, lg_world s).

Definition empty_tree : tree := {[ [] := Dir ]}.
Definition fresh_plane : plane := mkPlane false false false true (Path_of "/repo") empty_tree.

Definition outcome_of (r : res dict) : res pyval :=
  match r with Ok d => Ok (get d "result") | Raise e => Raise e end.

(** A fresh project gets a control plane, and a second call attaches it. *)
Example fresh_then_attached :
  outcome_of (init_on fresh_plane).1 = Ok (PStr "initialized_new_control_plane") /\
  outcome_of (init_on (init_on fresh_plane).2).1 = Ok (PStr "already_attached").
Proof. split; vm_compute; reflexivity. Qed.

(** When the push of the first control commit is refused, the command fails and
    leaves the worktree behind; from then on it fails before it does anything, even
    when pushes are accepted again. *)
Theorem refused_first_push_blocks :
  let refusing := mkPlane false false false false (Path_of "/repo") empty_tree in
  let after := (init_on refusing).2 in
  let again := mkPlane (pl_remote after) (pl_attached after) (pl_local after) true (pl_directory after) (pl_tree after) in
  outcome_of (init_on refusing).1 = raise DevlegateError "cannot publish initial control branch: denied" /\
  init_on again = (raise DevlegateError "expected control worktree path already exists: /control", again).
Proof. split; vm_compute; reflexivity. Qed.

(** The same attached control worktree is accepted or refused depending on the
    directory the command is called in, because Git's relative answer about the
    repository is resolved against that directory. *)
Theorem attached_control_depends_on_directory :
  let attached := fun cwd => mkPlane true true true true cwd (pl_tree (init_on fresh_plane).2) in
  outcome_of (init_on (attached (Path_of "/repo"))).1 = Ok (PStr "already_attached") /\
  outcome_of (init_on (attached (Path_of "/home"))).1 =
    raise DevlegateError "existing control worktree belongs to another repository".
Proof. split; vm_compute; reflexivity. Qed.
