(* ===== verification/RuntimeLocator.v ===== *)
(** The identity of a project's runtime, [src/devlegate/runtime_locator.py]: the
    configuration file, the paths a project's state lives at, and the observation of
    the lock that the service holds.  Resolution of links, the home directory and
    the environment are arguments. *)

From S2P Require Export Workspace Sha256 Json.

(** * The configuration file *)

(** Quotes around a value are removed. *)
Definition unquote (value : string) : string :=
  match utf8_chars value with
  | first :: rest =>
      match rev rest with
      | last :: middle =>
          if (first =? last)%string && existsb (String.eqb first) [DQ; SQ] then of_chars (rev middle) else value
      | [] => value
      end
  | [] => value
  end.

Section Env.
(** [str.isalnum()] of a character *)
Variable isalnum : string -> bool.

(** [name.replace("_", "a").isalnum()] *)
Definition env_name (name : string) : bool :=
  negb (name =? "")%string && forallb (fun ch => isalnum (if (ch =? "_")%string then "a" else ch)) (utf8_chars name).

Definition EQUALS : Ascii.ascii := Ascii.ascii_of_N 61.

Definition env_line (values : list (string * string)) (line : string) : list (string * string) :=
  let line := strip line in
  if (line =? "")%string || starts_with "#" line then values
  else
  let line := if starts_with "export " line
              then lstrip (String.substring 7 (String.length line) line) else line in
  match partition EQUALS line with
  | (name, Some value) =>
      if env_name (strip name) then dset values (strip name) (unquote (strip value)) else values
  | (_, None) => values
  end.

Definition parse_env (text : string) : list (string * string) := foldl env_line [] (splitlines text).

(** [path.read_text()] is [text]. *)
Definition read_env (path : Path) (text : res string) : res (list (string * string)) :=
  text ← catch text is_os_error
           (fun e => raise RuntimeLocatorError ("cannot read configuration file: " +:+ path_str path +:+
                                                ": " +:+ exn_msg e));
  Ok (parse_env text).
End Env.

(** * The locator *)

Record RuntimeLocator : Type := mkLocator {
  lo_repo : Path;
  lo_state_dir : Path;
  lo_state_key : string;
  lo_socket_key_length : nat
}.

Section Paths.
Variable self : RuntimeLocator.

Definition lock_path : Path :=
  path_child (path_child (lo_state_dir self) "locks") (lo_state_key self +:+ ".lock").

(** The directory of sockets where the usual one makes too long a path. *)
Definition socket_fallback (uid : Z) : Path :=
  path_child (Path_of "/tmp")
    (".devlegate-sockets-" +:+ str_of_Z uid +:+ "-" +:+
     String.substring 0 8 (sha256_hex (path_str (lo_state_dir self)))).

Definition socket_path (uid : Z) : Path :=
  let socket_key := String.substring 0 (lo_socket_key_length self) (lo_state_key self) in
  let path := path_child (path_child (lo_state_dir self) "sockets") (socket_key +:+ ".sock") in
  if (String.length (path_str path) <=? 107)%nat then path
  else path_child (socket_fallback uid) (socket_key +:+ ".sock").

Definition log_dir : Path := path_child (path_child (lo_state_dir self) "logs") (lo_state_key self).
Definition service_log_path : Path := path_child log_dir "service.log".
Definition execution_log_dir : Path := path_child log_dir "executions".
End Paths.

Section Locate.
Variable resolve expanduser : Path -> Path.
Variable home : Path.
Variable environ : list (string * string).

(** [RuntimeLocator.from_config] *)
Definition from_config (repo : Path) (config : list (string * string)) : RuntimeLocator :=
  let repo := resolve repo in
  let state_default :=
    path_child (Path_of (default (path_str (path_child home ".local/state")) (dget environ "XDG_STATE_HOME")))
      "devlegate" in
  let configured :=
    expanduser (Path_of (default (default (path_str state_default) (dget environ "STATE_DIR"))
                           (dget config "STATE_DIR"))) in
  let state_dir := resolve (if is_absolute configured then configured else path_join repo configured) in
  mkLocator repo state_dir (sha256_hex (path_str repo)) 32.

(** [repository_root(cwd)]: what [git rev-parse --show-toplevel] answers in it. *)
Definition repository_root (directory : Path) (toplevel : Path -> CompletedProcess) : res Path :=
  let directory := resolve directory in
  let result := toplevel directory in
  if failed result
  then raise RuntimeLocatorError ("current directory is not a git repository: " +:+ path_str directory)
  else Ok (resolve (Path_of (strip (stdout result)))).

(** [path.parent] *)
Definition path_parent (p : Path) : Path := mkPath (p_root p) (removelast (p_names p)).

(** [RuntimeLocator.from_env]; the file is read when it is one. *)
Definition from_env (isalnum : string -> bool) (env_file : Path) (text : option (res string))
    (repository : option Path) (toplevel : Path -> CompletedProcess) : res RuntimeLocator :=
  match text with
  | None =>
      raise RuntimeLocatorError ("configuration file not found: " +:+ path_str env_file +:+
                                 " (copy devlegate's .env.example to $PWD/.env)")
  | Some text =>
      repo ← match repository with
             | Some repo => Ok repo
             | None => repository_root (path_parent env_file) toplevel
             end;
      config ← read_env isalnum env_file text;
      Ok (from_config (resolve repo) config)
  end.
End Locate.

(** * The lock of the service *)

(** What the file lock answers: the directory and the file of the lock, and a
    shared lock that is asked for without waiting. *)
Class LockWorld (W : Type) : Type := {
  lk_mkdir : Path -> py W unit;
  lk_open : Path -> py W unit;
  (** [false] is [BlockingIOError] *)
  lk_share : Path -> py W bool;
  lk_unlock : Path -> py W unit
}.

Section Lock.
Context {W : Type} `{LockWorld W}.
Variable self : RuntimeLocator.

Definition lock_handle : py W unit :=
  _ ← lk_mkdir (path_parent (lock_path self)); lk_open (lock_path self).

Definition daemon_authority_present : py W bool :=
  _ ← lock_handle;
  shared ← lk_share (lock_path self);
  if negb (shared : bool) then mret true
  else _ ← lk_unlock (lock_path self); mret false.

(** [with locator.absence_guard(): body] *)
Definition absence_guard {A} (body : py W A) : py W A :=
  _ ← lock_handle;
  shared ← lk_share (lock_path self);
  if negb (shared : bool)
  then py_raise RuntimeAuthorityPresent "service is running but its IPC endpoint is unavailable"
  else py_finally body (fun w => (lk_unlock (lock_path self) w).2).
End Lock.

(** * Laws *)

Lemma split_on_none c s : contains_byte (byte_val c) s = false -> split_on c s = [s].
Proof.
  induction s as [|d s IH]; intros Hs; [done|]. cbn in Hs |- *. apply orb_false_iff in Hs as [Hd Hs].
  destruct (Ascii.eqb_spec d c) as [->|Hne]; [|by rewrite IH].
  by rewrite N.eqb_refl in Hd.
Qed.

(** A name of a path. *)
Definition plain_name (s : string) : Prop := contains_byte 47 s = false /\ s <> "" /\ s <> ".".

Lemma Path_of_plain s : plain_name s -> Path_of s = mkPath "" [s].
Proof.
  intros (Hs & H1 & H2). unfold Path_of. rewrite split_on_none by exact Hs. cbn [List.filter].
  rewrite (proj2 (String.eqb_neq s "") H1), (proj2 (String.eqb_neq s ".") H2). cbn [negb orb].
  destruct s as [|c s]; [done|]. cbn in Hs. apply orb_false_iff in Hs as [Hc _].
  assert (forall q, starts_with ("/" +:+ q) (String c s) = false) as Hp.
  { intros q. apply not_true_is_false. intros Hq. apply prefix_spec in Hq as [r Hr].
    rewrite str_app_assoc in Hr. injection Hr as -> _. by vm_compute in Hc. }
  assert (starts_with "//" (String c s) = false) as -> by exact (Hp "/").
  assert (starts_with "/" (String c s) = false) as -> by exact (Hp "").
  done.
Qed.

Lemma contains_app n s t : contains_byte n (s +:+ t) = contains_byte n s || contains_byte n t.
Proof. induction s as [|c s IH]; [done|]. rewrite str_app_cons. cbn [contains_byte]. by rewrite IH, orb_assoc. Qed.

Lemma contains_hex n s : (n < 48)%N -> all_bytes is_lower_hex s = true -> contains_byte n s = false.
Proof.
  intros Hn. induction s as [|c s IH]; intros Hs; [done|]. cbn in Hs |- *. apply andb_true_iff in Hs as [Hc Hs].
  rewrite IH, orb_false_r by done. apply N.eqb_neq. intros E. unfold is_lower_hex, is_digit, byte_in in Hc.
  rewrite E in Hc. repeat (apply orb_true_iff in Hc as [Hc|Hc]); apply andb_true_iff in Hc as [Hc _];
    apply N.leb_le in Hc; lia.
Qed.

Lemma all_bytes_substring p n s : all_bytes p s = true -> all_bytes p (String.substring 0 n s) = true.
Proof.
  revert n. induction s as [|c s IH]; intros [|n] Hs; [done..|]. cbn in *. apply andb_true_iff in Hs as [-> Hs].
  by rewrite IH.
Qed.

Lemma substring_at_most n s : (String.length (String.substring 0 n s) <= n)%nat.
Proof. revert n. induction s as [|c s IH]; intros [|n]; cbn; try lia. specialize (IH n). lia. Qed.

(** ** Digests *)

(** The state key is a digest in hexadecimal. *)
Definition digest_key (l : RuntimeLocator) : Prop :=
  all_bytes is_lower_hex (lo_state_key l) = true /\ String.length (lo_state_key l) = 64.

(** Every located project has a digest for its key. *)
Lemma located_digest resolve expanduser home environ repo config :
  digest_key (from_config resolve expanduser home environ repo config).
Proof. apply sha256_hex_spec. Qed.

(** ** The length of the socket's path *)

Lemma decimal_length k n s : (n < 10 ^ N.of_nat k)%N -> (String.length (pretty_N_go n s) <= k + String.length s)%nat.
Proof.
  revert n s. induction k as [|k IH]; intros n s Hn.
  - assert (n = 0%N) as -> by (cbn in Hn; lia). rewrite pretty_N_go_0. lia.
  - destruct (N.eq_dec n 0%N) as [->|Hne]; [rewrite pretty_N_go_0; lia|].
    rewrite pretty_N_go_step by lia.
    assert (n / 10 < 10 ^ N.of_nat k)%N as Hd.
    { apply N.Div0.div_lt_upper_bound. rewrite Nat2N.inj_succ, N.pow_succ_r' in Hn. lia. }
    specialize (IH (n / 10)%N (String (pretty_N_char (n mod 10)) s) Hd). cbn [String.length] in IH. lia.
Qed.

Lemma uid_length uid : (0 <= uid < 2 ^ 32)%Z -> (String.length (str_of_Z uid) <= 10)%nat.
Proof.
  intros Hu. destruct uid as [|p|p]; [cbn; lia| |lia].
  change (str_of_Z (Z.pos p)) with (pretty_N_go (N.pos p) "").
  etrans; [apply (decimal_length 10)|cbn; lia]. change (10 ^ N.of_nat 10)%N with 10000000000%N. lia.
Qed.

Lemma path_of_names dir a b : plain_name a -> plain_name b -> p_root dir = "/" -> p_names dir = ["tmp"] ->
  path_str (path_child (path_child dir a) b) = "/tmp/" +:+ a +:+ "/" +:+ b.
Proof.
  intros Ha Hb Hr Hn. unfold path_child. rewrite !Path_of_plain by done. unfold path_join. cbn.
  unfold path_str, is_absolute. cbn. by rewrite Hr, Hn.
Qed.

(** The path of a project's socket fits the address of a Unix socket: it has at most
    107 bytes, wherever the state of the project lives. *)
Theorem socket_path_fits l uid : digest_key l -> lo_socket_key_length l = 32 -> (0 <= uid < 2 ^ 32)%Z ->
  (String.length (path_str (socket_path l uid)) <= 107)%nat.
Proof.
  intros [Hx _] Hn Hu. unfold socket_path. cbv zeta. rewrite Hn.
  destruct (Nat.leb_spec (String.length (path_str (path_child (path_child (lo_state_dir l) "sockets")
    (String.substring 0 32 (lo_state_key l) +:+ ".sock")))) 107) as [Hle|_]; [done|].
  unfold socket_fallback. set (digest := String.substring 0 8 _). set (key := String.substring 0 32 _).
  assert (all_bytes is_lower_hex digest = true) as Hd by (apply all_bytes_substring, sha256_hex_spec).
  assert (all_bytes is_lower_hex key = true) as Hk by (by apply all_bytes_substring).
  assert (contains_byte 47 (str_of_Z uid) = false) as Hs.
  { destruct uid as [|p|p]; [done| |lia]. change (str_of_Z (Z.pos p)) with (pretty_N_go (N.pos p) "").
    destruct (pretty_digits (N.pos p) "" ltac:(lia)) as (ds & -> & Hds & _). rewrite str_app_nil_r.
    apply contains_hex; [lia|]. clear -Hds. induction ds as [|c ds IH]; [done|]. cbn in Hds |- *.
    apply andb_true_iff in Hds as [Hc Hds]. unfold is_lower_hex. rewrite Hc. by apply IH. }
  rewrite (path_of_names (Path_of "/tmp")); [|split; [|by split]|split|done|done].
  - rewrite !str_app_length. pose proof (uid_length uid Hu). pose proof (substring_at_most 8 (sha256_hex (path_str (lo_state_dir l)))) as H8.
    pose proof (substring_at_most 32 (lo_state_key l)) as H32. fold digest in H8. fold key in H32. cbn. lia.
  - rewrite !contains_app, Hs. cbn. apply contains_hex; [lia|done].
  - rewrite contains_app, (contains_hex 47 key) by (done || lia). done.
  - split; intros E; apply (f_equal String.length) in E; rewrite str_app_length in E; cbn in E; lia.
Qed.

Lemma socket_path_fits_witness :
  let l := mkLocator (Path_of "/srv/p") (Path_of ("/" +:+ of_chars (replicate 120 "d"))) (sha256_hex "/srv/p") 32 in
  digest_key l /\ (String.length (path_str (socket_path l 1000)) <= 107)%nat.
Proof.
  cbv zeta. split; [apply sha256_hex_spec|].
  apply (socket_path_fits _ 1000); [apply sha256_hex_spec|reflexivity|lia].
Defined.
