(* ===== verification/Systemd.v ===== *)
(** The systemd backend of the service, [src/devlegate/systemd_supervisor.py]: the
    unit of a project, who owns a unit file, and the operations on it.  systemd's
    manager, the unit directory and the service's socket are operations of a world;
    what is read of unit files and what is done is recorded. *)

From S2P Require Export RuntimeLocator.

(** * Units *)

Inductive UnitClassification : Type := CURRENT | RECONCILABLE | AMBIGUOUS_FOREIGN.

#[global] Instance UnitClassification_eq_dec : EqDecision UnitClassification.
Proof. solve_decision. Defined.

Definition MANAGED_MARKER : string := "# Managed by Devlegate systemd backend".

(** [src/devlegate/launcher.py] *)
Record LaunchCommand : Type := mkLaunchCommand { executable_argv : list string }.
Definition launch_argv (self : LaunchCommand) (arguments : list string) : list string :=
  executable_argv self ++ arguments.

Definition unit_name_of (prefix : string) : string := "devlegate-" +:+ prefix +:+ ".service".

Definition unit_name (locator : RuntimeLocator) (prefix_length : nat) : string :=
  unit_name_of (String.substring 0 prefix_length (lo_state_key locator)).

(** [devlegate-[0-9a-f]{8,64}\.service\Z] *)
Definition is_unit_name (name : string) : bool :=
  let prefix := String.substring 10 (String.length name - 18) name in
  (name =? unit_name_of prefix)%string && all_bytes is_lower_hex prefix &&
  (8 <=? String.length prefix)%nat && (String.length prefix <=? 64)%nat.

Definition _validate_unit_name (name : string) : res string :=
  if is_unit_name name then Ok name
  else raise SystemdSupervisorError ("unsafe systemd unit name: " +:+ name).

Definition unit_path (locator : RuntimeLocator) (directory : Path) (name : option string) : res Path :=
  selected ← match name with
             | None => Ok (unit_name locator 8)
             | Some name => _validate_unit_name name
             end;
  Ok (path_child directory selected).

Section Render.
(** [str.isalnum()] of a character *)
Variable isalnum : string -> bool.
Variable resolve : Path -> Path.

Definition plain_character (ch : string) : bool :=
  isalnum ch || existsb (String.eqb ch) ["_"; "+"; "-"; "."; "/"; ":"].

Definition _systemd_quote (value : string) : string :=
  if negb (value =? "")%string && forallb plain_character (utf8_chars value) then value
  else
  let escaped := replace_char DQ (BSL +:+ DQ) (replace_char BSL (BSL +:+ BSL) value) in
  let escaped := replace_char (bytes_of [9%N]) (BSL +:+ "t") (replace_char LF (BSL +:+ "n") escaped) in
  dq escaped.

Definition _systemd_unit_value (value : string) : string := _systemd_quote (replace_char "%" "%%" value).

Definition _systemd_exec_argument (value : string) : string :=
  _systemd_quote (replace_char "$" "$$" (replace_char "%" "%%" value)).

Definition exec_start (launcher : LaunchCommand) (env_file : Path) : string :=
  String.concat " " (map _systemd_exec_argument
    (launch_argv launcher ["--env"; path_str (resolve env_file); "foreground"])).

Definition state_line (locator : RuntimeLocator) : string := "# state_key=" +:+ lo_state_key locator.
Definition repository_line (locator : RuntimeLocator) : string :=
  "# repository=" +:+ path_str (resolve (lo_repo locator)).
Definition env_file_line (env_file : Path) : string := "# env_file=" +:+ path_str (resolve env_file).

(** The part of a unit that tells the service manager what to do. *)
Definition directives (locator : RuntimeLocator) (launcher : LaunchCommand) (env_file : Path) : list string :=
  ["[Unit]";
   "Description=Devlegate project " +:+ lo_state_key locator;
   "After=default.target";
   "";
   "[Service]";
   "Type=notify";
   "NotifyAccess=main";
   "WorkingDirectory=" +:+ _systemd_unit_value (path_str (resolve (lo_repo locator)));
   "ExecStart=" +:+ exec_start launcher env_file;
   "Environment=DEVLEGATE_HOST_MODE=external";
   "Environment=DEVLEGATE_REQUIRE_NOTIFY=1";
   "StandardOutput=journal";
   "StandardError=journal";
   "KillMode=mixed";
   "TimeoutStopSec=infinity";
   "Restart=no";
   "Delegate=yes";
   "";
   "[Install]";
   "WantedBy=default.target";
   ""].

Definition render_unit (locator : RuntimeLocator) (env_file : Path) (launcher : LaunchCommand) : string :=
  String.concat LF
    (MANAGED_MARKER :: state_line locator :: repository_line locator :: env_file_line env_file ::
     directives locator launcher env_file).

(** ** Whose a unit is *)

(** [next((line[len(prefix):] for line in lines if line.startswith(prefix)), None)] *)
Definition binding (prefix : string) (lines : list string) : option string :=
  (fun line => String.substring (String.length prefix) (String.length line) line) <$>
  List.find (starts_with prefix) lines.

Definition binding_matches (allow_legacy : bool) (lines : list string) (prefix expected : string) : bool :=
  match binding prefix lines with
  | None => allow_legacy
  | Some actual => (actual =? expected)%string
  end.

(** The marker and the state key: [_managed_for_state] and the start of [classify]. *)
Definition marked_for (state_key content : string) : bool :=
  let lines := splitlines content in
  bool_decide (head lines = Some MANAGED_MARKER) &&
  existsb (String.eqb ("# state_key=" +:+ state_key)) lines.

Definition classify_content (locator : RuntimeLocator) (env_file : option Path) (desired : option string)
    (launcher : LaunchCommand) (allow_legacy : bool) (content : string) : UnitClassification :=
  if negb (marked_for (lo_state_key locator) content) then AMBIGUOUS_FOREIGN
  else
  let matches := binding_matches allow_legacy (splitlines content) in
  if negb (matches "# repository=" (path_str (resolve (lo_repo locator)))) then AMBIGUOUS_FOREIGN
  else
  match env_file with
  | None => CURRENT
  | Some env_file =>
      if negb (matches "# env_file=" (path_str (resolve env_file))) then AMBIGUOUS_FOREIGN
      else
      let expected := match desired with
                      | Some text => if (text =? "")%string then render_unit locator env_file launcher else text
                      | None => render_unit locator env_file launcher
                      end in
      if (content =? expected)%string then CURRENT else RECONCILABLE
  end.
End Render.

(** * The world *)

(** What a command prints, or why there is nothing. *)
Record command_result : Type := mkCommandResult { cr_returncode : Z; cr_stdout : string; cr_stderr : string }.

Inductive unit_action : Type :=
  | Existed (path : Path) (present : bool)
  | ReadUnit (path : Path) (content : string)
  | Replaced (path : Path) (content : string)
  | Unlinked (path : Path)
  | Commanded (arguments : list string).

Class SystemdWorld (W : Type) : Type := {
  sw_exists : Path -> py W bool;
  sw_is_dir : Path -> py W bool;
  (** [root.glob("devlegate-*.service")] *)
  sw_glob : Path -> py W (list Path);
  sw_read_text : Path -> py W string;
  sw_mkdir : Path -> py W unit;
  (** [tempfile.mkstemp(prefix=.., suffix=.., dir=..)] *)
  sw_mkstemp : Path -> string -> string -> py W Path;
  sw_fill : Path -> string -> py W unit;
  sw_chmod : Path -> Z -> py W unit;
  sw_replace : Path -> Path -> py W unit;
  sw_unlink : Path -> py W unit;
  (** [subprocess.run], with the seconds it may take *)
  sw_run : list string -> option Z -> py W command_result;
  sw_sleep : Z -> py W unit;      (** in milliseconds *)
  sw_monotonic : py W Z;
  (** [locator.daemon_authority_present()] *)
  sw_authority : RuntimeLocator -> py W bool;
  (** [request(locator.socket_path, "ping", timeout=0.5)] *)
  sw_ping : RuntimeLocator -> py W dict;
  sw_resolve : Path -> Path;
  sw_isalnum : string -> bool;
  sw_lower : string -> string;
  (** [user_unit_dir()] *)
  sw_user_unit_dir : Path
}.

Record unit_log (W : Type) : Type := mkUnitLog { ul_world : W; ul_actions : list unit_action }.
Arguments mkUnitLog {W}.
Arguments ul_world {W}.
Arguments ul_actions {W}.

(** A call of the world, recorded when it returns. *)
Definition noted {W A} (m : py W A) (what : A -> list unit_action) : py (unit_log W) A := fun s =>
  let '(r, w) := m (ul_world s) in
  (r, mkUnitLog w (ul_actions s ++ match r with Ok a => what a | Raise _ => [] end)).

Definition unnoted {W A} (m : py W A) : py (unit_log W) A := noted m (fun _ => []).

Section Systemd.
Context {W : Type} `{SystemdWorld W}.

Abbreviation M := (py (unit_log W)).

Definition supervisor_error {A} (msg : string) : M A := py_raise SystemdSupervisorError msg.

Definition exists_unit (p : Path) : M bool := noted (sw_exists p) (fun b => [Existed p b]).

(** [path.read_text(encoding="utf-8")], a failure of the file system translated *)
Definition read_unit (p : Path) : M string :=
  py_catch (noted (sw_read_text p) (fun text => [ReadUnit p text])) is_os_error
    (fun e => supervisor_error ("cannot read systemd unit " +:+ path_str p +:+ ": " +:+ exn_msg e)).

Definition path_name (p : Path) : string := List.last (p_names p) "".

Definition _write_atomic (path : Path) (content : string) : M unit :=
  _ ← unnoted (sw_mkdir (path_parent path));
  temporary ← unnoted (sw_mkstemp (path_parent path) ("." +:+ path_name path +:+ ".") ".tmp");
  py_catch
    (_ ← unnoted (sw_fill temporary content);
     _ ← unnoted (sw_chmod temporary 420);
     noted (sw_replace temporary path) (fun _ => [Replaced path content]))
    is_os_error
    (fun e => _ ← py_catch (unnoted (sw_unlink temporary)) is_os_error (fun _ => mret tt);
              py_lift (Raise e)).

(** * The supervisor *)

Record SystemdSupervisor : Type := mkSupervisor {
  su_unit_directory : Path;
  su_launcher : LaunchCommand
}.

(** The phrases by which systemd says that there is nothing to do. *)
Definition tolerated_phrases : list string :=
  ["not loaded"; "not enabled"; "not found"; "does not exist"; "inactive"; "deactivating"].

Definition command_detail (result : command_result) : string :=
  let err := strip (cr_stderr result) in
  let out := strip (cr_stdout result) in
  if negb (err =? "")%string then err else if negb (out =? "")%string then out else "unknown error".

Definition _run (arguments : list string) (allow_failure : bool) : M command_result :=
  let command := "systemctl" :: "--user" :: arguments in
  let timeout := if existsb (String.eqb "stop") arguments then None else Some 5%Z in
  result ← py_catch
             (py_catch (noted (sw_run command timeout) (fun _ => [Commanded arguments])) is_os_error
                (fun e => supervisor_error ("systemd user manager is unavailable: " +:+ exn_msg e)))
             (is_class PyTimeoutExpired)
             (fun _ => supervisor_error "systemd user manager did not respond");
  let failure := supervisor_error ("systemd command failed (" +:+ String.concat " " command +:+ "): " +:+
                                   command_detail result) in
  if negb (cr_returncode result =? 0)%Z && allow_failure
  then if existsb (fun phrase => str_contains phrase (sw_lower (command_detail result))) tolerated_phrases
       then mret result else failure
  else if negb (cr_returncode result =? 0)%Z then failure
  else mret result.

(** The variables of the manager's environment. *)
Definition environment_of (text : string) : list (string * string) :=
  foldl (fun values line =>
    match partition EQUALS line with
    | (name, Some value) => dset values name value
    | (_, None) => values
    end) [] (splitlines text).

Definition probe_user_manager : M unit :=
  result ← _run ["show-environment"] false;
  let requested_config := path_parent (path_parent sw_user_unit_dir) in
  match dget (environment_of (cr_stdout result)) "XDG_CONFIG_HOME" with
  | Some manager_config =>
      if bool_decide (Path_of manager_config = requested_config) then mret tt
      else supervisor_error "systemd user manager uses a different XDG_CONFIG_HOME"
  | None => mret tt
  end.

Definition _managed_for_state (path : Path) (state_key : string) : M bool :=
  content ← read_unit path; mret (marked_for state_key content).

(** [^# state_key=[0-9a-f]{64}$] on some line: lines end at line feeds only *)
Definition state_key_line (content : string) : bool :=
  existsb (fun line =>
    let key := String.substring 12 (String.length line) line in
    starts_with "# state_key=" line && (String.length key =? 64)%nat && all_bytes is_lower_hex key)
    (split_on (Ascii.ascii_of_N 10) content).

Definition managed_unit_paths (directory : Path) : M (list Path) :=
  present ← unnoted (sw_is_dir directory);
  if negb (present : bool) then mret []
  else
  found ← unnoted (sw_glob directory);
  py_filter (fun path =>
    content ← read_unit path;
    mret (str_contains MANAGED_MARKER content && state_key_line content))
    (sorted_by path_str found).

Section Operations.
Variable self : SystemdSupervisor.

Definition path_of_unit (locator : RuntimeLocator) (name : option string) : M Path :=
  py_lift (unit_path locator (su_unit_directory self) name).

Definition classify (locator : RuntimeLocator) (env_file : option Path) (name desired : option string)
    (allow_legacy : bool) : M UnitClassification :=
  path ← path_of_unit locator name;
  present ← exists_unit path;
  if negb (present : bool) then mret AMBIGUOUS_FOREIGN
  else
  content ← read_unit path;
  mret (classify_content sw_isalnum sw_resolve locator env_file desired (su_launcher self) allow_legacy content).

Definition inspect_unit (locator : RuntimeLocator) (env_file : option Path) (name : option string)
    (allow_legacy : bool) : M bool :=
  path ← path_of_unit locator name;
  present ← exists_unit path;
  if negb (present : bool) then mret false
  else
  classification ← classify locator env_file name None allow_legacy;
  if bool_decide (classification = AMBIGUOUS_FOREIGN)
  then supervisor_error ("refusing to operate on unmanaged or unexpected identity " +:+ path_str path)
  else mret true.

(** The prefixes of the state key that name a unit, in the order they are tried. *)
Definition prefix_lengths : list nat := [8; 16] ++ map (fun k => 20 + 4 * k) (seq 0 12).

Fixpoint allocate_among (locator : RuntimeLocator) (lengths : list nat) : M string :=
  match lengths with
  | [] => supervisor_error ("no safe systemd unit name available for " +:+ lo_state_key locator)
  | prefix_length :: lengths =>
      let candidate := unit_name locator prefix_length in
      path ← path_of_unit locator (Some candidate);
      present ← exists_unit path;
      if negb (present : bool) then mret candidate
      else
      owned ← _managed_for_state path (lo_state_key locator);
      if (owned : bool) then mret candidate else allocate_among locator lengths
  end.

Definition allocate_unit_name (locator : RuntimeLocator) : M string := allocate_among locator prefix_lengths.

Definition managed_unit_for (locator : RuntimeLocator) : M (option Path) :=
  paths ← managed_unit_paths (su_unit_directory self);
  matches ← py_filter (fun path => _managed_for_state path (lo_state_key locator)) paths;
  match matches with
  | [] => mret None
  | [path] => mret (Some path)
  | _ => supervisor_error ("multiple managed systemd units identify state key " +:+ lo_state_key locator +:+
                           ": " +:+ String.concat ", " (map path_name matches))
  end.

Definition install (locator : RuntimeLocator) (env_file : Path) (name : option string) (allow_legacy : bool)
    : M Path :=
  name ← match name with
         | Some name => mret name
         | None =>
             existing ← managed_unit_for locator;
             match existing with
             | Some path => mret (path_name path)
             | None => allocate_unit_name locator
             end
         end;
  path ← path_of_unit locator (Some name);
  let desired := render_unit sw_isalnum sw_resolve locator env_file (su_launcher self) in
  present ← exists_unit path;
  classification ← (if (present : bool)
                    then classify locator (Some env_file) (Some (path_name path)) (Some desired) allow_legacy
                    else mret RECONCILABLE);
  if bool_decide (classification = AMBIGUOUS_FOREIGN)
  then supervisor_error ("refusing to operate on systemd unit with unexpected identity " +:+ path_str path)
  else
  _ ← probe_user_manager;
  if bool_decide (classification = CURRENT) then mret path
  else
  _ ← py_catch (_write_atomic path desired) is_os_error
        (fun e => supervisor_error ("cannot write systemd unit " +:+ path_str path +:+ ": " +:+ exn_msg e));
  _ ← _run ["daemon-reload"] false;
  mret path.

Definition remove (locator : RuntimeLocator) (env_file : option Path) (name : option string) (allow_legacy : bool)
    : M Path :=
  path ← path_of_unit locator name;
  present ← exists_unit path;
  _ ← (if (present : bool)
       then inspected ← inspect_unit locator env_file (Some (path_name path)) allow_legacy; mret tt
       else mret tt);
  _ ← probe_user_manager;
  present ← exists_unit path;
  _ ← (if (present : bool) then
         _ ← _run ["stop"; path_name path] true;
         _ ← _run ["disable"; path_name path] true;
         py_catch (noted (sw_unlink path) (fun _ => [Unlinked path])) is_os_error
           (fun e => supervisor_error ("cannot remove systemd unit " +:+ path_str path +:+ ": " +:+ exn_msg e))
       else mret tt);
  _ ← _run ["daemon-reload"] false;
  mret path.

(** [unit_name(locator) if name is None else _validate_unit_name(name)] *)
Definition selected_unit (locator : RuntimeLocator) (name : option string) : M string :=
  match name with
  | None => mret (unit_name locator 8)
  | Some name => py_lift (_validate_unit_name name)
  end.

Definition is_ready (response : dict) : bool :=
  eq_str (get response "service") "devlegate" &&
  match get response "ready" with PBool ready => ready | _ => false end.

Definition is_client_error (e : exn) : bool :=
  match exn_cls e with IPCClientError _ _ _ => true | _ => false end.

(** The loop of [wait_ready]; [None] when the fuel is used up. *)
Fixpoint wait_ready_until (fuel : nat) (locator : RuntimeLocator) (deadline : Z) (last_error : string)
    : M (option unit) :=
  match fuel with
  | O => mret None
  | S fuel =>
      now ← unnoted sw_monotonic;
      if (deadline <=? now)%Z
      then supervisor_error ("systemd service did not become ready: " +:+ last_error)
      else
      present ← unnoted (sw_authority locator);
      answer ← (if (present : bool)
                then py_catch (response ← unnoted (sw_ping locator); mret (inl (is_ready response)))
                       is_client_error (fun e => mret (inr (exn_msg e)))
                else mret (inl false));
      match answer with
      | inl true => mret (Some tt)
      | inl false => _ ← unnoted (sw_sleep 50); wait_ready_until fuel locator deadline last_error
      | inr error => _ ← unnoted (sw_sleep 50); wait_ready_until fuel locator deadline error
      end
  end.

Definition wait_ready (fuel : nat) (locator : RuntimeLocator) (timeout : Z) : M (option unit) :=
  started ← unnoted sw_monotonic;
  wait_ready_until fuel locator (started + timeout)%Z "service did not become ready".

Definition start (fuel : nat) (locator : RuntimeLocator) (name : option string) (timeout : Z) : M (option unit) :=
  _ ← probe_user_manager;
  selected ← selected_unit locator name;
  _ ← _run ["start"; selected] false;
  wait_ready fuel locator timeout.

Definition stop (locator : RuntimeLocator) (name : option string) : M unit :=
  _ ← probe_user_manager;
  selected ← selected_unit locator name;
  _ ← _run ["--no-block"; "stop"; selected] false;
  mret tt.

Definition restart (fuel : nat) (locator : RuntimeLocator) (name : option string) (timeout : Z) : M (option unit) :=
  _ ← probe_user_manager;
  selected ← selected_unit locator name;
  _ ← _run ["restart"; selected] false;
  wait_ready fuel locator timeout.

Definition status (locator : RuntimeLocator) (name : option string) : M bool :=
  _ ← probe_user_manager;
  selected ← selected_unit locator name;
  result ← _run ["is-active"; selected] true;
  mret ((cr_returncode result =? 0)%Z || (strip (cr_stdout result) =? "deactivating")%string).
End Operations.
End Systemd.

(** * Readiness *)

(** [notify_ready]: where the datagram is sent, if anywhere. *)
Definition notify_target (address : option string) (required : bool) : res (option string) :=
  match address with
  | Some address =>
      if (address =? "")%string then
        if required then raise SystemdSupervisorError "NOTIFY_SOCKET is required for systemd readiness" else Ok None
      else if contains_byte 0 address || (107 <? String.length address)%nat
      then raise SystemdSupervisorError "NOTIFY_SOCKET is malformed"
      else Ok (Some (if starts_with "@" address
                     then NUL +:+ String.substring 1 (String.length address) address else address))
  | None =>
      if required then raise SystemdSupervisorError "NOTIFY_SOCKET is required for systemd readiness" else Ok None
  end.
