(* ===== verification/SystemdSafety.v ===== *)
(** What the systemd backend guarantees: whose unit files it replaces and removes,
    that a unit it rendered is recognised as its project's and as no other's, which
    names it allocates, and that it waits for readiness no longer than it says. *)

From S2P Require Export Systemd.

(** * Names of units *)

Lemma substring_first p t : String.substring 0 (String.length p) (p +:+ t) = p.
Proof. induction p as [|c p IH]; [by destruct t|]. rewrite str_app_cons. cbn. by rewrite IH. Qed.

Lemma substring_middle a p t n : n = String.length p ->
  String.substring (String.length a) n (a +:+ p +:+ t) = p.
Proof. intros ->. induction a as [|c a IH]; [exact (substring_first p t)|exact IH]. Qed.

Lemma substring_rest a p n : String.length p <= n -> String.substring (String.length a) n (a +:+ p) = p.
Proof.
  intros Hn. induction a as [|c a IH]; [|exact IH]. revert n Hn.
  change (String.length "") with 0. change ("" +:+ p) with p.
  induction p as [|d p IHp]; intros [|n] Hn; cbn in *; [done..|lia|]. rewrite IHp; [done|lia].
Qed.

Lemma substring_short n s : n <= String.length s -> String.length (String.substring 0 n s) = n.
Proof. revert n. induction s as [|c s IH]; intros [|n] Hn; cbn in *; [done|lia|done|]. rewrite IH; lia. Qed.

Lemma unit_name_valid l n : digest_key l -> 8 <= n <= 64 -> is_unit_name (unit_name l n) = true.
Proof.
  intros [Hx Hl] Hn. unfold unit_name, is_unit_name.
  set (p := String.substring 0 n (lo_state_key l)).
  assert (String.length p = n) as Hp by (apply substring_short; lia).
  assert (String.substring 10 (String.length (unit_name_of p) - 18) (unit_name_of p) = p) as Hs.
  { unfold unit_name_of. apply (substring_middle "devlegate-" p ".service").
    rewrite !str_app_length. cbn. lia. }
  assert (all_bytes is_lower_hex p = true) as Hb by (by apply all_bytes_substring).
  cbv zeta. rewrite Hs, String.eqb_refl, Hp, Hb. cbn [andb].
  apply andb_true_iff. by rewrite !Nat.leb_le.
Qed.

Lemma prefix_lengths_valid n : n ∈ prefix_lengths -> 8 <= n <= 64.
Proof.
  assert (forallb (fun n => (8 <=? n) && (n <=? 64))%nat prefix_lengths = true) as H by reflexivity.
  rewrite forallb_forall in H. intros Hn. apply list_elem_of_In, H in Hn. apply andb_true_iff in Hn.
  by rewrite !Nat.leb_le in Hn.
Qed.

(** * What is recorded *)

Section Trace.
Context {W : Type} `{SystemdWorld W}.

Abbreviation M := (py (unit_log W)).

(** A unit of this project, whichever version of the program wrote it. *)
Definition owned (l : RuntimeLocator) (text : string) : Prop :=
  marked_for (lo_state_key l) text = true /\
  (binding "# repository=" (splitlines text) = None \/
   binding "# repository=" (splitlines text) = Some (path_str (sw_resolve (lo_repo l)))).

(** The file at [p] was seen to be missing or to be the project's. *)
Definition cleared (l : RuntimeLocator) (p : Path) (seen : list unit_action) : Prop :=
  Existed p false ∈ seen \/ exists text, ReadUnit p text ∈ seen /\ owned l text.

(** Only [desired] is written. *)
Definition justified (l : RuntimeLocator) (desired : string) (seen : list unit_action) (a : unit_action) : Prop :=
  match a with
  | Replaced p content => cleared l p seen /\ content = desired
  | Unlinked p => cleared l p seen
  | _ => True
  end.

Variable l : RuntimeLocator.
Variable desired : string.

Lemma cleared_later p seen more : cleared l p seen -> cleared l p (seen ++ more).
Proof.
  intros [?|(t & ? & ?)]; [left|right; exists t; split; [|done] ]; by apply elem_of_app; left.
Qed.

(** From a record that satisfies [P], [m] only extends the record, changes only
    what the record cleared, and ends with [Q]. *)
Definition ensures {A} (P : list unit_action -> Prop) (m : M A) (Q : A -> list unit_action -> Prop) : Prop :=
  forall s, P (ul_actions s) -> exists new,
    ul_actions (m s).2 = ul_actions s ++ new /\
    (forall before a after, new = before ++ a :: after -> justified l desired (ul_actions s ++ before) a) /\
    (forall a, (m s).1 = Ok a -> Q a (ul_actions (m s).2)).

(** A fact that stays true when more is recorded. *)
Definition Lasting (P : list unit_action -> Prop) : Prop := forall t u, P t -> P (t ++ u).

Lemma lasting_true : Lasting (fun _ => True).
Proof. done. Qed.
Lemma lasting_cleared p : Lasting (cleared l p).
Proof. intros t u. apply cleared_later. Qed.
Lemma lasting_elem a : Lasting (fun t => a ∈ t).
Proof. intros t u ?. apply elem_of_app. by left. Qed.
Lemma lasting_and (P Q : list unit_action -> Prop) : Lasting P -> Lasting Q -> Lasting (fun t => P t /\ Q t).
Proof. intros HP HQ t u []. split; [by apply HP|by apply HQ]. Qed.
Hint Resolve lasting_true lasting_cleared lasting_elem lasting_and : records.

Lemma ensures_weaken {A} (P : list unit_action -> Prop) (m : M A) Q R :
  ensures P m Q -> (forall a t, Q a t -> R a t) -> ensures P m R.
Proof. intros Hm Hw s Hs. destruct (Hm s Hs) as (new & ? & ? & Hq). exists new. eauto. Qed.

Lemma ensures_bind {A B} P (m : M A) (f : A -> M B) Q R :
  ensures P m Q -> (forall a, ensures (Q a) (f a) R) -> ensures P (m ≫= f) R.
Proof.
  intros Hm Hf s Hs. destruct (Hm s Hs) as (new & He & Hj & Hq). rewrite py_bind_run.
  destruct (m s) as [[a|e] s1]; cbn in *.
  - destruct (Hf a s1 (Hq a eq_refl)) as (new' & He' & Hj' & Hr). exists (new ++ new').
    rewrite He', He, app_assoc. split; [done|]. split.
    2: { intros b Hb. rewrite <- He, <- He'. by apply Hr. }
    intros before x after Hn. apply app_eq_app in Hn as (k & [ [E1 E2]|[E1 E2] ]).
    + destruct k as [|y k]; cbn in E2.
      * rewrite app_nil_r in E1. subst before. rewrite <- He. rewrite <- (app_nil_r (ul_actions s1)).
        apply (Hj' [] x after). done.
      * injection E2 as <- E2. apply (Hj before x k E1).
    + subst before. rewrite app_assoc, <- He. by apply (Hj' k x after).
  - exists new. by split.
Qed.

Lemma ensures_ret {A} (P : list unit_action -> Prop) (a : A) Q :
  (forall t, P t -> Q a t) -> ensures P (mret a) Q.
Proof.
  intros Hq s Hs. exists []. cbn. rewrite app_nil_r. split; [done|]. split; [by intros [|? ?]|].
  intros b [= <-]. by apply Hq.
Qed.

Lemma ensures_lift {A} (P : list unit_action -> Prop) (r : res A) Q :
  (forall a t, r = Ok a -> P t -> Q a t) -> ensures P (py_lift r) Q.
Proof.
  intros Hq s Hs. exists []. cbn. rewrite app_nil_r. split; [done|]. split; [by intros [|? ?]|].
  intros b Hb. by apply Hq.
Qed.

Lemma ensures_raise {A} (P : list unit_action -> Prop) (e : exn) (Q : A -> list unit_action -> Prop) :
  ensures P (fun s => (Raise e, s)) Q.
Proof. intros s Hs. exists []. cbn. rewrite app_nil_r. split; [done|]. by split; [intros [|? ?]|]. Qed.

Lemma ensures_error {A} (P : list unit_action -> Prop) msg (Q : A -> list unit_action -> Prop) :
  ensures P (supervisor_error msg) Q.
Proof. apply ensures_raise. Qed.

Lemma ensures_given {A} (φ : Prop) P (m : M A) Q : (φ -> ensures P m Q) -> ensures (fun t => φ /\ P t) m Q.
Proof. intros Hm s [Hφ Hs]. exact (Hm Hφ s Hs). Qed.

(** A handler starts from what lasts. *)
Lemma ensures_catch {A} P (m : M A) p h Q : Lasting P ->
  ensures P m Q -> (forall e, ensures P (h e) Q) -> ensures P (py_catch m p h) Q.
Proof.
  intros HP Hm Hh s Hs. destruct (Hm s Hs) as (new & He & Hj & Hq). unfold py_catch.
  destruct (m s) as [[a|e] s1]; cbn in *; [by exists new|]. destruct (p e); [|by exists new].
  destruct (Hh e s1) as (new' & He' & Hj' & Hr); [rewrite He; by apply HP|].
  exists (new ++ new'). rewrite He', He, app_assoc. split; [done|]. split.
  2: { intros b Hb. rewrite <- He, <- He'. by apply Hr. }
  intros before x after Hn. apply app_eq_app in Hn as (k & [ [E1 E2]|[E1 E2] ]).
  - destruct k as [|y k]; cbn in E2.
    + rewrite app_nil_r in E1. subst before. rewrite <- He. rewrite <- (app_nil_r (ul_actions s1)).
      apply (Hj' [] x after). done.
    + injection E2 as <- E2. apply (Hj before x k E1).
  - subst before. rewrite app_assoc, <- He. by apply (Hj' k x after).
Qed.

Lemma ensures_noted {A} P (m : py W A) what (Q : A -> list unit_action -> Prop) : Lasting P ->
  (forall a t, P t -> (forall before x after, what a = before ++ x :: after -> justified l desired (t ++ before) x) /\
                      Q a (t ++ what a)) ->
  ensures P (noted m what) Q.
Proof.
  intros HP Hw s Hs. unfold noted. destruct (m (ul_world s)) as [[a|e] w]; cbn.
  - destruct (Hw a _ Hs) as [Hj Hq]. exists (what a). split; [done|]. split; [exact Hj|]. by intros b [= <-].
  - exists []. split; [done|]. by split; [intros [|? ?]|].
Qed.

Lemma ensures_unnoted {A} P (m : py W A) : Lasting P -> ensures P (unnoted m) (fun _ => P).
Proof.
  intros HP. apply ensures_noted; [done|]. intros a t Ht. rewrite app_nil_r. by split; [intros [|? ?]|].
Qed.

(** ** The steps of the operations *)

Lemma single_justified t a before x after :
  [a] = before ++ x :: after -> justified l desired t a -> justified l desired (t ++ before) x.
Proof. intros E Ha. destruct before as [|y [|? ?]]; injection E as -> ?; [by rewrite app_nil_r|done..]. Qed.

Lemma ensures_exists P p : Lasting P ->
  ensures P (exists_unit p) (fun b t => P t /\ Existed p b ∈ t).
Proof.
  intros HP. apply ensures_noted; [done|]. intros b t Ht. split.
  - intros before x after E. by eapply single_justified.
  - split; [by apply HP|]. apply elem_of_app. right. by left.
Qed.

Lemma ensures_read P p : Lasting P ->
  ensures P (read_unit p) (fun text t => P t /\ ReadUnit p text ∈ t).
Proof.
  intros HP. apply ensures_catch; [done| |intros; apply ensures_error].
  apply ensures_noted; [done|]. intros text t Ht. split.
  - intros before x after E. by eapply single_justified.
  - split; [by apply HP|]. apply elem_of_app. right. by left.
Qed.

Lemma ensures_run P arguments allow : Lasting P -> ensures P (_run arguments allow) (fun _ => P).
Proof.
  intros HP. unfold _run. eapply ensures_bind.
  - apply ensures_catch; [done| |intros; apply ensures_error].
    apply ensures_catch; [done| |intros; apply ensures_error].
    apply (ensures_noted P _ _ (fun _ => P)); [done|]. intros r t Ht. split; [|by apply HP].
    intros before x after E. by eapply single_justified.
  - intros result. cbn beta zeta. repeat case_match; first [by apply ensures_ret | apply ensures_error].
Qed.

Lemma ensures_probe P : Lasting P -> ensures P probe_user_manager (fun _ => P).
Proof.
  intros HP. eapply ensures_bind; [by apply ensures_run|]. intros result. cbn beta zeta.
  destruct (dget _ _); [|by apply ensures_ret]. case_bool_decide; [by apply ensures_ret|apply ensures_error].
Qed.

Lemma ensures_managed P p key : Lasting P ->
  ensures P (_managed_for_state p key) (fun b t => P t /\ exists text, ReadUnit p text ∈ t /\ b = marked_for key text).
Proof.
  intros HP. eapply ensures_bind; [by apply ensures_read|]. intros text. apply ensures_ret. intros t []. eauto.
Qed.

Lemma ensures_filter {A} P (f : A -> M bool) xs : Lasting P ->
  (forall x, ensures P (f x) (fun _ => P)) -> ensures P (py_filter f xs) (fun _ => P).
Proof.
  intros HP Hf. induction xs as [|x xs IH]; [by apply ensures_ret|]. cbn [py_filter].
  eapply ensures_bind; [apply Hf|]. intros b. cbn beta. eapply ensures_bind; [apply IH|]. intros ys.
  by apply ensures_ret.
Qed.

(** ** Classification *)

Variable self : SystemdSupervisor.

Lemma classified_owned env_file expected legacy text :
  classify_content sw_isalnum sw_resolve l env_file expected (su_launcher self) legacy text <> AMBIGUOUS_FOREIGN ->
  owned l text.
Proof.
  unfold classify_content, owned, binding_matches.
  destruct (marked_for _ text); cbn [negb]; [|done].
  destruct (binding "# repository=" _) as [actual|]; [|intros _; split; [done|by left] ].
  destruct (String.eqb_spec actual (path_str (sw_resolve (lo_repo l)))) as [->|]; cbn [negb]; [|done].
  intros _. split; [done|by right].
Qed.

Lemma classified_current env_file legacy text : desired <> "" ->
  classify_content sw_isalnum sw_resolve l (Some env_file) (Some desired) (su_launcher self) legacy text = CURRENT ->
  text = desired.
Proof.
  intros Hd. unfold classify_content. destruct (negb (marked_for _ _)); [done|].
  destruct (negb _); [done|]. destruct (negb _); [done|].
  rewrite (proj2 (String.eqb_neq desired "") Hd). destruct (String.eqb_spec text desired) as [->|]; [done|done].
Qed.

(** What a classification that allows to go on has seen. *)
Definition classified (p : Path) (env_file : option Path) (expected : option string) (legacy : bool)
    (c : UnitClassification) (t : list unit_action) : Prop :=
  c <> AMBIGUOUS_FOREIGN -> exists text, ReadUnit p text ∈ t /\
    classify_content sw_isalnum sw_resolve l env_file expected (su_launcher self) legacy text = c.

Lemma lasting_classified p e d legacy c : Lasting (classified p e d legacy c).
Proof. intros t u Hc Hn. destruct (Hc Hn) as (text & ? & ?). exists text. split; [|done]. apply elem_of_app. by left. Qed.

Lemma ensures_classify P env_file name expected legacy p : Lasting P ->
  unit_path l (su_unit_directory self) name = Ok p ->
  ensures P (classify self l env_file name expected legacy)
    (fun c t => P t /\ classified p env_file expected legacy c t).
Proof.
  intros HP Hp. unfold classify, path_of_unit. eapply ensures_bind.
  { apply (ensures_lift P _ (fun q t => q = p /\ P t)). intros q t Hq ?. split; [congruence|done]. }
  intros q. apply ensures_given. intros ->. eapply ensures_bind; [by apply ensures_exists|].
  intros b. destruct b; cbn [negb].
  2: { apply ensures_ret. intros t [? ?]. split; [done|]. by intros []. }
  eapply ensures_bind; [apply ensures_read; auto with records|].
  intros text. apply ensures_ret. intros t [ [? _] ?]. split; [done|]. intros _. by exists text.
Qed.

(** ** Writing and removing *)

Lemma ensures_write P p : Lasting P -> (forall t, P t -> cleared l p t) ->
  ensures P (_write_atomic p desired) (fun _ t => Replaced p desired ∈ t).
Proof.
  intros HP Hc. unfold _write_atomic. eapply ensures_bind; [by apply ensures_unnoted|]. intros ?. cbn beta.
  eapply ensures_bind; [by apply ensures_unnoted|]. intros temporary. cbn beta. apply ensures_catch; [done| |].
  - eapply ensures_bind; [by apply ensures_unnoted|]. intros ?. cbn beta.
    eapply ensures_bind; [by apply ensures_unnoted|]. intros ?. cbn beta.
    apply ensures_noted; [done|]. intros _ t Ht. split; [|apply elem_of_app; right; by left].
    intros before x after E. eapply single_justified; [exact E|]. split; [by apply Hc|done].
  - intros e. eapply ensures_bind.
    + apply (ensures_catch _ _ _ _ (fun _ => P)); [done|by apply ensures_unnoted|]. intros _. by apply ensures_ret.
    + intros ?. by apply ensures_lift.
Qed.

Lemma ensures_unlink P p : Lasting P -> (forall t, P t -> cleared l p t) ->
  ensures P (noted (sw_unlink p) (fun _ => [Unlinked p])) (fun _ => P).
Proof.
  intros HP Hc. apply ensures_noted; [done|]. intros _ t Ht. split; [|by apply HP].
  intros before x after E. eapply single_justified; [exact E|]. by apply Hc.
Qed.

(** ** Names *)

(** Nobody has the file, or it is marked for the project. *)
Definition free_or_own (p : Path) (t : list unit_action) : Prop :=
  Existed p false ∈ t \/ exists text, ReadUnit p text ∈ t /\ marked_for (lo_state_key l) text = true.

Lemma valid_unit_plain name : is_unit_name name = true -> plain_name name.
Proof.
  unfold is_unit_name. intros Hn. apply andb_true_iff in Hn as [Hn _]. apply andb_true_iff in Hn as [Hn _].
  apply andb_true_iff in Hn as [Hn Hx]. apply String.eqb_eq in Hn. rewrite Hn. unfold unit_name_of.
  split; [|by split]. rewrite !contains_app. revert Hx. generalize (String.substring 10 (String.length name - 18) name).
  intros p Hx. by rewrite (contains_hex 47 p) by (done || lia).
Qed.

Lemma unit_path_name name : is_unit_name name = true -> path_name (path_child (su_unit_directory self) name) = name.
Proof.
  intros Hn. unfold path_child. rewrite Path_of_plain by (by apply valid_unit_plain). unfold path_name, path_join.
  cbn. apply last_last.
Qed.

Lemma path_of_valid name : is_unit_name name = true ->
  unit_path l (su_unit_directory self) (Some name) = Ok (path_child (su_unit_directory self) name).
Proof. intros Hn. unfold unit_path, _validate_unit_name. by rewrite Hn. Qed.

Lemma ensures_allocate P lengths : Lasting P -> digest_key l -> (forall n, n ∈ lengths -> 8 <= n <= 64) ->
  ensures P (allocate_among self l lengths) (fun name t =>
    P t /\ is_unit_name name = true /\ free_or_own (path_child (su_unit_directory self) name) t).
Proof.
  intros HP Hk. induction lengths as [|n lengths IH]; intros Hn; [apply ensures_error|]. cbn [allocate_among].
  assert (is_unit_name (unit_name l n) = true) as Hv by (apply unit_name_valid; [done|apply Hn; by left]).
  unfold path_of_unit. rewrite path_of_valid by done. cbv zeta.
  eapply ensures_bind; [by apply (ensures_lift P _ (fun q t => q = path_child (su_unit_directory self) (unit_name l n) /\ P t)); intros q t [= <-] ?|].
  intros q. apply ensures_given. intros ->. eapply ensures_bind; [by apply ensures_exists|].
  intros [|]; cbn [negb].
  2: { apply ensures_ret. intros t []. split; [done|]. split; [done|by left]. }
  eapply ensures_bind; [apply ensures_managed; auto with records|]. intros [|]; cbn beta.
  - apply ensures_ret. intros t [ [? _] (text & ? & ?)]. split; [done|]. split; [done|]. right. by exists text.
  - intros s [ [Hs _] _]. apply IH; [|exact Hs]. intros m Hm. apply Hn. by right.
Qed.
(** ** Whole operations *)

Lemma ensures_path P name : ensures P (path_of_unit self l name)
  (fun p t => unit_path l (su_unit_directory self) name = Ok p /\ P t).
Proof. apply ensures_lift. by intros p t ? ?. Qed.

Lemma classified_cleared p env_file expected legacy t c : c <> AMBIGUOUS_FOREIGN ->
  classified p env_file expected legacy c t -> cleared l p t.
Proof. intros Hn Hc. destruct (Hc Hn) as (text & ? & <-). right. exists text. split; [done|]. by eapply classified_owned. Qed.

Lemma ensures_inspect P env_file name legacy p : Lasting P ->
  unit_path l (su_unit_directory self) name = Ok p ->
  ensures P (inspect_unit self l env_file name legacy) (fun _ t => P t /\ cleared l p t).
Proof.
  intros HP Hp. eapply ensures_bind; [apply ensures_path|]. intros q. apply ensures_given. rewrite Hp. intros [= <-].
  eapply ensures_bind; [by apply ensures_exists|]. intros [|]; cbn [negb].
  2: { apply ensures_ret. intros t []. split; [done|by left]. }
  eapply ensures_bind; [eapply (ensures_classify _ _ _ _ _ p); auto with records|]. intros classification. cbn beta.
  case_bool_decide as Hc; [apply ensures_error|]. apply ensures_ret. intros t [ [? _] Hk].
  split; [done|]. by eapply classified_cleared.
Qed.

Lemma unit_path_valid name p : digest_key l -> unit_path l (su_unit_directory self) name = Ok p ->
  is_unit_name (path_name p) = true /\ unit_path l (su_unit_directory self) (Some (path_name p)) = Ok p.
Proof.
  intros Hk Hp. assert (exists n, is_unit_name n = true /\ p = path_child (su_unit_directory self) n) as (n & Hn & ->).
  { unfold unit_path, _validate_unit_name in Hp. destruct name as [n|].
    - destruct (is_unit_name n) eqn:E; [|done]. injection Hp as <-. by exists n.
    - injection Hp as <-. exists (unit_name l 8). split; [|done]. apply unit_name_valid; [done|lia]. }
  rewrite unit_path_name by done. split; [done|]. by apply path_of_valid.
Qed.

Lemma ensures_remove env_file name legacy : digest_key l ->
  ensures (fun _ => True) (remove self l env_file name legacy) (fun _ _ => True).
Proof.
  intros Hk. eapply ensures_bind; [apply ensures_path|]. intros p. apply ensures_given. intros Hp.
  destruct (unit_path_valid _ _ Hk Hp) as [_ Hp'].
  eapply ensures_bind; [apply ensures_exists; auto with records|]. intros present.
  eapply (ensures_bind _ _ _ (fun _ => cleared l p)).
  { destruct present.
    - eapply ensures_bind; [eapply (ensures_inspect _ _ _ _ p); [|done]; auto with records|].
      intros ?. apply ensures_ret. by intros t [].
    - apply ensures_ret. intros t []. by left. }
  intros ?. cbn beta. eapply ensures_bind; [apply ensures_probe; auto with records|]. intros ?. cbn beta.
  eapply ensures_bind; [apply ensures_exists; auto with records|]. intros again.
  eapply (ensures_bind _ _ _ (fun _ => cleared l p)).
  { destruct again; [|by apply ensures_ret; intros t []].
    eapply ensures_weaken.
    - eapply ensures_bind; [apply ensures_run; auto with records|]. intros ?. cbn beta.
      eapply ensures_bind; [apply ensures_run; auto with records|]. intros ?. cbn beta.
      apply (ensures_catch _ _ _ _ (fun _ t => cleared l p t /\ Existed p true ∈ t)); [auto with records| |].
      + apply ensures_unlink; [auto with records|]. by intros t [].
      + intros. apply ensures_error.
    - by intros ? t []. }
  intros ?. cbn beta. eapply ensures_bind; [apply ensures_run; auto with records|]. intros ?. by apply ensures_ret.
Qed.

Lemma ensures_managed_unit P : Lasting P -> ensures P (managed_unit_for self l) (fun _ => P).
Proof.
  intros HP. unfold managed_unit_for, managed_unit_paths. eapply (ensures_bind _ _ _ (fun _ => P)).
  - eapply ensures_bind; [by apply ensures_unnoted|]. intros present. cbn beta.
    destruct present; cbn [negb]; [|by apply ensures_ret].
    eapply ensures_bind; [by apply ensures_unnoted|]. intros found. cbn beta. apply ensures_filter; [done|]. intros p.
    eapply ensures_bind; [by apply ensures_read|]. intros text. apply ensures_ret. by intros t [].
  - intros paths. cbn beta. eapply (ensures_bind _ _ _ (fun _ => P)).
    + apply ensures_filter; [done|]. intros p. eapply ensures_weaken; [by apply ensures_managed|]. by intros ? t [].
    + intros matches. cbn beta. destruct matches as [|p [|? ?] ]; [by apply ensures_ret..|apply ensures_error].
Qed.

Lemma ensures_install env_file name legacy : digest_key l ->
  desired = render_unit sw_isalnum sw_resolve l env_file (su_launcher self) ->
  ensures (fun _ => True) (install self l env_file name legacy)
    (fun p t => ReadUnit p desired ∈ t \/ Replaced p desired ∈ t).
Proof.
  intros Hk Hd. assert (desired <> "") as Hne by (by rewrite Hd).
  eapply (ensures_bind _ _ _ (fun _ _ => True)).
  { destruct name as [n|]; [by apply ensures_ret|]. eapply ensures_bind; [apply ensures_managed_unit; auto with records|].
    intros [existing|]; [by apply ensures_ret|]. eapply ensures_weaken; [|done].
    apply ensures_allocate; [auto with records|done|apply prefix_lengths_valid]. }
  intros n. eapply ensures_bind; [apply ensures_path|]. intros p. apply ensures_given. intros Hp.
  destruct (unit_path_valid _ _ Hk Hp) as [_ Hp']. rewrite <- Hd.
  eapply ensures_bind; [apply ensures_exists; auto with records|]. intros present.
  eapply (ensures_bind _ _ _ (fun c t => (c <> AMBIGUOUS_FOREIGN -> cleared l p t) /\
                                          (c = CURRENT -> ReadUnit p desired ∈ t))).
  { destruct present.
    - eapply ensures_weaken; [eapply (ensures_classify _ _ _ _ _ p); [|done]; auto with records|].
      intros c t [_ Hc]. split; [intros Hn; by eapply classified_cleared|]. intros ->.
      destruct (Hc ltac:(done)) as (text & Ht & Hcl). apply classified_current in Hcl as ->; done.
    - apply ensures_ret. intros t [_ He]. split; [by left|done]. }
  intros classification. cbn beta. case_bool_decide as Hf; [apply ensures_error|].
  eapply (ensures_bind _ _ _ (fun _ t => cleared l p t /\ (classification = CURRENT -> ReadUnit p desired ∈ t))).
  { eapply ensures_weaken; [apply ensures_probe|].
    - intros t u [H1 H2]. split; [intros Hn; by apply cleared_later, H1|]. intros Hc. apply elem_of_app. left. by apply H2.
    - intros ? t [H1 H2]. split; [by apply H1|done]. }
  intros ?. cbn beta. case_bool_decide as Hc.
  { apply ensures_ret. intros t [_ Ht]. left. by apply Ht. }
  eapply (ensures_bind _ _ _ (fun _ t => Replaced p desired ∈ t)).
  { assert (Lasting (fun t => cleared l p t /\ (classification = CURRENT -> ReadUnit p desired ∈ t))) as Hl.
    { intros t u [? _]. split; [by apply cleared_later|by intros ?]. }
    apply ensures_catch; [exact Hl| |intros; apply ensures_error]. apply ensures_write; [exact Hl|]. by intros t []. }
  intros ?. cbn beta. eapply ensures_bind; [apply ensures_run; auto with records|]. intros ?.
  apply ensures_ret. intros t Ht. by right.
Qed.
End Trace.

Section Own.
Context {W : Type} `{SystemdWorld W}.
Variables (self : SystemdSupervisor) (l : RuntimeLocator).

(** An installation replaces a unit file only after it saw that there is none or
    read one that is marked for the project and names its repository, it writes
    nothing but the project's rendered unit; when it returns, a unit was read or
    written as that text. *)
Theorem install_replaces_own_unit env_file name legacy (w : W) :
  let desired := render_unit sw_isalnum sw_resolve l env_file (su_launcher self) in
  let '(r, s) := install self l env_file name legacy (mkUnitLog w []) in
  digest_key l ->
  (forall before p content after, ul_actions s = before ++ Replaced p content :: after ->
     cleared l p before /\ content = desired) /\
  (forall p, r = Ok p -> ReadUnit p desired ∈ ul_actions s \/ Replaced p desired ∈ ul_actions s).
Proof.
  cbv zeta. destruct (install _ _ _ _ _ _) as [r s] eqn:E. intros Hk.
  destruct (ensures_install l _ self env_file name legacy Hk eq_refl (mkUnitLog w []) I) as (new & Hn & Hj & Hq).
  rewrite E in Hn, Hq. cbn in Hn, Hq, Hj. subst new. split_and!.
  - intros before p content after Ha. exact (Hj _ _ _ Ha).
  - intros p ->. by apply Hq.
Qed.

(** A removal removes a unit file only after it read one that is marked for the
    project, unless the file was missing when it looked before. *)
Theorem remove_takes_own_unit env_file name legacy (w : W) :
  digest_key l ->
  let '(r, s) := remove self l env_file name legacy (mkUnitLog w []) in
  forall before p after, ul_actions s = before ++ Unlinked p :: after -> cleared l p before.
Proof.
  intros Hk. destruct (remove _ _ _ _ _ _) as [r s] eqn:E.
  destruct (ensures_remove l "" self env_file name legacy Hk (mkUnitLog w []) I) as (new & Hn & Hj & _).
  rewrite E in Hn. cbn in Hn, Hj. subst new. intros before p after Ha. exact (Hj _ _ _ Ha).
Qed.

(** A name allocated to a project is a unit's name, and its file was seen to be
    missing or to be marked for the project. *)
Theorem allocated_name_is_free name (w : W) s : digest_key l ->
  allocate_unit_name self l (mkUnitLog w []) = (Ok name, s) ->
  is_unit_name name = true /\ free_or_own l (path_child (su_unit_directory self) name) (ul_actions s).
Proof.
  intros Hk E. assert (Lasting (fun _ => True)) as Hl by done.
  destruct (ensures_allocate l "" self (fun _ => True) prefix_lengths Hl Hk prefix_lengths_valid (mkUnitLog w []) I)
    as (new & Hn & _ & Hq). unfold allocate_unit_name in E. rewrite E in Hq. by destruct (Hq name eq_refl) as (_ & ? & ?).
Qed.
End Own.

(** * Waiting ends *)

Section Ready.
Context {W : Type} `{SystemdWorld W}.

(** Time does not go backwards, and a sleep takes the time it was asked for. *)
Record advances (clock : W -> Z) : Prop := {
  ad_now : forall w t, (sw_monotonic w).1 = Ok t -> (clock w <= t)%Z /\ t = clock (sw_monotonic w).2;
  ad_sleep : forall d w, (sw_sleep d w).1 = Ok tt -> (clock w + d <= clock (sw_sleep d w).2)%Z;
  ad_authority : forall l w, (clock w <= clock (sw_authority l w).2)%Z;
  ad_ping : forall l w, (clock w <= clock (sw_ping l w).2)%Z
}.

Lemma unnoted_run {A} (m : py W A) (s : unit_log W) :
  unnoted m s = ((m (ul_world s)).1, mkUnitLog (m (ul_world s)).2 (ul_actions s)).
Proof.
  unfold unnoted, noted. destruct (m (ul_world s)) as [[a|e] w]; cbn; by rewrite app_nil_r.
Qed.

(** One look at the service: whether it is there, and what it answers. *)
Definition looks_ready (l : RuntimeLocator) (w w' : W) : Prop :=
  exists w1 response, sw_authority l w = (Ok true, w1) /\ sw_ping l w1 = (Ok response, w') /\ is_ready response = true.

Lemma wait_until_ends clock l : advances clock -> forall fuel deadline error (s : unit_log W),
  (deadline - clock (ul_world s) < Z.of_nat fuel)%Z -> (0 < fuel)%nat ->
  let '(r, s') := wait_ready_until fuel l deadline error s in
  r <> Ok None /\ (r = Ok (Some tt) -> exists w w', looks_ready l w w').
Proof.
  intros Hc fuel. induction fuel as [|fuel IH]; intros deadline error s Hf Hpos; [lia|]. clear Hpos.
  assert (forall error w', (deadline <= clock (ul_world s) -> False)%Z -> (clock (ul_world s) <= clock w')%Z ->
    let '(r, s') := (_ ← unnoted (sw_sleep 50); wait_ready_until fuel l deadline error) (mkUnitLog w' (ul_actions s)) in
    r <> Ok None /\ (r = Ok (Some tt) -> exists w w', looks_ready l w w')) as Hgo.
  { intros error' w' Hlt Hle. run. rewrite unnoted_run. cbn [ul_world fst snd ul_actions].
    destruct (sw_sleep 50 w') as [[[]|e] w2] eqn:Es; cbn [fst snd]; [|done].
    pose proof (ad_sleep _ Hc 50 w') as Hs. rewrite Es in Hs. specialize (Hs eq_refl). cbn in Hs.
    apply IH; cbn [ul_world]; lia. }
  cbn [wait_ready_until]. run. rewrite unnoted_run.
  destruct (sw_monotonic (ul_world s)) as [[now|e] w0] eqn:En; cbn [fst snd]; [|done].
  pose proof (ad_now _ Hc (ul_world s) now) as Hn. rewrite En in Hn. destruct (Hn eq_refl) as [Hn1 Hn2]. cbn in Hn2.
  destruct (Z.leb_spec deadline now); [done|]. run. rewrite unnoted_run. cbn [ul_world ul_actions].
  pose proof (ad_authority _ Hc l w0) as Ha.
  destruct (sw_authority l w0) as [[present|e] w1] eqn:Ea; cbn [fst snd] in *; [|done].
  destruct present.
  - run. unfold py_catch. run. rewrite unnoted_run. cbn [ul_world ul_actions].
    pose proof (ad_ping _ Hc l w1) as Hp.
    destruct (sw_ping l w1) as [[response|e] w2] eqn:Ep; cbn [fst snd] in *.
    + destruct (is_ready response) eqn:Er.
      * split; [done|]. intros _. by exists w0, w2, w1, response.
      * apply Hgo; lia.
    + destruct (is_client_error e); [|done]. apply Hgo; lia.
  - run. apply Hgo; lia.
Qed.

(** The wait for readiness ends: within its timeout in milliseconds it has either
    failed, or the lock was held and the socket answered that the service is ready. *)
Theorem readiness_wait_ends clock l fuel timeout (s : unit_log W) : advances clock ->
  (0 <= timeout < Z.of_nat fuel)%Z ->
  let '(r, s') := wait_ready fuel l timeout s in
  r <> Ok None /\ (r = Ok (Some tt) -> exists w w', looks_ready l w w').
Proof.
  intros Hc Hf. unfold wait_ready. run. rewrite unnoted_run.
  destruct (sw_monotonic (ul_world s)) as [[now|e] w0] eqn:En; cbn [fst snd]; [|done].
  pose proof (ad_now _ Hc (ul_world s) now) as Hn. rewrite En in Hn. destruct (Hn eq_refl) as [_ Hn2]. cbn in Hn2.
  apply (wait_until_ends clock); [done| |lia]. cbn [ul_world]. lia.
Qed.
End Ready.
