(* ===== verification/SystemdReplay.v ===== *)
(** Rendered units: each is recognised as its project's, and what line breaks in a
    path make of one.  A concrete unit directory and user manager, in which the
    guarantees of the backend apply, and in which an interrupted installation and a
    removal during a race go wrong. *)

From S2P Require Import SystemdSafety.

(** * Recognition *)

Lemma splitlines_first line rest : one_line line -> starts_char rest = true ->
  splitlines (line +:+ LF +:+ rest) = line :: splitlines rest.
Proof. intros Hl Hr. unfold splitlines. rewrite splitlines_line by done. cbn [map]. by rewrite drop_break_line. Qed.

Lemma one_line_app s t : one_line s -> one_line t -> starts_char t = true -> one_line (s +:+ t).
Proof. intros Hs Ht Hc. unfold one_line. rewrite utf8_chars_app by done. by apply Forall_app. Qed.

Section Recognition.
Variables (isalnum : string -> bool) (resolve : Path -> Path).

(** The paths of a project without line breaks, as Python sees them. *)
Definition plain_paths (l : RuntimeLocator) (env_file : Path) : Prop :=
  (one_line (lo_state_key l) /\ starts_char (lo_state_key l) = true) /\
  (one_line (path_str (resolve (lo_repo l))) /\ starts_char (path_str (resolve (lo_repo l))) = true) /\
  (one_line (path_str (resolve env_file)) /\ starts_char (path_str (resolve env_file)) = true).

Lemma literal_line s : forallb (fun c => negb (is_line_break c)) (utf8_chars s) = true -> one_line s.
Proof.
  intros Hs. apply Forall_forall. intros c Hc. rewrite forallb_forall in Hs. apply list_elem_of_In, Hs in Hc.
  by apply negb_true_iff in Hc.
Qed.

Lemma render_lines l env_file launcher : plain_paths l env_file -> exists rest,
  splitlines (render_unit isalnum resolve l env_file launcher) =
    MANAGED_MARKER :: state_line l :: repository_line resolve l :: env_file_line resolve env_file :: rest.
Proof.
  intros ((Hk & Hks) & (Hr & Hrs) & (He & Hes)).
  exists (splitlines (String.concat LF (directives isalnum resolve l launcher env_file))).
  unfold render_unit.
  change (String.concat LF (MANAGED_MARKER :: state_line l :: repository_line resolve l ::
            env_file_line resolve env_file :: directives isalnum resolve l launcher env_file)) with
    (MANAGED_MARKER +:+ LF +:+ state_line l +:+ LF +:+ repository_line resolve l +:+ LF +:+
     env_file_line resolve env_file +:+ LF +:+ String.concat LF (directives isalnum resolve l launcher env_file)).
  rewrite !splitlines_first; try done; try (by apply literal_line);
    unfold state_line, repository_line, env_file_line; apply one_line_app; try done; by apply literal_line.
Qed.

Lemma prefixed_line p s : starts_with p (p +:+ s) = true.
Proof. apply prefix_spec. by exists s. Qed.

Lemma binding_here p s before after : Forall (fun line => starts_with p line = false) before ->
  binding p (before ++ (p +:+ s) :: after) = Some s.
Proof.
  intros Hb. unfold binding. induction Hb as [|x before Hx _ IH]; cbn [app List.find].
  - rewrite prefixed_line. cbn [fmap option_fmap option_map]. f_equal. apply substring_rest.
    rewrite str_app_length. lia.
  - by rewrite Hx.
Qed.

(** The unit rendered for a project, whose paths have no line break, is current for
    that project, at most out of date when the program moved, and foreign for a
    project with another repository or another configuration file. *)
Theorem unit_is_recognised l env_file launcher legacy : plain_paths l env_file ->
  let text := render_unit isalnum resolve l env_file launcher in
  classify_content isalnum resolve l (Some env_file) None launcher legacy text = CURRENT /\
  (forall launcher', classify_content isalnum resolve l (Some env_file) None launcher' legacy text <> AMBIGUOUS_FOREIGN) /\
  (forall l' env_file' desired launcher' legacy',
     path_str (resolve (lo_repo l')) <> path_str (resolve (lo_repo l)) \/
     path_str (resolve env_file') <> path_str (resolve env_file) ->
     classify_content isalnum resolve l' (Some env_file') desired launcher' legacy' text = AMBIGUOUS_FOREIGN).
Proof.
  intros Hp. destruct (render_lines l env_file launcher Hp) as [rest Hl]. cbv zeta.
  assert (binding "# repository=" (splitlines (render_unit isalnum resolve l env_file launcher)) =
            Some (path_str (resolve (lo_repo l)))) as Hb.
  { rewrite Hl. apply (binding_here "# repository=" _ [MANAGED_MARKER; state_line l]).
    by repeat constructor. }
  assert (binding "# env_file=" (splitlines (render_unit isalnum resolve l env_file launcher)) =
            Some (path_str (resolve env_file))) as He.
  { rewrite Hl. apply (binding_here "# env_file=" _ [MANAGED_MARKER; state_line l; repository_line resolve l]).
    by repeat constructor. }
  assert (marked_for (lo_state_key l) (render_unit isalnum resolve l env_file launcher) = true) as Hm.
  { unfold marked_for. cbv zeta. rewrite Hl. rewrite bool_decide_true by reflexivity.
    unfold state_line. cbn [existsb]. by rewrite String.eqb_refl, orb_true_r. }
  unfold classify_content, binding_matches. rewrite Hb, He, Hm, !String.eqb_refl. cbn [negb]. split_and!.
  - done.
  - intros launcher'. by case_match.
  - intros l' env_file' desired launcher' legacy' Hd. destruct (marked_for (lo_state_key l') _); cbn [negb]; [|done].
    destruct (String.eqb_spec (path_str (resolve (lo_repo l))) (path_str (resolve (lo_repo l')))) as [E|]; cbn [negb]; [|done].
    destruct (String.eqb_spec (path_str (resolve env_file)) (path_str (resolve env_file'))) as [E'|]; cbn [negb]; [|done].
    destruct Hd; congruence.
Qed.
End Recognition.

(** * A concrete host *)

Record unit_host : Type := mkUnitHost {
  uh_files : list (string * string);
  uh_failing_reloads : nat;
  uh_appears : list (string * string);      (** what others write while the manager is asked *)
  uh_clock : Z
}.

Definition with_files (h : unit_host) (files : list (string * string)) : unit_host :=
  mkUnitHost files (uh_failing_reloads h) (uh_appears h) (uh_clock h).

Definition command_on (command : list string) (h : unit_host) : res command_result * unit_host :=
  match command with
  | [_; _; "show-environment"] =>
      (Ok (mkCommandResult 0 ("HOME=/home/u" +:+ LF) ""), with_files h (dmerge (uh_files h) (uh_appears h)))
  | [_; _; "daemon-reload"] =>
      match uh_failing_reloads h with
      | O => (Ok (mkCommandResult 0 "" ""), h)
      | S n => (raise PyTimeoutExpired "timed out", mkUnitHost (uh_files h) n (uh_appears h) (uh_clock h))
      end
  | _ => (Ok (mkCommandResult 0 "" ""), h)
  end.

#[export] Instance unit_world : SystemdWorld unit_host := {
  sw_exists p h := (Ok (has_key (uh_files h) (path_str p)), h);
  sw_is_dir p h := (Ok true, h);
  sw_glob p h := (Ok (map (fun kv => Path_of (fst kv)) (uh_files h)), h);
  sw_read_text p h := (match dget (uh_files h) (path_str p) with
                       | Some text => Ok text | None => raise PyFileNotFoundError "missing" end, h);
  sw_mkdir p h := (Ok tt, h);
  sw_mkstemp dir prefix suffix h := (Ok (path_child dir (prefix +:+ "x" +:+ suffix)), h);
  sw_fill p text h := (Ok tt, with_files h (dset (uh_files h) (path_str p) text));
  sw_chmod p mode h := (Ok tt, h);
  sw_replace p q h := (Ok tt, with_files h (dset (dpop (uh_files h) (path_str p)) (path_str q)
                                              (default "" (dget (uh_files h) (path_str p)))));
  sw_unlink p h := (Ok tt, with_files h (dpop (uh_files h) (path_str p)));
  sw_run command timeout := command_on command;
  sw_sleep d h := (Ok tt, mkUnitHost (uh_files h) (uh_failing_reloads h) (uh_appears h) (uh_clock h + d)%Z);
  sw_monotonic h := (Ok (uh_clock h), h);
  sw_authority l h := (Ok true, h);
  sw_ping l h := (Ok [("service", PStr "devlegate"); ("ready", PBool (100 <=? uh_clock h)%Z)], h);
  sw_resolve p := p;
  sw_isalnum c := all_bytes is_alnum c;
  sw_lower := ascii_lower;
  sw_user_unit_dir := Path_of "/home/u/.config/systemd/user"
}.

Definition systemd : SystemdSupervisor :=
  mkSupervisor (Path_of "/home/u/.config/systemd/user") (mkLaunchCommand ["/usr/bin/devlegate"]).

Definition locator_at (repo : string) : RuntimeLocator :=
  mkLocator (Path_of repo) (Path_of "/state") (sha256_hex repo) 32.

Definition project : RuntimeLocator := Eval vm_compute in locator_at "/srv/project".
Definition env_of (l : RuntimeLocator) : Path := path_child (lo_repo l) ".env".
Definition installed (h : unit_host) : res Path * unit_log unit_host :=
  install systemd project (env_of project) None false (mkUnitLog h []).

Definition empty_host : unit_host := mkUnitHost [] 0 [] 0.

Lemma project_digest : digest_key project.
Proof. split; vm_compute; reflexivity. Qed.

(** An installation whose reload of the manager failed has written its unit; the
    next one takes it for current and returns without any reload. *)
Theorem interrupted_install_never_reloads :
  let first := installed (mkUnitHost [] 1 [] 0) in
  let second := installed (ul_world first.2) in
  first.1 = raise SystemdSupervisorError "systemd user manager did not respond" /\
  (exists p, second.1 = Ok p) /\ Commanded ["daemon-reload"] ∉ ul_actions second.2.
Proof.
  split; [vm_compute; reflexivity|]. split; [eexists; vm_compute; reflexivity|].
  intros Hin. apply list_elem_of_In in Hin. revert Hin. vm_compute. intuition discriminate.
Qed.

(** A unit file that another project's installation writes while a removal asks the
    manager for its environment is removed without having been read. *)
Theorem removal_takes_appearing_unit :
  let foreign := [(path_str (path_child (su_unit_directory systemd) (unit_name project 8)), "somebody else's")] in
  let '(r, s) := remove systemd project None None false (mkUnitLog (mkUnitHost [] 0 foreign 0) []) in
  (exists p, r = Ok p /\ Unlinked p ∈ ul_actions s) /\ uh_files (ul_world s) = [] /\
  Forall (fun a => match a with ReadUnit _ _ => False | _ => True end) (ul_actions s).
Proof.
  vm_compute. split; [eexists; split; [reflexivity|]|].
  - apply list_elem_of_In. cbn. tauto.
  - split; [reflexivity|]. repeat constructor.
Qed.

Definition VT : string := bytes_of [11%N].

(** The unit rendered for a repository whose path has a line break is foreign to
    its own project, so that nothing can be installed again or removed; with a line
    feed the path adds directives of its own to the unit. *)
Theorem line_break_in_path :
  let broken := locator_at ("/srv/a" +:+ VT +:+ "b") in
  let injecting := locator_at ("/srv/a" +:+ LF +:+ "[Service]" +:+ LF +:+ "ExecStartPre=/tmp/x") in
  let render := fun l => render_unit sw_isalnum sw_resolve l (env_of l) (su_launcher systemd) in
  classify_content sw_isalnum sw_resolve broken (Some (env_of broken)) None (su_launcher systemd) true
    (render broken) = AMBIGUOUS_FOREIGN /\
  "ExecStartPre=/tmp/x" ∈ split_on (Ascii.ascii_of_N 10) (render injecting).
Proof. split; [vm_compute; reflexivity|]. apply list_elem_of_In. vm_compute. tauto. Qed.

(** * The guarantees apply *)

Lemma unit_host_advances : advances (W := unit_host) uh_clock.
Proof. split; intros; cbn in *; try lia. injection H as <-. lia. Qed.

Lemma readiness_wait_ends_witness :
  let '(r, s') := wait_ready (W := unit_host) 300 project 200 (mkUnitLog empty_host []) in
  r <> Ok None /\ (r = Ok (Some tt) -> exists w w', looks_ready (W := unit_host) project w w').
Proof. apply (readiness_wait_ends uh_clock project 300 200); [exact unit_host_advances|lia]. Defined.

Lemma install_replaces_own_unit_witness :
  let desired := render_unit (sw_isalnum (W := unit_host)) sw_resolve project (env_of project) (su_launcher systemd) in
  let '(r, s) := install systemd project (env_of project) None false (mkUnitLog empty_host []) in
  digest_key project /\
  (forall before p content after, ul_actions s = before ++ Replaced p content :: after ->
     cleared (W := unit_host) project p before /\ content = desired) /\
  (forall p, r = Ok p -> ReadUnit p desired ∈ ul_actions s \/ Replaced p desired ∈ ul_actions s).
Proof.
  pose proof (install_replaces_own_unit systemd project (env_of project) None false empty_host) as Ht.
  cbv zeta in Ht |- *. destruct (install _ _ _ _ _ _) as [r s].
  split; [exact project_digest|]. exact (Ht project_digest).
Defined.

Lemma remove_takes_own_unit_witness : digest_key project /\
  let '(r, s) := remove systemd project None None false (mkUnitLog empty_host []) in
  forall before p after, ul_actions s = before ++ Unlinked p :: after -> cleared (W := unit_host) project p before.
Proof.
  split; [exact project_digest|].
  exact (remove_takes_own_unit systemd project None None false empty_host project_digest).
Defined.

Lemma allocated_name_is_free_witness : exists name s, digest_key project /\
  allocate_unit_name systemd project (mkUnitLog empty_host []) = (Ok name, s) /\
  is_unit_name name = true /\ free_or_own project (path_child (su_unit_directory systemd) name) (ul_actions s).
Proof.
  eexists _, _. split; [exact project_digest|]. split; [vm_compute; reflexivity|].
  eapply (allocated_name_is_free (W := unit_host) systemd project _ empty_host); [exact project_digest|vm_compute; reflexivity].
Defined.

Lemma project_paths : plain_paths (fun p => p) project (env_of project).
Proof. split_and!; try reflexivity; apply literal_line; vm_compute; reflexivity. Qed.

Lemma unit_is_recognised_witness : plain_paths (fun p => p) project (env_of project) /\
  classify_content sw_isalnum (fun p => p) project (Some (env_of project)) None (su_launcher systemd) false
    (render_unit sw_isalnum (fun p => p) project (env_of project) (su_launcher systemd)) = CURRENT.
Proof.
  split; [exact project_paths|].
  exact (proj1 (unit_is_recognised (sw_isalnum (W := unit_host)) (fun p => p) project (env_of project)
                  (su_launcher systemd) false project_paths)).
Defined.
