(* ===== verification/Registry.v ===== *)
(** The registry of project aliases, [src/devlegate/project_registry.py].  The
    registry's file is the state, each operation runs under the registry's lock;
    the rest of the file system, the repositories and the environment are arguments.
    Reading back what was written, and the invariant that no two aliases name the
    same project. *)

From S2P Require Export RuntimeLocator Files.

(** * Data *)

Definition validate_alias (alias : string) : res string :=
  if is_identifier alias then Ok alias
  else raise ProjectRegistryError
         "project alias must contain only letters, digits, '-' or '_' and must not be empty".

Definition REGISTRY_VERSION : Z := 1.

Abbreviation aliases := (list (string * string)).

(** The registry's file; a write raises, or replaces the text in one step. *)
Record registry_file : Type := mkRegistryFile {
  rf_path : Path;
  rf_text : option string;
  rf_refuses : option exn
}.

Record ProjectTarget : Type := mkTarget {
  pt_alias : string;
  pt_env_file : Path;
  pt_repo : Path;
  pt_locator : RuntimeLocator
}.

(** * Reading and writing *)

(** [path.read_text(encoding="utf-8")] of these bytes *)
Definition decode_text (bytes : string) : res string :=
  if valid_utf8 bytes then Ok (universal_newlines bytes) else raise PyUnicodeError "invalid start byte".

Section Registry.
(** The text of [json.JSONDecodeError]. *)
Variable json_error : string -> string.

Definition corrupt {A} (path : Path) : res A :=
  raise ProjectRegistryError ("corrupt project registry " +:+ path_str path).

Definition registry_entry (path : Path) (result : aliases) (item : string * pyval) : res aliases :=
  match item.2 with
  | PDict entry =>
      _ ← validate_alias item.1;
      match get entry "env" with
      | PStr env =>
          if (env =? "")%string || negb (is_absolute (Path_of env)) then corrupt path
          else Ok (dset result item.1 env)
      | _ => corrupt path
      end
  | _ => corrupt path
  end.

(** [_read_registry]; an unreadable file is one whose text is not UTF-8 *)
Definition _read_registry (file : registry_file) : res aliases :=
  match rf_text file with
  | None => Ok []
  | Some bytes =>
      text ← decode_text bytes;
      match loads text with
      | None => raise ProjectRegistryError ("cannot read project registry " +:+ path_str (rf_path file) +:+
                                            ": " +:+ json_error text)
      | Some (PDict value) =>
          if negb (py_eq (get value "version") (PInt REGISTRY_VERSION))
          then raise ProjectRegistryError ("unsupported or corrupt project registry " +:+ path_str (rf_path file))
          else
          match get value "projects" with
          | PDict projects => res_fold (registry_entry (rf_path file)) [] projects
          | _ => corrupt (rf_path file)
          end
      | Some _ => raise ProjectRegistryError ("unsupported or corrupt project registry " +:+ path_str (rf_path file))
      end
  end.

Definition registry_value (projects : aliases) : pyval :=
  PDict [("version", PInt REGISTRY_VERSION);
         ("projects", PDict (map (fun alias => (alias, PDict [("env", PStr (default "" (dget projects alias)))]))
                               (py_sorted (keys projects))))].

Definition _serialize (projects : aliases) : string := dumps indent_style (registry_value projects) +:+ LF.

Abbreviation M := (py registry_file).

Definition _atomic_write (content : string) : M unit := fun file =>
  match rf_refuses file with
  | Some e => (Raise e, file)
  | None => (Ok tt, mkRegistryFile (rf_path file) (Some content) None)
  end.

Definition read_projects : M aliases := fun file => (_read_registry file, file).

(** * Projects *)

Variable resolve expanduser : Path -> Path.
Variable home : Path.
Variable environ : list (string * string).
Variable isalnum : string -> bool.
(** The text of a file, where there is a regular one. *)
Variable env_text : Path -> option (res string).
(** [git rev-parse --show-toplevel] in a directory. *)
Variable toplevel : Path -> CompletedProcess.

Definition canonical_env_path (p : Path) : Path := resolve (expanduser p).

Definition is_file (p : Path) : bool := match env_text p with Some _ => true | None => false end.

(** [except RuntimeLocatorError] *)
Definition is_locator_error (e : exn) : bool :=
  is_class RuntimeLocatorError e || is_class RuntimeAuthorityPresent e.

Definition repository_root_for_env (env_file : Path) : res Path :=
  repository_root resolve (path_parent env_file) toplevel.

Definition _resolve_runtime (env_file : Path) : res (Path * RuntimeLocator) :=
  catch
    (repo ← repository_root_for_env env_file;
     let expected := path_child repo ".env" in
     if negb (bool_decide (env_file = expected))
     then raise ProjectRegistryError ("project configuration must be " +:+ path_str expected +:+ ", not " +:+
                                      path_str env_file)
     else
     locator ← from_env resolve expanduser home environ isalnum env_file (env_text env_file) (Some repo) toplevel;
     Ok (repo, locator))
    is_locator_error (fun e => raise ProjectRegistryError (exn_msg e)).

Definition is_registry_error (e : exn) : bool := is_class ProjectRegistryError e.

(** One registered project against the one to register. *)
Definition check_registered (alias : string) (env repo : Path) (item : string * string) : res unit :=
  if (item.1 =? alias)%string then Ok tt
  else
  let registered_path := canonical_env_path (Path_of item.2) in
  if bool_decide (registered_path = env)
  then raise ProjectRegistryError ("project is already registered as @" +:+ item.1)
  else
  match _resolve_runtime registered_path with
  | Ok (registered_repo, _) =>
      if bool_decide (registered_repo = repo)
      then raise ProjectRegistryError ("repository is already registered as @" +:+ item.1 +:+
             "; canonical configuration is " +:+ path_str (path_child repo ".env"))
      else Ok tt
  | Raise e =>
      if negb (is_registry_error e) then Raise e
      else if is_file registered_path
      then raise ProjectRegistryError ("cannot validate existing project @" +:+ item.1 +:+ ": " +:+
                                       path_str registered_path)
      else Ok tt
  end.

Definition check_registry (alias : string) (env repo : Path) (projects : aliases) : res unit :=
  _ ← match dget projects alias with
      | Some existing =>
          ensure (bool_decide (canonical_env_path (Path_of existing) = env)) ProjectRegistryError
            ("project alias @" +:+ alias +:+ " is already registered for " +:+ existing)
      | None => Ok tt
      end;
  _ ← res_map (check_registered alias env repo) projects;
  Ok tt.

Definition register (alias : string) (env_file : Path) : M ProjectTarget :=
  _ ← py_lift (validate_alias alias);
  let env := canonical_env_path env_file in
  _ ← py_ensure (is_file env) ProjectRegistryError ("configuration file not found: " +:+ path_str env);
  located ← py_lift (_resolve_runtime env);
  projects ← read_projects;
  _ ← py_lift (check_registry alias env located.1 projects);
  _ ← _atomic_write (_serialize (dset projects alias (path_str env)));
  mret (mkTarget alias env located.1 located.2).

Definition unknown_alias {A} (alias : string) : res A :=
  raise ProjectRegistryError ("unknown project alias @" +:+ alias).

Definition rename (old new : string) : M unit :=
  _ ← py_lift (validate_alias old);
  _ ← py_lift (validate_alias new);
  projects ← read_projects;
  match dget projects old with
  | None => py_lift (unknown_alias old)
  | Some env =>
      if has_key projects new
      then py_raise ProjectRegistryError ("project alias @" +:+ new +:+ " is already registered")
      else _atomic_write (_serialize (dset (dpop projects old) new env))
  end.

Definition unregister (alias : string) (expected_env : Path) : M unit :=
  _ ← py_lift (validate_alias alias);
  let expected := canonical_env_path expected_env in
  projects ← read_projects;
  match dget projects alias with
  | None => py_lift (unknown_alias alias)
  | Some current =>
      if negb (bool_decide (canonical_env_path (Path_of current) = expected))
      then py_raise ProjectRegistryError ("project alias @" +:+ alias +:+ " no longer refers to " +:+ path_str expected)
      else _atomic_write (_serialize (dpop projects alias))
  end.

Definition target_for_alias (alias : string) : M ProjectTarget :=
  _ ← py_lift (validate_alias alias);
  projects ← read_projects;
  match dget projects alias with
  | None => py_lift (unknown_alias alias)
  | Some env_value =>
      let env := canonical_env_path (Path_of env_value) in
      _ ← py_ensure (is_file env) ProjectRegistryError
            ("project alias @" +:+ alias +:+ " points to missing configuration: " +:+ path_str env);
      located ← py_lift (_resolve_runtime env);
      mret (mkTarget alias env located.1 located.2)
  end.

Definition alias_for_env (env_file : Path) : M (option string) :=
  let env := canonical_env_path env_file in
  root ← py_lift (catch (Some <$> repository_root_for_env env) is_locator_error (fun _ => Ok None));
  match root with
  | None => mret None
  | Some repo =>
      if negb (bool_decide (env = path_child repo ".env")) then mret None
      else
      projects ← read_projects;
      mret (fst <$> List.find (fun item => bool_decide (canonical_env_path (Path_of item.2) = env)) projects)
  end.

(** * Reading back *)

(** What may stand in the registry. *)
Definition registrable (item : string * string) : Prop :=
  is_identifier item.1 = true /\ utf8_text item.2 /\ item.2 <> "" /\ is_absolute (Path_of item.2) = true.

Definition registry_ok (projects : aliases) : Prop := NoDup (keys projects) /\ Forall registrable projects.

Lemma identifier_ascii s : is_identifier s = true -> ascii_text s = true.
Proof.
  assert (forall s, all_bytes (fun d => is_alnum d || (byte_val d =? 95)%N || (byte_val d =? 45)%N) s = true ->
                    ascii_text s = true) as Ht.
  { clear s. intros s. induction s as [|c s IH]; [done|]. intros Hs. cbn in Hs |- *.
    apply andb_true_iff in Hs as [Hc Hs]. unfold ascii_text in IH. rewrite IH by done. rewrite andb_true_r.
    apply N.ltb_lt. unfold is_alnum, is_digit, is_upper, is_lower, byte_in in Hc.
    repeat (apply orb_true_iff in Hc as [Hc|Hc]); try (apply andb_true_iff in Hc as [_ Hc]; apply N.leb_le in Hc);
      try apply N.eqb_eq in Hc; lia. }
  destruct s as [|c s]; [done|]. unfold is_identifier. intros Hs. apply Ht. cbn.
  apply andb_true_iff in Hs as [-> ->]. done.
Qed.

Definition entry_of (item : string * string) : string * pyval := (item.1, PDict [("env", PStr item.2)]).

Lemma registry_entries projects : NoDup (keys projects) ->
  map (fun alias => (alias, PDict [("env", PStr (default "" (dget projects alias)))])) (py_sorted (keys projects))
    ≡ₚ map entry_of projects.
Proof.
  intros Hn. rewrite py_sorted_perm. unfold keys. rewrite map_map.
  replace (map entry_of projects) with
    (map (fun x : string * string => (x.1, PDict [("env", PStr (default "" (dget projects x.1)))])) projects); [done|].
  apply map_ext_in. intros [k v] Hin. unfold entry_of. cbn.
  rewrite (elem_dget projects k v); [done|done|]. by apply list_elem_of_In.
Qed.

Lemma entry_read path acc k v : registrable (k, v) -> registry_entry path acc (entry_of (k, v)) = Ok (dset acc k v).
Proof.
  intros (Hi & _ & He & Ha). cbn in Hi, He, Ha. unfold registry_entry, entry_of, validate_alias, get, get_or. cbn.
  rewrite Hi. cbn. by rewrite (proj2 (String.eqb_neq v "") He), Ha.
Qed.

Lemma dset_append {V} (d : list (string * V)) k v : k ∉ keys d -> dset d k v = d ++ [(k, v)].
Proof.
  induction d as [|[k' v'] d IH]; [done|]. intros Hk. cbn. cbn in Hk. apply not_elem_of_cons in Hk as [Hne Hk].
  rewrite (proj2 (String.eqb_neq _ _)) by congruence. by rewrite IH.
Qed.

Lemma fold_entries path items acc : Forall registrable items -> NoDup (keys (acc ++ items)) ->
  res_fold (registry_entry path) acc (map entry_of items) = Ok (acc ++ items).
Proof.
  revert acc. induction items as [|[k v] items IH]; intros acc Hf Hn; cbn [map res_fold]; [by rewrite app_nil_r|].
  apply Forall_cons in Hf as [Hi Hf]. rewrite entry_read by done. cbn [mbind res_bind]. rewrite dset_append.
  - rewrite IH; [by rewrite <- app_assoc|done|by rewrite <- app_assoc].
  - unfold keys in *. rewrite map_app in Hn. apply NoDup_app in Hn as (_ & Hn & _). intros Hk. apply (Hn k Hk). by left.
Qed.

Lemma serialized_ok projects : registry_ok projects -> json_ok (registry_value projects).
Proof.
  intros [Hn Hf]. cbn. split; [by apply (bool_decide_unpack _); vm_compute|].
  split; [apply ascii_utf8; reflexivity|]. split; [done|]. split; [apply ascii_utf8; reflexivity|]. split; [|done].
  set (E := map _ _). assert (keys E = py_sorted (keys projects)) as Hk.
  { subst E. unfold keys. rewrite map_map. cbn. by rewrite map_id. }
  split; [rewrite Hk, py_sorted_perm; done|].
  assert (Forall (fun kv : string * pyval => utf8_text kv.1 /\ json_ok kv.2) E) as HE.
  { assert (E ≡ₚ map entry_of projects) as HP by exact (registry_entries projects Hn). rewrite HP.
    apply Forall_forall. intros x Hx. apply list_elem_of_fmap in Hx as ([k v] & -> & Hin).
    rewrite Forall_forall in Hf. destruct (Hf _ Hin) as (Hi & Hu & _). cbn in *.
    split; [by apply ascii_utf8, identifier_ascii|]. split; [by apply NoDup_singleton|].
    split; [apply ascii_utf8; reflexivity|]. by split. }
  clear Hk. induction HE as [|x E [? ?] _ IH]; [done|]. by split_and!.
Qed.

(** What is written of well-formed projects is read back as the same projects. *)
Theorem registry_reads_back file projects : registry_ok projects ->
  exists projects', _read_registry (mkRegistryFile file (Some (_serialize projects)) None) = Ok projects' /\
    projects' ≡ₚ projects.
Proof.
  intros Hok. pose proof (serialized_ok _ Hok) as Hj. destruct Hok as [Hn Hf].
  assert (decode_text (_serialize projects) = Ok (_serialize projects)) as Hd.
  { unfold decode_text, _serialize.
    assert (valid_utf8 (dumps indent_style (registry_value projects) +:+ LF) = true) as ->.
    { apply valid_utf8_spec, utf8_text_app; [|apply ascii_utf8; reflexivity].
      apply dump_utf8; [apply ascii_utf8; reflexivity..|done]. }
    rewrite universal_newlines_id; [done|]. apply no_cr_contains. rewrite no_cr_app. unfold dumps.
    by rewrite dump_no_cr. }
  unfold _read_registry. cbn [rf_text rf_path]. rewrite Hd. cbn [mbind res_bind].
  unfold _serialize. rewrite loads_dumps; [|by exists "", " "|done|done|done].
  set (E := map (fun alias => (alias, PDict [("env", PStr (default "" (dget projects alias)))])) (py_sorted (keys projects))).
  assert (E ≡ₚ map entry_of projects) as HP by exact (registry_entries projects Hn).
  assert (canon (registry_value projects) = PDict [("projects", canon (PDict E)); ("version", PInt REGISTRY_VERSION)]) as ->.
  { reflexivity. }
  assert (sorted_by fst (map (fun kv => (kv.1, canon kv.2)) E) ≡ₚ map entry_of projects) as HS.
  { rewrite sorted_by_perm, HP. rewrite map_map. by apply reflexive_eq, map_ext. }
  apply Permutation_map_inv in HS as (projects' & HS & Hperm).
  change (canon (PDict E)) with (PDict (sorted_by fst (map (fun kv => (kv.1, canon kv.2)) E))). rewrite HS.
  exists projects'. split; [|by symmetry].
  change (res_fold (registry_entry file) [] (map entry_of projects') = Ok projects').
  apply (fold_entries file projects' []).
  - by rewrite <- Hperm.
  - cbn [app]. unfold keys in *. by rewrite <- Hperm.
Qed.

(** A registry that is not UTF-8 is refused with an error that is no registry error:
    [json.JSONDecodeError] and [OSError] are caught, [UnicodeDecodeError] is not. *)
Theorem undecodable_registry_escapes path refuses bytes alias : valid_utf8 bytes = false -> is_identifier alias = true ->
  exists e, (target_for_alias alias (mkRegistryFile path (Some bytes) refuses)).1 = Raise e /\
    is_registry_error e = false.
Proof.
  intros Hv Ha. exists (Exn PyUnicodeError "invalid start byte"). split; [|done].
  unfold target_for_alias, validate_alias. rewrite Ha. run. cbv beta iota. rewrite py_bind_run.
  unfold read_projects, _read_registry, decode_text. cbn [rf_text]. by rewrite Hv.
Qed.

(** * No two aliases of one project *)

(** The configuration an alias leads to. *)
Definition leads_to (item : string * string) : Path := canonical_env_path (Path_of item.2).

Definition injective_registry (projects : aliases) : Prop := NoDup (map leads_to projects).

Definition holds (inv : aliases -> Prop) (file : registry_file) : Prop :=
  exists projects, _read_registry file = Ok projects /\ registry_ok projects /\ inv projects.

(** Resolved paths, as the operating system gives them: absolute, and resolved
    already. *)
Record resolves : Prop := {
  rs_absolute : forall p, is_absolute (Path_of (path_str (canonical_env_path p))) = true;
  rs_again : forall p, canonical_env_path (Path_of (path_str (canonical_env_path p))) = canonical_env_path p;
  rs_text : forall p, utf8_text (path_str (canonical_env_path p))
}.

Lemma injective_perm p q : p ≡ₚ q -> injective_registry p -> injective_registry q.
Proof. unfold injective_registry. intros Hp. by rewrite Hp. Qed.

Lemma ok_perm p q : p ≡ₚ q -> registry_ok p -> registry_ok q.
Proof. unfold registry_ok, keys. intros Hp. by rewrite Hp. Qed.

(** A write keeps the invariant when what it writes has it. *)
Lemma write_holds projects file r file' : registry_ok projects -> injective_registry projects ->
  holds injective_registry file -> _atomic_write (_serialize projects) file = (r, file') ->
  holds injective_registry file'.
Proof.
  intros Hok Hi Hh. unfold _atomic_write. destruct (rf_refuses file); intros [= <- <-]; [done|].
  destruct (registry_reads_back (rf_path file) projects Hok) as (projects' & Hr & Hp).
  exists projects'. split; [done|]. split; [by eapply ok_perm|]. by eapply injective_perm.
Qed.

Lemma checked_others alias env repo projects : check_registry alias env repo projects = Ok tt ->
  (forall v, dget projects alias = Some v -> leads_to (alias, v) = env) /\
  (forall item, item ∈ projects -> item.1 <> alias -> leads_to item <> env).
Proof.
  unfold check_registry. intros Hc. apply res_bind_ok in Hc as ([] & Ha & Hc). apply res_bind_ok in Hc as (us & Hm & _).
  split.
  - intros v Hv. rewrite Hv in Ha. apply ensure_ok in Ha. by apply bool_decide_eq_true in Ha.
  - intros item Hin Hne. destruct (res_map_each _ _ _ _ Hm Hin) as (u & Hu & _).
    unfold check_registered in Hu. rewrite (proj2 (String.eqb_neq _ _) Hne) in Hu. cbv zeta in Hu.
    destruct (bool_decide_reflect (canonical_env_path (Path_of item.2) = env)) as [|Hd]; [done|exact Hd].
Qed.

Lemma leads_dset (d : aliases) k v : NoDup (keys d) -> injective_registry d ->
  (forall item, item ∈ d -> item.1 <> k -> leads_to item <> leads_to (k, v)) -> injective_registry (dset d k v).
Proof.
  unfold injective_registry. induction d as [|[k' v'] d IH]; intros Hn Hi Ho; [by apply NoDup_singleton|].
  cbn [keys map] in Hn, Hi. apply NoDup_cons in Hn as [Hk Hn]. apply NoDup_cons in Hi as [Hl Hi]. cbn [dset].
  destruct (String.eqb_spec k' k) as [->|Hne]; cbn [map].
  - apply NoDup_cons. split; [|done]. intros Hin. apply list_elem_of_fmap in Hin as (item & Heq & Hin).
    apply (Ho item); [by right| |by symmetry]. intros E. apply Hk. apply list_elem_of_fmap. exists item. by rewrite E.
  - apply NoDup_cons. split.
    + intros Hin. apply list_elem_of_fmap in Hin as (item & Heq & Hin).
      assert (item = (k, v) \/ item ∈ d) as [->|Hd].
      { clear -Hin. induction d as [|[k0 v0] d IH]; cbn [dset] in Hin; [left; by apply list_elem_of_singleton in Hin|].
        destruct (String.eqb_spec k0 k) as [->|]; apply elem_of_cons in Hin as [->|Hin].
        - by left.
        - right. by right.
        - right. by left.
        - destruct (IH Hin); [by left|right; by right]. }
      * apply (Ho (k', v')); [by left|cbn; congruence|done].
      * apply Hl, list_elem_of_fmap. by exists item.
    + apply IH; [done|done|]. intros item Hin. apply Ho. by right.
Qed.

Lemma ok_dset (d : aliases) k v : registry_ok d -> registrable (k, v) -> registry_ok (dset d k v).
Proof.
  intros [Hn Hf] Hr. split; [by apply NoDup_dset|]. clear Hn.
  induction Hf as [|[k' v'] d Hx Hf IH]; [by constructor|]. cbn [dset].
  destruct (String.eqb_spec k' k) as [->|]; by constructor.
Qed.

Lemma dpop_sublist {V} (d : list (string * V)) k : sublist (dpop d k) d.
Proof. induction d as [|[k' v'] d IH]; [done|]. cbn. destruct (_ =? _)%string; by constructor. Qed.

Lemma ok_dpop (d : aliases) k : registry_ok d -> registry_ok (dpop d k).
Proof.
  intros [Hn Hf]. split; [by apply NoDup_dpop|]. apply Forall_forall. intros x Hx.
  apply (proj1 (Forall_forall _ _) Hf). eapply elem_of_sublist; [exact Hx|apply dpop_sublist].
Qed.

Lemma injective_dpop (d : aliases) k : injective_registry d -> injective_registry (dpop d k).
Proof. unfold injective_registry. intros Hi. eapply sublist_NoDup; [exact Hi|].
  apply (fmap_sublist leads_to), dpop_sublist. Qed.

Lemma held_project (d : aliases) k v : registry_ok d -> dget d k = Some v -> registrable (k, v).
Proof. intros [_ Hf] Hd. apply dget_elem in Hd. by apply (proj1 (Forall_forall _ _) Hf). Qed.

(** ** Histories *)

Inductive operation : Type :=
  | Register (alias : string) (env_file : Path)
  | Rename (old new : string)
  | Unregister (alias : string) (expected_env : Path).

(** One operation, while the file system accepts or refuses the write. *)
Definition perform (file : registry_file) (call : option exn * operation) : registry_file :=
  let file := mkRegistryFile (rf_path file) (rf_text file) call.1 in
  match call.2 with
  | Register alias env_file => (register alias env_file file).2
  | Rename old new => (rename old new file).2
  | Unregister alias expected_env => (unregister alias expected_env file).2
  end.

Lemma register_holds file alias env_file : resolves -> holds injective_registry file ->
  holds injective_registry (register alias env_file file).2.
Proof.
  intros Hr Hh. pose proof Hh as (ps & Hread & Hok & Hinj).
  unfold register. run. destruct (validate_alias alias) as [a|e] eqn:Ea; [|done]. cbn [fst snd].
  unfold validate_alias in Ea. destruct (is_identifier alias) eqn:Hid; [|done]. clear Ea.
  cbv zeta. run. destruct (is_file _); [|done]. destruct (_resolve_runtime _) as [[repo locator]|e]; [|done].
  run. cbv beta iota. run. unfold read_projects. rewrite Hread. run. cbn [fst snd].
  destruct (check_registry alias (canonical_env_path env_file) repo ps) as [[]|e] eqn:Ec; [|done]. run.
  apply checked_others in Ec as [_ Ho].
  destruct (_atomic_write _ file) as [[[]|e] file'] eqn:Ew; cbn [fst snd mret py_ret].
  all: (eapply write_holds; [| |exact Hh|exact Ew]).
  1, 3: apply ok_dset; [done|]; split; [done|]; split; [apply (rs_text Hr)|]; split; [|apply (rs_absolute Hr)];
    intros E; pose proof (rs_absolute Hr env_file) as Ha; cbn [snd] in E; by rewrite E in Ha.
  all: apply leads_dset; [by destruct Hok|done|]; intros item Hin Hne; unfold leads_to at 2; cbn [snd];
    rewrite (rs_again Hr); by apply Ho.
Qed.

(** In an injective registry only the alias itself leads where it leads. *)
Lemma leads_once ps item other : injective_registry ps -> item ∈ ps -> other ∈ ps -> leads_to item = leads_to other ->
  item = other.
Proof.
  unfold injective_registry. intros Hi Hx Hy E. apply list_elem_of_lookup in Hx as [i Hx].
  apply list_elem_of_lookup in Hy as [j Hy]. rewrite NoDup_alt in Hi.
  assert (i = j) as ->; [|congruence]. apply (Hi i j (leads_to item));
    change (map leads_to ps) with (leads_to <$> ps); rewrite list_lookup_fmap.
  - by rewrite Hx.
  - rewrite Hy. cbn. by rewrite E.
Qed.

Lemma rename_holds file old new : holds injective_registry file ->
  holds injective_registry (rename old new file).2.
Proof.
  intros Hh. pose proof Hh as (ps & Hread & Hok & Hinj).
  unfold rename. run. destruct (validate_alias old) as [a|e]; [|done]. run.
  destruct (validate_alias new) as [b|e] eqn:Ea; [|done]. unfold validate_alias in Ea.
  destruct (is_identifier new) eqn:Hid; [|done]. run. unfold read_projects. rewrite Hread.
  destruct (dget ps old) as [env|] eqn:Eo; [|done]. destruct (has_key ps new) eqn:En; [done|].
  destruct (_atomic_write _ file) as [r file'] eqn:Ew. cbn [snd]. eapply write_holds; [| |exact Hh|exact Ew].
  - apply ok_dset; [by apply ok_dpop|]. destruct (held_project _ _ _ Hok Eo) as (_ & ? & ? & ?). by split_and!.
  - apply leads_dset; [by apply NoDup_dpop; destruct Hok|by apply injective_dpop|].
    intros item Hin Hne E. pose proof (elem_of_sublist _ _ _ Hin (dpop_sublist ps old)) as Hp.
    apply dget_elem in Eo. assert (item = (old, env)) as -> by exact (leads_once _ _ (old, env) Hinj Hp Eo E).
    destruct Hok as [Hnd _]. pose proof (dget_dpop_eq ps old Hnd) as Hg.
    assert (NoDup (keys (dpop ps old))) as Hnp by (by apply NoDup_dpop).
    by rewrite (elem_dget _ _ _ Hnp Hin) in Hg.
Qed.

Lemma unregister_holds file alias env_file : holds injective_registry file ->
  holds injective_registry (unregister alias env_file file).2.
Proof.
  intros Hh. pose proof Hh as (ps & Hread & Hok & Hinj).
  unfold unregister. run. destruct (validate_alias alias) as [a|e]; [|done]. run. unfold read_projects. rewrite Hread.
  destruct (dget ps alias) as [env|]; [|done]. destruct (negb _); [done|].
  destruct (_atomic_write _ file) as [r file'] eqn:Ew. cbn [snd]. eapply write_holds; [| |exact Hh|exact Ew].
  - by apply ok_dpop.
  - by apply injective_dpop.
Qed.

Lemma perform_holds file call : resolves -> holds injective_registry file ->
  holds injective_registry (perform file call).
Proof.
  intros Hr (ps & Hps). unfold perform.
  assert (holds injective_registry (mkRegistryFile (rf_path file) (rf_text file) call.1)) by (by exists ps).
  destruct call.2; [by apply register_holds|by apply rename_holds|by apply unregister_holds].
Qed.

Lemma fresh_holds path refuses : holds injective_registry (mkRegistryFile path None refuses).
Proof. exists []. split; [done|]. split; [by split; constructor|]. constructor. Qed.

Lemma located_env p repo locator : _resolve_runtime p = Ok (repo, locator) -> p = path_child repo ".env".
Proof.
  unfold _resolve_runtime, catch. destruct (repository_root_for_env p) as [root|e].
  2: { cbn [mbind res_bind]. by destruct (is_locator_error e). }
  cbn [mbind res_bind]. case_bool_decide as E; cbn [negb].
  - destruct (from_env _ _ _ _ _ _ _ _ _) as [l|e]; cbn [mbind res_bind]; [|by destruct (is_locator_error e)].
    by intros [= <- <-].
  - cbn. done.
Qed.

Lemma target_held alias file target file' : (target_for_alias alias file) = (Ok target, file') ->
  exists projects v, _read_registry file = Ok projects /\ dget projects alias = Some v /\
    pt_env_file target = leads_to (alias, v) /\ pt_env_file target = path_child (pt_repo target) ".env".
Proof.
  unfold target_for_alias. run. destruct (validate_alias alias); [|done]. run. unfold read_projects.
  destruct (_read_registry file) as [projects|e]; [|done]. destruct (dget projects alias) as [v|] eqn:Ev; [|done].
  cbv zeta. run. destruct (is_file _); [|done].
  destruct (_resolve_runtime _) as [[repo locator]|e] eqn:Er; [|done]. intros [= <- <-]. cbn [pt_env_file pt_repo].
  exists projects, v. split_and!; [done|done|done|]. by apply located_env in Er.
Qed.

(** C40: In every registry that registrations, renamings and removals make, whichever of
    them fail, two aliases that can be used name two repositories. *)
Theorem aliases_name_projects path calls a b target_a target_b : resolves ->
  let file := foldl perform (mkRegistryFile path None None) calls in
  (target_for_alias a file).1 = Ok target_a -> (target_for_alias b file).1 = Ok target_b -> a <> b ->
  pt_repo target_a <> pt_repo target_b.
Proof.
  intros Hr. assert (forall file, holds injective_registry file -> holds injective_registry (foldl perform file calls)) as Hc.
  { induction calls as [|call calls IH]; intros file Hf; [done|]. cbn [foldl]. by apply IH, perform_holds. }
  specialize (Hc _ (fresh_holds path None)). cbv zeta. revert Hc. generalize (foldl perform (mkRegistryFile path None None) calls).
  intros file (ps & Hread & [Hn _] & Hinj) Ha Hb Hne Erepo.
  destruct (target_for_alias a file) as [ra fa] eqn:Ea. cbn in Ha. subst ra.
  destruct (target_for_alias b file) as [rb fb] eqn:Eb. cbn in Hb. subst rb.
  apply target_held in Ea as (pa & va & Hpa & Hda & Hla & Hea). apply target_held in Eb as (pb & vb & Hpb & Hdb & Hlb & Heb).
  rewrite Hread in Hpa, Hpb. injection Hpa as <-. injection Hpb as <-.
  apply dget_elem in Hda, Hdb. apply Hne.
  pose proof (leads_once _ (a, va) (b, vb) Hinj Hda Hdb ltac:(congruence)) as E. by injection E.
Qed.
End Registry.

(** * Two projects *)

(** Paths that are absolute already are their own resolution here. *)
Definition sample_resolve (p : Path) : Path :=
  if is_absolute p && bool_decide (Path_of (path_str p) = p) && valid_utf8 (path_str p) then p else Path_of "/".

Lemma sample_resolves : resolves sample_resolve (fun p => p).
Proof.
  assert (forall p, is_absolute (sample_resolve p) = true /\ Path_of (path_str (sample_resolve p)) = sample_resolve p /\
                    valid_utf8 (path_str (sample_resolve p)) = true) as Hs.
  { intros p. unfold sample_resolve. destruct (is_absolute p) eqn:Ha; [|by split_and!].
    destruct (bool_decide_reflect (Path_of (path_str p) = p)) as [E|]; [|by split_and!].
    destruct (valid_utf8 (path_str p)) eqn:Hv; [by split_and!|by split_and!]. }
  split; unfold canonical_env_path.
  - intros p. destruct (Hs p) as (Ha & -> & _). exact Ha.
  - intros p. destruct (Hs p) as (Ha & Hp & Hv). rewrite Hp. unfold sample_resolve at 1.
    rewrite Ha, Hv, (bool_decide_eq_true_2 _ Hp). done.
  - intros p. apply valid_utf8_spec, Hs.
Qed.

Definition sample_text (p : Path) : option (res string) :=
  if bool_decide (p = Path_of "/srv/a/.env") || bool_decide (p = Path_of "/srv/b/.env") then Some (Ok "") else None.

Definition sample_toplevel (p : Path) : CompletedProcess := mkProc 0 (path_str p +:+ LF) "".

Definition sample_calls : list (option exn * operation) :=
  [(None, Register "a" (Path_of "/srv/a/.env")); (None, Register "b" (Path_of "/srv/b/.env"));
   (None, Register "c" (Path_of "/srv/b/.env")); (None, Rename "a" "first");
   (Some (Exn PyOSError "disk is full"), Unregister "b" (Path_of "/srv/b/.env"))].

Abbreviation sample_perform := (perform (fun e => e) sample_resolve (fun p => p) (Path_of "/home/u") [] (fun _ => true)
  sample_text sample_toplevel).
Abbreviation sample_target := (target_for_alias (fun e => e) sample_resolve (fun p => p) (Path_of "/home/u") []
  (fun _ => true) sample_text sample_toplevel).

Lemma aliases_name_projects_witness :
  let file := foldl sample_perform (mkRegistryFile (Path_of "/home/u/projects.json") None None) sample_calls in
  exists target_a target_b, (sample_target "first" file).1 = Ok target_a /\ (sample_target "b" file).1 = Ok target_b /\
    pt_repo target_a <> pt_repo target_b.
Proof.
  cbv zeta. eexists _, _. assert (forall (a b : Prop), a -> (a -> b) -> a /\ b) as Hand by tauto.
  apply Hand; [vm_compute; reflexivity|]. intros Ha. apply Hand; [vm_compute; reflexivity|]. intros Hb.
  eapply (aliases_name_projects (fun e => e) sample_resolve (fun p => p) (Path_of "/home/u") [] (fun _ => true) sample_text
            sample_toplevel (Path_of "/home/u/projects.json") sample_calls "first" "b" _ _ sample_resolves Ha Hb).
  discriminate.
Defined.
