(* ===== verification/LogReader.v ===== *)
(** The operator's view of the logs, [src/devlegate/log_reader.py]: the last records of
    a file read backwards in chunks, the resolution of an execution from a prefix, the
    logs of a ticket and the following of an execution until its report.  The store, the
    reports, the files, the terminal and the clock are operations of a world. *)

From S2P Require Export WorkerSupervisor.

(** * The last records of a file *)

Abbreviation bytes := (list Ascii.ascii).

Definition is_lf (c : Ascii.ascii) : bool := (byte_val c =? 10)%N.
Definition is_cr (c : Ascii.ascii) : bool := (byte_val c =? 13)%N.

(** [content.splitlines(keepends=True)] of bytes *)
Fixpoint byte_lines (acc : bytes) (content : bytes) : list bytes :=
  match content with
  | [] => if decide (acc = []) then [] else [rev acc]
  | c :: rest =>
      if is_lf c then rev (c :: acc) :: byte_lines [] rest
      else if is_cr c
      then match rest with
           | d :: rest' => if is_lf d then rev (d :: c :: acc) :: byte_lines [] rest'
                           else rev (c :: acc) :: byte_lines [] rest
           | [] => [rev (c :: acc)]
           end
      else byte_lines (c :: acc) rest
  end.

Definition splitlines_bytes (content : bytes) : list bytes := byte_lines [] content.

(** [chunk.count(b"\n")] *)
Definition count_lf (content : bytes) : nat := length (List.filter is_lf content).

Definition CHUNK : nat := N.to_nat 8192.

Section Tail.
Variable content : bytes.

Definition read_at (position size : nat) : bytes := take size (drop position content).

(** [handle.seek(-1, 2); handle.read(1) == b"\n"] *)
Definition ends_with_newline : bool :=
  match read_at (length content - 1) 1 with [c] => is_lf c | _ => false end.

(** The loop over the chunks, the last one first; every pass moves the position. *)
Fixpoint read_chunks (fuel position newline_count required_newlines : nat) (chunks : list bytes) : list bytes :=
  match fuel with
  | 0 => chunks
  | S fuel =>
      if negb (position =? 0)%nat && (newline_count <? required_newlines)%nat
      then
        let chunk_size := Nat.min CHUNK position in
        let chunk := read_at (position - chunk_size) chunk_size in
        read_chunks fuel (position - chunk_size) (newline_count + count_lf chunk) required_newlines
          (chunks ++ [chunk])
      else chunks
  end.

(** [content[-n:]] for a positive [n] *)
Definition last_n {A} (n : nat) (l : list A) : list A := drop (length l - n) l.

Definition tail_records (lines : nat) : list bytes :=
  if (length content =? 0)%nat then []
  else
  let required_newlines := lines + (if ends_with_newline then 1 else 0) in
  last_n lines
    (splitlines_bytes (List.concat (rev (read_chunks (length content) (length content) 0 required_newlines [])))).
End Tail.

Definition _lines (value : Z) : res Z :=
  if (value <? 0)%Z then raise LogReaderError "--lines must be a non-negative integer" else Ok value.

(** [record.decode("utf-8")] *)
Definition decode_record (record : bytes) : res string :=
  let text := String.string_of_list_ascii record in
  if valid_utf8 text then Ok text else raise PyUnicodeError "invalid start byte".

Definition is_unreadable (e : exn) : bool := is_os_error e || is_class PyUnicodeError e.

(** [_read_file]; the file is there when it is a regular one, and reads or not. *)
Definition _read_file (path : Path) (file : option (res bytes)) (lines : Z) : res (list string) :=
  lines ← _lines lines;
  match file with
  | None => raise LogReaderError ("execution log not found: " +:+ path_str path)
  | Some content =>
      if (lines =? 0)%Z then Ok []
      else
      catch
        (content ← content;
         res_map decode_record (tail_records content (Z.to_nat lines)))
        is_unreadable
        (fun e => raise LogReaderError ("cannot read execution log " +:+ path_str path +:+ ": " +:+ exn_msg e))
  end.

(** * The records of a suffix *)

Lemma byte_lines_lf acc a t : byte_lines acc (a ++ [Ascii.ascii_of_N 10] ++ t) =
  byte_lines acc (a ++ [Ascii.ascii_of_N 10]) ++ byte_lines [] t.
Proof.
  remember (length a) as n eqn:En. assert (length a <= n) as Hn by lia. clear En. revert acc a Hn.
  induction n as [|n IH]; intros acc a Hn.
  { destruct a; [|cbn in Hn; lia]. reflexivity. }
  destruct a as [|c a]; [reflexivity|]. cbn [app byte_lines]. cbn in Hn.
  destruct (is_lf c); [rewrite <- app_comm_cons; f_equal; apply IH; lia|].
  destruct (is_cr c); [|apply IH; lia].
  destruct a as [|d a]; [reflexivity|]. cbn [app]. cbn in Hn.
  destruct (is_lf d); cbn [app].
  - f_equal. apply IH. lia.
  - f_equal. apply (IH [] (d :: a)). cbn. lia.
Qed.

Lemma lf_of c : is_lf c = true -> c = Ascii.ascii_of_N 10.
Proof.
  unfold is_lf, byte_val. intros H%N.eqb_eq. by rewrite <- H, Ascii.ascii_N_embedding.
Qed.

(** Every newline ends a record, and what follows the last one is a record more. *)
Lemma records_count acc t :
  count_lf t + (if decide (acc = [] /\ t = []) then 0 else
                match last t with Some c => if is_lf c then 0 else 1 | None => 1 end) <= length (byte_lines acc t).
Proof.
  remember (length t) as n eqn:En. assert (length t <= n) as Hn by lia. clear En. revert acc t Hn.
  induction n as [|n IH]; intros acc t Hn.
  { destruct t; [|cbn in Hn; lia]. cbn. destruct (decide (acc = [])) as [->|Ha]; [by rewrite decide_True|].
    rewrite decide_False by tauto. cbn. lia. }
  destruct t as [|c t].
  { cbn. destruct (decide (acc = [])) as [->|Ha]; [by rewrite decide_True|]. rewrite decide_False by tauto. cbn. lia. }
  rewrite decide_False by (intros [_ [=]]). cbn in Hn. cbn [byte_lines].
  unfold count_lf. cbn [List.filter].
  destruct (is_lf c) eqn:Hc.
  - cbn [length]. specialize (IH [] t ltac:(lia)). unfold count_lf in IH.
    destruct t as [|d t]; [cbn; rewrite Hc; cbn; lia|]. rewrite decide_False in IH by (intros [_ [=]]).
    change (last (c :: d :: t)) with (last (d :: t)). lia.
  - assert (forall acc', acc' <> [] \/ t <> [] ->
      length (List.filter is_lf t) + match last (c :: t) with Some c => if is_lf c then 0 else 1 | None => 1 end
        <= length (byte_lines acc' t)) as Hgo.
    { intros acc' Ha. specialize (IH acc' t ltac:(lia)). unfold count_lf in IH.
      destruct t as [|d t]; [|by rewrite decide_False in IH by (intros [_ [=]])].
      rewrite decide_False in IH by (intros [? _]; destruct Ha; congruence). cbn. rewrite Hc. cbn in IH. lia. }
    destruct (is_cr c) eqn:Hcr; [|by apply Hgo; left].
    destruct t as [|d t]; [cbn; rewrite Hc; cbn; lia|].
    destruct (is_lf d) eqn:Hd.
    + specialize (IH [] t ltac:(cbn in Hn; lia)). unfold count_lf in IH. cbn [List.filter length]. rewrite Hd. cbn [length].
      destruct t as [|e t]; [cbn; rewrite Hd; cbn; lia|]. rewrite decide_False in IH by (intros [_ [=]]).
      change (last (c :: d :: e :: t)) with (last (e :: t)). lia.
    + cbn [length]. specialize (Hgo [] ltac:(by right)). lia.
Qed.

Lemma count_lf_app s t : count_lf (s ++ t) = count_lf s + count_lf t.
Proof. unfold count_lf. by rewrite List.filter_app, length_app. Qed.

Lemma first_lf s : 0 < count_lf s -> exists a t, s = a ++ [Ascii.ascii_of_N 10] ++ t /\ count_lf t = count_lf s - 1.
Proof.
  induction s as [|c s IH]; [cbn; lia|]. unfold count_lf in *. cbn [List.filter]. destruct (is_lf c) eqn:Hc; intros Hs.
  - exists [], s. apply lf_of in Hc as ->. split; [done|]. cbn. lia.
  - destruct (IH Hs) as (a & t & -> & Ht). by exists (c :: a), t.
Qed.

Lemma last_n_app {A} n (x y : list A) : n <= length y -> last_n n (x ++ y) = last_n n y.
Proof. intros Hn. unfold last_n. rewrite length_app, drop_app_ge by lia. f_equal. lia. Qed.

Lemma ends_with_newline_last content :
  ends_with_newline content = match last content with Some c => is_lf c | None => false end.
Proof.
  destruct content as [|c s] using rev_ind; [done|]. rewrite last_snoc.
  unfold ends_with_newline, read_at. rewrite length_app. cbn [length].
  replace (length s + 1 - 1) with (length s) by lia. by rewrite drop_app_length.
Qed.

(** Enough newlines at the end of a file hold its last records. *)
Lemma suffix_records content position lines : 0 < lines ->
  lines + (if ends_with_newline content then 1 else 0) <= count_lf (drop position content) ->
  last_n lines (splitlines_bytes (drop position content)) = last_n lines (splitlines_bytes content).
Proof.
  rewrite ends_with_newline_last. intros Hl Hc.
  destruct (first_lf (drop position content)) as (a & t & Hs & Ht); [lia|].
  assert (content = (take position content ++ a) ++ [Ascii.ascii_of_N 10] ++ t) as Hw.
  { rewrite <- app_assoc. rewrite <- Hs. by rewrite take_drop. }
  assert (lines <= length (splitlines_bytes t)) as Hn.
  { pose proof (records_count [] t) as Hr. unfold splitlines_bytes. destruct t as [|c t] using rev_ind.
    - assert (last content = Some (Ascii.ascii_of_N 10)) as Hlast by (rewrite Hw, app_nil_r; apply last_snoc).
      rewrite Hlast in Hc. change (is_lf _) with true in Hc. cbv iota in Hc. change (count_lf []) with 0 in Ht. lia.
    - clear IHt. assert (last content = Some c) as Hlast by (rewrite Hw, !app_assoc; apply last_snoc).
      rewrite Hlast in Hc. rewrite last_snoc, decide_False in Hr by (intros [_ E]; by destruct t).
      destruct (is_lf c); lia. }
  rewrite Hs, Hw at 1. unfold splitlines_bytes in *. rewrite !byte_lines_lf, !last_n_app by done. done.
Qed.

Lemma read_at_drop content position size : size <= position -> position <= length content ->
  read_at content (position - size) size ++ drop position content = drop (position - size) content.
Proof.
  intros Hs Hp. unfold read_at. rewrite <- (take_drop size (drop (position - size) content)) at 2.
  rewrite drop_drop. do 2 f_equal. lia.
Qed.

Lemma read_chunks_suffix content fuel position required chunks : position <= length content -> position <= fuel ->
  List.concat (rev chunks) = drop position content ->
  exists position',
    List.concat (rev (read_chunks content fuel position (count_lf (drop position content)) required chunks)) =
      drop position' content /\ (position' = 0 \/ required <= count_lf (drop position' content)).
Proof.
  revert position chunks. induction fuel as [|fuel IH]; intros position chunks Hp Hf Hc; cbn [read_chunks].
  { exists position. split; [done|]. left. lia. }
  destruct (Nat.eqb_spec position 0) as [->|Hz]; [exists 0; by split; [|left]|]. cbn [negb andb].
  destruct (Nat.ltb_spec (count_lf (drop position content)) required) as [Hr|Hr]; [|exists position; by split; [|right]].
  cbv zeta. set (size := Nat.min CHUNK position).
  assert (0 < CHUNK) as Hk by (unfold CHUNK; lia).
  assert (0 < size /\ size <= position) as [Hs Hle] by lia.
  pose proof (read_at_drop content position size Hle Hp) as Hd.
  rewrite Nat.add_comm, <- count_lf_app, Hd. apply IH; [lia|lia|].
  rewrite rev_unit. cbn [List.concat]. by rewrite Hc.
Qed.

Lemma tail_records_spec content lines : 0 < lines ->
  tail_records content lines = last_n lines (splitlines_bytes content).
Proof.
  intros Hl. unfold tail_records. destruct (Nat.eqb_spec (length content) 0) as [E|_].
  { destruct content; [|done]. change (splitlines_bytes []) with (@nil bytes). unfold last_n. by rewrite drop_nil. }
  destruct (read_chunks_suffix content (length content) (length content)
    (lines + (if ends_with_newline content then 1 else 0)) []) as (p & Hc & Hp); [done|done|by rewrite drop_all|].
  rewrite drop_all in Hc. cbn [count_lf List.filter length] in Hc. rewrite Hc.
  destruct Hp as [->|Hp]; [done|]. by apply suffix_records.
Qed.

(** C39: Reading a log backwards in chunks is reading all of it and keeping the last
    records: whatever the size of the file, where its chunks fall and how its lines end. *)
Theorem tail_is_last_records path file lines :
  _read_file path file lines =
    (lines ← _lines lines;
     match file with
     | None => raise LogReaderError ("execution log not found: " +:+ path_str path)
     | Some content =>
         if (lines =? 0)%Z then Ok []
         else
         catch
           (content ← content; res_map decode_record (last_n (Z.to_nat lines) (splitlines_bytes content)))
           is_unreadable
           (fun e => raise LogReaderError ("cannot read execution log " +:+ path_str path +:+ ": " +:+ exn_msg e))
     end).
Proof.
  unfold _read_file, _lines. destruct (Z.ltb_spec lines 0) as [|Hl]; [done|]. cbn [mbind res_bind].
  destruct file as [content|]; [|done]. destruct (Z.eqb_spec lines 0) as [|Hz]; [done|].
  destruct content as [content|e]; [|done]. cbn [mbind res_bind]. by rewrite tail_records_spec by lia.
Qed.

(** * The world of the reader *)

(** [H] is the type of an open log. *)
Class LogWorld (W H : Type) : Type := {
  lw_load : py W pyval;
  lw_authority : py W (option dict);
  lw_reports : option string -> py W (list ExecutionReport);
  lw_file : Path -> py W (option (res bytes));
  lw_exists : Path -> py W bool;
  lw_is_symlink : Path -> py W bool;
  lw_print : string -> py W unit;
  lw_sleep : py W unit;
  (** [path.open(encoding="utf-8")] and [handle.seek(0, 2)] *)
  lw_open_end : Path -> py W H;
  lw_readline : H -> py W string;
  lw_close : H -> W -> W
}.

Section Reader.
Context {W H : Type} `{LogWorld W H}.

Definition reader_error {A} (msg : string) : py W A := py_raise LogReaderError msg.

Definition store_errors {A} (m : py W A) : py W A :=
  py_catch m (is_class RuntimeStoreError) (fun e => reader_error (exn_msg e)).

Definition report_errors {A} (m : py W A) : py W A :=
  py_catch m (is_class ExecutionReportError) (fun e => reader_error (exn_msg e)).

Definition service_unit : py W pyval :=
  authority ← store_errors lw_authority;
  match authority with
  | Some authority =>
      if negb (eq_str (get authority "authority") "systemd")
      then reader_error "no persisted systemd service authority"
      else if negb (truthy (get authority "unit_name"))
      then reader_error "persisted systemd service authority has no unit"
      else mret (get authority "unit_name")
  | None => reader_error "no persisted systemd service authority"
  end.

(** [isinstance(state, dict) and state.get("phase") in {...}] *)
Definition agent_phase (state : pyval) : res (option dict) :=
  match state with
  | PDict d =>
      running ← in_strs (get d "phase") ["agent_pending"; "agent_running"];
      Ok (if (running : bool) then Some d else None)
  | _ => Ok None
  end.

Definition checked_identity (current : pyval) : res string :=
  match current with
  | PStr current =>
      if (current =? "")%string || negb (all_bytes is_lower_hex current)
      then raise LogReaderError "invalid current execution identity" else Ok current
  | _ => raise LogReaderError "invalid current execution identity"
  end.

Definition _current_execution_id : py W (option string) :=
  state ← store_errors lw_load;
  state ← py_lift (agent_phase state);
  match state with
  | None => mret None
  | Some d => current ← py_lift (checked_identity (get d "execution_id")); mret (Some current)
  end.

(** [dict.fromkeys(l)] *)
Definition fromkeys (l : list string) : list string :=
  keys (foldl (fun d k => dset d k tt) [] l).

(** Which identities a selector may name. *)
Definition select_identity (selector : string) (identities : list string) : res string :=
  match fromkeys (List.filter (starts_with selector) identities) with
  | [] => raise LogReaderError ("execution not found: " +:+ selector)
  | [identity] => Ok identity
  | matches =>
      raise LogReaderError ("execution prefix is ambiguous: " +:+ selector +:+ LF +:+ "matches:" +:+ LF +:+
                            String.concat LF (map (fun i => "  " +:+ i) (py_sorted matches)))
  end.

(** [execution_id]; [observed] when the state of the service is given too. *)
Definition execution_id (selector : string) (observed : bool) : py W string :=
  if (selector =? "")%string || negb (all_bytes is_lower_hex selector)
  then reader_error "execution ID must be a lowercase hexadecimal ID or prefix"
  else
  reports ← report_errors (lw_reports None);
  let identities := map rep_execution_id reports in
  current ← if observed then _current_execution_id else mret None;
  py_lift (select_identity selector (identities ++ option_list current)).

Variable state_dir : Path.
Variable state_key : string.
Variable control_worktree : Path.

Definition log_path (execution : string) : py W Path := py_lift (execution_log_path state_dir state_key execution).

(** [except OperationalLogError] *)
Definition checked_log_path (execution : string) : py W Path :=
  py_catch (log_path execution) (is_class OperationalLogError) (fun e => reader_error (exn_msg e)).

Definition read_log (path : Path) (lines : Z) : py W (list string) :=
  _ ← py_lift (_lines lines);
  file ← lw_file path;
  py_lift (_read_file path file lines).

Definition execution_log (selector : string) (lines : Z) : py W (string * list string) :=
  resolved ← execution_id selector true;
  path ← checked_log_path resolved;
  records ← read_log path lines;
  mret (resolved, records).

(** ** Tickets *)

Variable workflow_paths : list (string * string).

Definition ticket_location (ticket_id : string) (state : string * string) : py W (list string) :=
  let path := path_join (path_join control_worktree (Path_of state.2)) (Path_of (ticket_id +:+ ".md")) in
  there ← lw_exists path;
  if negb (there : bool) then mret []
  else
  link ← lw_is_symlink path;
  file ← lw_file path;
  if (link : bool) || match file with None => true | Some _ => false end
  then reader_error ("ticket state is unsafe: " +:+ path_str path)
  else mret [state.1].

Fixpoint ticket_locations (ticket_id : string) (states : list (string * string)) : py W (list string) :=
  match states with
  | [] => mret []
  | state :: states =>
      here ← ticket_location ticket_id state;
      rest ← ticket_locations ticket_id states;
      mret (here ++ rest)
  end.

Definition _ticket_observation (ticket_id : string) : py W string :=
  if negb (is_identifier ticket_id) then reader_error ("invalid ticket ID: " +:+ ticket_id)
  else
  locations ← ticket_locations ticket_id workflow_paths;
  match locations with
  | [state] => mret state
  | [] => reader_error ("ticket not found: " +:+ ticket_id)
  | _ => reader_error ("ticket state is ambiguous: " +:+ ticket_id +:+ " (" +:+ String.concat ", " locations +:+ ")")
  end.

Definition _ticket_reports (ticket_id : string) : py W (list ExecutionReport) :=
  report_errors (lw_reports (Some ticket_id)).

Definition _active_ticket_execution (ticket_id : string) : py W (option string) :=
  state ← store_errors lw_load;
  state ← py_lift (agent_phase state);
  match state with
  | None => mret None
  | Some d =>
      if negb (eq_str (get d "execution_ticket_id") ticket_id) then mret None
      else execution ← py_lift (checked_identity (get d "execution_id")); mret (Some execution)
  end.

Definition _execution_header (execution : string) (conclusion : option string) : string :=
  let detail := match conclusion with Some c => " conclusion=" +:+ c | None => " state=active" end in
  LF +:+ "===== execution " +:+ execution +:+ detail +:+ " =====" +:+ LF.

Definition logged (execution : string) (conclusion : option string) (lines : Z) : py W (list string) :=
  path ← log_path execution;
  records ← read_log path lines;
  mret (_execution_header execution conclusion :: records).

Fixpoint reported_logs (reports : list ExecutionReport) (lines : Z) : py W (list string) :=
  match reports with
  | [] => mret []
  | report :: reports =>
      records ← logged (rep_execution_id report) (Some (er_conclusion (rep_result report))) lines;
      rest ← reported_logs reports lines;
      mret (records ++ rest)
  end.

Definition ticket_log (ticket_id : string) (lines : Z) : py W (string * list string) :=
  _ ← _ticket_observation ticket_id;
  reports ← _ticket_reports ticket_id;
  active ← _active_ticket_execution ticket_id;
  records ← reported_logs reports lines;
  records' ← match active with
             | Some active =>
                 if existsb (String.eqb active) (map rep_execution_id reports) then mret []
                 else logged active None lines
             | None => mret []
             end;
  mret (ticket_id, records ++ records').

(** ** Following *)

Definition _execution_active (execution : string) : py W bool :=
  state ← store_errors lw_load;
  state ← py_lift (agent_phase state);
  mret (match state with Some d => eq_str (get d "execution_id") execution | None => false end).

Definition _execution_terminal (execution : string) : py W bool :=
  reports ← report_errors (lw_reports None);
  mret (existsb (fun report => (rep_execution_id report =? execution)%string) reports).

(** A loop that takes passes: [None] when it has not ended after them. *)
Fixpoint wait_for_log (fuel : nat) (path : Path) (execution : string) (lines : Z) : py W (option H) :=
  match fuel with
  | 0 => mret None
  | S fuel =>
      terminal ← _execution_terminal execution;
      active ← _execution_active execution;
      file ← lw_file path;
      match file with
      | Some _ =>
          records ← read_log path lines;
          _ ← lw_print (of_chars records);
          handle ← lw_open_end path;
          mret (Some handle)
      | None =>
          if (terminal : bool) then reader_error ("execution log not found: " +:+ path_str path)
          else if negb (active : bool)
          then reader_error ("execution " +:+ execution +:+ " is no longer active and has no report")
          else _ ← lw_sleep; wait_for_log fuel path execution lines
      end
  end.

(** What is left of a log whose execution is over. *)
Fixpoint drain_log (fuel : nat) (handle : H) : py W (option Z) :=
  match fuel with
  | 0 => mret None
  | S fuel =>
      line ← lw_readline handle;
      if (line =? "")%string then mret (Some 0%Z) else _ ← lw_print line; drain_log fuel handle
  end.

Fixpoint follow_log (fuel : nat) (execution : string) (handle : H) : py W (option Z) :=
  match fuel with
  | 0 => mret None
  | S fuel =>
      line ← lw_readline handle;
      if negb (line =? "")%string then _ ← lw_print line; follow_log fuel execution handle
      else
      terminal ← _execution_terminal execution;
      if (terminal : bool) then _ ← lw_sleep; drain_log fuel handle
      else
      active ← _execution_active execution;
      if negb (active : bool) then _ ← lw_sleep; follow_log fuel execution handle
      else _ ← lw_sleep; follow_log fuel execution handle
  end.

Definition interrupted (m : py W (option Z)) : py W (option Z) :=
  py_catch m (is_class PyKeyboardInterrupt) (fun _ => mret (Some 130%Z)).

Definition follow_execution (fuel : nat) (execution : string) (lines : Z) : py W (option Z) :=
  lines ← py_lift (_lines lines);
  path ← checked_log_path execution;
  interrupted
    (handle ← wait_for_log fuel path execution lines;
     match handle with
     | None => mret None
     | Some handle => py_finally (follow_log fuel execution handle) (lw_close handle)
     end).

(** The reports of a ticket that were not shown yet. *)
Fixpoint show_reports (reports : list ExecutionReport) (printed : list string) (lines : Z) : py W (list string) :=
  match reports with
  | [] => mret printed
  | report :: reports =>
      if existsb (String.eqb (rep_execution_id report)) printed then show_reports reports printed lines
      else
      path ← log_path (rep_execution_id report);
      _ ← lw_print (_execution_header (rep_execution_id report) (Some (er_conclusion (rep_result report))));
      records ← read_log path lines;
      _ ← lw_print (of_chars records);
      show_reports reports (printed ++ [rep_execution_id report]) lines
  end.

Fixpoint follow_ticket_loop (fuel : nat) (ticket_id : string) (printed : list string) (lines : Z) : py W (option Z) :=
  match fuel with
  | 0 => mret None
  | S fuel =>
      state ← _ticket_observation ticket_id;
      reports ← _ticket_reports ticket_id;
      printed ← show_reports reports printed lines;
      if (state =? "done")%string then mret (Some 0%Z)
      else
      active ← _active_ticket_execution ticket_id;
      match active with
      | Some active =>
          let shown := existsb (String.eqb active) printed in
          _ ← if shown then mret tt else lw_print (_execution_header active None);
          result ← follow_execution fuel active (if shown then 0 else lines)%Z;
          match result with
          | None => mret None
          | Some result =>
              if negb (result =? 0)%Z then mret (Some result)
              else follow_ticket_loop fuel ticket_id (printed ++ [active]) lines
          end
      | None =>
          slept ← py_catch (_ ← lw_sleep; mret true) (is_class PyKeyboardInterrupt) (fun _ => mret false);
          if (slept : bool) then follow_ticket_loop fuel ticket_id printed lines else mret (Some 130%Z)
      end
  end.

Definition follow_ticket (fuel : nat) (ticket_id : string) (lines : Z) : py W (option Z) :=
  lines ← py_lift (_lines lines); follow_ticket_loop fuel ticket_id [] lines.
End Reader.

(** * The journal *)

Definition journal_command (unit : string) (lines : Z) (follow : bool) : res (list string) :=
  lines ← _lines lines;
  Ok (["journalctl"; "--user-unit"; unit; "--no-pager"; "--lines"; str_of_Z lines] ++
      if follow then ["--follow"] else []).

(** [stream_journal] without [--follow]: what is printed. *)
Definition stream_journal (unit : string) (lines : Z) (runner : list string -> res CompletedProcess) : res string :=
  command ← journal_command unit lines false;
  result ← catch (runner command) is_os_error
             (fun e => raise LogReaderError ("cannot run journalctl: " +:+ exn_msg e));
  if failed result
  then
    let detail := if negb (strip (stderr result) =? "")%string then strip (stderr result)
                  else if negb (strip (stdout result) =? "")%string then strip (stdout result)
                  else "unknown error" in
    raise LogReaderError ("journalctl failed: " +:+ detail)
  else Ok (stdout result).

(** * Resolution *)

Lemma fromkeys_spec l : NoDup (fromkeys l) /\ forall x, x ∈ fromkeys l <-> x ∈ l.
Proof.
  unfold fromkeys. assert (forall acc : list (string * unit), NoDup (keys acc) ->
    NoDup (keys (foldl (fun d k => dset d k tt) acc l)) /\
    forall x, x ∈ keys (foldl (fun d k => dset d k tt) acc l) <-> x ∈ keys acc \/ x ∈ l) as Hg.
  { induction l as [|k l IH]; intros acc Hn; cbn [foldl]; [split; [done|]; set_solver|].
    assert (NoDup (keys (dset acc k tt))) as Hn' by (by apply NoDup_dset).
    destruct (IH _ Hn') as [Hd Hx]. split; [done|]. intros x. rewrite Hx.
    assert (x ∈ keys (dset acc k tt) <-> x ∈ keys acc \/ x = k) as ->; [|set_solver].
    clear. induction acc as [|[k' []] acc IH]; [set_solver|]. cbn [dset].
    destruct (String.eqb_spec k' k) as [->|]; cbn [keys map fst] in *; set_solver. }
  destruct (Hg [] NoDup_nil_2) as [Hn Hx]. split; [done|]. intros x. rewrite Hx. set_solver.
Qed.

(** A selector resolves to an execution exactly when it is known and every known
    execution that begins with the selector is that one. *)
Theorem selector_resolves selector identities identity :
  select_identity selector identities = Ok identity <->
  identity ∈ identities /\ starts_with selector identity = true /\
  forall other, other ∈ identities -> starts_with selector other = true -> other = identity.
Proof.
  unfold select_identity. destruct (fromkeys_spec (List.filter (starts_with selector) identities)) as [Hn Hx].
  assert (forall x, x ∈ fromkeys (List.filter (starts_with selector) identities) <->
                    x ∈ identities /\ starts_with selector x = true) as Hk.
  { intros x. by rewrite Hx, !list_elem_of_In, filter_In. }
  clear Hx. destruct (fromkeys _) as [|a [|b l]].
  - split; [done|]. intros (Hi & Hs & _). exfalso. apply (not_elem_of_nil identity), Hk. by split.
  - split.
    + intros [= ->]. destruct (proj1 (Hk identity)) as [? ?]; [by left|]. split_and!; [done..|].
      intros other Hi Hs. apply list_elem_of_singleton, Hk. by split.
    + intros (Hi & Hs & _). f_equal. symmetry. apply list_elem_of_singleton, Hk. by split.
  - split; [done|]. intros (_ & _ & Hu). apply NoDup_cons in Hn as [Hn _]. exfalso. apply Hn.
    destruct (proj1 (Hk a)) as [? ?]; [by left|]. destruct (proj1 (Hk b)) as [? ?]; [by right; left|].
    rewrite (Hu a), (Hu b) by done. by left.
Qed.
