(* ===== verification/LogFollow.v ===== *)
(** Following an execution's log while a worker writes it: a world in which the log
    grows, the report appears or the execution is dropped at the pauses of the reader.
    What is shown, and two ways of missing the end. *)

From S2P Require Export LogReader.

(** * A world that moves while the reader sleeps *)

Inductive event : Type :=
  | Appends (text : string)
  | Reports (report : ExecutionReport)
  | Drops (state : pyval)
  | Interrupts.

Record scripted : Type := mkScript {
  sc_state : pyval;
  sc_reports : list ExecutionReport;
  sc_log : option string;
  (** what the worker appends between the reading of the log and its opening *)
  sc_race : string;
  sc_pending : string;
  sc_events : list event;
  sc_out : string
}.

Definition happens (e : event) (w : scripted) : scripted :=
  match e with
  | Appends text => mkScript (sc_state w) (sc_reports w) (Some (default "" (sc_log w) +:+ text)) (sc_race w)
                      (sc_pending w +:+ text) (sc_events w) (sc_out w)
  | Reports report => mkScript (sc_state w) (sc_reports w ++ [report]) (sc_log w) (sc_race w) (sc_pending w)
                        (sc_events w) (sc_out w)
  | Drops state => mkScript state (sc_reports w) (sc_log w) (sc_race w) (sc_pending w) (sc_events w) (sc_out w)
  | Interrupts => w
  end.

Definition with_events (events : list event) (w : scripted) : scripted :=
  mkScript (sc_state w) (sc_reports w) (sc_log w) (sc_race w) (sc_pending w) events (sc_out w).

Definition with_pending (pending : string) (w : scripted) : scripted :=
  mkScript (sc_state w) (sc_reports w) (sc_log w) (sc_race w) pending (sc_events w) (sc_out w).

Definition shows (text : string) (w : scripted) : scripted :=
  mkScript (sc_state w) (sc_reports w) (sc_log w) (sc_race w) (sc_pending w) (sc_events w) (sc_out w +:+ text).

(** The next line and what follows it. *)
Fixpoint cut_line (s : string) : string * string :=
  match s with
  | EmptyString => ("", "")
  | String c s' => if is_lf c then (String c "", s') else let '(line, rest) := cut_line s' in (String c line, rest)
  end.

Definition pause : py scripted unit := fun w =>
  match sc_events w with
  | [] => (Ok tt, w)
  | Interrupts :: events => (raise PyKeyboardInterrupt "", with_events events w)
  | e :: events => (Ok tt, happens e (with_events events w))
  end.

#[export] Instance scripted_logs : LogWorld scripted unit := {
  lw_load := fun w => (Ok (sc_state w), w);
  lw_authority := fun w => (Ok None, w);
  lw_reports := fun ticket w =>
    (Ok (List.filter (fun r => match ticket with Some k => (rep_ticket_id r =? k)%string | None => true end)
           (sc_reports w)), w);
  lw_file := fun _ w => (Ok (option_map (fun text => Ok (String.list_ascii_of_string text)) (sc_log w)), w);
  lw_exists := fun _ w => (Ok false, w);
  lw_is_symlink := fun _ w => (Ok false, w);
  lw_print := fun text w => (Ok tt, shows text w);
  lw_sleep := pause;
  lw_open_end := fun _ w => (Ok tt, with_pending "" (happens (Appends (sc_race w)) w));
  lw_readline := fun _ w => (Ok (cut_line (sc_pending w)).1, with_pending (cut_line (sc_pending w)).2 w);
  lw_close := fun _ w => w
}.

(** * Reading what is there *)

Lemma cut_line_whole s : (cut_line s).1 +:+ (cut_line s).2 = s.
Proof.
  induction s as [|c s IH]; [done|]. cbn. destruct (is_lf c); [done|].
  destruct (cut_line s) as [l r]. cbn in *. by rewrite str_app_cons, IH.
Qed.

Lemma cut_line_empty s : (cut_line s).1 = "" -> s = "".
Proof. destruct s as [|c s]; [done|]. cbn. destruct (is_lf c); [done|]. by destruct (cut_line s). Qed.

Lemma cut_line_shorter s : s <> "" -> String.length (cut_line s).2 < String.length s.
Proof.
  intros Hs. rewrite <- (cut_line_whole s) at 2. rewrite str_app_length.
  assert ((cut_line s).1 <> "") as Hl by (intros E; by apply Hs, cut_line_empty).
  destruct (cut_line s).1; [done|]. cbn. lia.
Qed.

(** The store answers, with whatever it holds. *)
Definition answers (w : scripted) : Prop := exists d, agent_phase (sc_state w) = Ok d.

Definition reported (execution : string) (w : scripted) : bool :=
  existsb (fun report => (rep_execution_id report =? execution)%string) (sc_reports w).

Lemma terminal_run execution w : _execution_terminal execution w = (Ok (reported execution w), w).
Proof.
  unfold _execution_terminal, report_errors. rewrite py_bind_run. unfold py_catch. cbn.
  assert (List.filter (fun _ : ExecutionReport => true) (sc_reports w) = sc_reports w) as ->; [|done].
  induction (sc_reports w) as [|r l IH]; [done|]. cbn. by rewrite IH.
Qed.

Lemma active_run execution w : answers w ->
  exists b, _execution_active execution w = (Ok b, w).
Proof.
  intros [d Hd]. unfold _execution_active, store_errors. rewrite !py_bind_run. unfold py_catch. cbn.
  unfold py_lift. rewrite Hd. eauto.
Qed.

(** A shown and finished log, before anything else happens. *)
Definition caught_up (w : scripted) : scripted := with_pending "" (shows (sc_pending w) w).

Lemma caught_up_cut w : sc_pending w <> "" ->
  caught_up (shows (cut_line (sc_pending w)).1 (with_pending (cut_line (sc_pending w)).2 w)) = caught_up w.
Proof. intros _. unfold caught_up, shows, with_pending. cbn. by rewrite str_app_assoc, cut_line_whole. Qed.

Lemma read_pending loop :
  (forall fuel w, sc_pending w <> "" -> loop (S fuel) w =
     loop fuel (shows (cut_line (sc_pending w)).1 (with_pending (cut_line (sc_pending w)).2 w))) ->
  forall w, exists n, forall fuel, (loop (n + fuel) w : res (option Z) * scripted) = loop fuel (caught_up w).
Proof.
  intros Hstep w. remember (String.length (sc_pending w)) as n eqn:En.
  assert (String.length (sc_pending w) <= n) as Hn by lia. clear En. revert w Hn.
  induction n as [|n IH]; intros w Hn.
  - exists 0. intros fuel. assert (sc_pending w = "") as E by (destruct (sc_pending w); [done|cbn in Hn; lia]).
    unfold caught_up, shows, with_pending. cbn. rewrite E, str_app_nil_r. destruct w; cbn in *. by subst.
  - destruct (decide (sc_pending w = "")) as [E|E].
    { exists 0. intros fuel. unfold caught_up, shows, with_pending. cbn. rewrite E, str_app_nil_r. destruct w; cbn in *. by subst. }
    destruct (IH (shows (cut_line (sc_pending w)).1 (with_pending (cut_line (sc_pending w)).2 w))) as [m Hm].
    { cbn. pose proof (cut_line_shorter _ E). lia. }
    exists (S m). intros fuel. cbn [Nat.add]. rewrite Hstep by done. by rewrite Hm, caught_up_cut.
Qed.

Lemma drain_step fuel w : sc_pending w <> "" -> drain_log (S fuel) tt w =
  drain_log fuel tt (shows (cut_line (sc_pending w)).1 (with_pending (cut_line (sc_pending w)).2 w)).
Proof.
  intros Hp. cbn [drain_log]. rewrite py_bind_run. cbn.
  destruct (String.eqb_spec (cut_line (sc_pending w)).1 "") as [E|_]; [by apply cut_line_empty in E|]. done.
Qed.

Lemma follow_step execution fuel w : sc_pending w <> "" -> follow_log (S fuel) execution tt w =
  follow_log fuel execution tt (shows (cut_line (sc_pending w)).1 (with_pending (cut_line (sc_pending w)).2 w)).
Proof.
  intros Hp. cbn [follow_log]. rewrite py_bind_run. cbn.
  destruct (String.eqb_spec (cut_line (sc_pending w)).1 "") as [E|_]; [by apply cut_line_empty in E|]. done.
Qed.

Lemma quiet w : sc_pending w = "" -> with_pending (cut_line (sc_pending w)).2 w = w.
Proof. intros E. rewrite E. destruct w; cbn in *. by subst. Qed.

(** With nothing to read the reader looks at the report, and pauses. *)
Lemma follow_quiet execution fuel w : answers w -> sc_pending w = "" ->
  follow_log (S fuel) execution tt w =
    (_ ← pause; if reported execution w then drain_log fuel tt else follow_log fuel execution tt) w.
Proof.
  intros Ha Hp. destruct (active_run execution w Ha) as [b Hb]. cbn [follow_log]. rewrite py_bind_run. cbn -[pause].
  rewrite quiet by done. rewrite Hp. cbn [cut_line fst String.eqb negb]. rewrite py_bind_run, terminal_run.
  destruct (reported execution w); [done|]. rewrite py_bind_run, Hb. by destruct b.
Qed.

Lemma drain_all w : exists n, forall fuel, drain_log (n + S fuel) tt w = (Ok (Some 0%Z), caught_up w).
Proof.
  destruct (read_pending (fun fuel => drain_log fuel tt) drain_step w) as [n Hn]. exists n. intros fuel.
  rewrite Hn. cbn [drain_log]. rewrite py_bind_run. reflexivity.
Qed.

Definition scheduled (texts : list string) (report : ExecutionReport) (late : string) : list event :=
  map Appends texts ++ [Reports report; Appends late].

Lemma follow_scheduled execution texts report late w :
  answers w -> reported execution w = false -> rep_execution_id report = execution ->
  sc_events w = scheduled texts report late ->
  exists n, forall fuel, exists w', follow_log (n + fuel) execution tt w = (Ok (Some 0%Z), w') /\
    sc_out w' = sc_out w +:+ sc_pending w +:+ of_chars texts +:+ late.
Proof.
  intros Ha Hr Hid. revert w Ha Hr. induction texts as [|text texts IH]; intros w Ha Hr Hev.
  - destruct (read_pending (fun fuel => follow_log fuel execution tt) (follow_step execution) w) as [n Hn].
    set (v := happens (Reports report) (with_events [Appends late] (caught_up w))).
    assert (reported execution v = true) as Hv.
    { unfold reported, v. cbn. rewrite existsb_app. cbn. by rewrite Hid, String.eqb_refl, orb_true_r. }
    set (u := happens (Appends late) (with_events [] v)). destruct (drain_all u) as [m Hm].
    exists (n + S (S (m + 1))). intros fuel. exists (caught_up u). split.
    + rewrite <- Nat.add_assoc, Hn. cbn [Nat.add]. rewrite follow_quiet by done. rewrite py_bind_run.
      unfold pause. cbn [sc_events caught_up with_pending shows]. rewrite Hev. cbn [scheduled map app].
      change (reported execution (caught_up w)) with (reported execution w). rewrite Hr.
      change (happens (Reports report) (with_events [Appends late] (caught_up w))) with v.
      rewrite follow_quiet by done. rewrite Hv, py_bind_run. unfold pause.
      change (sc_events v) with [Appends late]. cbv beta iota.
      change (happens (Appends late) (with_events [] v)) with u.
      rewrite <- Nat.add_assoc. apply Hm.
    + cbn. by rewrite !str_app_assoc.
  - destruct (read_pending (fun fuel => follow_log fuel execution tt) (follow_step execution) w) as [n Hn].
    set (v := happens (Appends text) (with_events (scheduled texts report late) (caught_up w))).
    destruct (IH v Ha Hr eq_refl) as [m Hm]. exists (n + S m). intros fuel. destruct (Hm fuel) as (w' & Hw & Ho).
    exists w'. split.
    + rewrite <- Nat.add_assoc, Hn. cbn [Nat.add]. rewrite follow_quiet by done. rewrite py_bind_run.
      unfold pause. cbn [sc_events caught_up with_pending shows]. rewrite Hev. cbn [scheduled map app].
      change (reported execution (caught_up w)) with (reported execution w). rewrite Hr.
      fold (scheduled texts report late). exact Hw.
    + rewrite Ho, of_chars_cons. cbn -[of_chars]. by rewrite !str_app_assoc.
Qed.

(** Following an execution whose log exists ends with the report of the execution,
    however many records are written meanwhile, and shows the last records that were
    there and everything written since the log was opened, the records written while
    the report appeared included. *)
Theorem follow_ends_with_report state_dir state_key execution lines w log records texts report late :
  is_identifier execution = true -> answers w -> reported execution w = false ->
  sc_log w = Some log -> rep_execution_id report = execution -> sc_events w = scheduled texts report late ->
  (forall path, _read_file path (Some (Ok (String.list_ascii_of_string log))) lines = Ok records) ->
  exists fuel w', follow_execution state_dir state_key fuel execution lines w = (Ok (Some 0%Z), w') /\
    sc_out w' = sc_out w +:+ of_chars records +:+ of_chars texts +:+ late.
Proof.
  intros Hi Ha Hr Hl Hid Hev Hread.
  set (v := with_pending "" (happens (Appends (sc_race w)) (shows (of_chars records) w))).
  destruct (follow_scheduled execution texts report late v Ha Hr Hid Hev) as [n Hn].
  destruct (Hn 1) as (w' & Hw & Ho). rewrite Nat.add_1_r in Hw. exists (S n), w'. split.
  2: { rewrite Ho. cbn. by rewrite str_app_assoc. }
  assert (_lines lines = Ok lines) as Hlines.
  { pose proof (Hread (Path_of "")) as Hd. unfold _read_file in Hd. unfold _lines in *. by destruct (lines <? 0)%Z. }
  unfold follow_execution. rewrite py_bind_run, py_lift_run, Hlines. rewrite py_bind_run.
  unfold checked_log_path, log_path, py_catch, execution_log_path, interrupted, py_catch. rewrite Hi. cbn [negb py_lift].
  rewrite py_bind_run. cbn [wait_for_log]. rewrite py_bind_run, terminal_run, Hr, py_bind_run.
  destruct (active_run execution w Ha) as [b ->]. rewrite py_bind_run. cbn [lw_file scripted_logs]. rewrite Hl.
  cbn [option_map]. unfold read_log. rewrite !py_bind_run, py_lift_run, Hlines. rewrite !py_bind_run. cbn [lw_file scripted_logs].
  rewrite Hl. cbn [option_map]. rewrite py_lift_run, Hread. rewrite !py_bind_run. cbn [lw_print scripted_logs].
  rewrite !py_bind_run. cbn [lw_open_end scripted_logs mret py_ret].
  unfold py_finally. change (with_pending "" _) with v. by rewrite Hw.
Qed.

(** * What a follower does not see *)

(** Nothing more happens: the reader pauses for ever. *)
Lemma follow_silence execution w : answers w -> sc_pending w = "" -> reported execution w = false ->
  sc_events w = [] -> forall fuel, follow_log fuel execution tt w = (Ok None, w).
Proof.
  intros Ha Hp Hr He fuel. induction fuel as [|fuel IH]; [done|].
  rewrite follow_quiet by done. rewrite Hr, py_bind_run. unfold pause. by rewrite He.
Qed.

(** Following an execution that was dropped, so that it is neither active nor ever
    gets a report, does not end when its log exists: whatever the number of passes,
    the reader still waits.  Where the log does not exist the same execution is
    refused at once. *)
Theorem dropped_execution_is_followed_forever state_dir state_key execution lines w :
  is_identifier execution = true -> answers w -> reported execution w = false ->
  (_execution_active execution w).1 = Ok false -> sc_events w = [] ->
  match sc_log w with
  | Some log => forall records,
      (forall path, _read_file path (Some (Ok (String.list_ascii_of_string log))) lines = Ok records) ->
      forall fuel, (follow_execution state_dir state_key fuel execution lines w).1 = Ok None
  | None => forall fuel, (0 <= lines)%Z ->
      (follow_execution state_dir state_key (S fuel) execution lines w).1 =
        raise LogReaderError ("execution " +:+ execution +:+ " is no longer active and has no report")
  end.
Proof.
  intros Hi Ha Hr Hact He. destruct (active_run execution w Ha) as [b Hb]. rewrite Hb in Hact. injection Hact as ->.
  destruct (sc_log w) as [log|] eqn:Hl.
  - intros records Hread fuel.
    set (v := with_pending "" (happens (Appends (sc_race w)) (shows (of_chars records) w))).
    assert (_lines lines = Ok lines) as Hlines.
    { pose proof (Hread (Path_of "")) as Hd. unfold _read_file in Hd. unfold _lines in *. by destruct (lines <? 0)%Z. }
    unfold follow_execution. rewrite py_bind_run, py_lift_run, Hlines. rewrite py_bind_run.
    unfold checked_log_path, log_path, py_catch, execution_log_path, interrupted, py_catch. rewrite Hi. cbn [negb py_lift].
    rewrite py_bind_run. destruct fuel as [|fuel]; [done|].
    cbn [wait_for_log]. rewrite py_bind_run, terminal_run, Hr, py_bind_run.
    rewrite Hb. rewrite py_bind_run. cbn [lw_file scripted_logs]. rewrite Hl.
    cbn [option_map]. unfold read_log. rewrite !py_bind_run, py_lift_run, Hlines. rewrite !py_bind_run. cbn [lw_file scripted_logs].
    rewrite Hl. cbn [option_map]. rewrite py_lift_run, Hread. rewrite !py_bind_run. cbn [lw_print scripted_logs].
    rewrite !py_bind_run. cbn [lw_open_end scripted_logs mret py_ret].
    unfold py_finally. change (with_pending "" _) with v. by rewrite (follow_silence execution v).
  - intros fuel Hlines. unfold follow_execution. rewrite py_bind_run, py_lift_run. unfold _lines.
    destruct (Z.ltb_spec lines 0); [lia|]. rewrite py_bind_run.
    unfold checked_log_path, log_path, py_catch, execution_log_path, interrupted, py_catch. rewrite Hi. cbn [negb py_lift].
    rewrite py_bind_run. cbn [wait_for_log]. rewrite py_bind_run, terminal_run, Hr, py_bind_run.
    rewrite Hb. rewrite py_bind_run. cbn [lw_file scripted_logs]. by rewrite Hl.
Qed.

(** * A concrete log *)

Definition followed_report : ExecutionReport :=
  mkReport "ab12" "t-1" "c0" "h0" "devlegate/work/t-1" "/w" None
    (mkResult 0 None None None "failed" [] [] "no claim" true) None None.

Definition followed : scripted :=
  mkScript (PDict [("phase", PStr "agent_running"); ("execution_id", PStr "ab12")]) []
    (Some ("one" +:+ LF +:+ "two" +:+ LF)) ("lost" +:+ LF) ""
    (scheduled ["three" +:+ LF; "four" +:+ LF] followed_report ("five" +:+ LF)) "".

Lemma follow_ends_with_report_witness : exists fuel w',
  follow_execution (Path_of "/s") "key" fuel "ab12" 1 followed = (Ok (Some 0%Z), w') /\
  sc_out w' = "two" +:+ LF +:+ "three" +:+ LF +:+ "four" +:+ LF +:+ "five" +:+ LF.
Proof.
  edestruct (follow_ends_with_report (Path_of "/s") "key" "ab12" 1 followed ("one" +:+ LF +:+ "two" +:+ LF)
    ["two" +:+ LF] ["three" +:+ LF; "four" +:+ LF] followed_report ("five" +:+ LF)) as (fuel & w' & Hf & Ho);
    [reflexivity|by eexists; vm_compute|reflexivity..|intros path; vm_compute; reflexivity|].
  exists fuel, w'. split; [exact Hf|]. rewrite Ho. reflexivity.
Defined.

(** What the worker writes after the last records were read and before the log is
    opened at its end is never shown: here the record [lost], between [two] and
    [three]. *)
Theorem raced_record_is_never_shown : exists w',
  follow_execution (Path_of "/s") "key" 20 "ab12" 1 followed = (Ok (Some 0%Z), w') /\
  sc_log w' = Some ("one" +:+ LF +:+ "two" +:+ LF +:+ "lost" +:+ LF +:+ "three" +:+ LF +:+ "four" +:+ LF +:+ "five" +:+ LF) /\
  sc_out w' = "two" +:+ LF +:+ "three" +:+ LF +:+ "four" +:+ LF +:+ "five" +:+ LF.
Proof. eexists. split; [vm_compute; reflexivity|]. split; vm_compute; reflexivity. Qed.
